(* ===== verification/_CoqProject ===== *)
-Q . S2P
Prelude.v
Riscv.v
Kstate.v
Mem.v
Kalloc.v
Vm.v
PageTable.v
VmSpec.v
Machine.v
VmMap.v
VmCopy.v
MemTheorems.v
Sched.v
Bytes.v
Bio.v
Log.v
Fs.v
Pipe.v
File.v
Vma.v
VmaSpec.v
VmaUnmap.v
Proc.v
Exec.v
Syscall.v
Trap.v
BioSpec.v
BioOps.v
LogSpec.v
LogCrash.v
LogTheorems.v
Frame.v
LogReserve.v
VmaExit.v
Ulib.v
Grep.v
Spinlock.v
RingBuf.v
PipeSpec.v
Console.v
ConsoleSpec.v
VmaFork.v
Readi.v
PageFault.v
VirtioDisk.v
VirtioSpec.v
VirtioInv.v
VirtioTheorems.v
Sh.v
ShSpec.v
ShParse.v
ShTheorems.v
Smp.v
SmpInv.v
SmpTheorems.v
FsTx.v
Balloc.v
Bmap.v
Writei.v
Dir.v
Inode.v
FsCommit.v
FsTheorems.v
Umalloc.v
UmallocSpec.v
UmallocTheorems.v
Mkfs.v
MkfsSpec.v
MkfsImage.v
MkfsTheorems.v
ShRun.v
Utils.v
VmFork.v
UlibTypes.v
UlibMem.v
Boot.v
BootTheorems.v
MmapLife.v
VmKernel.v
VmLife.v
