(* ===== verification/Prelude.v ===== *)
(** A verification of xv6 for RISC-V with memory-mapped files.

    The program (xv6-riscv/) is the teaching kernel xv6 with two more system
    calls, mmap() and munmap(), and with the memory areas ("vmas") behind them.
    The kernel sources are in kernel/, the user programs in user/, the host
    tool that builds the disk image in mkfs/.

    * How the code is translated

    A kernel function is a function of the state-and-error monad [M] of this
    file: it returns a value and a new state, or stops the thread with an
    error value (a panic, a fault, a sleep).  The state is the record [kstate]
    of Kstate.v: physical memory by bytes, the page and file tables, the
    processes, buffers, log, pipes and the set of locks the hart holds, each as
    the record or list that the C structure or array is.  Integers are Z, with
    the reductions of their C type written out ([u64], [u32], [s32], ...).
    Parts that only make sense with several harts or with a device have a
    state and a step relation of their own (Spinlock, Smp, VirtioDisk); the
    boot code runs on a hart with its control registers (Boot); user programs
    are functions on byte lists, on the memory of the process or on the system
    calls they make (Ulib, Umalloc, Grep, Sh, ShRun, Utils).

    * Files and what they model

    - Prelude (this file): the monad, its run and weakest-precondition lemmas,
      C integers, lists.  Riscv: param.h, memlayout.h, riscv.h, fcntl.h, vma.h.
      Kstate: the state, spin locks as one hart sees them (spinlock.c).
    - Memory: Mem (string.c, byte operations), Kalloc (kalloc.c, with page
      reference counts), Vm (vm.c).  PageTable, VmSpec, Machine, VmMap, VmCopy:
      the Sv39 walk as address translation, and vm.c against it.  MemTheorems
      holds the theorems; VmFork those about uvmcopy(); VmKernel those about the
      kernel's own page table (kinit(), kvmmake()); VmLife those about freewalk(),
      proc_pagetable(), uvmalloc() and proc_freepagetable().
    - Memory areas: Vma (mmap() and munmap() in file.c), VmaSpec (areas as a
      sorted list of intervals; mmap() is first fit), VmaUnmap (munmap()),
      VmaExit (exit() unmaps all areas, proc.c), VmaFork (fork() copies them),
      Readi (fs.c readi() on mapped memory), PageFault (the page-fault handler
      of trap.c), MmapLife (mmap(), page faults and munmap() together).
    - Processes and system calls: Sched (sched, sleep, wakeup, yield, kill;
      sleeplock.c), Proc (proc.c), Exec (exec.c), Syscall (syscall.c,
      sysfile.c, sysproc.c), Trap (trap.c), Spinlock (spinlock.c on several
      harts), Smp, SmpInv, SmpTheorems (scheduler(), sched(), sleep(), wakeup()
      and the other users of p->lock on several harts, with interrupts).
    - Storage: Bio (bio.c), Log (log.c), Fs (fs.c), File (file.c), Pipe
      (pipe.c); BioSpec, BioOps: the LRU ring and the buffer cache;
      LogSpec, LogCrash, LogTheorems, Frame, LogReserve: commits, crashes and
      reservations; RingBuf, PipeSpec: bounded queues; VirtioDisk, VirtioSpec,
      VirtioInv, VirtioTheorems: virtio_disk.c with the device.
    - File system: FsTx (buffers and log inside a transaction), Balloc (the
      bitmap), Bmap (the blocks of a file), Writei (readi(), writei()), Inode
      (iupdate(), ilock()), Dir (dirlookup(), dirlink(), skipelem()), FsCommit
      (begin_op() and end_op() around them), FsTheorems.  A block below
      the data blocks or above the log is a home block; a transaction has room
      for the N blocks begin_op() reserves, N at most LOGSIZE.
    - Disk image: Mkfs (mkfs.c), MkfsSpec (the image as files placed one after
      the other), MkfsImage (inodes and appends), MkfsTheorems.
    - Boot: Boot (start.c, plic.c, the accessors of riscv.h, timervec of
      kernelvec.S, the per-hart part of main.c), BootTheorems.
    - Console: Console (uart.c, console.c, kernel printf.c, procdump of
      proc.c), ConsoleSpec.  Bytes: the C strings of string.c.
    - User programs: Ulib (ulib.c, printf.c), UlibTypes (the argument types of
      printf()), UlibMem (memory functions and stat() of ulib.c), Umalloc,
      UmallocSpec, UmallocTheorems (umalloc.c), Grep (grep.c), Sh, ShSpec,
      ShParse, ShTheorems (the parser of sh.c), ShRun (runcmd() and main() of
      sh.c over a table of file descriptors), Utils (cat, wc, echo, rm, mkdir,
      ln, kill, ls, init; do_rand() of grind.c).

    * What the theorems show

    - mmap() chooses the lowest gap that fits and keeps the areas sorted and
      disjoint; munmap() cuts its range out of the area and frees the pages; a
      page fault loads the page from the file; fork() copies the areas; exit()
      unmaps them all.  Put together: the bytes of a mapping are those of the
      file whatever the order of the faults, and munmap() restores the areas, the
      reference counts and the translations.  The error theorems state the cases
      in which the code faults, spins, or keeps a lock (they are listed as
      findings).
    - mappages(), uvmunmap(), copyout() and copyin() are correct for the
      translation that the hardware does; kalloc() and kfree() are pop and push
      of a list of pages.
    - A crash anywhere in commit() leaves, after recovery, all or none of the
      blocks of a transaction; reservations of begin_op() keep log_write() from
      running out of room in a log with one block more than the one mkfs
      builds; in that one it panics exactly when the last block is asked for.
    - Inside a transaction balloc() takes the first free block, bmap() keeps
      every file's blocks distinct and marked, readi() reads what writei() wrote,
      dirlookup() finds what dirlink() linked; begin_op(), writei() and
      end_op() together are one atomic update of the disk.  The image mkfs
      builds satisfies the invariants these theorems assume, and contains its
      files.
    - uvmcopy() gives the child frames of its own with the same bytes and flags.
      kinit() and kvmmake() build an address space with RAM and devices at their
      own addresses, guarded stacks, and no page both writable and executable.
      proc_freepagetable() gives back every page that proc_pagetable() and
      uvmalloc() took, tables included, each once.
    - start() leaves each hart in supervisor mode with its timer armed, and no
      code in supervisor or user mode can lose the timer.
    - acquire() and release() give mutual exclusion under any interleaving of
      their memory accesses, and panic exactly on misuse.  On any number of
      harts, with interrupts anywhere, a process runs on one at a time, sched()
      finds p->lock held and the state changed, the schedulers hold no other
      lock, and wakeup() misses no sleeper.
    - The disk driver implements an atomic block transfer under any
      interleaving of threads, interrupts and device; it loses no wake-up and
      frees all descriptors.  The rest of the storage stack uses that atomic
      transfer.
    - Pipes and the serial output are bounded queues; the console implements
      line editing; grep's matcher decides its pattern language; the shell's
      parser decides its grammar, and the programs of a line are started with
      the descriptors the line asks for; malloc() and free() keep an ordered,
      merged free list; printf() is defined exactly on the argument types its
      format asks for and prints the values of its arguments; printed numbers
      read back.  Init stops only when fork() fails
      and starts a shell again each time the last one exits; do_rand() is the
      generator its comment names.

    * Parameters

    Code outside the repository is an argument: the device switch [Devsw]
    (its entries are set at run time), the UART chip ([UartHw], with the
    documented behaviour [UartOk]), the virtio device (any relation included
    in [dev_doc]), the interrupt controller in Trap and (with [PlicOk]) in
    BootTheorems, what a hart's implementation fixes and where the linker puts
    symbols ([IsaOk], [SymbolsOk]), the host files that mkfs reads (its writes
    to the image file are taken to succeed), whether the kernel can grow a
    process (malloc()).  Each theorem with such a
    parameter has an instance with a concrete function.

    * Fuel

    A loop whose bound is not structural takes fuel; running out of it is an
    error value of its own.  The theorems that a function returns are proved
    with the fuel the definition fixes (for example [Z.to_nat n] for a copy of
    n bytes, the number of list nodes for a walk along areas, four times the
    length of a line plus four for the shell's parser, the number of bytes for
    iappend() of mkfs) or with a lower bound on the fuel in the statement (twice
    the length of the free list plus one for malloc()).

    * Not modelled

    The composition of the init calls of the first hart in main.c (apart from
    kinit() and kvmmake()) and the assembly that saves and restores registers
    (kernelvec, trampoline.S, swtch.S, entry.S); TLB flushes; the RAM disk
    driver, which the Makefile does not build; the test programs (usertests,
    grind but for do_rand(), mmaptest, forktest, stressfs, zombie), which only
    make system calls and print. *)

From stdpp Require Export prelude numbers list gmap strings fin_maps.
From Stdlib Require Export ZArith Lia.

#[global] Open Scope Z_scope.

(** ** The monad

    A C function is a state transformer that either returns a value ([Ok]) or
    stops the thread with an error ([Err]): a panic, a fault, a sleep, ...
    Both outcomes carry the state at that point. *)

Inductive res (E St A : Type) : Type :=
| Ok (a : A) (s : St)
| Err (e : E) (s : St).
Arguments Ok {E St A} a s.
Arguments Err {E St A} e s.

Definition M (E St A : Type) : Type := St → res E St A.

#[export] Instance M_ret E St : MRet (M E St) := λ A a s, Ok a s.
#[export] Instance M_bind E St : MBind (M E St) := λ A B k m s,
  match m s with
  | Ok a s' => k a s'
  | Err e s' => Err e s'
  end.

Section ops.
Context {E St : Type}.

Definition get : M E St St := λ s, Ok s s.
Definition gets {A} (f : St → A) : M E St A := λ s, Ok (f s) s.
Definition modify (f : St → St) : M E St unit := λ s, Ok tt (f s).
Definition fail {A} (e : E) : M E St A := λ s, Err e s.
Definition skip : M E St unit := mret tt.

(** [if(c) m;] *)
Definition when (c : bool) (m : M E St unit) : M E St unit :=
  if c then m else skip.

(** A C loop: the body either continues with a new loop state ([inl]) or
    leaves the loop with a result ([inr]).  [fuel] bounds the number of
    iterations; running out of it is the error [oom]. *)
Fixpoint iterM {A B} (oom : E) (fuel : nat) (body : A → M E St (A + B)) (a : A) : M E St B :=
  match fuel with
  | O => fail oom
  | S fuel =>
      r ← body a;
      match r with
      | inl a' => iterM oom fuel body a'
      | inr b => mret b
      end
  end.

(** [for(x in l) body(x);] *)
Fixpoint forM {A} (l : list A) (body : A → M E St unit) : M E St unit :=
  match l with
  | [] => skip
  | x :: l => body x;; forM l body
  end.

(** [for(x in l) if(body(x) produces a result) return it;] *)
Fixpoint findM {A B} (l : list A) (body : A → M E St (option B)) : M E St (option B) :=
  match l with
  | [] => mret None
  | x :: l =>
      r ← body x;
      match r with
      | Some b => mret (Some b)
      | None => findM l body
      end
  end.
End ops.

(** ** Weakest preconditions

    [wp m s Q]: from [s], [m] returns normally and its result and final state
    satisfy [Q].  In particular no panic, fault, sleep or exhausted fuel. *)

Definition wp {E St A} (m : M E St A) (s : St) (Q : A → St → Prop) : Prop :=
  match m s with
  | Ok a s' => Q a s'
  | Err _ _ => False
  end.

Section wp.
Context {E St : Type}.
Implicit Types (s : St).

Lemma wp_ok {A} (m : M E St A) s Q :
  wp m s Q ↔ ∃ a s', m s = Ok a s' ∧ Q a s'.
Proof.
  unfold wp. destruct (m s) as [a s'|e s']; split; [eauto| |done|].
  - by intros (? & ? & [= -> ->] & ?).
  - by intros (? & ? & ? & ?).
Qed.

Lemma wp_mono {A} (m : M E St A) s (Q R : A → St → Prop) :
  wp m s Q → (∀ a s', Q a s' → R a s') → wp m s R.
Proof. unfold wp. destruct (m s); eauto. Qed.

Lemma wp_bind {A B} (m : M E St A) (k : A → M E St B) s Q :
  wp m s (λ a s', wp (k a) s' Q) → wp (m ≫= k) s Q.
Proof. unfold wp, mbind, M_bind. by destruct (m s). Qed.

Lemma wp_ret {A} (a : A) s (Q : A → St → Prop) : Q a s → wp (mret a : M E St A) s Q.
Proof. done. Qed.

Lemma wp_gets {A} (f : St → A) s (Q : A → St → Prop) :
  Q (f s) s → wp (gets f : M E St A) s Q.
Proof. done. Qed.

Lemma wp_modify (f : St → St) s (Q : unit → St → Prop) :
  Q tt (f s) → wp (modify f : M E St unit) s Q.
Proof. done. Qed.

(** Total correctness of a C loop: an invariant [I] and a measure that
    strictly decreases on every iteration that continues; the fuel only has
    to exceed the initial measure. *)
Lemma wp_iterM {A B} (oom : E) (body : A → M E St (A + B))
    (I : A → St → Prop) (μ : A → nat) (Q : B → St → Prop) fuel a s :
  (∀ a s, I a s → wp (body a) s (λ r s',
     match r with
     | inl a' => I a' s' ∧ (μ a' < μ a)%nat
     | inr b => Q b s'
     end)) →
  I a s → (μ a < fuel)%nat → wp (iterM oom fuel body a) s Q.
Proof.
  intros Hbody. revert a s. induction fuel as [|fuel IH]; intros a s HI Hμ; [lia|].
  simpl. apply wp_bind. eapply wp_mono; [by apply Hbody|].
  intros [a'|b] s'; simpl; [|done].
  intros [HI' Hlt]. apply IH; [done|lia].
Qed.

Lemma wp_forM {A} (l : list A) (body : A → M E St unit) (I : list A → St → Prop) s Q :
  I l s →
  (∀ x l s, I (x :: l) s → wp (body x) s (λ _ s', I l s')) →
  (∀ s, I [] s → Q tt s) →
  wp (forM l body) s Q.
Proof.
  intros HI Hbody HQ. revert s HI. induction l as [|x l IH]; intros s HI; simpl.
  - by apply wp_ret, HQ.
  - apply wp_bind. eapply wp_mono; [by apply Hbody|]. intros [] s' HI'. by apply IH.
Qed.
End wp.

(** ** Step equations: rewriting a run forward along its successful calls *)

Section run.
Context {E St : Type}.

Lemma bind_ok {A B} (m : M E St A) (k : A → M E St B) s a s' :
  m s = Ok a s' → (m ≫= k) s = k a s'.
Proof. unfold mbind, M_bind. by intros ->. Qed.

Lemma bind_err {A B} (m : M E St A) (k : A → M E St B) s e s' :
  m s = Err e s' → (m ≫= k) s = Err e s'.
Proof. unfold mbind, M_bind. by intros ->. Qed.

Lemma bind_inv {A B} (m : M E St A) (k : A → M E St B) s b s' :
  (m ≫= k) s = Ok b s' → ∃ a s1, m s = Ok a s1 ∧ k a s1 = Ok b s'.
Proof. unfold mbind, M_bind. destruct (m s); [eauto|done]. Qed.

Lemma bind_ret {A B} (a : A) (k : A → M E St B) s : (mret a ≫= k) s = k a s.
Proof. done. Qed.

Lemma bind_gets {A B} (f : St → A) (k : A → M E St B) s : (gets f ≫= k) s = k (f s) s.
Proof. done. Qed.

Lemma bind_modify {B} (f : St → St) (k : unit → M E St B) s :
  (modify f ≫= k) s = k tt (f s).
Proof. done. Qed.

Lemma bind_assoc {A B C} (m : M E St A) (k : A → M E St B) (h : B → M E St C) s :
  ((m ≫= k) ≫= h) s = (m ≫= λ a, k a ≫= h) s.
Proof. unfold mbind, M_bind. by destruct (m s). Qed.

Lemma iterM_S {A B} oom fuel (body : A → M E St (A + B)) a :
  iterM oom (S fuel) body a =
  (r ← body a; match r with inl a' => iterM oom fuel body a' | inr b => mret b end).
Proof. done. Qed.
End run.

Create HintDb kernel discriminated.

(** [run]: discharge the administrative prefix of a run. *)
Ltac run_step :=
  first
    [ rewrite bind_assoc | rewrite bind_ret | rewrite bind_gets | rewrite bind_modify
    | match goal with
      | H : ?m ?s = Ok _ _ |- context [(?m ≫= _) ?s] => rewrite (bind_ok _ _ _ _ _ H)
      | H : ?m ?s = Err _ _ |- context [(?m ≫= _) ?s] => rewrite (bind_err _ _ _ _ _ H)
      end ].
Ltac run := repeat (run_step; cbv beta).

(** [wp_step]: the same for the predicate form. *)
Ltac wp_step :=
  first
    [ apply wp_bind
    | apply wp_ret
    | apply wp_gets
    | apply wp_modify ].

(** [dlia]: linear arithmetic with division and remainder by constants. *)
Ltac dlia := Z.div_mod_to_equations; lia.

(** ** C integers *)

Definition wrap (w : Z) (x : Z) : Z := x mod 2 ^ w.
(** unsigned long / uint64 *)
Definition u64 (x : Z) : Z := wrap 64 x.
(** unsigned int / uint *)
Definition u32 (x : Z) : Z := wrap 32 x.
(** unsigned short / ushort *)
Definition u16 (x : Z) : Z := wrap 16 x.
(** unsigned char / uchar; plain [char] is unsigned on RISC-V *)
Definition u8 (x : Z) : Z := wrap 8 x.
(** two's complement reading of the low [w] bits *)
Definition sext (w : Z) (x : Z) : Z :=
  let y := wrap w x in if y <? 2 ^ (w - 1) then y else y - 2 ^ w.
(** int *)
Definition s32 (x : Z) : Z := sext 32 x.
(** short *)
Definition s16 (x : Z) : Z := sext 16 x.

Lemma wrap_small w x : 0 ≤ x < 2 ^ w → wrap w x = x.
Proof. apply Z.mod_small. Qed.

Lemma wrap_range w x : 0 ≤ w → 0 ≤ wrap w x < 2 ^ w.
Proof. intros. apply Z.mod_pos_bound. by apply Z.pow_pos_nonneg. Qed.

Lemma u64_small x : 0 ≤ x < 18446744073709551616 → u64 x = x.
Proof. apply (wrap_small 64). Qed.

Lemma u64_range x : 0 ≤ u64 x < 18446744073709551616.
Proof. by apply (wrap_range 64). Qed.

Lemma u32_small x : 0 ≤ x < 4294967296 → u32 x = x.
Proof. apply (wrap_small 32). Qed.

Lemma u32_range x : 0 ≤ u32 x < 4294967296.
Proof. by apply (wrap_range 32). Qed.

Lemma s32_small x : -2147483648 ≤ x < 2147483648 → s32 x = x.
Proof.
  intros H. unfold s32, sext, wrap. change (2 ^ 32) with 4294967296.
  change (2 ^ (32 - 1)) with 2147483648.
  destruct (decide (0 ≤ x)).
  - rewrite Z.mod_small by lia. destruct (Z.ltb_spec x 2147483648); lia.
  - replace (x mod 4294967296) with (x + 4294967296).
    + destruct (Z.ltb_spec (x + 4294967296) 2147483648); lia.
    + rewrite <- (Z.mod_small (x + 4294967296) 4294967296) by lia.
      rewrite <- (Z.mod_add x 1) by lia. f_equal; lia.
Qed.

#[export] Hint Resolve u64_range u32_range : kernel.

(** Bitwise or stays within a power-of-two bound. *)
Lemma lor_range n a b :
  0 ≤ n → 0 ≤ a < 2 ^ n → 0 ≤ b < 2 ^ n → 0 ≤ Z.lor a b < 2 ^ n.
Proof.
  intros Hn Ha Hb. split; [apply Z.lor_nonneg; lia|].
  assert (E : Z.lor a b mod 2 ^ n = Z.lor a b); [|rewrite <- E; apply Z.mod_pos_bound; lia].
  apply Z.bits_inj'. intros i Hi. destruct (decide (i < n)).
  - by rewrite Z.mod_pow2_bits_low.
  - rewrite Z.mod_pow2_bits_high by lia. symmetry.
    rewrite Z.lor_spec, <- (Z.mod_small a (2 ^ n)), <- (Z.mod_small b (2 ^ n)) by done.
    by rewrite !Z.mod_pow2_bits_high by lia.
Qed.

(** ** Lists indexed from C *)

(** [0, 1, ..., n-1], the index range of a [for] loop. *)
Abbreviation upto n := (seq 0 n).

Lemma lookup_is_Some {A} (l : list A) i : (i < length l)%nat → ∃ x, l !! i = Some x.
Proof. apply lookup_lt_is_Some_2. Qed.

(** Splitting a list at a successful lookup. *)
Lemma lookup_split {A} (l : list A) i x :
  l !! i = Some x → l = take i l ++ x :: drop (S i) l.
Proof. intros. by rewrite take_drop_middle. Qed.

(** A [for] loop over indices: an invariant indexed by the iterations done. *)
Lemma forM_upto {E St} n (body : nat → M E St unit) (I : nat → St → Prop) s :
  I 0%nat s →
  (∀ k s, (k < n)%nat → I k s → ∃ s', body k s = Ok tt s' ∧ I (S k) s') →
  ∃ s', forM (upto n) body s = Ok tt s' ∧ I n s'.
Proof.
  intros H0 Hstep.
  assert (L : ∀ m k s, (k + m = n)%nat → I k s → ∃ s', forM (seq k m) body s = Ok tt s' ∧ I n s').
  { induction m as [|m IH]; intros k s1 Hk HI; simpl.
    - exists s1. split; [done|]. by replace n with k by lia.
    - destruct (Hstep k s1 ltac:(lia) HI) as (s2 & E2 & HI2).
      rewrite (bind_ok _ _ _ _ _ E2). apply IH; [lia|done]. }
  by apply L.
Qed.
