(* ===== verification/Riscv.v ===== *)
(** Architecture and configuration constants: kernel/riscv.h (page size, PTE
    layout, Sv39 index extraction), kernel/memlayout.h, kernel/param.h,
    kernel/fcntl.h and kernel/vma.h, with the bit-level lemmas about them. *)

From S2P Require Import Prelude.

(** ** kernel/param.h *)
Definition NPROC : nat := 64.
Definition NCPU : nat := 8.
Definition NOFILE : Z := 16.
Definition NFILE : nat := 100.
Definition NINODE : nat := 50.
Definition NDEV : Z := 10.
Definition ROOTDEV : Z := 1.
Definition MAXARG : Z := 32.
Definition MAXOPBLOCKS : Z := 10.
Definition LOGSIZE : Z := MAXOPBLOCKS * 3.
Definition NBUF : nat := Z.to_nat (MAXOPBLOCKS * 3).
Definition FSSIZE : Z := 1000.
Definition MAXPATH : Z := 128.

(** ** kernel/riscv.h: paging *)
Definition PGSIZE : Z := 4096.
Definition PGSHIFT : Z := 12.
(** PGSIZE as the iteration count of a byte loop. *)
Definition PGNAT : nat := Z.to_nat PGSIZE.
#[global] Opaque PGNAT.
Arguments PGNAT : simpl never.

Lemma pgnat_eq : Z.of_nat PGNAT = 4096.
Proof. Transparent PGNAT. unfold PGNAT, PGSIZE. rewrite Z2Nat.id; lia. Opaque PGNAT. Qed.

Definition PGROUNDUP (sz : Z) : Z := Z.land (u64 (sz + PGSIZE - 1)) (Z.lnot (PGSIZE - 1)).
Definition PGROUNDDOWN (a : Z) : Z := Z.land a (Z.lnot (PGSIZE - 1)).

Definition PTE_V : Z := 1.
Definition PTE_R : Z := 2.
Definition PTE_W : Z := 4.
Definition PTE_X : Z := 8.
Definition PTE_U : Z := 16.
Definition PTE_D : Z := 128.

Definition PA2PTE (pa : Z) : Z := u64 (Z.shiftl (Z.shiftr pa 12) 10).
Definition PTE2PA (pte : Z) : Z := u64 (Z.shiftl (Z.shiftr pte 10) 12).
Definition PTE_FLAGS (pte : Z) : Z := Z.land pte 1023.

Definition PXMASK : Z := 511.
Definition PXSHIFT (level : Z) : Z := PGSHIFT + 9 * level.
Definition PX (level va : Z) : Z := Z.land (Z.shiftr va (PXSHIFT level)) PXMASK.

Definition MAXVA : Z := Z.shiftl 1 (9 + 9 + 9 + 12 - 1).

(** [(x & flag) != 0] *)
Definition has (x flag : Z) : bool := negb (Z.land x flag =? 0).

(** ** kernel/memlayout.h *)
Definition UART0 : Z := 0x10000000.
Definition VIRTIO0 : Z := 0x10001000.
Definition PLIC : Z := 0x0c000000.
Definition KERNBASE : Z := 0x80000000.
Definition PHYSTOP : Z := KERNBASE + 128 * 1024 * 1024.
Definition TRAMPOLINE : Z := MAXVA - PGSIZE.
Definition TRAPFRAME : Z := TRAMPOLINE - PGSIZE.
Definition KSTACK (p : Z) : Z := TRAMPOLINE - (p + 1) * 2 * PGSIZE.

(** ** kernel/fcntl.h *)
Definition O_RDONLY : Z := 0x000.
Definition O_WRONLY : Z := 0x001.
Definition O_RDWR : Z := 0x002.
Definition O_CREATE : Z := 0x200.
Definition O_TRUNC : Z := 0x400.
Definition PROT_READ : Z := Z.shiftl 1 1.
Definition PROT_WRITE : Z := Z.shiftl 1 2.
Definition PROT_READ_WRITE : Z := Z.lor (Z.shiftl 1 1) (Z.shiftl 1 2).
Definition MAP_PRIVATE : Z := 1.
Definition MAP_SHARED : Z := 2.

(** ** kernel/vma.h and kernel/proc.h *)
Definition START_ADDRESS : Z := 0x2000000000.
Definition TOP_ADDRESS : Z := 0x3FFFFFDFFF.
Definition VMAS_STORED : nat := 30.
Definition MAX_VMAS : Z := 10.

(** ** Rounding to page boundaries *)

Lemma land_lnot_page a : Z.land a (Z.lnot (PGSIZE - 1)) = 4096 * (a / 4096).
Proof.
  change (PGSIZE - 1) with (Z.ones 12).
  rewrite <- Z.ldiff_land, Z.ldiff_ones_r by lia.
  rewrite Z.shiftl_mul_pow2, Z.shiftr_div_pow2 by lia. change (2 ^ 12) with 4096. lia.
Qed.

Lemma pgrounddown_eq a : PGROUNDDOWN a = 4096 * (a / 4096).
Proof. apply land_lnot_page. Qed.

Lemma pgroundup_eq a : 0 ≤ a ≤ 2 ^ 64 - 4096 → PGROUNDUP a = 4096 * ((a + 4095) / 4096).
Proof.
  intros Ha. unfold PGROUNDUP. rewrite land_lnot_page, u64_small; [|unfold PGSIZE; lia].
  unfold PGSIZE. do 2 f_equal. lia.
Qed.

Lemma pgrounddown_bounds a : PGROUNDDOWN a ≤ a < PGROUNDDOWN a + PGSIZE.
Proof. rewrite pgrounddown_eq. unfold PGSIZE. dlia. Qed.

Lemma pgrounddown_aligned a : PGROUNDDOWN a mod PGSIZE = 0.
Proof. rewrite pgrounddown_eq. unfold PGSIZE. rewrite Z.mul_comm. apply Z.mod_mul. lia. Qed.

Lemma pgrounddown_id a : a mod PGSIZE = 0 → PGROUNDDOWN a = a.
Proof. rewrite pgrounddown_eq. unfold PGSIZE. intros. dlia. Qed.

Lemma pgroundup_aligned a : PGROUNDUP a mod PGSIZE = 0.
Proof. apply pgrounddown_aligned. Qed.

Lemma pgroundup_bounds a :
  0 ≤ a ≤ 2 ^ 64 - 4096 → a ≤ PGROUNDUP a < a + PGSIZE.
Proof. intros. rewrite pgroundup_eq by done. unfold PGSIZE. dlia. Qed.

Lemma pgroundup_id a : 0 ≤ a ≤ 2 ^ 64 - 4096 → a mod PGSIZE = 0 → PGROUNDUP a = a.
Proof.
  intros Ha Hm. rewrite pgroundup_eq by done. unfold PGSIZE in *. dlia.
Qed.

Lemma pgroundup_nonneg a : 0 ≤ PGROUNDUP a.
Proof.
  unfold PGROUNDUP. rewrite land_lnot_page.
  pose proof (u64_range (a + PGSIZE - 1)). pose proof (Z.div_pos (u64 (a + PGSIZE - 1)) 4096). lia.
Qed.

Lemma aligned_split a : a mod PGSIZE = 0 → a = 4096 * (a / 4096).
Proof. unfold PGSIZE. intros. dlia. Qed.

Lemma aligned_mul k : (4096 * k) mod PGSIZE = 0.
Proof. unfold PGSIZE. rewrite Z.mul_comm. apply Z.mod_mul. lia. Qed.

Lemma aligned_add a b : a mod PGSIZE = 0 → b mod PGSIZE = 0 → (a + b) mod PGSIZE = 0.
Proof.
  intros Ha%aligned_split Hb%aligned_split. rewrite Ha, Hb.
  rewrite <- Z.mul_add_distr_l. apply aligned_mul.
Qed.

#[export] Hint Resolve pgrounddown_aligned pgroundup_aligned aligned_add aligned_mul : kernel.

(** ** Page-table indices *)

Lemma px_eq level va : 0 ≤ level → PX level va = (va / 2 ^ (12 + 9 * level)) mod 512.
Proof.
  intros. unfold PX, PXSHIFT, PGSHIFT, PXMASK. change 511 with (Z.ones 9).
  rewrite Z.land_ones, Z.shiftr_div_pow2 by lia. done.
Qed.

Lemma px_range level va : 0 ≤ level → 0 ≤ PX level va < 512.
Proof. intros. rewrite px_eq by done. apply Z.mod_pos_bound. lia. Qed.

(** The three indices determine the page of a virtual address below MAXVA. *)
Lemma px_page va :
  0 ≤ va < MAXVA →
  va / 4096 = (PX 2 va * 512 + PX 1 va) * 512 + PX 0 va.
Proof.
  intros Hva. rewrite !px_eq by lia. change (MAXVA) with (4096 * 512 * 512 * 256) in Hva.
  change (2 ^ (12 + 9 * 2)) with (4096 * 512 * 512).
  change (2 ^ (12 + 9 * 1)) with (4096 * 512).
  change (2 ^ (12 + 9 * 0)) with 4096.
  rewrite <- !Z.div_div by lia. set (q := va / 4096).
  assert (0 ≤ q < 512 * 512 * 256).
  { subst q. split; [apply Z.div_pos; lia|]. apply Z.div_lt_upper_bound; lia. }
  pose proof (Z.div_mod q 512). pose proof (Z.div_mod (q / 512) 512).
  rewrite (Z.mod_small (q / 512 / 512)).
  - lia.
  - split; [apply Z.div_pos; [apply Z.div_pos|]; lia|].
    do 2 (apply Z.div_lt_upper_bound; [lia|]). lia.
Qed.

Lemma px_inj va va' :
  0 ≤ va < MAXVA → 0 ≤ va' < MAXVA →
  PX 2 va = PX 2 va' → PX 1 va = PX 1 va' → PX 0 va = PX 0 va' →
  va / 4096 = va' / 4096.
Proof. intros H H' ???. rewrite !px_page by done. congruence. Qed.

(** Conversely, the indices only look at the page number. *)
Lemma px_same_page level va va' :
  0 ≤ level → va / 4096 = va' / 4096 → PX level va = PX level va'.
Proof.
  intros Hl E. rewrite !px_eq by done.
  rewrite Z.pow_add_r, <- !Z.div_div by lia. change (2 ^ 12) with 4096. by rewrite E.
Qed.

Lemma px_rounddown level va : 0 ≤ level → PX level (PGROUNDDOWN va) = PX level va.
Proof.
  intros. apply px_same_page; [done|]. rewrite pgrounddown_eq, Z.mul_comm.
  apply Z.div_mul. lia.
Qed.

(** ** Page-table entries *)

Lemma has_land_shiftl x f k : 0 ≤ f < 2 ^ k → 0 ≤ k → Z.land (Z.shiftl x k) f = 0.
Proof.
  intros Hf Hk. apply Z.bits_inj'. intros n Hn.
  rewrite Z.land_spec, Z.bits_0, Z.shiftl_spec by done.
  destruct (decide (n < k)).
  - rewrite Z.testbit_neg_r by lia. done.
  - replace (Z.testbit f n) with false; [apply andb_false_r|].
    symmetry. rewrite <- (Z.mod_small f (2 ^ k)) by done.
    apply Z.mod_pow2_bits_high. lia.
Qed.

(** An aligned physical address survives the trip through a PTE... *)
Lemma pte2pa_pa2pte pa flags :
  0 ≤ pa < 2 ^ 56 → pa mod PGSIZE = 0 → 0 ≤ flags < 1024 →
  PTE2PA (Z.lor (PA2PTE pa) flags) = pa.
Proof.
  intros Hpa Hal Hf. unfold PTE2PA, PA2PTE.
  apply aligned_split in Hal.
  rewrite (Z.shiftr_div_pow2 pa) by lia. change (2 ^ 12) with 4096.
  set (k := pa / 4096) in *. assert (0 ≤ k < 2 ^ 44) by lia.
  rewrite (Z.shiftl_mul_pow2 k) by lia. change (2 ^ 10) with 1024.
  rewrite (u64_small (k * 1024)) by lia.
  rewrite Z.shiftr_lor, (Z.shiftr_div_pow2 flags), Z.div_small, Z.lor_0_r by lia.
  rewrite Z.shiftr_div_pow2, Z.shiftl_mul_pow2 by lia.
  change (2 ^ 10) with 1024. change (2 ^ 12) with 4096.
  rewrite Z.div_mul by lia. rewrite u64_small; lia.
Qed.

(** ... and so do the flag bits. *)
Lemma pte_flags_pa2pte pa flags :
  0 ≤ pa < 2 ^ 56 → 0 ≤ flags < 1024 → PTE_FLAGS (Z.lor (PA2PTE pa) flags) = flags.
Proof.
  intros Hpa Hf. unfold PTE_FLAGS, PA2PTE.
  assert (Z.shiftr pa 12 < 2 ^ 44).
  { rewrite Z.shiftr_div_pow2 by lia. apply Z.div_lt_upper_bound; lia. }
  assert (0 ≤ Z.shiftr pa 12) by (apply Z.shiftr_nonneg; lia).
  rewrite u64_small by (rewrite Z.shiftl_mul_pow2; lia).
  rewrite Z.land_lor_distr_l, has_land_shiftl, Z.lor_0_l by lia.
  change 1023 with (Z.ones 10). rewrite Z.land_ones by lia. by apply Z.mod_small.
Qed.

(** A bit below the frame number is a flag bit. *)
Lemma has_pa2pte pa flags f :
  0 ≤ pa < 2 ^ 56 → 0 ≤ flags < 1024 → 0 ≤ f < 1024 →
  has (Z.lor (PA2PTE pa) flags) f = has flags f.
Proof.
  intros Hpa Hf Hb. unfold has. do 2 f_equal.
  rewrite <- (pte_flags_pa2pte pa flags) at 2 by done. unfold PTE_FLAGS.
  rewrite <- Z.land_assoc. f_equal. change 1023 with (Z.ones 10).
  rewrite Z.land_comm, Z.land_ones by lia. symmetry. by apply Z.mod_small.
Qed.

Lemma has_lor x y f : has (Z.lor x y) f = has x f || has y f.
Proof.
  unfold has. rewrite Z.land_lor_distr_l.
  destruct (Z.eqb_spec (Z.land x f) 0) as [->|Hx]; simpl; [by rewrite Z.lor_0_l|].
  destruct (Z.eqb_spec (Z.lor (Z.land x f) (Z.land y f)) 0) as [E|]; [|done].
  apply Z.lor_eq_0_iff in E. tauto.
Qed.
