(* ===== verification/Kstate.v ===== *)
(** The kernel state: the C structures of kernel/*.h as records, the tables
    that hold them, and the monad [K] every kernel function is translated to.

    Pointers into a kernel array are indices ([option nat], [None] for NULL);
    physical addresses and page-table pointers are integers, because the code
    does arithmetic on them.  Byte-addressed RAM holds what lives in pages
    handed out by kalloc(): page tables, trapframes and user memory. *)

From S2P Require Import Prelude Riscv.

(** ** Locks and sleep channels *)

(** The spinlocks of the kernel, by the object they protect. *)
Inductive lockid : Type :=
| L_kmem | L_vmas | L_ftable | L_itable | L_log | L_bcache | L_pid | L_wait | L_ticks
| L_cons | L_uart | L_pr | L_vdisk
| L_proc (i : nat) | L_inode (i : nat) | L_buf (i : nat) | L_pipe (pi : Z).

#[export] Instance lockid_eq_dec : EqDecision lockid.
Proof. solve_decision. Defined.

Definition lockid_enc (l : lockid) : nat * Z :=
  match l with
  | L_kmem => (0%nat, 0) | L_vmas => (0%nat, 1) | L_ftable => (0%nat, 2) | L_itable => (0%nat, 3)
  | L_log => (0%nat, 4) | L_bcache => (0%nat, 5) | L_pid => (0%nat, 6) | L_wait => (0%nat, 7)
  | L_ticks => (0%nat, 8) | L_cons => (0%nat, 9) | L_uart => (0%nat, 10) | L_pr => (0%nat, 11)
  | L_vdisk => (0%nat, 12)
  | L_proc i => (1%nat, Z.of_nat i) | L_inode i => (2%nat, Z.of_nat i) | L_buf i => (3%nat, Z.of_nat i)
  | L_pipe pi => (4%nat, pi)
  end.

Definition lockid_dec (p : nat * Z) : lockid :=
  match p with
  | (1%nat, i) => L_proc (Z.to_nat i) | (2%nat, i) => L_inode (Z.to_nat i)
  | (3%nat, i) => L_buf (Z.to_nat i) | (4%nat, pi) => L_pipe pi
  | (_, 0) => L_kmem | (_, 1) => L_vmas | (_, 2) => L_ftable | (_, 3) => L_itable
  | (_, 4) => L_log | (_, 5) => L_bcache | (_, 6) => L_pid | (_, 7) => L_wait
  | (_, 8) => L_ticks | (_, 9) => L_cons | (_, 10) => L_uart | (_, 11) => L_pr
  | (_, _) => L_vdisk
  end.

#[export] Instance lockid_countable : Countable lockid.
Proof.
  refine (inj_countable' lockid_enc lockid_dec _).
  intros []; simpl; rewrite ?Nat2Z.id; done.
Defined.

(** What a thread can sleep on ([void *chan]). *)
Inductive chan : Type :=
| C_null | C_log | C_ticks | C_proc (i : nat) | C_inode (i : nat) | C_buf (i : nat)
| C_nread (pi : Z) | C_nwrite (pi : Z) | C_cons | C_uart | C_vdisk.

#[export] Instance chan_eq_dec : EqDecision chan.
Proof. solve_decision. Defined.

(** struct sleeplock (its inner spinlock is a [lockid]). *)
Record sleeplock : Type := SleepLock { sl_locked : bool; sl_pid : Z }.

(** ** Physical page allocator (kalloc.c) *)
Record run : Type := Run { r_next : Z; r_ref : Z }.

(** ** Processes (proc.h) *)
Inductive procstate : Type := UNUSED | USED | SLEEPING | RUNNABLE | RUNNING | ZOMBIE.

#[export] Instance procstate_eq_dec : EqDecision procstate.
Proof. solve_decision. Defined.

Record proc : Type := Proc {
  p_state : procstate;
  p_chan : chan;
  p_killed : Z;
  p_xstate : Z;
  p_pid : Z;
  p_parent : option nat;
  p_kstack : Z;
  p_sz : Z;
  p_pagetable : Z;
  p_trapframe : Z;
  p_ofile : list (option nat);
  p_cwd : option nat;
  p_name : list Z;
  p_vmas : option nat;
  p_nvma : Z;
}.

(** ** Virtual memory areas (vma.h) *)
Record vma : Type := Vma {
  v_use : Z;
  v_size : Z;
  v_ofile : option nat;
  v_addrinit : Z;
  v_addri : Z;
  v_addre : Z;
  v_offset : Z;
  v_next : option nat;
  v_prot : Z;
  v_flag : Z;
}.

(** ** Open files and in-memory inodes (file.h) *)
Inductive ftype : Type := FD_NONE | FD_PIPE | FD_INODE | FD_DEVICE.

#[export] Instance ftype_eq_dec : EqDecision ftype.
Proof. solve_decision. Defined.

Record file : Type := File {
  f_type : ftype;
  f_ref : Z;
  f_readable : Z;
  f_writable : Z;
  f_pipe : Z;
  f_ip : option nat;
  f_off : Z;
  f_major : Z;
}.

Record inode : Type := Inode {
  i_dev : Z;
  i_inum : Z;
  i_ref : Z;
  i_lock : sleeplock;
  i_valid : bool;
  i_type : Z;
  i_major : Z;
  i_minor : Z;
  i_nlink : Z;
  i_size : Z;
  i_addrs : list Z;
}.

(** ** Buffer cache (buf.h): the list links are indices into the buffer array,
    [NBUF] standing for bcache.head. *)
Record buf : Type := Buf {
  b_valid : bool;
  b_dev : Z;
  b_blockno : Z;
  b_lock : sleeplock;
  b_refcnt : Z;
  b_prev : nat;
  b_next : nat;
  b_data : list Z;
}.

(** ** Log (log.c) and superblock (fs.h) *)
Record log : Type := Log {
  lg_start : Z;
  lg_size : Z;
  lg_outstanding : Z;
  lg_committing : bool;
  lg_dev : Z;
  lg_n : Z;
  lg_block : list Z;
}.

Record superblock : Type := Superblock {
  sb_magic : Z;
  sb_size : Z;
  sb_nblocks : Z;
  sb_ninodes : Z;
  sb_nlog : Z;
  sb_logstart : Z;
  sb_inodestart : Z;
  sb_bmapstart : Z;
}.

(** ** Pipes (pipe.c) *)
Record pipe : Type := Pipe {
  pi_data : list Z;
  pi_nread : Z;
  pi_nwrite : Z;
  pi_readopen : bool;
  pi_writeopen : bool;
}.

(** ** The kernel *)

(** Symbols the linker defines (kernel.ld): where the kernel image ends, where
    the kmem.runs array is, the page that holds trampoline.S, and the end of
    the kernel text. *)
Class Layout : Type := {
  l_end : Z;
  l_runs : Z;
  l_trampoline : Z;
  l_etext : Z;
}.

(** What kernel.ld and the C object layout guarantee about them. *)
Class LayoutOk (L : Layout) : Prop := {
  l_end_range : KERNBASE < l_end ≤ PHYSTOP;
  l_runs_range : KERNBASE ≤ l_runs ∧ l_runs + 16 * (PHYSTOP / PGSIZE) ≤ l_end;
  l_trampoline_range : KERNBASE ≤ l_trampoline < l_end;
  l_trampoline_aligned : l_trampoline mod PGSIZE = 0;
  l_etext_range : KERNBASE < l_etext < l_end;
  l_etext_aligned : l_etext mod PGSIZE = 0;
}.

(** Memory: RAM and the page allocator's bookkeeping. *)
Record mm : Type := MM {
  mm_mem : gmap Z Z;
  mm_freelist : Z;
  mm_runs : gmap Z run;
}.

(** Block I/O: buffer cache, disk, log and superblock.  The disk is the blocks
    written to it, latest first: the history is what a power failure cuts. *)
Record io : Type := IO {
  io_bufs : list buf;
  io_disk : list (Z * list Z);
  io_log : log;
  io_sb : superblock;
}.

Record kstate : Type := KState {
  k_cur : nat;                    (* myproc(), as an index of proc[] *)
  k_held : gset lockid;           (* spinlocks this hart holds *)
  k_mm : mm;
  k_io : io;
  k_itable : list inode;
  k_ftable : list file;
  k_vmas : list vma;
  k_pipes : gmap Z pipe;
  k_procs : list proc;
  k_nextpid : Z;
  k_initproc : option nat;
  k_ticks : Z;
}.

(** How a thread stops running a kernel function other than by returning. *)
Inductive kerr : Type :=
| EPanic (msg : string)     (* panic(msg) *)
| EFault (a : Z)            (* the kernel accessed the unmapped address a *)
| ESched                    (* gave up the CPU in sched(); p->state says why *)
| EExit (status : Z)        (* entered exit(status), which does not return *)
| EFuel.                    (* a loop bound of the model was exceeded *)

Abbreviation K := (M kerr kstate).

Definition panic {A} (msg : string) : K A := fail (EPanic msg).

(** ** Field updates *)

Definition set_held h s := KState (k_cur s) h (k_mm s) (k_io s) (k_itable s) (k_ftable s)
  (k_vmas s) (k_pipes s) (k_procs s) (k_nextpid s) (k_initproc s) (k_ticks s).
Definition set_mm x s := KState (k_cur s) (k_held s) x (k_io s) (k_itable s) (k_ftable s)
  (k_vmas s) (k_pipes s) (k_procs s) (k_nextpid s) (k_initproc s) (k_ticks s).
Definition set_io x s := KState (k_cur s) (k_held s) (k_mm s) x (k_itable s) (k_ftable s)
  (k_vmas s) (k_pipes s) (k_procs s) (k_nextpid s) (k_initproc s) (k_ticks s).
Definition set_itable x s := KState (k_cur s) (k_held s) (k_mm s) (k_io s) x (k_ftable s)
  (k_vmas s) (k_pipes s) (k_procs s) (k_nextpid s) (k_initproc s) (k_ticks s).
Definition set_ftable x s := KState (k_cur s) (k_held s) (k_mm s) (k_io s) (k_itable s) x
  (k_vmas s) (k_pipes s) (k_procs s) (k_nextpid s) (k_initproc s) (k_ticks s).
Definition set_vmas x s := KState (k_cur s) (k_held s) (k_mm s) (k_io s) (k_itable s)
  (k_ftable s) x (k_pipes s) (k_procs s) (k_nextpid s) (k_initproc s) (k_ticks s).
Definition set_pipes x s := KState (k_cur s) (k_held s) (k_mm s) (k_io s) (k_itable s)
  (k_ftable s) (k_vmas s) x (k_procs s) (k_nextpid s) (k_initproc s) (k_ticks s).
Definition set_procs x s := KState (k_cur s) (k_held s) (k_mm s) (k_io s) (k_itable s)
  (k_ftable s) (k_vmas s) (k_pipes s) x (k_nextpid s) (k_initproc s) (k_ticks s).
Definition set_nextpid x s := KState (k_cur s) (k_held s) (k_mm s) (k_io s) (k_itable s)
  (k_ftable s) (k_vmas s) (k_pipes s) (k_procs s) x (k_initproc s) (k_ticks s).
Definition set_initproc x s := KState (k_cur s) (k_held s) (k_mm s) (k_io s) (k_itable s)
  (k_ftable s) (k_vmas s) (k_pipes s) (k_procs s) (k_nextpid s) x (k_ticks s).
Definition set_ticks x s := KState (k_cur s) (k_held s) (k_mm s) (k_io s) (k_itable s)
  (k_ftable s) (k_vmas s) (k_pipes s) (k_procs s) (k_nextpid s) (k_initproc s) x.

Definition set_mem x m := MM x (mm_freelist m) (mm_runs m).
Definition set_freelist x m := MM (mm_mem m) x (mm_runs m).
Definition set_runs x m := MM (mm_mem m) (mm_freelist m) x.

Definition set_bufs x i := IO x (io_disk i) (io_log i) (io_sb i).
Definition set_disk x i := IO (io_bufs i) x (io_log i) (io_sb i).
Definition set_log x i := IO (io_bufs i) (io_disk i) x (io_sb i).
Definition set_sb x i := IO (io_bufs i) (io_disk i) (io_log i) x.

Definition upd_mm (f : mm → mm) : K unit := modify (λ s, set_mm (f (k_mm s)) s).
Definition upd_io (f : io → io) : K unit := modify (λ s, set_io (f (k_io s)) s).

(** ** Table access: dereferencing a pointer into a kernel array *)

Section tables.
Context {A : Type} (tbl : kstate → list A) (set_tbl : list A → kstate → kstate).

(** [*p] *)
Definition deref (p : option nat) : K A :=
  match p with
  | None => fail (EFault 0)
  | Some i =>
      l ← gets tbl;
      match l !! i with
      | Some x => mret x
      | None => fail (EFault (-1))
      end
  end.

(** [*p = f( *p)]: an assignment to a field of the structure at [p] *)
Definition assign (p : option nat) (f : A → A) : K unit :=
  x ← deref p;
  match p with
  | None => skip
  | Some i => modify (λ s, set_tbl (<[i := f x]> (tbl s)) s)
  end.

Lemma deref_run i s x : tbl s !! i = Some x → deref (Some i) s = Ok x s.
Proof. intros H. unfold deref. rewrite bind_gets. by rewrite H. Qed.

Lemma assign_run i f s x :
  tbl s !! i = Some x → assign (Some i) f s = Ok tt (set_tbl (<[i := f x]> (tbl s)) s).
Proof. intros H. unfold assign. by rewrite (bind_ok _ _ _ _ _ (deref_run _ _ _ H)). Qed.

Lemma deref_null s : deref None s = Err (EFault 0) s.
Proof. done. Qed.

Lemma assign_alter i f s :
  (i < length (tbl s))%nat → assign (Some i) f s = Ok tt (set_tbl (alter f i (tbl s)) s).
Proof.
  intros [x Hx]%lookup_lt_is_Some. rewrite (assign_run i f s x Hx). do 2 f_equal.
  apply list_eq. intros j. destruct (decide (j = i)) as [->|].
  - rewrite list_lookup_insert_eq by (apply lookup_lt_Some in Hx; exact Hx). by rewrite list_lookup_alter_eq, Hx.
  - by rewrite list_lookup_insert_ne, list_lookup_alter_ne.
Qed.
End tables.

Definition vma_at := deref k_vmas.
Definition upd_vma := assign k_vmas set_vmas.
Definition file_at := deref k_ftable.
Definition upd_file := assign k_ftable set_ftable.
Definition inode_at := deref k_itable.
Definition upd_inode := assign k_itable set_itable.
Definition proc_at (i : nat) := deref k_procs (Some i).
Definition upd_proc (i : nat) := assign k_procs set_procs (Some i).

Lemma upd_vma_run i f s :
  (i < length (k_vmas s))%nat → upd_vma (Some i) f s = Ok tt (set_vmas (alter f i (k_vmas s)) s).
Proof. apply assign_alter. Qed.
Lemma upd_file_run i f s :
  (i < length (k_ftable s))%nat → upd_file (Some i) f s = Ok tt (set_ftable (alter f i (k_ftable s)) s).
Proof. apply assign_alter. Qed.
Lemma upd_inode_run i f s :
  (i < length (k_itable s))%nat → upd_inode (Some i) f s = Ok tt (set_itable (alter f i (k_itable s)) s).
Proof. apply assign_alter. Qed.
Lemma upd_proc_run i f s :
  (i < length (k_procs s))%nat → upd_proc i f s = Ok tt (set_procs (alter f i (k_procs s)) s).
Proof. apply assign_alter. Qed.
Lemma vma_at_run i s x : k_vmas s !! i = Some x → vma_at (Some i) s = Ok x s.
Proof. apply deref_run. Qed.
Lemma file_at_run i s x : k_ftable s !! i = Some x → file_at (Some i) s = Ok x s.
Proof. apply deref_run. Qed.
Lemma inode_at_run i s x : k_itable s !! i = Some x → inode_at (Some i) s = Ok x s.
Proof. apply deref_run. Qed.
Lemma proc_at_run i s x : k_procs s !! i = Some x → proc_at i s = Ok x s.
Proof. apply deref_run. Qed.

(** myproc() *)
Definition myproc : K nat := gets k_cur.

(** ** Spinlocks, as a hart sees them: the set of locks it holds.  Spinlock.v
    shows that kernel/spinlock.c implements these operations. *)

Definition acquire (l : lockid) : K unit :=
  h ← gets k_held;
  if decide (l ∈ h) then panic "acquire" else modify (set_held ({[l]} ∪ h)).

Definition release (l : lockid) : K unit :=
  h ← gets k_held;
  if decide (l ∈ h) then modify (set_held (h ∖ {[l]})) else panic "release".

Definition holding (l : lockid) : K bool :=
  h ← gets k_held; mret (bool_decide (l ∈ h)).

Lemma acquire_run l s :
  l ∉ k_held s → acquire l s = Ok tt (set_held ({[l]} ∪ k_held s) s).
Proof. intros H. unfold acquire. rewrite bind_gets. by case_decide. Qed.

Lemma release_run l s :
  l ∈ k_held s → release l s = Ok tt (set_held (k_held s ∖ {[l]}) s).
Proof. intros H. unfold release. rewrite bind_gets. by case_decide. Qed.

Lemma acquire_held l s : l ∈ k_held s → acquire l s = Err (EPanic "acquire") s.
Proof. intros H. unfold acquire. rewrite bind_gets. by case_decide. Qed.

(** A critical section: taking a lock that is not held, and dropping it at the
    end, leaves the held set as it was. *)
Lemma held_restore (l : lockid) (h : gset lockid) : l ∉ h → ({[l]} ∪ h) ∖ {[l]} = h.
Proof. set_solver. Qed.

Lemma set_held_id s : set_held (k_held s) s = s.
Proof. by destruct s. Qed.

Lemma set_mm_id s : set_mm (k_mm s) s = s.
Proof. by destruct s. Qed.

(** The record algebra: later updates of the same field win. *)
Create Rewrite HintDb kset.
Lemma set_held_held a b s : set_held a (set_held b s) = set_held a s.
Proof. done. Qed.
Lemma set_held_mm a b s : set_held a (set_mm b s) = set_mm b (set_held a s).
Proof. done. Qed.
Lemma set_mm_mm a b s : set_mm a (set_mm b s) = set_mm a s.
Proof. done. Qed.
#[export] Hint Rewrite set_held_held set_held_mm set_mm_mm set_held_id : kset.

(** [run_acquire], [run_release]: step over a lock operation, discharging the
    side condition on the held set. *)
Ltac held_solver := simpl; first [assumption | set_solver].
Ltac run_acquire :=
  match goal with
  | |- context [(acquire ?l ≫= _) ?s] =>
      rewrite (bind_ok _ _ _ _ _ (acquire_run l s ltac:(held_solver)))
  | |- context [acquire ?l ?s] => rewrite (acquire_run l s ltac:(held_solver))
  end.
Ltac run_release :=
  match goal with
  | |- context [(release ?l ≫= _) ?s] =>
      rewrite (bind_ok _ _ _ _ _ (release_run l s ltac:(held_solver)))
  | |- context [release ?l ?s] => rewrite (release_run l s ltac:(held_solver))
  end.

(** [kst]: bring a state expression to the form of a record of fields. *)
Ltac kst :=
  unfold set_held, set_mm, set_io, set_itable, set_ftable, set_vmas, set_pipes, set_procs,
    set_nextpid, set_initproc, set_ticks;
  cbn [k_cur k_held k_mm k_io k_itable k_ftable k_vmas k_pipes k_procs k_nextpid k_initproc k_ticks].

(** [run_upd]: step over an assignment to a table entry, discharging the bound
    of its index.  [run_at]: step over a read, with the entry found by [tbl_at]. *)
Ltac tbl_len :=
  kst; rewrite ?length_alter, ?length_insert;
  first [assumption | lia | eapply lookup_lt_Some; eassumption].
Ltac run_upd :=
  rewrite ?bind_assoc;
  match goal with
  | |- context [(upd_vma (Some ?i) ?f ≫= _) ?s] =>
      rewrite (bind_ok _ _ _ _ _ (upd_vma_run i f s ltac:(tbl_len)))
  | |- context [(upd_file (Some ?i) ?f ≫= _) ?s] =>
      rewrite (bind_ok _ _ _ _ _ (upd_file_run i f s ltac:(tbl_len)))
  | |- context [(upd_inode (Some ?i) ?f ≫= _) ?s] =>
      rewrite (bind_ok _ _ _ _ _ (upd_inode_run i f s ltac:(tbl_len)))
  | |- context [(upd_proc ?i ?f ≫= _) ?s] =>
      rewrite (bind_ok _ _ _ _ _ (upd_proc_run i f s ltac:(tbl_len)))
  end; cbv beta; kst.
Ltac tbl_at :=
  kst;
  repeat first
    [ rewrite list_lookup_alter_eq | rewrite list_lookup_alter_ne by congruence
    | rewrite list_lookup_insert_eq by tbl_len | rewrite list_lookup_insert_ne by congruence ];
  first [ eassumption
        | match goal with H : ?l !! ?i = Some _ |- context [?l !! ?i] => rewrite H end; reflexivity ].
Ltac run_at :=
  rewrite ?bind_assoc;
  match goal with
  | |- context [(vma_at (Some ?i) ≫= _) ?s] =>
      erewrite (bind_ok (vma_at (Some i)) _ s); [|apply vma_at_run; tbl_at]
  | |- context [(file_at (Some ?i) ≫= _) ?s] =>
      erewrite (bind_ok (file_at (Some i)) _ s); [|apply file_at_run; tbl_at]
  | |- context [(inode_at (Some ?i) ≫= _) ?s] =>
      erewrite (bind_ok (inode_at (Some i)) _ s); [|apply inode_at_run; tbl_at]
  | |- context [(proc_at ?i ≫= _) ?s] =>
      erewrite (bind_ok (proc_at i) _ s); [|apply proc_at_run; tbl_at]
  end; cbv beta; kst.

(** [run_deref H], [run_assign H]: step over an access to a table whose lookup
    is [H] (up to computation of the record updates). *)
Ltac run_deref H :=
  match goal with
  | |- context [(deref ?t (Some ?i) ≫= _) ?s] =>
      rewrite (bind_ok _ _ _ _ _ (deref_run t i s _ H))
  | |- context [deref ?t (Some ?i) ?s] => rewrite (deref_run t i s _ H)
  end.
Ltac run_assign H :=
  match goal with
  | |- context [(assign ?t ?u (Some ?i) ?f ≫= _) ?s] =>
      rewrite (bind_ok _ _ _ _ _ (assign_run t u i f s _ H))
  | |- context [assign ?t ?u (Some ?i) ?f ?s] => rewrite (assign_run t u i f s _ H)
  end.
