(* ===== verification/Mem.v ===== *)
(** RAM and kernel/string.c.

    RAM is a map from byte addresses to bytes; multi-byte accesses are little
    endian.  The kernel reaches RAM through its direct map (kvmmake), so an
    access outside [KERNBASE, PHYSTOP) is a fault, which kerneltrap() turns
    into a panic. *)

From S2P Require Import Prelude Riscv Kstate.

(** ** Bytes and words of a memory *)

Definition ld8 (m : gmap Z Z) (a : Z) : Z := u8 (default 0 (m !! a)).
Definition st8 (m : gmap Z Z) (a v : Z) : gmap Z Z := <[a := u8 v]> m.

(** [n]-byte little-endian load and store. *)
Fixpoint ld (n : nat) (m : gmap Z Z) (a : Z) : Z :=
  match n with
  | O => 0
  | S n => ld8 m a + 256 * ld n m (a + 1)
  end.

Fixpoint st (n : nat) (m : gmap Z Z) (a v : Z) : gmap Z Z :=
  match n with
  | O => m
  | S n => st8 (st n m (a + 1) (v / 256)) a v
  end.

Definition ld64 := ld 8.
Definition st64 := st 8.
Arguments ld64 : simpl never.
Arguments st64 : simpl never.

Lemma u8_range x : 0 ≤ u8 x < 256.
Proof. by apply (wrap_range 8). Qed.

Lemma u8_small x : 0 ≤ x < 256 → u8 x = x.
Proof. apply (wrap_small 8). Qed.

Lemma u8_u8 x : u8 (u8 x) = u8 x.
Proof. apply u8_small, u8_range. Qed.

Lemma ld8_range m a : 0 ≤ ld8 m a < 256.
Proof. apply u8_range. Qed.

Lemma ld8_st8 m a a' v : ld8 (st8 m a v) a' = if decide (a = a') then u8 v else ld8 m a'.
Proof.
  unfold ld8, st8. case_decide as E.
  - subst. rewrite lookup_insert_eq. apply u8_u8.
  - by rewrite lookup_insert_ne.
Qed.

Lemma ld8_st_out n m a v a' :
  a' < a ∨ a + Z.of_nat n ≤ a' → ld8 (st n m a v) a' = ld8 m a'.
Proof.
  revert a v. induction n as [|n IH]; intros a v H; simpl; [done|].
  rewrite ld8_st8. case_decide; [lia|]. apply IH. lia.
Qed.

Lemma ld_ext n m m' a :
  (∀ i, a ≤ i < a + Z.of_nat n → ld8 m i = ld8 m' i) → ld n m a = ld n m' a.
Proof.
  revert a. induction n as [|n IH]; intros a H; simpl; [done|].
  rewrite H by lia. f_equal. f_equal. apply IH. intros. apply H. lia.
Qed.

Lemma ld_st_same n m a v : ld n (st n m a v) a = v mod 256 ^ Z.of_nat n.
Proof.
  revert a v. induction n as [|n IH]; intros a v.
  { simpl. by rewrite Z.mod_1_r. }
  cbn [ld st]. rewrite ld8_st8. case_decide; [|done].
  rewrite (ld_ext n _ (st n m (a + 1) (v / 256))).
  2:{ intros i Hi. rewrite ld8_st8. case_decide; [lia|done]. }
  rewrite IH. rewrite Nat2Z.inj_succ, Z.pow_succ_r by lia.
  rewrite Z.rem_mul_r by lia. done.
Qed.

Lemma ld_range n m a : 0 ≤ ld n m a < 256 ^ Z.of_nat n.
Proof.
  revert a. induction n as [|n IH]; intros a; [simpl; lia|].
  cbn [ld]. rewrite Nat2Z.inj_succ, Z.pow_succ_r by lia.
  pose proof (ld8_range m a). specialize (IH (a + 1)). nia.
Qed.

Lemma ld64_range m a : 0 ≤ ld64 m a < 18446744073709551616.
Proof. apply (ld_range 8). Qed.

Lemma ld64_st64_same m a v : ld64 (st64 m a v) a = u64 v.
Proof. apply (ld_st_same 8). Qed.

Lemma ld64_ext m m' a :
  (∀ i, a ≤ i < a + 8 → ld8 m i = ld8 m' i) → ld64 m a = ld64 m' a.
Proof. apply (ld_ext 8). Qed.

Lemma ld8_st64_out m a v a' : a' < a ∨ a + 8 ≤ a' → ld8 (st64 m a v) a' = ld8 m a'.
Proof. apply (ld8_st_out 8). Qed.

Lemma ld64_st64_ne m a v a' :
  a' + 8 ≤ a ∨ a + 8 ≤ a' → ld64 (st64 m a v) a' = ld64 m a'.
Proof. intros H. apply ld64_ext. intros i Hi. apply ld8_st64_out. lia. Qed.

Lemma ld64_zero m a : (∀ i, a ≤ i < a + 8 → ld8 m i = 0) → ld64 m a = 0.
Proof.
  intros H. rewrite (ld64_ext m (∅ : gmap Z Z)); [done|].
  intros i Hi. rewrite H by done. done.
Qed.

(** ** Block fills and copies, as the loops of string.c leave them *)

Fixpoint fill (m : gmap Z Z) (a : Z) (l : list Z) : gmap Z Z :=
  match l with
  | [] => m
  | b :: l => fill (st8 m a b) (a + 1) l
  end.

Lemma ld8_fill_out m a l a' :
  a' < a ∨ a + Z.of_nat (length l) ≤ a' → ld8 (fill m a l) a' = ld8 m a'.
Proof.
  revert m a. induction l as [|b l IH]; intros m a H; simpl in *; [done|].
  rewrite IH by lia. rewrite ld8_st8. case_decide; [lia|done].
Qed.

Lemma ld8_fill_in m a l i b :
  l !! i = Some b → ld8 (fill m a l) (a + Z.of_nat i) = u8 b.
Proof.
  revert m a i. induction l as [|c l IH]; intros m a i H; [done|].
  destruct i as [|i]; simplify_eq/=.
  - rewrite ld8_fill_out by lia. rewrite ld8_st8. case_decide; [done|lia].
  - replace (a + Z.of_nat (S i)) with (a + 1 + Z.of_nat i) by lia. by apply IH.
Qed.

Lemma fill_app m a l1 l2 :
  fill m a (l1 ++ l2) = fill (fill m a l1) (a + Z.of_nat (length l1)) l2.
Proof.
  revert m a. induction l1 as [|b l1 IH]; intros m a; simpl.
  - f_equal. lia.
  - rewrite IH. f_equal. lia.
Qed.

(** The bytes of a range. *)
Fixpoint bytes (m : gmap Z Z) (a : Z) (n : nat) : list Z :=
  match n with
  | O => []
  | S n => ld8 m a :: bytes m (a + 1) n
  end.

Lemma length_bytes m a n : length (bytes m a n) = n.
Proof. revert a. induction n; intros; simpl; auto. Qed.

Lemma lookup_bytes m a n i :
  (i < n)%nat → bytes m a n !! i = Some (ld8 m (a + Z.of_nat i)).
Proof.
  revert a i. induction n as [|n IH]; intros a i H; [lia|].
  destruct i as [|i]; simpl.
  - do 2 f_equal. lia.
  - rewrite IH by lia. do 2 f_equal. lia.
Qed.

Lemma bytes_ext m m' a n :
  (∀ i, a ≤ i < a + Z.of_nat n → ld8 m i = ld8 m' i) → bytes m a n = bytes m' a n.
Proof.
  revert a. induction n as [|n IH]; intros a H; simpl; [done|].
  f_equal; [apply H; lia|]. apply IH. intros. apply H. lia.
Qed.

Lemma bytes_fill m a l :
  Forall (λ b, 0 ≤ b < 256) l → bytes (fill m a l) a (length l) = l.
Proof.
  intros Hl. apply list_eq. intros i.
  destruct (decide (i < length l)%nat) as [Hi|Hi].
  - rewrite lookup_bytes by done. destruct (lookup_is_Some l i Hi) as [b Hb].
    rewrite Hb, (ld8_fill_in _ _ _ _ _ Hb), u8_small; [done|].
    exact (Forall_lookup_1 _ _ _ _ Hl Hb).
  - rewrite !lookup_ge_None_2; [done|lia|rewrite length_bytes; lia].
Qed.

Lemma bytes_app m a n1 n2 :
  bytes m a (n1 + n2) = bytes m a n1 ++ bytes m (a + Z.of_nat n1) n2.
Proof.
  revert a. induction n1 as [|n1 IH]; intros a; simpl.
  - f_equal. lia.
  - rewrite IH. do 3 f_equal. lia.
Qed.

Lemma bytes_range m a n : Forall (λ b, 0 ≤ b < 256) (bytes m a n).
Proof. revert a. induction n; intros; simpl; constructor; auto using ld8_range. Qed.

(** ** Kernel accesses to RAM *)

Definition in_ram (a : Z) : bool := (KERNBASE <=? a) && (a <? PHYSTOP).

Definition mem (s : kstate) : gmap Z Z := mm_mem (k_mm s).
Definition put_mem (m : gmap Z Z) (s : kstate) : kstate := set_mm (set_mem m (k_mm s)) s.

Definition load8 (a : Z) : K Z :=
  if in_ram a then gets (λ s, ld8 (mem s) a) else fail (EFault a).
Definition store8 (a v : Z) : K unit :=
  if in_ram a then modify (λ s, put_mem (st8 (mem s) a v) s) else fail (EFault a).
Definition load64 (a : Z) : K Z :=
  if in_ram a && in_ram (a + 7) then gets (λ s, ld64 (mem s) a) else fail (EFault a).
Definition store64 (a v : Z) : K unit :=
  if in_ram a && in_ram (a + 7)
  then modify (λ s, put_mem (st64 (mem s) a v) s) else fail (EFault a).

(** A range of RAM. *)
Definition ram_range (a n : Z) : Prop := KERNBASE ≤ a ∧ a + n ≤ PHYSTOP.

Lemma in_ram_true a : KERNBASE ≤ a < PHYSTOP → in_ram a = true.
Proof. unfold in_ram. intros. rewrite andb_true_iff, Z.leb_le, Z.ltb_lt. lia. Qed.

Lemma in_ram_false a : ¬ (KERNBASE ≤ a < PHYSTOP) → in_ram a = false.
Proof. unfold in_ram. intros. rewrite andb_false_iff, Z.leb_gt, Z.ltb_ge. lia. Qed.

Lemma load64_run a s : ram_range a 8 → load64 a s = Ok (ld64 (mem s) a) s.
Proof. intros []. unfold load64. by rewrite !in_ram_true by lia. Qed.

Lemma store64_run a v s :
  ram_range a 8 → store64 a v s = Ok tt (put_mem (st64 (mem s) a v) s).
Proof. intros []. unfold store64. by rewrite !in_ram_true by lia. Qed.

Lemma load8_run a s : ram_range a 1 → load8 a s = Ok (ld8 (mem s) a) s.
Proof. intros []. unfold load8. by rewrite in_ram_true by lia. Qed.

Lemma store8_run a v s : ram_range a 1 → store8 a v s = Ok tt (put_mem (st8 (mem s) a v) s).
Proof. intros []. unfold store8. by rewrite in_ram_true by lia. Qed.

Lemma put_mem_put_mem m m' s : put_mem m (put_mem m' s) = put_mem m s.
Proof. done. Qed.
Lemma mem_put_mem m s : mem (put_mem m s) = m.
Proof. done. Qed.
Lemma put_mem_mem s : put_mem (mem s) s = s.
Proof. destruct s as [? ? []]. done. Qed.
#[export] Hint Rewrite put_mem_put_mem mem_put_mem : kset.

(** ** kernel/string.c on RAM *)

(** for(i = 0; i < n; i++) cdst[i] = c; *)
Fixpoint memset (dst c : Z) (n : nat) : K unit :=
  match n with
  | O => skip
  | S n => store8 dst c;; memset (dst + 1) c n
  end.

(** while(n-- > 0) *d++ = *s++; *)
Fixpoint memmove_fwd (d s : Z) (n : nat) : K unit :=
  match n with
  | O => skip
  | S n => b ← load8 s; store8 d b;; memmove_fwd (d + 1) (s + 1) n
  end.

(** while(n-- > 0) *--d = *--s; *)
Fixpoint memmove_bwd (d s : Z) (n : nat) : K unit :=
  match n with
  | O => skip
  | S n => b ← load8 (s - 1); store8 (d - 1) b;; memmove_bwd (d - 1) (s - 1) n
  end.

Definition memmove (dst src : Z) (n : nat) : K unit :=
  if decide (n = O) then skip
  else if (src <? dst) && (dst <? src + Z.of_nat n)
  then memmove_bwd (dst + Z.of_nat n) (src + Z.of_nat n) n
  else memmove_fwd dst src n.

(** memmove() from a kernel object (a buffer, a local variable) to RAM and
    back: the object's bytes are a list. *)
Fixpoint memmove_to (dst : Z) (src : list Z) : K unit :=
  match src with
  | [] => skip
  | b :: src => store8 dst b;; memmove_to (dst + 1) src
  end.

Fixpoint memmove_from (src : Z) (n : nat) : K (list Z) :=
  match n with
  | O => mret []
  | S n => b ← load8 src; l ← memmove_from (src + 1) n; mret (b :: l)
  end.

Lemma memmove_to_run dst l s :
  ram_range dst (Z.of_nat (length l)) →
  memmove_to dst l s = Ok tt (put_mem (fill (mem s) dst l) s).
Proof.
  unfold ram_range. revert dst s.
  induction l as [|b l IH]; intros dst s [H1 H2]; simpl in *.
  { by rewrite put_mem_mem. }
  assert (ram_range dst 1) by (unfold ram_range; lia).
  rewrite (bind_ok _ _ _ _ _ (store8_run _ _ _ H)). rewrite IH by lia. done.
Qed.

Lemma memmove_from_run src n s :
  ram_range src (Z.of_nat n) →
  memmove_from src n s = Ok (bytes (mem s) src n) s.
Proof.
  unfold ram_range. revert src.
  induction n as [|n IH]; intros src [H1 H2]; simpl in *; [done|].
  assert (ram_range src 1) by (unfold ram_range; lia).
  rewrite (bind_ok _ _ _ _ _ (load8_run _ _ H)).
  rewrite (bind_ok _ _ _ _ _ (IH (src + 1) ltac:(lia))). done.
Qed.

Lemma memset_to dst c n : memset dst c n = memmove_to dst (replicate n c).
Proof. revert dst. induction n as [|n IH]; intros; simpl; [done|]. by rewrite IH. Qed.

Lemma memset_run dst c n s :
  ram_range dst (Z.of_nat n) →
  memset dst c n s = Ok tt (put_mem (fill (mem s) dst (replicate n c)) s).
Proof. intros. rewrite memset_to. apply memmove_to_run. by rewrite length_replicate. Qed.

Lemma ld8_memset m dst c n a :
  ld8 (fill m dst (replicate n c)) a =
  if decide (dst ≤ a < dst + Z.of_nat n) then u8 c else ld8 m a.
Proof.
  case_decide as H.
  - replace a with (dst + Z.of_nat (Z.to_nat (a - dst))) by lia.
    apply ld8_fill_in. apply lookup_replicate_2. lia.
  - apply ld8_fill_out. rewrite length_replicate. lia.
Qed.

(** memmove() copies correctly whatever the overlap of the two ranges. *)

Definition copied (m m' : gmap Z Z) (dst src : Z) (n : nat) : Prop :=
  ∀ a, ld8 m' a = if decide (dst ≤ a < dst + Z.of_nat n) then ld8 m (src + (a - dst)) else ld8 m a.

Lemma memmove_fwd_run d sr n s :
  ram_range d (Z.of_nat n) → ram_range sr (Z.of_nat n) → (d ≤ sr ∨ sr + Z.of_nat n ≤ d) →
  ∃ m', memmove_fwd d sr n s = Ok tt (put_mem m' s) ∧ copied (mem s) m' d sr n.
Proof.
  unfold ram_range. revert d sr s.
  induction n as [|n IH]; intros d sr s [] [] Hd; cbn [memmove_fwd].
  { exists (mem s). rewrite put_mem_mem. split; [done|]. intros a. case_decide; [lia|done]. }
  rewrite (bind_ok _ _ _ _ _ (load8_run sr _ ltac:(split; lia))).
  rewrite (bind_ok _ _ _ _ _ (store8_run d _ _ ltac:(split; lia))).
  destruct (IH (d + 1) (sr + 1) (put_mem (st8 (mem s) d (ld8 (mem s) sr)) s)) as (m' & -> & Hc);
    [lia..|].
  exists m'. split; [done|]. intros a. rewrite (Hc a), mem_put_mem, !ld8_st8.
  repeat case_decide; try lia; try (f_equal; lia).
  subst. rewrite u8_small by apply ld8_range. f_equal. lia.
Qed.

Lemma memmove_bwd_run d sr n s :
  ram_range d (Z.of_nat n) → ram_range sr (Z.of_nat n) → sr ≤ d →
  ∃ m', memmove_bwd (d + Z.of_nat n) (sr + Z.of_nat n) n s = Ok tt (put_mem m' s)
        ∧ copied (mem s) m' d sr n.
Proof.
  unfold ram_range. revert s.
  induction n as [|n IH]; intros s [] [] Hd; cbn [memmove_bwd].
  { exists (mem s). rewrite put_mem_mem. split; [done|]. intros a. case_decide; [lia|done]. }
  replace (sr + Z.of_nat (S n) - 1) with (sr + Z.of_nat n) by lia.
  replace (d + Z.of_nat (S n) - 1) with (d + Z.of_nat n) by lia.
  rewrite (bind_ok _ _ _ _ _ (load8_run (sr + Z.of_nat n) _ ltac:(split; lia))).
  rewrite (bind_ok _ _ _ _ _ (store8_run (d + Z.of_nat n) _ _ ltac:(split; lia))).
  edestruct (IH (put_mem (st8 (mem s) (d + Z.of_nat n) (ld8 (mem s) (sr + Z.of_nat n))) s))
    as (m' & -> & Hc); [lia..|].
  exists m'. split; [done|]. intros a. rewrite (Hc a), mem_put_mem, !ld8_st8.
  repeat case_decide; try lia; try (f_equal; lia).
  subst. rewrite u8_small by apply ld8_range. f_equal. lia.
Qed.

Lemma memmove_run dst src n s :
  ram_range dst (Z.of_nat n) → ram_range src (Z.of_nat n) →
  ∃ m', memmove dst src n s = Ok tt (put_mem m' s) ∧ copied (mem s) m' dst src n.
Proof.
  intros Hd Hs. unfold memmove. case_decide as Hn.
  { subst. exists (mem s). rewrite put_mem_mem. split; [done|]. intros a. case_decide; [lia|done]. }
  destruct (Z.ltb_spec src dst) as [H1|H1], (Z.ltb_spec dst (src + Z.of_nat n)) as [H2|H2]; simpl.
  - apply memmove_bwd_run; [done..|lia].
  - apply memmove_fwd_run; [done..|lia].
  - apply memmove_fwd_run; [done..|lia].
  - apply memmove_fwd_run; [done..|lia].
Qed.
