(* ===== verification/Kalloc.v ===== *)
(** kernel/kalloc.c: the physical page allocator.

    Every page has a descriptor in kmem.runs; the free list links descriptors
    ([r_next], 0 for the end of the list).  The abstract view of the allocator
    is the list of its free page numbers, most recently freed first
    ([free_list]); kalloc pops it and kfree pushes onto it. *)

From S2P Require Import Prelude Riscv Kstate Mem.

Section kalloc.
Context {L : Layout}.

Definition MAXPAGES : Z := PHYSTOP / PGSIZE.

(** [&kmem.runs[pg]]; a [struct run] is 16 bytes. *)
Definition run_addr (pg : Z) : Z := l_runs + 16 * pg.

Definition run_at (m : mm) (r : Z) : run := default (Run 0 0) (mm_runs m !! r).
Definition put_run (r : Z) (x : run) (m : mm) : mm := set_runs (<[r := x]> (mm_runs m)) m.

(** [((uint64)pa % PGSIZE) != 0 || (char* )pa < end || (uint64)pa >= PHYSTOP] *)
Definition bad_pa (pa : Z) : bool :=
  negb (pa mod PGSIZE =? 0) || (pa <? l_end) || (PHYSTOP <=? pa).

(** The critical section that links a descriptor at the front of the list. *)
Definition push_run (r : Z) : K unit :=
  acquire L_kmem;;
  upd_mm (λ m, put_run r (Run (mm_freelist m) (r_ref (run_at m r))) m);;
  upd_mm (set_freelist r);;
  release L_kmem.

Definition _kfree (pa : Z) : K unit :=
  if bad_pa pa then panic "_kfree"
  else
    memset pa 1 PGNAT;;
    push_run (run_addr (pa / PGSIZE)).

Definition kfree (pa : Z) : K unit :=
  if bad_pa pa then panic "kfree"
  else
    memset pa 1 PGNAT;;
    let r := run_addr (pa / PGSIZE) in
    x ← gets (λ s, run_at (k_mm s) r);
    if negb (r_ref x =? 1) then fail (EExit (-1))
    else push_run r.

Definition kalloc : K Z :=
  acquire L_kmem;;
  r ← gets (λ s, mm_freelist (k_mm s));
  when (negb (r =? 0))
    (upd_mm (λ m, put_run r (Run (r_next (run_at m r)) 1) m);;
     upd_mm (λ m, set_freelist (r_next (run_at m r)) m));;
  release L_kmem;;
  let pa := u64 ((r - l_runs) / 16 * PGSIZE) in
  when (negb (r =? 0)) (memset pa 5 PGNAT);;
  mret pa.

(** for(; p + PGSIZE <= pa_end; p += PGSIZE) free(p); *)
Definition freerange_with (free : Z → K unit) (pa_start pa_end : Z) : K unit :=
  iterM EFuel (S (Z.to_nat ((pa_end - PGROUNDUP pa_start) / PGSIZE)))
    (λ p, if p + PGSIZE <=? pa_end
          then free p;; mret (inl (p + PGSIZE))
          else mret (inr tt))
    (PGROUNDUP pa_start).

Definition _freerange : Z → Z → K unit := freerange_with _kfree.
Definition freerange : Z → Z → K unit := freerange_with kfree.

Definition kinit : K unit := _freerange l_end PHYSTOP.

Definition incref (pa : Z) : K unit :=
  if bad_pa pa then panic "incref"
  else
    acquire L_kmem;;
    let r := run_addr (pa / PGSIZE) in
    upd_mm (λ m, put_run r (Run (r_next (run_at m r)) (u32 (r_ref (run_at m r) + 1))) m);;
    release L_kmem.

Definition decref (pa : Z) : K unit :=
  if bad_pa pa then panic "decref"
  else
    acquire L_kmem;;
    let r := run_addr (pa / PGSIZE) in
    upd_mm (λ m, put_run r (Run (r_next (run_at m r)) (u32 (r_ref (run_at m r) - 1))) m);;
    release L_kmem.

Definition getref (pa : Z) : K Z :=
  gets (λ s, r_ref (run_at (k_mm s) (run_addr (pa / PGSIZE)))).

(** ** Well-formedness *)

(** A page the allocator may hand out. *)
Definition page_ok (pg : Z) : Prop := l_end ≤ 4096 * pg ∧ 4096 * pg < PHYSTOP.

(** From descriptor pointer [r], the free list visits exactly the pages [l]. *)
Fixpoint chain (m : mm) (r : Z) (l : list Z) : Prop :=
  match l with
  | [] => r = 0
  | pg :: l => r = run_addr pg ∧ chain m (r_next (run_at m r)) l
  end.

(** [free_list m l]: the allocator state [m] represents the free pages [l]. *)
Definition free_list (m : mm) (l : list Z) : Prop :=
  chain m (mm_freelist m) l ∧ NoDup l ∧ Forall page_ok l.

Context {LO : LayoutOk L}.

Lemma run_addr_nonzero pg : page_ok pg → run_addr pg ≠ 0.
Proof.
  intros [H1 H2]. unfold run_addr. pose proof l_runs_range. pose proof l_end_range.
  unfold KERNBASE in *. lia.
Qed.

Lemma run_addr_inj pg pg' : run_addr pg = run_addr pg' → pg = pg'.
Proof. unfold run_addr. lia. Qed.

Lemma page_ok_ram pg : page_ok pg → ram_range (4096 * pg) (Z.of_nat PGNAT).
Proof.
  intros [H1 H2]. unfold ram_range. rewrite pgnat_eq. pose proof l_end_range.
  unfold PHYSTOP, KERNBASE in *. lia.
Qed.

Lemma bad_pa_false pg : page_ok pg → bad_pa (4096 * pg) = false.
Proof.
  intros [H1 H2]. unfold bad_pa.
  rewrite aligned_mul. simpl. rewrite orb_false_iff, Z.ltb_ge, Z.leb_gt. lia.
Qed.

Lemma bad_pa_page pa : bad_pa pa = false → ∃ pg, pa = 4096 * pg ∧ page_ok pg.
Proof.
  unfold bad_pa. rewrite !orb_false_iff, negb_false_iff, Z.eqb_eq, Z.ltb_ge, Z.leb_gt.
  intros [[H1%aligned_split H2] H3]. exists (pa / 4096). split; [done|]. split; lia.
Qed.

(** The page of a descriptor, and the descriptor of a page. *)
Lemma run_page pg : page_ok pg → u64 ((run_addr pg - l_runs) / 16 * PGSIZE) = 4096 * pg.
Proof.
  intros [H1 H2]. unfold run_addr. pose proof l_end_range.
  replace (l_runs + 16 * pg - l_runs) with (pg * 16) by lia.
  rewrite Z.div_mul by lia. unfold PGSIZE, PHYSTOP, KERNBASE in *. rewrite u64_small; lia.
Qed.

Lemma page_div pg : 4096 * pg / PGSIZE = pg.
Proof. unfold PGSIZE. rewrite Z.mul_comm. apply Z.div_mul. lia. Qed.

Lemma run_at_put m r x r' :
  run_at (put_run r x m) r' = if decide (r = r') then x else run_at m r'.
Proof.
  unfold run_at, put_run. simpl. case_decide.
  - subst. by rewrite lookup_insert_eq.
  - by rewrite lookup_insert_ne.
Qed.

(** The chain only depends on the descriptors it visits. *)
Lemma chain_ext m m' r l :
  (∀ pg, pg ∈ l → r_next (run_at m' (run_addr pg)) = r_next (run_at m (run_addr pg))) →
  chain m r l → chain m' r l.
Proof.
  revert r. induction l as [|pg l IH]; intros r H; simpl; [done|].
  intros [-> Hc]. split; [done|]. rewrite H by set_solver. apply IH; [|done].
  intros. apply H. set_solver.
Qed.

(** ** Specifications *)

(** The effect of handing out the page [pg] at the front of the free list. *)
Definition taken (pg : Z) (m : mm) : mm :=
  let r := run_addr pg in
  let nx := r_next (run_at m r) in
  MM (fill (mm_mem m) (4096 * pg) (replicate PGNAT 5)) nx (<[r := Run nx 1]> (mm_runs m)).

(** The effect of freeing the page [pg]. *)
Definition freed (pg : Z) (m : mm) : mm :=
  let r := run_addr pg in
  MM (fill (mm_mem m) (4096 * pg) (replicate PGNAT 1)) r
     (<[r := Run (mm_freelist m) (r_ref (run_at m r))]> (mm_runs m)).

Lemma kalloc_run s pg l :
  free_list (k_mm s) (pg :: l) → L_kmem ∉ k_held s →
  kalloc s = Ok (4096 * pg) (set_mm (taken pg (k_mm s)) s).
Proof.
  intros ([E _] & _ & Hok) Hh. apply Forall_cons in Hok as [Hpg _].
  unfold kalloc. run_acquire. run. simpl.
  rewrite E, (proj2 (Z.eqb_neq _ _) (run_addr_nonzero _ Hpg)). simpl.
  unfold when, upd_mm. run. simpl.
  run_release.
  simpl. rewrite held_restore by done.
  rewrite run_page by done.
  rewrite (bind_ok _ _ _ _ _ (memset_run _ _ _ _ (page_ok_ram _ Hpg))).
  unfold mret, M_ret. f_equal. unfold taken, set_held, put_mem, set_mm. simpl.
  rewrite run_at_put. case_decide; [done|congruence].
Qed.

Lemma taken_free_list m pg l : free_list m (pg :: l) → free_list (taken pg m) l.
Proof.
  intros ([E Hc] & Hnd & Hok).
  apply NoDup_cons in Hnd as [Hni Hnd]. apply Forall_cons in Hok as [Hpg Hok].
  split; [|done]. simpl. rewrite E in Hc. eapply chain_ext; [|exact Hc].
  intros pg' Hpg'. unfold run_at. simpl.
  rewrite lookup_insert_ne; [done|]. intros ->%run_addr_inj. done.
Qed.

Lemma taken_mem m pg a :
  ld8 (mm_mem (taken pg m)) a =
  if decide (4096 * pg ≤ a < 4096 * pg + 4096) then 5 else ld8 (mm_mem m) a.
Proof. simpl. by rewrite ld8_memset, pgnat_eq. Qed.

Lemma freed_mem m pg a :
  ld8 (mm_mem (freed pg m)) a =
  if decide (4096 * pg ≤ a < 4096 * pg + 4096) then 1 else ld8 (mm_mem m) a.
Proof. simpl. by rewrite ld8_memset, pgnat_eq. Qed.

Lemma push_run_run s r :
  L_kmem ∉ k_held s →
  push_run r s = Ok tt (set_mm (set_freelist r
     (put_run r (Run (mm_freelist (k_mm s)) (r_ref (run_at (k_mm s) r))) (k_mm s))) s).
Proof.
  intros Hh. unfold push_run, upd_mm.
  run_acquire. run.
  run_release. simpl. rewrite held_restore by done.
  by destruct s.
Qed.

Lemma kfree_run s pg :
  page_ok pg → r_ref (run_at (k_mm s) (run_addr pg)) = 1 → L_kmem ∉ k_held s →
  kfree (4096 * pg) s = Ok tt (set_mm (freed pg (k_mm s)) s).
Proof.
  intros Hpg Href Hh. unfold kfree. rewrite bad_pa_false by done.
  rewrite (bind_ok _ _ _ _ _ (memset_run _ _ _ _ (page_ok_ram _ Hpg))). run.
  rewrite page_div. change (run_at (k_mm (put_mem _ s)) (run_addr pg))
    with (run_at (k_mm s) (run_addr pg)).
  rewrite Href. simpl. rewrite push_run_run by done. done.
Qed.

Lemma freed_free_list m pg l :
  free_list m l → page_ok pg → pg ∉ l → free_list (freed pg m) (pg :: l).
Proof.
  intros (Hc & Hnd & Hok) Hpg Hni. split; [|split; [by constructor|by constructor]].
  simpl. split; [done|]. unfold run_at at 1. simpl. rewrite lookup_insert_eq. simpl.
  eapply chain_ext; [|exact Hc]. intros pg' Hpg'. unfold run_at. simpl.
  rewrite lookup_insert_ne; [done|]. intros ->%run_addr_inj. done.
Qed.

(** With an empty free list kalloc() falls through to the pointer subtraction
    and returns this address. *)
Definition kalloc_null : Z := u64 ((0 - l_runs) / 16 * PGSIZE).

Lemma kalloc_oom_run s :
  free_list (k_mm s) [] → L_kmem ∉ k_held s → kalloc s = Ok kalloc_null s.
Proof.
  intros (E & _ & _) Hh. unfold kalloc.
  run_acquire. run. simpl in *. rewrite E. simpl.
  unfold when, skip. run.
  run_release.
  simpl. rewrite held_restore by done. run. unfold mret, M_ret. f_equal. by destruct s.
Qed.

Lemma kalloc_null_range : PHYSTOP ≤ kalloc_null < 2 ^ 64.
Proof.
  unfold kalloc_null. pose proof l_runs_range as [H1 H2]. pose proof l_end_range as [_ H3].
  unfold PHYSTOP, KERNBASE, PGSIZE in *. change (2 ^ 64) with 18446744073709551616.
  set (d := (0 - l_runs) / 16).
  assert (-(0x8800000) ≤ d < 0) as Hd.
  { subst d. change ((0x80000000 + 128 * 1024 * 1024) / 4096) with 557056 in H2. dlia. }
  assert (u64 (d * 4096) = d * 4096 + 18446744073709551616) as ->; [|lia].
  unfold u64, wrap. change (2 ^ 64) with 18446744073709551616.
  rewrite <- (Z.mod_add _ 1) by lia. apply Z.mod_small. lia.
Qed.

(** ** Boot: kinit() puts every page above the kernel image on the list. *)

(** The pages [lo], [lo+1], ..., [lo+n-1] in the order kinit() leaves them. *)
Fixpoint down_from (lo : Z) (n : nat) : list Z :=
  match n with
  | O => []
  | S n => (lo + Z.of_nat n) :: down_from lo n
  end.

Lemma elem_of_down_from lo n pg : pg ∈ down_from lo n ↔ lo ≤ pg < lo + Z.of_nat n.
Proof.
  induction n as [|n IH]; simpl.
  - split; [set_solver|lia].
  - rewrite elem_of_cons, IH. lia.
Qed.

Lemma _kfree_run s pg :
  page_ok pg → L_kmem ∉ k_held s →
  _kfree (4096 * pg) s = Ok tt (set_mm (freed pg (k_mm s)) s).
Proof.
  intros Hpg Hh. unfold _kfree. rewrite bad_pa_false by done.
  rewrite (bind_ok _ _ _ _ _ (memset_run _ _ _ _ (page_ok_ram _ Hpg))).
  rewrite page_div, push_run_run by done. done.
Qed.

Definition first_page : Z := PGROUNDUP l_end / 4096.
Definition boot_pages : nat := Z.to_nat (PHYSTOP / 4096 - first_page).

Lemma first_page_ok pg : first_page ≤ pg < PHYSTOP / 4096 → page_ok pg.
Proof.
  unfold first_page, page_ok. pose proof l_end_range.
  unfold PHYSTOP, KERNBASE in *. rewrite pgroundup_eq by lia. intros. dlia.
Qed.

Lemma kinit_loop s n fuel :
  (n ≤ boot_pages)%nat → (boot_pages - n < fuel)%nat → L_kmem ∉ k_held s →
  free_list (k_mm s) (down_from first_page n) →
  ∃ m, iterM EFuel fuel
    (λ p, if p + PGSIZE <=? PHYSTOP
          then _kfree p;; mret (inl (p + PGSIZE))
          else mret (inr tt)) (4096 * (first_page + Z.of_nat n)) s = Ok tt (set_mm m s)
   ∧ free_list m (down_from first_page boot_pages).
Proof.
  revert s n. induction fuel as [|fuel IH]; intros s n Hn Hf Hh Hfl; [lia|].
  rewrite iterM_S.
  assert (HP : PHYSTOP = 4096 * (PHYSTOP / 4096)) by done.
  assert (Hbp : (boot_pages = Z.to_nat (PHYSTOP / 4096 - first_page))%nat) by done.
  destruct (Z.leb_spec (4096 * (first_page + Z.of_nat n) + PGSIZE) PHYSTOP) as [Hle|Hgt];
    unfold PGSIZE in *.
  - assert (Hok : page_ok (first_page + Z.of_nat n)) by (apply first_page_ok; lia).
    rewrite bind_assoc, (bind_ok _ _ _ _ _ (_kfree_run s _ Hok Hh)). run.
    replace (4096 * (first_page + Z.of_nat n) + 4096)
      with (4096 * (first_page + Z.of_nat (S n))) by lia.
    destruct (IH (set_mm (freed (first_page + Z.of_nat n) (k_mm s)) s) (S n))
      as (m & -> & Hm); [lia|lia|done| |].
    + simpl. apply freed_free_list; [done|done|]. rewrite elem_of_down_from. lia.
    + exists m. by rewrite set_mm_mm.
  - run. exists (k_mm s). rewrite set_mm_id. split; [done|].
    replace boot_pages with n by lia. done.
Qed.

End kalloc.
