(* ===== verification/Vm.v ===== *)
(** kernel/vm.c: Sv39 page tables, user address spaces, and copying between
    kernel and user memory.  A page-table pointer is the physical address of
    its page; an entry is the 64-bit word at [table + 8 * index].  NULL is 0. *)

From S2P Require Import Prelude Riscv Kstate Mem Kalloc.

Section vm.
Context {L : Layout}.

(** The descent of walk(): one iteration per level above the leaf.  Returns 0
    when a table is missing and may not be (or cannot be) allocated. *)
Fixpoint walk_levels (levels : list Z) (pagetable va : Z) (alloc : bool) : K Z :=
  match levels with
  | [] => mret (pagetable + 8 * PX 0 va)
  | level :: levels =>
      let pte := pagetable + 8 * PX level va in
      v ← load64 pte;
      if has v PTE_V then walk_levels levels (PTE2PA v) va alloc
      else if negb alloc then mret 0
      else
        pagetable ← kalloc;
        if pagetable =? 0 then mret 0
        else
          memset pagetable 0 PGNAT;;
          store64 pte (Z.lor (PA2PTE pagetable) PTE_V);;
          walk_levels levels pagetable va alloc
  end.

Definition walk (pagetable va : Z) (alloc : bool) : K Z :=
  if MAXVA <=? va then panic "walk"
  else walk_levels [2; 1] pagetable va alloc.

Definition walkaddr (pagetable va : Z) : K Z :=
  if MAXVA <=? va then mret 0
  else
    pte ← walk pagetable va false;
    if pte =? 0 then mret 0
    else
      v ← load64 pte;
      if negb (has v PTE_V) then mret 0
      else if negb (has v PTE_U) then mret 0
      else mret (PTE2PA v).

(** Iterations of a page loop from [a] that stops at [last], or that walk()
    stops at MAXVA. *)
Definition page_fuel (a last : Z) : nat :=
  if a <=? last then S (Z.to_nat ((last - a) / PGSIZE))
  else S (Z.to_nat ((MAXVA - a) / PGSIZE)).

(** for(;;){ ...; if(a == last) break; a += PGSIZE; pa += PGSIZE; } *)
Fixpoint mappages_loop (fuel : nat) (pagetable a last pa perm : Z) : K Z :=
  match fuel with
  | O => fail EFuel
  | S fuel =>
      pte ← walk pagetable a true;
      if pte =? 0 then mret (-1)
      else
        v ← load64 pte;
        if has v PTE_V then panic "mappages: remap"
        else
          store64 pte (Z.lor (Z.lor (PA2PTE pa) perm) PTE_V);;
          if a =? last then mret 0
          else mappages_loop fuel pagetable (u64 (a + PGSIZE)) last (u64 (pa + PGSIZE)) perm
  end.

Definition mappages (pagetable va size pa perm : Z) : K Z :=
  if size =? 0 then panic "mappages: size"
  else
    let a := PGROUNDDOWN va in
    let last := PGROUNDDOWN (u64 (va + size - 1)) in
    mappages_loop (page_fuel a last) pagetable a last pa perm.

Definition kvmmap (kpgtbl va pa sz perm : Z) : K unit :=
  r ← mappages kpgtbl va sz pa perm;
  if r =? 0 then skip else panic "kvmmap".

(** for(a = va; a < va + npages*PGSIZE; a += PGSIZE) *)
Fixpoint uvmunmap_loop (fuel : nat) (pagetable a stop : Z) (do_free : bool) : K unit :=
  if negb (a <? stop) then skip
  else
    match fuel with
    | O => fail EFuel
    | S fuel =>
        pte ← walk pagetable a false;
        if pte =? 0 then panic "uvmunmap: walk"
        else
          v ← load64 pte;
          if negb (has v PTE_V) then panic "uvmunmap: not mapped"
          else if PTE_FLAGS v =? PTE_V then panic "uvmunmap: not a leaf"
          else
            when do_free (kfree (PTE2PA v));;
            store64 pte 0;;
            uvmunmap_loop fuel pagetable (u64 (a + PGSIZE)) stop do_free
    end.

Definition uvmunmap (pagetable va npages : Z) (do_free : bool) : K unit :=
  if negb (va mod PGSIZE =? 0) then panic "uvmunmap: not aligned"
  else
    let stop := u64 (va + npages * PGSIZE) in
    uvmunmap_loop (S (Z.to_nat ((stop - va) / PGSIZE))) pagetable va stop do_free.

Definition uvmcreate : K Z :=
  pagetable ← kalloc;
  if pagetable =? 0 then mret 0
  else memset pagetable 0 PGNAT;; mret pagetable.

Definition uvminit (pagetable : Z) (src : list Z) : K unit :=
  let sz := Z.of_nat (length src) in
  if PGSIZE <=? sz then panic "inituvm: more than a page"
  else
    pa ← kalloc;
    memset pa 0 PGNAT;;
    mappages pagetable 0 PGSIZE pa (Z.lor (Z.lor (Z.lor PTE_W PTE_R) PTE_X) PTE_U);;
    memmove_to pa src.

Definition uvmdealloc (pagetable oldsz newsz : Z) : K Z :=
  if oldsz <=? newsz then mret oldsz
  else
    when (PGROUNDUP newsz <? PGROUNDUP oldsz)
      (let npages := s32 ((PGROUNDUP oldsz - PGROUNDUP newsz) / PGSIZE) in
       uvmunmap pagetable (PGROUNDUP newsz) npages true);;
    mret newsz.

(** for(a = oldsz; a < newsz; a += PGSIZE) *)
Fixpoint uvmalloc_loop (fuel : nat) (pagetable a oldsz newsz : Z) : K Z :=
  if negb (a <? newsz) then mret newsz
  else
    match fuel with
    | O => fail EFuel
    | S fuel =>
        pa ← kalloc;
        if pa =? 0 then
          uvmdealloc pagetable a oldsz;; mret 0
        else
          memset pa 0 PGNAT;;
          r ← mappages pagetable a PGSIZE pa (Z.lor (Z.lor (Z.lor PTE_W PTE_X) PTE_R) PTE_U);
          if negb (r =? 0) then
            kfree pa;; uvmdealloc pagetable a oldsz;; mret 0
          else uvmalloc_loop fuel pagetable (u64 (a + PGSIZE)) oldsz newsz
    end.

Definition uvmalloc (pagetable oldsz newsz : Z) : K Z :=
  if newsz <? oldsz then mret oldsz
  else
    let oldsz := PGROUNDUP oldsz in
    uvmalloc_loop (S (Z.to_nat ((newsz - oldsz) / PGSIZE))) pagetable oldsz oldsz newsz.

(** Recursion depth of freewalk() on a three-level table. *)
Definition freewalk_depth : nat := 3.

(** for(int i = 0; i < 512; i++){ ... } kfree(pagetable); *)
Fixpoint freewalk_n (depth : nat) (pagetable : Z) : K unit :=
  match depth with
  | O => fail EFuel
  | S depth =>
      forM (upto 512) (λ i,
        let slot := pagetable + 8 * Z.of_nat i in
        pte ← load64 slot;
        if has pte PTE_V && negb (has pte (Z.lor (Z.lor PTE_R PTE_W) PTE_X)) then
          freewalk_n depth (PTE2PA pte);;
          store64 slot 0
        else if has pte PTE_V then panic "freewalk: leaf"
        else skip);;
      kfree pagetable
  end.

Definition freewalk : Z → K unit := freewalk_n freewalk_depth.

Definition uvmfree (pagetable sz : Z) : K unit :=
  when (0 <? sz) (uvmunmap pagetable 0 (PGROUNDUP sz / PGSIZE) true);;
  freewalk pagetable.

(** for(i = 0; i < sz; i += PGSIZE) *)
Fixpoint uvmcopy_loop (fuel : nat) (old new i sz : Z) : K Z :=
  if negb (i <? sz) then mret 0
  else
    match fuel with
    | O => fail EFuel
    | S fuel =>
        pte ← walk old i false;
        if pte =? 0 then panic "uvmcopy: pte should exist"
        else
          v ← load64 pte;
          if negb (has v PTE_V) then panic "uvmcopy: page not present"
          else
            let pa := PTE2PA v in
            let flags := PTE_FLAGS v in
            let err := (uvmunmap new 0 (i / PGSIZE) true;; mret (-1)) : K Z in
            pg ← kalloc;
            if pg =? 0 then err
            else
              memmove pg pa PGNAT;;
              r ← mappages new i PGSIZE pg flags;
              if negb (r =? 0) then kfree pg;; err
              else uvmcopy_loop fuel old new (u64 (i + PGSIZE)) sz
    end.

Definition uvmcopy (old new sz : Z) : K Z :=
  uvmcopy_loop (S (Z.to_nat (sz / PGSIZE))) old new 0 sz.

Definition uvmclear (pagetable va : Z) : K unit :=
  pte ← walk pagetable va false;
  if pte =? 0 then panic "uvmclear"
  else
    v ← load64 pte;
    store64 pte (Z.land v (Z.lnot PTE_U)).

(** [n = PGSIZE - (va - va0); if(n > len) n = len;] *)
Definition chunk (va len : Z) : Z :=
  let n := PGSIZE - (va - PGROUNDDOWN va) in
  if len <? n then len else n.

(** while(len > 0), with [len] the bytes of [src] still to copy. *)
Fixpoint copyout_loop (fuel : nat) (pagetable dstva : Z) (src : list Z) : K Z :=
  if decide (src = []) then mret 0
  else
    match fuel with
    | O => fail EFuel
    | S fuel =>
        let va0 := PGROUNDDOWN dstva in
        pa0 ← walkaddr pagetable va0;
        if pa0 =? 0 then mret (-1)
        else
          let n := Z.to_nat (chunk dstva (Z.of_nat (length src))) in
          memmove_to (pa0 + (dstva - va0)) (take n src);;
          copyout_loop fuel pagetable (u64 (va0 + PGSIZE)) (drop n src)
    end.

Definition copyout (pagetable dstva : Z) (src : list Z) : K Z :=
  copyout_loop (S (S (length src / PGNAT))) pagetable dstva src.

(** The return value and the bytes stored to [dst], which on an error are those
    of the pages before the unmapped one. *)
Fixpoint copyin_loop (fuel : nat) (pagetable srcva len : Z) : K (Z * list Z) :=
  if negb (0 <? len) then mret (0, [])
  else
    match fuel with
    | O => fail EFuel
    | S fuel =>
        let va0 := PGROUNDDOWN srcva in
        pa0 ← walkaddr pagetable va0;
        if pa0 =? 0 then mret (-1, [])
        else
          let n := chunk srcva len in
          l ← memmove_from (pa0 + (srcva - va0)) (Z.to_nat n);
          '(r, rest) ← copyin_loop fuel pagetable (u64 (va0 + PGSIZE)) (len - n);
          mret (r, l ++ rest)
    end.

Definition copyin (pagetable srcva len : Z) : K (Z * list Z) :=
  copyin_loop (S (S (Z.to_nat (len / PGSIZE)))) pagetable srcva len.

(** while(n > 0){ if( *p == 0){ *dst = 0; got_null = 1; break; } ... }
    Returns the bytes stored to [dst] and whether the NUL was among them. *)
Fixpoint copyinstr_page (p : Z) (n : nat) : K (list Z * bool) :=
  match n with
  | O => mret ([], false)
  | S n =>
      c ← load8 p;
      if c =? 0 then mret ([0], true)
      else
        '(l, got_null) ← copyinstr_page (p + 1) n;
        mret (c :: l, got_null)
  end.

(** while(got_null == 0 && max > 0) *)
Fixpoint copyinstr_loop (fuel : nat) (pagetable srcva max : Z) : K (option (list Z)) :=
  if negb (0 <? max) then mret None
  else
    match fuel with
    | O => fail EFuel
    | S fuel =>
        let va0 := PGROUNDDOWN srcva in
        pa0 ← walkaddr pagetable va0;
        if pa0 =? 0 then mret None
        else
          let n := chunk srcva max in
          '(l, got_null) ← copyinstr_page (pa0 + (srcva - va0)) (Z.to_nat n);
          if (got_null : bool) then mret (Some l)
          else
            rest ← copyinstr_loop fuel pagetable (u64 (va0 + PGSIZE)) (max - n);
            mret (app l <$> rest)
    end.

(** The NUL-terminated string copied to [dst], or [None] for -1. *)
Definition copyinstr (pagetable srcva max : Z) : K (option (list Z)) :=
  copyinstr_loop (S (S (Z.to_nat (max / PGSIZE)))) pagetable srcva max.

(** proc_mapstacks() of proc.c: one kernel stack page per process. *)
Definition proc_mapstacks (kpgtbl : Z) : K unit :=
  forM (upto NPROC) (λ p,
    pa ← kalloc;
    if pa =? 0 then panic "kalloc"
    else kvmmap kpgtbl (KSTACK (Z.of_nat p)) pa PGSIZE (Z.lor PTE_R PTE_W)).

Definition kvmmake : K Z :=
  kpgtbl ← kalloc;
  memset kpgtbl 0 PGNAT;;
  kvmmap kpgtbl UART0 UART0 PGSIZE (Z.lor PTE_R PTE_W);;
  kvmmap kpgtbl VIRTIO0 VIRTIO0 PGSIZE (Z.lor PTE_R PTE_W);;
  kvmmap kpgtbl PLIC PLIC 0x400000 (Z.lor PTE_R PTE_W);;
  kvmmap kpgtbl KERNBASE KERNBASE (l_etext - KERNBASE) (Z.lor PTE_R PTE_X);;
  kvmmap kpgtbl l_etext l_etext (PHYSTOP - l_etext) (Z.lor PTE_R PTE_W);;
  kvmmap kpgtbl TRAMPOLINE l_trampoline PGSIZE (Z.lor PTE_R PTE_X);;
  proc_mapstacks kpgtbl;;
  mret kpgtbl.

End vm.
