(* ===== verification/PageTable.v ===== *)
(** The abstract page table behind kernel/vm.c: a three-level tree of tables,
    read off memory entry by entry, its well-formedness, and how the two kinds
    of store the kernel makes (a leaf entry, a pointer to a fresh table) change
    the tree. *)

From S2P Require Import Prelude Riscv Kstate Mem.

(** ** Entries *)

(** A table view: [E t i] is entry [i] of the table at physical address [t]. *)
Definition tview : Type := Z → Z → Z.

Definition entries (m : gmap Z Z) : tview := λ t i, ld64 m (t + 8 * i).

Definition idx_ok (i : Z) : Prop := 0 ≤ i < 512.
Definition tbl_ok (t : Z) : Prop := t mod PGSIZE = 0 ∧ ram_range t PGSIZE.

Lemma slot_disjoint t i t' i' :
  t mod PGSIZE = 0 → t' mod PGSIZE = 0 → idx_ok i → idx_ok i' → (t, i) ≠ (t', i') →
  t' + 8 * i' + 8 ≤ t + 8 * i ∨ t + 8 * i + 8 ≤ t' + 8 * i'.
Proof.
  unfold idx_ok, PGSIZE. intros Ht Ht' Hi Hi' Hne.
  destruct (decide (t = t')) as [->|Hn].
  - assert (i ≠ i') by congruence. lia.
  - apply aligned_split in Ht, Ht'. lia.
Qed.

Lemma entries_st64 m t i v t' i' :
  t mod PGSIZE = 0 → t' mod PGSIZE = 0 → idx_ok i → idx_ok i' →
  entries (st64 m (t + 8 * i) v) t' i' =
  if decide ((t, i) = (t', i')) then u64 v else entries m t' i'.
Proof.
  intros Ht Ht' Hi Hi'. unfold entries. case_decide as E.
  - simplify_eq. apply ld64_st64_same.
  - apply ld64_st64_ne, slot_disjoint; auto.
Qed.

(** Filling a page with a byte only changes the entries of that page. *)
Lemma entries_fill_other m p c t i :
  p mod PGSIZE = 0 → t mod PGSIZE = 0 → idx_ok i → t ≠ p →
  entries (fill m p (replicate PGNAT c)) t i = entries m t i.
Proof.
  unfold idx_ok. intros Hp Ht Hi Hne. unfold entries. apply ld64_ext. intros a Ha.
  apply ld8_fill_out. rewrite length_replicate, pgnat_eq.
  apply aligned_split in Hp, Ht. lia.
Qed.

Lemma entries_fill_zero m p i :
  idx_ok i → entries (fill m p (replicate PGNAT 0)) p i = 0.
Proof.
  unfold idx_ok. intros Hi. unfold entries. apply ld64_zero. intros a Ha.
  rewrite ld8_memset, pgnat_eq. case_decide; [done|lia].
Qed.

(** ** The tree *)

(** The root table, a level-1 table, a level-0 table. *)
Inductive path : Type := P2 | P1 (i2 : Z) | P0 (i2 i1 : Z).

#[export] Instance path_eq_dec : EqDecision path.
Proof. solve_decision. Defined.

Definition path_ok (p : path) : Prop :=
  match p with
  | P2 => True
  | P1 i => idx_ok i
  | P0 i j => idx_ok i ∧ idx_ok j
  end.

(** The table an entry points to, if it is valid. *)
Definition child (E : tview) (t i : Z) : option Z :=
  if has (E t i) PTE_V then Some (PTE2PA (E t i)) else None.

Definition node (E : tview) (root : Z) (p : path) : option Z :=
  match p with
  | P2 => Some root
  | P1 i => child E root i
  | P0 i j => t ← child E root i; child E t j
  end.

(** The level-0 table of a virtual address, and its leaf entry (0, an invalid
    entry, where the table is missing). *)
Definition va_path (va : Z) : path := P0 (PX 2 va) (PX 1 va).
Definition leaf (E : tview) (root va : Z) : Z :=
  match node E root (va_path va) with
  | Some t => E t (PX 0 va)
  | None => 0
  end.

(** A well-formed table: every table is an aligned page of RAM and no page
    serves as two tables, so the tables form a tree. *)
Record pt_wf (E : tview) (root : Z) : Prop := {
  wf_tbl p t : path_ok p → node E root p = Some t → tbl_ok t;
  wf_inj p q t : path_ok p → path_ok q →
    node E root p = Some t → node E root q = Some t → p = q;
}.

Lemma va_path_ok va : path_ok (va_path va).
Proof. split; apply px_range; lia. Qed.

Lemma px_idx_ok l va : 0 ≤ l → idx_ok (PX l va).
Proof. apply px_range. Qed.

#[export] Hint Resolve va_path_ok px_idx_ok : kernel.

(** Two views with the same nodes and the same level-0 entries. *)
Definition same_nodes (E E' : tview) (root : Z) : Prop :=
  ∀ p, path_ok p → node E' root p = node E root p.

Lemma same_nodes_wf E E' root : same_nodes E E' root → pt_wf E root → pt_wf E' root.
Proof.
  intros Hs [Ht Hi]. split.
  - intros p t Hp. rewrite Hs by done. by apply Ht.
  - intros p q t Hp Hq. rewrite !Hs by done. by apply Hi.
Qed.

(** ** Storing a leaf entry *)

Section leaf_store.
Context (E E' : tview) (root i2 i1 i0 t0 v : Z).
Context (WF : pt_wf E root) (H2 : idx_ok i2) (H1 : idx_ok i1) (H0 : idx_ok i0).
Context (Ht0 : node E root (P0 i2 i1) = Some t0).
Context (HE : ∀ t i, t mod PGSIZE = 0 → idx_ok i →
  E' t i = if decide ((t0, i0) = (t, i)) then v else E t i).

Lemma leaf_store_child p t k :
  path_ok p → p ≠ P0 i2 i1 → node E root p = Some t → idx_ok k →
  child E' t k = child E t k.
Proof.
  intros Hp Hne Hn Hk. pose proof (wf_tbl _ _ WF p t Hp Hn) as [Ha _].
  unfold child. rewrite HE by done. case_decide as Eq; [|done]. simplify_eq.
  destruct Hne. by apply (wf_inj _ _ WF p (P0 i2 i1) t).
Qed.

Lemma leaf_store_nodes : same_nodes E E' root.
Proof.
  intros [|i|i j] Hp; simpl in *; [done| |].
  - by apply (leaf_store_child P2).
  - destruct Hp as [Hi Hj].
    rewrite (leaf_store_child P2) by done.
    destruct (child E root i) as [t|] eqn:Et; simpl; [|done].
    by apply (leaf_store_child (P1 i)).
Qed.

Lemma leaf_store_leaf va :
  0 ≤ va < MAXVA →
  leaf E' root va =
  if decide (PX 2 va = i2 ∧ PX 1 va = i1 ∧ PX 0 va = i0) then v else leaf E root va.
Proof.
  intros Hva. unfold leaf. rewrite leaf_store_nodes by apply va_path_ok.
  destruct (node E root (va_path va)) as [t|] eqn:Et.
  - pose proof (wf_tbl _ _ WF _ _ (va_path_ok va) Et) as [Ha _].
    rewrite HE by (done || (apply px_idx_ok; lia)).
    destruct (decide ((t0, i0) = (t, PX 0 va))) as [[= <- Hi0]|Hne].
    + assert (Hpq : va_path va = P0 i2 i1).
      { by eapply (wf_inj _ _ WF); eauto using va_path_ok. }
      unfold va_path in Hpq. injection Hpq as ??. by rewrite decide_True.
    + rewrite decide_False; [done|]. intros (<- & <- & <-).
      apply Hne. unfold va_path in Et. congruence.
  - case_decide as Hc; [|done]. destruct_and!. subst. unfold va_path in Et. congruence.
Qed.
End leaf_store.

(** ** Linking a fresh, zeroed table under an interior entry *)

Definition parent_of (p : path) : Prop := match p with P0 _ _ => False | _ => True end.
Definition extend (p : path) (k : Z) : path :=
  match p with P2 => P1 k | P1 i => P0 i k | P0 i j => P0 i j end.
(** The paths that go through the new table. *)
Definition below (p : path) (k : Z) (q : path) : Prop :=
  match p, q with P2, P0 i _ => i = k | _, _ => False end.

#[export] Instance below_dec p k q : Decision (below p k q).
Proof. destruct p, q; simpl; apply _. Defined.

Section link.
Context (E E' : tview) (root f : Z) (p : path) (t k v : Z).
Context (WF : pt_wf E root) (Hp : path_ok p) (Hpar : parent_of p) (Hk : idx_ok k).
Context (Hn : node E root p = Some t) (Hinv : has (E t k) PTE_V = false).
Context (Hf : tbl_ok f) (Hfresh : ∀ q u, path_ok q → node E root q = Some u → u ≠ f).
Context (Hv : has v PTE_V = true) (Hvf : PTE2PA v = f).
Context (HE : ∀ u i, u mod PGSIZE = 0 → idx_ok i → u ≠ f →
  E' u i = if decide ((t, k) = (u, i)) then v else E u i).
Context (HEf : ∀ i, idx_ok i → E' f i = 0).

Lemma link_child q u i :
  path_ok q → node E root q = Some u → idx_ok i →
  child E' u i = if decide (q = p ∧ i = k) then Some f else child E u i.
Proof using All.
  intros Hq Hqn Hi. pose proof (wf_tbl _ _ WF q u Hq Hqn) as [Ha _].
  unfold child. rewrite HE by eauto.
  destruct (decide ((t, k) = (u, i))) as [[= <- <-]|Hne].
  - rewrite Hv, decide_True; [by rewrite Hvf|]. split; [|done]. by eapply (wf_inj _ _ WF).
  - rewrite decide_False; [done|]. intros [-> ->]. congruence.
Qed.

Lemma link_child_new i : idx_ok i → child E' f i = None.
Proof using HEf. intros Hi. unfold child. by rewrite HEf. Qed.

Lemma link_node q :
  path_ok q →
  node E' root q =
  if decide (q = extend p k) then Some f
  else if decide (below p k q) then None else node E root q.
Proof using All.
  intros Hq. pose proof link_child as LC. pose proof link_child_new as LN.
  destruct q as [|i|i j]; cbn [path_ok] in Hq.
  - rewrite (decide_False (P := P2 = extend p k)) by (destruct p; simpl; congruence).
    rewrite (decide_False (P := below p k P2)) by (destruct p; simpl; tauto). done.
  - cbn [node]. rewrite (LC P2 root i) by done.
    destruct p as [|i'|]; [| |done]; cbn [extend below].
    + destruct (decide (i = k)) as [->|Hne].
      * by rewrite !decide_True.
      * rewrite !decide_False by naive_solver. done.
    + rewrite !decide_False by naive_solver. done.
  - destruct Hq as [Hi Hj]. cbn [node]. rewrite (LC P2 root i) by done.
    destruct p as [|i'|]; [| |done]; cbn [extend below node].
    + rewrite (decide_False (P := P0 i j = P1 k)) by congruence.
      destruct (decide (i = k)) as [->|Hne].
      * rewrite decide_True by done. cbn. by apply LN.
      * rewrite decide_False by naive_solver.
        destruct (child E root i) as [u|] eqn:Eu; cbn; [|done].
        rewrite (LC (P1 i) u j) by done. by rewrite decide_False by naive_solver.
    + rewrite (decide_False (P := P2 = P1 i' ∧ i = k)) by naive_solver.
      rewrite (decide_False (P := False)) by tauto.
      destruct (child E root i) as [u|] eqn:Eu; cbn.
      * rewrite (LC (P1 i) u j) by done.
        destruct (decide (P1 i = P1 i' ∧ j = k)) as [[[= ->] ->]|Hne];
          [by rewrite decide_True|by rewrite decide_False by naive_solver].
      * rewrite decide_False by naive_solver. done.
Qed.

Lemma link_wf : pt_wf E' root.
Proof using All.
  split.
  - intros q u Hq. rewrite link_node by done.
    repeat case_decide; intros; simplify_eq; [done|]. by eapply (wf_tbl _ _ WF).
  - intros q q' u Hq Hq'. rewrite !link_node by done.
    destruct (decide (q = extend p k)) as [->|]; destruct (decide (q' = extend p k)) as [->|].
    + done.
    + case_decide; [done|]. intros [= <-] Hu. by edestruct (Hfresh q' f).
    + case_decide; [done|]. intros Hu [= <-]. by edestruct (Hfresh q f).
    + repeat case_decide; try done. by apply (wf_inj _ _ WF).
Qed.

Lemma link_old_below q : path_ok q → below p k q → node E root q = None.
Proof using Hn Hinv.
  clear - Hn Hinv. destruct p, q; simpl in *; try done. intros _ ->. simplify_eq.
  unfold child. by rewrite Hinv.
Qed.

Lemma link_leaf va : 0 ≤ va < MAXVA → leaf E' root va = leaf E root va.
Proof using All.
  intros Hva. unfold leaf. rewrite link_node by apply va_path_ok. case_decide as Hc.
  - rewrite HEf by (apply px_idx_ok; lia).
    replace (node E root (va_path va)) with (@None Z); [done|]. rewrite Hc.
    clear - Hn Hinv Hpar Hc. destruct p; [done| |done]. simpl in *.
    rewrite Hn. simpl. unfold child. by rewrite Hinv.
  - case_decide as Hb; [by rewrite link_old_below by auto with kernel|].
    destruct (node E root (va_path va)) as [u|] eqn:Eu; [|done].
    pose proof (wf_tbl _ _ WF _ _ (va_path_ok va) Eu) as [Ha _].
    pose proof (Hfresh _ _ (va_path_ok va) Eu) as Hne.
    rewrite HE by (assumption || (apply px_idx_ok; lia)).
    case_decide as He; [|done]. simplify_eq.
    assert (Hpp : p = va_path va) by (eapply (wf_inj _ _ WF); eauto using va_path_ok).
    by rewrite Hpp in Hpar.
Qed.
End link.

(** ** Translation *)

(** A user access to [va]: the physical byte it reaches. *)
Definition xlate (E : tview) (root va : Z) : option Z :=
  let v := leaf E root va in
  if has v PTE_V && has v PTE_U then Some (PTE2PA v + va mod 4096) else None.

Lemma leaf_same_page E root va va' :
  va / 4096 = va' / 4096 → leaf E root va = leaf E root va'.
Proof.
  intros H. unfold leaf, va_path.
  rewrite !(px_same_page 2 va va'), !(px_same_page 1 va va'), !(px_same_page 0 va va') by (done || lia).
  done.
Qed.

Lemma leaf_rounddown E root va : leaf E root (PGROUNDDOWN va) = leaf E root va.
Proof.
  apply leaf_same_page. rewrite pgrounddown_eq, Z.mul_comm. apply Z.div_mul. lia.
Qed.
