(* ===== verification/VmSpec.v ===== *)
(** What kernel/vm.c does to an address space: the specifications of walk,
    mappages, uvmunmap, copyin and copyout against the abstract page table of
    PageTable.v and the free list of Kalloc.v. *)

From S2P Require Import Prelude Riscv Kstate Mem Kalloc Vm PageTable.

Section spec.
Context {L : Layout} {LO : LayoutOk L}.

Definition view (s : kstate) : tview := entries (mem s).

(** An address space in good order: the allocator is well-formed with free
  pages [l], the table rooted at [root] is a tree, and none of its tables is
  free. *)
Record as_ok (s : kstate) (root : Z) (l : list Z) : Prop := {
as_free : free_list (k_mm s) l;
as_wf : pt_wf (view s) root;
as_fresh p t : path_ok p → node (view s) root p = Some t → t / 4096 ∉ l;
}.

(** Page of an address that is neither free nor a table of [root]. *)
Definition plain (s : kstate) (root : Z) (l : list Z) (pg : Z) : Prop :=
pg ∉ l ∧ (∀ p t, path_ok p → node (view s) root p = Some t → t / 4096 ≠ pg).

(** An address space that owns its tables: each is a page of its own that has
    been allocated once, an interior entry only points to the next table, and
    nothing is mapped at or above MAXVA. *)
Record owned (s : kstate) (root : Z) : Prop := {
ow_page p t : path_ok p → node (view s) root p = Some t →
  page_ok (t / 4096) ∧ r_ref (run_at (k_mm s) (run_addr (t / 4096))) = 1;
ow_ptr p t i : path_ok p → parent_of p → node (view s) root p = Some t → idx_ok i →
  has (view s t i) PTE_V = true → has (view s t i) (Z.lor (Z.lor PTE_R PTE_W) PTE_X) = false;
ow_low i : 256 ≤ i < 512 → has (view s root i) PTE_V = false;
}.

(** How growing a page table changes the rest of the machine: only memory and
  the allocator change, new tables come from the free list, and every page
  that is neither free nor a table keeps its contents and reference count. *)
Record grows (s s' : kstate) (root : Z) (l l' : list Z) : Prop := {
gr_state : s' = set_mm (k_mm s') s;
gr_suffix : l' `suffix_of` l;
gr_node p t : path_ok p → node (view s') root p = Some t →
  node (view s) root p = Some t ∨ t / 4096 ∈ l;
gr_keep p t : path_ok p → node (view s) root p = Some t → node (view s') root p = Some t;
gr_mem a : plain s root l (a / 4096) → ld8 (mem s') a = ld8 (mem s) a;
gr_ref pg : pg ∉ l → run_at (k_mm s') (run_addr pg) = run_at (k_mm s) (run_addr pg);
gr_used pg : pg ∈ l → pg ∈ l' ∨ ∃ p, path_ok p ∧ node (view s') root p = Some (4096 * pg);
gr_owned : owned s root → owned s' root;
}.

Lemma suffix_elem (l l' : list Z) (x : Z) : l' `suffix_of` l → x ∈ l' → x ∈ l.
Proof. intros [k ->]. set_solver. Qed.

Lemma grows_refl s root l : grows s s root l l.
Proof. split; auto. by rewrite set_mm_id. Qed.

Lemma grows_plain s s' root l l' pg :
grows s s' root l l' → plain s root l pg → plain s' root l' pg.
Proof.
intros G [H1 H2]. split.
- intros H. by eapply H1, suffix_elem, H; apply G.
- intros p t Hp Ht. destruct (gr_node _ _ _ _ _ G p t Hp Ht); [eauto|]. by intros <-.
Qed.

Lemma grows_trans s1 s2 s3 root l1 l2 l3 :
grows s1 s2 root l1 l2 → grows s2 s3 root l2 l3 → grows s1 s3 root l1 l3.
Proof.
intros G1 G2. split.
- rewrite (gr_state _ _ _ _ _ G2), (gr_state _ _ _ _ _ G1). done.
- etrans; [apply G2|apply G1].
- intros p t Hp Ht. destruct (gr_node _ _ _ _ _ G2 p t Hp Ht) as [H|H].
  + by apply (gr_node _ _ _ _ _ G1).
  + right. eapply suffix_elem, H. apply G1.
- intros p t Hp Ht. by apply (gr_keep _ _ _ _ _ G2), (gr_keep _ _ _ _ _ G1).
- intros a Ha. rewrite (gr_mem _ _ _ _ _ G2), (gr_mem _ _ _ _ _ G1); eauto using grows_plain.
- intros pg Hpg. rewrite (gr_ref _ _ _ _ _ G2), (gr_ref _ _ _ _ _ G1); [done|done|].
  intros H. by eapply Hpg, suffix_elem, H; apply G1.
- intros pg Hpg. destruct (gr_used _ _ _ _ _ G1 pg Hpg) as [H|(p & Hp & H)].
  + by apply (gr_used _ _ _ _ _ G2).
  + right. exists p. split; [done|]. by apply (gr_keep _ _ _ _ _ G2).
- intros H. by apply (gr_owned _ _ _ _ _ G2), (gr_owned _ _ _ _ _ G1).
Qed.

(** Overwriting memory does not touch the allocator's bookkeeping. *)
Lemma free_list_set_mem m x l : free_list m l → free_list (set_mem x m) l.
Proof.
intros (Hc & ?). split; [|done]. eapply chain_ext; [|exact Hc]. done.
Qed.

Lemma page_ok_tbl pg : page_ok pg → tbl_ok (4096 * pg).
Proof.
intros H. split; [apply aligned_mul|]. pose proof (page_ok_ram pg H) as R.
rewrite pgnat_eq in R. done.
Qed.

Lemma page_of_mul pg : 4096 * pg / 4096 = pg.
Proof. rewrite Z.mul_comm. apply Z.div_mul. lia. Qed.

Lemma tbl_slot_ram t i : tbl_ok t → idx_ok i → ram_range (t + 8 * i) 8.
Proof. unfold tbl_ok, idx_ok, ram_range, PGSIZE. lia. Qed.

Lemma slot_page t i o : tbl_ok t → idx_ok i → 0 ≤ o < 8 → (t + 8 * i + o) / 4096 = t / 4096.
Proof.
intros [Ha _] Hi Ho. apply aligned_split in Ha. unfold idx_ok in Hi. dlia.
Qed.

(** ** walk() without allocation *)

Lemma walk_lookup s root va :
pt_wf (view s) root → 0 ≤ va < MAXVA →
walk root va false s =
Ok (match node (view s) root (va_path va) with
    | Some t => t + 8 * PX 0 va
    | None => 0
    end) s.
Proof.
intros WF Hva. unfold walk. destruct (Z.leb_spec MAXVA va); [lia|].
cbn [walk_levels negb].
assert (H2 : tbl_ok root) by by apply (wf_tbl _ _ WF P2).
rewrite (bind_ok _ _ _ _ _ (load64_run _ s (tbl_slot_ram root _ H2 (px_idx_ok 2 va ltac:(lia))))).
unfold va_path, node, child, view, entries.
destruct (has (ld64 (mem s) (root + 8 * PX 2 va)) PTE_V) eqn:E2; [|done]. simpl.
set (t1 := PTE2PA (ld64 (mem s) (root + 8 * PX 2 va))).
assert (H1 : tbl_ok t1).
{ apply (wf_tbl _ _ WF (P1 (PX 2 va))); [apply px_range; lia|].
  simpl. unfold child, view, entries. by rewrite E2. }
rewrite (bind_ok _ _ _ _ _ (load64_run _ s (tbl_slot_ram t1 _ H1 (px_idx_ok 1 va ltac:(lia))))).
by destruct (has (ld64 (mem s) (t1 + 8 * PX 1 va)) PTE_V).
Qed.

(** ** One level of an allocating walk *)

(** The state after linking the fresh page [pg] under slot [slot]. *)
Definition linked (pg slot : Z) (s : kstate) : kstate :=
let m := taken pg (k_mm s) in
set_mm (set_mem (st64 (fill (mm_mem m) (4096 * pg) (replicate PGNAT 0)) slot
  (Z.lor (PA2PTE (4096 * pg)) PTE_V)) m) s.

Section link_state.
Context (s : kstate) (root pg : Z) (l : list Z) (p : path) (t k : Z).
Context (A : as_ok s root (pg :: l)) (Hp : path_ok p) (Hpar : parent_of p) (Hk : idx_ok k).
Context (Hn : node (view s) root p = Some t) (Hinv : has (view s t k) PTE_V = false).
Let s' := linked pg (t + 8 * k) s.

Lemma linked_pg : page_ok pg.
Proof. destruct (as_free _ _ _ A) as (_ & _ & H). by apply Forall_cons in H as [? _]. Qed.

Lemma linked_tbl : tbl_ok t.
Proof. by eapply (wf_tbl _ _ (as_wf _ _ _ A)). Qed.

Lemma linked_fresh q u : path_ok q → node (view s) root q = Some u → u ≠ 4096 * pg.
Proof.
  intros Hq Hu ->. apply (as_fresh _ _ _ A) in Hu; [|done].
  rewrite page_of_mul in Hu. apply Hu, elem_of_cons. by left.
Qed.

Lemma pte_new_bound : 0 ≤ 4096 * pg < 2 ^ 56.
Proof.
  pose proof linked_pg as [H1 H2]. pose proof l_end_range.
  unfold PHYSTOP, KERNBASE in *. lia.
Qed.

Lemma linked_view u i :
  u mod PGSIZE = 0 → idx_ok i → u ≠ 4096 * pg →
  view s' u i = if decide ((t, k) = (u, i)) then Z.lor (PA2PTE (4096 * pg)) PTE_V
                else view s u i.
Proof.
  intros Hu Hi Hne. pose proof linked_tbl as [Ht _]. unfold s', view, linked, mem. simpl.
  rewrite entries_st64 by done. case_decide.
  - apply u64_small, (lor_range 64); [lia|apply u64_range|unfold PTE_V; lia].
  - rewrite !entries_fill_other by (done || apply aligned_mul). done.
Qed.

Lemma linked_view_new i : idx_ok i → view s' (4096 * pg) i = 0.
Proof.
  intros Hi. pose proof linked_tbl as [Ht _]. unfold s', view, linked, mem. simpl.
  rewrite entries_st64 by (done || apply aligned_mul).
  rewrite decide_False; [by apply entries_fill_zero|].
  intros [= Heq _]. by eapply linked_fresh.
Qed.

Lemma pte_new_valid : has (Z.lor (PA2PTE (4096 * pg)) PTE_V) PTE_V = true.
Proof. rewrite has_pa2pte by (apply pte_new_bound || (unfold PTE_V; lia)). done. Qed.

Lemma pte_new_pa : PTE2PA (Z.lor (PA2PTE (4096 * pg)) PTE_V) = 4096 * pg.
Proof.
  apply pte2pa_pa2pte; [apply pte_new_bound|apply aligned_mul|unfold PTE_V; lia].
Qed.

Lemma linked_node q :
  path_ok q →
  node (view s') root q =
  if decide (q = extend p k) then Some (4096 * pg)
  else if decide (below p k q) then None else node (view s) root q.
Proof.
  intros Hq. apply (link_node (view s) (view s') root (4096 * pg) p t k _ (as_wf _ _ _ A) Hp Hpar Hk Hn Hinv
    (page_ok_tbl _ linked_pg) linked_fresh pte_new_valid pte_new_pa linked_view linked_view_new q Hq).
Qed.

Lemma linked_leaf va : 0 ≤ va < MAXVA → leaf (view s') root va = leaf (view s) root va.
Proof.
  apply (link_leaf (view s) (view s') root (4096 * pg) p t k _ (as_wf _ _ _ A) Hp Hpar Hk Hn Hinv
    (page_ok_tbl _ linked_pg) linked_fresh pte_new_valid pte_new_pa linked_view linked_view_new).
Qed.

Lemma linked_ok : as_ok s' root l.
Proof.
  split.
  - apply free_list_set_mem, taken_free_list, A.
  - apply (link_wf (view s) (view s') root (4096 * pg) p t k _ (as_wf _ _ _ A) Hp Hpar Hk Hn Hinv
      (page_ok_tbl _ linked_pg) linked_fresh pte_new_valid pte_new_pa linked_view linked_view_new).
  - intros q u Hq. rewrite linked_node by done.
    destruct (as_free _ _ _ A) as (_ & Hnd & _). apply NoDup_cons in Hnd as [Hni _].
    repeat case_decide; intros Hu; simplify_eq.
    + by rewrite page_of_mul.
    + apply (as_fresh _ _ _ A) in Hu; [set_solver|done].
Qed.

Lemma linked_run q : run_at (k_mm s') (run_addr q) =
  if decide (q = pg) then Run (r_next (run_at (k_mm s) (mm_freelist (k_mm s)))) 1 else run_at (k_mm s) (run_addr q).
Proof.
  destruct (as_free _ _ _ A) as ([Ef _] & _). unfold s', linked, taken. unfold run_at at 1. cbn [k_mm set_mm set_mem mm_runs].
  destruct (decide (q = pg)) as [->|Hne]; [by rewrite lookup_insert_eq, Ef|].
  rewrite lookup_insert_ne; [done|]. intros E%run_addr_inj. congruence.
Qed.

Lemma linked_node_inv q u :
  path_ok q → node (view s') root q = Some u → u = 4096 * pg ∨ node (view s) root q = Some u.
Proof.
  intros Hq. rewrite linked_node by done. destruct (decide (q = extend p k)); [intros [= <-]; by left|].
  destruct (decide (below p k q)); [done|]. by right.
Qed.

Lemma linked_owned : (p = P2 → k < 256) → owned s root → owned s' root.
Proof.
  intros Hlow [Opg Optr Olow]. pose proof linked_tbl as [Ht _]. split.
  - intros q u Hq Hu. apply linked_node_inv in Hu as [->|Hu]; [| |done].
    + rewrite page_of_mul, linked_run, decide_True by done. split; [apply linked_pg|done].
    + pose proof (as_fresh _ _ _ A _ _ Hq Hu) as Hf. apply not_elem_of_cons in Hf as [Hf _].
      rewrite linked_run, decide_False by done. by eapply Opg.
  - intros q u i Hq Hqp Hu Hi Hv. apply linked_node_inv in Hu as [->|Hu]; [| |done].
    + rewrite (linked_view_new i Hi) in Hv. discriminate Hv.
    + pose proof (wf_tbl _ _ (as_wf _ _ _ A) _ _ Hq Hu) as [Hua _].
      pose proof (linked_view u i Hua Hi (linked_fresh q u Hq Hu)) as Ev. rewrite Ev in Hv |- *.
      destruct (decide ((t, k) = (u, i))) as [E|E]; [|exact (Optr q u i Hq Hqp Hu Hi Hv)].
      clear Hv Ev. rewrite has_pa2pte; [reflexivity|apply pte_new_bound|unfold PTE_V; lia|]. split; [discriminate|reflexivity].
  - intros i Hi. assert (Hr : tbl_ok root) by by apply (wf_tbl _ _ (as_wf _ _ _ A) P2).
    pose proof (linked_view root i (proj1 Hr) ltac:(unfold idx_ok; lia) (linked_fresh P2 root I eq_refl)) as Ev. rewrite Ev.
    destruct (decide ((t, k) = (root, i))) as [E|E]; [|by apply Olow]. injection E as E1 E2. exfalso.
    assert (p = P2) as Ep; [|specialize (Hlow Ep); lia].
    apply (wf_inj _ _ (as_wf _ _ _ A) p P2 t); [done|done|done|]. by rewrite E1.
Qed.

Lemma linked_grows : (p = P2 → k < 256) → grows s s' root (pg :: l) l.
Proof.
  intros Hlow. split.
  - done.
  - by exists [pg].
  - intros q u Hq. rewrite linked_node by done.
    repeat case_decide; intros Hu; simplify_eq; [right|by left].
    rewrite page_of_mul. set_solver.
  - intros q u Hq Hu. rewrite linked_node by done.
    case_decide as H1; [|case_decide as H2; [|done]].
    + exfalso. subst q. clear - Hn Hinv Hu Hpar.
      destruct p; simpl in *; [| |done].
      * simplify_eq. unfold child in Hu. by rewrite Hinv in Hu.
      * rewrite Hn in Hu. simpl in Hu. unfold child in Hu. by rewrite Hinv in Hu.
    + exfalso. rewrite (link_old_below (view s) root p t k Hn Hinv q Hq H2) in Hu. done.
  - intros a [Ha1 Ha2]. unfold s', linked, mem. simpl.
    pose proof linked_tbl as Ht.
    assert (Hpg : a / 4096 ≠ pg) by set_solver.
    assert (Htp : t / 4096 ≠ a / 4096) by eauto.
    rewrite ld8_st64_out.
    2:{ destruct (decide (t + 8 * k ≤ a < t + 8 * k + 8)) as [Hin|]; [|lia].
        exfalso. apply Htp. rewrite <- (slot_page t k (a - (t + 8 * k)) Ht Hk) by lia.
        f_equal. lia. }
    rewrite !ld8_memset, pgnat_eq.
    assert (¬ (4096 * pg ≤ a < 4096 * pg + 4096)) by dlia.
    by rewrite !decide_False.
  - intros pg' Hpg'. unfold run_at, s', linked. simpl.
    rewrite lookup_insert_ne; [done|]. intros ->%run_addr_inj. set_solver.
  - intros pg' Hpg'. apply elem_of_cons in Hpg' as [->|Hpg']; [right|by left].
    exists (extend p k). split; [by destruct p|]. rewrite linked_node by (by destruct p). by rewrite decide_True.
  - by apply linked_owned.
Qed.
End link_state.

Lemma px_low va : 0 ≤ va < MAXVA → PX 2 va < 256.
Proof. intros H. rewrite px_eq by lia. change MAXVA with 274877906944 in H. change (2 ^ (12 + 9 * 2)) with 1073741824. dlia. Qed.

(** One iteration of the loop in walk(): the child table exists afterwards. *)
Lemma walk_descend s root l p t level levels va :
  as_ok s root l → path_ok p → parent_of p → node (view s) root p = Some t →
  0 ≤ level → (p = P2 → PX level va < 256) → L_kmem ∉ k_held s → l ≠ [] →
  ∃ s' l' t',
    walk_levels (level :: levels) t va true s = walk_levels levels t' va true s' ∧
    as_ok s' root l' ∧ node (view s') root (extend p (PX level va)) = Some t' ∧
    grows s s' root l l' ∧ (length l ≤ S (length l'))%nat ∧
    (∀ va', 0 ≤ va' < MAXVA → leaf (view s') root va' = leaf (view s) root va').
Proof.
  intros A Hp Hpar Hn Hlev Hlow Hh Hl. set (k := PX level va) in *.
  assert (Hk : idx_ok k) by by apply px_range.
  assert (Ht : tbl_ok t) by by eapply (wf_tbl _ _ (as_wf _ _ _ A)).
  cbn [walk_levels]. fold k.
  rewrite (bind_ok _ _ _ _ _ (load64_run _ s (tbl_slot_ram t k Ht Hk))).
  change (ld64 (mem s) (t + 8 * k)) with (view s t k).
  destruct (has (view s t k) PTE_V) eqn:Hv.
  - exists s, l, (PTE2PA (view s t k)). split_and!; [done|done| |apply grows_refl|lia|done].
    destruct p; simpl in *; [| |done].
    + simplify_eq. unfold child. by rewrite Hv.
    + rewrite Hn. simpl. unfold child. by rewrite Hv.
  - destruct l as [|pg l]; [done|].
    pose proof (linked_pg _ _ _ _ A) as Hpg.
    exists (linked pg (t + 8 * k) s), l, (4096 * pg). split_and!.
    + simpl. rewrite (bind_ok _ _ _ _ _ (kalloc_run s pg l (as_free _ _ _ A) Hh)).
      assert (4096 * pg ≠ 0) as Hnz.
      { destruct Hpg. pose proof l_end_range. unfold KERNBASE in *. lia. }
      rewrite (proj2 (Z.eqb_neq _ _) Hnz).
      rewrite (bind_ok _ _ _ _ _ (memset_run _ _ _ _ (page_ok_ram _ Hpg))).
      rewrite (bind_ok _ _ _ _ _ (store64_run _ _ _ (tbl_slot_ram t k Ht Hk))).
      done.
    + eapply linked_ok; eauto.
    + rewrite (linked_node s root pg l p t k) by (eauto; destruct p; done).
      by rewrite decide_True.
    + eapply linked_grows; eauto.
    + simpl. lia.
    + intros va' Hva'. eapply linked_leaf; eauto.
Qed.

(** walk() with allocation, given two free pages: it returns the leaf slot of
    [va] and changes no translation. *)
Lemma walk_alloc s root l va :
  as_ok s root l → 0 ≤ va < MAXVA → L_kmem ∉ k_held s → (2 ≤ length l)%nat →
  ∃ s' l' t0,
    walk root va true s = Ok (t0 + 8 * PX 0 va) s' ∧
    as_ok s' root l' ∧ node (view s') root (va_path va) = Some t0 ∧
    grows s s' root l l' ∧ (length l ≤ 2 + length l')%nat ∧
    (∀ va', 0 ≤ va' < MAXVA → leaf (view s') root va' = leaf (view s) root va').
Proof.
  intros A Hva Hh Hl. unfold walk. destruct (Z.leb_spec MAXVA va); [lia|].
  destruct (walk_descend s root l P2 root 2 [1] va) as (s1 & l1 & t1 & E1 & A1 & N1 & G1 & Hl1 & Lf1);
    try done; [intros _; by apply px_low|by destruct l; simpl in *; [lia|]|].
  assert (Hh1 : L_kmem ∉ k_held s1) by (rewrite (gr_state _ _ _ _ _ G1); done).
  destruct (walk_descend s1 root l1 (P1 (PX 2 va)) t1 1 [] va)
    as (s2 & l2 & t2 & E2 & A2 & N2 & G2 & Hl2 & Lf2); try done.
  { by apply px_range. } { destruct l1; simpl in *; [lia|done]. }
  exists s2, l2, t2. split_and!; auto.
  - by rewrite E1, E2.
  - by eapply grows_trans.
  - lia.
  - intros va' Hva'. by rewrite Lf2, Lf1.
Qed.

(** walk() finds a leaf slot whose table is there, with or without allocation. *)
Lemma walk_present s root va alloc t :
  pt_wf (view s) root → 0 ≤ va < MAXVA → node (view s) root (va_path va) = Some t →
  walk root va alloc s = Ok (t + 8 * PX 0 va) s.
Proof.
  intros WF Hva Hn. unfold walk. destruct (Z.leb_spec MAXVA va); [lia|]. cbn [walk_levels].
  assert (H2 : tbl_ok root) by by apply (wf_tbl _ _ WF P2).
  rewrite (bind_ok _ _ _ _ _ (load64_run _ s (tbl_slot_ram root _ H2 (px_idx_ok 2 va ltac:(lia))))).
  change (ld64 (mem s) (root + 8 * PX 2 va)) with (view s root (PX 2 va)).
  unfold va_path in Hn. cbn [node] in Hn. apply bind_Some in Hn as (t1 & H1 & Ht).
  assert (Hn1 : tbl_ok t1) by (apply (wf_tbl _ _ WF (P1 (PX 2 va))); [apply px_range; lia|exact H1]).
  unfold child in H1, Ht. destruct (has (view s root (PX 2 va)) PTE_V); [|done]. injection H1 as H1. rewrite H1.
  rewrite (bind_ok _ _ _ _ _ (load64_run _ s (tbl_slot_ram t1 _ Hn1 (px_idx_ok 1 va ltac:(lia))))).
  change (ld64 (mem s) (t1 + 8 * PX 1 va)) with (view s t1 (PX 1 va)).
  destruct (has (view s t1 (PX 1 va)) PTE_V); [|done]. injection Ht as Ht. by rewrite Ht.
Qed.

(** The tables that walk() may have to allocate for [va]. *)
Definition missing (s : kstate) (root va : Z) : nat :=
  match node (view s) root (va_path va) with Some _ => 0 | None => 2 end.

Lemma walk_alloc_missing s root l va :
  as_ok s root l → 0 ≤ va < MAXVA → L_kmem ∉ k_held s → (missing s root va ≤ length l)%nat →
  ∃ s' l' t0,
    walk root va true s = Ok (t0 + 8 * PX 0 va) s' ∧
    as_ok s' root l' ∧ node (view s') root (va_path va) = Some t0 ∧
    grows s s' root l l' ∧ (length l ≤ missing s root va + length l')%nat ∧
    (∀ va', 0 ≤ va' < MAXVA → leaf (view s') root va' = leaf (view s) root va').
Proof.
  intros A Hva Hh Hl. unfold missing in *. destruct (node (view s) root (va_path va)) as [t|] eqn:E; [|by apply walk_alloc].
  exists s, l, t. split_and!; [by apply walk_present; [apply A|..]|done|done|apply grows_refl|done|done].
Qed.

End spec.
