(* ===== verification/Machine.v ===== *)
(** A concrete machine: a kernel image, an idle process table with one running
    process whose address space is empty, eight free pages, an empty file
    system.  The theorems of the other files are instantiated on it and on
    states reached from it. *)

From S2P Require Import Prelude Riscv Kstate Mem Kalloc PageTable VmSpec.

(** A kernel image that ends at 0x80900000. *)
#[export] Instance layout : Layout := {|
  l_end := 0x80900000;
  l_runs := 0x80020000;
  l_trampoline := 0x80007000;
  l_etext := 0x80008000;
|}.

#[export] Instance layout_ok : LayoutOk layout.
Proof. by split. Qed.

(** The root page table of the running process, and the free pages. *)
Definition ROOTPG : Z := 0x87000.
Definition root0 : Z := 4096 * ROOTPG.
Definition free0 : list Z :=
  [0x87001; 0x87002; 0x87003; 0x87004; 0x87005; 0x87006; 0x87007; 0x87008].

(** The descriptors of the free list, each linked to the next. *)
Fixpoint link_runs (l : list Z) (m : gmap Z run) : gmap Z run :=
  match l with
  | [] => m
  | pg :: l => <[run_addr pg := Run (match l with [] => 0 | q :: _ => run_addr q end) 0]> (link_runs l m)
  end.

Definition mm0 : mm := MM ∅ (run_addr 0x87001) (link_runs free0 ∅).

Definition proc0 : proc :=
  Proc UNUSED C_null 0 0 0 None 0 0 0 0 (replicate 16 None) None (replicate 16 0) None 0.
Definition running (fds : list (option nat)) : proc :=
  Proc RUNNING C_null 0 0 1 None 0 0 root0 0 (fds ++ replicate (16 - length fds) None)
    (Some 0%nat) (replicate 16 0) None 0.

Definition vma_unused : vma := Vma 0 0 None 0 0 0 0 None 0 0.
Definition file_free : file := File FD_NONE 0 0 0 0 None 0 0.
Definition inode_free : inode :=
  Inode 0 0 0 (SleepLock false 0) false 0 0 0 0 0 (replicate 13 0).
(** An open, readable and writable file on inode 0. *)
Definition file_rw : file := File FD_INODE 1 1 1 0 (Some 0%nat) 0 0.

Definition buf0 : buf := Buf false 0 0 (SleepLock false 0) 0 0 0 (replicate 1024 0).
Definition log0 : log := Log 2 30 0 false 1 0 (replicate 30 0).
Definition sb0 : superblock := Superblock 0x10203040 1000 954 200 30 2 32 45.
Definition io0 : io := IO (replicate 31 buf0) [] log0 sb0.

(** Process 0 runs, with descriptor 0 open on file 0. *)
Definition st0 : kstate :=
  KState 0 ∅ mm0 io0 (replicate 50 inode_free) (file_rw :: replicate 99 file_free)
    (replicate 30 vma_unused) ∅ (running [Some 0%nat] :: replicate 63 proc0) 2 (Some 1%nat) 0.

Lemma free_list0 : free_list mm0 free0.
Proof.
  split; [|split].
  - vm_compute. repeat split.
  - repeat (apply NoDup_cons; split; [by (intros ?; set_solver)|]). apply NoDup_nil_2.
  - repeat (constructor; [by vm_compute|]). constructor.
Qed.

Lemma entries0 t i : entries ∅ t i = 0.
Proof. unfold entries. apply ld64_zero. intros. unfold ld8. by rewrite lookup_empty. Qed.

(** The empty page table. *)
Lemma node0 s p t :
  mem s = ∅ → node (view s) root0 p = Some t → p = P2 ∧ t = root0.
Proof.
  intros E. unfold view. rewrite E. destruct p as [|i|i j]; simpl; [by intros [= <-]| |];
    unfold child; rewrite entries0; done.
Qed.

Lemma as_ok0 s : mem s = ∅ → free_list (k_mm s) free0 → as_ok s root0 free0.
Proof.
  intros E Em. split.
  - done.
  - split.
    + intros p t _ [-> ->]%(node0 s); [|done]. split; [done|]. by vm_compute.
    + intros p q t _ _ [-> ->]%(node0 s) [-> _]%(node0 s); done.
  - intros p t _ [-> ->]%(node0 s); [|done]. vm_compute. intros ?. set_solver.
Qed.

(** The same machine with one more allocated page, [FRAME]. *)
Definition FRAME : Z := 0x87010.
Definition mm1 : mm := MM ∅ (run_addr 0x87001) (<[run_addr FRAME := Run 0 1]> (link_runs free0 ∅)).

Lemma free_list1 : free_list mm1 free0.
Proof. split; [vm_compute; repeat split|apply free_list0]. Qed.

(** ... and process 0 with one two-page area, a shared mapping of file 0. *)
Definition vma_two : vma :=
  Vma 1 8192 (Some 0%nat) START_ADDRESS START_ADDRESS (START_ADDRESS + 8192) 0 None
    PROT_READ_WRITE MAP_SHARED.
Definition proc_two : proc :=
  Proc RUNNING C_null 0 0 1 None 0 0 root0 0 (Some 0%nat :: replicate 15 None)
    (Some 0%nat) (replicate 16 0) (Some 0%nat) 1.
Definition st1 : kstate :=
  KState 0 ∅ mm1 io0 (replicate 50 inode_free)
    (File FD_INODE 2 1 1 0 (Some 0%nat) 0 0 :: replicate 99 file_free)
    (vma_two :: replicate 29 vma_unused) ∅ (proc_two :: replicate 63 proc0) 2 (Some 1%nat) 0.
