(* ===== verification/VmMap.v ===== *)
(** Mapping and unmapping: the specifications of mappages() and uvmunmap() of
    kernel/vm.c, page range by page range. *)

From S2P Require Import Prelude Riscv Kstate Mem Kalloc Vm PageTable VmSpec.

Section map.
Context {L : Layout} {LO : LayoutOk L}.

(** The entry mappages() writes. *)
Definition pte_of (pa perm : Z) : Z := Z.lor (Z.lor (PA2PTE pa) perm) PTE_V.

Lemma pte_of_range pa perm : 0 ≤ perm < 1024 → 0 ≤ pte_of pa perm < 18446744073709551616.
Proof.
  intros. apply (lor_range 64); [lia| |unfold PTE_V; lia].
  apply (lor_range 64); [lia|apply u64_range|lia].
Qed.

Lemma pte_of_flags pa perm : pte_of pa perm = Z.lor (PA2PTE pa) (Z.lor perm PTE_V).
Proof. unfold pte_of. by rewrite Z.lor_assoc. Qed.

Lemma perm_range perm : 0 ≤ perm < 1024 → 0 ≤ Z.lor perm PTE_V < 1024.
Proof. intros. apply (lor_range 10); unfold PTE_V; lia. Qed.

Lemma pte_of_pa pa perm :
  0 ≤ pa < 2 ^ 56 → pa mod PGSIZE = 0 → 0 ≤ perm < 1024 → PTE2PA (pte_of pa perm) = pa.
Proof. intros. rewrite pte_of_flags. apply pte2pa_pa2pte; auto using perm_range. Qed.

Lemma pte_of_has pa perm f :
  0 ≤ pa < 2 ^ 56 → 0 ≤ perm < 1024 → 0 ≤ f < 1024 →
  has (pte_of pa perm) f = has perm f || has PTE_V f.
Proof. intros. by rewrite pte_of_flags, has_pa2pte, has_lor by auto using perm_range. Qed.

(** ** Storing a leaf entry *)

Lemma stored_owned s s' root p t0 k v :
  pt_wf (view s) root → same_nodes (view s) (view s') root → path_ok p → ¬ parent_of p → node (view s) root p = Some t0 →
  mm_runs (k_mm s') = mm_runs (k_mm s) →
  (∀ t i, t mod PGSIZE = 0 → idx_ok i → view s' t i = if decide ((t0, k) = (t, i)) then v else view s t i) →
  owned s root → owned s' root.
Proof.
  intros WF Hs Hp Hnp Hn Hr HE [Opg Optr Olow].
  assert (Hsame : ∀ q u i, path_ok q → parent_of q → node (view s) root q = Some u → idx_ok i → view s' u i = view s u i).
  { intros q u i Hq Hqp Hu Hi. pose proof (wf_tbl _ _ WF q u Hq Hu) as [Hua _]. rewrite HE by done.
    case_decide as E; [|done]. injection E as -> ->. destruct Hnp.
    assert (p = q) as ->; [|done]. by apply (wf_inj _ _ WF p q u). }
  split.
  - intros q u Hq. rewrite Hs by done. unfold run_at. rewrite Hr. by apply Opg.
  - intros q u i Hq Hqp. rewrite Hs by done. intros Hu Hi. rewrite (Hsame q u i) by done. by eapply Optr.
  - intros i Hi. rewrite (Hsame P2 root i) by (done || unfold idx_ok; lia). by apply Olow.
Qed.

Lemma leaf_stored s root l va t0 v :
  as_ok s root l → 0 ≤ va < MAXVA → node (view s) root (va_path va) = Some t0 →
  0 ≤ v < 18446744073709551616 →
  let s' := put_mem (st64 (mem s) (t0 + 8 * PX 0 va) v) s in
  as_ok s' root l ∧ grows s s' root l l ∧ same_nodes (view s) (view s') root ∧
  (∀ va', 0 ≤ va' < MAXVA →
     leaf (view s') root va' =
     if decide (va' / 4096 = va / 4096) then v else leaf (view s) root va').
Proof.
  intros A Hva Hn Hv s'.
  pose proof (as_wf _ _ _ A) as WF.
  pose proof (wf_tbl _ _ WF _ _ (va_path_ok va) Hn) as Ht0.
  assert (HE : ∀ t i, t mod PGSIZE = 0 → idx_ok i →
    view s' t i = if decide ((t0, PX 0 va) = (t, i)) then v else view s t i).
  { intros t i Ht Hi. unfold view, s'. rewrite mem_put_mem.
    rewrite entries_st64 by (done || apply Ht0 || (apply px_range; lia)).
    by rewrite u64_small. }
  pose proof (px_range 2 va ltac:(lia)) as I2. pose proof (px_range 1 va ltac:(lia)) as I1.
  pose proof (px_range 0 va ltac:(lia)) as I0.
  assert (Hs : same_nodes (view s) (view s') root).
  { eapply leaf_store_nodes; [exact WF|exact I2|exact I1|exact I0|exact Hn|exact HE]. }
  split_and!; [| |done|].
  - split.
    + apply free_list_set_mem, A.
    + by eapply same_nodes_wf.
    + intros p t Hp. rewrite Hs by done. by apply A.
  - split.
    + done.
    + done.
    + intros p t Hp. rewrite Hs by done. by left.
    + intros p t Hp Ht. by rewrite Hs.
    + intros a [_ Ha]. unfold s'. rewrite mem_put_mem, ld8_st64_out; [done|].
      destruct (decide (t0 + 8 * PX 0 va ≤ a < t0 + 8 * PX 0 va + 8)); [|lia].
      destruct (Ha _ _ (va_path_ok va) Hn).
      rewrite <- (slot_page t0 (PX 0 va) (a - (t0 + 8 * PX 0 va)) Ht0 I0) by lia. f_equal. lia.
    + done.
    + by left.
    + apply (stored_owned s s' root (va_path va) t0 (PX 0 va) v); [done|done|apply va_path_ok|by intros []|done|done|done].
  - intros va' Hva'.
    rewrite (leaf_store_leaf (view s) (view s') root _ _ (PX 0 va) t0 v WF I2 I1 I0 Hn HE va' Hva').
    destruct (decide (va' / 4096 = va / 4096)) as [E|E].
    + rewrite decide_True; [done|]. split_and!; apply px_same_page; (done || lia).
    + rewrite decide_False; [done|]. intros (?&?&?). by apply E, px_inj.
Qed.

(** ** mappages() *)

Lemma page_of_aligned a n i :
  a mod PGSIZE = 0 → 0 ≤ n →
  (a ≤ i < a + 4096 * n ↔ a / 4096 ≤ i / 4096 < a / 4096 + n).
Proof. intros Ha%aligned_split Hn. split; intros; dlia. Qed.

(** The 2 MB boundaries between the pages [a] and [a + 4096 * n]: a table of
    leaves serves 512 pages. *)
Definition crossings (a : Z) (n : nat) : nat := Z.to_nat ((a + 4096 * Z.of_nat n) / 2097152 - a / 2097152).

Lemma va_path_same a b : a / 2097152 = b / 2097152 → va_path a = va_path b.
Proof.
  intros E. unfold va_path. rewrite !px_eq by lia. change (2 ^ (12 + 9 * 2)) with (2097152 * 512). change (2 ^ (12 + 9 * 1)) with 2097152.
  rewrite <-!Z.div_div by lia. by rewrite E.
Qed.

Lemma crossings_le a n : (crossings a n ≤ n)%nat.
Proof. unfold crossings. dlia. Qed.

(** The tables needed after the first page has been mapped. *)
Lemma missing_next s root a n t :
  0 ≤ a → node (view s) root (va_path a) = Some t →
  (missing s root (a + 4096) + 2 * crossings (a + 4096) n ≤ 2 * crossings a (S n))%nat.
Proof.
  intros Ha Hn. unfold missing. destruct (decide (a / 2097152 = (a + 4096) / 2097152)) as [E|E].
  - rewrite <-(va_path_same _ _ E), Hn. unfold crossings. rewrite E. replace (a + 4096 * Z.of_nat (S n)) with (a + 4096 + 4096 * Z.of_nat n) by lia. lia.
  - assert (Hc : (S (crossings (a + 4096) n) ≤ crossings a (S n))%nat).
    { unfold crossings. replace (a + 4096 * Z.of_nat (S n)) with (a + 4096 + 4096 * Z.of_nat n) by lia. dlia. }
    destruct (node (view s) root (va_path (a + 4096))); lia.
Qed.

Lemma mappages_loop_ok root perm fuel n s l a pa :
  0 ≤ perm < 1024 → as_ok s root l → L_kmem ∉ k_held s →
  a mod PGSIZE = 0 → 0 ≤ a → a + 4096 * (Z.of_nat n + 1) ≤ MAXVA →
  pa mod PGSIZE = 0 → 0 ≤ pa → pa + 4096 * (Z.of_nat n + 1) ≤ 2 ^ 56 →
  (missing s root a + 2 * crossings a n ≤ length l)%nat → (n < fuel)%nat →
  (∀ va, a ≤ va < a + 4096 * (Z.of_nat n + 1) → has (leaf (view s) root va) PTE_V = false) →
  ∃ s' l',
    mappages_loop fuel root a (a + 4096 * Z.of_nat n) pa perm s = Ok 0 s' ∧
    as_ok s' root l' ∧ grows s s' root l l' ∧ (length l ≤ missing s root a + 2 * crossings a n + length l')%nat ∧
    (∀ va, 0 ≤ va < MAXVA → leaf (view s') root va =
       if decide (a ≤ va < a + 4096 * (Z.of_nat n + 1))
       then pte_of (pa + (PGROUNDDOWN va - a)) perm else leaf (view s) root va).
Proof.
  intros Hperm. revert n s l a pa.
  induction fuel as [|fuel IH]; intros n s l a pa A Hh Ha Ha0 Htop Hpa Hpa0 Hptop Hl Hf Hun; [lia|].
  assert (HM : MAXVA = 274877906944) by done.
  cbn [mappages_loop].
  destruct (walk_alloc_missing s root l a) as (s1 & l1 & t0 & E1 & A1 & N1 & G1 & Hl1 & Lf1);
    [done|lia|done|lia|].
  rewrite (bind_ok _ _ _ _ _ E1).
  pose proof (wf_tbl _ _ (as_wf _ _ _ A1) _ _ (va_path_ok a) N1) as Ht0.
  pose proof (px_range 0 a ltac:(lia)) as I0.
  pose proof (tbl_slot_ram t0 _ Ht0 I0) as Hram.
  rewrite (proj2 (Z.eqb_neq _ _)) by (destruct Hram; unfold KERNBASE in *; lia).
  rewrite (bind_ok _ _ _ _ _ (load64_run _ s1 Hram)).
  assert (Hleaf : ld64 (mem s1) (t0 + 8 * PX 0 a) = leaf (view s) root a).
  { rewrite <- (Lf1 a) by lia. unfold leaf. by rewrite N1. }
  rewrite Hleaf, Hun by lia.
  rewrite (bind_ok _ _ _ _ _ (store64_run _ _ s1 Hram)). fold (pte_of pa perm).
  destruct (leaf_stored s1 root l1 a t0 (pte_of pa perm) A1 ltac:(lia) N1
    (pte_of_range pa perm Hperm)) as (A2 & G2 & Sn2 & Lf2).
  set (s2 := put_mem _ s1) in *.
  assert (G12 : grows s s2 root l l1) by (by eapply grows_trans).
  assert (Hh2 : L_kmem ∉ k_held s2) by (rewrite (gr_state _ _ _ _ _ G12); done).
  destruct n as [|n].
  - rewrite (proj2 (Z.eqb_eq _ _)) by lia. exists s2, l1. split_and!; [done..|lia|].
    intros va Hva. rewrite Lf2, Lf1 by done.
    pose proof (page_of_aligned a 1 va Ha ltac:(lia)).
    repeat case_decide; try lia; try done. f_equal. rewrite pgrounddown_eq.
    apply aligned_split in Ha. lia.
  - rewrite (proj2 (Z.eqb_neq _ _)) by lia. unfold PGSIZE.
    rewrite !u64_small by lia.
    replace (a + 4096 * Z.of_nat (S n)) with (a + 4096 + 4096 * Z.of_nat n) by lia.
    assert (Hnext : (missing s2 root (a + 4096) + 2 * crossings (a + 4096) n ≤ 2 * crossings a (S n))%nat).
    { apply (missing_next s2 root a n t0); [done|]. rewrite Sn2 by apply va_path_ok. exact N1. }
    destruct (IH n s2 l1 (a + 4096) (pa + 4096)) as (s3 & l3 & E3 & A3 & G3 & Hl3 & Lf3);
      try done; try lia.
    { by apply aligned_add. } { by apply aligned_add. }
    { intros va Hva. rewrite Lf2, Lf1 by lia. rewrite decide_False; [apply Hun; lia|].
      apply aligned_split in Ha. dlia. }
    exists s3, l3. split_and!; [done|done|by eapply grows_trans|lia|].
    intros va Hva. rewrite Lf3, Lf2, Lf1 by done.
    pose proof (page_of_aligned a 1 va Ha ltac:(lia)).
    repeat case_decide; try lia; try done.
    + f_equal. lia.
    + f_equal. rewrite pgrounddown_eq. apply aligned_split in Ha. lia.
Qed.

(** With the tables that are really needed: two for the first page and two for
    each 2 MB boundary crossed. *)
Lemma mappages_span s root l va size pa perm :
  let a := PGROUNDDOWN va in
  let last := PGROUNDDOWN (va + size - 1) in
  let n := Z.to_nat ((last - a) / PGSIZE) in
  as_ok s root l → L_kmem ∉ k_held s → 0 ≤ perm < 1024 →
  0 ≤ va → 0 < size → va + size ≤ MAXVA →
  pa mod PGSIZE = 0 → 0 ≤ pa → pa + (last - a) + PGSIZE ≤ 2 ^ 56 →
  (2 + 2 * crossings a n ≤ length l)%nat →
  (∀ v, a ≤ v < last + PGSIZE → has (leaf (view s) root v) PTE_V = false) →
  ∃ s' l',
    mappages root va size pa perm s = Ok 0 s' ∧
    as_ok s' root l' ∧ grows s s' root l l' ∧ (length l ≤ 2 + 2 * crossings a n + length l')%nat ∧
    (∀ v, 0 ≤ v < MAXVA → leaf (view s') root v =
       if decide (a ≤ v < last + PGSIZE)
       then pte_of (pa + (PGROUNDDOWN v - a)) perm else leaf (view s) root v).
Proof.
  intros a last n A Hh Hperm Hva Hsz Htop Hpa Hpa0 Hptop Hl Hun.
  assert (HM : MAXVA = 274877906944) by done. unfold PGSIZE in *.
  pose proof (pgrounddown_aligned va) as Ha. pose proof (pgrounddown_aligned (va + size - 1)) as Hla.
  pose proof (pgrounddown_bounds va) as Hb. pose proof (pgrounddown_bounds (va + size - 1)) as Hb'.
  fold a in Ha, Hb. fold last in Hla, Hb'. unfold PGSIZE in *.
  assert (Hale : a ≤ last) by (subst a last; rewrite !pgrounddown_eq; dlia).
  assert (Hlast : last = a + 4096 * Z.of_nat n).
  { subst n. unfold PGSIZE. apply aligned_split in Ha, Hla. rewrite Z2Nat.id by dlia. dlia. }
  unfold mappages. rewrite (proj2 (Z.eqb_neq _ _)) by lia.
  rewrite u64_small by lia. fold a last.
  assert (0 ≤ a) by (subst a; rewrite pgrounddown_eq; dlia).
  assert (last + 4096 ≤ MAXVA).
  { subst last. rewrite pgrounddown_eq. rewrite HM in *. dlia. }
  unfold page_fuel. rewrite (proj2 (Z.leb_le _ _)) by done. fold n.
  assert (Hmis : (missing s root a ≤ 2)%nat) by (unfold missing; by destruct (node _ _ _); lia).
  destruct (mappages_loop_ok root perm (S n) n s l a pa) as (s' & l' & E & A' & G & Hl' & Lf);
    try done; try lia.
  { intros v Hv. apply Hun. lia. }
  exists s', l'. rewrite <- Hlast in E. split_and!; [done|done|done|lia|].
  intros v Hv. rewrite Lf by done. replace (last + 4096) with (a + 4096 * (Z.of_nat n + 1)) by lia.
  done.
Qed.

Lemma mappages_ok s root l va size pa perm :
  let a := PGROUNDDOWN va in
  let last := PGROUNDDOWN (va + size - 1) in
  let n := Z.to_nat ((last - a) / PGSIZE) in
  as_ok s root l → L_kmem ∉ k_held s → 0 ≤ perm < 1024 →
  0 ≤ va → 0 < size → va + size ≤ MAXVA →
  pa mod PGSIZE = 0 → 0 ≤ pa → pa + (last - a) + PGSIZE ≤ 2 ^ 56 →
  (2 * S n ≤ length l)%nat →
  (∀ v, a ≤ v < last + PGSIZE → has (leaf (view s) root v) PTE_V = false) →
  ∃ s' l',
    mappages root va size pa perm s = Ok 0 s' ∧
    as_ok s' root l' ∧ grows s s' root l l' ∧ (length l ≤ 2 * S n + length l')%nat ∧
    (∀ v, 0 ≤ v < MAXVA → leaf (view s') root v =
       if decide (a ≤ v < last + PGSIZE)
       then pte_of (pa + (PGROUNDDOWN v - a)) perm else leaf (view s) root v).
Proof.
  intros a last n A Hh Hperm Hva Hsz Htop Hpa Hpa0 Hptop Hl Hun. pose proof (crossings_le a n) as Hc.
  destruct (mappages_span s root l va size pa perm) as (s' & l' & E & A' & G & Hl' & Lf); try done; [fold a last n; lia|].
  exists s', l'. split_and!; try done. fold a last n in Hl'. lia.
Qed.

(** ** uvmunmap() *)

(** Two views that agree on every table of the tree have the same tree. *)
Lemma agree_nodes (E E' : tview) root :
  (∀ p t i, path_ok p → node E root p = Some t → idx_ok i → E' t i = E t i) →
  same_nodes E E' root.
Proof.
  intros H [|i|i j] Hp; cbn [node path_ok] in *; [done| |].
  - unfold child. by rewrite (H P2 root i).
  - destruct Hp as [Hi Hj].
    assert (child E' root i = child E root i) as -> by (unfold child; by rewrite (H P2 root i)).
    destruct (child E root i) as [t|] eqn:Ei; cbn; [|done].
    unfold child. by rewrite (H (P1 i) t j).
Qed.

Lemma agree_leaf (E E' : tview) root va :
  (∀ p t i, path_ok p → node E root p = Some t → idx_ok i → E' t i = E t i) →
  0 ≤ va < MAXVA → leaf E' root va = leaf E root va.
Proof.
  intros H Hva. unfold leaf. rewrite (agree_nodes E E' root H) by apply va_path_ok.
  destruct (node E root (va_path va)) as [t|] eqn:Et; [|done].
  apply (H _ _ _ (va_path_ok va) Et). apply px_range. lia.
Qed.

(** Filling a page that is not a table. *)
Lemma fill_agree s root l pg c p t i :
  pt_wf (view s) root → plain s root l pg → path_ok p → node (view s) root p = Some t → idx_ok i →
  entries (fill (mem s) (4096 * pg) (replicate PGNAT c)) t i = view s t i.
Proof.
  intros WF [_ Hpl] Hp Ht Hi. pose proof (wf_tbl _ _ WF p t Hp Ht) as [Ha _].
  apply entries_fill_other; [apply aligned_mul|done|done|].
  intros ->. by eapply Hpl; [exact Hp|exact Ht|apply page_of_mul].
Qed.

(** A mapped user page that uvmunmap(..., do_free=1) can give back: its leaf is
    valid and not a table pointer, and its frame is an allocated page that is
    neither free nor a table and has reference count 1. *)
Record user_page (s : kstate) (root : Z) (l : list Z) (va pg : Z) : Prop := {
  up_valid : has (leaf (view s) root va) PTE_V = true;
  up_leaf : PTE_FLAGS (leaf (view s) root va) ≠ PTE_V;
  up_frame : PTE2PA (leaf (view s) root va) = 4096 * pg;
  up_ok : page_ok pg;
  up_plain : plain s root l pg;
  up_ref : r_ref (run_at (k_mm s) (run_addr pg)) = 1;
}.

(** What unmapping and freeing the frames [pgs] leaves untouched. *)
Record unmapped (s s' : kstate) (root : Z) (l pgs : list Z) : Prop := {
  un_state : s' = set_mm (k_mm s') s;
  un_nodes : same_nodes (view s) (view s') root;
  un_mem a : plain s root l (a / 4096) → a / 4096 ∉ pgs → ld8 (mem s') a = ld8 (mem s) a;
  un_ref pg : pg ∉ pgs → run_at (k_mm s') (run_addr pg) = run_at (k_mm s) (run_addr pg);
  un_owned : owned s root → owned s' root;
}.

Lemma plain_frame s s' root l l' pg :
  same_nodes (view s) (view s') root → plain s root l pg → pg ∉ l' → plain s' root l' pg.
Proof.
  intros Hs [_ H] Hni. split; [done|]. intros p t Hp. rewrite Hs by done. by apply H.
Qed.

Lemma unmapped_trans s1 s2 s3 root l pg pgs :
  unmapped s1 s2 root l [pg] → unmapped s2 s3 root (pg :: l) pgs →
  unmapped s1 s3 root l (pg :: pgs).
Proof.
  intros U1 U2. split.
  - rewrite (un_state _ _ _ _ _ U2), (un_state _ _ _ _ _ U1). done.
  - intros p Hp. by rewrite (un_nodes _ _ _ _ _ U2), (un_nodes _ _ _ _ _ U1).
  - intros a Ha Hni. apply not_elem_of_cons in Hni as [Hne Hni].
    rewrite (un_mem _ _ _ _ _ U2), (un_mem _ _ _ _ _ U1); try done.
    + by intros ?%list_elem_of_singleton.
    + eapply plain_frame; [apply U1|exact Ha|]. apply not_elem_of_cons. split; [done|apply Ha].
  - intros q Hq. apply not_elem_of_cons in Hq as [Hne Hni].
    rewrite (un_ref _ _ _ _ _ U2), (un_ref _ _ _ _ _ U1); [done| |done].
    by intros ?%list_elem_of_singleton.
  - intros H. by apply (un_owned _ _ _ _ _ U2), (un_owned _ _ _ _ _ U1).
Qed.

(** One iteration: free the frame, clear the entry. *)
Lemma unmap_step s root l va pg t0 :
  as_ok s root l → L_kmem ∉ k_held s → 0 ≤ va < MAXVA →
  node (view s) root (va_path va) = Some t0 → user_page s root l va pg →
  let s1 := set_mm (freed pg (k_mm s)) s in
  let s2 := put_mem (st64 (mem s1) (t0 + 8 * PX 0 va) 0) s1 in
  kfree (4096 * pg) s = Ok tt s1 ∧ as_ok s2 root (pg :: l) ∧ unmapped s s2 root l [pg] ∧
  (∀ va', 0 ≤ va' < MAXVA → leaf (view s2) root va' =
     if decide (va' / 4096 = va / 4096) then 0 else leaf (view s) root va').
Proof.
  intros A Hh Hva Hn U s1 s2. destruct U as [Uv Ul Uf Uok Upl Ur].
  assert (HE : ∀ p t i, path_ok p → node (view s) root p = Some t → idx_ok i →
    view s1 t i = view s t i).
  { intros. eapply (fill_agree s root l pg 1); eauto. apply A. }
  pose proof (agree_nodes _ _ _ HE) as Hs1.
  assert (A1 : as_ok s1 root (pg :: l)).
  { split.
    - apply freed_free_list; [apply A|done|apply Upl].
    - eapply same_nodes_wf; [exact Hs1|apply A].
    - intros p t Hp. rewrite Hs1 by done. intros Ht. apply not_elem_of_cons. split.
      + by eapply Upl.
      + by eapply (as_fresh _ _ _ A). }
  assert (N1 : node (view s1) root (va_path va) = Some t0) by (by rewrite Hs1 by apply va_path_ok).
  destruct (leaf_stored s1 root (pg :: l) va t0 0 A1 Hva N1 ltac:(lia)) as (A2 & G2 & Hs2 & Lf2).
  fold s2 in A2, G2, Hs2, Lf2.
  split_and!; [by apply kfree_run|done| |].
  - split.
    + done.
    + intros p Hp. by rewrite Hs2, Hs1.
    + intros a Ha Hni. rewrite (gr_mem _ _ _ _ _ G2).
      * unfold s1, mem. simpl. rewrite ld8_memset, pgnat_eq. rewrite decide_False; [done|].
        intros ?. apply Hni, list_elem_of_singleton. dlia.
      * eapply plain_frame; [exact Hs1|exact Ha|]. apply not_elem_of_cons. split; [|apply Ha].
        intros Hpg. by apply Hni, list_elem_of_singleton.
    + intros q Hq. unfold run_at, s2, s1. simpl.
      rewrite lookup_insert_ne; [done|]. intros ->%run_addr_inj. by apply Hq, list_elem_of_singleton.
    + intros [Opg Optr Olow]. apply (gr_owned _ _ _ _ _ G2). split.
      * intros p t Hp. rewrite Hs1 by done. intros Ht. unfold run_at, s1. simpl.
        rewrite lookup_insert_ne; [by eapply Opg|]. intros E%run_addr_inj. by apply (proj2 Upl p t).
      * intros p t i Hp Hpar. rewrite Hs1 by done. intros Ht Hi. rewrite (HE p t i Hp Ht Hi). exact (Optr p t i Hp Hpar Ht Hi).
      * intros i Hi. rewrite (HE P2 root i I eq_refl ltac:(unfold idx_ok; lia)). exact (Olow i Hi).
  - intros va' Hva'. rewrite Lf2 by done. case_decide; [done|]. by apply agree_leaf.
Qed.

Lemma uvmunmap_loop_ok root fuel pgs s l a :
  as_ok s root l → L_kmem ∉ k_held s →
  a mod PGSIZE = 0 → 0 ≤ a → a + 4096 * Z.of_nat (length pgs) ≤ MAXVA →
  NoDup pgs →
  (∀ i pg, pgs !! i = Some pg → user_page s root l (a + 4096 * Z.of_nat i) pg) →
  (length pgs < fuel)%nat →
  ∃ s',
    uvmunmap_loop fuel root a (a + 4096 * Z.of_nat (length pgs)) true s = Ok tt s' ∧
    as_ok s' root (reverse pgs ++ l) ∧ unmapped s s' root l pgs ∧
    (∀ va, 0 ≤ va < MAXVA → leaf (view s') root va =
       if decide (a ≤ va < a + 4096 * Z.of_nat (length pgs)) then 0 else leaf (view s) root va).
Proof.
  assert (HM : MAXVA = 274877906944) by done.
  revert fuel s l a. induction pgs as [|pg pgs IH]; intros fuel s l a A Hh Ha Ha0 Htop Hnd Hup Hf.
  { destruct fuel; simpl; (rewrite (proj2 (Z.ltb_ge _ _)) by lia); exists s;
      (split_and!; [done|done| |intros va ?; case_decide; [lia|done]]);
      (split; [by rewrite set_mm_id|done|done|done|done]). }
  destruct fuel as [|fuel]; [simpl in *; lia|]. cbn [length] in *.
  apply NoDup_cons in Hnd as [Hni Hnd].
  pose proof (Hup 0%nat pg eq_refl) as U. rewrite Z.mul_0_r, Z.add_0_r in U.
  cbn [uvmunmap_loop]. rewrite (proj2 (Z.ltb_lt _ _)) by lia. cbn [negb].
  rewrite (bind_ok _ _ _ _ _ (walk_lookup s root a (as_wf _ _ _ A) ltac:(lia))).
  destruct (node (view s) root (va_path a)) as [t0|] eqn:Hn.
  2:{ exfalso. pose proof (up_valid _ _ _ _ _ U) as Hv. unfold leaf in Hv. by rewrite Hn in Hv. }
  pose proof (wf_tbl _ _ (as_wf _ _ _ A) _ _ (va_path_ok a) Hn) as Ht0.
  pose proof (tbl_slot_ram t0 _ Ht0 (px_idx_ok 0 a ltac:(lia))) as Hram.
  rewrite (proj2 (Z.eqb_neq _ _)) by (destruct Hram; unfold KERNBASE in *; lia).
  rewrite (bind_ok _ _ _ _ _ (load64_run _ s Hram)).
  assert (Hleaf : ld64 (mem s) (t0 + 8 * PX 0 a) = leaf (view s) root a).
  { unfold leaf. by rewrite Hn. }
  rewrite Hleaf, (up_valid _ _ _ _ _ U). cbn [negb].
  rewrite (proj2 (Z.eqb_neq _ _) (up_leaf _ _ _ _ _ U)), (up_frame _ _ _ _ _ U).
  destruct (unmap_step s root l a pg t0 A Hh ltac:(lia) Hn U) as (Ek & A2 & U2 & Lf2).
  unfold when. rewrite (bind_ok _ _ _ _ _ Ek).
  rewrite (bind_ok _ _ _ _ _ (store64_run _ _ _ Hram)).
  set (s2 := put_mem _ (set_mm _ s)) in *.
  assert (Hh2 : L_kmem ∉ k_held s2) by exact Hh. clearbody s2.
  unfold PGSIZE. rewrite u64_small by lia.
  replace (a + 4096 * Z.of_nat (S (length pgs))) with (a + 4096 + 4096 * Z.of_nat (length pgs)) by lia.
  destruct (IH fuel s2 (pg :: l) (a + 4096)) as (s3 & E3 & A3 & U3 & Lf3);
    [exact A2|exact Hh2|by apply aligned_add|lia|lia|exact Hnd| |lia|].
  { intros i q Hq. pose proof (Hup (S i) q Hq) as [V1 V2 V3 V4 V5 V6].
    assert (q ∈ pgs) by by eapply list_elem_of_lookup_2.
    assert (q ≠ pg) by (by intros ->).
    replace (a + 4096 * Z.of_nat (S i)) with (a + 4096 + 4096 * Z.of_nat i) in * by lia.
    assert (Lq : leaf (view s2) root (a + 4096 + 4096 * Z.of_nat i) =
                 leaf (view s) root (a + 4096 + 4096 * Z.of_nat i)).
    { apply lookup_lt_Some in Hq. rewrite Lf2 by lia. rewrite decide_False; [done|].
      apply aligned_split in Ha. dlia. }
    split; rewrite ?Lq; [exact V1|exact V2|exact V3|exact V4| |].
    - eapply plain_frame; [apply U2|exact V5|]. apply not_elem_of_cons. split; [done|apply V5].
    - rewrite (un_ref _ _ _ _ _ U2); [exact V6|]. by intros ?%list_elem_of_singleton. }
  exists s3. split_and!; [exact E3| | |].
  - rewrite reverse_cons, <- app_assoc. exact A3.
  - eapply unmapped_trans; [exact U2|exact U3].
  - intros va Hva. rewrite Lf3, Lf2 by done.
    pose proof (page_of_aligned a 1 va Ha ltac:(lia)).
    repeat case_decide; try lia; done.
Qed.

Lemma uvmunmap_ok s root l a pgs :
  as_ok s root l → L_kmem ∉ k_held s →
  a mod PGSIZE = 0 → 0 ≤ a → a + 4096 * Z.of_nat (length pgs) ≤ MAXVA → NoDup pgs →
  (∀ i pg, pgs !! i = Some pg → user_page s root l (a + 4096 * Z.of_nat i) pg) →
  ∃ s',
    uvmunmap root a (Z.of_nat (length pgs)) true s = Ok tt s' ∧
    as_ok s' root (reverse pgs ++ l) ∧ unmapped s s' root l pgs ∧
    (∀ va, 0 ≤ va < MAXVA → leaf (view s') root va =
       if decide (a ≤ va < a + 4096 * Z.of_nat (length pgs)) then 0 else leaf (view s) root va).
Proof.
  intros A Hh Ha Ha0 Htop Hnd Hup. assert (HM : MAXVA = 274877906944) by done.
  unfold uvmunmap. rewrite (proj2 (Z.eqb_eq _ _) Ha). cbn [negb].
  unfold PGSIZE. rewrite u64_small by lia. rewrite (Z.mul_comm (Z.of_nat _)).
  apply uvmunmap_loop_ok; try done.
  replace (a + 4096 * Z.of_nat (length pgs) - a) with (Z.of_nat (length pgs) * 4096) by lia.
  rewrite Z.div_mul, Nat2Z.id by lia. lia.
Qed.

End map.
