(* ===== verification/VmCopy.v ===== *)
(** copyin() and copyout() of kernel/vm.c against a flat view of user memory:
    the byte a user access to [va] would reach. *)

From S2P Require Import Prelude Riscv Kstate Mem Kalloc Vm PageTable VmSpec VmMap.

Section copy.
Context {L : Layout}.

(** ** User memory *)

Definition ubyte (s : kstate) (root va : Z) : Z :=
  match xlate (view s) root va with
  | Some pa => ld8 (mem s) pa
  | None => 0
  end.

Fixpoint ubytes (s : kstate) (root va : Z) (n : nat) : list Z :=
  match n with
  | O => []
  | S n => ubyte s root va :: ubytes s root (va + 1) n
  end.

(** [va, va+len) is mapped for user access, to frames in RAM. *)
Definition readable (s : kstate) (root va len : Z) : Prop :=
  0 ≤ va ∧ va + len ≤ MAXVA ∧
  ∀ a, va ≤ a < va + len →
    has (leaf (view s) root a) PTE_V = true ∧ has (leaf (view s) root a) PTE_U = true ∧
    ram_range (PTE2PA (leaf (view s) root a)) 4096.

(** ... and in addition no such frame holds a page table, and no two user
    addresses share a byte. *)
Definition writable (s : kstate) (root va len : Z) : Prop :=
  readable s root va len ∧
  (∀ a p t, va ≤ a < va + len → path_ok p → node (view s) root p = Some t →
     t ≠ PTE2PA (leaf (view s) root a)) ∧
  (∀ a, va ≤ a < va + len → PTE2PA (leaf (view s) root a) mod PGSIZE = 0) ∧
  (∀ a a' pa, 0 ≤ a < MAXVA → va ≤ a' < va + len →
     xlate (view s) root a = Some pa → xlate (view s) root a' = Some pa → a = a').

Lemma xlate_mapped s root a :
  has (leaf (view s) root a) PTE_V = true → has (leaf (view s) root a) PTE_U = true →
  xlate (view s) root a = Some (PTE2PA (leaf (view s) root a) + a mod 4096).
Proof. intros H1 H2. unfold xlate. by rewrite H1, H2. Qed.

Lemma length_ubytes s root va n : length (ubytes s root va n) = n.
Proof. revert va. induction n; intros; simpl; auto. Qed.

Lemma lookup_ubytes s root va n i :
  (i < n)%nat → ubytes s root va n !! i = Some (ubyte s root (va + Z.of_nat i)).
Proof.
  revert va i. induction n as [|n IH]; intros va [|i] H; simpl; [lia|lia| |].
  - do 2 f_equal. lia.
  - rewrite IH by lia. do 2 f_equal. lia.
Qed.

Lemma ubytes_app s root va n1 n2 :
  ubytes s root va (n1 + n2) = ubytes s root va n1 ++ ubytes s root (va + Z.of_nat n1) n2.
Proof.
  revert va. induction n1 as [|n1 IH]; intros va; simpl.
  - f_equal. lia.
  - rewrite IH. do 3 f_equal. lia.
Qed.

(** ** walkaddr() *)

Lemma walkaddr_run s root va :
  pt_wf (view s) root → 0 ≤ va → has (leaf (view s) root va) PTE_V = true →
  has (leaf (view s) root va) PTE_U = true → va < MAXVA →
  walkaddr root va s = Ok (PTE2PA (leaf (view s) root va)) s.
Proof.
  intros WF Hva Hv Hu Hlt. unfold walkaddr. rewrite (proj2 (Z.leb_gt _ _)) by lia.
  rewrite (bind_ok _ _ _ _ _ (walk_lookup s root va WF ltac:(lia))).
  unfold leaf in *. destruct (node (view s) root (va_path va)) as [t|] eqn:Hn; [|done].
  pose proof (wf_tbl _ _ WF _ _ (va_path_ok va) Hn) as Ht.
  pose proof (tbl_slot_ram t _ Ht (px_idx_ok 0 va ltac:(lia))) as Hram.
  rewrite (proj2 (Z.eqb_neq _ _)) by (destruct Hram; unfold KERNBASE in *; lia).
  rewrite (bind_ok _ _ _ _ _ (load64_run _ s Hram)).
  change (ld64 (mem s) (t + 8 * PX 0 va)) with (view s t (PX 0 va)).
  by rewrite Hv, Hu.
Qed.

(** Where the translation is missing walkaddr() returns 0. *)
Lemma walkaddr_unmapped s root va :
  pt_wf (view s) root → 0 ≤ va < MAXVA → xlate (view s) root va = None →
  walkaddr root va s = Ok 0 s.
Proof.
  intros WF Hva Hx. unfold walkaddr. rewrite (proj2 (Z.leb_gt _ _)) by lia.
  rewrite (bind_ok _ _ _ _ _ (walk_lookup s root va WF Hva)).
  unfold xlate, leaf in Hx. destruct (node (view s) root (va_path va)) as [t|] eqn:Hn; [|done].
  pose proof (wf_tbl _ _ WF _ _ (va_path_ok va) Hn) as Ht.
  pose proof (tbl_slot_ram t _ Ht (px_idx_ok 0 va ltac:(lia))) as Hram.
  rewrite (proj2 (Z.eqb_neq _ _)) by (destruct Hram; unfold KERNBASE in *; lia).
  rewrite (bind_ok _ _ _ _ _ (load64_run _ s Hram)).
  change (ld64 (mem s) (t + 8 * PX 0 va)) with (view s t (PX 0 va)).
  destruct (has (view s t (PX 0 va)) PTE_V), (has (view s t (PX 0 va)) PTE_U); done.
Qed.

(** ** One page's worth *)

Lemma chunk_spec va len :
  0 ≤ va → 0 < len →
  let n := chunk va len in
  0 < n ≤ len ∧ va mod 4096 + n ≤ 4096 ∧
  (n = len ∨ (va mod 4096 + n = 4096 ∧ PGROUNDDOWN va + 4096 = va + n)).
Proof.
  intros Hva Hlen. unfold chunk. rewrite pgrounddown_eq. unfold PGSIZE.
  destruct (Z.ltb_spec len (4096 - (va - 4096 * (va / 4096)))); dlia.
Qed.

Lemma same_page_leaf s root va a n :
  va mod 4096 + n ≤ 4096 → va ≤ a < va + n →
  leaf (view s) root a = leaf (view s) root va.
Proof. intros. apply leaf_same_page. dlia. Qed.

(** The bytes of a page fragment, as seen by the user and in RAM. *)
Lemma ubytes_page s root va n :
  readable s root va (Z.of_nat n) → va mod 4096 + Z.of_nat n ≤ 4096 →
  ubytes s root va n = bytes (mem s) (PTE2PA (leaf (view s) root va) + va mod 4096) n.
Proof.
  intros (H0 & H1 & HR) Hn. apply list_eq. intros i.
  destruct (decide (i < n)%nat) as [Hi|Hi].
  - rewrite lookup_ubytes, lookup_bytes by done. f_equal. unfold ubyte.
    destruct (HR (va + Z.of_nat i) ltac:(lia)) as (V & U & _).
    rewrite xlate_mapped by done.
    rewrite (same_page_leaf s root va (va + Z.of_nat i) (Z.of_nat n)) by lia.
    f_equal. replace ((va + Z.of_nat i) mod 4096) with (va mod 4096 + Z.of_nat i); [lia|dlia].
  - rewrite !lookup_ge_None_2; [done|rewrite length_bytes; lia|rewrite length_ubytes; lia].
Qed.

Lemma readable_drop s root va len n :
  readable s root va len → 0 ≤ n ≤ len → readable s root (va + n) (len - n).
Proof.
  intros (H0 & H1 & HR) Hn. split_and!; [lia|lia|]. intros a Ha. apply HR. lia.
Qed.

Lemma readable_take s root va len n :
  readable s root va len → 0 ≤ n ≤ len → readable s root va n.
Proof.
  intros (H0 & H1 & HR) Hn. split_and!; [lia|lia|]. intros a Ha. apply HR. lia.
Qed.

(** The physical address of a fragment, as the copy loops compute it. *)
Lemma copy_addr s root va len :
  pt_wf (view s) root → readable s root va len → 0 < len →
  let pa := PTE2PA (leaf (view s) root va) in
  walkaddr root (PGROUNDDOWN va) s = Ok pa s ∧ pa ≠ 0 ∧
  pa + (va - PGROUNDDOWN va) = pa + va mod 4096 ∧
  ram_range (pa + va mod 4096) (chunk va len).
Proof.
  intros WF (H0 & H1 & HR) Hl pa. destruct (HR va ltac:(lia)) as (V & U & R).
  destruct (chunk_spec va len H0 Hl) as (C1 & C2 & _).
  assert (0 ≤ va mod 4096) by (apply Z.mod_pos_bound; lia).
  pose proof (pgrounddown_bounds va). split_and!.
  - rewrite walkaddr_run; rewrite ?leaf_rounddown; try done; [|lia].
    rewrite pgrounddown_eq. dlia.
  - fold pa in R. destruct R. unfold KERNBASE in *. lia.
  - rewrite pgrounddown_eq. dlia.
  - fold pa in R. destruct R. split; lia.
Qed.

(** ** copyin() *)

Lemma copyin_loop_ok s root fuel va len :
  pt_wf (view s) root → readable s root va len → 0 ≤ len →
  (0 < len → va mod 4096 + len ≤ 4096 * Z.of_nat fuel) →
  copyin_loop fuel root va len s = Ok (0, ubytes s root va (Z.to_nat len)) s.
Proof.
  intros WF. revert va len. induction fuel as [|fuel IH]; intros va len HR Hlen Hf.
  - destruct (decide (len = 0)) as [->|]; [done|].
    exfalso. pose proof (Z.mod_pos_bound va 4096). lia.
  - cbn [copyin_loop]. destruct (Z.ltb_spec 0 len) as [Hpos|Hz]; cbn [negb].
    2:{ replace len with 0 by lia. done. }
    assert (Hva : 0 ≤ va) by apply HR.
    destruct (copy_addr s root va len WF HR Hpos) as (Ew & Hnz & Ea & Hram).
    destruct (chunk_spec va len Hva Hpos) as (C1 & C2 & C3).
    set (n := chunk va len) in *.
    rewrite (bind_ok _ _ _ _ _ Ew), (proj2 (Z.eqb_neq _ _) Hnz), Ea.
    assert (Hnn : Z.of_nat (Z.to_nat n) = n) by lia.
    rewrite (bind_ok _ _ _ _ _ (memmove_from_run _ _ s ltac:(rewrite Hnn; exact Hram))).
    rewrite <- ubytes_page
      by (rewrite Hnn; first [exact C2 | eapply readable_take; [exact HR|lia]]).
    assert (Hrest : copyin_loop fuel root (u64 (PGROUNDDOWN va + PGSIZE)) (len - n) s =
      Ok (0, ubytes s root (va + n) (Z.to_nat (len - n))) s).
    { destruct C3 as [->|[C3 C4]].
      - rewrite Z.sub_diag. by destruct fuel.
      - unfold PGSIZE. rewrite C4.
        assert (va + len ≤ 274877906944) by apply HR.
        rewrite u64_small by lia. apply IH; [|lia|].
        + apply readable_drop; [done|lia].
        + intros _. rewrite <- C4, pgrounddown_eq.
          replace (4096 * (va / 4096) + 4096) with ((va / 4096 + 1) * 4096) by lia.
          rewrite Z.mod_mul by lia. lia. }
    rewrite (bind_ok _ _ _ _ _ Hrest). unfold mret, M_ret. simpl. do 2 f_equal.
    replace (Z.to_nat len) with (Z.to_nat n + Z.to_nat (len - n))%nat by lia.
    rewrite ubytes_app, Z2Nat.id by lia. done.
Qed.

Lemma copyin_ok s root va len :
  pt_wf (view s) root → readable s root va len → 0 ≤ len →
  copyin root va len s = Ok (0, ubytes s root va (Z.to_nat len)) s.
Proof.
  intros WF HR Hlen. apply copyin_loop_ok; try done. intros Hp.
  rewrite !Nat2Z.inj_succ. unfold PGSIZE. rewrite Z2Nat.id by dlia. dlia.
Qed.

(** ** copyout() *)

(** A write that spares the tables leaves the address space as it was. *)
Definition spares (s : kstate) (root : Z) (m : gmap Z Z) : Prop :=
  ∀ p t i, path_ok p → node (view s) root p = Some t → idx_ok i → entries m t i = view s t i.

Lemma spares_xlate s root m a :
  spares s root m → 0 ≤ a < MAXVA →
  xlate (view (put_mem m s)) root a = xlate (view s) root a.
Proof.
  intros Hsp Ha. unfold xlate.
  rewrite (agree_leaf (view s) (view (put_mem m s)) root a); done.
Qed.

Lemma spares_fill s root va l :
  pt_wf (view s) root → writable s root va (Z.of_nat (length l)) →
  va mod 4096 + Z.of_nat (length l) ≤ 4096 → l ≠ [] →
  spares s root (fill (mem s) (PTE2PA (leaf (view s) root va) + va mod 4096) l).
Proof.
  intros WF (HR & Htb & Hal & _) Hn Hl p t i Hp Ht Hi.
  destruct l as [|b l]; [done|]. set (f := PTE2PA (leaf (view s) root va)).
  pose proof (wf_tbl _ _ WF p t Hp Ht) as [Ha _].
  assert (Hva : va ≤ va < va + Z.of_nat (length (b :: l))) by (simpl; lia).
  pose proof (Htb va p t Hva Hp Ht) as Hne. pose proof (Hal va Hva) as Hf. fold f in Hne, Hf.
  unfold view, entries. apply ld64_ext. intros a Hr. apply ld8_fill_out.
  pose proof (Z.mod_pos_bound va 4096). unfold idx_ok in Hi.
  apply aligned_split in Ha, Hf. lia.
Qed.

Lemma writable_put s root m va len n :
  spares s root m → writable s root va len → 0 ≤ n ≤ len →
  writable (put_mem m s) root (va + n) (len - n).
Proof.
  intros Hsp ((H0 & H1 & HR) & Htb & Hal & Hinj) Hn.
  assert (Hlf : ∀ a, 0 ≤ a < MAXVA →
    leaf (view (put_mem m s)) root a = leaf (view s) root a) by (intros; by apply agree_leaf).
  split_and!.
  - split_and!; [lia|lia|]. intros a Ha. rewrite Hlf by lia. apply HR. lia.
  - intros a p t Ha Hp. rewrite (agree_nodes (view s)) by done. rewrite Hlf by lia. apply Htb; [lia|done].
  - intros a Ha. rewrite Hlf by lia. apply Hal. lia.
  - intros a a' pa Ha Ha'. rewrite !spares_xlate by (done || lia). apply Hinj; [done|lia].
Qed.

(** The user's view after a fragment has been stored. *)
Lemma ubyte_fill s root va l a :
  pt_wf (view s) root → writable s root va (Z.of_nat (length l)) →
  va mod 4096 + Z.of_nat (length l) ≤ 4096 → l ≠ [] → 0 ≤ a < MAXVA →
  xlate (view s) root a ≠ None →
  let s' := put_mem (fill (mem s) (PTE2PA (leaf (view s) root va) + va mod 4096) l) s in
  ubyte s' root a = if decide (va ≤ a < va + Z.of_nat (length l))
                    then u8 (l !!! Z.to_nat (a - va)) else ubyte s root a.
Proof.
  intros WF W Hn Hl Ha Hx s'. unfold ubyte, s'.
  rewrite spares_xlate by (done || by apply spares_fill). rewrite mem_put_mem.
  destruct W as ((H0 & H1 & HR) & _ & _ & Hinj).
  destruct (xlate (view s) root a) as [pa|] eqn:Epa; [|done]. case_decide as Hin.
  - destruct (HR a Hin) as (V & U & _). rewrite xlate_mapped in Epa by done. injection Epa as <-.
    rewrite (same_page_leaf s root va a (Z.of_nat (length l))) by lia.
    replace (PTE2PA (leaf (view s) root va) + a mod 4096)
      with (PTE2PA (leaf (view s) root va) + va mod 4096 + Z.of_nat (Z.to_nat (a - va))) by dlia.
    apply ld8_fill_in, list_lookup_lookup_total_lt. lia.
  - apply ld8_fill_out.
    destruct (decide (PTE2PA (leaf (view s) root va) + va mod 4096 ≤ pa <
      PTE2PA (leaf (view s) root va) + va mod 4096 + Z.of_nat (length l))) as [Hhit|]; [|lia].
    exfalso. set (d := pa - (PTE2PA (leaf (view s) root va) + va mod 4096)).
    destruct (HR (va + d) ltac:(lia)) as (V & U & _).
    assert (xlate (view s) root (va + d) = Some pa) as Ed.
    { rewrite xlate_mapped by done.
      rewrite (same_page_leaf s root va (va + d) (Z.of_nat (length l))) by lia.
      f_equal. replace ((va + d) mod 4096) with (va mod 4096 + d) by dlia. lia. }
    pose proof (Hinj a (va + d) pa Ha ltac:(lia) Epa Ed). lia.
Qed.

Lemma copyout_loop_ok root fuel s va src :
  pt_wf (view s) root → writable s root va (Z.of_nat (length src)) →
  (src ≠ [] → va mod 4096 + Z.of_nat (length src) ≤ 4096 * Z.of_nat fuel) →
  ∃ m, copyout_loop fuel root va src s = Ok 0 (put_mem m s) ∧ spares s root m ∧
    (∀ a, 0 ≤ a < MAXVA → xlate (view s) root a ≠ None → ubyte (put_mem m s) root a =
       if decide (va ≤ a < va + Z.of_nat (length src))
       then u8 (src !!! Z.to_nat (a - va)) else ubyte s root a).
Proof.
  revert s va src. induction fuel as [|fuel IH]; intros s va src WF W Hf;
    (destruct (decide (src = [])) as [->|Hne];
      [exists (mem s); rewrite put_mem_mem; split_and!;
        [done|done|intros; rewrite decide_False by (simpl; lia); done]|]).
  { exfalso. specialize (Hf Hne). pose proof (Z.mod_pos_bound va 4096).
    destruct src; simpl in *; [done|lia]. }
  assert (Hpos : 0 < Z.of_nat (length src)) by (destruct src; simpl in *; [done|lia]).
  assert (HR : readable s root va (Z.of_nat (length src))) by apply W.
  assert (Hva : 0 ≤ va) by apply HR.
  cbn [copyout_loop]. rewrite decide_False by done.
  destruct (copy_addr s root va _ WF HR Hpos) as (Ew & Hnz & Ea & Hram).
  destruct (chunk_spec va _ Hva Hpos) as (C1 & C2 & C3).
  set (n := chunk va (Z.of_nat (length src))) in *.
  rewrite (bind_ok _ _ _ _ _ Ew), (proj2 (Z.eqb_neq _ _) Hnz), Ea.
  set (l := take (Z.to_nat n) src).
  assert (Hll : Z.of_nat (length l) = n) by (subst l; rewrite length_take; lia).
  assert (Hlne : l ≠ []) by (intros E; rewrite E in Hll; simpl in Hll; lia).
  rewrite (bind_ok _ _ _ _ _ (memmove_to_run _ l s ltac:(by rewrite Hll))).
  set (m1 := fill _ _ l). set (s1 := put_mem m1 s).
  assert (Wl : writable s root va (Z.of_nat (length l))).
  { rewrite Hll. destruct W as (_ & Htb & Hal & Hinj).
    split_and!.
    - by eapply readable_take; [done|lia].
    - intros a p t Ha Hp Ht. apply (Htb a p t); [lia|done|done].
    - intros a Ha. apply Hal. lia.
    - intros a a' pa Ha Ha'. apply (Hinj a a' pa); [done|lia]. }
  assert (Hsp : spares s root m1) by (apply spares_fill; try done; lia).
  assert (WF1 : pt_wf (view s1) root).
  { eapply same_nodes_wf; [|exact WF]. apply agree_nodes. exact Hsp. }
  assert (W1 : writable s1 root (va + n) (Z.of_nat (length (drop (Z.to_nat n) src)))).
  { rewrite length_drop. replace (Z.of_nat (length src - Z.to_nat n)) with (Z.of_nat (length src) - n) by lia.
    apply writable_put; [done|done|lia]. }
  assert (∃ m, copyout_loop fuel root (u64 (PGROUNDDOWN va + PGSIZE)) (drop (Z.to_nat n) src) s1
      = Ok 0 (put_mem m s1) ∧ spares s1 root m ∧
    (∀ a, 0 ≤ a < MAXVA → xlate (view s1) root a ≠ None → ubyte (put_mem m s1) root a =
       if decide (va + n ≤ a < va + Z.of_nat (length src))
       then u8 (drop (Z.to_nat n) src !!! Z.to_nat (a - (va + n))) else ubyte s1 root a))
    as (m & Em & Hspm & Hb).
  { destruct C3 as [C3|[C3 C4]].
    - rewrite drop_ge by lia. exists m1. split_and!.
      + by destruct fuel.
      + done.
      + intros a Ha Hx. rewrite decide_False by lia. done.
    - unfold PGSIZE. rewrite C4.
      assert (va + Z.of_nat (length src) ≤ 274877906944) by apply HR.
      rewrite u64_small by lia.
      destruct (IH s1 (va + n) (drop (Z.to_nat n) src)) as (m & Em & Hspm & Hb); try done.
      { intros _. rewrite length_drop, <- C4, pgrounddown_eq.
        replace (4096 * (va / 4096) + 4096) with ((va / 4096 + 1) * 4096) by lia.
        rewrite Z.mod_mul by lia. specialize (Hf Hne). lia. }
      exists m. split_and!; [done|done|]. intros a Ha Hx. rewrite Hb by done.
      rewrite length_drop. repeat case_decide; try lia; done. }
  exists m. split_and!.
  - rewrite Em. done.
  - intros p t i Hp Ht Hi. rewrite (Hspm p t i); [exact (Hsp p t i Hp Ht Hi)|done| |done].
    rewrite (agree_nodes (view s)); [done|exact Hsp|done].
  - intros a Ha Hx. change (put_mem m s) with (put_mem m s1).
    rewrite Hb; [|done|unfold s1; rewrite spares_xlate; [exact Hx|exact Hsp|done]].
    destruct (decide (va + n ≤ a < va + Z.of_nat (length src))).
    + rewrite decide_True by lia. rewrite lookup_total_drop. do 2 f_equal. lia.
    + unfold s1, m1. rewrite ubyte_fill by (done || lia). rewrite Hll.
      repeat case_decide; try lia; try done. subst l. by rewrite lookup_total_take_lt by lia.
Qed.

Lemma copyout_ok s root va src :
  pt_wf (view s) root → writable s root va (Z.of_nat (length src)) →
  ∃ m, copyout root va src s = Ok 0 (put_mem m s) ∧ spares s root m ∧
    (∀ a, 0 ≤ a < MAXVA → xlate (view s) root a ≠ None → ubyte (put_mem m s) root a =
       if decide (va ≤ a < va + Z.of_nat (length src))
       then u8 (src !!! Z.to_nat (a - va)) else ubyte s root a).
Proof.
  intros WF W. apply copyout_loop_ok; try done. intros _.
  rewrite !Nat2Z.inj_succ, Nat2Z.inj_div, pgnat_eq. dlia.
Qed.

End copy.
