(* ===== verification/MemTheorems.v ===== *)
(** The theorems on physical memory and address spaces: the page allocator as a
    stack of free pages, mappages() and uvmunmap() as updates of the
    translation, copyin() and copyout() as reads and writes of user memory. *)

From S2P Require Import Prelude Riscv Kstate Mem Kalloc Vm PageTable VmSpec Machine VmMap VmCopy.

Section mem.
Context {L : Layout} {LO : LayoutOk L}.

(** C26: kalloc() pops the free list: it returns the page at the front, gives it
    reference count 1, fills it with 5s, and leaves the rest of the list, the
    counts of all other pages, all other memory and all other kernel state as
    they were. *)
Theorem kalloc_pops s pg l :
  free_list (k_mm s) (pg :: l) → L_kmem ∉ k_held s →
  ∃ s', kalloc s = Ok (4096 * pg) s' ∧ s' = set_mm (k_mm s') s ∧ free_list (k_mm s') l ∧
    r_ref (run_at (k_mm s') (run_addr pg)) = 1 ∧
    (∀ r, r ≠ run_addr pg → run_at (k_mm s') r = run_at (k_mm s) r) ∧
    (∀ a, ld8 (mem s') a = if decide (4096 * pg ≤ a < 4096 * pg + 4096) then 5 else ld8 (mem s) a).
Proof.
  intros Hf Hh. exists (set_mm (taken pg (k_mm s)) s). split_and!.
  - by eapply kalloc_run.
  - done.
  - by apply taken_free_list.
  - unfold run_at. simpl. by rewrite lookup_insert_eq.
  - intros r Hr. unfold run_at. simpl. by rewrite lookup_insert_ne.
  - intros a. apply taken_mem.
Qed.


(** When the free list is empty kalloc() does not return 0: it computes the
    page of the null descriptor, an address far above physical memory, and
    leaves the state unchanged.  No caller's test for 0 can detect it. *)
Theorem kalloc_exhausted_not_null s :
  free_list (k_mm s) [] → L_kmem ∉ k_held s →
  ∃ pa, kalloc s = Ok pa s ∧ pa ≠ 0 ∧ PHYSTOP ≤ pa < 2 ^ 64.
Proof.
  intros Hf Hh. exists kalloc_null. pose proof kalloc_null_range. split_and!; try lia.
  - by apply kalloc_oom_run.
  - unfold PHYSTOP, KERNBASE in *. lia.
Qed.

(** Kinit() puts every whole page between the end of the kernel image and
    PHYSTOP on the free list, each once, and touches nothing but memory and the
    allocator. *)
Theorem kinit_frees_all s :
  mm_freelist (k_mm s) = 0 → L_kmem ∉ k_held s →
  ∃ m l, kinit s = Ok tt (set_mm m s) ∧ free_list m l ∧
    (∀ pg, pg ∈ l ↔ l_end ≤ 4096 * pg ∧ 4096 * pg < PHYSTOP).
Proof.
  intros Hf Hh. pose proof (l_end_range (L := L)) as He.
  assert (HP : PHYSTOP = 4096 * (PHYSTOP / 4096)) by done.
  assert (Hfp : PGROUNDUP l_end = 4096 * first_page).
  { unfold first_page. rewrite pgroundup_eq by (unfold PHYSTOP, KERNBASE in *; lia).
    rewrite Z.mul_comm, Z.div_mul by lia. lia. }
  unfold kinit, _freerange, freerange_with. rewrite Hfp.
  destruct (kinit_loop s 0 (S (Z.to_nat ((PHYSTOP - 4096 * first_page) / PGSIZE)))) as (m & E & Hm).
  - lia.
  - unfold boot_pages, PGSIZE. rewrite HP at 2. rewrite <- Z.mul_sub_distr_l, (Z.mul_comm 4096).
    rewrite Z.div_mul by lia. lia.
  - done.
  - split; [done|]. split; constructor.
  - exists m, (down_from first_page boot_pages). rewrite Z.add_0_r in E. split_and!; [done..|].
    intros pg. rewrite elem_of_down_from. unfold boot_pages.
    assert (first_page ≤ PHYSTOP / 4096).
    { pose proof (pgroundup_bounds l_end). unfold PHYSTOP, KERNBASE, PGSIZE in *.
      assert (PGROUNDUP l_end < l_end + 4096) by lia. lia. }
    pose proof (pgroundup_bounds l_end). unfold PHYSTOP, KERNBASE, PGSIZE in *. lia.
Qed.

(** Memmove() within RAM copies the source bytes as they were before the
    call, whatever the overlap of the two ranges, and changes nothing else. *)
Theorem memmove_overlap dst src n s :
  ram_range dst (Z.of_nat n) → ram_range src (Z.of_nat n) →
  ∃ s', memmove dst src n s = Ok tt s' ∧ s' = put_mem (mem s') s ∧
    (∀ a, ld8 (mem s') a =
       if decide (dst ≤ a < dst + Z.of_nat n) then ld8 (mem s) (src + (a - dst)) else ld8 (mem s) a).
Proof.
  intros Hd Hs. destruct (memmove_run dst src n s Hd Hs) as (m' & E & Hc).
  exists (put_mem m' s). split_and!; [done|done|]. exact Hc.
Qed.

(** C9: mappages() of a range none of whose pages is mapped yet, on a
    well-formed address space with enough free pages, returns 0 and makes exactly the pages of [va, va+size) translate to
    consecutive frames from [pa] with permissions [perm]: every other
    translation, every page that is neither free nor a page table, and the rest
    of the kernel state are unchanged, new tables come from the free list, and
    the address space is well-formed again. *)
Theorem mappages_translates s root l va size pa perm :
  let a := PGROUNDDOWN va in
  let last := PGROUNDDOWN (va + size - 1) in
  let n := Z.to_nat ((last - a) / PGSIZE) in
  as_ok s root l → L_kmem ∉ k_held s → 0 ≤ perm < 1024 →
  0 ≤ va → 0 < size → va + size ≤ MAXVA →
  pa mod PGSIZE = 0 → 0 ≤ pa → pa + (last - a) + PGSIZE ≤ 2 ^ 56 →
  (2 * S n ≤ length l)%nat →
  (∀ v, a ≤ v < last + PGSIZE → has (leaf (view s) root v) PTE_V = false) →
  ∃ s' l',
    mappages root va size pa perm s = Ok 0 s' ∧ as_ok s' root l' ∧ grows s s' root l l' ∧
    (∀ v, a ≤ v < last + PGSIZE →
       has (leaf (view s') root v) PTE_V = true ∧
       PTE2PA (leaf (view s') root v) = pa + (PGROUNDDOWN v - a) ∧
       PTE_FLAGS (leaf (view s') root v) = Z.lor perm PTE_V) ∧
    (∀ v, 0 ≤ v < MAXVA → ¬ (a ≤ v < last + PGSIZE) → leaf (view s') root v = leaf (view s) root v).
Proof.
  intros a last n A Hh Hperm Hva Hsz Htop Hpa Hpa0 Hptop Hl Hun.
  destruct (mappages_ok s root l va size pa perm) as (s' & l' & E & A' & G & _ & Lf); try done.
  assert (HM : MAXVA = 274877906944) by done.
  assert (Hal : a mod PGSIZE = 0) by apply pgrounddown_aligned.
  assert (Hll : last mod PGSIZE = 0) by apply pgrounddown_aligned.
  assert (Hrange : 0 ≤ a ∧ last + PGSIZE ≤ MAXVA).
  { subst a last. rewrite !pgrounddown_eq. unfold PGSIZE. rewrite HM in *. dlia. }
  exists s', l'. split_and!; [done..| |].
  - intros v Hv. fold a last in Lf. rewrite Lf by lia. rewrite decide_True by done.
    assert (Hpv : 0 ≤ PGROUNDDOWN v - a ≤ last - a).
    { unfold PGSIZE in *. apply aligned_split in Hal, Hll. rewrite pgrounddown_eq. dlia. }
    assert (Hb : 0 ≤ pa + (PGROUNDDOWN v - a) < 2 ^ 56) by (unfold PGSIZE in *; lia).
    assert (Hm : (pa + (PGROUNDDOWN v - a)) mod PGSIZE = 0).
    { pose proof (pgrounddown_aligned v) as Hm. apply aligned_split in Hm, Hal, Hpa.
      unfold PGSIZE in *. dlia. }
    split_and!.
    + rewrite pte_of_has by (done || (unfold PTE_V; lia)). by rewrite orb_true_r.
    + by apply pte_of_pa.
    + rewrite pte_of_flags. apply pte_flags_pa2pte; [done|]. by apply perm_range.
  - intros v Hv Hout. fold a last in Lf. rewrite Lf by done. by rewrite decide_False.
Qed.

(** uvmunmap(..., do_free=1) of [npages] mapped user pages removes exactly
    their translations, returns their frames to the free list in order, and
    leaves the page-table tree well-formed with all its tables. *)
Theorem uvmunmap_frees s root l a pgs :
  as_ok s root l → L_kmem ∉ k_held s →
  a mod PGSIZE = 0 → 0 ≤ a → a + 4096 * Z.of_nat (length pgs) ≤ MAXVA → NoDup pgs →
  (∀ i pg, pgs !! i = Some pg → user_page s root l (a + 4096 * Z.of_nat i) pg) →
  ∃ s',
    uvmunmap root a (Z.of_nat (length pgs)) true s = Ok tt s' ∧
    as_ok s' root (reverse pgs ++ l) ∧ unmapped s s' root l pgs ∧
    (∀ va, 0 ≤ va < MAXVA → leaf (view s') root va =
       if decide (a ≤ va < a + 4096 * Z.of_nat (length pgs)) then 0 else leaf (view s) root va).
Proof. apply uvmunmap_ok. Qed.

(** C12: copyout() followed by copyin() of the same user range returns the bytes
    written; the range may span pages.  No other mapped user byte changes. *)
Theorem copyout_copyin s root va src :
  pt_wf (view s) root → writable s root va (Z.of_nat (length src)) →
  Forall (λ b, 0 ≤ b < 256) src →
  ∃ s', copyout root va src s = Ok 0 s' ∧
    copyin root va (Z.of_nat (length src)) s' = Ok (0, src) s' ∧
    (∀ a, 0 ≤ a < MAXVA → xlate (view s) root a ≠ None → ¬ (va ≤ a < va + Z.of_nat (length src)) →
       ubyte s' root a = ubyte s root a).
Proof.
  intros WF W Hb. destruct (copyout_ok s root va src WF W) as (m & E & Hsp & Hu).
  exists (put_mem m s). destruct W as ((H0 & H1 & HR) & W).
  assert (HR' : readable (put_mem m s) root va (Z.of_nat (length src))).
  { split_and!; [done..|]. intros a Ha.
    rewrite (agree_leaf (view s)) by (done || lia). by apply HR. }
  split_and!; [done| |].
  - rewrite copyin_ok; [|eapply same_nodes_wf; [by apply agree_nodes|done]|done|lia].
    rewrite Nat2Z.id. do 2 f_equal. apply list_eq. intros i.
    destruct (decide (i < length src)%nat) as [Hi|Hi].
    + rewrite lookup_ubytes by done. destruct (lookup_is_Some src i Hi) as [b Hsb]. rewrite Hsb. f_equal.
      assert (Ha : va ≤ va + Z.of_nat i < va + Z.of_nat (length src)) by lia.
      rewrite Hu; [|lia|].
      * rewrite decide_True by lia. replace (va + Z.of_nat i - va) with (Z.of_nat i) by lia.
        rewrite Nat2Z.id, (list_lookup_total_correct _ _ _ Hsb). apply u8_small.
        exact (Forall_lookup_1 _ _ _ _ Hb Hsb).
      * destruct (HR _ Ha) as (V & U & _). by rewrite xlate_mapped.
    + rewrite !lookup_ge_None_2; [done|lia|rewrite length_ubytes; lia].
  - intros a Ha Hx Hout. rewrite Hu by done. by rewrite decide_False.
Qed.

End mem.

(** ** Instances *)

(** The first machine with [FRAME] mapped at START_ADDRESS. *)
Lemma mapped_state st :
  mem st = ∅ → free_list (k_mm st) free0 → k_held st = ∅ →
  r_ref (run_at (k_mm st) (run_addr FRAME)) = 1 →
  ∃ s fl, s = set_mm (k_mm s) st ∧ as_ok s root0 fl ∧
    user_page s root0 fl START_ADDRESS FRAME ∧
    has (leaf (view s) root0 START_ADDRESS) PTE_D = false ∧
    (has (leaf (view s) root0 (START_ADDRESS + 4096)) PTE_V = false ∧
     node (view s) root0 (va_path (START_ADDRESS + 4096)) ≠ None) ∧
    leaf (view s) root0 START_ADDRESS = pte_of (4096 * FRAME) 22 ∧
    (∀ va, 0 ≤ va < MAXVA → ¬ (START_ADDRESS ≤ va < START_ADDRESS + 4096) →
       leaf (view s) root0 va = 0).
Proof.
  intros Hm Hfl Hh Hr. pose proof (as_ok0 st Hm Hfl) as A.
  assert (Hz : ∀ va, leaf (view st) root0 va = 0).
  { intros va. unfold leaf. destruct (node (view st) root0 (va_path va)) as [t|] eqn:E; [|done].
    by apply node0 in E as [? _]. }
  destruct (mappages_ok st root0 free0 START_ADDRESS 4096 (4096 * FRAME) 22)
    as (s & fl & E & As & G & _ & Lf);
    [exact A|rewrite Hh; apply not_elem_of_empty|lia|done|lia|done|done|done|done|apply Nat.leb_le; by vm_compute| |].
  { intros v _. by rewrite Hz. }
  clear E.
  assert (Hpl : plain st root0 free0 FRAME).
  { split; [vm_compute; set_solver|]. intros p t _ [-> ->]%node0; [done|done]. }
  assert (Hl : leaf (view s) root0 START_ADDRESS = pte_of (4096 * FRAME) 22).
  { rewrite Lf by done. by vm_compute. }
  assert (Hn : node (view s) root0 (va_path START_ADDRESS) ≠ None).
  { intros En. unfold leaf in Hl. by rewrite En in Hl. }
  assert (Hz' : ∀ va, 0 ≤ va < MAXVA → ¬ (START_ADDRESS ≤ va < START_ADDRESS + 4096) →
       leaf (view s) root0 va = 0).
  { intros va Hva Hout. rewrite Lf, Hz by done. by rewrite decide_False. }
  exists s, fl. split_and!; [apply G|done| |by rewrite Hl| |exact Hn|exact Hl|exact Hz'].
  - split; rewrite ?Hl; [done|done|done| |by eapply grows_plain|].
    + by vm_compute.
    + rewrite (gr_ref _ _ _ _ _ G); [done|]. vm_compute. set_solver.
  - rewrite Hz'; [done|done|]. intros [_ H]. by vm_compute in H.
Qed.

Lemma kalloc_pops_witness :
  ∃ s', kalloc st0 = Ok (4096 * 0x87001) s' ∧ free_list (k_mm s') (tail free0).
Proof.
  destruct (kalloc_pops st0 0x87001 (tail free0)) as (s' & E & _ & F & _);
    [exact free_list0|done|]. exists s'. exact (conj E F).
Defined.


(** The first machine with no free page. *)
Definition st_oom : kstate := set_mm (MM ∅ 0 ∅) st0.

Lemma free_list_oom : free_list (k_mm st_oom) [].
Proof. split; [done|]. split; constructor. Qed.

Lemma kalloc_exhausted_not_null_witness :
  ∃ pa, kalloc st_oom = Ok pa st_oom ∧ pa ≠ 0 ∧ PHYSTOP ≤ pa < 2 ^ 64.
Proof. apply (kalloc_exhausted_not_null st_oom free_list_oom). apply not_elem_of_empty. Defined.

Lemma kinit_frees_all_witness :
  ∃ m l, kinit st_oom = Ok tt (set_mm m st_oom) ∧ free_list m l ∧ 0x87fff ∈ l.
Proof.
  destruct (kinit_frees_all st_oom) as (m & l & E & F & H); [done|done|].
  exists m, l. refine (conj E (conj F _)).
  apply (proj2 (H 0x87fff)). split; [|exact eq_refl]. intros C. discriminate C.
Defined.

Lemma memmove_overlap_witness :
  ∃ s', memmove 0x80000010 0x80000008 16 st0 = Ok tt s' ∧
    ld8 (mem s') 0x80000018 = ld8 (mem st0) 0x80000010.
Proof.
  destruct (memmove_overlap 0x80000010 0x80000008 16 st0) as (s' & E & _ & H); [done|done|].
  exists s'. split; [exact E|]. by rewrite H.
Defined.

Lemma mappages_translates_witness :
  ∃ s', mappages root0 START_ADDRESS 4096 (4096 * FRAME) 22 st0 = Ok 0 s' ∧
    PTE2PA (leaf (view s') root0 START_ADDRESS) = 4096 * FRAME.
Proof.
  destruct (mappages_translates st0 root0 free0 START_ADDRESS 4096 (4096 * FRAME) 22)
    as (s' & l' & E & _ & _ & H & _);
    [apply as_ok0; [done|exact free_list0]|done|lia|done|lia|done|done|done|done
    |apply Nat.leb_le; by vm_compute| |].
  - intros v _. unfold leaf. destruct (node (view st0) root0 (va_path v)) as [t|] eqn:En; [|done].
    by apply node0 in En as [? _].
  - exists s'. split; [exact E|].
    clear E. assert (Hr : PGROUNDDOWN START_ADDRESS ≤ START_ADDRESS <
      PGROUNDDOWN (START_ADDRESS + 4096 - 1) + PGSIZE) by (split; [intros C; discriminate C|exact eq_refl]).
    pose proof (H START_ADDRESS Hr) as (_ & Hp & _). rewrite Hp. exact eq_refl.
Defined.

Lemma uvmunmap_frees_witness :
  ∃ s s' l, uvmunmap root0 START_ADDRESS 1 true s = Ok tt s' ∧ as_ok s' root0 (FRAME :: l).
Proof.
  destruct (mapped_state st1) as (s & fl & Es & A & U & _); [done|apply free_list1|done..|].
  destruct (uvmunmap_frees s root0 fl START_ADDRESS [FRAME]) as (s' & E & A' & _);
    [exact A|rewrite Es; done|done|done|done|apply NoDup_singleton| |].
  - intros [|i] pg Hpg; [|done]. injection Hpg as <-. exact U.
  - exists s, s', fl. exact (conj E A').
Defined.

(** The mapped page of such a state, as user memory. *)
Lemma mapped_writable st :
  mem st = ∅ → free_list (k_mm st) free0 → k_held st = ∅ →
  r_ref (run_at (k_mm st) (run_addr FRAME)) = 1 →
  ∃ s, s = set_mm (k_mm s) st ∧ pt_wf (view s) root0 ∧
    ∀ va len, START_ADDRESS ≤ va → va + len ≤ START_ADDRESS + 4096 → writable s root0 va len.
Proof.
  intros Hm Hfl Hh Hr.
  destruct (mapped_state st) as (s & fl & Es & A & U & _ & _ & Hl & Hz); [done..|].
  exists s. split_and!; [done|apply A|]. intros va len Hva Hlen.
  assert (Hin : ∀ a, va ≤ a < va + len → leaf (view s) root0 a = pte_of (4096 * FRAME) 22).
  { intros a Ha. rewrite <- Hl. apply leaf_same_page. unfold START_ADDRESS in *. dlia. }
  split; [|split_and!].
  - unfold START_ADDRESS in *. split_and!; [lia|change MAXVA with 274877906944; lia|]. intros a Ha. rewrite Hin by lia. done.
  - intros a p t Ha Hp Ht. rewrite Hin by lia. intros ->.
    by apply (proj2 (up_plain _ _ _ _ _ U) p _ Hp Ht).
  - intros a Ha. by rewrite Hin by lia.
  - intros a a' pa Ha Ha' H1 H2. unfold xlate in H1, H2. rewrite (Hin a') in H2 by lia.
    destruct (decide (START_ADDRESS ≤ a < START_ADDRESS + 4096)) as [Hr'|Hr'];
      [|by rewrite Hz in H1 by done].
    assert (Ea : leaf (view s) root0 a = pte_of (4096 * FRAME) 22)
      by (rewrite <-Hl; apply leaf_same_page; unfold START_ADDRESS in *; dlia).
    rewrite Ea in H1.
    change (has (pte_of (4096 * FRAME) 22) PTE_V && has (pte_of (4096 * FRAME) 22) PTE_U)
      with true in H1, H2.
    change (PTE2PA (pte_of (4096 * FRAME) 22)) with (4096 * FRAME) in H1, H2.
    injection H1 as E. injection H2 as E'. unfold START_ADDRESS in *. dlia.
Qed.

Lemma copyout_copyin_witness :
  ∃ s s', copyout root0 (START_ADDRESS + 4090) [1; 2; 3] s = Ok 0 s' ∧
    copyin root0 (START_ADDRESS + 4090) 3 s' = Ok (0, [1; 2; 3]) s'.
Proof.
  destruct (mapped_writable st1) as (s & Es & Hwf & Hw); [done|apply free_list1|done..|].
  destruct (copyout_copyin s root0 (START_ADDRESS + 4090) [1; 2; 3]) as (s' & E1 & E2 & _).
  - exact Hwf.
  - apply Hw; [lia|cbn; lia].
  - by repeat constructor.
  - exists s, s'. exact (conj E1 E2).
Defined.
