(* ===== verification/Sched.v ===== *)
(** Blocking and waking: sched, yield, sleep, wakeup and kill of kernel/proc.c,
    and the sleep locks of kernel/sleeplock.c.

    A thread that reaches sched() leaves the run with [ESched]; what happens
    until it is scheduled again is up to the other threads. *)

From S2P Require Import Prelude Riscv Kstate.

(** ** Assignments to fields of struct proc *)

Definition set_state v p := Proc v (p_chan p) (p_killed p) (p_xstate p) (p_pid p) (p_parent p)
  (p_kstack p) (p_sz p) (p_pagetable p) (p_trapframe p) (p_ofile p) (p_cwd p) (p_name p) (p_vmas p) (p_nvma p).
Definition set_chan v p := Proc (p_state p) v (p_killed p) (p_xstate p) (p_pid p) (p_parent p)
  (p_kstack p) (p_sz p) (p_pagetable p) (p_trapframe p) (p_ofile p) (p_cwd p) (p_name p) (p_vmas p) (p_nvma p).
Definition set_killed v p := Proc (p_state p) (p_chan p) v (p_xstate p) (p_pid p) (p_parent p)
  (p_kstack p) (p_sz p) (p_pagetable p) (p_trapframe p) (p_ofile p) (p_cwd p) (p_name p) (p_vmas p) (p_nvma p).
Definition set_xstate v p := Proc (p_state p) (p_chan p) (p_killed p) v (p_pid p) (p_parent p)
  (p_kstack p) (p_sz p) (p_pagetable p) (p_trapframe p) (p_ofile p) (p_cwd p) (p_name p) (p_vmas p) (p_nvma p).
Definition set_pid v p := Proc (p_state p) (p_chan p) (p_killed p) (p_xstate p) v (p_parent p)
  (p_kstack p) (p_sz p) (p_pagetable p) (p_trapframe p) (p_ofile p) (p_cwd p) (p_name p) (p_vmas p) (p_nvma p).
Definition set_parent v p := Proc (p_state p) (p_chan p) (p_killed p) (p_xstate p) (p_pid p) v
  (p_kstack p) (p_sz p) (p_pagetable p) (p_trapframe p) (p_ofile p) (p_cwd p) (p_name p) (p_vmas p) (p_nvma p).
Definition set_sz v p := Proc (p_state p) (p_chan p) (p_killed p) (p_xstate p) (p_pid p) (p_parent p)
  (p_kstack p) v (p_pagetable p) (p_trapframe p) (p_ofile p) (p_cwd p) (p_name p) (p_vmas p) (p_nvma p).
Definition set_pagetable v p := Proc (p_state p) (p_chan p) (p_killed p) (p_xstate p) (p_pid p) (p_parent p)
  (p_kstack p) (p_sz p) v (p_trapframe p) (p_ofile p) (p_cwd p) (p_name p) (p_vmas p) (p_nvma p).
Definition set_trapframe v p := Proc (p_state p) (p_chan p) (p_killed p) (p_xstate p) (p_pid p) (p_parent p)
  (p_kstack p) (p_sz p) (p_pagetable p) v (p_ofile p) (p_cwd p) (p_name p) (p_vmas p) (p_nvma p).
Definition set_ofile v p := Proc (p_state p) (p_chan p) (p_killed p) (p_xstate p) (p_pid p) (p_parent p)
  (p_kstack p) (p_sz p) (p_pagetable p) (p_trapframe p) v (p_cwd p) (p_name p) (p_vmas p) (p_nvma p).
Definition set_cwd v p := Proc (p_state p) (p_chan p) (p_killed p) (p_xstate p) (p_pid p) (p_parent p)
  (p_kstack p) (p_sz p) (p_pagetable p) (p_trapframe p) (p_ofile p) v (p_name p) (p_vmas p) (p_nvma p).
Definition set_name v p := Proc (p_state p) (p_chan p) (p_killed p) (p_xstate p) (p_pid p) (p_parent p)
  (p_kstack p) (p_sz p) (p_pagetable p) (p_trapframe p) (p_ofile p) (p_cwd p) v (p_vmas p) (p_nvma p).
Definition set_pvmas v p := Proc (p_state p) (p_chan p) (p_killed p) (p_xstate p) (p_pid p) (p_parent p)
  (p_kstack p) (p_sz p) (p_pagetable p) (p_trapframe p) (p_ofile p) (p_cwd p) (p_name p) v (p_nvma p).
Definition set_nvma v p := Proc (p_state p) (p_chan p) (p_killed p) (p_xstate p) (p_pid p) (p_parent p)
  (p_kstack p) (p_sz p) (p_pagetable p) (p_trapframe p) (p_ofile p) (p_cwd p) (p_name p) (p_vmas p) v.

(** ** sched, yield, sleep *)

(** The checks of sched() before swtch().  A hart's push_off() depth is the
    number of spinlocks it holds (Spinlock.v), and interrupts are off while it
    holds one. *)
Definition sched {A} : K A :=
  p ← myproc;
  h ← holding (L_proc p);
  if negb h then panic "sched p->lock"
  else
    held ← gets k_held;
    if negb (bool_decide (size held = 1%nat)) then panic "sched locks"
    else
      x ← proc_at p;
      if bool_decide (p_state x = RUNNING) then panic "sched running"
      else fail ESched.

Definition yield : K unit :=
  p ← myproc;
  acquire (L_proc p);;
  upd_proc p (set_state RUNNABLE);;
  sched.

Definition sleep {A} (c : chan) (lk : lockid) : K A :=
  p ← myproc;
  acquire (L_proc p);;
  release lk;;
  upd_proc p (set_chan c);;
  upd_proc p (set_state SLEEPING);;
  sched.

(** ** wakeup, kill *)

Definition wakeup (c : chan) : K unit :=
  forM (upto NPROC) (λ i,
    me ← myproc;
    if decide (i = me) then skip
    else
      acquire (L_proc i);;
      x ← proc_at i;
      when (bool_decide (p_state x = SLEEPING) && bool_decide (p_chan x = c))
        (upd_proc i (set_state RUNNABLE));;
      release (L_proc i)).

Definition kill (pid : Z) : K Z :=
  r ← findM (upto NPROC) (λ i,
    acquire (L_proc i);;
    x ← proc_at i;
    if p_pid x =? pid then
      upd_proc i (set_killed 1);;
      when (bool_decide (p_state x = SLEEPING)) (upd_proc i (set_state RUNNABLE));;
      release (L_proc i);;
      mret (Some 0)
    else
      release (L_proc i);;
      mret None);
  mret (default (-1) r).

Definition allocpid : K Z :=
  acquire L_pid;;
  pid ← gets k_nextpid;
  modify (set_nextpid (s32 (pid + 1)));;
  release L_pid;;
  mret pid.

(** ** Sleep locks (sleeplock.c), for the lock found by [get]/[put], protected
    by the spinlock [lk] and slept on as [c] *)

Section sleeplock.
Context (lk : lockid) (c : chan) (get : K sleeplock) (put : sleeplock → K unit).

Definition acquiresleep : K unit :=
  acquire lk;;
  x ← get;
  if sl_locked x then sleep c lk
  else
    p ← myproc;
    me ← proc_at p;
    put (SleepLock true (p_pid me));;
    release lk.

Definition releasesleep : K unit :=
  acquire lk;;
  put (SleepLock false 0);;
  wakeup c;;
  release lk.

Definition holdingsleep : K bool :=
  acquire lk;;
  x ← get;
  p ← myproc;
  me ← proc_at p;
  release lk;;
  mret (sl_locked x && (sl_pid x =? p_pid me)).
End sleeplock.

(** ** What wakeup() does to the process table *)

Definition woken (c : chan) (me : nat) (i : nat) (x : proc) : proc :=
  if bool_decide (i ≠ me) && bool_decide (p_state x = SLEEPING) && bool_decide (p_chan x = c)
  then set_state RUNNABLE x else x.

Definition wake (c : chan) (me : nat) (ps : list proc) : list proc := imap (woken c me) ps.

(** No other process's lock is held. *)
Definition no_proc_locks (s : kstate) : Prop :=
  ∀ i, i ≠ k_cur s → L_proc i ∉ k_held s.

(** The loop has processed the processes below [k]. *)
Definition wake_upto (c : chan) (me k : nat) (ps : list proc) : list proc :=
  imap (λ i x, if decide (i < k)%nat then woken c me i x else x) ps.

Lemma set_procs_id s : set_procs (k_procs s) s = s.
Proof. by destruct s. Qed.

Lemma wakeup_loop c s k n :
  no_proc_locks s → (k + n ≤ length (k_procs s))%nat →
  forM (seq k n) (λ i,
    me ← myproc;
    if decide (i = me) then skip
    else
      acquire (L_proc i);;
      x ← proc_at i;
      when (bool_decide (p_state x = SLEEPING) && bool_decide (p_chan x = c))
        (upd_proc i (set_state RUNNABLE));;
      release (L_proc i)) (set_procs (wake_upto c (k_cur s) k (k_procs s)) s) =
  Ok tt (set_procs (wake_upto c (k_cur s) (k + n) (k_procs s)) s).
Proof.
  intros Hh. revert k. induction n as [|n IH]; intros k Hk; cbn [seq forM].
  { by rewrite Nat.add_0_r. }
  destruct (lookup_is_Some (k_procs s) k ltac:(lia)) as [x Hx].
  assert (Hx' : wake_upto c (k_cur s) k (k_procs s) !! k = Some x).
  { unfold wake_upto. rewrite list_lookup_imap, Hx. simpl. rewrite decide_False by lia. done. }
  replace (k + S n)%nat with (S k + n)%nat by lia. rewrite <- IH by lia.
  assert (Hstep : ∀ y, y = woken c (k_cur s) k x →
    <[k := y]> (wake_upto c (k_cur s) k (k_procs s)) = wake_upto c (k_cur s) (S k) (k_procs s)).
  { intros y ->. apply list_eq. intros i. unfold wake_upto.
    destruct (decide (i = k)) as [->|Hne].
    - rewrite list_lookup_insert_eq by (rewrite length_imap; lia).
      rewrite list_lookup_imap, Hx. simpl. by rewrite decide_True by lia.
    - rewrite list_lookup_insert_ne, !list_lookup_imap by done.
      destruct (k_procs s !! i); simpl; [|done]. f_equal. repeat case_decide; lia || done. }
  assert (Hsame : woken c (k_cur s) k x = x →
    wake_upto c (k_cur s) k (k_procs s) = wake_upto c (k_cur s) (S k) (k_procs s)).
  { intros E. rewrite <- (Hstep x) by done. by rewrite list_insert_id. }
  set (ps := wake_upto c (k_cur s) k (k_procs s)) in *.
  unfold myproc. rewrite !bind_assoc. run. simpl.
  destruct (decide (k = k_cur s)) as [E|Hne].
  { rewrite Hsame; [done|]. unfold woken. by rewrite bool_decide_eq_false_2 by tauto. }
  rewrite !bind_assoc. assert (L_proc k ∉ k_held s) by auto. run_acquire.
  rewrite !bind_assoc. unfold proc_at.
  run_deref Hx'. cbv beta. rewrite !bind_assoc.
  unfold woken in *. rewrite (bool_decide_eq_true_2 (k ≠ k_cur s)) in * by done. simpl in *.
  destruct (bool_decide (p_state x = SLEEPING) && bool_decide (p_chan x = c)) eqn:Eb; simpl.
  - unfold upd_proc. run_assign Hx'. run_release. simpl. rewrite held_restore by done. rewrite (Hstep _ eq_refl). done.
  - unfold skip. run. run_release. simpl. rewrite held_restore by done. by rewrite <- Hsame.
Qed.

Lemma wakeup_run c s :
  no_proc_locks s → length (k_procs s) = NPROC →
  wakeup c s = Ok tt (set_procs (wake c (k_cur s) (k_procs s)) s).
Proof.
  intros Hh Hl. unfold wakeup.
  pose proof (wakeup_loop c s 0 NPROC Hh ltac:(lia)) as E. rewrite Nat.add_0_l in E.
  assert (wake_upto c (k_cur s) 0 (k_procs s) = k_procs s) as E0.
  { apply list_eq. intros i. unfold wake_upto. rewrite list_lookup_imap.
    destruct (k_procs s !! i); cbn; [|done]. by case_decide; [lia|]. }
  assert (wake_upto c (k_cur s) NPROC (k_procs s) = wake c (k_cur s) (k_procs s)) as E1.
  { apply list_eq. intros i. unfold wake_upto, wake. rewrite !list_lookup_imap.
    destruct (k_procs s !! i) eqn:Ei; cbn -[NPROC]; [|done].
    apply lookup_lt_Some in Ei. by rewrite decide_True by lia. }
  rewrite E0, E1, set_procs_id in E. exact E.
Qed.

Lemma wake_cur c me ps : wake c me ps !! me = ps !! me.
Proof.
  unfold wake. rewrite list_lookup_imap. destruct (ps !! me) as [x|]; simpl; [|done].
  unfold woken. by rewrite bool_decide_eq_false_2 by tauto.
Qed.

Lemma length_wake c me ps : length (wake c me ps) = length ps.
Proof. apply length_imap. Qed.
