(* ===== verification/Bytes.v ===== *)
(** Byte strings: little-endian fields of on-disk structures, and the string
    functions of kernel/string.c on character arrays.

    A character array is the list of its bytes; reading past the end of the
    list reads the terminating NUL. *)

From S2P Require Import Prelude.

(** ** Little-endian fields *)

Fixpoint le_val (l : list Z) : Z :=
  match l with
  | [] => 0
  | b :: l => b + 256 * le_val l
  end.

Fixpoint le_bytes (n : nat) (v : Z) : list Z :=
  match n with
  | O => []
  | S n => v mod 256 :: le_bytes n (v / 256)
  end.

(** The [n] bytes of [l] at [off], and storing bytes there. *)
Definition slice (l : list Z) (off n : nat) : list Z := take n (drop off l).
Definition splice (l : list Z) (off : nat) (bs : list Z) : list Z :=
  take off l ++ bs ++ drop (off + length bs) l.

Definition get_le (n : nat) (l : list Z) (off : nat) : Z := le_val (slice l off n).
Definition put_le (n : nat) (l : list Z) (off : nat) (v : Z) : list Z :=
  splice l off (le_bytes n v).

Definition get16 := get_le 2.
Definition get32 := get_le 4.
Definition get64 := get_le 8.
Definition put16 := put_le 2.
Definition put32 := put_le 4.
Definition put64 := put_le 8.

Lemma length_le_bytes n v : length (le_bytes n v) = n.
Proof. revert v. induction n; intros; simpl; auto. Qed.

Lemma le_val_bytes n v : le_val (le_bytes n v) = v mod 256 ^ Z.of_nat n.
Proof.
  revert v. induction n as [|n IH]; intros v; [by rewrite Z.mod_1_r|].
  cbn [le_val le_bytes]. rewrite IH, Nat2Z.inj_succ, Z.pow_succ_r, Z.rem_mul_r by lia. done.
Qed.

Lemma le_bytes_range n v : Forall (λ b, 0 ≤ b < 256) (le_bytes n v).
Proof.
  revert v. induction n as [|n IH]; intros v; simpl; constructor; auto.
  apply Z.mod_pos_bound. lia.
Qed.

Lemma le_val_range l :
  Forall (λ b, 0 ≤ b < 256) l → 0 ≤ le_val l < 256 ^ Z.of_nat (length l).
Proof.
  induction 1 as [|b l Hb _ IH]; [simpl; lia|].
  cbn [le_val length]. rewrite Nat2Z.inj_succ, Z.pow_succ_r by lia. nia.
Qed.

Lemma le_bytes_val l :
  Forall (λ b, 0 ≤ b < 256) l → le_bytes (length l) (le_val l) = l.
Proof.
  induction 1 as [|b l Hb _ IH]; [done|]. cbn [le_val length le_bytes].
  rewrite (Z.mul_comm 256), Z.mod_add, Z.div_add, Z.mod_small, Z.div_small by lia.
  by rewrite Z.add_0_l, IH.
Qed.

Lemma length_splice l off bs :
  (off + length bs ≤ length l)%nat → length (splice l off bs) = length l.
Proof. intros. unfold splice. rewrite !length_app, length_take, length_drop. lia. Qed.

Lemma slice_splice_same l off bs :
  (off + length bs ≤ length l)%nat → slice (splice l off bs) off (length bs) = bs.
Proof.
  intros. unfold slice, splice.
  rewrite drop_app_length' by (rewrite length_take; lia).
  by rewrite take_app_length.
Qed.

Lemma lookup_splice l off bs i :
  (off + length bs ≤ length l)%nat →
  splice l off bs !! i =
  if decide (off ≤ i < off + length bs)%nat then bs !! (i - off)%nat else l !! i.
Proof.
  intros H. unfold splice. case_decide as Hi.
  - rewrite lookup_app_r by (rewrite length_take; lia).
    rewrite length_take, Nat.min_l by lia. by rewrite lookup_app_l by lia.
  - destruct (decide (i < off)%nat).
    + rewrite lookup_app_l by (rewrite length_take; lia). by rewrite lookup_take_lt.
    + rewrite lookup_app_r by (rewrite length_take; lia).
      rewrite length_take, Nat.min_l by lia.
      rewrite lookup_app_r by lia. rewrite lookup_drop. f_equal. lia.
Qed.

Lemma lookup_slice l off n i :
  slice l off n !! i = if decide (i < n)%nat then l !! (off + i)%nat else None.
Proof.
  unfold slice. case_decide.
  - by rewrite lookup_take_lt, lookup_drop.
  - rewrite lookup_take_ge; [done|lia].
Qed.

Lemma slice_splice_ne l off bs off' n :
  (off + length bs ≤ length l)%nat → (off' + n ≤ off ∨ off + length bs ≤ off')%nat →
  slice (splice l off bs) off' n = slice l off' n.
Proof.
  intros H Hd. apply list_eq. intros i. rewrite !lookup_slice. case_decide; [|done].
  rewrite lookup_splice by done. by rewrite decide_False by lia.
Qed.

Lemma get_put_same n l off v :
  (off + n ≤ length l)%nat → get_le n (put_le n l off v) off = v mod 256 ^ Z.of_nat n.
Proof.
  intros H. unfold get_le, put_le.
  pose proof (slice_splice_same l off (le_bytes n v)) as E. rewrite length_le_bytes in E.
  rewrite E by done. apply le_val_bytes.
Qed.

Lemma get_put_ne n l off v n' off' :
  (off + n ≤ length l)%nat → (off' + n' ≤ off ∨ off + n ≤ off')%nat →
  get_le n' (put_le n l off v) off' = get_le n' l off'.
Proof.
  intros H Hd. unfold get_le, put_le.
  rewrite slice_splice_ne; [done|by rewrite length_le_bytes..].
Qed.

Lemma length_put n l off v :
  (off + n ≤ length l)%nat → length (put_le n l off v) = length l.
Proof. intros. apply length_splice. by rewrite length_le_bytes. Qed.

(** ** kernel/string.c on character arrays *)

Fixpoint memcmp (v1 v2 : list Z) (n : nat) : Z :=
  match n with
  | O => 0
  | S n =>
      if negb (hd 0 v1 =? hd 0 v2) then hd 0 v1 - hd 0 v2
      else memcmp (tl v1) (tl v2) n
  end.

Fixpoint strncmp (p q : list Z) (n : nat) : Z :=
  match n with
  | O => 0
  | S n =>
      if negb (hd 0 p =? 0) && (hd 0 p =? hd 0 q) then strncmp (tl p) (tl q) n
      else hd 0 p - hd 0 q
  end.

(** The [n] bytes strncpy() stores. *)
Fixpoint strncpy (t : list Z) (n : nat) : list Z :=
  match n with
  | O => []
  | S n =>
      let c := hd 0 t in
      c :: (if c =? 0 then replicate n 0 else strncpy (tl t) n)
  end.

(** The bytes safestrcpy() stores, [n] being the value of [--n]: after copying
    a NUL the pointer has moved past it and [*s = 0] stores a second one. *)
Fixpoint safestrcpy_bytes (t : list Z) (n : nat) : list Z :=
  match n with
  | O => [0]
  | S n =>
      let c := hd 0 t in
      if c =? 0 then [c; 0] else c :: safestrcpy_bytes (tl t) n
  end.

(** The new contents of the array [s]. *)
Definition safestrcpy (s t : list Z) (n : Z) : list Z :=
  if n <=? 0 then s
  else
    let w := safestrcpy_bytes t (Z.to_nat (n - 1)) in
    w ++ drop (length w) s.

Fixpoint strlen (s : list Z) : Z :=
  match s with
  | [] => 0
  | c :: s => if c =? 0 then 0 else 1 + strlen s
  end.

(** The C string an array holds: its bytes before the first NUL. *)
Fixpoint cstr (s : list Z) : list Z :=
  match s with
  | [] => []
  | c :: s => if c =? 0 then [] else c :: cstr s
  end.

Lemma strlen_cstr s : strlen s = Z.of_nat (length (cstr s)).
Proof.
  induction s as [|c s IH]; simpl; [done|]. destruct (c =? 0); [done|].
  rewrite IH. simpl length. lia.
Qed.

Lemma length_strncpy t n : length (strncpy t n) = n.
Proof.
  revert t. induction n as [|n IH]; intros t; simpl; [done|].
  f_equal. destruct (hd 0 t =? 0); [apply length_replicate|apply IH].
Qed.

Lemma cstr_hd s : cstr s = if hd 0 s =? 0 then [] else hd 0 s :: cstr (tl s).
Proof. by destruct s as [|c s]. Qed.

(** strncpy() stores the string, cut at [n] bytes, and pads with NULs. *)
Lemma strncpy_spec t n :
  strncpy t n = take n (cstr t) ++ replicate (n - length (cstr t)) 0.
Proof.
  revert t. induction n as [|n IH]; intros t; [done|].
  cbn [strncpy]. rewrite (cstr_hd t).
  destruct (Z.eqb_spec (hd 0 t) 0) as [E|E]; simpl; [by rewrite E|].
  by rewrite IH.
Qed.

(** strncmp() is 0 exactly when the two strings agree on their first [n]
    characters. *)
Lemma strncmp_spec p q n :
  strncmp p q n = 0 ↔ take n (cstr p) = take n (cstr q).
Proof.
  revert p q. induction n as [|n IH]; intros p q; [done|].
  cbn [strncmp]. rewrite (cstr_hd p), (cstr_hd q).
  destruct (Z.eqb_spec (hd 0 p) 0) as [Ep|Ep]; simpl.
  - destruct (Z.eqb_spec (hd 0 q) 0) as [Eq|Eq]; simpl; [split; intros; [done|lia]|].
    split; [lia|done].
  - destruct (Z.eqb_spec (hd 0 p) (hd 0 q)) as [E|E].
    + rewrite IH. rewrite E in *. destruct (Z.eqb_spec (hd 0 q) 0); [done|]. simpl.
      split; congruence.
    + destruct (Z.eqb_spec (hd 0 q) 0) as [Eq|Eq]; simpl; split; try done; try lia; congruence.
Qed.

Lemma cstr_app_nul l k : Forall (λ c, c ≠ 0) l → cstr (l ++ replicate k 0) = l.
Proof.
  induction 1 as [|c l Hc _ IH]; simpl; [by destruct k|].
  destruct (Z.eqb_spec c 0); [done|]. by rewrite IH.
Qed.

Lemma cstr_nonzero s : Forall (λ c, c ≠ 0) (cstr s).
Proof.
  induction s as [|c s IH]; simpl; [constructor|].
  destruct (Z.eqb_spec c 0); [constructor|by constructor].
Qed.

Lemma Forall_take_cstr s n : Forall (λ c, c ≠ 0) (take n (cstr s)).
Proof. apply Forall_take, cstr_nonzero. Qed.

Lemma cstr_strncpy t n : cstr (strncpy t n) = take n (cstr t).
Proof. rewrite strncpy_spec. apply cstr_app_nul, Forall_take_cstr. Qed.

(** A name stored by strncpy() compares equal to the original. *)
Lemma strncmp_strncpy t n : strncmp t (strncpy t n) n = 0.
Proof. apply strncmp_spec. by rewrite cstr_strncpy, take_take, Nat.min_id. Qed.

Lemma memcmp_spec v1 v2 n :
  length v1 = n → length v2 = n → (memcmp v1 v2 n = 0 ↔ v1 = v2).
Proof.
  revert v1 v2. induction n as [|n IH]; intros [|a v1] [|b v2] H1 H2; simplify_eq/=; [done|].
  destruct (Z.eqb_spec a b) as [->|E]; simpl.
  - rewrite IH by done. split; congruence.
  - split; [lia|congruence].
Qed.

Lemma safestrcpy_bytes_length t n :
  (0 < length (safestrcpy_bytes t n) ≤ S n)%nat.
Proof.
  revert t. induction n as [|n IH]; intros t; simpl; [lia|].
  destruct (hd 0 t =? 0); simpl; [lia|]. specialize (IH (tl t)). lia.
Qed.

Lemma safestrcpy_bytes_cstr t n l : cstr (safestrcpy_bytes t n ++ l) = take n (cstr t).
Proof.
  revert t. induction n as [|n IH]; intros t; [done|].
  cbn [safestrcpy_bytes]. rewrite (cstr_hd t).
  destruct (Z.eqb_spec (hd 0 t) 0) as [E|E]; simpl.
  - by rewrite E.
  - destruct (Z.eqb_spec (hd 0 t) 0); [done|]. by rewrite IH.
Qed.

(** safestrcpy() leaves the string cut at [n - 1] characters, terminated, and
    never stores past the end of the array. *)
Lemma safestrcpy_spec s t n :
  0 < n ≤ Z.of_nat (length s) →
  cstr (safestrcpy s t n) = take (Z.to_nat (n - 1)) (cstr t) ∧
  length (safestrcpy s t n) = length s.
Proof.
  intros Hn. unfold safestrcpy. destruct (Z.leb_spec n 0); [lia|].
  split; [apply safestrcpy_bytes_cstr|].
  pose proof (safestrcpy_bytes_length t (Z.to_nat (n - 1))).
  rewrite length_app, length_drop. lia.
Qed.
