(* ===== verification/Bio.v ===== *)
(** kernel/bio.c: the buffer cache.

    bcache.buf and bcache.head are one array of [NBUF + 1] buffers, the head at
    index [NBUF]; list pointers are indices.

    The block device is seen through virtio_disk_rw(): the transfer of one
    block between a buffer and the disk, during which the calling thread
    sleeps.  The model completes the transfer in place, after the checks that
    sleep() and sched() make on the way to giving up the CPU; the descriptor
    rings and the interrupt handler of virtio_disk.c are not modelled. *)

From S2P Require Import Prelude Riscv Kstate Sched.

(** ** fs.h and buf.h *)

Definition BSIZE : Z := 1024.
(** BSIZE as an array length. *)
Definition BNAT : nat := Z.to_nat BSIZE.

Definition set_bvalid v b := Buf v (b_dev b) (b_blockno b) (b_lock b) (b_refcnt b) (b_prev b) (b_next b) (b_data b).
Definition set_bdev v b := Buf (b_valid b) v (b_blockno b) (b_lock b) (b_refcnt b) (b_prev b) (b_next b) (b_data b).
Definition set_blockno v b := Buf (b_valid b) (b_dev b) v (b_lock b) (b_refcnt b) (b_prev b) (b_next b) (b_data b).
Definition set_block v b := Buf (b_valid b) (b_dev b) (b_blockno b) v (b_refcnt b) (b_prev b) (b_next b) (b_data b).
Definition set_refcnt v b := Buf (b_valid b) (b_dev b) (b_blockno b) (b_lock b) v (b_prev b) (b_next b) (b_data b).
Definition set_prev v b := Buf (b_valid b) (b_dev b) (b_blockno b) (b_lock b) (b_refcnt b) v (b_next b) (b_data b).
Definition set_next v b := Buf (b_valid b) (b_dev b) (b_blockno b) (b_lock b) (b_refcnt b) (b_prev b) v (b_data b).
Definition set_data v b := Buf (b_valid b) (b_dev b) (b_blockno b) (b_lock b) (b_refcnt b) (b_prev b) (b_next b) v.

Definition k_bufs (s : kstate) : list buf := io_bufs (k_io s).
Definition set_kbufs (l : list buf) (s : kstate) : kstate := set_io (set_bufs l (k_io s)) s.

Definition buf_at (b : nat) : K buf := deref k_bufs (Some b).
Definition upd_buf (b : nat) (f : buf → buf) : K unit := assign k_bufs set_kbufs (Some b) f.

Definition head : nat := NBUF.

(** ** The block device *)

(** The conditions under which a thread may sleep on an object whose lock it
    has just taken: sleep() takes p->lock, and sched() insists that no other
    lock is held. *)
Definition may_sleep : K unit :=
  p ← myproc;
  h ← gets k_held;
  if decide (L_proc p ∈ h) then panic "acquire"
  else if decide (h = ∅) then skip
  else panic "sched locks".

Definition zero_block : list Z := replicate BNAT 0.
(** What a read of block [bno] returns: the latest write of it. *)
Fixpoint disk_block (d : list (Z * list Z)) (bno : Z) : list Z :=
  match d with
  | [] => zero_block
  | (b, data) :: d => if b =? bno then data else disk_block d bno
  end.

Definition virtio_disk_rw (b : nat) (write : bool) : K unit :=
  may_sleep;;
  x ← buf_at b;
  if write then upd_io (λ i, set_disk ((b_blockno x, b_data x) :: io_disk i) i)
  else
    d ← gets (λ s, disk_block (io_disk (k_io s)) (b_blockno x));
    upd_buf b (set_data d).

(** ** bio.c *)

(** The list surgery shared by binit() and brelse():
    [b->next = head.next; b->prev = &head; head.next->prev = b; head.next = b;] *)
Definition link_front (b : nat) : K unit :=
  h ← buf_at head;
  upd_buf b (set_next (b_next h));;
  upd_buf b (set_prev head);;
  h ← buf_at head;
  upd_buf (b_next h) (set_prev b);;
  upd_buf head (set_next b).

Definition binit : K unit :=
  upd_buf head (set_prev head);;
  upd_buf head (set_next head);;
  forM (upto NBUF) (λ b,
    upd_buf b (set_block (SleepLock false 0));;
    link_front b).

Definition bacquire (b : nat) : K unit :=
  acquiresleep (L_buf b) (C_buf b) (x ← buf_at b; mret (b_lock x)) (λ l, upd_buf b (set_block l)).
Definition bholding (b : nat) : K bool :=
  holdingsleep (L_buf b) (x ← buf_at b; mret (b_lock x)).
Definition brelease (b : nat) : K unit :=
  releasesleep (L_buf b) (C_buf b) (λ l, upd_buf b (set_block l)).

(** for(b = head.next; b != &head; b = b->next) if(b->dev == dev && ...) *)
Fixpoint bget_cached (fuel : nat) (dev blockno : Z) (b : nat) : K (option nat) :=
  if decide (b = head) then mret None
  else
    match fuel with
    | O => fail EFuel
    | S fuel =>
        x ← buf_at b;
        if (b_dev x =? dev) && (b_blockno x =? blockno) then mret (Some b)
        else bget_cached fuel dev blockno (b_next x)
    end.

(** for(b = head.prev; b != &head; b = b->prev) if(b->refcnt == 0) *)
Fixpoint bget_unused (fuel : nat) (b : nat) : K (option nat) :=
  if decide (b = head) then mret None
  else
    match fuel with
    | O => fail EFuel
    | S fuel =>
        x ← buf_at b;
        if b_refcnt x =? 0 then mret (Some b)
        else bget_unused fuel (b_prev x)
    end.

Definition bget (dev blockno : Z) : K nat :=
  acquire L_bcache;;
  h ← buf_at head;
  c ← bget_cached NBUF dev blockno (b_next h);
  match c with
  | Some b =>
      x ← buf_at b;
      upd_buf b (set_refcnt (u32 (b_refcnt x + 1)));;
      release L_bcache;;
      bacquire b;;
      mret b
  | None =>
      h ← buf_at head;
      u ← bget_unused NBUF (b_prev h);
      match u with
      | Some b =>
          upd_buf b (set_bdev dev);;
          upd_buf b (set_blockno blockno);;
          upd_buf b (set_bvalid false);;
          upd_buf b (set_refcnt 1);;
          release L_bcache;;
          bacquire b;;
          mret b
      | None => panic "bget: no buffers"
      end
  end.

Definition bread (dev blockno : Z) : K nat :=
  b ← bget dev blockno;
  x ← buf_at b;
  when (negb (b_valid x))
    (virtio_disk_rw b false;; upd_buf b (set_bvalid true));;
  mret b.

Definition bwrite (b : nat) : K unit :=
  h ← bholding b;
  if negb h then panic "bwrite"
  else virtio_disk_rw b true.

Definition brelse (b : nat) : K unit :=
  h ← bholding b;
  if negb h then panic "brelse"
  else
    brelease b;;
    acquire L_bcache;;
    x ← buf_at b;
    upd_buf b (set_refcnt (u32 (b_refcnt x - 1)));;
    x ← buf_at b;
    when (b_refcnt x =? 0)
      (upd_buf (b_next x) (set_prev (b_prev x));;
       x ← buf_at b;
       upd_buf (b_prev x) (set_next (b_next x));;
       link_front b);;
    release L_bcache.

Definition bpin (b : nat) : K unit :=
  acquire L_bcache;;
  x ← buf_at b;
  upd_buf b (set_refcnt (u32 (b_refcnt x + 1)));;
  release L_bcache.

Definition bunpin (b : nat) : K unit :=
  acquire L_bcache;;
  x ← buf_at b;
  upd_buf b (set_refcnt (u32 (b_refcnt x - 1)));;
  release L_bcache.
