(* ===== verification/Log.v ===== *)
(** kernel/log.c: the write-ahead redo log. *)

From S2P Require Import Prelude Riscv Kstate Sched Bytes Bio.

Definition get_log : K log := gets (λ s, io_log (k_io s)).
Definition upd_log (f : log → log) : K unit := upd_io (λ i, set_log (f (io_log i)) i).

Definition set_lstart v l := Log v (lg_size l) (lg_outstanding l) (lg_committing l) (lg_dev l) (lg_n l) (lg_block l).
Definition set_lsize v l := Log (lg_start l) v (lg_outstanding l) (lg_committing l) (lg_dev l) (lg_n l) (lg_block l).
Definition set_outstanding v l := Log (lg_start l) (lg_size l) v (lg_committing l) (lg_dev l) (lg_n l) (lg_block l).
Definition set_committing v l := Log (lg_start l) (lg_size l) (lg_outstanding l) v (lg_dev l) (lg_n l) (lg_block l).
Definition set_ldev v l := Log (lg_start l) (lg_size l) (lg_outstanding l) (lg_committing l) v (lg_n l) (lg_block l).
Definition set_n v l := Log (lg_start l) (lg_size l) (lg_outstanding l) (lg_committing l) (lg_dev l) v (lg_block l).
Definition set_lblock v l := Log (lg_start l) (lg_size l) (lg_outstanding l) (lg_committing l) (lg_dev l) (lg_n l) v.

(** [log.lh.block[i]], an array of LOGSIZE ints: an access past it is outside
    the object. *)
Definition lh_block (i : nat) : K Z :=
  l ← get_log;
  match lg_block l !! i with
  | Some b => mret b
  | None => fail (EFault (-1))
  end.

Definition set_lh_block (i : nat) (v : Z) : K unit :=
  lh_block i;;
  upd_log (λ l, set_lblock (<[i := s32 v]> (lg_block l)) l).

(** memmove(b->data, src->data, BSIZE) between buffers *)
Definition copy_block (dst src : nat) : K unit :=
  x ← buf_at src;
  upd_buf dst (set_data (b_data x)).

(** The iterations of [for(tail = 0; tail < log.lh.n; tail++)]. *)
Definition tails (l : log) : list nat := upto (Z.to_nat (lg_n l)).

Definition install_trans (recovering : bool) : K unit :=
  l ← get_log;
  forM (tails l) (λ tail,
    l ← get_log;
    lbuf ← bread (u32 (lg_dev l)) (u32 (lg_start l + Z.of_nat tail + 1));
    bno ← lh_block tail;
    dbuf ← bread (u32 (lg_dev l)) (u32 bno);
    copy_block dbuf lbuf;;
    bwrite dbuf;;
    when (negb recovering) (bunpin dbuf);;
    brelse lbuf;;
    brelse dbuf).

(** struct logheader in a block: [n] at byte 0, [block[i]] at byte 4 + 4i. *)
Definition hdr_n (d : list Z) : Z := s32 (get32 d 0).
Definition hdr_block (d : list Z) (i : nat) : Z := s32 (get32 d (4 + 4 * i)).

Definition read_head : K unit :=
  l ← get_log;
  b ← bread (u32 (lg_dev l)) (u32 (lg_start l));
  x ← buf_at b;
  upd_log (set_n (hdr_n (b_data x)));;
  l ← get_log;
  forM (tails l) (λ i, set_lh_block i (hdr_block (b_data x) i));;
  brelse b.

Definition write_head : K unit :=
  l ← get_log;
  b ← bread (u32 (lg_dev l)) (u32 (lg_start l));
  upd_buf b (λ x, set_data (put32 (b_data x) 0 (lg_n l)) x);;
  forM (tails l) (λ i,
    v ← lh_block i;
    upd_buf b (λ x, set_data (put32 (b_data x) (4 + 4 * i) v) x));;
  bwrite b;;
  brelse b.

Definition recover_from_log : K unit :=
  read_head;;
  install_trans true;;
  upd_log (set_n 0);;
  write_head.

(** sizeof(struct logheader) *)
Definition sizeof_logheader : Z := 4 * (1 + LOGSIZE).

Definition initlog (dev : Z) (sb : superblock) : K unit :=
  if BSIZE <=? sizeof_logheader then panic "initlog: too big logheader"
  else
    upd_log (set_lstart (s32 (sb_logstart sb)));;
    upd_log (set_lsize (s32 (sb_nlog sb)));;
    upd_log (set_ldev dev);;
    recover_from_log.

Definition begin_op : K unit :=
  acquire L_log;;
  l ← get_log;
  if lg_committing l then sleep C_log L_log
  else if LOGSIZE <? lg_n l + (lg_outstanding l + 1) * MAXOPBLOCKS then sleep C_log L_log
  else
    upd_log (set_outstanding (lg_outstanding l + 1));;
    release L_log.

Definition write_log : K unit :=
  l ← get_log;
  forM (tails l) (λ tail,
    l ← get_log;
    to ← bread (u32 (lg_dev l)) (u32 (lg_start l + Z.of_nat tail + 1));
    bno ← lh_block tail;
    from ← bread (u32 (lg_dev l)) (u32 bno);
    copy_block to from;;
    bwrite to;;
    brelse from;;
    brelse to).

Definition commit : K unit :=
  l ← get_log;
  when (0 <? lg_n l)
    (write_log;;
     write_head;;
     install_trans false;;
     upd_log (set_n 0);;
     write_head).

Definition end_op : K unit :=
  acquire L_log;;
  upd_log (λ l, set_outstanding (lg_outstanding l - 1) l);;
  l ← get_log;
  if lg_committing l then panic "log.committing"
  else
    do_commit ←
      (if lg_outstanding l =? 0
       then upd_log (set_committing true);; mret true
       else wakeup C_log;; mret false);
    release L_log;;
    when do_commit
      (commit;;
       acquire L_log;;
       upd_log (set_committing false);;
       wakeup C_log;;
       release L_log).

(** for(i = 0; i < log.lh.n; i++) if(log.lh.block[i] == b->blockno) break;
    (the int and the uint are compared as unsigned) *)
Fixpoint find_logged (n : nat) (blocks : list Z) (bno : Z) : nat :=
  match n, blocks with
  | S n, x :: blocks => if u32 x =? bno then O else S (find_logged n blocks bno)
  | _, _ => O
  end.

Definition log_write (b : nat) : K unit :=
  acquire L_log;;
  l ← get_log;
  if (LOGSIZE <=? lg_n l) || (lg_size l - 1 <=? lg_n l) then panic "too big a transaction"
  else if lg_outstanding l <? 1 then panic "log_write outside of trans"
  else
    x ← buf_at b;
    let i := find_logged (Z.to_nat (lg_n l)) (lg_block l) (b_blockno x) in
    set_lh_block i (b_blockno x);;
    when (Z.of_nat i =? lg_n l)
      (bpin b;;
       upd_log (λ l, set_n (lg_n l + 1) l));;
    release L_log.
