(* ===== verification/Fs.v ===== *)
(** kernel/fs.c: block allocator, inodes, file contents, directories, paths;
    with either_copyin() and either_copyout() of kernel/proc.c, through which
    file contents move. *)

From S2P Require Import Prelude Riscv Kstate Mem Kalloc Vm Sched Bytes Bio Log.

Section fs.
Context {L : Layout}.

(** ** fs.h and stat.h *)

Definition ROOTINO : Z := 1.
Definition FSMAGIC : Z := 0x10203040.
Definition NDIRECT : Z := 12.
Definition NINDIRECT : Z := BSIZE / 4.
Definition MAXFILE : Z := NDIRECT + NINDIRECT.
(** sizeof(struct dinode) *)
Definition DINODE : Z := 64.
Definition IPB : Z := BSIZE / DINODE.
Definition IBLOCK (i : Z) (sb : superblock) : Z := u32 (i / IPB + sb_inodestart sb).
Definition BPB : Z := BSIZE * 8.
Definition BBLOCK (b : Z) (sb : superblock) : Z := u32 (b / BPB + sb_bmapstart sb).
Definition DIRSIZ : nat := 14.
(** sizeof(struct dirent) *)
Definition DIRENT : Z := 16.
Definition T_DIR : Z := 1.
Definition T_FILE : Z := 2.
Definition T_DEVICE : Z := 3.

(** ** Assignments to fields of struct inode *)

Definition set_idev v i := Inode v (i_inum i) (i_ref i) (i_lock i) (i_valid i) (i_type i) (i_major i) (i_minor i) (i_nlink i) (i_size i) (i_addrs i).
Definition set_inum v i := Inode (i_dev i) v (i_ref i) (i_lock i) (i_valid i) (i_type i) (i_major i) (i_minor i) (i_nlink i) (i_size i) (i_addrs i).
Definition set_iref v i := Inode (i_dev i) (i_inum i) v (i_lock i) (i_valid i) (i_type i) (i_major i) (i_minor i) (i_nlink i) (i_size i) (i_addrs i).
Definition set_ilock v i := Inode (i_dev i) (i_inum i) (i_ref i) v (i_valid i) (i_type i) (i_major i) (i_minor i) (i_nlink i) (i_size i) (i_addrs i).
Definition set_ivalid v i := Inode (i_dev i) (i_inum i) (i_ref i) (i_lock i) v (i_type i) (i_major i) (i_minor i) (i_nlink i) (i_size i) (i_addrs i).
Definition set_itype v i := Inode (i_dev i) (i_inum i) (i_ref i) (i_lock i) (i_valid i) v (i_major i) (i_minor i) (i_nlink i) (i_size i) (i_addrs i).
Definition set_imajor v i := Inode (i_dev i) (i_inum i) (i_ref i) (i_lock i) (i_valid i) (i_type i) v (i_minor i) (i_nlink i) (i_size i) (i_addrs i).
Definition set_iminor v i := Inode (i_dev i) (i_inum i) (i_ref i) (i_lock i) (i_valid i) (i_type i) (i_major i) v (i_nlink i) (i_size i) (i_addrs i).
Definition set_nlink v i := Inode (i_dev i) (i_inum i) (i_ref i) (i_lock i) (i_valid i) (i_type i) (i_major i) (i_minor i) v (i_size i) (i_addrs i).
Definition set_isize v i := Inode (i_dev i) (i_inum i) (i_ref i) (i_lock i) (i_valid i) (i_type i) (i_major i) (i_minor i) (i_nlink i) v (i_addrs i).
Definition set_addrs v i := Inode (i_dev i) (i_inum i) (i_ref i) (i_lock i) (i_valid i) (i_type i) (i_major i) (i_minor i) (i_nlink i) (i_size i) v.

Definition get_sb : K superblock := gets (λ s, io_sb (k_io s)).

(** ** either_copyout(), either_copyin() of proc.c *)

(** Where file contents go: a user address, RAM, or a variable of the calling
    kernel function (whose new contents the caller gets as a result). *)
Inductive dest : Type := ToUser (va : Z) | ToRam (pa : Z) | ToLocal.
(** Where they come from: a user address or a variable of the caller. *)
Inductive source : Type := FromUser (va : Z) | FromLocal (bs : list Z).

Definition dest_add (d : dest) (m : Z) : dest :=
  match d with
  | ToUser va => ToUser (u64 (va + m))
  | ToRam pa => ToRam (u64 (pa + m))
  | ToLocal => ToLocal
  end.
Definition source_add (s : source) (m : Z) : source :=
  match s with
  | FromUser va => FromUser (u64 (va + m))
  | FromLocal bs => FromLocal (drop (Z.to_nat m) bs)
  end.

Definition either_copyout (dst : dest) (src : list Z) : K Z :=
  p ← myproc;
  match dst with
  | ToUser va => x ← proc_at p; copyout (p_pagetable x) va src
  | ToRam pa => memmove_to pa src;; mret 0
  | ToLocal => mret 0
  end.

(** The return value and the bytes stored to the destination. *)
Definition either_copyin (src : source) (len : Z) : K (Z * list Z) :=
  p ← myproc;
  match src with
  | FromUser va => x ← proc_at p; copyin (p_pagetable x) va len
  | FromLocal bs => mret (0, take (Z.to_nat len) bs)
  end.

(** ** Superblock *)

Definition parse_sb (d : list Z) : superblock :=
  Superblock (get32 d 0) (get32 d 4) (get32 d 8) (get32 d 12)
             (get32 d 16) (get32 d 20) (get32 d 24) (get32 d 28).

Definition readsb (dev : Z) : K unit :=
  bp ← bread (u32 dev) 1;
  x ← buf_at bp;
  upd_io (set_sb (parse_sb (b_data x)));;
  brelse bp.

Definition fsinit (dev : Z) : K unit :=
  readsb dev;;
  sb ← get_sb;
  if negb (sb_magic sb =? FSMAGIC) then panic "invalid file system"
  else initlog dev sb.

(** ** Blocks *)

Definition bzero (dev bno : Z) : K unit :=
  bp ← bread (u32 dev) (u32 bno);
  upd_buf bp (set_data zero_block);;
  log_write bp;;
  brelse bp.

(** Bit [bi] of a bitmap block, and the block with that byte replaced. *)
Definition bit_byte (d : list Z) (bi : Z) : Z := nth (Z.to_nat (bi / 8)) d 0.
Definition bit_mask (bi : Z) : Z := Z.shiftl 1 (bi mod 8).
Definition bit_get (d : list Z) (bi : Z) : bool := negb (Z.land (bit_byte d bi) (bit_mask bi) =? 0).
Definition bit_set (d : list Z) (bi : Z) : list Z :=
  <[Z.to_nat (bi / 8) := u8 (Z.lor (bit_byte d bi) (bit_mask bi))]> d.
Definition bit_clear (d : list Z) (bi : Z) : list Z :=
  <[Z.to_nat (bi / 8) := u8 (Z.land (bit_byte d bi) (Z.lnot (bit_mask bi)))]> d.

(** for(bi = 0; bi < BPB && b + bi < sb.size; bi++), from [bi] for [n] more. *)
Fixpoint find_free (n : nat) (d : list Z) (bi : Z) : option Z :=
  match n with
  | O => None
  | S n => if negb (bit_get d bi) then Some bi else find_free n d (bi + 1)
  end.

(** for(b = 0; b < sb.size; b += BPB) *)
Fixpoint balloc_loop (fuel : nat) (dev b size : Z) : K Z :=
  if negb (b <? size) then panic "balloc: out of blocks"
  else
    match fuel with
    | O => fail EFuel
    | S fuel =>
        sb ← get_sb;
        bp ← bread dev (BBLOCK b sb);
        x ← buf_at bp;
        match find_free (Z.to_nat (Z.min BPB (size - b))) (b_data x) 0 with
        | Some bi =>
            upd_buf bp (set_data (bit_set (b_data x) bi));;
            log_write bp;;
            brelse bp;;
            bzero dev (b + bi);;
            mret (b + bi)
        | None =>
            brelse bp;;
            balloc_loop fuel dev (b + BPB) size
        end
    end.

Definition balloc (dev : Z) : K Z :=
  sb ← get_sb;
  balloc_loop (S (Z.to_nat (sb_size sb / BPB))) dev 0 (sb_size sb).

Definition bfree (dev b : Z) : K unit :=
  sb ← get_sb;
  bp ← bread (u32 dev) (BBLOCK b sb);
  x ← buf_at bp;
  let bi := b mod BPB in
  if negb (bit_get (b_data x) bi) then panic "freeing free block"
  else
    upd_buf bp (set_data (bit_clear (b_data x) bi));;
    log_write bp;;
    brelse bp.

(** ** Inodes *)

(** The byte offset of inode [inum] in its block. *)
Definition dinode_off (inum : Z) : nat := Z.to_nat (inum mod IPB * DINODE).

Definition get_addrs (d : list Z) (off : nat) : list Z :=
  map (λ i, get32 d (off + 12 + 4 * i)) (upto 13).
Fixpoint put_addrs (d : list Z) (off : nat) (a : list Z) : list Z :=
  match a with
  | [] => d
  | v :: a => put_addrs (put32 d off v) (off + 4) a
  end.

(** The on-disk fields of [ip], stored at [off]. *)
Definition put_dinode (d : list Z) (off : nat) (ip : inode) : list Z :=
  let d := put16 d off (i_type ip) in
  let d := put16 d (off + 2) (i_major ip) in
  let d := put16 d (off + 4) (i_minor ip) in
  let d := put16 d (off + 6) (i_nlink ip) in
  let d := put32 d (off + 8) (i_size ip) in
  put_addrs d (off + 12) (i_addrs ip).

(** ... and loaded into [ip]. *)
Definition get_dinode (d : list Z) (off : nat) (ip : inode) : inode :=
  Inode (i_dev ip) (i_inum ip) (i_ref ip) (i_lock ip) (i_valid ip)
    (s16 (get16 d off)) (s16 (get16 d (off + 2))) (s16 (get16 d (off + 4)))
    (s16 (get16 d (off + 6))) (get32 d (off + 8)) (get_addrs d off).

Definition iinit : K unit :=
  forM (upto NINODE) (λ i, upd_inode (Some i) (set_ilock (SleepLock false 0))).

Definition ilock_acquire (ip : nat) : K unit :=
  acquiresleep (L_inode ip) (C_inode ip) (x ← inode_at (Some ip); mret (i_lock x))
    (λ l, upd_inode (Some ip) (set_ilock l)).
Definition ilock_holding (ip : nat) : K bool :=
  holdingsleep (L_inode ip) (x ← inode_at (Some ip); mret (i_lock x)).
Definition ilock_release (ip : nat) : K unit :=
  releasesleep (L_inode ip) (C_inode ip) (λ l, upd_inode (Some ip) (set_ilock l)).

(** The scan of iget(): the entry for (dev, inum), or the first empty one. *)
Fixpoint iget_scan (tbl : list inode) (i : nat) (dev inum : Z) (empty : option nat)
  : nat + option nat :=
  match tbl with
  | [] => inr empty
  | x :: tbl =>
      if (0 <? i_ref x) && (i_dev x =? dev) && (i_inum x =? inum) then inl i
      else
        iget_scan tbl (S i) dev inum
          (match empty with
           | None => if i_ref x =? 0 then Some i else None
           | Some e => Some e
           end)
  end.

Definition iget (dev inum : Z) : K nat :=
  acquire L_itable;;
  tbl ← gets k_itable;
  match iget_scan tbl 0 dev inum None with
  | inl ip =>
      x ← inode_at (Some ip);
      upd_inode (Some ip) (set_iref (s32 (i_ref x + 1)));;
      release L_itable;;
      mret ip
  | inr None => panic "iget: no inodes"
  | inr (Some ip) =>
      upd_inode (Some ip) (set_idev dev);;
      upd_inode (Some ip) (set_inum inum);;
      upd_inode (Some ip) (set_iref 1);;
      upd_inode (Some ip) (set_ivalid false);;
      release L_itable;;
      mret ip
  end.

Definition ialloc (dev type : Z) : K nat :=
  sb ← get_sb;
  r ← findM (map Z.of_nat (seq 1 (Z.to_nat (sb_ninodes sb) - 1))) (λ inum,
    sb ← get_sb;
    bp ← bread dev (IBLOCK inum sb);
    x ← buf_at bp;
    let off := dinode_off inum in
    if s16 (get16 (b_data x) off) =? 0 then
      upd_buf bp (set_data (put16 (splice (b_data x) off (replicate (Z.to_nat DINODE) 0)) off type));;
      log_write bp;;
      brelse bp;;
      ip ← iget dev inum;
      mret (Some ip)
    else
      brelse bp;;
      mret None);
  match r with
  | Some ip => mret ip
  | None => panic "ialloc: no inodes"
  end.

Definition iupdate (ip : nat) : K unit :=
  x ← inode_at (Some ip);
  sb ← get_sb;
  bp ← bread (i_dev x) (IBLOCK (i_inum x) sb);
  x ← inode_at (Some ip);
  upd_buf bp (λ b, set_data (put_dinode (b_data b) (dinode_off (i_inum x)) x) b);;
  log_write bp;;
  brelse bp.

(** A null [ip] faults at [ip->ref]. *)
Definition idup (ip : option nat) : K (option nat) :=
  acquire L_itable;;
  x ← inode_at ip;
  upd_inode ip (set_iref (s32 (i_ref x + 1)));;
  release L_itable;;
  mret ip.

Definition ilock (ip : option nat) : K unit :=
  match ip with
  | None => panic "ilock"
  | Some i =>
      x ← inode_at ip;
      if i_ref x <? 1 then panic "ilock"
      else
        ilock_acquire i;;
        x ← inode_at ip;
        when (negb (i_valid x))
          (sb ← get_sb;
           bp ← bread (i_dev x) (IBLOCK (i_inum x) sb);
           b ← buf_at bp;
           upd_inode ip (get_dinode (b_data b) (dinode_off (i_inum x)));;
           brelse bp;;
           upd_inode ip (set_ivalid true);;
           x ← inode_at ip;
           when (i_type x =? 0) (panic "ilock: no type"))
  end.

Definition iunlock (ip : option nat) : K unit :=
  match ip with
  | None => panic "iunlock"
  | Some i =>
      h ← ilock_holding i;
      if negb h then panic "iunlock"
      else
        x ← inode_at ip;
        if i_ref x <? 1 then panic "iunlock"
        else ilock_release i
  end.

(** ** Inode contents *)

(** [ip->addrs[i]] and its assignment *)
Definition addr_at (ip : nat) (i : Z) : K Z :=
  x ← inode_at (Some ip);
  mret (nth (Z.to_nat i) (i_addrs x) 0).
Definition set_addr (ip : nat) (i v : Z) : K unit :=
  upd_inode (Some ip) (λ x, set_addrs (<[Z.to_nat i := v]> (i_addrs x)) x).

Definition bmap (ip : nat) (bn : Z) : K Z :=
  x ← inode_at (Some ip);
  if bn <? NDIRECT then
    addr ← addr_at ip bn;
    if addr =? 0 then
      addr ← balloc (i_dev x);
      set_addr ip bn addr;;
      mret addr
    else mret addr
  else
    let bn := bn - NDIRECT in
    if bn <? NINDIRECT then
      addr ← addr_at ip NDIRECT;
      addr ←
        (if addr =? 0 then
           addr ← balloc (i_dev x);
           set_addr ip NDIRECT addr;;
           mret addr
         else mret addr);
      bp ← bread (i_dev x) addr;
      b ← buf_at bp;
      let addr := get32 (b_data b) (Z.to_nat (4 * bn)) in
      addr ←
        (if addr =? 0 then
           addr ← balloc (i_dev x);
           upd_buf bp (λ b, set_data (put32 (b_data b) (Z.to_nat (4 * bn)) addr) b);;
           log_write bp;;
           mret addr
         else mret addr);
      brelse bp;;
      mret addr
    else panic "bmap: out of range".

Definition itrunc (ip : nat) : K unit :=
  x ← inode_at (Some ip);
  forM (upto (Z.to_nat NDIRECT)) (λ i,
    a ← addr_at ip (Z.of_nat i);
    when (negb (a =? 0))
      (bfree (i_dev x) a;;
       set_addr ip (Z.of_nat i) 0));;
  a ← addr_at ip NDIRECT;
  when (negb (a =? 0))
    (bp ← bread (i_dev x) a;
     forM (upto (Z.to_nat NINDIRECT)) (λ j,
       b ← buf_at bp;
       let v := get32 (b_data b) (4 * j) in
       when (negb (v =? 0)) (bfree (i_dev x) v));;
     brelse bp;;
     a ← addr_at ip NDIRECT;
     bfree (i_dev x) a;;
     set_addr ip NDIRECT 0);;
  upd_inode (Some ip) (set_isize 0);;
  iupdate ip.

(** A null [ip] faults at [ip->ref]. *)
Definition iput (ip : option nat) : K unit :=
  acquire L_itable;;
  x ← inode_at ip;
  match ip with
  | None => fail (EFault 0)
  | Some i =>
      when ((i_ref x =? 1) && i_valid x && (i_nlink x =? 0))
        (ilock_acquire i;;
         release L_itable;;
         itrunc i;;
         upd_inode ip (set_itype 0);;
         iupdate i;;
         upd_inode ip (set_ivalid false);;
         ilock_release i;;
         acquire L_itable);;
      x ← inode_at ip;
      upd_inode ip (set_iref (s32 (i_ref x - 1)));;
      release L_itable
  end.

Definition iunlockput (ip : option nat) : K unit :=
  iunlock ip;;
  iput ip.

(** struct stat in memory, over the bytes [st] its storage held: dev at 0, ino
    at 4, type at 8, nlink at 10, four bytes of padding, size at 16. *)
Definition stati (ip : nat) (st : list Z) : K (list Z) :=
  x ← inode_at (Some ip);
  let st := put32 st 0 (i_dev x) in
  let st := put32 st 4 (i_inum x) in
  let st := put16 st 8 (i_type x) in
  let st := put16 st 10 (i_nlink x) in
  mret (put64 st 16 (i_size x)).

(** [min(n - tot, BSIZE - off%BSIZE)] *)
Definition io_chunk (n tot off : Z) : Z :=
  let a := u32 (n - tot) in
  let b := BSIZE - off mod BSIZE in
  if a <? b then a else b.

(** for(tot=0; tot<n; tot+=m, off+=m, dst+=m).  The result is [tot] and the
    bytes copied. *)
Fixpoint readi_loop (fuel : nat) (ip : nat) (dst : dest) (off n tot : Z) (acc : list Z)
  : K (Z * list Z) :=
  if negb (tot <? n) then mret (s32 tot, acc)
  else
    match fuel with
    | O => fail EFuel
    | S fuel =>
        x ← inode_at (Some ip);
        bno ← bmap ip (off / BSIZE);
        bp ← bread (i_dev x) bno;
        let m := io_chunk n tot off in
        b ← buf_at bp;
        let src := slice (b_data b) (Z.to_nat (off mod BSIZE)) (Z.to_nat m) in
        r ← either_copyout dst src;
        if r =? -1 then
          brelse bp;;
          mret (-1, acc)
        else
          brelse bp;;
          readi_loop fuel ip (dest_add dst m) (u32 (off + m)) n (u32 (tot + m)) (acc ++ src)
    end.

(** Blocks a transfer of [n] bytes can touch. *)
Definition io_fuel (n : Z) : nat := S (S (Z.to_nat (n / BSIZE))).

Definition readi (ip : nat) (dst : dest) (off n : Z) : K (Z * list Z) :=
  x ← inode_at (Some ip);
  if (i_size x <? off) || (u32 (off + n) <? off) then mret (0, [])
  else
    let n := if i_size x <? u32 (off + n) then u32 (i_size x - off) else n in
    readi_loop (io_fuel n) ip dst off n 0 [].

(** The result is [tot] and the final [off]. *)
Fixpoint writei_loop (fuel : nat) (ip : nat) (src : source) (off n tot : Z) : K (Z * Z) :=
  if negb (tot <? n) then mret (tot, off)
  else
    match fuel with
    | O => fail EFuel
    | S fuel =>
        x ← inode_at (Some ip);
        bno ← bmap ip (off / BSIZE);
        bp ← bread (i_dev x) bno;
        let m := io_chunk n tot off in
        '(r, bs) ← either_copyin src m;
        upd_buf bp (λ b, set_data (splice (b_data b) (Z.to_nat (off mod BSIZE)) bs) b);;
        if r =? -1 then
          brelse bp;;
          mret (tot, off)
        else
          log_write bp;;
          brelse bp;;
          writei_loop fuel ip (source_add src m) (u32 (off + m)) n (u32 (tot + m))
    end.

Definition writei (ip : nat) (src : source) (off n : Z) : K Z :=
  x ← inode_at (Some ip);
  if (i_size x <? off) || (u32 (off + n) <? off) then mret (-1)
  else if MAXFILE * BSIZE <? u32 (off + n) then mret (-1)
  else
    '(tot, off) ← writei_loop (io_fuel n) ip src off n 0;
    x ← inode_at (Some ip);
    when (i_size x <? off) (upd_inode (Some ip) (set_isize off));;
    iupdate ip;;
    mret (s32 tot).

(** ** Directories *)

Definition namecmp (s t : list Z) : Z := strncmp s t DIRSIZ.

(** struct dirent: inum at 0, name at 2. *)
Definition de_inum (de : list Z) : Z := get16 de 0.
Definition de_name (de : list Z) : list Z := slice de 2 DIRSIZ.

(** for(off = 0; off < dp->size; off += sizeof(de)).  The entry found: its
    inode and its offset. *)
Fixpoint dirlookup_loop (fuel : nat) (dp : nat) (name : list Z) (off : Z) : K (option (nat * Z)) :=
  x ← inode_at (Some dp);
  if negb (off <? i_size x) then mret None
  else
    match fuel with
    | O => fail EFuel
    | S fuel =>
        '(r, de) ← readi dp ToLocal off DIRENT;
        if negb (r =? DIRENT) then panic "dirlookup read"
        else if de_inum de =? 0 then dirlookup_loop fuel dp name (u32 (off + DIRENT))
        else if namecmp name (de_name de) =? 0 then
          ip ← iget (i_dev x) (de_inum de);
          mret (Some (ip, off))
        else dirlookup_loop fuel dp name (u32 (off + DIRENT))
    end.

(** Entries a directory of [size] bytes can have. *)
Definition dir_fuel (size : Z) : nat := S (Z.to_nat (size / DIRENT)).

Definition dirlookup (dp : nat) (name : list Z) : K (option (nat * Z)) :=
  x ← inode_at (Some dp);
  if negb (i_type x =? T_DIR) then panic "dirlookup not DIR"
  else dirlookup_loop (dir_fuel (i_size x)) dp name 0.

(** Look for an empty dirent: its offset, or the size of the directory. *)
Fixpoint dirlink_loop (fuel : nat) (dp : nat) (off : Z) : K Z :=
  x ← inode_at (Some dp);
  if negb (off <? i_size x) then mret off
  else
    match fuel with
    | O => fail EFuel
    | S fuel =>
        '(r, de) ← readi dp ToLocal off DIRENT;
        if negb (r =? DIRENT) then panic "dirlink read"
        else if de_inum de =? 0 then mret off
        else dirlink_loop fuel dp (off + DIRENT)
    end.

Definition dirlink (dp : nat) (name : list Z) (inum : Z) : K Z :=
  r ← dirlookup dp name;
  match r with
  | Some (ip, _) => iput (Some ip);; mret (-1)
  | None =>
      x ← inode_at (Some dp);
      off ← dirlink_loop (dir_fuel (i_size x)) dp 0;
      let de := le_bytes 2 inum ++ strncpy name DIRSIZ in
      r ← writei dp (FromLocal de) off DIRENT;
      if negb (r =? DIRENT) then panic "dirlink"
      else mret 0
  end.

(** ** Paths *)

Definition SLASH : Z := 47.

Fixpoint skip_slashes (path : list Z) : list Z :=
  match path with
  | c :: path' => if c =? SLASH then skip_slashes path' else path
  | [] => []
  end.

(** while( *path != '/' && *path != 0) path++; *)
Fixpoint path_elem (path : list Z) : list Z * list Z :=
  match path with
  | c :: path' =>
      if (c =? SLASH) || (c =? 0) then ([], path)
      else let '(e, rest) := path_elem path' in (c :: e, rest)
  | [] => ([], [])
  end.

(** The bytes stored to [name] and the rest of the path. *)
Definition skipelem (path : list Z) : option (list Z * list Z) :=
  let path := skip_slashes path in
  if hd 0 path =? 0 then None
  else
    let '(e, rest) := path_elem path in
    let name := if Nat.leb DIRSIZ (length e) then take DIRSIZ e else e ++ [0] in
    Some (name, skip_slashes rest).

(** while((path = skipelem(path, name)) != 0).  The inode, with the contents of
    [name]. *)
Fixpoint namex_loop (fuel : nat) (ip : option nat) (path : list Z) (nameiparent : bool)
    (name : list Z) : K (option (nat * list Z)) :=
  match skipelem path with
  | None =>
      if nameiparent then iput ip;; mret None
      else mret ((λ i, (i, name)) <$> ip)
  | Some (name, path) =>
      match fuel with
      | O => fail EFuel
      | S fuel =>
          ilock ip;;
          x ← inode_at ip;
          if negb (i_type x =? T_DIR) then iunlockput ip;; mret None
          else if nameiparent && (hd 0 path =? 0) then
            iunlock ip;;
            mret ((λ i, (i, name)) <$> ip)
          else
            match ip with
            | None => fail (EFault 0)
            | Some i =>
                next ← dirlookup i name;
                match next with
                | None => iunlockput ip;; mret None
                | Some (next, _) =>
                    iunlockput ip;;
                    namex_loop fuel (Some next) path nameiparent name
                end
            end
      end
  end.

Definition namex (path : list Z) (nameiparent : bool) : K (option (nat * list Z)) :=
  ip ←
    (if hd 0 path =? SLASH then
       ip ← iget ROOTDEV ROOTINO;
       mret (Some ip)
     else
       p ← myproc;
       x ← proc_at p;
       idup (p_cwd x));
  namex_loop (length path) ip path nameiparent [].

Definition namei (path : list Z) : K (option nat) :=
  r ← namex path false;
  mret (fst <$> r).

Definition nameiparent (path : list Z) : K (option (nat * list Z)) := namex path true.

End fs.
