(* ===== verification/Pipe.v ===== *)
(** kernel/pipe.c.  A struct pipe lives in a page of its own; it is found by
    the address of that page. *)

From S2P Require Import Prelude Riscv Kstate Mem Kalloc Vm Sched.

Section pipe.
Context {L : Layout}.

Definition PIPESIZE : Z := 512.

Definition set_pdata v p := Pipe v (pi_nread p) (pi_nwrite p) (pi_readopen p) (pi_writeopen p).
Definition set_nread v p := Pipe (pi_data p) v (pi_nwrite p) (pi_readopen p) (pi_writeopen p).
Definition set_nwrite v p := Pipe (pi_data p) (pi_nread p) v (pi_readopen p) (pi_writeopen p).
Definition set_readopen v p := Pipe (pi_data p) (pi_nread p) (pi_nwrite p) v (pi_writeopen p).
Definition set_writeopen v p := Pipe (pi_data p) (pi_nread p) (pi_nwrite p) (pi_readopen p) v.

Definition pipe_at (pi : Z) : K pipe :=
  m ← gets k_pipes;
  match m !! pi with
  | Some x => mret x
  | None => fail (EFault pi)
  end.
Definition upd_pipe (pi : Z) (f : pipe → pipe) : K unit :=
  x ← pipe_at pi;
  modify (λ s, set_pipes (<[pi := f x]> (k_pipes s)) s).

Definition pipeclose (pi : Z) (writable : bool) : K unit :=
  acquire (L_pipe pi);;
  (if writable then
     upd_pipe pi (set_writeopen false);;
     wakeup (C_nread pi)
   else
     upd_pipe pi (set_readopen false);;
     wakeup (C_nwrite pi));;
  x ← pipe_at pi;
  if negb (pi_readopen x) && negb (pi_writeopen x) then
    release (L_pipe pi);;
    kfree pi;;
    modify (λ s, set_pipes (delete pi (k_pipes s)) s)
  else release (L_pipe pi).

(** [pi->data[i % PIPESIZE]] *)
Definition ring_get (d : list Z) (i : Z) : Z := nth (Z.to_nat (i mod PIPESIZE)) d 0.
Definition ring_put (d : list Z) (i c : Z) : list Z := <[Z.to_nat (i mod PIPESIZE) := c]> d.

(** while(i < n) *)
Fixpoint pipewrite_loop (fuel : nat) (pi addr n i : Z) : K Z :=
  if negb (i <? n) then
    wakeup (C_nread pi);;
    release (L_pipe pi);;
    mret i
  else
    match fuel with
    | O => fail EFuel
    | S fuel =>
        x ← pipe_at pi;
        p ← myproc;
        pr ← proc_at p;
        if negb (pi_readopen x) || negb (p_killed pr =? 0) then
          release (L_pipe pi);;
          mret (-1)
        else if pi_nwrite x =? u32 (pi_nread x + PIPESIZE) then
          wakeup (C_nread pi);;
          sleep (C_nwrite pi) (L_pipe pi)
        else
          '(r, ch) ← copyin (p_pagetable pr) (u64 (addr + i)) 1;
          if r =? -1 then
            wakeup (C_nread pi);;
            release (L_pipe pi);;
            mret i
          else
            upd_pipe pi (λ x, set_nwrite (u32 (pi_nwrite x + 1))
                                (set_pdata (ring_put (pi_data x) (pi_nwrite x) (hd 0 ch)) x));;
            pipewrite_loop fuel pi addr n (i + 1)
    end.

Definition pipewrite (pi addr n : Z) : K Z :=
  acquire (L_pipe pi);;
  pipewrite_loop (Z.to_nat n) pi addr n 0.

(** for(i = 0; i < n; i++) *)
Fixpoint piperead_loop (fuel : nat) (pi addr n i : Z) : K Z :=
  let finish := (wakeup (C_nwrite pi);; release (L_pipe pi);; mret i) : K Z in
  if negb (i <? n) then finish
  else
    match fuel with
    | O => fail EFuel
    | S fuel =>
        x ← pipe_at pi;
        if pi_nread x =? pi_nwrite x then finish
        else
          let ch := ring_get (pi_data x) (pi_nread x) in
          upd_pipe pi (set_nread (u32 (pi_nread x + 1)));;
          p ← myproc;
          pr ← proc_at p;
          r ← copyout (p_pagetable pr) (u64 (addr + i)) [ch];
          if r =? -1 then finish
          else piperead_loop fuel pi addr n (i + 1)
    end.

Definition piperead (pi addr n : Z) : K Z :=
  acquire (L_pipe pi);;
  x ← pipe_at pi;
  if (pi_nread x =? pi_nwrite x) && pi_writeopen x then
    p ← myproc;
    pr ← proc_at p;
    if negb (p_killed pr =? 0) then
      release (L_pipe pi);;
      mret (-1)
    else sleep (C_nread pi) (L_pipe pi)
  else piperead_loop (Z.to_nat n) pi addr n 0.

End pipe.
