(* ===== verification/File.v ===== *)
(** kernel/file.c: the open-file table (mmap and munmap are in Vma.v), and
    pipealloc() of kernel/pipe.c, which creates two open files. *)

From S2P Require Import Prelude Riscv Kstate Mem Kalloc Vm Sched Bytes Bio Log Fs Pipe.

(** devsw[]: what a device driver provides, by major device number.  The
    functions are called with [user_dst] / [user_src] 1. *)
Class Devsw : Type := {
  dev_read : Z → option (Z → Z → K Z);
  dev_write : Z → option (Z → Z → K Z);
}.

Section file.
Context {L : Layout} {D : Devsw}.

Definition set_ftype v f := File v (f_ref f) (f_readable f) (f_writable f) (f_pipe f) (f_ip f) (f_off f) (f_major f).
Definition set_fref v f := File (f_type f) v (f_readable f) (f_writable f) (f_pipe f) (f_ip f) (f_off f) (f_major f).
Definition set_readable v f := File (f_type f) (f_ref f) v (f_writable f) (f_pipe f) (f_ip f) (f_off f) (f_major f).
Definition set_writable v f := File (f_type f) (f_ref f) (f_readable f) v (f_pipe f) (f_ip f) (f_off f) (f_major f).
Definition set_fpipe v f := File (f_type f) (f_ref f) (f_readable f) (f_writable f) v (f_ip f) (f_off f) (f_major f).
Definition set_fip v f := File (f_type f) (f_ref f) (f_readable f) (f_writable f) (f_pipe f) v (f_off f) (f_major f).
Definition set_foff v f := File (f_type f) (f_ref f) (f_readable f) (f_writable f) (f_pipe f) (f_ip f) v (f_major f).
Definition set_fmajor v f := File (f_type f) (f_ref f) (f_readable f) (f_writable f) (f_pipe f) (f_ip f) (f_off f) v.

Definition filealloc : K (option nat) :=
  acquire L_ftable;;
  r ← findM (upto NFILE) (λ f,
    x ← file_at (Some f);
    if f_ref x =? 0 then
      upd_file (Some f) (set_fref 1);;
      release L_ftable;;
      mret (Some f)
    else mret None);
  match r with
  | Some f => mret (Some f)
  | None => release L_ftable;; mret None
  end.

Definition filedup (f : option nat) : K (option nat) :=
  acquire L_ftable;;
  x ← file_at f;
  if f_ref x <? 1 then panic "filedup"
  else
    upd_file f (set_fref (s32 (f_ref x + 1)));;
    release L_ftable;;
    mret f.

Definition fileclose (f : option nat) : K unit :=
  acquire L_ftable;;
  x ← file_at f;
  if f_ref x <? 1 then panic "fileclose"
  else
    upd_file f (set_fref (f_ref x - 1));;
    if 0 <? f_ref x - 1 then release L_ftable
    else
      ff ← file_at f;
      upd_file f (set_fref 0);;
      upd_file f (set_ftype FD_NONE);;
      release L_ftable;;
      match f_type ff with
      | FD_PIPE => pipeclose (f_pipe ff) (negb (f_writable ff =? 0))
      | FD_INODE | FD_DEVICE =>
          begin_op;;
          iput (f_ip ff);;
          end_op
      | FD_NONE => skip
      end.

(** [ip] of an open file, for the functions of fs.c that take a non-null
    inode. *)
Definition nonnull (ip : option nat) : K nat :=
  match ip with
  | Some i => mret i
  | None => fail (EFault 0)
  end.

(** [st] is what the storage of the local variable [st] holds on entry. *)
Definition filestat (f : option nat) (addr : Z) (st : list Z) : K Z :=
  p ← myproc;
  x ← file_at f;
  match f_type x with
  | FD_INODE | FD_DEVICE =>
      ilock (f_ip x);;
      i ← nonnull (f_ip x);
      st ← stati i st;
      iunlock (f_ip x);;
      me ← proc_at p;
      r ← copyout (p_pagetable me) addr st;
      if r <? 0 then mret (-1) else mret 0
  | _ => mret (-1)
  end.

(** [f->major < 0 || f->major >= NDEV || !devsw[f->major].op] *)
Definition dev_op (op : Z → option (Z → Z → K Z)) (major : Z) : option (Z → Z → K Z) :=
  if (major <? 0) || (NDEV <=? major) then None else op major.

Definition fileread (f : option nat) (addr n : Z) : K Z :=
  x ← file_at f;
  if f_readable x =? 0 then mret (-1)
  else
    match f_type x with
    | FD_PIPE => piperead (f_pipe x) addr n
    | FD_DEVICE =>
        match dev_op dev_read (f_major x) with
        | None => mret (-1)
        | Some read => read addr n
        end
    | FD_INODE =>
        ilock (f_ip x);;
        i ← nonnull (f_ip x);
        '(r, _) ← readi i (ToUser addr) (f_off x) (u32 n);
        when (0 <? r) (upd_file f (λ x, set_foff (u32 (f_off x + r)) x));;
        iunlock (f_ip x);;
        mret r
    | FD_NONE => panic "fileread"
    end.

(** [((MAXOPBLOCKS-1-1-2) / 2) * BSIZE] *)
Definition write_max : Z := ((MAXOPBLOCKS - 1 - 1 - 2) / 2) * BSIZE.

(** while(i < n); the result is the final [i] *)
Fixpoint filewrite_loop (fuel : nat) (f : option nat) (addr n i : Z) : K Z :=
  if negb (i <? n) then mret i
  else
    match fuel with
    | O => fail EFuel
    | S fuel =>
        let n1 := if write_max <? n - i then write_max else n - i in
        begin_op;;
        x ← file_at f;
        ilock (f_ip x);;
        ip ← nonnull (f_ip x);
        x ← file_at f;
        r ← writei ip (FromUser (u64 (addr + i))) (f_off x) n1;
        when (0 <? r) (upd_file f (λ x, set_foff (u32 (f_off x + r)) x));;
        iunlock (f_ip x);;
        end_op;;
        if negb (r =? n1) then mret i
        else filewrite_loop fuel f addr n (i + r)
    end.

Definition filewrite (f : option nat) (addr n : Z) : K Z :=
  x ← file_at f;
  if f_writable x =? 0 then mret (-1)
  else
    match f_type x with
    | FD_PIPE => pipewrite (f_pipe x) addr n
    | FD_DEVICE =>
        match dev_op dev_write (f_major x) with
        | None => mret (-1)
        | Some write => write addr n
        end
    | FD_INODE =>
        i ← filewrite_loop (S (Z.to_nat (n / write_max))) f addr n 0;
        mret (if i =? n then n else -1)
    | FD_NONE => panic "filewrite"
    end.

(** ** pipealloc() of pipe.c *)

(** The bytes of a page just handed out by kalloc(), where data[] lies. *)
Definition fresh_pipe : pipe := Pipe (replicate (Z.to_nat PIPESIZE) 5) 0 0 true true.

(** Cleanup at label bad:, when kalloc() was not reached or returned 0. *)
Definition pipealloc_bad (f0 f1 : option nat) : K (option (nat * nat)) :=
  when (bool_decide (is_Some f0)) (fileclose f0);;
  when (bool_decide (is_Some f1)) (fileclose f1);;
  mret None.

(** The two open files ( *f0, *f1 ), or [None] for -1. *)
Definition pipealloc : K (option (nat * nat)) :=
  f0 ← filealloc;
  match f0 with
  | None => pipealloc_bad None None
  | Some a =>
      f1 ← filealloc;
      match f1 with
      | None => pipealloc_bad f0 None
      | Some b =>
          pi ← kalloc;
          if pi =? 0 then pipealloc_bad f0 f1
          else if negb (in_ram pi && in_ram (pi + PGSIZE - 1)) then fail (EFault pi)
          else
            modify (λ s, set_pipes (<[pi := fresh_pipe]> (k_pipes s)) s);;
            upd_file f0 (λ f, set_fpipe pi (set_writable 0 (set_readable 1 (set_ftype FD_PIPE f))));;
            upd_file f1 (λ f, set_fpipe pi (set_writable 1 (set_readable 0 (set_ftype FD_PIPE f))));;
            mret (Some (a, b))
      end
  end.

End file.
