(* ===== verification/Vma.v ===== *)
(** mmap() and munmap() of kernel/file.c: the virtual memory areas of a
    process, a singly linked list threaded through the global array vmas[]. *)

From S2P Require Import Prelude Riscv Kstate Mem Kalloc Vm Sched Bytes Bio Log Fs File.

Section vma.
Context {L : Layout}.

(** ** Assignments to fields of struct vma *)

Definition set_use v x := Vma v (v_size x) (v_ofile x) (v_addrinit x) (v_addri x) (v_addre x) (v_offset x) (v_next x) (v_prot x) (v_flag x).
Definition set_vsize v x := Vma (v_use x) v (v_ofile x) (v_addrinit x) (v_addri x) (v_addre x) (v_offset x) (v_next x) (v_prot x) (v_flag x).
Definition set_vofile v x := Vma (v_use x) (v_size x) v (v_addrinit x) (v_addri x) (v_addre x) (v_offset x) (v_next x) (v_prot x) (v_flag x).
Definition set_addrinit v x := Vma (v_use x) (v_size x) (v_ofile x) v (v_addri x) (v_addre x) (v_offset x) (v_next x) (v_prot x) (v_flag x).
Definition set_addri v x := Vma (v_use x) (v_size x) (v_ofile x) (v_addrinit x) v (v_addre x) (v_offset x) (v_next x) (v_prot x) (v_flag x).
Definition set_addre v x := Vma (v_use x) (v_size x) (v_ofile x) (v_addrinit x) (v_addri x) v (v_offset x) (v_next x) (v_prot x) (v_flag x).
Definition set_offset v x := Vma (v_use x) (v_size x) (v_ofile x) (v_addrinit x) (v_addri x) (v_addre x) v (v_next x) (v_prot x) (v_flag x).
Definition set_vnext v x := Vma (v_use x) (v_size x) (v_ofile x) (v_addrinit x) (v_addri x) (v_addre x) (v_offset x) v (v_prot x) (v_flag x).
Definition set_prot v x := Vma (v_use x) (v_size x) (v_ofile x) (v_addrinit x) (v_addri x) (v_addre x) (v_offset x) (v_next x) v (v_flag x).
Definition set_flag v x := Vma (v_use x) (v_size x) (v_ofile x) (v_addrinit x) (v_addri x) (v_addre x) (v_offset x) (v_next x) (v_prot x) v.

(** ** mmap *)

Definition MAP_FAILED : Z := 0xffffffffffffffff.

(** [p->ofile[fd]]; an index outside the array is outside the object. *)
Definition ofile_at (p : nat) (fd : Z) : K (option nat) :=
  x ← proc_at p;
  if fd <? 0 then fail (EFault (-1))
  else
    match p_ofile x !! Z.to_nat fd with
    | Some f => mret f
    | None => fail (EFault (-1))
    end.

(** The nested function findVma(); [None] is its all-ones pointer. *)
Definition findVma : K (option nat) :=
  acquire L_vmas;;
  r ← findM (upto VMAS_STORED) (λ c,
    x ← vma_at (Some c);
    if v_use x =? 0 then
      upd_vma (Some c) (set_use 1);;
      release L_vmas;;
      mret (Some c)
    else mret None);
  match r with
  | Some c => mret (Some c)
  | None => release L_vmas;; mret None
  end.

(** The loop for(i = 0; i <= MAX_VMAS; i++), with [prev] and [act].  The vma
    inserted in the list, or [None] when mmap() returns MAP_FAILED. *)
Fixpoint mmap_loop (fuel : nat) (p : nat) (psize : Z) (prev act : option nat) : K (option nat) :=
  match fuel with
  | O => mret None
  | S fuel =>
      match act with
      | None =>
          nofit ←
            (match prev with
             | Some _ => x ← vma_at prev; mret (TOP_ADDRESS <? u64 (v_addre x + psize))
             | None => mret (TOP_ADDRESS <? u64 (START_ADDRESS + psize))
             end);
          if (nofit : bool) then mret None
          else
            n ← findVma;
            match n with
            | None => release (L_proc p);; mret None
            | Some _ =>
                (match prev with
                 | None =>
                     upd_vma n (set_addri START_ADDRESS);;
                     upd_vma n (set_addre (u64 (START_ADDRESS + psize)))
                 | Some _ =>
                     upd_vma prev (set_vnext n);;
                     x ← vma_at prev;
                     upd_vma n (set_addri (v_addre x));;
                     x ← vma_at prev;
                     upd_vma n (set_addre (u64 (v_addre x + psize)))
                 end);;
                upd_vma n (set_vnext None);;
                mret n
            end
      | Some _ =>
          fits ←
            (match prev with
             | Some _ =>
                 x ← vma_at prev;
                 y ← vma_at act;
                 mret (u64 (v_addre x + psize) <=? v_addri y)
             | None => mret false
             end);
          if (fits : bool) then
            n ← findVma;
            match n with
            | None => release (L_proc p);; mret None
            | Some _ =>
                upd_vma prev (set_vnext n);;
                upd_vma n (set_vnext act);;
                x ← vma_at prev;
                upd_vma n (set_addri (v_addre x));;
                x ← vma_at prev;
                upd_vma n (set_addre (u64 (v_addre x + psize)));;
                mret n
            end
          else
            y ← vma_at act;
            mmap_loop fuel p psize act (v_next y)
      end
  end.

Definition mmap (length prot flag fd : Z) : K Z :=
  p ← myproc;
  denied ←
    (if flag =? MAP_SHARED then
       f ← ofile_at p fd;
       x ← file_at f;
       mret (negb (f_readable x =? 1) || negb (f_writable x =? 1))
     else mret false);
  if (denied : bool) then mret MAP_FAILED
  else
    acquire (L_proc p);;
    me ← proc_at p;
    if p_nvma me =? MAX_VMAS then
      release (L_proc p);;
      mret MAP_FAILED
    else
      let psize := PGROUNDUP length in
      n ← mmap_loop (S (Z.to_nat MAX_VMAS)) p psize None (p_vmas me);
      match n with
      | None => mret MAP_FAILED
      | Some _ =>
          upd_vma n (set_vsize length);;
          upd_vma n (set_prot prot);;
          f ← ofile_at p fd;
          upd_vma n (set_vofile f);;
          upd_vma n (set_offset 0);;
          upd_vma n (set_flag flag);;
          upd_vma n (λ x, set_addrinit (v_addri x) x);;
          upd_file f (λ x, set_fref (s32 (f_ref x + 1)) x);;
          me ← proc_at p;
          when (p_nvma me =? 0) (upd_proc p (set_pvmas n));;
          upd_proc p (λ x, set_nvma (s32 (p_nvma x + 1)) x);;
          release (L_proc p);;
          x ← vma_at n;
          mret (v_addri x)
      end.

(** ** munmap *)

(** The nested function freeVma(). *)
Definition freeVma (p : nat) (prev : option nat) (act : nat) : K unit :=
  acquire L_vmas;;
  x ← vma_at (Some act);
  (match prev with
   | None => upd_proc p (set_pvmas (v_next x))
   | Some _ => upd_vma prev (set_vnext (v_next x))
   end);;
  x ← vma_at (Some act);
  upd_file (v_ofile x) (λ f, set_fref (s32 (f_ref f - 1)) f);;
  upd_vma (Some act) (λ _, Vma 0 0 None 0 0 0 0 None 0 0);;
  upd_proc p (λ x, set_nvma (s32 (p_nvma x - 1)) x);;
  release L_vmas.

(** [addr+length >= act->addri && addr+length <= act->addre &&
     addr >= act->addri && addr < act->addre] *)
Definition vma_contains (x : vma) (addr length : Z) : bool :=
  (v_addri x <=? u64 (addr + length)) && (u64 (addr + length) <=? v_addre x) &&
  (v_addri x <=? addr) && (addr <? v_addre x).

(** for(i = 0; i < p->nvma; i++): the vma found and its predecessor. *)
Fixpoint munmap_find (n : nat) (addr length : Z) (prev act : option nat)
  : K (option (option nat * option nat)) :=
  match n with
  | O => mret None
  | S n =>
      x ← vma_at act;
      if vma_contains x addr length then mret (Some (prev, act))
      else munmap_find n addr length act (v_next x)
  end.

(** [PGROUNDDOWN(addr+i*PGSIZE)], the product being an int *)
Definition page_va (addr i : Z) : Z := PGROUNDDOWN (u64 (addr + s32 (i * PGSIZE))).

(** Write back a dirty page of a shared mapping.  [None] when writei() fails;
    otherwise the flag [out]. *)
Definition munmap_writeback (act : nat) (addr i : Z) : K (option bool) :=
  x ← vma_at (Some act);
  f ← file_at (v_ofile x);
  ilock (f_ip f);;
  ip ← nonnull (f_ip f);
  y ← inode_at (Some ip);
  let sizeWritten := s32 (u32 (PGSIZE * (i + 1)) - i_size y) in
  let out := 0 <? sizeWritten in
  let sizeWritten := if out then sizeWritten else PGSIZE in
  r ← writei ip (FromUser (page_va addr i))
        (u32 (page_va addr i - v_addrinit x)) sizeWritten;
  iunlock (f_ip f);;
  mret (if r =? -1 then None else Some out).

(** for(i = 0; i < PGROUNDUP(length)/PGSIZE; i++); [false] when munmap()
    returns -1 from inside the loop. *)
Fixpoint munmap_pages (fuel : nat) (p act : nat) (addr count i : Z) : K bool :=
  if negb (u64 i <? count) then mret true
  else
    match fuel with
    | O => fail EFuel
    | S fuel =>
        me ← proc_at p;
        pte ← walk (p_pagetable me) (page_va addr i) false;
        v ← load64 pte;
        if has v PTE_V then
          x ← vma_at (Some act);
          w ←
            (if has v PTE_D && (v_flag x =? MAP_SHARED)
             then munmap_writeback act addr i
             else mret (Some false));
          match w with
          | None =>
              release (L_proc p);;
              mret false
          | Some out =>
              uvmunmap (p_pagetable me) (page_va addr i) 1 true;;
              if (out : bool) then mret true
              else munmap_pages fuel p act addr count (s32 (i + 1))
          end
        else munmap_pages fuel p act addr count (s32 (i + 1))
    end.

Definition munmap (addr length : Z) : K Z :=
  p ← myproc;
  acquire (L_proc p);;
  me ← proc_at p;
  r ← munmap_find (Z.to_nat (p_nvma me)) addr length None (p_vmas me);
  match r with
  | Some (prev, Some act) =>
      let count := PGROUNDUP length / PGSIZE in
      ok ← munmap_pages (Z.to_nat (Z.min count (2 ^ 31))) p act addr count 0;
      if negb (ok : bool) then mret (-1)
      else
        x ← vma_at (Some act);
        (if u64 (v_addri x + PGROUNDUP length) =? v_addre x then freeVma p prev act
         else if v_addri x =? addr
         then upd_vma (Some act) (set_addri (u64 (v_addri x + PGROUNDUP length)))
         else upd_vma (Some act) (set_addre (PGROUNDDOWN addr)));;
        release (L_proc p);;
        mret 0
  | _ =>
      release (L_proc p);;
      mret (-1)
  end.

End vma.
