(* ===== verification/VmaSpec.v ===== *)
(** The address-space layout mmap() and munmap() maintain: an abstract list of
    disjoint, ordered areas with first-fit placement, the linked list of struct
    vma that represents it, and the refinement of the former by the latter. *)

From S2P Require Import Prelude Riscv Kstate Mem Kalloc Vm PageTable VmSpec Machine Sched Fs File Vma.

(** ** The abstract layout *)

(** An area [a, b). *)
Definition area : Type := Z * Z.

(** Areas in increasing order above [lo], disjoint, page-aligned, not empty,
    and below TOP_ADDRESS. *)
Fixpoint ordered (lo : Z) (l : list area) : Prop :=
  match l with
  | [] => True
  | (a, b) :: l =>
      lo ≤ a ∧ a < b ∧ b ≤ TOP_ADDRESS ∧ a mod PGSIZE = 0 ∧ b mod PGSIZE = 0 ∧ ordered b l
  end.

Definition areas_ok (l : list area) : Prop := ordered START_ADDRESS l.

(** First fit after an area that ends at [e]: the number of areas skipped and
    the address chosen. *)
Fixpoint fit (e psize : Z) (l : list area) : option (nat * Z) :=
  match l with
  | [] => if TOP_ADDRESS <? e + psize then None else Some (O, e)
  | (a, b) :: l =>
      if e + psize <=? a then Some (O, e)
      else (λ '(k, x), (S k, x)) <$> fit b psize l
  end.

(** Where a new area goes: its position in the list and its address.  The gap
    below the first area is not considered. *)
Definition place (psize : Z) (l : list area) : option (nat * Z) :=
  match l with
  | [] => if TOP_ADDRESS <? START_ADDRESS + psize then None else Some (O, START_ADDRESS)
  | (a, b) :: l => (λ '(k, x), (S k, x)) <$> fit b psize l
  end.

Definition insert_at {A} (k : nat) (x : A) (l : list A) : list A := take k l ++ x :: drop k l.

Lemma ordered_weaken lo lo' l : lo' ≤ lo → ordered lo l → ordered lo' l.
Proof. destruct l as [|[a b] l]; simpl; [done|]. intros ? (?&?&?&?&?&?). split_and!; lia || done. Qed.

(** Placement keeps the layout in order: the new area overlaps no other. *)
Lemma fit_ordered e psize l k x :
  ordered e l → e mod PGSIZE = 0 → psize mod PGSIZE = 0 → 0 < psize →
  fit e psize l = Some (k, x) → ordered e (insert_at k (x, x + psize) l).
Proof.
  revert e k x. induction l as [|[a b] l IH]; intros e k x Ho He Hp Hpos; simpl.
  - destruct (Z.ltb_spec TOP_ADDRESS (e + psize)); [done|]. intros [= <- <-]. simpl.
    split_and!; auto using aligned_add; lia.
  - destruct Ho as (Ha & Hab & Hb & Hma & Hmb & Ho).
    destruct (Z.leb_spec (e + psize) a) as [Hle|Hgt].
    + intros [= <- <-]. simpl. split_and!; auto using aligned_add; lia.
    + destruct (fit b psize l) as [[k' x']|] eqn:Ef; simpl; [|done]. intros [= <- <-].
      simpl. split_and!; auto. eapply IH; eauto.
Qed.

Lemma place_ok psize l k x :
  areas_ok l → psize mod PGSIZE = 0 → 0 < psize →
  place psize l = Some (k, x) → areas_ok (insert_at k (x, x + psize) l).
Proof.
  unfold areas_ok, place. destruct l as [|[a b] l]; simpl.
  - intros _ Hp Hpos. destruct (Z.ltb_spec TOP_ADDRESS (START_ADDRESS + psize)); [done|].
    intros [= <- <-]. simpl. split_and!; auto using aligned_add; lia || done.
  - intros (Ha & Hab & Hb & Hma & Hmb & Ho) Hp Hpos.
    destruct (fit b psize l) as [[k' x']|] eqn:Ef; simpl; [|done]. intros [= <- <-].
    simpl. split_and!; auto. by eapply fit_ordered.
Qed.

Lemma fit_range e psize l k x :
  ordered e l → 0 ≤ psize → fit e psize l = Some (k, x) → e ≤ x ∧ x + psize ≤ TOP_ADDRESS ∧ (k ≤ length l)%nat.
Proof.
  revert e k x. induction l as [|[a b] l IH]; intros e k x Ho Hp; simpl.
  - destruct (Z.ltb_spec TOP_ADDRESS (e + psize)); [done|]. intros [= <- <-]. lia.
  - destruct Ho as (Ha & Hab & Hb & Hma & Hmb & Ho).
    destruct (Z.leb_spec (e + psize) a) as [Hle|Hgt]; [intros [= <- <-]; simpl; lia|].
    destruct (fit b psize l) as [[k' x']|] eqn:Ef; simpl; [|done]. intros [= <- <-].
    apply IH in Ef; [lia|done|done].
Qed.

(** The end of the last area. *)
Fixpoint last_end (e : Z) (l : list area) : Z :=
  match l with
  | [] => e
  | (_, b) :: l => last_end b l
  end.

(** The placement fails only when there is no room after the last area. *)
Lemma fit_none e psize l : fit e psize l = None → TOP_ADDRESS < last_end e l + psize.
Proof.
  revert e. induction l as [|[a b] l IH]; intros e; simpl.
  - destruct (Z.ltb_spec TOP_ADDRESS (e + psize)); done.
  - destruct (Z.leb_spec (e + psize) a); [done|].
    destruct (fit b psize l) as [[k' x']|] eqn:Ef; simpl; [done|]. eauto.
Qed.

(** ** The list in memory *)

(** From the pointer [p], the list visits the slots [l] of [vs], which hold
    [xs]. *)
Fixpoint vchain (vs : list vma) (p : option nat) (l : list nat) (xs : list vma) : Prop :=
  match l, xs with
  | [], [] => p = None
  | i :: l, x :: xs => p = Some i ∧ vs !! i = Some x ∧ vchain vs (v_next x) l xs
  | _, _ => False
  end.

Definition areas (xs : list vma) : list area := (λ x, (v_addri x, v_addre x)) <$> xs.

Lemma vchain_length vs p l xs : vchain vs p l xs → length l = length xs.
Proof.
  revert p xs. induction l as [|i l IH]; intros p [|x xs]; simpl; try done.
  intros (_ & _ & H). f_equal. eauto.
Qed.

Lemma vchain_lookup vs p l xs k i :
  vchain vs p l xs → l !! k = Some i → ∃ x, xs !! k = Some x ∧ vs !! i = Some x.
Proof.
  revert p xs k. induction l as [|j l IH]; intros p [|x xs] k; simpl; try done.
  intros (_ & Hx & Hc). destruct k as [|k]; simpl; [intros [= ->]; eauto|]. eauto.
Qed.

Lemma vchain_elem vs p l xs i :
  vchain vs p l xs → i ∈ l → ∃ x, x ∈ xs ∧ vs !! i = Some x.
Proof.
  intros Hc [k Hk]%list_elem_of_lookup. destruct (vchain_lookup _ _ _ _ _ _ Hc Hk) as (x & Hx & Hi).
  exists x. split; [|done]. by eapply list_elem_of_lookup_2.
Qed.

Lemma vchain_ext vs vs' p l xs :
  (∀ i, i ∈ l → vs' !! i = vs !! i) → vchain vs p l xs → vchain vs' p l xs.
Proof.
  revert p xs. induction l as [|i l IH]; intros p [|x xs] H; cbn [vchain]; try done.
  intros (-> & Hx & Hc). split_and!; [done|rewrite H; [done|by left]|].
  apply IH; [|done]. intros j Hj. apply H. by right.
Qed.

(** Inserting slot [n] after the element at position [k]. *)
Lemma vchain_insert vs vs' p l xs k pr y n x :
  vchain vs p l xs → NoDup l → n ∉ l → l !! k = Some pr → xs !! k = Some y →
  (∀ i, i ≠ n → i ≠ pr → vs' !! i = vs !! i) →
  vs' !! pr = Some (set_vnext (Some n) y) → vs' !! n = Some x → v_next x = l !! S k →
  vchain vs' p (insert_at (S k) n l) (insert_at (S k) x (<[k := set_vnext (Some n) y]> xs)).
Proof.
  revert p l xs. induction k as [|k IH]; intros p [|i l] [|z xs] Hc Hnd Hni Hk Hy Hfr Hpr Hn Hnx;
    simplify_eq/=.
  - destruct Hc as (-> & Hz & Hc). split_and!; [done|done|done|done|].
    apply NoDup_cons in Hnd as [Hnpr _]. apply not_elem_of_cons in Hni as [_ Hni].
    rewrite drop_0. rewrite Hnx.
    assert (Hc' : vchain vs (l !! O) l xs).
    { destruct l as [|j l], xs as [|w xs]; simpl in *; try done. by destruct Hc as (_ & ?). }
    replace (drop 0 xs) with xs by done. eapply vchain_ext; [|exact Hc'].
    intros j Hj. apply Hfr; intros ->; done.
  - destruct Hc as (-> & Hz & Hc). apply NoDup_cons in Hnd as [Hnd1 Hnd2].
    apply not_elem_of_cons in Hni as [Hne Hni].
    assert (i ≠ pr). { intros ->. apply Hnd1. by eapply list_elem_of_lookup_2. }
    split_and!; [done|rewrite Hfr; done|]. eapply (IH _ l xs); eauto.
Qed.

Lemma areas_insert k n (y x : vma) xs :
  xs !! k = Some y →
  areas (insert_at (S k) x (<[k := set_vnext (Some n) y]> xs)) =
  insert_at (S k) (v_addri x, v_addre x) (areas xs).
Proof.
  intros Hy. unfold areas, insert_at. rewrite fmap_app, fmap_cons, fmap_take, fmap_drop.
  rewrite list_fmap_insert. rewrite list_insert_id; [done|].
  by rewrite list_lookup_fmap, Hy.
Qed.

(** ** findVma() *)

Fixpoint first_unused (vs : list vma) : option nat :=
  match vs with
  | [] => None
  | x :: vs => if v_use x =? 0 then Some O else S <$> first_unused vs
  end.

Lemma first_unused_Some vs n :
  first_unused vs = Some n → ∃ x, vs !! n = Some x ∧ v_use x = 0.
Proof.
  revert n. induction vs as [|x vs IH]; intros n; simpl; [done|].
  destruct (Z.eqb_spec (v_use x) 0); [intros [= <-]; eauto|].
  destruct (first_unused vs) as [j|]; simpl; [|done]. intros [= <-]. simpl. eauto.
Qed.

Lemma first_unused_None vs i x :
  first_unused vs = None → vs !! i = Some x → v_use x ≠ 0.
Proof.
  revert i. induction vs as [|y vs IH]; intros i; simpl; [done|].
  destruct (Z.eqb_spec (v_use y) 0); [done|].
  destruct (first_unused vs) as [j|]; simpl; [done|]. intros _.
  destruct i as [|i]; simpl; [by intros [= <-]|]. by apply IH.
Qed.

Lemma findVma_loop s k n :
  length (k_vmas s) = (k + n)%nat → L_vmas ∈ k_held s →
  findM (seq k n) (λ c,
    x ← vma_at (Some c);
    if v_use x =? 0 then
      upd_vma (Some c) (set_use 1);;
      release L_vmas;;
      mret (Some c)
    else mret None) s =
  match first_unused (drop k (k_vmas s)) with
  | Some j => Ok (Some (k + j)%nat) (set_held (k_held s ∖ {[L_vmas]})
                (set_vmas (alter (set_use 1) (k + j)%nat (k_vmas s)) s))
  | None => Ok None s
  end.
Proof.
  intros Hlen Hh. revert k Hlen. induction n as [|n IH]; intros k Hlen.
  - rewrite drop_ge by lia. done.
  - destruct (lookup_is_Some (k_vmas s) k ltac:(lia)) as [x Hx].
    cbn [seq findM]. rewrite bind_assoc, (bind_ok _ _ _ _ _ (vma_at_run _ _ _ Hx)). cbv beta.
    rewrite (drop_S _ _ _ Hx). cbn [first_unused].
    destruct (v_use x =? 0).
    + rewrite bind_assoc, (bind_ok _ _ _ _ _ (upd_vma_run k _ s ltac:(lia))).
      rewrite bind_assoc, (bind_ok _ _ _ _ _ (release_run L_vmas (set_vmas _ s) Hh)).
      run. rewrite Nat.add_0_r. done.
    + run. rewrite IH by lia. destruct (first_unused (drop (S k) (k_vmas s))) as [j|]; simpl; [|done].
      by rewrite Nat.add_succ_r.
Qed.

Lemma findVma_run s :
  length (k_vmas s) = VMAS_STORED → L_vmas ∉ k_held s →
  findVma s =
  match first_unused (k_vmas s) with
  | Some n => Ok (Some n) (set_vmas (alter (set_use 1) n (k_vmas s)) s)
  | None => Ok None s
  end.
Proof.
  intros Hlen Hh. unfold findVma. run_acquire.
  pose proof (findVma_loop (set_held ({[L_vmas]} ∪ k_held s) s) 0 VMAS_STORED Hlen ltac:(simpl; set_solver)) as E.
  rewrite drop_0 in E. change (k_vmas (set_held _ s)) with (k_vmas s) in E.
  destruct (first_unused (k_vmas s)) as [n|].
  - rewrite (bind_ok _ _ _ _ _ E). simpl. rewrite held_restore by done. by destruct s.
  - rewrite (bind_ok _ _ _ _ _ E). cbv beta iota. run_release. simpl.
    rewrite held_restore by done. by destruct s.
Qed.

(** ** The insertion loop of mmap() *)

(** The state after slot [n] has been linked between [pr] and [nx]. *)
Definition new_area (n : nat) (nx : option nat) (a e : Z) (x : vma) : vma :=
  set_vnext nx (set_addre e (set_addri a (set_use 1 x))).
Definition linked_vmas (vs : list vma) (n : nat) (pr nx : option nat) (a e : Z) : list vma :=
  alter (new_area n nx a e) n
    (match pr with
     | Some i => alter (set_vnext (Some n)) i vs
     | None => vs
     end).

(** What mmap_loop() does once the position is known. *)
Definition mmap_place (s : kstate) (p : nat) (psize : Z) (r : option (Z * option nat * option nat))
  : res kerr kstate (option nat) :=
  match r with
  | None => Ok None s
  | Some (a, pr, nx) =>
      match first_unused (k_vmas s) with
      | None => (release (L_proc p);; mret None) s
      | Some n => Ok (Some n) (set_vmas (linked_vmas (k_vmas s) n pr nx a (a + psize)) s)
      end
  end.

(** Equality of updated arrays, slot by slot. *)
Ltac alter_eq :=
  apply list_eq; intros ?; rewrite !list_lookup_alter; repeat case_decide; subst;
  try congruence; try match goal with |- context [?l !! ?i] => destruct (l !! i) end; done.

Section link.
Context (s : kstate) (p : nat) (psize : Z).
Context (Hlen : length (k_vmas s) = VMAS_STORED) (Hh : L_vmas ∉ k_held s).
Context (Hp : 0 ≤ psize).

Lemma first_unused_lt n : first_unused (k_vmas s) = Some n → (n < length (k_vmas s))%nat.
Proof using. intros (x & Hx & _)%first_unused_Some. by eapply lookup_lt_Some. Qed.

Lemma find_run {B} (k : option nat → K B) :
  (findVma ≫= k) s =
  match first_unused (k_vmas s) with
  | Some n => k (Some n) (set_vmas (alter (set_use 1) n (k_vmas s)) s)
  | None => k None s
  end.
Proof using Hlen Hh.
  pose proof (findVma_run s Hlen Hh) as E.
  destruct (first_unused (k_vmas s)); by rewrite (bind_ok _ _ _ _ _ E).
Qed.

(** Linking between [pr], whose area ends at [v_addre y], and [nx]. *)
Lemma link_between pr y nx :
  k_vmas s !! pr = Some y → v_use y ≠ 0 → 0 ≤ v_addre y →
  v_addre y + psize < 18446744073709551616 →
  (n ← findVma;
   match n with
   | None => release (L_proc p);; mret None
   | Some _ =>
       upd_vma (Some pr) (set_vnext n);;
       upd_vma n (set_vnext nx);;
       x ← vma_at (Some pr);
       upd_vma n (set_addri (v_addre x));;
       x ← vma_at (Some pr);
       upd_vma n (set_addre (u64 (v_addre x + psize)));;
       mret n
   end) s = mmap_place s p psize (Some (v_addre y, Some pr, nx)).
Proof using All.
  intros Hy Hu Ha Hb. unfold mmap_place. rewrite find_run.
  destruct (first_unused (k_vmas s)) as [n|] eqn:En; [|done].
  pose proof (first_unused_lt n En) as Hn. apply lookup_lt_Some in Hy as Hpr.
  assert (Hne : n ≠ pr).
  { intros ->. apply first_unused_Some in En as (x & Hx & ?). congruence. }
  do 2 run_upd. run_at. run_upd. run_at. run_upd. cbn [v_addre set_vnext]. rewrite u64_small by lia.
  unfold mret, M_ret. kst. do 2 f_equal. unfold linked_vmas, new_area. alter_eq.
Qed.

(** Linking at the end of the list, after [pr]. *)
Lemma link_last pr y :
  k_vmas s !! pr = Some y → v_use y ≠ 0 → 0 ≤ v_addre y →
  v_addre y + psize < 18446744073709551616 →
  (n ← findVma;
   match n with
   | None => release (L_proc p);; mret None
   | Some _ =>
       (upd_vma (Some pr) (set_vnext n);;
        x ← vma_at (Some pr);
        upd_vma n (set_addri (v_addre x));;
        x ← vma_at (Some pr);
        upd_vma n (set_addre (u64 (v_addre x + psize))));;
       upd_vma n (set_vnext None);;
       mret n
   end) s = mmap_place s p psize (Some (v_addre y, Some pr, None)).
Proof using All.
  intros Hy Hu Ha Hb. unfold mmap_place. rewrite find_run.
  destruct (first_unused (k_vmas s)) as [n|] eqn:En; [|done].
  pose proof (first_unused_lt n En) as Hn. apply lookup_lt_Some in Hy as Hpr.
  assert (Hne : n ≠ pr).
  { intros ->. apply first_unused_Some in En as (x & Hx & ?). congruence. }
  run_upd. run_at. run_upd. run_at. do 2 run_upd. cbn [v_addre set_vnext]. rewrite u64_small by lia.
  unfold mret, M_ret. kst. do 2 f_equal. unfold linked_vmas, new_area. alter_eq.
Qed.

(** The first area of a process. *)
Lemma link_first :
  START_ADDRESS + psize < 18446744073709551616 →
  (n ← findVma;
   match n with
   | None => release (L_proc p);; mret None
   | Some _ =>
       (upd_vma n (set_addri START_ADDRESS);;
        upd_vma n (set_addre (u64 (START_ADDRESS + psize))));;
       upd_vma n (set_vnext None);;
       mret n
   end) s = mmap_place s p psize (Some (START_ADDRESS, None, None)).
Proof using All.
  intros Hb. unfold mmap_place. rewrite find_run.
  destruct (first_unused (k_vmas s)) as [n|] eqn:En; [|done].
  pose proof (first_unused_lt n En) as Hn.
  do 3 run_upd. rewrite u64_small by (unfold START_ADDRESS in *; lia).
  unfold mret, M_ret. kst. do 2 f_equal. unfold linked_vmas, new_area. alter_eq.
Qed.

(** The position [fit] finds, as pointers: the address, the predecessor and
    the successor. *)
Definition pos (pr : nat) (l : list nat) (r : option (nat * Z)) : option (Z * option nat * option nat) :=
  match r with
  | None => None
  | Some (k, a) => Some (a, (pr :: l) !! k, l !! k)
  end.

Lemma mmap_loop_after l xs fuel pr y act :
  (length l < fuel)%nat → vchain (k_vmas s) act l xs →
  k_vmas s !! pr = Some y → v_use y ≠ 0 → Forall (λ x, v_use x ≠ 0) xs →
  0 ≤ v_addre y ≤ TOP_ADDRESS → ordered (v_addre y) (areas xs) →
  psize + TOP_ADDRESS < 18446744073709551616 →
  mmap_loop fuel p psize (Some pr) act s =
  mmap_place s p psize (pos pr l (fit (v_addre y) psize (areas xs))).
Proof using All.
  revert xs fuel pr y act.
  induction l as [|i l IH]; intros [|x xs] fuel pr y act Hf Hc Hy Hu Hus Ha Ho Hb;
    cbn [vchain] in Hc; try done; (destruct fuel as [|fuel]; [simpl in Hf; lia|]).
  - subst act. cbn [mmap_loop]. rewrite bind_assoc.
    rewrite (bind_ok _ _ _ _ _ (vma_at_run _ _ _ Hy)). run.
    rewrite u64_small by lia. cbn [areas fit fmap list_fmap pos].
    destruct (TOP_ADDRESS <? v_addre y + psize); [done|].
    apply link_last; (done || lia).
  - destruct Hc as (-> & Hx & Hc). apply Forall_cons in Hus as [Hux Hus].
    cbn [areas fmap list_fmap ordered] in Ho. destruct Ho as (H1 & H2 & H3 & _ & _ & Ho).
    cbn [mmap_loop]. rewrite bind_assoc.
    rewrite (bind_ok _ _ _ _ _ (vma_at_run _ _ _ Hy)). cbv beta. rewrite bind_assoc.
    rewrite (bind_ok _ _ _ _ _ (vma_at_run _ _ _ Hx)). run.
    rewrite u64_small by lia. cbn [areas fit fmap list_fmap].
    destruct (v_addre y + psize <=? v_addri x) eqn:Ele.
    + apply link_between; (done || lia).
    + rewrite (bind_ok _ _ _ _ _ (vma_at_run _ _ _ Hx)).
      rewrite (IH xs fuel i x); try done; [|simpl in Hf; lia|lia].
      unfold areas, fmap. destruct (fit (v_addre x) psize _) as [[k a]|]; done.
Qed.
End link.

Definition pos0 (l : list nat) (r : option (nat * Z)) : option (Z * option nat * option nat) :=
  match r with
  | None => None
  | Some (k, a) => Some (a, match k with O => None | S k => l !! k end, l !! k)
  end.

Lemma mmap_loop_run s p psize l xs fuel act :
  length (k_vmas s) = VMAS_STORED → L_vmas ∉ k_held s → 0 ≤ psize →
  psize + TOP_ADDRESS < 18446744073709551616 → (length l < fuel)%nat →
  vchain (k_vmas s) act l xs → Forall (λ x, v_use x ≠ 0) xs → areas_ok (areas xs) →
  mmap_loop fuel p psize None act s = mmap_place s p psize (pos0 l (place psize (areas xs))).
Proof.
  intros Hlen Hh Hp Hb Hf Hc Hus Ho. destruct fuel as [|fuel]; [lia|].
  destruct l as [|i l], xs as [|x xs]; cbn [vchain] in Hc; try done.
  - subst act. cbn [mmap_loop]. run.
    assert (START_ADDRESS + psize < 18446744073709551616)
      by (unfold START_ADDRESS, TOP_ADDRESS in *; lia).
    assert (E : (TOP_ADDRESS <? u64 (START_ADDRESS + psize)) = (TOP_ADDRESS <? START_ADDRESS + psize))
      by (rewrite u64_small; unfold START_ADDRESS in *; done || lia).
    rewrite E. cbn [areas fmap list_fmap place].
    destruct (TOP_ADDRESS <? START_ADDRESS + psize); [done|]. by apply link_first.
  - destruct Hc as (-> & Hx & Hc). apply Forall_cons in Hus as [Hux Hus].
    unfold areas_ok in Ho. cbn [areas fmap list_fmap ordered] in Ho.
    destruct Ho as (H1 & H2 & H3 & _ & _ & Ho). unfold START_ADDRESS in H1.
    cbn [mmap_loop]. run. rewrite (bind_ok _ _ _ _ _ (vma_at_run _ _ _ Hx)).
    rewrite (mmap_loop_after s p psize Hlen Hh Hp l xs fuel i x); try done; [|simpl in Hf; lia|lia].
    cbn [areas fmap list_fmap place]. unfold areas, fmap.
    destruct (fit (v_addre x) psize _) as [[k a]|]; done.
Qed.

(** ** The invariant *)

(** The areas of process [p] are the slots [l], which hold [xs]. *)
Record vmas_ok (s : kstate) (p : nat) (l : list nat) (xs : list vma) : Prop := {
  vo_len : length (k_vmas s) = VMAS_STORED;
  vo_proc : ∃ me, k_procs s !! p = Some me ∧ p_nvma me = Z.of_nat (length l) ∧
            vchain (k_vmas s) (p_vmas me) l xs;
  vo_max : (length l ≤ Z.to_nat MAX_VMAS)%nat;
  vo_nodup : NoDup l;
  vo_use : Forall (λ x, v_use x ≠ 0) xs;
  vo_areas : areas_ok (areas xs);
}.

(** A free slot is not on the list. *)
Lemma vmas_ok_free s p l xs n :
  vmas_ok s p l xs → first_unused (k_vmas s) = Some n → n ∉ l.
Proof.
  intros O (x & Hx & Hu)%first_unused_Some Hin. destruct (vo_proc _ _ _ _ O) as (me & _ & _ & Hc).
  destruct (vchain_elem _ _ _ _ _ Hc Hin) as (y & Hy & Hl).
  pose proof (vo_use _ _ _ _ O) as Hus. rewrite Forall_forall in Hus.
  assert (x = y) as -> by congruence. by apply (Hus y).
Qed.

(** ** mmap() *)

(** A descriptor that may be mapped with [flag]: open, and for a shared
    mapping both readable and writable. *)
Definition mappable (s : kstate) (me : proc) (fd flag : Z) (f : nat) (fx : file) : Prop :=
  0 ≤ fd ∧ p_ofile me !! Z.to_nat fd = Some (Some f) ∧ k_ftable s !! f = Some fx ∧
  (flag = MAP_SHARED → f_readable fx = 1 ∧ f_writable fx = 1).

Lemma ofile_at_run s p me fd f :
  k_procs s !! p = Some me → 0 ≤ fd → p_ofile me !! Z.to_nat fd = Some f →
  ofile_at p fd s = Ok f s.
Proof.
  intros Hme Hfd Hf. unfold ofile_at, proc_at.
  rewrite (bind_ok _ _ _ _ _ (deref_run k_procs p s me Hme)).
  rewrite (proj2 (Z.ltb_ge _ _)) by lia. by rewrite Hf.
Qed.

(** The permission check of mmap(). *)
Lemma mmap_check s me fd flag f fx {B} (k : bool → K B) :
  k_procs s !! k_cur s = Some me → mappable s me fd flag f fx →
  ((if flag =? MAP_SHARED then
      f ← ofile_at (k_cur s) fd;
      x ← file_at f;
      mret (negb (f_readable x =? 1) || negb (f_writable x =? 1))
    else mret false) ≫= k) s = k false s.
Proof.
  intros Hme (Hfd & Hf & Hfx & Hperm). destruct (Z.eqb_spec flag MAP_SHARED) as [->|]; [|done].
  rewrite bind_assoc, (bind_ok _ _ _ _ _ (ofile_at_run _ _ _ _ _ Hme Hfd Hf)). cbv beta.
  rewrite bind_assoc, (bind_ok _ _ _ _ _ (deref_run k_ftable f s fx Hfx)). run.
  destruct (Hperm eq_refl) as [-> ->]. done.
Qed.

(** The structure of a new mapping. *)
Definition new_vma (len prot flag : Z) (f : nat) (a : Z) (nx : option nat) : vma :=
  Vma 1 len (Some f) a a (a + PGROUNDUP len) 0 nx prot flag.

(** vmas[] after mmap(). *)
Definition mapped_vmas (vs : list vma) (n : nat) (pr : option nat) (x : vma) : list vma :=
  <[n := x]> (match pr with
              | Some i => alter (set_vnext (Some n)) i vs
              | None => vs
              end).

(** struct proc after mmap(). *)
Definition mapped_proc (n : nat) (x : proc) : proc :=
  let y := if p_nvma x =? 0 then set_pvmas (Some n) x else x in
  set_nvma (p_nvma x + 1) y.

Lemma alter_linked vs n pr nx a e x (h : vma → vma) :
  (n < length vs)%nat → pr ≠ Some n → (∀ y, h (new_area n nx a e y) = x) →
  alter h n (linked_vmas vs n pr nx a e) = mapped_vmas vs n pr x.
Proof.
  intros Hn Hne Hh. unfold linked_vmas, mapped_vmas. rewrite list_alter_alter_eq.
  apply list_eq. intros i.
  assert (Hn' : (n < length (match pr with Some i => alter (set_vnext (Some n)) i vs | None => vs end))%nat)
    by (destruct pr; rewrite ?length_alter; done).
  destruct (decide (i = n)) as [->|].
  - rewrite list_lookup_alter_eq, list_lookup_insert_eq by done.
    destruct (lookup_is_Some _ _ Hn') as [y ->]. simpl. by rewrite Hh.
  - by rewrite list_lookup_alter_ne, list_lookup_insert_ne by done.
Qed.

Lemma mmap_run s me l xs len prot flag fd f fx k a n :
  let p := k_cur s in
  vmas_ok s p l xs → k_procs s !! p = Some me → mappable s me fd flag f fx →
  0 ≤ f_ref fx < 2147483647 → (length l < Z.to_nat MAX_VMAS)%nat → 0 < len ≤ 2 ^ 63 →
  L_proc p ∉ k_held s → L_vmas ∉ k_held s →
  place (PGROUNDUP len) (areas xs) = Some (k, a) → first_unused (k_vmas s) = Some n →
  mmap len prot flag fd s =
  Ok a (set_procs (alter (mapped_proc n) p (k_procs s))
       (set_ftable (alter (λ x, set_fref (f_ref x + 1) x) f (k_ftable s))
       (set_vmas (mapped_vmas (k_vmas s) n (match k with O => None | S k => l !! k end)
                   (new_vma len prot flag f a (l !! k))) s))).
Proof.
  intros p O Hme Hf Href Hl Hlen Hhp Hhv Hpl Hn.
  destruct (vo_proc _ _ _ _ O) as (me' & Hme' & Hnv & Hc). assert (me' = me) as -> by congruence.
  pose proof (vo_len _ _ _ _ O) as Hvl. pose proof (first_unused_lt s n Hn) as Hnl.
  pose proof Hf as (Hfd & Hof & Hfx & _).
  unfold mmap, myproc. run. fold p. rewrite (mmap_check s me fd flag f fx) by done. cbv iota.
  run_acquire. rewrite (bind_ok _ _ _ _ _ (deref_run k_procs p (set_held _ s) me Hme)).
  rewrite (proj2 (Z.eqb_neq _ _)) by (rewrite Hnv; unfold MAX_VMAS in *; lia).
  set (s1 := set_held _ s).
  assert (Hps : 0 ≤ PGROUNDUP len ∧ PGROUNDUP len + TOP_ADDRESS < 18446744073709551616).
  { pose proof (pgroundup_bounds len). unfold TOP_ADDRESS, PGSIZE in *. lia. }
  rewrite (bind_ok _ _ _ (Some n) (set_vmas (linked_vmas (k_vmas s) n
    (match k with O => None | S k => l !! k end) (l !! k) a (a + PGROUNDUP len)) s1)).
  2:{ rewrite (mmap_loop_run s1 p _ l xs); try done; try apply O; try lia.
      - rewrite Hpl. unfold mmap_place, pos0. change (k_vmas s1) with (k_vmas s). by rewrite Hn.
      - simpl. set_solver. }
  assert (Hpr : match k with O => None | S k => l !! k end ≠ Some n).
  { pose proof (vmas_ok_free _ _ _ _ _ O Hn). destruct k as [|k]; [done|].
    intros ?%list_elem_of_lookup_2. done. }
  set (VS := linked_vmas _ _ _ _ _ _).
  assert (HVS : length VS = length (k_vmas s)).
  { subst VS. unfold linked_vmas. destruct k as [|k]; simpl; [by rewrite length_alter|].
    destruct (l !! k); by rewrite !length_alter. }
  cbv iota. do 2 run_upd.
  erewrite bind_ok; [|by apply (ofile_at_run _ p me)]. cbv beta.
  do 4 run_upd.
  run_upd. run_at.
  assert (Hpl' : (p < length (k_procs s))%nat) by (eapply lookup_lt_Some; exact Hme).
  assert (HVn : ∃ y, VS !! n = Some (new_area n (l !! k) a (a + PGROUNDUP len) y)).
  { subst VS. unfold linked_vmas. rewrite list_lookup_alter_eq.
    destruct (lookup_is_Some (k_vmas s) n Hnl) as [y Hy].
    exists y. destruct k as [|k]; [by rewrite Hy|].
    destruct (l !! k) as [i|]; [|by rewrite Hy].
    rewrite list_lookup_alter_ne by congruence. by rewrite Hy. }
  destruct HVn as [y HVn].
  assert (Hheld : ∀ s', k_held s' = {[L_proc p]} ∪ k_held s →
    release (L_proc p) s' = Ok tt (set_held (k_held s) s')).
  { intros s' E. rewrite release_run by (rewrite E; set_solver). by rewrite E, held_restore. }
  assert (HP : set_nvma (s32 (p_nvma me + 1)) (if p_nvma me =? 0 then set_pvmas (Some n) me else me)
               = mapped_proc n me).
  { unfold mapped_proc. rewrite s32_small by (rewrite Hnv; unfold MAX_VMAS in *; lia). done. }
  assert (HF : alter (λ x : file, set_fref (s32 (f_ref x + 1)) x) f (k_ftable s) =
               alter (λ x : file, set_fref (f_ref x + 1) x) f (k_ftable s)).
  { apply list_eq. intros i. rewrite !list_lookup_alter. case_decide; [|done]. rewrite Hfx. simpl.
    by rewrite s32_small by lia. }
  assert (HPS : ∀ g, g me = mapped_proc n me → alter g p (k_procs s) = alter (mapped_proc n) p (k_procs s)).
  { intros g Hg. apply list_eq. intros i. rewrite !list_lookup_alter. case_decide; [|done].
    rewrite Hme. simpl. by rewrite Hg. }
  destruct (Z.eqb_spec (p_nvma me) 0) as [Ez|Ez]; cbn [when]; unfold skip.
  all: run; repeat run_upd; erewrite bind_ok; [|by apply Hheld].
  all: cbv beta; kst; erewrite bind_ok; [|apply vma_at_run; tbl_at].
  all: unfold mret, M_ret; cbv beta; f_equal; kst; f_equal.
  all: rewrite ?list_alter_alter_eq.
  all: try (by apply alter_linked); try done; apply HPS; done.
Qed.

Lemma fit_pos e psize l k a : fit e psize l = Some (k, a) → (k ≤ length l)%nat.
Proof.
  revert e k a. induction l as [|[b c] l IH]; intros e k a; simpl.
  - destruct (_ <? _); [done|]. by intros [= <- _].
  - destruct (_ <=? _); [intros [= <- _]; lia|].
    destruct (fit c psize l) as [[k' a']|] eqn:E; simpl; [|done]. intros [= <- _].
    apply IH in E. lia.
Qed.

Lemma place_pos psize l k a :
  place psize l = Some (k, a) → (k = O ∧ l = []) ∨ (∃ j, k = S j ∧ (j < length l)%nat).
Proof.
  destruct l as [|[b c] l]; simpl.
  - destruct (_ <? _); [done|]. intros [= <- _]. by left.
  - destruct (fit c psize l) as [[k' a']|] eqn:E; simpl; [|done]. intros [= <- _].
    right. exists k'. apply fit_pos in E. split; [done|lia].
Qed.

Lemma length_insert_at {A} k (x : A) l : (k ≤ length l)%nat → length (insert_at k x l) = S (length l).
Proof. intros. unfold insert_at. rewrite length_app, length_take. simpl. rewrite length_drop. lia. Qed.

Lemma NoDup_insert_at {A} k (x : A) l : x ∉ l → NoDup l → NoDup (insert_at k x l).
Proof.
  intros Hx Hl. unfold insert_at. rewrite <- (take_drop k l) in Hx, Hl.
  apply NoDup_app in Hl as (H1 & H2 & H3). apply NoDup_app. split_and!; [done| |].
  - intros y Hy. rewrite elem_of_cons. intros [->|?]; [set_solver|]. by eapply H2.
  - apply NoDup_cons. split; [set_solver|done].
Qed.

Lemma Forall_insert_at {A} (P : A → Prop) k x l : P x → Forall P l → Forall P (insert_at k x l).
Proof. intros. apply Forall_app. split; [by apply Forall_take|]. constructor; [done|by apply Forall_drop]. Qed.

(** mmap() keeps the invariant and refines first-fit placement: the areas of
    the process after the call are the old ones with the new one inserted. *)
Lemma mapped_ok s l xs len prot flag f k a n h ft :
  let p := k_cur s in
  let vs := mapped_vmas (k_vmas s) n (match k with O => None | S k => l !! k end)
              (new_vma len prot flag f a (l !! k)) in
  vmas_ok s p l xs → (length l < Z.to_nat MAX_VMAS)%nat → 0 < len ≤ 2 ^ 63 →
  place (PGROUNDUP len) (areas xs) = Some (k, a) → first_unused (k_vmas s) = Some n →
  ∃ xs', vmas_ok (set_held h (set_procs (alter (mapped_proc n) p (k_procs s))
            (set_ftable ft (set_vmas vs s)))) p (insert_at k n l) xs' ∧
         areas xs' = insert_at k (a, a + PGROUNDUP len) (areas xs) ∧
         xs' !! k = Some (new_vma len prot flag f a (l !! k)).
Proof.
  intros p vs O Hl Hlen Hpl Hn.
  pose proof (vmas_ok_free _ _ _ _ _ O Hn) as Hni.
  destruct (vo_proc _ _ _ _ O) as (me & Hme & Hnv & Hc).
  pose proof (vo_len _ _ _ _ O) as Hvl. pose proof (first_unused_lt s n Hn) as Hnl.
  pose proof (vchain_length _ _ _ _ Hc) as Hlx.
  assert (Hps : 0 < PGROUNDUP len ∧ PGROUNDUP len mod PGSIZE = 0).
  { split; [|auto with kernel]. pose proof (pgroundup_bounds len). unfold PGSIZE in *. lia. }
  assert (Hao : areas_ok (insert_at k (a, a + PGROUNDUP len) (areas xs))).
  { eapply place_ok; try apply Hps; [apply O|done]. }
  set (x := new_vma len prot flag f a (l !! k)).
  assert (Hvs : length vs = VMAS_STORED).
  { subst vs. unfold mapped_vmas. rewrite length_insert.
    destruct k as [|k]; [done|]. destruct (l !! k); by rewrite ?length_alter. }
  destruct (place_pos _ _ _ _ Hpl) as [[-> Hnil]|(j & -> & Hj)].
  - destruct xs as [|? ?]; [|done]. destruct l; [|done].
    exists [x]. split_and!; [|done..]. split; kst.
    + done.
    + exists (mapped_proc n me). rewrite list_lookup_alter_eq, Hme. split; [done|].
      unfold mapped_proc. rewrite Hnv. simpl. split_and!; [done|done| |done].
      subst vs. unfold mapped_vmas. by rewrite list_lookup_insert_eq.
    + simpl. unfold MAX_VMAS. lia.
    + apply NoDup_singleton.
    + by repeat constructor.
    + exact Hao.
  - unfold areas in Hj. rewrite length_fmap, <- Hlx in Hj.
    destruct (lookup_is_Some l j Hj) as [pr Hpr].
    destruct (vchain_lookup _ _ _ _ _ _ Hc Hpr) as (y & Hy & Hvy).
    assert (Hne : pr ≠ n) by (intros ->; apply Hni; by eapply list_elem_of_lookup_2).
    exists (insert_at (S j) x (<[j := set_vnext (Some n) y]> xs)).
    assert (Har : areas (insert_at (S j) x (<[j:=set_vnext (Some n) y]> xs)) =
                  insert_at (S j) (a, a + PGROUNDUP len) (areas xs)) by by apply areas_insert.
    split_and!; [|done|].
    2:{ unfold insert_at. rewrite lookup_app_r by (rewrite length_take; lia).
        rewrite length_take, length_insert, Nat.min_l, Nat.sub_diag by lia. done. }
    split; kst.
    + done.
    + exists (mapped_proc n me). rewrite list_lookup_alter_eq, Hme. split; [done|].
      unfold mapped_proc. rewrite Hnv, (proj2 (Z.eqb_neq _ _)) by lia. cbn.
      rewrite length_insert_at by lia. split; [lia|].
      eapply (vchain_insert (k_vmas s) vs); try done; [apply O| | |].
      * intros i Hin Hip. subst vs. unfold mapped_vmas. rewrite Hpr.
        by rewrite list_lookup_insert_ne, list_lookup_alter_ne.
      * subst vs. unfold mapped_vmas. rewrite Hpr.
        by rewrite list_lookup_insert_ne, list_lookup_alter_eq, Hvy.
      * subst vs. unfold mapped_vmas. rewrite Hpr.
        by rewrite list_lookup_insert_eq by (rewrite length_alter; done).
    + rewrite length_insert_at by lia. lia.
    + apply NoDup_insert_at; [done|apply O].
    + apply Forall_insert_at; [done|]. apply Forall_insert; [apply O|].
      simpl. pose proof (vo_use _ _ _ _ O) as Hus. exact (Forall_lookup_1 _ _ _ _ Hus Hy).
    + by rewrite Har.
Qed.

(** ** The theorems *)

(** C2: mmap() implements first-fit placement.  For an open descriptor with the
    right permissions, fewer than MAX_VMAS areas, a free slot and a length that
    fits, it returns the address [place] chooses; the areas of the process are
    then the old ones with [a, a + PGROUNDUP(length)) inserted in order, still
    disjoint and below TOP_ADDRESS; the new slot records the file, protection
    and flags; the file gains one reference; the locks are as before. *)
Theorem mmap_first_fit s me l xs len prot flag fd f fx k a n :
  let p := k_cur s in
  vmas_ok s p l xs → k_procs s !! p = Some me → mappable s me fd flag f fx →
  0 ≤ f_ref fx < 2147483647 → (length l < Z.to_nat MAX_VMAS)%nat → 0 < len ≤ 2 ^ 63 →
  L_proc p ∉ k_held s → L_vmas ∉ k_held s →
  place (PGROUNDUP len) (areas xs) = Some (k, a) → first_unused (k_vmas s) = Some n →
  ∃ s' xs',
    mmap len prot flag fd s = Ok a s' ∧
    vmas_ok s' p (insert_at k n l) xs' ∧
    areas xs' = insert_at k (a, a + PGROUNDUP len) (areas xs) ∧
    xs' !! k = Some (new_vma len prot flag f a (l !! k)) ∧
    k_ftable s' !! f = Some (set_fref (f_ref fx + 1) fx) ∧
    k_held s' = k_held s ∧ k_mm s' = k_mm s.
Proof.
  intros p O Hme Hf Href Hl Hlen Hhp Hhv Hpl Hn.
  rewrite (mmap_run s me l xs len prot flag fd f fx k a n) by done.
  destruct (mapped_ok s l xs len prot flag f k a n (k_held s)
    (alter (λ x, set_fref (f_ref x + 1) x) f (k_ftable s)) O Hl Hlen Hpl Hn) as (xs' & O' & Ha & Hx).
  do 2 eexists. split; [done|]. split_and!; [|exact Ha|exact Hx| |done..].
  - destruct O'. by split.
  - simpl. rewrite list_lookup_alter_eq. destruct Hf as (_ & _ & -> & _). done.
Qed.

Lemma vmas_ok0 s : k_vmas s = replicate 30 vma_unused → k_procs s = k_procs st0 → vmas_ok s 0 [] [].
Proof.
  intros E1 E2. split; rewrite ?E1, ?E2; [done|by eexists|vm_compute; lia|apply NoDup_nil_2|constructor|done].
Qed.

Lemma mmap_first_fit_witness :
  ∃ s' xs', mmap 5000 PROT_READ_WRITE MAP_SHARED 0 st0 = Ok START_ADDRESS s' ∧
    vmas_ok s' 0 [0%nat] xs' ∧ areas xs' = [(START_ADDRESS, START_ADDRESS + 8192)].
Proof.
  destruct (mmap_first_fit st0 (running [Some 0%nat]) [] [] 5000 PROT_READ_WRITE MAP_SHARED 0 0
    file_rw 0 START_ADDRESS 0) as (s' & xs' & E & O & Ha & _); try done.
  - by apply vmas_ok0.
  - vm_compute. lia.
  - exists s', xs'. split_and!; done.
Defined.

(** C40: The error paths of mmap() that leave the kernel as it was: a descriptor
    without the permissions a shared mapping needs, a process with MAX_VMAS
    areas, and a full vmas[] all return MAP_FAILED and change nothing. *)
Theorem mmap_errors s me l xs len prot flag fd f fx :
  let p := k_cur s in
  vmas_ok s p l xs → k_procs s !! p = Some me →
  0 ≤ fd → p_ofile me !! Z.to_nat fd = Some (Some f) → k_ftable s !! f = Some fx →
  0 < len ≤ 2 ^ 63 → L_proc p ∉ k_held s → L_vmas ∉ k_held s →
  (flag = MAP_SHARED ∧ ¬ (f_readable fx = 1 ∧ f_writable fx = 1)) ∨
  (mappable s me fd flag f fx ∧ length l = Z.to_nat MAX_VMAS) ∨
  (mappable s me fd flag f fx ∧ (length l < Z.to_nat MAX_VMAS)%nat ∧
   place (PGROUNDUP len) (areas xs) ≠ None ∧ first_unused (k_vmas s) = None) →
  mmap len prot flag fd s = Ok MAP_FAILED s.
Proof.
  intros p O Hme Hfd Hof Hfx Hlen Hhp Hhv Hcase.
  destruct (vo_proc _ _ _ _ O) as (me' & Hme' & Hnv & Hc). assert (me' = me) as -> by congruence.
  pose proof (vo_len _ _ _ _ O) as Hvl.
  unfold mmap, myproc. run. fold p. destruct Hcase as [[-> Hp]|[[Hm Hl]|(Hm & Hl & Hpl & Hn)]].
  - rewrite Z.eqb_refl, bind_assoc, (bind_ok _ _ _ _ _ (ofile_at_run _ _ _ _ _ Hme Hfd Hof)).
    run_at. run.
    destruct (Z.eqb_spec (f_readable fx) 1), (Z.eqb_spec (f_writable fx) 1); try done.
    by destruct Hp.
  - rewrite (mmap_check s me fd flag f fx) by done. cbv iota.
    run_acquire. kst. run_at. rewrite Hnv, Hl. change (Z.of_nat (Z.to_nat MAX_VMAS) =? MAX_VMAS) with true. cbv iota. run_release. kst.
    rewrite held_restore by done. run. by destruct s.
  - rewrite (mmap_check s me fd flag f fx) by done. cbv iota.
    run_acquire. kst. run_at.
    rewrite (proj2 (Z.eqb_neq _ _)) by (rewrite Hnv; unfold MAX_VMAS in *; lia).
    assert (Hps : 0 ≤ PGROUNDUP len ∧ PGROUNDUP len + TOP_ADDRESS < 18446744073709551616).
    { pose proof (pgroundup_bounds len). unfold TOP_ADDRESS, PGSIZE in *. lia. }
    set (s1 := KState _ _ _ _ _ _ _ _ _ _ _ _).
    assert (E : mmap_loop (S (Z.to_nat MAX_VMAS)) p (PGROUNDUP len) None (p_vmas me) s1 = Ok None s).
    { rewrite (mmap_loop_run s1 p _ l xs); try done; try apply O; try lia.
      - destruct (place (PGROUNDUP len) (areas xs)) as [[k a]|]; [|done].
        unfold mmap_place, pos0. change (k_vmas s1) with (k_vmas s). rewrite Hn.
        unfold s1. run_release. kst. rewrite held_restore by done. by destruct s.
      - simpl. set_solver. }
    by rewrite (bind_ok _ _ _ _ _ E).
Qed.

(** The first machine with every slot of vmas[] taken by other processes. *)
Definition st_full : kstate := set_vmas (replicate 30 (set_use 1 vma_unused)) st0.

Lemma mmap_errors_witness : mmap 5000 PROT_READ MAP_PRIVATE 0 st_full = Ok MAP_FAILED st_full.
Proof.
  apply (mmap_errors st_full (running [Some 0%nat]) [] [] 5000 PROT_READ MAP_PRIVATE 0 0 file_rw);
    try done.
  - split; [done|by eexists|vm_compute; lia|apply NoDup_nil_2|constructor|done].
  - right. right. split_and!; [|vm_compute; lia|done|done]. by split_and!.
Defined.

(** When no area of the requested size fits below TOP_ADDRESS, mmap()
    returns MAP_FAILED without releasing p->lock: the process comes back
    holding it, and the next acquire of it (in the next mmap(), munmap(),
    yield() or exit() of that process) panics. *)
Theorem mmap_nofit_keeps_lock s me l xs len prot flag fd f fx :
  let p := k_cur s in
  vmas_ok s p l xs → k_procs s !! p = Some me → mappable s me fd flag f fx →
  (length l < Z.to_nat MAX_VMAS)%nat → 0 < len ≤ 2 ^ 63 →
  L_proc p ∉ k_held s → L_vmas ∉ k_held s → place (PGROUNDUP len) (areas xs) = None →
  let s' := set_held ({[L_proc p]} ∪ k_held s) s in
  mmap len prot flag fd s = Ok MAP_FAILED s' ∧ acquire (L_proc p) s' = Err (EPanic "acquire") s'.
Proof.
  intros p O Hme Hf Hl Hlen Hhp Hhv Hpl s'.
  destruct (vo_proc _ _ _ _ O) as (me' & Hme' & Hnv & Hc). assert (me' = me) as -> by congruence.
  pose proof (vo_len _ _ _ _ O) as Hvl.
  split; [|apply acquire_held; simpl; set_solver].
  unfold mmap, myproc. run. fold p. rewrite (mmap_check s me fd flag f fx) by done. cbv iota.
  run_acquire. fold s'. rewrite (bind_ok _ _ _ _ _ (proc_at_run p s' me Hme)).
  rewrite (proj2 (Z.eqb_neq _ _)) by (rewrite Hnv; unfold MAX_VMAS in *; lia).
  assert (Hps : 0 ≤ PGROUNDUP len ∧ PGROUNDUP len + TOP_ADDRESS < 18446744073709551616).
  { pose proof (pgroundup_bounds len). unfold TOP_ADDRESS, PGSIZE in *. lia. }
  assert (E : mmap_loop (S (Z.to_nat MAX_VMAS)) p (PGROUNDUP len) None (p_vmas me) s' = Ok None s').
  { rewrite (mmap_loop_run s' p _ l xs); try done; try apply O; try lia; [by rewrite Hpl|].
    simpl. set_solver. }
  by rewrite (bind_ok _ _ _ _ _ E).
Qed.

Lemma mmap_nofit_keeps_lock_witness :
  mmap (2 ^ 40) PROT_READ MAP_PRIVATE 0 st0 = Ok MAP_FAILED (set_held {[L_proc 0]} st0).
Proof.
  destruct (mmap_nofit_keeps_lock st0 (running [Some 0%nat]) [] [] (2 ^ 40) PROT_READ MAP_PRIVATE 0 0 file_rw)
    as [E _]; try done; try (by apply vmas_ok0); vm_compute; lia.
Defined.

(** A descriptor that is not open is not checked for: mapping it privately
    makes the kernel follow a null file pointer (after the slot has been taken
    and with p->lock held). *)
Theorem mmap_closed_fd_faults s me l xs len prot fd k a n :
  let p := k_cur s in
  vmas_ok s p l xs → k_procs s !! p = Some me →
  0 ≤ fd → p_ofile me !! Z.to_nat fd = Some None →
  (length l < Z.to_nat MAX_VMAS)%nat → 0 < len ≤ 2 ^ 63 →
  L_proc p ∉ k_held s → L_vmas ∉ k_held s →
  place (PGROUNDUP len) (areas xs) = Some (k, a) → first_unused (k_vmas s) = Some n →
  ∃ s', mmap len prot MAP_PRIVATE fd s = Err (EFault 0) s' ∧ L_proc p ∈ k_held s'.
Proof.
  intros p O Hme Hfd Hof Hl Hlen Hhp Hhv Hpl Hn.
  destruct (vo_proc _ _ _ _ O) as (me' & Hme' & Hnv & Hc). assert (me' = me) as -> by congruence.
  pose proof (vo_len _ _ _ _ O) as Hvl. pose proof (first_unused_lt s n Hn) as Hnl.
  unfold mmap, myproc. run. fold p. change (MAP_PRIVATE =? MAP_SHARED) with false. cbv iota. run.
  run_acquire. kst. run_at.
  rewrite (proj2 (Z.eqb_neq _ _)) by (rewrite Hnv; unfold MAX_VMAS in *; lia).
  set (s1 := KState _ _ _ _ _ _ _ _ _ _ _ _).
  assert (Hps : 0 ≤ PGROUNDUP len ∧ PGROUNDUP len + TOP_ADDRESS < 18446744073709551616).
  { pose proof (pgroundup_bounds len). unfold TOP_ADDRESS, PGSIZE in *. lia. }
  erewrite bind_ok.
  2:{ rewrite (mmap_loop_run s1 p _ l xs); try done; try apply O; try lia; [|simpl; set_solver].
      rewrite Hpl. unfold mmap_place, pos0. change (k_vmas s1) with (k_vmas s). by rewrite Hn. }
  set (VS := linked_vmas _ _ _ _ _ _).
  assert (HVS : length VS = length (k_vmas s)).
  { subst VS. unfold linked_vmas. destruct k as [|k]; simpl; [by rewrite length_alter|].
    destruct (l !! k); by rewrite !length_alter. }
  cbv iota. unfold s1. do 2 run_upd.
  erewrite bind_ok; [|by apply (ofile_at_run _ p me)]. cbv beta. do 4 run_upd.
  eexists. split; [by apply bind_err|]. kst. set_solver.
Qed.

Lemma mmap_closed_fd_faults_witness :
  ∃ s', mmap 100 PROT_READ MAP_PRIVATE 5 st0 = Err (EFault 0) s'.
Proof.
  destruct (mmap_closed_fd_faults st0 (running [Some 0%nat]) [] [] 100 PROT_READ 5 0 START_ADDRESS 0)
    as (s' & E & _); try done; try (by apply vmas_ok0); try (vm_compute; lia). by exists s'.
Defined.
