(* ===== verification/VmaUnmap.v ===== *)
(** munmap() of kernel/file.c: what it does to the page table, the frames and
    the list of areas. *)

From S2P Require Import Prelude Riscv Kstate Mem Kalloc Vm PageTable VmSpec Machine VmMap VmCopy MemTheorems Sched Fs File Vma VmaSpec.

Section unmap.
Context {L : Layout} {LO : LayoutOk L}.

(** ** The page loop *)

(** A page munmap() can drop without writing to the file: a mapped user page
    that is clean or private ([Some pg]), or an unmapped page whose page table
    exists ([None]). *)
Definition quiet (s : kstate) (root : Z) (l : list Z) (shared : bool) (va : Z) (o : option Z) : Prop :=
  match o with
  | Some pg => user_page s root l va pg ∧ has (leaf (view s) root va) PTE_D && shared = false
  | None => has (leaf (view s) root va) PTE_V = false ∧ node (view s) root (va_path va) ≠ None
  end.

Lemma page_va_eq addr i :
  0 ≤ addr < MAXVA → 0 ≤ i < 524288 → page_va addr i = PGROUNDDOWN addr + 4096 * i.
Proof.
  intros Ha Hi. assert (HM : MAXVA = 274877906944) by done. unfold page_va, PGSIZE.
  rewrite s32_small by lia. rewrite u64_small by lia. rewrite !pgrounddown_eq.
  rewrite Z.div_add by lia. lia.
Qed.

(** After the frames of other pages have been freed, a quiet page is still
    quiet. *)
Lemma quiet_frames s s' root l pgs va shared o :
  unmapped s s' root l pgs → leaf (view s') root va = leaf (view s) root va →
  (∀ q, o = Some q → q ∉ pgs) → quiet s root l shared va o → quiet s' root (reverse pgs ++ l) shared va o.
Proof.
  intros U Lf Hne. destruct o as [q|]; cbn [quiet].
  - intros [[V1 V2 V3 V4 V5 V6] Hd]. rewrite Lf. split; [|done]. specialize (Hne q eq_refl).
    split; rewrite ?Lf; [exact V1|exact V2|exact V3|exact V4| |].
    + eapply plain_frame; [apply U|exact V5|]. rewrite elem_of_app, elem_of_reverse.
      intros [?|?]; [done|]. by apply V5.
    + rewrite (un_ref _ _ _ _ _ U); [exact V6|done].
  - rewrite Lf. by rewrite (un_nodes _ _ _ _ _ U) by apply va_path_ok.
Qed.

Lemma quiet_frame s s' root l pg va shared o :
  unmapped s s' root l [pg] → leaf (view s') root va = leaf (view s) root va →
  (∀ q, o = Some q → q ≠ pg) → quiet s root l shared va o → quiet s' root (pg :: l) shared va o.
Proof.
  intros U Lf Hne. apply (quiet_frames s s' root l [pg] va shared o U Lf).
  intros q Hq ?%list_elem_of_singleton. by apply (Hne q).
Qed.

Lemma unmapped_refl s root l : unmapped s s root l [].
Proof. split; [by rewrite set_mm_id|done..]. Qed.

(** The frames of the mapped pages. *)
Definition frames (pgs : list (option Z)) : list Z := omap id pgs.

Lemma elem_of_frames pgs j q : pgs !! j = Some (Some q) → q ∈ frames pgs.
Proof. intros H. unfold frames. rewrite list_elem_of_omap. exists (Some q). split; [|done]. by eapply list_elem_of_lookup_2. Qed.

(** What the loop does to the page table. *)
Definition cleared (s s' : kstate) (root lo hi : Z) : Prop :=
  (∀ va, lo ≤ va < hi → has (leaf (view s') root va) PTE_V = false) ∧
  (∀ va, 0 ≤ va < MAXVA → ¬ (lo ≤ va < hi) → leaf (view s') root va = leaf (view s) root va).

(** One iteration. *)
Lemma munmap_page_step p act me x s root l fuel addr count i o :
  let v := PGROUNDDOWN addr + 4096 * i in
  k_procs s !! p = Some me → p_pagetable me = root → k_vmas s !! act = Some x →
  as_ok s root l → L_kmem ∉ k_held s →
  0 ≤ addr < MAXVA → 0 ≤ i < 524288 → i < count → v + 4096 ≤ MAXVA →
  quiet s root l (v_flag x =? MAP_SHARED) v o →
  ∃ s',
    munmap_pages (S fuel) p act addr count i s = munmap_pages fuel p act addr count (i + 1) s' ∧
    match o with
    | Some pg =>
        as_ok s' root (pg :: l) ∧ unmapped s s' root l [pg] ∧
        (∀ va, 0 ≤ va < MAXVA → leaf (view s') root va =
           if decide (v ≤ va < v + 4096) then 0 else leaf (view s) root va)
    | None => s' = s
    end.
Proof.
  intros v Hme Hrt Hx A Hh Hva Hi Hc Htop Q. assert (HM : MAXVA = 274877906944) by done.
  assert (Hv : 0 ≤ v) by (subst v; rewrite pgrounddown_eq; dlia).
  assert (Hal : v mod PGSIZE = 0).
  { subst v. auto with kernel. }
  cbn [munmap_pages]. rewrite u64_small by lia. rewrite (proj2 (Z.ltb_lt _ _)) by lia. cbn [negb].
  run_at. rewrite Hrt, page_va_eq by done. fold v.
  rewrite (bind_ok _ _ _ _ _ (walk_lookup s root v (as_wf _ _ _ A) ltac:(lia))).
  assert (Hnode : node (view s) root (va_path v) ≠ None).
  { destruct o as [pg|]; [|apply Q]. destruct Q as [[V _ _ _ _ _] _]. intros E.
    unfold leaf in V. by rewrite E in V. }
  destruct (node (view s) root (va_path v)) as [t0|] eqn:Hn; [clear Hnode|done].
  pose proof (wf_tbl _ _ (as_wf _ _ _ A) _ _ (va_path_ok v) Hn) as Ht0.
  pose proof (tbl_slot_ram t0 _ Ht0 (px_idx_ok 0 v ltac:(lia))) as Hram.
  rewrite (bind_ok _ _ _ _ _ (load64_run _ s Hram)).
  assert (Hleaf : ld64 (mem s) (t0 + 8 * PX 0 v) = leaf (view s) root v).
  { unfold leaf. by rewrite Hn. }
  rewrite Hleaf. rewrite (s32_small (i + 1)) by lia. destruct o as [pg|]; cbn [quiet] in Q.
  - destruct Q as [U Hd]. rewrite (up_valid _ _ _ _ _ U). run_at. rewrite Hd. run.
    destruct (uvmunmap_ok s root l v [pg]) as (s' & E & A' & U' & Lf);
      [exact A|exact Hh|exact Hal|exact Hv|simpl; lia|apply NoDup_singleton| |].
    { intros [|j] q Hq; simplify_eq/=. by rewrite Z.add_0_r. }
    rewrite (bind_ok _ _ _ _ _ E). exists s'. split; [done|]. split_and!; [exact A'|exact U'|].
    exact Lf.
  - destruct Q as [Hinv _]. rewrite Hinv. exists s. done.
Qed.

Lemma munmap_pages_ok p act me x root pgs : ∀ fuel s l addr i,
  let a := PGROUNDDOWN addr in
  let count := i + Z.of_nat (length pgs) in
  k_procs s !! p = Some me → p_pagetable me = root → k_vmas s !! act = Some x →
  as_ok s root l → L_kmem ∉ k_held s →
  0 ≤ addr < MAXVA → 0 ≤ i → count ≤ 524288 → a + 4096 * count ≤ MAXVA →
  NoDup (frames pgs) → (length pgs ≤ fuel)%nat →
  (∀ j o, pgs !! j = Some o →
     quiet s root l (v_flag x =? MAP_SHARED) (a + 4096 * (i + Z.of_nat j)) o) →
  ∃ s',
    munmap_pages fuel p act addr count i s = Ok true s' ∧
    as_ok s' root (reverse (frames pgs) ++ l) ∧ unmapped s s' root l (frames pgs) ∧
    cleared s s' root (a + 4096 * i) (a + 4096 * count).
Proof.
  assert (HM : MAXVA = 274877906944) by done.
  induction pgs as [|o pgs IH]; intros fuel s l addr i a count Hme Hrt Hx A Hh Hva Hi Hc Htop Hnd Hf Hq.
  { exists s. cbn [length] in *. split_and!; [|done|apply unmapped_refl|split; [lia|done]].
    destruct fuel; simpl; rewrite u64_small by lia; by rewrite (proj2 (Z.ltb_ge _ _)) by lia. }
  destruct fuel as [|fuel]; [simpl in *; lia|]. cbn [length] in *.
  assert (Ha0 : 0 ≤ a) by (subst a; rewrite pgrounddown_eq; dlia).
  assert (Haa : a mod PGSIZE = 0) by apply pgrounddown_aligned.
  set (v := a + 4096 * i).
  assert (Hv : 0 ≤ v < MAXVA) by (subst v; lia).
  pose proof (Hq 0%nat o eq_refl) as Q. rewrite Z.add_0_r in Q. fold v in Q.
  destruct (munmap_page_step p act me x s root l fuel addr count i o)
    as (s1 & E1 & Ho); try done; try (subst count; lia).
  assert (Hrec : ∀ l1, as_ok s1 root l1 → s1 = set_mm (k_mm s1) s →
    NoDup (frames pgs) →
    (∀ j o, pgs !! j = Some o →
       quiet s1 root l1 (v_flag x =? MAP_SHARED) (a + 4096 * (i + 1 + Z.of_nat j)) o) →
    ∃ s', munmap_pages fuel p act addr count (i + 1) s1 = Ok true s' ∧
      as_ok s' root (reverse (frames pgs) ++ l1) ∧ unmapped s1 s' root l1 (frames pgs) ∧
      cleared s1 s' root (a + 4096 * (i + 1)) (a + 4096 * count)).
  { intros l1 A1 Es Hnd1 Hq1.
    replace count with (i + 1 + Z.of_nat (length pgs)) by (subst count; lia).
    apply IH; try done; try (subst count; lia); rewrite Es; done. }
  assert (Hnext : ∀ j, a + 4096 * (i + Z.of_nat (S j)) = a + 4096 * (i + 1 + Z.of_nat j)) by lia.
  destruct o as [pg|].
  - destruct Ho as (A1 & U1 & Lf1). change (frames (Some pg :: pgs)) with (pg :: frames pgs) in *.
    apply NoDup_cons in Hnd as [Hni Hnd].
    destruct (Hrec (pg :: l) A1 (un_state _ _ _ _ _ U1) Hnd) as (s2 & E2 & A2 & U2 & C2).
    { intros j o Hj. eapply quiet_frame; [exact U1| | |rewrite <- Hnext; by apply (Hq (S j))].
      - apply lookup_lt_Some in Hj. rewrite Lf1 by (subst count; lia).
        rewrite decide_False; [done|]. subst v. lia.
      - intros q ->. intros ->. apply Hni. by eapply elem_of_frames. }
    exists s2. split_and!; [by rewrite E1| |by eapply unmapped_trans|].
    + rewrite reverse_cons, <- app_assoc. exact A2.
    + destruct C2 as [C2 C3]. split.
      * intros va Hr. destruct (decide (va < v + 4096)); [|apply C2; subst v; lia].
        rewrite C3, Lf1 by (subst v; lia). rewrite decide_True; [done|]. subst v. lia.
      * intros va Hr Hout. rewrite C3, Lf1 by (subst v count; lia).
        rewrite decide_False; [done|]. subst v count. lia.
  - subst s1. change (frames (None :: pgs)) with (frames pgs) in *.
    destruct (Hrec l A) as (s2 & E2 & A2 & U2 & C2 & C3); [by rewrite set_mm_id|done| |].
    { intros j o Hj. rewrite <- Hnext. by apply (Hq (S j)). }
    exists s2. split_and!; [by rewrite E1|done|done|]. split.
    + intros va Hr. destruct (decide (va < v + 4096)); [|apply C2; subst v; lia].
      rewrite C3 by (subst v; lia). rewrite (leaf_same_page _ _ va v); [apply Q|].
      subst v. apply aligned_split in Haa. rewrite Haa in *. dlia.
    + intros va Hr Hout. rewrite C3; [done|done|]. subst count. lia.
Qed.

(** ** Finding the area *)

(** [addr, addr+len) lies in the area, without wrapping around. *)
Definition inside (x : vma) (addr len : Z) : Prop :=
  v_addri x ≤ addr ∧ 0 < len ∧ addr + len ≤ v_addre x.

Lemma contains_inside x addr len :
  inside x addr len → 0 ≤ addr → v_addre x ≤ TOP_ADDRESS → vma_contains x addr len = true.
Proof.
  unfold inside, TOP_ADDRESS, vma_contains. intros (H1 & H2 & H3) ??.
  rewrite u64_small by lia. rewrite !andb_true_iff, !Z.leb_le, Z.ltb_lt. lia.
Qed.

Lemma ordered_lookup lo l k a b :
  ordered lo l → l !! k = Some (a, b) →
  lo ≤ a ∧ a < b ∧ b ≤ TOP_ADDRESS ∧ a mod PGSIZE = 0 ∧ b mod PGSIZE = 0.
Proof.
  revert lo k. induction l as [|[c d] l IH]; intros lo k Ho Hk; [done|].
  cbn [ordered] in Ho. destruct Ho as (H1 & H2 & H3 & H4 & H5 & Ho).
  destruct k as [|k]; simplify_eq/=; [done|].
  destruct (IH d k Ho Hk) as (?&?&?&?&?). split_and!; lia || done.
Qed.

(** Two areas of a layout do not overlap. *)
Lemma ordered_disjoint lo l j k a b c d va :
  ordered lo l → l !! j = Some (a, b) → l !! k = Some (c, d) → j ≠ k →
  a ≤ va < b → c ≤ va < d → False.
Proof.
  revert lo j k. induction l as [|[e g] l IH]; intros lo j k Ho Hj Hk Hne H1 H2; [done|].
  cbn [ordered] in Ho. destruct Ho as (_ & _ & _ & _ & _ & Ho).
  destruct j as [|j], k as [|k]; cbn in Hj, Hk; simplify_eq.
  - destruct (ordered_lookup _ _ _ _ _ Ho Hk) as (?&_). lia.
  - destruct (ordered_lookup _ _ _ _ _ Ho Hj) as (?&_). lia.
  - apply (IH g j k); auto.
Qed.

Lemma munmap_find_ok s l xs k x addr len : ∀ prev act n,
  vchain (k_vmas s) act l xs → ordered 0 (areas xs) →
  xs !! k = Some x → inside x addr len → 0 ≤ addr → (length l ≤ n)%nat →
  munmap_find n addr len prev act s =
  Ok (Some (match k with O => prev | S j => l !! j end, l !! k)) s.
Proof.
  assert (Hgen : ∀ lo prev act n, 0 ≤ lo →
    vchain (k_vmas s) act l xs → ordered lo (areas xs) →
    xs !! k = Some x → inside x addr len → 0 ≤ addr → (length l ≤ n)%nat →
    munmap_find n addr len prev act s =
    Ok (Some (match k with O => prev | S j => l !! j end, l !! k)) s).
  2:{ intros. by apply (Hgen 0). }
  revert l xs. induction k as [|k IH]; intros [|i l] [|y xs] lo prev act n Hlo Hc Ho Hk Hin Ha Hn;
    simplify_eq/=; try done; (destruct n as [|n]; [lia|]); destruct Hc as (-> & Hy & Hc);
    cbn [munmap_find]; run_at; destruct Ho as (H1 & H2 & H3 & _ & _ & Ho).
  - by rewrite contains_inside.
  - assert (Hxa : v_addre y ≤ v_addri x).
    { eapply (ordered_lookup (v_addre y) (areas xs) k (v_addri x) (v_addre x)); [exact Ho|].
      unfold areas. by rewrite list_lookup_fmap, Hk. }
    assert (vma_contains y addr len = false) as ->.
    { unfold vma_contains. destruct Hin. rewrite (proj2 (Z.ltb_ge addr _)) by lia. apply andb_false_r. }
    rewrite (IH l xs (v_addre y)); try done; try lia; by destruct k.
Qed.

Lemma munmap_find_none s l xs addr len : ∀ prev act,
  vchain (k_vmas s) act l xs → Forall (λ x, vma_contains x addr len = false) xs →
  munmap_find (length l) addr len prev act s = Ok None s.
Proof.
  revert xs. induction l as [|i l IH]; intros [|x xs] prev act Hc Hno; simplify_eq/=; try done.
  destruct Hc as (-> & Hx & Hc). apply Forall_cons in Hno as [E Hno].
  run_at. rewrite E. by apply (IH xs).
Qed.

(** ** Removing a slot from the list *)

Definition vma0 : vma := Vma 0 0 None 0 0 0 0 None 0 0.

(** vmas[] after freeVma() of slot [act] with predecessor [pr]. *)
Definition freed_vmas (vs : list vma) (act : nat) (pr nx : option nat) : list vma :=
  <[act := vma0]> (match pr with Some i => alter (set_vnext nx) i vs | None => vs end).
Definition freed_proc (pr nx : option nat) (x : proc) : proc :=
  let y := match pr with None => set_pvmas nx x | Some _ => x end in
  set_nvma (p_nvma x - 1) y.

Lemma freeVma_run s p me act x pr f fx :
  k_procs s !! p = Some me → k_vmas s !! act = Some x → v_ofile x = Some f →
  k_ftable s !! f = Some fx → L_vmas ∉ k_held s → 0 < f_ref fx < 2147483648 →
  0 < p_nvma me < 2147483648 → (∀ i, pr = Some i → i ≠ act ∧ (i < length (k_vmas s))%nat) →
  freeVma p pr act s =
  Ok tt (set_procs (alter (freed_proc pr (v_next x)) p (k_procs s))
        (set_ftable (alter (λ g, set_fref (f_ref g - 1) g) f (k_ftable s))
        (set_vmas (freed_vmas (k_vmas s) act pr (v_next x)) s))).
Proof.
  intros Hme Hx Hof Hf Hh Hr Hn Hpr. unfold freeVma. run_acquire. kst. run_at.
  assert (HF : ∀ ft, ft = k_ftable s → alter (λ g : file, set_fref (s32 (f_ref g - 1)) g) f ft =
               alter (λ g : file, set_fref (f_ref g - 1) g) f (k_ftable s)).
  { intros ft ->. apply list_eq. intros i. rewrite !list_lookup_alter. case_decide; [|done].
    rewrite Hf. simpl. by rewrite s32_small by lia. }
  assert (HV : ∀ vs, length vs = length (k_vmas s) →
    alter (λ _, Vma 0 0 None 0 0 0 0 None 0 0) act vs = <[act := vma0]> vs).
  { intros vs Hl. apply lookup_lt_Some in Hx. apply list_eq. intros i. rewrite list_lookup_alter.
    destruct (decide (act = i)) as [<-|]; [|by rewrite list_lookup_insert_ne].
    rewrite list_lookup_insert_eq by lia. by destruct (lookup_is_Some vs act ltac:(lia)) as [? ->]. }
  assert (HP : ∀ g, g me = freed_proc pr (v_next x) me →
    alter g p (k_procs s) = alter (freed_proc pr (v_next x)) p (k_procs s)).
  { intros g Hg. apply list_eq. intros i. rewrite !list_lookup_alter. case_decide; [|done].
    rewrite Hme. simpl. by rewrite Hg. }
  destruct pr as [i|].
  - destruct (Hpr i eq_refl) as [Hne Hi]. run_upd. run_at. rewrite Hof. do 3 run_upd.
    run_release. kst. rewrite held_restore by done. do 2 f_equal.
    + by apply HF.
    + rewrite HV by by rewrite length_alter. done.
    + apply HP. unfold freed_proc. rewrite s32_small by lia. done.
  - run_upd. run_at. rewrite Hof. do 3 run_upd. rewrite list_alter_alter_eq.
    run_release. kst. rewrite held_restore by done. do 2 f_equal.
    + by apply HF.
    + by rewrite HV.
    + apply HP. unfold freed_proc. cbn. rewrite s32_small by lia. done.
Qed.

Lemma vchain_delete vs vs' l xs : ∀ k p act x,
  let pr := match k with O => None | S j => l !! j end in
  vchain vs p l xs → NoDup l → l !! k = Some act → xs !! k = Some x →
  (∀ i, i ≠ act → Some i ≠ pr → vs' !! i = vs !! i) →
  (∀ i y, pr = Some i → vs !! i = Some y → vs' !! i = Some (set_vnext (v_next x) y)) →
  vchain vs' (match k with O => v_next x | S _ => p end) (delete k l)
    (match k with O => delete k xs | S j => delete k (alter (set_vnext (v_next x)) j xs) end).
Proof.
  revert xs. induction l as [|i l IH]; intros [|y xs] k p act x pr Hc Hnd Hk Hx Hfr Hpr; try done.
  destruct Hc as (-> & Hy & Hc). apply NoDup_cons in Hnd as [Hni Hnd].
  destruct k as [|k]; simplify_eq/=.
  - eapply vchain_ext; [|exact Hc]. intros j Hj. apply Hfr; [by intros ->|done].
  - assert (Hact : act ∈ l) by by eapply list_elem_of_lookup_2.
    destruct k as [|k].
    + destruct l as [|j l], xs as [|z xs]; simplify_eq/=.
      destruct Hc as (Hnx & Hz & Hc). split_and!; [done|by apply Hpr|].
      apply NoDup_cons in Hnd as [Hnj Hnd]. apply not_elem_of_cons in Hni as [_ Hni].
      eapply vchain_ext; [|exact Hc]. intros q Hq. apply Hfr.
      * by intros ->.
      * intros [= ->]. done.
    + split_and!; [done| |].
      * rewrite Hfr; [done|by intros ->|]. unfold pr. simpl. intros E.
        apply Hni. by eapply list_elem_of_lookup_2.
      * apply (IH xs (S k) (v_next y) act x); try done.
Qed.

(** Updating a slot without touching its link. *)
Lemma vchain_alter vs l xs k act x f : ∀ p,
  vchain vs p l xs → NoDup l → l !! k = Some act → xs !! k = Some x → v_next (f x) = v_next x →
  vchain (alter f act vs) p l (alter f k xs).
Proof.
  revert xs k. induction l as [|i l IH]; intros [|y xs] k p Hc Hnd Hk Hx Hf; try done.
  destruct Hc as (-> & Hy & Hc). apply NoDup_cons in Hnd as [Hni Hnd].
  destruct k as [|k]; simplify_eq/=.
  - rewrite list_lookup_alter_eq, Hy. split_and!; [done|done|]. rewrite Hf.
    eapply vchain_ext; [|exact Hc]. intros j Hj. rewrite list_lookup_alter_ne; [done|]. by intros ->.
  - assert (i ≠ act). { intros ->. apply Hni. by eapply list_elem_of_lookup_2. }
    rewrite list_lookup_alter_ne by done. split_and!; [done|done|]. by apply IH.
Qed.

(** ** The abstract effect of munmap() on the layout *)

Definition carve (k : nat) (addr psz : Z) (l : list area) : list area :=
  match l !! k with
  | Some (a, b) =>
      if a + psz =? b then delete k l
      else if a =? addr then <[k := (a + psz, b)]> l
      else <[k := (a, addr)]> l
  | None => l
  end.

Lemma ordered_delete lo l k : ordered lo l → ordered lo (delete k l).
Proof.
  revert lo k. induction l as [|[a b] l IH]; intros lo [|k] Ho; try done.
  - cbn [ordered] in Ho. destruct Ho as (H1 & H2 & _ & _ & _ & Ho). change (ordered lo l).
    eapply ordered_weaken; [|exact Ho]. lia.
  - change (ordered lo ((a, b) :: delete k l)). cbn [ordered] in *.
    destruct Ho as (?&?&?&?&?&?). split_and!; auto.
Qed.

Lemma ordered_shrink lo l k a b a' b' :
  ordered lo l → l !! k = Some (a, b) → a ≤ a' → a' < b' → b' ≤ b →
  a' mod PGSIZE = 0 → b' mod PGSIZE = 0 → ordered lo (<[k := (a', b')]> l).
Proof.
  revert lo k. induction l as [|[c d] l IH]; intros lo [|k] Ho Hk; try done; intros.
  - simplify_eq/=. destruct Ho as (?&?&?&?&?&?). split_and!; try lia || done.
    eapply ordered_weaken; [|done]. lia.
  - cbn in *. destruct Ho as (?&?&?&?&?&?). split_and!; eauto.
Qed.

Lemma carve_ok k addr len l a b :
  areas_ok l → l !! k = Some (a, b) → a ≤ addr → 0 < len → addr + len ≤ b → addr mod PGSIZE = 0 →
  areas_ok (carve k addr (PGROUNDUP len) l).
Proof.
  intros Ho Hk Ha Hl Hb Hal. unfold areas_ok in *.
  destruct (ordered_lookup _ _ _ _ _ Ho Hk) as (H1 & H2 & H3 & H4 & H5).
  unfold carve. rewrite Hk. destruct (Z.eqb_spec (a + PGROUNDUP len) b) as [|Hne];
    [by apply ordered_delete|].
  assert (Hp : PGROUNDUP len ≤ b - addr).
  { rewrite pgroundup_eq by (unfold START_ADDRESS, TOP_ADDRESS in *; lia).
    apply aligned_split in Hal, H5. dlia. }
  assert (0 < PGROUNDUP len ∧ PGROUNDUP len mod PGSIZE = 0) as [Hp0 Hpa].
  { split; [|auto with kernel]. pose proof (pgroundup_bounds len).
    unfold START_ADDRESS, TOP_ADDRESS, PGSIZE in *. lia. }
  destruct (Z.eqb_spec a addr) as [->|].
  - eapply ordered_shrink; [exact Ho|exact Hk|lia|lia|lia|by apply aligned_add|done].
  - eapply ordered_shrink; [exact Ho|exact Hk|lia|lia|lia|done|done].
Qed.

(** ** The last step of munmap() *)

Lemma vmas_ok_ext s s' p l xs :
  k_vmas s' = k_vmas s → k_procs s' = k_procs s → vmas_ok s p l xs → vmas_ok s' p l xs.
Proof. intros E1 E2 [? ? ? ? ? ?]. split; rewrite ?E1, ?E2; done. Qed.

(** Shrinking an area in place. *)
Lemma shrunk_ok s p l xs k act x f :
  vmas_ok s p l xs → l !! k = Some act → xs !! k = Some x →
  v_next (f x) = v_next x → v_use (f x) = v_use x →
  areas_ok (<[k := (v_addri (f x), v_addre (f x))]> (areas xs)) →
  vmas_ok (set_vmas (alter f act (k_vmas s)) s) p l (alter f k xs) ∧
  areas (alter f k xs) = <[k := (v_addri (f x), v_addre (f x))]> (areas xs).
Proof.
  intros [Hlen (me & Hme & Hnv & Hc) Hmax Hnd Hus Ho] Hk Hx Hf Hu Ho'.
  assert (E : areas (alter f k xs) = <[k := (v_addri (f x), v_addre (f x))]> (areas xs)).
  { apply list_eq. intros i. unfold areas. rewrite list_lookup_fmap, list_lookup_alter.
    destruct (decide (k = i)) as [<-|Hne].
    - rewrite list_lookup_insert_eq; [by rewrite Hx|].
      rewrite length_fmap. by eapply lookup_lt_Some.
    - by rewrite list_lookup_insert_ne, list_lookup_fmap. }
  split; [|done]. split; kst.
  - by rewrite length_alter.
  - exists me. split_and!; [done|done|]. by eapply vchain_alter.
  - done.
  - done.
  - apply Forall_alter; [done|]. intros y Hy Hy0. assert (y = x) as -> by congruence. by rewrite Hu.
  - by rewrite E.
Qed.

(** Freeing an area. *)
Lemma freed_ok s p l xs k act x ft :
  let pr := match k with O => None | S j => l !! j end in
  vmas_ok s p l xs → l !! k = Some act → xs !! k = Some x →
  ∃ xs', vmas_ok (set_procs (alter (freed_proc pr (v_next x)) p (k_procs s))
           (set_ftable ft (set_vmas (freed_vmas (k_vmas s) act pr (v_next x)) s)))
           p (delete k l) xs' ∧ areas xs' = delete k (areas xs) ∧ (k = O → xs' = delete O xs).
Proof.
  intros pr [Hlen (me & Hme & Hnv & Hc) Hmax Hnd Hus Ho] Hk Hx.
  assert (Hkl : (k < length l)%nat) by by eapply lookup_lt_Some.
  assert (Hpa : ∀ i, pr = Some i → i ≠ act).
  { intros i Hi ->. unfold pr in Hi. destruct k as [|k]; [done|].
    pose proof (NoDup_lookup _ _ _ _ Hnd Hi Hk). lia. }
  set (vs' := freed_vmas (k_vmas s) act pr (v_next x)).
  set (xs' := match k with O => delete k xs | S j => delete k (alter (set_vnext (v_next x)) j xs) end).
  assert (Hal : ∀ j, areas (alter (set_vnext (v_next x)) j xs) = areas xs).
  { intros j. apply list_eq. intros i. unfold areas. rewrite !list_lookup_fmap, list_lookup_alter.
    case_decide; [subst|done]. by destruct (xs !! i). }
  assert (Har : areas xs' = delete k (areas xs)).
  { unfold xs'. destruct k as [|j].
    - destruct xs; done.
    - unfold areas. rewrite list_fmap_delete. fold (areas (alter (set_vnext (v_next x)) j xs)).
      by rewrite Hal. }
  exists xs'. split; [|split; [done|by intros ->]]. split; kst.
  - unfold vs', freed_vmas. rewrite length_insert. destruct pr; by rewrite ?length_alter.
  - exists (freed_proc pr (v_next x) me). rewrite list_lookup_alter_eq, Hme. split; [done|]. split.
    + unfold freed_proc. destruct pr; cbn; rewrite Hnv, length_delete by done; lia.
    + replace (p_vmas (freed_proc pr (v_next x) me))
        with (match k with O => v_next x | S _ => p_vmas me end).
      2:{ unfold freed_proc, pr. destruct k as [|k]; [done|].
          destruct (lookup_is_Some l k ltac:(lia)) as [i ->]. done. }
      eapply (vchain_delete (k_vmas s) vs' l xs k (p_vmas me) act x); try done; fold pr.
      * intros i Hi Hi'. unfold vs', freed_vmas. rewrite list_lookup_insert_ne by done.
        destruct pr as [q|]; [|done]. rewrite list_lookup_alter_ne; [done|congruence].
      * intros i y Hi Hy. unfold vs', freed_vmas.
        rewrite list_lookup_insert_ne by (intros E; by apply (Hpa i)).
        rewrite Hi, list_lookup_alter_eq, Hy. done.
  - rewrite length_delete by done. lia.
  - rewrite delete_take_drop. rewrite <- (take_drop_middle l k act Hk) in Hnd.
    apply NoDup_app in Hnd as (N1 & N2 & N3). apply NoDup_cons in N3 as [N3 N4].
    apply NoDup_app. split_and!; [done| |done]. intros i Hi Hi'. eapply N2; [done|]. by right.
  - unfold xs'. destruct k; apply Forall_delete; [done|]. apply Forall_alter; done.
  - rewrite Har. by apply ordered_delete.
Qed.

(** The update of the list after the page loop, and the release of p->lock. *)
Lemma munmap_finish s me l xs k act x f fx addr len :
  let p := k_cur s in
  let pr := match k with O => None | S j => l !! j end in
  vmas_ok s p l xs → k_procs s !! p = Some me → l !! k = Some act → xs !! k = Some x →
  k_vmas s !! act = Some x → inside x addr len → addr mod PGSIZE = 0 →
  v_ofile x = Some f → k_ftable s !! f = Some fx → 0 < f_ref fx < 2147483648 →
  L_proc p ∈ k_held s → L_vmas ∉ k_held s →
  ∃ s' l' xs',
    ((if u64 (v_addri x + PGROUNDUP len) =? v_addre x then freeVma p pr act
      else if v_addri x =? addr
      then upd_vma (Some act) (set_addri (u64 (v_addri x + PGROUNDUP len)))
      else upd_vma (Some act) (set_addre (PGROUNDDOWN addr)));;
     release (L_proc p);; mret 0) s = Ok 0 s' ∧
    vmas_ok s' p l' xs' ∧ areas xs' = carve k addr (PGROUNDUP len) (areas xs) ∧
    k_mm s' = k_mm s ∧ k_held s' = k_held s ∖ {[L_proc p]} ∧
    k_ftable s' = (if v_addri x + PGROUNDUP len =? v_addre x
                  then alter (λ g, set_fref (f_ref g - 1) g) f (k_ftable s) else k_ftable s) ∧
    k_cur s' = p ∧ (p_pagetable <$> k_procs s' !! p) = Some (p_pagetable me) ∧
    (v_addri x + PGROUNDUP len = v_addre x → k = O → l' = delete O l ∧ xs' = delete O xs).
Proof.
  intros p pr O Hme Hk Hx Hv (Hi1 & Hi2 & Hi3) Hal Hof Hf Hr Hhp Hhv.
  assert (Hak : areas xs !! k = Some (v_addri x, v_addre x)).
  { unfold areas. by rewrite list_lookup_fmap, Hx. }
  destruct (ordered_lookup _ _ _ _ _ (vo_areas _ _ _ _ O) Hak) as (B1 & B2 & B3 & B4 & B5).
  pose proof (carve_ok k addr len (areas xs) _ _ (vo_areas _ _ _ _ O) Hak Hi1 Hi2 Hi3 Hal) as Hco.
  unfold carve in *. rewrite Hak in *.
  assert (Hps : 0 ≤ PGROUNDUP len ≤ v_addre x - addr).
  { unfold START_ADDRESS, TOP_ADDRESS in *. rewrite pgroundup_eq by lia.
    apply aligned_split in Hal, B5. dlia. }
  unfold START_ADDRESS, TOP_ADDRESS in B1, B3. rewrite u64_small by lia.
  assert (Hrel : ∀ s', k_held s' = k_held s →
    release (L_proc p) s' = Ok tt (set_held (k_held s ∖ {[L_proc p]}) s')).
  { intros s' E. rewrite release_run by (rewrite E; done). by rewrite E. }
  assert (Hal' : (act < length (k_vmas s))%nat) by by eapply lookup_lt_Some.
  destruct (Z.eqb_spec (v_addri x + PGROUNDUP len) (v_addre x)) as [E1|E1].
  - destruct (vo_proc _ _ _ _ O) as (me' & Hme' & Hnv & Hc). assert (me' = me) as -> by congruence.
    assert (Hkl : (k < length l)%nat) by by eapply lookup_lt_Some.
    pose proof (vo_max _ _ _ _ O) as Hmax. unfold MAX_VMAS in Hmax.
    assert (Hpr : ∀ i, pr = Some i → i ≠ act ∧ (i < length (k_vmas s))%nat).
    { intros i Hi. unfold pr in Hi. destruct k as [|k]; [done|]. split.
      - intros ->. pose proof (NoDup_lookup _ _ _ _ (vo_nodup _ _ _ _ O) Hi Hk). lia.
      - destruct (vchain_lookup _ _ _ _ _ _ Hc Hi) as (y & _ & Hy). by eapply lookup_lt_Some. }
    rewrite (bind_ok _ _ _ _ _ (freeVma_run s p me act x pr f fx Hme Hv Hof Hf Hhv Hr
      ltac:(rewrite Hnv; lia) Hpr)).
    destruct (freed_ok s p l xs k act x (alter (λ g, set_fref (f_ref g - 1) g) f (k_ftable s)) O Hk Hx)
      as (xs' & O' & Ha' & Hx').
    erewrite bind_ok by (by apply Hrel). do 3 eexists. split; [done|].
    split_and!; [|exact Ha'|done|done|done|done| |].
    + eapply vmas_ok_ext; [..|exact O']; done.
    + kst. rewrite list_lookup_alter_eq, Hme. cbn. unfold freed_proc. by destruct pr.
    + intros _ ->. split; [done|by apply Hx'].
  - destruct (Z.eqb_spec (v_addri x) addr) as [E2|E2].
    + destruct (shrunk_ok s p l xs k act x (set_addri (v_addri x + PGROUNDUP len)) O Hk Hx) as [O' Ha'];
        [done..|exact Hco|].
      run_upd. erewrite bind_ok by (by apply Hrel). do 3 eexists. split; [done|].
      split_and!; [|exact Ha'|done|done|done|done|kst; by rewrite Hme|done].
      eapply vmas_ok_ext; [..|exact O']; done.
    + rewrite (pgrounddown_id addr Hal).
      destruct (shrunk_ok s p l xs k act x (set_addre addr) O Hk Hx) as [O' Ha'];
        [done..|exact Hco|].
      run_upd. erewrite bind_ok by (by apply Hrel). do 3 eexists. split; [done|].
      split_and!; [|exact Ha'|done|done|done|done|kst; by rewrite Hme|done].
      eapply vmas_ok_ext; [..|exact O']; done.
Qed.

Lemma as_ok_mm s s' root l : k_mm s' = k_mm s → as_ok s root l → as_ok s' root l.
Proof.
  intros E [H1 H2 H3]. unfold view, mem in *.
  split; unfold view, mem; rewrite E; done.
Qed.

Lemma quiet_mm s s' root l shared va o :
  k_mm s' = k_mm s → quiet s root l shared va o → quiet s' root l shared va o.
Proof.
  intros E. assert (Ev : view s' = view s) by (unfold view, mem; by rewrite E).
  destruct o as [pg|]; cbn [quiet]; rewrite Ev; [|done].
  intros [[H1 H2 H3 H4 [H5 H5'] H6] Hd]. split; [|done].
  split; rewrite ?Ev, ?E; try done. split; [done|]. by rewrite Ev.
Qed.

Lemma munmap_ok s me l xs k act x f fx root fl pgs addr len :
  let p := k_cur s in
  vmas_ok s p l xs → k_procs s !! p = Some me → p_pagetable me = root →
  l !! k = Some act → xs !! k = Some x → inside x addr len → addr mod PGSIZE = 0 →
  v_ofile x = Some f → k_ftable s !! f = Some fx → 0 < f_ref fx < 2147483648 →
  PGROUNDUP len = 4096 * Z.of_nat (length pgs) → Z.of_nat (length pgs) ≤ 524288 →
  as_ok s root fl → NoDup (frames pgs) →
  (∀ j o, pgs !! j = Some o →
     quiet s root fl (v_flag x =? MAP_SHARED) (addr + 4096 * Z.of_nat j) o) →
  L_proc p ∉ k_held s → L_vmas ∉ k_held s → L_kmem ∉ k_held s →
  ∃ s' l' xs',
    munmap addr len s = Ok 0 s' ∧
    vmas_ok s' p l' xs' ∧ areas xs' = carve k addr (PGROUNDUP len) (areas xs) ∧
    as_ok s' root (reverse (frames pgs) ++ fl) ∧
    cleared s s' root addr (addr + PGROUNDUP len) ∧ k_held s' = k_held s ∧
    k_ftable s' = (if v_addri x + PGROUNDUP len =? v_addre x
                  then alter (λ g, set_fref (f_ref g - 1) g) f (k_ftable s) else k_ftable s) ∧
    k_cur s' = p ∧ (p_pagetable <$> k_procs s' !! p) = Some root ∧
    (v_addri x + PGROUNDUP len = v_addre x → k = O → l' = delete O l ∧ xs' = delete O xs) ∧
    (∀ shared va o, 0 ≤ va < MAXVA → ¬ (addr ≤ va < addr + PGROUNDUP len) →
       (∀ q, o = Some q → q ∉ frames pgs) → quiet s root fl shared va o →
       quiet s' root (reverse (frames pgs) ++ fl) shared va o).
Proof.
  intros p O Hme Hrt Hk Hx Hin Hal Hof Hf Hr Hps Hn A Hnd Hq Hhp Hhv Hhk.
  destruct (vo_proc _ _ _ _ O) as (me' & Hme' & Hnv & Hc). assert (me' = me) as -> by congruence.
  destruct (vchain_lookup _ _ _ _ _ _ Hc Hk) as (x' & Hx' & Hv). assert (x' = x) as -> by congruence.
  assert (Hak : areas xs !! k = Some (v_addri x, v_addre x)).
  { unfold areas. by rewrite list_lookup_fmap, Hx. }
  destruct (ordered_lookup _ _ _ _ _ (vo_areas _ _ _ _ O) Hak) as (B1 & B2 & B3 & B4 & B5).
  pose proof Hin as (Hi1 & Hi2 & Hi3). assert (HM : MAXVA = 274877906944) by done.
  unfold START_ADDRESS, TOP_ADDRESS in B1, B3.
  assert (Hps' : PGROUNDUP len ≤ v_addre x - addr).
  { rewrite pgroundup_eq by lia. apply aligned_split in Hal, B5. dlia. }
  unfold munmap, myproc. run. fold p. run_acquire. kst. run_at. rewrite Hnv, Nat2Z.id.
  set (s1 := KState _ _ _ _ _ _ _ _ _ _ _ _).
  assert (Ho0 : ordered 0 (areas xs)) by (eapply ordered_weaken; [|apply O]; done).
  rewrite (bind_ok _ _ _ _ _ (munmap_find_ok s1 l xs k x addr len None (p_vmas me) (length l)
    Hc Ho0 Hx Hin ltac:(lia) ltac:(lia))).
  rewrite Hk.
  replace (PGROUNDUP len / PGSIZE) with (0 + Z.of_nat (length pgs)) by (rewrite Hps; unfold PGSIZE; dlia).
  rewrite Z.min_l by lia.
  assert (A1 : as_ok s1 root fl) by (eapply as_ok_mm; [|exact A]; done).
  destruct (munmap_pages_ok p act me x root pgs (Z.to_nat (0 + Z.of_nat (length pgs))) s1 fl addr 0)
    as (s2 & E2 & A2 & U2 & C2); try done; try lia.
  { unfold s1. kst. set_solver. }
  { rewrite (pgrounddown_id addr Hal). lia. }
  { intros j o Hj. rewrite (pgrounddown_id addr Hal), Z.add_0_l.
    eapply quiet_mm; [|by apply Hq]. done. }
  rewrite (bind_ok _ _ _ _ _ E2). cbn [negb].
  assert (Es : s2 = set_mm (k_mm s2) s1) by apply U2.
  assert (Hv2 : k_vmas s2 !! act = Some x) by (rewrite Es; exact Hv).
  rewrite (bind_ok _ _ _ _ _ (vma_at_run act s2 x Hv2)).
  destruct (munmap_finish s2 me l xs k act x f fx addr len) as
    (s3 & l' & xs' & E3 & O3 & Ha3 & Hm3 & Hh3 & Hf3 & Hc3 & Hp3 & Hd3);
    try (rewrite Es; done); try done.
  { eapply vmas_ok_ext; [..|by rewrite Es]; rewrite Es; done. }
  { rewrite Es. unfold s1. kst. set_solver. }
  { rewrite Es. unfold s1. kst. set_solver. }
  assert (Ep : k_cur s2 = p) by (rewrite Es; done). rewrite Ep in *.
  destruct C2 as [C2 C3]. rewrite (pgrounddown_id addr Hal), Z.mul_0_r, Z.add_0_r in C2, C3.
  rewrite Z.add_0_l, <- Hps in C2, C3.
  assert (Ev : view s3 = view s2) by (unfold view, mem; by rewrite Hm3).
  exists s3, l', xs'. split_and!; [exact E3|exact O3|exact Ha3| | | | |exact Hc3| |exact Hd3|].
  - eapply as_ok_mm; [exact Hm3|exact A2].
  - split; rewrite Ev; [exact C2|exact C3].
  - rewrite Hh3, Es. unfold s1. kst. by apply held_restore.
  - rewrite Hf3, Es. done.
  - by rewrite Hp3, Hrt.
  - intros shared va o Hva Hout Hfr Q. eapply quiet_mm; [exact Hm3|].
    eapply quiet_frames; [exact U2|by apply C3|done|]. eapply quiet_mm; [|exact Q]. done.
Qed.



(** ** The theorems *)

(** C3: munmap() of a page-aligned range inside one area returns 0, when the
    area is private or its mapped pages are clean, and for each page of the
    range that is not mapped the page table that would hold its entry exists
    (munmap() reads the entry without asking whether walk() found one, and
    faults otherwise).  Then the pages of the range are no longer
    mapped and all other translations are unchanged, their frames are back on
    the free list, the layout is [carve]d (the area is removed, or loses its
    front, or is cut off at the start of the range) and is still in order, the
    file loses a reference exactly when the area disappears, and the locks are
    as before. *)
Theorem munmap_carves s me l xs k act x f fx root fl pgs addr len :
  let p := k_cur s in
  vmas_ok s p l xs → k_procs s !! p = Some me → p_pagetable me = root →
  l !! k = Some act → xs !! k = Some x → inside x addr len → addr mod PGSIZE = 0 →
  v_ofile x = Some f → k_ftable s !! f = Some fx → 0 < f_ref fx < 2147483648 →
  PGROUNDUP len = 4096 * Z.of_nat (length pgs) → Z.of_nat (length pgs) ≤ 524288 →
  as_ok s root fl → NoDup (frames pgs) →
  (∀ j o, pgs !! j = Some o →
     quiet s root fl (v_flag x =? MAP_SHARED) (addr + 4096 * Z.of_nat j) o) →
  L_proc p ∉ k_held s → L_vmas ∉ k_held s → L_kmem ∉ k_held s →
  ∃ s' l' xs',
    munmap addr len s = Ok 0 s' ∧
    vmas_ok s' p l' xs' ∧ areas xs' = carve k addr (PGROUNDUP len) (areas xs) ∧
    as_ok s' root (reverse (frames pgs) ++ fl) ∧
    cleared s s' root addr (addr + PGROUNDUP len) ∧ k_held s' = k_held s ∧
    k_ftable s' = if v_addri x + PGROUNDUP len =? v_addre x
                  then alter (λ g, set_fref (f_ref g - 1) g) f (k_ftable s) else k_ftable s.
Proof.
  intros p O Hme Hrt Hk Hx Hin Hal Hof Hf Hr Hps Hn A Hnd Hq Hhp Hhv Hhk.
  destruct (munmap_ok s me l xs k act x f fx root fl pgs addr len)
    as (s' & l' & xs' & E & O' & Ha & A' & C & Hh & Hft & _); [done..|].
  by exists s', l', xs'.
Qed.

(** Munmap() of a range strictly inside an area, with pages of the area
    after it, keeps only the part of the area before the range: the pages after
    it stay mapped although no area of the process contains them any more. *)
Theorem munmap_middle_leaves_tail s me l xs k act x f fx root fl pgs addr len :
  let p := k_cur s in
  vmas_ok s p l xs → k_procs s !! p = Some me → p_pagetable me = root →
  l !! k = Some act → xs !! k = Some x → inside x addr len → addr mod PGSIZE = 0 →
  v_addri x < addr → addr + PGROUNDUP len < v_addre x →
  v_ofile x = Some f → k_ftable s !! f = Some fx → 0 < f_ref fx < 2147483648 →
  PGROUNDUP len = 4096 * Z.of_nat (length pgs) → Z.of_nat (length pgs) ≤ 524288 →
  as_ok s root fl → NoDup (frames pgs) →
  (∀ j o, pgs !! j = Some o →
     quiet s root fl (v_flag x =? MAP_SHARED) (addr + 4096 * Z.of_nat j) o) →
  L_proc p ∉ k_held s → L_vmas ∉ k_held s → L_kmem ∉ k_held s →
  ∃ s' l' xs',
    munmap addr len s = Ok 0 s' ∧ vmas_ok s' p l' xs' ∧
    (∀ va, addr + PGROUNDUP len ≤ va < v_addre x →
       leaf (view s') root va = leaf (view s) root va ∧
       Forall (λ y, ¬ (v_addri y ≤ va < v_addre y)) xs').
Proof.
  intros p O Hme Hrt Hk Hx Hin Hal Hlo Hhi Hof Hf Hr Hps Hn A Hnd Hq Hhp Hhv Hhk.
  destruct (munmap_ok s me l xs k act x f fx root fl pgs addr len) as (s' & l' & xs' & E & O' & Ha & _ & [_ C] & _);
    try done.
  exists s', l', xs'. split_and!; [done|done|]. intros va Hva.
  assert (Hak : areas xs !! k = Some (v_addri x, v_addre x)).
  { unfold areas. by rewrite list_lookup_fmap, Hx. }
  destruct (ordered_lookup _ _ _ _ _ (vo_areas _ _ _ _ O) Hak) as (B1 & B2 & B3 & _ & _).
  assert (HM : MAXVA = 274877906944) by done. unfold START_ADDRESS, TOP_ADDRESS in B1, B3.
  split; [apply C; lia|].
  unfold carve in Ha. rewrite Hak in Ha.
  rewrite (proj2 (Z.eqb_neq _ _)) in Ha by lia. rewrite (proj2 (Z.eqb_neq _ _)) in Ha by lia.
  apply Forall_lookup. intros j y Hy Hyva.
  assert (Haj : areas xs' !! j = Some (v_addri y, v_addre y)).
  { unfold areas. by rewrite list_lookup_fmap, Hy. }
  rewrite Ha in Haj. destruct (decide (j = k)) as [->|Hne].
  - rewrite list_lookup_insert_eq in Haj by (by eapply lookup_lt_Some). injection Haj as E1 E2. lia.
  - rewrite list_lookup_insert_ne in Haj by done.
    apply (ordered_disjoint _ _ j k _ _ _ _ va (vo_areas _ _ _ _ O) Haj Hak); [done|done|lia].
Qed.

(** Munmap() of a range that no area of the process contains returns -1 and
    changes nothing. *)
Theorem munmap_not_found s l xs addr len :
  let p := k_cur s in
  vmas_ok s p l xs → Forall (λ x, vma_contains x addr len = false) xs → L_proc p ∉ k_held s →
  munmap addr len s = Ok (-1) s.
Proof.
  intros p O Hno Hh. destruct (vo_proc _ _ _ _ O) as (me & Hme & Hnv & Hc).
  unfold munmap, myproc. run. fold p. run_acquire. kst. run_at. rewrite Hnv, Nat2Z.id.
  set (s1 := KState _ _ _ _ _ _ _ _ _ _ _ _).
  rewrite (bind_ok _ _ _ _ _ (munmap_find_none s1 l xs addr len None (p_vmas me) Hc Hno)).
  unfold s1. run_release. kst. rewrite held_restore by done. run. by destruct s.
Qed.

(** Munmap() (and so exit()) of an area none of whose pages was ever
    touched: walk() returns a null pointer when the page table that would hold
    the entry does not exist, and munmap() loads through it. *)
Theorem munmap_untouched_faults s me l xs k act x root addr len :
  let p := k_cur s in
  vmas_ok s p l xs → k_procs s !! p = Some me → p_pagetable me = root →
  l !! k = Some act → xs !! k = Some x → inside x addr len → len ≤ 2147483648 →
  pt_wf (view s) root → node (view s) root (va_path (PGROUNDDOWN addr)) = None →
  L_proc p ∉ k_held s →
  ∃ s', munmap addr len s = Err (EFault 0) s' ∧ L_proc p ∈ k_held s'.
Proof.
  intros p O Hme Hrt Hk Hx Hin Hlen WF Hnode Hhp.
  destruct (vo_proc _ _ _ _ O) as (me' & Hme' & Hnv & Hc). assert (me' = me) as -> by congruence.
  assert (Hak : areas xs !! k = Some (v_addri x, v_addre x)).
  { unfold areas. by rewrite list_lookup_fmap, Hx. }
  destruct (ordered_lookup _ _ _ _ _ (vo_areas _ _ _ _ O) Hak) as (B1 & B2 & B3 & _ & _).
  pose proof Hin as (Hi1 & Hi2 & Hi3). assert (HM : MAXVA = 274877906944) by done.
  unfold START_ADDRESS, TOP_ADDRESS in B1, B3.
  unfold munmap, myproc. run. fold p. run_acquire. kst. run_at. rewrite Hnv, Nat2Z.id.
  set (s1 := KState _ _ _ _ _ _ _ _ _ _ _ _).
  assert (Ho0 : ordered 0 (areas xs)) by (eapply ordered_weaken; [|apply O]; done).
  rewrite (bind_ok _ _ _ _ _ (munmap_find_ok s1 l xs k x addr len None (p_vmas me) (length l)
    Hc Ho0 Hx Hin ltac:(lia) ltac:(lia))).
  rewrite Hk. pose proof (pgroundup_bounds len ltac:(lia)) as Hpb.
  set (count := PGROUNDUP len / PGSIZE).
  assert (Hcnt : 0 < count) by (subst count; unfold PGSIZE in *; apply Z.div_str_pos; 
    rewrite pgroundup_eq by lia; dlia).
  destruct (Z.to_nat (Z.min count (2 ^ 31))) as [|fuel] eqn:Ef; [lia|].
  exists s1. split; [|unfold s1; kst; set_solver]. apply bind_err.
  cbn [munmap_pages]. rewrite u64_small by lia. rewrite (proj2 (Z.ltb_lt _ _)) by lia. cbn [negb].
  rewrite (bind_ok _ _ _ _ _ (proc_at_run p s1 me Hme)). rewrite Hrt, page_va_eq by lia.
  rewrite Z.mul_0_r, Z.add_0_r.
  pose proof (pgrounddown_bounds addr) as Hpd. unfold PGSIZE in Hpd.
  rewrite (bind_ok _ _ _ _ _ (walk_lookup s1 root (PGROUNDDOWN addr) WF
    ltac:(rewrite pgrounddown_eq in *; dlia))).
  change (view s1) with (view s). rewrite Hnode. by apply bind_err.
Qed.

End unmap.

(** ** Instances *)

Lemma vmas_ok1 s x b :
  k_vmas s = x :: replicate 29 vma_unused → k_procs s = k_procs st1 → v_use x = 1 → v_next x = None →
  v_addri x = START_ADDRESS → v_addre x = START_ADDRESS + b →
  0 < b < 2 ^ 30 → b mod PGSIZE = 0 → vmas_ok s 0 [0%nat] [x].
Proof.
  intros E1 E2 Hu Hn Ha He Hb Hm. split; rewrite ?E1, ?E2.
  - done.
  - eexists. by split_and!.
  - vm_compute. lia.
  - apply NoDup_singleton.
  - constructor; [lia|constructor].
  - unfold areas_ok. cbn. rewrite Ha, He. unfold START_ADDRESS, TOP_ADDRESS.
    split_and!; try lia; try done; by apply aligned_add.
Qed.

Lemma munmap_carves_witness :
  ∃ s s' xs', munmap START_ADDRESS 8192 s = Ok 0 s' ∧ vmas_ok s' 0 [] xs' ∧
    has (leaf (view s) root0 START_ADDRESS) PTE_V = true ∧
    has (leaf (view s') root0 START_ADDRESS) PTE_V = false.
Proof.
  destruct (mapped_state st1) as (s & fl & Es & A & U & Hd & Q1 & _); [done|apply free_list1|done..|].
  destruct (munmap_carves s proc_two [0%nat] [vma_two] 0 0 vma_two 0
    (File FD_INODE 2 1 1 0 (Some 0%nat) 0 0) root0 fl [Some FRAME; None] START_ADDRESS 8192)
    as (s' & l' & xs' & E & O & Ha & _ & C & _); try (rewrite Es; done); try done.
  - rewrite Es. by apply (vmas_ok1 _ _ 8192).
  - by apply NoDup_singleton.
  - intros [|[|j]] o Ho; [|injection Ho as <-; apply Q1|done].
    injection Ho as <-. change (START_ADDRESS + 4096 * Z.of_nat 0) with START_ADDRESS.
    split; [exact U|]. by rewrite Hd.
  - rewrite Es in O. exists s, s', xs'. split_and!; [done| |apply U|].
    + replace l' with (@nil nat) in O; [exact O|].
      destruct (vo_proc _ _ _ _ O) as (? & _ & _ & Hc). apply vchain_length in Hc.
      apply (f_equal length) in Ha. unfold areas in Ha. rewrite length_fmap in Ha. cbn in Ha.
      destruct l'; [done|]. simpl in *. lia.
    + destruct C as [C _]. apply C. by vm_compute.
Defined.

(** A three-page area. *)
Definition vma_three : vma :=
  Vma 1 12288 (Some 0%nat) START_ADDRESS START_ADDRESS (START_ADDRESS + 12288) 0 None
    PROT_READ_WRITE MAP_SHARED.
Definition st3 : kstate := set_vmas (vma_three :: replicate 29 vma_unused) st1.

Lemma munmap_middle_leaves_tail_witness :
  ∃ s s' l' xs', munmap (START_ADDRESS + 4096) 4096 s = Ok 0 s' ∧ vmas_ok s' 0 l' xs' ∧
    Forall (λ y, ¬ (v_addri y ≤ START_ADDRESS + 8192 < v_addre y)) xs'.
Proof.
  destruct (mapped_state st3) as (s & fl & Es & A & _ & _ & Q1 & _); [done|apply free_list1|done..|].
  destruct (munmap_middle_leaves_tail s proc_two [0%nat] [vma_three] 0 0 vma_three 0
    (File FD_INODE 2 1 1 0 (Some 0%nat) 0 0) root0 fl [None] (START_ADDRESS + 4096) 4096)
    as (s' & l' & xs' & E & O & C); try (rewrite Es; done); try done.
  - rewrite Es. by apply (vmas_ok1 _ _ 12288).
  - apply NoDup_nil_2.
  - intros [|j] o Ho; [|done]. injection Ho as <-. apply Q1.
  - exists s, s', l', xs'. rewrite Es in O. split_and!; [done|exact O|]. apply C. by vm_compute.
Defined.

Lemma munmap_not_found_witness : munmap 0 4096 st1 = Ok (-1) st1.
Proof.
  apply (munmap_not_found st1 [0%nat] [vma_two]).
  - by apply (vmas_ok1 _ _ 8192).
  - by repeat constructor.
  - done.
Defined.

Lemma munmap_untouched_faults_witness :
  ∃ s', munmap START_ADDRESS 8192 st1 = Err (EFault 0) s'.
Proof.
  destruct (munmap_untouched_faults st1 proc_two [0%nat] [vma_two] 0 0 vma_two root0 START_ADDRESS 8192)
    as (s' & E & _); try done.
  - by apply (vmas_ok1 _ _ 8192).
  - apply (as_wf _ _ _ (as_ok0 st1 eq_refl free_list1)).
  - by exists s'.
Defined.
