(* ===== verification/Proc.v ===== *)
(** kernel/proc.c: process creation, growth, fork, exit and wait (sched, sleep,
    wakeup and kill are in Sched.v; either_copyin/out in Fs.v).

    struct context and swtch() are not modelled: a new process starts at
    forkret() when the scheduler first picks it. *)

From S2P Require Import Prelude Riscv Kstate Mem Kalloc Vm Sched Bytes Bio Log Fs Pipe File Vma.

Section proc.
Context {L : Layout} {D : Devsw}.

(** Byte offsets of the fields of struct trapframe the kernel uses. *)
Definition TF_kernel_satp : Z := 0.
Definition TF_kernel_sp : Z := 8.
Definition TF_kernel_trap : Z := 16.
Definition TF_epc : Z := 24.
Definition TF_kernel_hartid : Z := 32.
Definition TF_sp : Z := 48.
Definition TF_a (i : Z) : Z := 112 + 8 * i.
(** sizeof(struct trapframe) *)
Definition TF_SIZE : nat := 288.

Definition tf_load (p : nat) (field : Z) : K Z :=
  x ← proc_at p; load64 (p_trapframe x + field).
Definition tf_store (p : nat) (field v : Z) : K unit :=
  x ← proc_at p; store64 (p_trapframe x + field) v.

Definition procinit : K unit :=
  forM (upto NPROC) (λ p,
    upd_proc p (λ x, Proc (p_state x) (p_chan x) (p_killed x) (p_xstate x) (p_pid x) (p_parent x)
      (KSTACK (Z.of_nat p)) (p_sz x) (p_pagetable x) (p_trapframe x) (p_ofile x) (p_cwd x)
      (p_name x) (p_vmas x) (p_nvma x))).

(** ** Page table of a process *)

Definition proc_pagetable (p : nat) : K Z :=
  pagetable ← uvmcreate;
  if pagetable =? 0 then mret 0
  else
    r ← mappages pagetable TRAMPOLINE PGSIZE l_trampoline (Z.lor PTE_R PTE_X);
    if r <? 0 then
      uvmfree pagetable 0;;
      mret 0
    else
      x ← proc_at p;
      r ← mappages pagetable TRAPFRAME PGSIZE (p_trapframe x) (Z.lor PTE_R PTE_W);
      if r <? 0 then
        uvmunmap pagetable TRAMPOLINE 1 false;;
        uvmfree pagetable 0;;
        mret 0
      else mret pagetable.

Definition proc_freepagetable (pagetable sz : Z) : K unit :=
  uvmunmap pagetable TRAMPOLINE 1 false;;
  uvmunmap pagetable TRAPFRAME 1 false;;
  uvmfree pagetable sz.

(** ** Allocation *)

Definition freeproc (p : nat) : K unit :=
  x ← proc_at p;
  when (negb (p_trapframe x =? 0)) (kfree (p_trapframe x));;
  upd_proc p (set_trapframe 0);;
  x ← proc_at p;
  when (negb (p_pagetable x =? 0)) (proc_freepagetable (p_pagetable x) (p_sz x));;
  upd_proc p (set_pagetable 0);;
  upd_proc p (set_sz 0);;
  upd_proc p (set_pid 0);;
  upd_proc p (set_parent None);;
  upd_proc p (λ x, set_name (<[0%nat := 0]> (p_name x)) x);;
  upd_proc p (set_chan C_null);;
  upd_proc p (set_killed 0);;
  upd_proc p (set_xstate 0);;
  upd_proc p (set_state UNUSED).

(** The search of allocproc(): the first UNUSED process, returned locked. *)
Definition find_unused : K (option nat) :=
  findM (upto NPROC) (λ p,
    acquire (L_proc p);;
    x ← proc_at p;
    if bool_decide (p_state x = UNUSED) then mret (Some p)
    else
      release (L_proc p);;
      mret None).

Definition allocproc : K (option nat) :=
  r ← find_unused;
  match r with
  | None => mret None
  | Some p =>
      pid ← allocpid;
      upd_proc p (set_pid pid);;
      upd_proc p (set_state USED);;
      tf ← kalloc;
      upd_proc p (set_trapframe tf);;
      if tf =? 0 then
        freeproc p;;
        release (L_proc p);;
        mret None
      else
        pagetable ← proc_pagetable p;
        upd_proc p (set_pagetable pagetable);;
        if pagetable =? 0 then
          freeproc p;;
          release (L_proc p);;
          mret None
        else mret (Some p)
  end.

(** initcode[] *)
Definition initcode : list Z :=
  [ 0x17; 0x05; 0x00; 0x00; 0x13; 0x05; 0x45; 0x02;
    0x97; 0x05; 0x00; 0x00; 0x93; 0x85; 0x35; 0x02;
    0x93; 0x08; 0x70; 0x00; 0x73; 0x00; 0x00; 0x00;
    0x93; 0x08; 0x20; 0x00; 0x73; 0x00; 0x00; 0x00;
    0xef; 0xf0; 0x9f; 0xff; 0x2f; 0x69; 0x6e; 0x69;
    0x74; 0x00; 0x00; 0x24; 0x00; 0x00; 0x00; 0x00;
    0x00; 0x00; 0x00; 0x00 ].

Definition userinit : K unit :=
  r ← allocproc;
  modify (set_initproc r);;
  match r with
  | None => fail (EFault 0)
  | Some p =>
      x ← proc_at p;
      uvminit (p_pagetable x) initcode;;
      upd_proc p (set_sz PGSIZE);;
      tf_store p TF_epc 0;;
      tf_store p TF_sp PGSIZE;;
      upd_proc p (λ x, set_name (safestrcpy (p_name x)
        [105; 110; 105; 116; 99; 111; 100; 101] 16) x);;
      cwd ← namei [SLASH];
      upd_proc p (set_cwd cwd);;
      upd_proc p (set_pvmas None);;
      upd_proc p (set_state RUNNABLE);;
      release (L_proc p)
  end.

(** The size is computed in a 32-bit variable. *)
Definition growproc (n : Z) : K Z :=
  p ← myproc;
  x ← proc_at p;
  let sz := u32 (p_sz x) in
  if 0 <? n then
    r ← uvmalloc (p_pagetable x) sz (u32 (sz + n));
    let sz := u32 r in
    if sz =? 0 then mret (-1)
    else
      upd_proc p (set_sz sz);;
      mret 0
  else
    sz ←
      (if n <? 0 then
         r ← uvmdealloc (p_pagetable x) sz (u32 (sz + n));
         mret (u32 r)
       else mret sz);
    upd_proc p (set_sz sz);;
    mret 0.

(** ** fork *)

(** while(c < VMAS_STORED && c != pindex), up to the free slot it fills; [None]
    when it reaches the last slot and finds it in use. *)
Fixpoint fork_slot (fuel c : nat) : K (option nat) :=
  match fuel with
  | O => fail EFuel
  | S fuel =>
      x ← vma_at (Some c);
      if v_use x =? 0 then mret (Some c)
      else if decide (c = VMAS_STORED - 1)%nat then mret None
      else fork_slot fuel (S c)
  end.

(** Fill slot [c] from the parent's vma [act] and link it after [pindex]. *)
Definition fork_copy (i : nat) (np : nat) (act pindex : option nat) (c : nat) : K unit :=
  (if decide (i = O) then upd_proc np (set_pvmas (Some c))
   else upd_vma pindex (set_vnext (Some c)));;
  upd_vma (Some c) (set_use 1);;
  a ← vma_at act;
  upd_vma (Some c) (λ x, Vma (v_use x) (v_size a) (v_ofile a) (v_addrinit a) (v_addri a)
    (v_addre a) (v_offset a) None (v_prot a) (v_flag a));;
  x ← vma_at (Some c);
  upd_file (v_ofile x) (λ f, set_fref (s32 (f_ref f + 1)) f).

(** for(i = 0; i < p->nvma; i++), [n] iterations to go; [false] when fork()
    returns -1 from inside the loop. *)
Fixpoint fork_vmas (n i : nat) (np : nat) (act pindex : option nat) (c : nat) : K bool :=
  match n with
  | O => mret true
  | S n =>
      r ←
        (if decide (c < VMAS_STORED)%nat then
           if decide (Some c = pindex) then mret (Some (pindex, c))
           else
             slot ← fork_slot VMAS_STORED c;
             match slot with
             | Some c =>
                 fork_copy i np act pindex c;;
                 mret (Some (Some c, c))
             | None => mret None
             end
         else mret (Some (pindex, c)));
      match r with
      | None =>
          release L_vmas;;
          release (L_proc np);;
          mret false
      | Some (pindex, c) =>
          a ← vma_at act;
          fork_vmas n (S i) np (v_next a) pindex (S c)
      end
  end.

(** for(i = 0; i < NOFILE; i++) if(p->ofile[i]) np->ofile[i] = filedup(p->ofile[i]); *)
Definition fork_files (p np : nat) : K unit :=
  forM (upto (Z.to_nat NOFILE)) (λ i,
    x ← proc_at p;
    match p_ofile x !! i with
    | Some (Some f) =>
        g ← filedup (Some f);
        upd_proc np (λ y, set_ofile (<[i := g]> (p_ofile y)) y)
    | _ => skip
    end).

Definition fork : K Z :=
  p ← myproc;
  r ← allocproc;
  match r with
  | None => mret (-1)
  | Some np =>
      x ← proc_at p;
      y ← proc_at np;
      r ← uvmcopy (p_pagetable x) (p_pagetable y) (p_sz x);
      if r <? 0 then
        freeproc np;;
        release (L_proc np);;
        mret (-1)
      else
        upd_proc np (set_sz (p_sz x));;
        tf ← memmove_from (p_trapframe x) TF_SIZE;
        memmove_to (p_trapframe y) tf;;
        tf_store np (TF_a 0) 0;;
        fork_files p np;;
        x ← proc_at p;
        cwd ← idup (p_cwd x);
        upd_proc np (set_cwd cwd);;
        upd_proc np (λ y, set_name (safestrcpy (p_name y) (p_name x) 16) y);;
        y ← proc_at np;
        let pid := p_pid y in
        upd_proc np (set_nvma (p_nvma x));;
        acquire L_vmas;;
        ok ← fork_vmas (Z.to_nat (p_nvma x)) 0 np (p_vmas x) None 0;
        if negb (ok : bool) then mret (-1)
        else
          release L_vmas;;
          release (L_proc np);;
          acquire L_wait;;
          upd_proc np (set_parent (Some p));;
          release L_wait;;
          acquire (L_proc np);;
          upd_proc np (set_state RUNNABLE);;
          release (L_proc np);;
          mret pid
  end.

(** ** exit and wait *)

Definition proc_chan (p : option nat) : chan :=
  match p with
  | None => C_null
  | Some i => C_proc i
  end.

Definition reparent (p : nat) : K unit :=
  forM (upto NPROC) (λ pp,
    x ← proc_at pp;
    when (bool_decide (p_parent x = Some p))
      (init ← gets k_initproc;
       upd_proc pp (set_parent init);;
       wakeup (proc_chan init))).

(** for(int fd = 0; fd < NOFILE; fd++) *)
Definition exit_files (p : nat) : K unit :=
  forM (upto (Z.to_nat NOFILE)) (λ fd,
    x ← proc_at p;
    match p_ofile x !! fd with
    | Some (Some f) =>
        fileclose (Some f);;
        upd_proc p (λ x, set_ofile (<[fd := None]> (p_ofile x)) x)
    | _ => skip
    end).

(** while(p->nvma > 0) munmap(act->addri, act->addre - act->addri); *)
Fixpoint exit_unmap (fuel : nat) (p : nat) : K unit :=
  x ← proc_at p;
  if negb (0 <? p_nvma x) then skip
  else
    match fuel with
    | O => fail EFuel
    | S fuel =>
        v ← vma_at (p_vmas x);
        munmap (v_addri v) (u64 (v_addre v - v_addri v));;
        exit_unmap fuel p
    end.

(** [fuel] bounds the unmapping loop. *)
Definition exit {A} (fuel : nat) (status : Z) : K A :=
  p ← myproc;
  init ← gets k_initproc;
  if bool_decide (init = Some p) then panic "init exiting"
  else
    exit_files p;;
    exit_unmap fuel p;;
    begin_op;;
    x ← proc_at p;
    iput (p_cwd x);;
    end_op;;
    upd_proc p (set_cwd None);;
    acquire L_wait;;
    reparent p;;
    x ← proc_at p;
    wakeup (proc_chan (p_parent x));;
    acquire (L_proc p);;
    upd_proc p (set_xstate status);;
    upd_proc p (set_state ZOMBIE);;
    release L_wait;;
    sched.

(** One scan of the process table by wait(): a value to return, or whether
    there are children. *)
Fixpoint wait_scan (l : list nat) (p : nat) (addr : Z) (havekids : bool) : K (Z + bool) :=
  match l with
  | [] => mret (inr havekids)
  | np :: l =>
      x ← proc_at np;
      if bool_decide (p_parent x = Some p) then
        acquire (L_proc np);;
        x ← proc_at np;
        if bool_decide (p_state x = ZOMBIE) then
          me ← proc_at p;
          r ← (if addr =? 0 then mret 0
               else copyout (p_pagetable me) addr (le_bytes 4 (p_xstate x)));
          if r <? 0 then
            release (L_proc np);;
            release L_wait;;
            mret (inl (-1))
          else
            freeproc np;;
            release (L_proc np);;
            release L_wait;;
            mret (inl (p_pid x))
        else
          release (L_proc np);;
          wait_scan l p addr true
      else wait_scan l p addr havekids
  end.

Definition wait (addr : Z) : K Z :=
  p ← myproc;
  acquire L_wait;;
  r ← wait_scan (upto NPROC) p addr false;
  match r with
  | inl v => mret v
  | inr havekids =>
      me ← proc_at p;
      if negb havekids || negb (p_killed me =? 0) then
        release L_wait;;
        mret (-1)
      else sleep (C_proc p) L_wait
  end.

End proc.
