(* ===== verification/Exec.v ===== *)
(** kernel/exec.c: loading an ELF image. *)

From S2P Require Import Prelude Riscv Kstate Mem Kalloc Vm Sched Bytes Bio Log Fs Pipe File Vma Proc.

Section exec.
Context {L : Layout}.

(** ** elf.h *)

Definition ELF_MAGIC : Z := 0x464C457F.
Definition ELF_PROG_LOAD : Z := 1.
(** sizeof(struct elfhdr), sizeof(struct proghdr) *)
Definition ELFHDR : Z := 64.
Definition PROGHDR : Z := 56.

Definition elf_magic (e : list Z) : Z := get32 e 0.
Definition elf_entry (e : list Z) : Z := get64 e 24.
Definition elf_phoff (e : list Z) : Z := get64 e 32.
Definition elf_phnum (e : list Z) : Z := get16 e 56.
Definition ph_type (h : list Z) : Z := get32 h 0.
Definition ph_off (h : list Z) : Z := get64 h 8.
Definition ph_vaddr (h : list Z) : Z := get64 h 16.
Definition ph_filesz (h : list Z) : Z := get64 h 32.
Definition ph_memsz (h : list Z) : Z := get64 h 40.

(** for(i = 0; i < sz; i += PGSIZE) *)
Fixpoint loadseg_loop (fuel : nat) (pagetable va : Z) (ip : nat) (offset sz i : Z) : K Z :=
  if negb (i <? sz) then mret 0
  else
    match fuel with
    | O => fail EFuel
    | S fuel =>
        pa ← walkaddr pagetable (u64 (va + i));
        if pa =? 0 then panic "loadseg: address should exist"
        else
          let n := if u32 (sz - i) <? PGSIZE then u32 (sz - i) else PGSIZE in
          '(r, _) ← readi ip (ToRam pa) (u32 (offset + i)) n;
          if negb (r =? n) then mret (-1)
          else loadseg_loop fuel pagetable va ip offset sz (u32 (i + PGSIZE))
    end.

Definition loadseg (pagetable va : Z) (ip : nat) (offset sz : Z) : K Z :=
  loadseg_loop (S (Z.to_nat (sz / PGSIZE))) pagetable va ip offset sz 0.

(** for(i=0, off=elf.phoff; i<elf.phnum; i++, off+=sizeof(ph)), [n] iterations
    to go: the size of the image, and whether the loop ended without goto bad. *)
Fixpoint exec_load (n : nat) (ip : nat) (pagetable off sz : Z) : K (Z * bool) :=
  match n with
  | O => mret (sz, true)
  | S n =>
      '(r, ph) ← readi ip ToLocal (u32 off) PROGHDR;
      if negb (r =? PROGHDR) then mret (sz, false)
      else if negb (ph_type ph =? ELF_PROG_LOAD) then
        exec_load n ip pagetable (s32 (off + PROGHDR)) sz
      else if ph_memsz ph <? ph_filesz ph then mret (sz, false)
      else if u64 (ph_vaddr ph + ph_memsz ph) <? ph_vaddr ph then mret (sz, false)
      else
        sz1 ← uvmalloc pagetable sz (u64 (ph_vaddr ph + ph_memsz ph));
        if sz1 =? 0 then mret (sz, false)
        else if negb (ph_vaddr ph mod PGSIZE =? 0) then mret (sz1, false)
        else
          r ← loadseg pagetable (ph_vaddr ph) ip (u32 (ph_off ph)) (u32 (ph_filesz ph));
          if r <? 0 then mret (sz1, false)
          else exec_load n ip pagetable (s32 (off + PROGHDR)) sz1
  end.

(** for(argc = 0; argv[argc]; argc++): the stack pointer and ustack[0..argc-1],
    or [None] for goto bad. *)
Fixpoint exec_args (argv : list (list Z)) (argc : Z) (pagetable sp stackbase : Z) (ustack : list Z)
  : K (option (Z * list Z)) :=
  match argv with
  | [] => mret (Some (sp, ustack))
  | a :: argv =>
      if MAXARG <=? argc then mret None
      else
        let sp := u64 (sp - (strlen a + 1)) in
        let sp := sp - sp mod 16 in
        if sp <? stackbase then mret None
        else
          r ← copyout pagetable sp (cstr a ++ [0]);
          if r <? 0 then mret None
          else exec_args argv (argc + 1) pagetable sp stackbase (ustack ++ [sp])
  end.

(** for(last=s=path; *s; s++) if( *s == '/') last = s+1; *)
Fixpoint last_elem (s last : list Z) : list Z :=
  match s with
  | [] => last
  | c :: s =>
      if c =? 0 then last
      else if c =? SLASH then last_elem s s
      else last_elem s last
  end.

(** Label bad:, with [ip] null after the image has been read. *)
Definition exec_bad (pagetable sz : Z) (ip : option nat) : K Z :=
  when (negb (pagetable =? 0)) (proc_freepagetable pagetable sz);;
  match ip with
  | Some _ =>
      iunlockput ip;;
      end_op
  | None => skip
  end;;
  mret (-1).

(** From "Allocate two pages at the next page boundary" on. *)
Definition exec_commit (path : list Z) (argv : list (list Z)) (elf : list Z) (pagetable sz : Z)
  : K Z :=
  p ← myproc;
  x ← proc_at p;
  let oldsz := p_sz x in
  let sz := PGROUNDUP sz in
  sz1 ← uvmalloc pagetable sz (u64 (sz + 2 * PGSIZE));
  if sz1 =? 0 then exec_bad pagetable sz None
  else
    let sz := sz1 in
    uvmclear pagetable (u64 (sz - 2 * PGSIZE));;
    let stackbase := u64 (sz - PGSIZE) in
    r ← exec_args argv 0 pagetable sz stackbase [];
    match r with
    | None => exec_bad pagetable sz None
    | Some (sp, ustack) =>
        let argc := Z.of_nat (length ustack) in
        let sp := u64 (sp - (argc + 1) * 8) in
        let sp := sp - sp mod 16 in
        if sp <? stackbase then exec_bad pagetable sz None
        else
          r ← copyout pagetable sp (concat (map (le_bytes 8) (ustack ++ [0])));
          if r <? 0 then exec_bad pagetable sz None
          else
            tf_store p (TF_a 1) sp;;
            upd_proc p (λ x, set_name (safestrcpy (p_name x) (last_elem path path) 16) x);;
            x ← proc_at p;
            let oldpagetable := p_pagetable x in
            upd_proc p (set_pagetable pagetable);;
            upd_proc p (set_sz sz);;
            tf_store p TF_epc (elf_entry elf);;
            tf_store p TF_sp sp;;
            proc_freepagetable oldpagetable oldsz;;
            mret argc
    end.

(** [argv] is the list of argument strings before the null pointer. *)
Definition exec (path : list Z) (argv : list (list Z)) : K Z :=
  p ← myproc;
  begin_op;;
  ip ← namei path;
  match ip with
  | None => end_op;; mret (-1)
  | Some i =>
      ilock ip;;
      '(r, elf) ← readi i ToLocal 0 ELFHDR;
      if negb (r =? ELFHDR) then exec_bad 0 0 ip
      else if negb (elf_magic elf =? ELF_MAGIC) then exec_bad 0 0 ip
      else
        pagetable ← proc_pagetable p;
        if pagetable =? 0 then exec_bad 0 0 ip
        else
          '(sz, ok) ← exec_load (Z.to_nat (elf_phnum elf)) i pagetable (s32 (elf_phoff elf)) 0;
          if negb (ok : bool) then exec_bad pagetable sz ip
          else
            iunlockput ip;;
            end_op;;
            exec_commit path argv elf pagetable sz
  end.

End exec.
