(* ===== verification/Syscall.v ===== *)
(** kernel/syscall.c (argument fetching), kernel/sysfile.c and
    kernel/sysproc.c: the system-call handlers, and the dispatcher. *)

From S2P Require Import Prelude Riscv Kstate Mem Kalloc Vm Sched Bytes Bio Log Fs Pipe File Vma Proc Exec.

Section syscall.
Context {L : Layout} {D : Devsw}.

(** ** Arguments *)

(** The uint64 at addr, or [None] for -1. *)
Definition fetchaddr (addr : Z) : K (option Z) :=
  p ← myproc;
  x ← proc_at p;
  if (p_sz x <=? addr) || (p_sz x <? u64 (addr + 8)) then mret None
  else
    '(r, bs) ← copyin (p_pagetable x) addr 8;
    mret (if r =? 0 then Some (le_val bs) else None).

(** The string at addr (its length is the result of the C function), or [None]
    for -1. *)
Definition fetchstr (addr max : Z) : K (option (list Z)) :=
  p ← myproc;
  x ← proc_at p;
  copyinstr (p_pagetable x) addr max.

Definition argraw (n : Z) : K Z :=
  p ← myproc;
  if (0 <=? n) && (n <=? 5) then tf_load p (TF_a n)
  else panic "argraw".

Definition argint (n : Z) : K Z :=
  v ← argraw n; mret (s32 v).

Definition argaddr (n : Z) : K Z := argraw n.

Definition argstr (n max : Z) : K (option (list Z)) :=
  addr ← argaddr n;
  fetchstr addr max.

(** ** sysfile.c *)

(** The descriptor and its open file, or [None] for -1. *)
Definition argfd (n : Z) : K (option (Z * nat)) :=
  fd ← argint n;
  if (fd <? 0) || (NOFILE <=? fd) then mret None
  else
    p ← myproc;
    f ← ofile_at p fd;
    mret ((λ f, (fd, f)) <$> f).

Definition fdalloc (f : nat) : K Z :=
  p ← myproc;
  r ← findM (upto (Z.to_nat NOFILE)) (λ fd,
    x ← proc_at p;
    match p_ofile x !! fd with
    | Some None =>
        upd_proc p (λ x, set_ofile (<[fd := Some f]> (p_ofile x)) x);;
        mret (Some (Z.of_nat fd))
    | _ => mret None
    end);
  mret (default (-1) r).

(** [p->ofile[fd] = 0] *)
Definition clear_fd (fd : Z) : K unit :=
  p ← myproc;
  upd_proc p (λ x, set_ofile (<[Z.to_nat fd := None]> (p_ofile x)) x).

Definition sys_dup : K Z :=
  r ← argfd 0;
  match r with
  | None => mret (-1)
  | Some (_, f) =>
      fd ← fdalloc f;
      if fd <? 0 then mret (-1)
      else
        filedup (Some f);;
        mret fd
  end.

Definition sys_read : K Z :=
  r ← argfd 0;
  match r with
  | None => mret (-1)
  | Some (_, f) =>
      n ← argint 2;
      p ← argaddr 1;
      fileread (Some f) p n
  end.

Definition sys_write : K Z :=
  r ← argfd 0;
  match r with
  | None => mret (-1)
  | Some (_, f) =>
      n ← argint 2;
      p ← argaddr 1;
      filewrite (Some f) p n
  end.

Definition sys_close : K Z :=
  r ← argfd 0;
  match r with
  | None => mret (-1)
  | Some (fd, f) =>
      clear_fd fd;;
      fileclose (Some f);;
      mret 0
  end.

(** [st0] is what the stack slot of filestat()'s [st] holds. *)
Definition sys_fstat (st0 : list Z) : K Z :=
  r ← argfd 0;
  match r with
  | None => mret (-1)
  | Some (_, f) =>
      st ← argaddr 1;
      filestat (Some f) st st0
  end.

(** Label bad: of sys_link(). *)
Definition link_bad (ip : nat) : K Z :=
  ilock (Some ip);;
  upd_inode (Some ip) (λ x, set_nlink (s16 (i_nlink x - 1)) x);;
  iupdate ip;;
  iunlockput (Some ip);;
  end_op;;
  mret (-1).

Definition sys_link : K Z :=
  old ← argstr 0 MAXPATH;
  match old with
  | None => mret (-1)
  | Some old =>
      new ← argstr 1 MAXPATH;
      match new with
      | None => mret (-1)
      | Some new =>
          begin_op;;
          ip ← namei old;
          match ip with
          | None => end_op;; mret (-1)
          | Some i =>
              ilock ip;;
              x ← inode_at ip;
              if i_type x =? T_DIR then
                iunlockput ip;;
                end_op;;
                mret (-1)
              else
                upd_inode ip (λ x, set_nlink (s16 (i_nlink x + 1)) x);;
                iupdate i;;
                iunlock ip;;
                r ← nameiparent new;
                match r with
                | None => link_bad i
                | Some (dp, name) =>
                    ilock (Some dp);;
                    d ← inode_at (Some dp);
                    x ← inode_at ip;
                    bad ←
                      (if negb (i_dev d =? i_dev x) then mret true
                       else
                         r ← dirlink dp name (i_inum x);
                         mret (r <? 0));
                    if (bad : bool) then
                      iunlockput (Some dp);;
                      link_bad i
                    else
                      iunlockput (Some dp);;
                      iput ip;;
                      end_op;;
                      mret 0
                end
          end
      end
  end.

(** for(off=2*sizeof(de); off<dp->size; off+=sizeof(de)) *)
Fixpoint isdirempty_loop (fuel : nat) (dp : nat) (off : Z) : K bool :=
  x ← inode_at (Some dp);
  if negb (off <? i_size x) then mret true
  else
    match fuel with
    | O => fail EFuel
    | S fuel =>
        '(r, de) ← readi dp ToLocal off DIRENT;
        if negb (r =? DIRENT) then panic "isdirempty: readi"
        else if negb (de_inum de =? 0) then mret false
        else isdirempty_loop fuel dp (off + DIRENT)
    end.

Definition isdirempty (dp : nat) : K bool :=
  x ← inode_at (Some dp);
  isdirempty_loop (dir_fuel (i_size x)) dp (2 * DIRENT).

(** Label bad: of sys_unlink(). *)
Definition unlink_bad (dp : nat) : K Z :=
  iunlockput (Some dp);;
  end_op;;
  mret (-1).

Definition DOT : list Z := [46].
Definition DOTDOT : list Z := [46; 46].

Definition sys_unlink : K Z :=
  path ← argstr 0 MAXPATH;
  match path with
  | None => mret (-1)
  | Some path =>
      begin_op;;
      r ← nameiparent path;
      match r with
      | None => end_op;; mret (-1)
      | Some (dp, name) =>
          ilock (Some dp);;
          if (namecmp name DOT =? 0) || (namecmp name DOTDOT =? 0) then unlink_bad dp
          else
            r ← dirlookup dp name;
            match r with
            | None => unlink_bad dp
            | Some (ip, off) =>
                ilock (Some ip);;
                x ← inode_at (Some ip);
                if i_nlink x <? 1 then panic "unlink: nlink < 1"
                else
                  full ←
                    (if i_type x =? T_DIR then e ← isdirempty ip; mret (negb e) else mret false);
                  if (full : bool) then
                    iunlockput (Some ip);;
                    unlink_bad dp
                  else
                    r ← writei dp (FromLocal (replicate (Z.to_nat DIRENT) 0)) off DIRENT;
                    if negb (r =? DIRENT) then panic "unlink: writei"
                    else
                      x ← inode_at (Some ip);
                      when (i_type x =? T_DIR)
                        (upd_inode (Some dp) (λ d, set_nlink (s16 (i_nlink d - 1)) d);;
                         iupdate dp);;
                      iunlockput (Some dp);;
                      upd_inode (Some ip) (λ x, set_nlink (s16 (i_nlink x - 1)) x);;
                      iupdate ip;;
                      iunlockput (Some ip);;
                      end_op;;
                      mret 0
            end
      end
  end.

Definition create (path : list Z) (type major minor : Z) : K (option nat) :=
  r ← nameiparent path;
  match r with
  | None => mret None
  | Some (dp, name) =>
      ilock (Some dp);;
      r ← dirlookup dp name;
      match r with
      | Some (ip, _) =>
          iunlockput (Some dp);;
          ilock (Some ip);;
          x ← inode_at (Some ip);
          if (type =? T_FILE) && ((i_type x =? T_FILE) || (i_type x =? T_DEVICE)) then mret (Some ip)
          else
            iunlockput (Some ip);;
            mret None
      | None =>
          d ← inode_at (Some dp);
          ip ← ialloc (i_dev d) type;
          ilock (Some ip);;
          upd_inode (Some ip) (λ x, set_nlink 1 (set_iminor minor (set_imajor major x)));;
          iupdate ip;;
          x ← inode_at (Some ip);
          when (type =? T_DIR)
            (upd_inode (Some dp) (λ d, set_nlink (s16 (i_nlink d + 1)) d);;
             iupdate dp;;
             r ← dirlink ip DOT (i_inum x);
             bad ← (if r <? 0 then mret true
                    else d ← inode_at (Some dp); r ← dirlink ip DOTDOT (i_inum d); mret (r <? 0));
             when (bad : bool) (panic "create dots"));;
          r ← dirlink dp name (i_inum x);
          if r <? 0 then panic "create: dirlink"
          else
            iunlockput (Some dp);;
            mret (Some ip)
      end
  end.

(** sys_open() from the check of the device number on, with [ip] locked. *)
Definition open_inode (ip : nat) (omode : Z) : K Z :=
  x ← inode_at (Some ip);
  if (i_type x =? T_DEVICE) && ((i_major x <? 0) || (NDEV <=? i_major x)) then
    iunlockput (Some ip);;
    end_op;;
    mret (-1)
  else
    f ← filealloc;
    fd ← match f with None => mret (-1) | Some f => fdalloc f end;
    match f with
    | Some _ =>
        if fd <? 0 then
          fileclose f;;
          iunlockput (Some ip);;
          end_op;;
          mret (-1)
        else
          (if i_type x =? T_DEVICE then
             upd_file f (λ g, set_fmajor (i_major x) (set_ftype FD_DEVICE g))
           else
             upd_file f (λ g, set_foff 0 (set_ftype FD_INODE g)));;
          upd_file f (set_fip (Some ip));;
          upd_file f (set_readable (if has omode O_WRONLY then 0 else 1));;
          upd_file f (set_writable (if has omode O_WRONLY || has omode O_RDWR then 1 else 0));;
          when (has omode O_TRUNC && (i_type x =? T_FILE)) (itrunc ip);;
          iunlock (Some ip);;
          end_op;;
          mret fd
    | None =>
        iunlockput (Some ip);;
        end_op;;
        mret (-1)
    end.

Definition sys_open : K Z :=
  path ← argstr 0 MAXPATH;
  match path with
  | None => mret (-1)
  | Some path =>
      omode ← argint 1;
      begin_op;;
      if has omode O_CREATE then
        ip ← create path T_FILE 0 0;
        match ip with
        | None => end_op;; mret (-1)
        | Some ip => open_inode ip omode
        end
      else
        ip ← namei path;
        match ip with
        | None => end_op;; mret (-1)
        | Some i =>
            ilock ip;;
            x ← inode_at ip;
            if (i_type x =? T_DIR) && negb (omode =? O_RDONLY) then
              iunlockput ip;;
              end_op;;
              mret (-1)
            else open_inode i omode
        end
  end.

Definition sys_mkdir : K Z :=
  begin_op;;
  path ← argstr 0 MAXPATH;
  ip ← match path with None => mret None | Some path => create path T_DIR 0 0 end;
  match ip with
  | None => end_op;; mret (-1)
  | Some _ =>
      iunlockput ip;;
      end_op;;
      mret 0
  end.

Definition sys_mknod : K Z :=
  begin_op;;
  path ← argstr 0 MAXPATH;
  ip ←
    match path with
    | None => mret None
    | Some path =>
        major ← argint 1;
        minor ← argint 2;
        create path T_DEVICE (s16 major) (s16 minor)
    end;
  match ip with
  | None => end_op;; mret (-1)
  | Some _ =>
      iunlockput ip;;
      end_op;;
      mret 0
  end.

Definition sys_chdir : K Z :=
  p ← myproc;
  begin_op;;
  path ← argstr 0 MAXPATH;
  ip ← match path with None => mret None | Some path => namei path end;
  match ip with
  | None => end_op;; mret (-1)
  | Some _ =>
      ilock ip;;
      x ← inode_at ip;
      if negb (i_type x =? T_DIR) then
        iunlockput ip;;
        end_op;;
        mret (-1)
      else
        iunlock ip;;
        me ← proc_at p;
        iput (p_cwd me);;
        end_op;;
        upd_proc p (set_cwd ip);;
        mret 0
  end.

(** The argument loop of sys_exec(), [n] slots of argv[] left: the pages
    allocated with the strings in them, and whether the loop ended without
    goto bad. *)
Fixpoint fetch_args (n : nat) (uargv i : Z) (argv : list (Z * list Z))
  : K (list (Z * list Z) * bool) :=
  match n with
  | O => mret (argv, false)
  | S n =>
      uarg ← fetchaddr (u64 (uargv + 8 * i));
      match uarg with
      | None => mret (argv, false)
      | Some uarg =>
          if uarg =? 0 then mret (argv, true)
          else
            pa ← kalloc;
            if pa =? 0 then mret (argv, false)
            else
              str ← fetchstr uarg PGSIZE;
              match str with
              | None => mret (argv ++ [(pa, [])], false)
              | Some str =>
                  memmove_to pa str;;
                  fetch_args n uargv (i + 1) (argv ++ [(pa, str)])
              end
      end
  end.

Definition sys_exec : K Z :=
  path ← argstr 0 MAXPATH;
  match path with
  | None => mret (-1)
  | Some path =>
      uargv ← argaddr 1;
      '(argv, ok) ← fetch_args (Z.to_nat MAXARG) uargv 0 [];
      if (ok : bool) then
        ret ← exec path (map snd argv);
        forM argv (λ a, kfree (fst a));;
        mret ret
      else
        forM argv (λ a, kfree (fst a));;
        mret (-1)
  end.

Definition sys_pipe : K Z :=
  p ← myproc;
  fdarray ← argaddr 0;
  r ← pipealloc;
  match r with
  | None => mret (-1)
  | Some (rf, wf) =>
      fd0 ← fdalloc rf;
      fd1 ← (if fd0 <? 0 then mret (-1) else fdalloc wf);
      if (fd0 <? 0) || (fd1 <? 0) then
        when (0 <=? fd0) (clear_fd fd0);;
        fileclose (Some rf);;
        fileclose (Some wf);;
        mret (-1)
      else
        me ← proc_at p;
        r0 ← copyout (p_pagetable me) fdarray (le_bytes 4 fd0);
        r1 ← (if r0 <? 0 then mret (-1)
              else copyout (p_pagetable me) (u64 (fdarray + 4)) (le_bytes 4 fd1));
        if r1 <? 0 then
          clear_fd fd0;;
          clear_fd fd1;;
          fileclose (Some rf);;
          fileclose (Some wf);;
          mret (-1)
        else mret 0
  end.

Definition sys_mmap : K Z :=
  length ← argaddr 1;
  prot ← argaddr 2;
  flag ← argaddr 3;
  fd ← argaddr 4;
  if negb (prot =? PROT_READ) && negb (prot =? PROT_WRITE) && negb (prot =? PROT_READ_WRITE)
  then mret (-1)
  else if negb (flag =? MAP_PRIVATE) && negb (flag =? MAP_SHARED) then mret (-1)
  else if (fd <? 0) || (NOFILE <=? fd) then mret (-1)
  else mmap length prot flag fd.

Definition sys_munmap : K Z :=
  addr ← argaddr 0;
  length ← argaddr 1;
  begin_op;;
  e ← munmap addr length;
  end_op;;
  mret e.

(** ** sysproc.c *)

(** [fuel] bounds the loop of exit(). *)
Definition sys_exit (fuel : nat) : K Z :=
  n ← argint 0;
  exit fuel n.

Definition sys_getpid : K Z :=
  p ← myproc;
  x ← proc_at p;
  mret (p_pid x).

Definition sys_fork : K Z := fork.

Definition sys_wait : K Z :=
  p ← argaddr 0;
  wait p.

Definition sys_sbrk : K Z :=
  n ← argint 0;
  p ← myproc;
  x ← proc_at p;
  let addr := s32 (p_sz x) in
  r ← growproc n;
  mret (if r <? 0 then -1 else addr).

(** The comparison [ticks - ticks0 < n] is unsigned. *)
Definition sys_sleep : K Z :=
  n ← argint 0;
  acquire L_ticks;;
  if 0 <? u32 n then
    p ← myproc;
    x ← proc_at p;
    if negb (p_killed x =? 0) then
      release L_ticks;;
      mret (-1)
    else sleep C_ticks L_ticks
  else
    release L_ticks;;
    mret 0.

Definition sys_kill : K Z :=
  pid ← argint 0;
  kill pid.

Definition sys_uptime : K Z :=
  acquire L_ticks;;
  xticks ← gets k_ticks;
  release L_ticks;;
  mret xticks.

(** ** The dispatcher *)

(** syscalls[num]; [fuel] for exit(), [st0] for fstat(). *)
Definition syscalls (fuel : nat) (st0 : list Z) (num : Z) : option (K Z) :=
  match num with
  | 1 => Some sys_fork
  | 2 => Some (sys_exit fuel)
  | 3 => Some sys_wait
  | 4 => Some sys_pipe
  | 5 => Some sys_read
  | 6 => Some sys_kill
  | 7 => Some sys_exec
  | 8 => Some (sys_fstat st0)
  | 9 => Some sys_chdir
  | 10 => Some sys_dup
  | 11 => Some sys_getpid
  | 12 => Some sys_sbrk
  | 13 => Some sys_sleep
  | 14 => Some sys_uptime
  | 15 => Some sys_open
  | 16 => Some sys_write
  | 17 => Some sys_mknod
  | 18 => Some sys_unlink
  | 19 => Some sys_link
  | 20 => Some sys_mkdir
  | 21 => Some sys_close
  | 22 => Some sys_mmap
  | 23 => Some sys_munmap
  | _ => None
  end.

Definition syscall (fuel : nat) (st0 : list Z) : K unit :=
  p ← myproc;
  a7 ← tf_load p (TF_a 7);
  match syscalls fuel st0 (s32 a7) with
  | Some f =>
      r ← f;
      tf_store p (TF_a 0) r
  | None => tf_store p (TF_a 0) (-1)
  end.

End syscall.
