(* ===== verification/Trap.v ===== *)
(** kernel/trap.c: traps from user space, page faults on mapped files, the
    clock, and the return to user space. *)

From S2P Require Import Prelude Riscv Kstate Mem Kalloc Vm Sched Bytes Bio Log Fs Pipe File Vma Proc Exec Syscall.

(** The supervisor registers a trap handler reads. *)
Record csrs : Type := Csrs {
  c_sstatus : Z;
  c_sepc : Z;
  c_scause : Z;
  c_stval : Z;
  c_satp : Z;
  c_tp : Z;
}.

(** What the handlers learn from and do to the devices: the interrupt
    plic_claim() reports, the drivers' interrupt routines, plic_complete(), and
    w_sip(r_sip() & ~2).  (The code of these is in Boot.v for the interrupt
    controller and the register sip, and in Console.v and VirtioDisk.v for the
    drivers.) *)
Class Devices : Type := {
  plic_claim : K Z;
  plic_complete : Z → K unit;
  uartintr : K unit;
  virtio_disk_intr : K unit;
  ack_sip : K unit;
}.

Section trap.
Context {L : Layout} {D : Devsw} {V : Devices}.

Definition SSTATUS_SPP : Z := Z.shiftl 1 8.
Definition SSTATUS_SPIE : Z := Z.shiftl 1 5.
Definition UART0_IRQ : Z := 10.
Definition VIRTIO0_IRQ : Z := 1.

Definition clockintr : K unit :=
  acquire L_ticks;;
  modify (λ s, set_ticks (u32 (k_ticks s + 1)) s);;
  wakeup C_ticks;;
  release L_ticks.

(** 2 for a timer interrupt, 1 for another device, 0 if not recognized *)
Definition devintr (c : csrs) : K Z :=
  if has (c_scause c) 0x8000000000000000 && (Z.land (c_scause c) 0xff =? 9) then
    irq ← plic_claim;
    (if irq =? UART0_IRQ then uartintr
     else if irq =? VIRTIO0_IRQ then virtio_disk_intr
     else skip);;   (* any other but 0 is printed *)
    when (negb (irq =? 0)) (plic_complete irq);;
    mret 1
  else if c_scause c =? 0x8000000000000001 then
    when (s32 (c_tp c) =? 0) clockintr;;
    ack_sip;;
    mret 2
  else mret 0.

(** for(i = 0; i < p->nvma; i++): the vma that contains the address *)
Fixpoint find_vma (n : nat) (f_vaddr : Z) (act : option nat) : K (option nat) :=
  match n with
  | O => mret None
  | S n =>
      x ← vma_at act;
      if (v_addri x <=? f_vaddr) && (f_vaddr <? v_addre x) then mret act
      else find_vma n f_vaddr (v_next x)
  end.

(** The branch for scause 12, 13 and 15; [fuel] for exit(). *)
Definition page_fault (fuel : nat) (p : nat) (f_vaddr : Z) : K unit :=
  me ← proc_at p;
  if p_nvma me =? 0 then
    upd_proc p (set_killed 1);;
    exit fuel (-1)
  else
    act ← find_vma (Z.to_nat (p_nvma me)) f_vaddr (p_vmas me);
    match act with
    | None =>
        upd_proc p (set_killed 1);;
        exit fuel (-1)
    | Some _ =>
        paddr ← kalloc;
        when (paddr =? 0) (upd_proc p (set_killed 1));;
        memset paddr 0 PGNAT;;
        x ← vma_at act;
        me ← proc_at p;
        r ← mappages (p_pagetable me) f_vaddr PGSIZE paddr (Z.lor (v_prot x) PTE_U);
        if negb (r =? 0) then
          kfree paddr;;
          upd_proc p (set_killed 1);;
          exit fuel (-1)
        else
          f ← file_at (v_ofile x);
          ilock (f_ip f);;
          ip ← nonnull (f_ip f);
          readi ip (ToUser (PGROUNDDOWN f_vaddr))
            (u32 (PGROUNDDOWN f_vaddr - v_addri x)) PGSIZE;;
          iunlock (f_ip f)
    end.

(** The registers loaded for the return to user mode. *)
Record uret : Type := Uret { u_sstatus : Z; u_sepc : Z; u_satp : Z }.

Definition SATP_SV39 : Z := Z.shiftl 8 60.
Definition MAKE_SATP (pagetable : Z) : Z := Z.lor SATP_SV39 (Z.shiftr pagetable 12).

(** [usertrap_addr] is the address of usertrap(). *)
Definition usertrapret (usertrap_addr : Z) (c : csrs) : K uret :=
  p ← myproc;
  x ← proc_at p;
  tf_store p TF_kernel_satp (c_satp c);;
  tf_store p TF_kernel_sp (u64 (p_kstack x + PGSIZE));;
  tf_store p TF_kernel_trap usertrap_addr;;
  tf_store p TF_kernel_hartid (c_tp c);;
  let sstatus := Z.lor (Z.land (c_sstatus c) (Z.lnot SSTATUS_SPP)) SSTATUS_SPIE in
  epc ← tf_load p TF_epc;
  mret (Uret sstatus epc (MAKE_SATP (p_pagetable x))).

(** The first code of a new process, entered from scheduler() with p->lock
    held; the result carries the static variable [first]. *)
Definition forkret (first : bool) (usertrap_addr : Z) (c : csrs) : K (bool * uret) :=
  p ← myproc;
  release (L_proc p);;
  when first (fsinit ROOTDEV);;
  u ← usertrapret usertrap_addr c;
  mret (false, u).

Definition usertrap (fuel : nat) (st0 : list Z) (usertrap_addr : Z) (c : csrs) : K uret :=
  if has (c_sstatus c) SSTATUS_SPP then panic "usertrap: not from user mode"
  else
    p ← myproc;
    tf_store p TF_epc (c_sepc c);;
    which_dev ←
      (if c_scause c =? 8 then
         x ← proc_at p;
         if negb (p_killed x =? 0) then exit fuel (-1)
         else
           epc ← tf_load p TF_epc;
           tf_store p TF_epc (epc + 4);;
           syscall fuel st0;;
           mret 0
       else
         which_dev ← devintr c;
         if negb (which_dev =? 0) then mret which_dev
         else if (c_scause c =? 12) || (c_scause c =? 13) || (c_scause c =? 15) then
           page_fault fuel p (c_stval c);;
           mret 0
         else
           upd_proc p (set_killed 1);;
           mret 0);
    x ← proc_at p;
    if negb (p_killed x =? 0) then exit fuel (-1)
    else
      when (which_dev =? 2) yield;;
      usertrapret usertrap_addr c.

(** Traps taken in the kernel; [intr] is whether interrupts are enabled.  The
    result is what w_sepc() and w_sstatus() restore at the end; a process runs,
    so myproc() is not 0. *)
Definition kerneltrap (intr : bool) (c : csrs) : K (Z * Z) :=
  if negb (has (c_sstatus c) SSTATUS_SPP) then panic "kerneltrap: not from supervisor mode"
  else if intr then panic "kerneltrap: interrupts enabled"
  else
    which_dev ← devintr c;
    if which_dev =? 0 then panic "kerneltrap"
    else
      p ← myproc;
      x ← proc_at p;
      when ((which_dev =? 2) && bool_decide (p_state x = RUNNING)) yield;;
      mret (c_sepc c, c_sstatus c).

End trap.
