(* ===== verification/BioSpec.v ===== *)
(** What the buffer cache promises: a cache over the disk.

    [ring]: the LRU list is a permutation of the buffers, linked both ways.
    [cells]: the buffers without their links, the part clients see.
    [cache_ok]: at most one buffer per block; a buffer nobody uses is unlocked
    and holds what the disk holds.  bread(), bwrite(), brelse(), bpin() and
    bunpin() are specified by their effect on the cells and the disk. *)

From S2P Require Import Prelude Riscv Kstate Sched Bio.

(** ** Circular lists

    Described by their successor function: the shape of the LRU list, and the two
    surgeries bio.c performs on it. *)

(** [path f a l z]: following [f] from [a] visits [l] and then reaches [z]. *)
Fixpoint path (f : nat → option nat) (a : nat) (l : list nat) (z : nat) : Prop :=
  match l with
  | [] => f a = Some z
  | b :: l => f a = Some b ∧ path f b l z
  end.

(** The last node before [z]. *)
Definition before (a : nat) (l : list nat) : nat := default a (last l).

Lemma path_app f a l1 b l2 z :
  path f a (l1 ++ b :: l2) z ↔ path f a l1 b ∧ path f b l2 z.
Proof. revert a. induction l1 as [|c l1 IH]; intros a; simpl; [done|]. rewrite IH. tauto. Qed.

Lemma path_frame f g a l z :
  (∀ x, x ∈ a :: l → g x = f x) → path f a l z → path g a l z.
Proof.
  revert a. induction l as [|b l IH]; intros a H; simpl.
  - rewrite H by set_solver. done.
  - rewrite H by set_solver. intros [? ?]. split; [done|]. apply IH; set_solver.
Qed.

(** The successor of [a] on a path. *)
Lemma path_first f a l z : path f a l z → f a = Some (default z (hd_error l)).
Proof. destruct l; simpl; tauto. Qed.

Lemma before_cons a b l : before a (b :: l) = before b l.
Proof.
  unfold before. rewrite last_cons. by destruct (last l).
Qed.

Lemma before_elem a l : before a l ∈ a :: l.
Proof.
  revert a. induction l as [|b l IH]; intros a; [unfold before; simpl; set_solver|].
  rewrite before_cons. specialize (IH b). set_solver.
Qed.

Lemma before_reverse a l : before a (reverse l) = default a (hd_error l).
Proof. unfold before. rewrite last_reverse. by destruct l. Qed.

Lemma head_before a l : default a (hd_error (reverse l)) = before a l.
Proof. unfold before. by rewrite head_reverse. Qed.

(** Redirecting the last step. *)
Lemma path_redirect f g a l z w :
  path f a l z → (∀ x, x ∈ a :: l → x ≠ before a l → g x = f x) →
  NoDup (a :: l) → g (before a l) = Some w → path g a l w.
Proof.
  revert a. induction l as [|b l IH]; intros a; simpl.
  - intros _ _ _ Hg. done.
  - intros [Ha Hp] Hf Hnd Hg. rewrite before_cons in *. apply NoDup_cons in Hnd as [Hn Hnd].
    split.
    + rewrite Hf; [done|set_solver|]. intros ->. apply Hn, before_elem.
    + apply IH; [done| |done|done]. intros x Hx Hne. apply Hf; [set_solver|done].
Qed.

(** Unlinking [b]: its predecessor is made to point to its successor. *)
Lemma path_unlink f g a l1 b l2 z :
  path f a (l1 ++ b :: l2) z → NoDup (a :: l1 ++ b :: l2) →
  (∀ x, x ≠ before a l1 → g x = f x) → g (before a l1) = f b →
  path g a (l1 ++ l2) z.
Proof.
  rewrite path_app. intros [H1 H2] Hnd Hf Hg.
  change (a :: l1 ++ b :: l2) with ((a :: l1) ++ b :: l2) in Hnd.
  apply NoDup_app in Hnd as (Hnd1 & Hd & Hnd2).
  assert (Hfr : ∀ x, x ∈ b :: l2 → g x = f x).
  { intros x Hx. apply Hf. intros ->. by apply (Hd _ (before_elem a l1)). }
  destruct l2 as [|c l2]; simpl in *.
  - rewrite app_nil_r. eapply path_redirect; [done|auto|done|]. by rewrite Hg.
  - destruct H2 as [Hb H2]. apply path_app. split.
    + eapply path_redirect; [done|auto|done|]. by rewrite Hg.
    + eapply path_frame; [|done]. intros x Hx. apply Hfr. set_solver.
Qed.

(** Inserting [b] first, and last. *)
Lemma path_push f g a l b z :
  path f a l z → NoDup (a :: l) → b ∉ a :: l →
  g a = Some b → g b = f a → (∀ x, x ≠ a → x ≠ b → g x = f x) → path g a (b :: l) z.
Proof.
  intros Hp Hnd Hb Ha Hgb Hf. simpl. split; [done|].
  apply NoDup_cons in Hnd as [Hn Hnd].
  destruct l as [|c l]; simpl in *; [by rewrite Hgb|].
  destruct Hp as [Hc Hp]. split; [by rewrite Hgb|].
  eapply path_frame; [|done]. intros x Hx. apply Hf; set_solver.
Qed.

Lemma path_snoc f g a l b z :
  path f a l z → NoDup (a :: l) → b ∉ a :: l →
  g (before a l) = Some b → g b = Some z → (∀ x, x ≠ before a l → x ≠ b → g x = f x) →
  path g a (l ++ [b]) z.
Proof.
  intros Hp Hnd Hb Ha Hgb Hf. apply path_app. split; [|done].
  eapply path_redirect; [done| |done|done]. intros x Hx Hne. apply Hf; [done|set_solver].
Qed.

(** ** The LRU ring *)

Definition nxt (bufs : list buf) (b : nat) : option nat := b_next <$> bufs !! b.
Definition prv (bufs : list buf) (b : nat) : option nat := b_prev <$> bufs !! b.

Record ring (bufs : list buf) (ord : list nat) : Prop := {
  ring_len : length bufs = S NBUF;
  ring_perm : ord ≡ₚ upto NBUF;
  ring_next : path (nxt bufs) head ord head;
  ring_prev : path (prv bufs) head (reverse ord) head;
}.

Definition ring_ok (bufs : list buf) : Prop := ∃ ord, ring bufs ord.

Lemma ring_nodup bufs ord : ring bufs ord → NoDup (head :: ord).
Proof.
  intros R. apply NoDup_cons. rewrite (ring_perm _ _ R). split; [|apply NoDup_seq].
  rewrite elem_of_seq. unfold head. lia.
Qed.

Lemma ring_elem bufs ord b : ring bufs ord → b ∈ ord ↔ (b < NBUF)%nat.
Proof. intros R. rewrite (ring_perm _ _ R), elem_of_seq. lia. Qed.

(** An update that keeps the links keeps the ring. *)
Lemma ring_alter bufs ord b f :
  (∀ x, b_next (f x) = b_next x ∧ b_prev (f x) = b_prev x) →
  ring bufs ord → ring (alter f b bufs) ord.
Proof.
  intros Hf R. destruct R as [Hl Hp Hn Hv]. split; [by rewrite length_alter|done| |].
  - eapply path_frame; [|done]. intros x _. unfold nxt. destruct (decide (x = b)) as [->|].
    + rewrite list_lookup_alter_eq. destruct (bufs !! b); simpl; [|done]. f_equal. apply Hf.
    + by rewrite list_lookup_alter_ne.
  - eapply path_frame; [|done]. intros x _. unfold prv. destruct (decide (x = b)) as [->|].
    + rewrite list_lookup_alter_eq. destruct (bufs !! b); simpl; [|done]. f_equal. apply Hf.
    + by rewrite list_lookup_alter_ne.
Qed.

(** The effect of link updates on [nxt] and [prv]. *)
Lemma nxt_set_next bufs b v x :
  (b < length bufs)%nat → nxt (alter (set_next v) b bufs) x = if decide (x = b) then Some v else nxt bufs x.
Proof.
  intros [y Hy]%lookup_lt_is_Some. unfold nxt. case_decide as E; [subst|].
  - by rewrite list_lookup_alter_eq, Hy.
  - by rewrite list_lookup_alter_ne.
Qed.
Lemma nxt_set_prev bufs b v x : nxt (alter (set_prev v) b bufs) x = nxt bufs x.
Proof.
  unfold nxt. destruct (decide (x = b)) as [->|].
  - rewrite list_lookup_alter_eq. by destruct (bufs !! b).
  - by rewrite list_lookup_alter_ne.
Qed.
Lemma prv_set_prev bufs b v x :
  (b < length bufs)%nat → prv (alter (set_prev v) b bufs) x = if decide (x = b) then Some v else prv bufs x.
Proof.
  intros [y Hy]%lookup_lt_is_Some. unfold prv. case_decide as E; [subst|].
  - by rewrite list_lookup_alter_eq, Hy.
  - by rewrite list_lookup_alter_ne.
Qed.
Lemma prv_set_next bufs b v x : prv (alter (set_next v) b bufs) x = prv bufs x.
Proof.
  unfold prv. destruct (decide (x = b)) as [->|].
  - rewrite list_lookup_alter_eq. by destruct (bufs !! b).
  - by rewrite list_lookup_alter_ne.
Qed.

(** Taking [b] out of the list, with [p] and [q] its neighbours. *)
Definition unlinked (b p q : nat) (bufs : list buf) : list buf :=
  alter (set_next q) p (alter (set_prev p) q bufs).
(** Putting [b] back at the front, with [q] the first buffer. *)
Definition front (b q : nat) (bufs : list buf) : list buf :=
  alter (set_next b) head (alter (set_prev b) q (alter (set_prev head) b (alter (set_next q) b bufs))).

Lemma length_unlinked b p q bufs : length (unlinked b p q bufs) = length bufs.
Proof. unfold unlinked. by rewrite !length_alter. Qed.
Lemma length_front b q bufs : length (front b q bufs) = length bufs.
Proof. unfold front. by rewrite !length_alter. Qed.

(** The nodes of the ring are buffers. *)
Lemma ring_node bufs ord x : ring bufs ord → x ∈ head :: ord → (x < length bufs)%nat.
Proof.
  intros R. rewrite (ring_len _ _ R), elem_of_cons, (ring_elem _ _ _ R). unfold head. lia.
Qed.

Lemma first_elem (a : nat) l : default a (List.hd_error l) ∈ a :: l.
Proof. destruct l; simpl; set_solver. Qed.

Lemma unlinked_next bufs l1 b l2 :
  ring bufs (l1 ++ b :: l2) →
  path (nxt (unlinked b (before head l1) (default head (List.hd_error l2)) bufs)) head (l1 ++ l2) head.
Proof.
  intros R. pose proof (ring_nodup _ _ R) as Hnd.
  eapply path_unlink; [exact (ring_next _ _ R)|done| |].
  - intros x Hx. unfold unlinked. rewrite nxt_set_next, nxt_set_prev.
    + by rewrite decide_False.
    + rewrite length_alter. apply (ring_node _ _ _ R). pose proof (before_elem head l1). set_solver.
  - unfold unlinked. rewrite nxt_set_next.
    + rewrite decide_True by done. symmetry. apply path_first.
      pose proof (ring_next _ _ R) as Hp. apply path_app in Hp. by destruct Hp.
    + rewrite length_alter. apply (ring_node _ _ _ R). pose proof (before_elem head l1). set_solver.
Qed.

Lemma unlinked_prev bufs l1 b l2 :
  ring bufs (l1 ++ b :: l2) →
  path (prv (unlinked b (before head l1) (default head (List.hd_error l2)) bufs)) head
    (reverse (l1 ++ l2)) head.
Proof.
  intros R. pose proof (ring_nodup _ _ R) as Hnd. pose proof (ring_prev _ _ R) as Hp.
  rewrite reverse_app, reverse_cons, <- app_assoc in Hp. rewrite reverse_app.
  assert (Hq : (default head (List.hd_error l2) < length bufs)%nat).
  { apply (ring_node _ _ _ R). pose proof (first_elem head l2). set_solver. }
  eapply path_unlink; [exact Hp| | |].
  - revert Hnd. rewrite !NoDup_cons. intros [H1 H2]. split.
    + rewrite elem_of_app, elem_of_cons, !elem_of_reverse. set_solver.
    + rewrite !reverse_Permutation, Permutation_app_comm. simpl. by rewrite Permutation_middle.
  - intros x Hx. unfold unlinked. rewrite prv_set_next, prv_set_prev by done.
    rewrite before_reverse in Hx. by rewrite decide_False.
  - unfold unlinked. rewrite prv_set_next, prv_set_prev, before_reverse by done.
    rewrite decide_True by done. symmetry. rewrite <- head_before. apply path_first.
    apply path_app in Hp. by destruct Hp.
Qed.

Lemma ring_to_front bufs l1 b l2 :
  ring bufs (l1 ++ b :: l2) →
  let p := before head l1 in
  let q := default head (List.hd_error l2) in
  let q' := default head (List.hd_error (l1 ++ l2)) in
  ring (front b q' (unlinked b p q bufs)) (b :: l1 ++ l2).
Proof.
  intros R p q q'. pose proof (ring_nodup _ _ R) as Hnd.
  pose proof (unlinked_next _ _ _ _ R) as Hn. pose proof (unlinked_prev _ _ _ _ R) as Hv.
  fold p q in Hn, Hv. set (bufs1 := unlinked b p q bufs) in *.
  assert (Hl : length bufs1 = length bufs) by apply length_unlinked.
  assert (Hb : (b < length bufs1)%nat) by (rewrite Hl; apply (ring_node _ _ _ R); set_solver).
  assert (Hq' : (q' < length bufs1)%nat).
  { rewrite Hl. apply (ring_node _ _ _ R). pose proof (first_elem head (l1 ++ l2)). set_solver. }
  assert (Hh : (head < length bufs1)%nat) by (rewrite Hl; apply (ring_node _ _ _ R); set_solver).
  assert (Hnd' : NoDup (head :: l1 ++ l2) ∧ b ∉ head :: l1 ++ l2).
  { rewrite NoDup_cons, <- Permutation_middle, NoDup_cons in Hnd. rewrite NoDup_cons. set_solver. }
  destruct Hnd' as [Hnd' Hbn].
  assert (Hq : q' ≠ b). { pose proof (first_elem head (l1 ++ l2)) as He. fold q' in He. intros E.
    rewrite E in He. exact (Hbn He). }
  assert (Hhb : head ≠ b) by set_solver.
  split.
  - rewrite length_front, Hl. apply (ring_len _ _ R).
  - rewrite <- (ring_perm _ _ R). by rewrite <- Permutation_middle.
  - eapply path_push; [exact Hn|done|done|..]; unfold front.
    + rewrite nxt_set_next by (by rewrite !length_alter). by rewrite decide_True.
    + rewrite nxt_set_next, !nxt_set_prev, nxt_set_next by (by rewrite ?length_alter).
      rewrite decide_False, decide_True by done. symmetry. by apply path_first in Hn.
    + intros x H1 H2. rewrite nxt_set_next, !nxt_set_prev, nxt_set_next by (by rewrite ?length_alter).
      by rewrite !decide_False.
  - rewrite reverse_cons. eapply path_snoc; [exact Hv|..]; unfold front.
    + by rewrite reverse_Permutation.
    + rewrite elem_of_cons, elem_of_reverse. set_solver.
    + rewrite before_reverse. fold q'. rewrite prv_set_next, prv_set_prev by (by rewrite ?length_alter).
      by rewrite decide_True.
    + rewrite prv_set_next, !prv_set_prev by (by rewrite ?length_alter).
      rewrite decide_False, decide_True by done. done.
    + rewrite before_reverse. fold q'. intros x H1 H2.
      rewrite prv_set_next, !prv_set_prev, prv_set_next by (by rewrite ?length_alter).
      by rewrite !decide_False.
Qed.

(** ** Steps of the code on the buffer array *)

Lemma buf_at_run b s x : k_bufs s !! b = Some x → buf_at b s = Ok x s.
Proof. apply deref_run. Qed.

Lemma upd_buf_run b f s :
  (b < length (k_bufs s))%nat → upd_buf b f s = Ok tt (set_kbufs (alter f b (k_bufs s)) s).
Proof. apply assign_alter. Qed.

Lemma k_bufs_set l s : k_bufs (set_kbufs l s) = l.
Proof. done. Qed.
Lemma set_kbufs_set l l' s : set_kbufs l (set_kbufs l' s) = set_kbufs l s.
Proof. done. Qed.
Lemma set_kbufs_id s : set_kbufs (k_bufs s) s = s.
Proof. by destruct s as [? ? ? []]. Qed.
Lemma set_held_kbufs h l s : set_held h (set_kbufs l s) = set_kbufs l (set_held h s).
Proof. done. Qed.
Lemma k_bufs_held h s : k_bufs (set_held h s) = k_bufs s.
Proof. done. Qed.

(** [run_buf H]: step over a read of the buffer whose lookup is [H];
    [run_ubuf]: step over an assignment to a buffer. *)
Ltac buf_len := rewrite ?k_bufs_held, ?k_bufs_set, ?k_bufs_held, ?length_alter; first [assumption | lia].
Ltac run_ubuf :=
  rewrite ?bind_assoc;
  match goal with
  | |- context [(upd_buf ?b ?f ≫= _) ?s] =>
      rewrite (bind_ok _ _ _ _ _ (upd_buf_run b f s ltac:(buf_len)))
  | |- context [upd_buf ?b ?f ?s] => rewrite (upd_buf_run b f s ltac:(buf_len))
  end; cbv beta; rewrite ?set_held_kbufs, ?k_bufs_held, ?k_bufs_set, ?k_bufs_held, ?set_kbufs_set.
Ltac run_buf H :=
  rewrite ?bind_assoc;
  match goal with
  | |- context [(buf_at ?b ≫= _) ?s] => rewrite (bind_ok _ _ _ _ _ (buf_at_run b s _ H))
  end; cbv beta.

(** The first buffer of [l] with property [P]. *)
Fixpoint find_buf (P : buf → bool) (bufs : list buf) (l : list nat) : option nat :=
  match l with
  | [] => None
  | i :: l => if from_option P false (bufs !! i) then Some i else find_buf P bufs l
  end.

Lemma find_buf_Some P bufs l i :
  find_buf P bufs l = Some i → i ∈ l ∧ ∃ x, bufs !! i = Some x ∧ P x = true.
Proof.
  induction l as [|j l IH]; simpl; [done|].
  destruct (bufs !! j) as [x|] eqn:E; simpl; [|set_solver].
  destruct (P x) eqn:EP; [intros [= ->]; split; [set_solver|eauto]|set_solver].
Qed.

Lemma find_buf_None P bufs l :
  find_buf P bufs l = None → ∀ i x, i ∈ l → bufs !! i = Some x → P x = false.
Proof.
  induction l as [|j l IH]; simpl; [set_solver|]. intros H i x Hi Hx.
  apply elem_of_cons in Hi as [->|Hi].
  - rewrite Hx in H. simpl in H. by destruct (P x).
  - destruct (from_option P false (bufs !! j)); [done|eauto].
Qed.

Definition is_block (dev blockno : Z) (x : buf) : bool := (b_dev x =? dev) && (b_blockno x =? blockno).
Definition is_unused (x : buf) : bool := b_refcnt x =? 0.

Lemma bget_cached_run s dev bno a l fuel :
  path (nxt (k_bufs s)) a l head → head ∉ l → (length l ≤ fuel)%nat →
  bget_cached fuel dev bno (default head (List.hd_error l)) s =
  Ok (find_buf (is_block dev bno) (k_bufs s) l) s.
Proof.
  revert a fuel. induction l as [|b l IH]; intros a fuel Hp Hh Hf; simpl in *.
  { destruct fuel; unfold bget_cached, bget_unused; by rewrite decide_True. }
  destruct fuel as [|fuel]; [lia|]. cbn [bget_cached]. rewrite decide_False by set_solver.
  destruct Hp as [_ Hp]. pose proof (path_first _ _ _ _ Hp) as Hb.
  unfold nxt in Hb. destruct (k_bufs s !! b) as [x|] eqn:Ex; [|done]. simpl in *.
  injection Hb as Hb. run_buf Ex. unfold is_block at 1.
  destruct (_ && _); [done|]. rewrite Hb. apply (IH b); [done|set_solver|lia].
Qed.

Lemma bget_unused_run s a l fuel :
  path (prv (k_bufs s)) a l head → head ∉ l → (length l ≤ fuel)%nat →
  bget_unused fuel (default head (List.hd_error l)) s = Ok (find_buf is_unused (k_bufs s) l) s.
Proof.
  revert a fuel. induction l as [|b l IH]; intros a fuel Hp Hh Hf; simpl in *.
  { destruct fuel; unfold bget_cached, bget_unused; by rewrite decide_True. }
  destruct fuel as [|fuel]; [lia|]. cbn [bget_unused]. rewrite decide_False by set_solver.
  destruct Hp as [_ Hp]. pose proof (path_first _ _ _ _ Hp) as Hb.
  unfold prv in Hb. destruct (k_bufs s !! b) as [x|] eqn:Ex; [|done]. simpl in *.
  injection Hb as Hb. run_buf Ex. unfold is_unused at 1.
  destruct (b_refcnt x =? 0); [done|]. rewrite Hb. apply (IH b); [done|set_solver|lia].
Qed.

(** ** Sleep locks of buffers *)

(** A thread that may sleep: it holds no spinlock and is a live process. *)
Record ready (s : kstate) (me : proc) : Prop := {
  rd_held : k_held s = ∅;
  rd_procs : length (k_procs s) = NPROC;
  rd_me : k_procs s !! k_cur s = Some me;
}.

Lemma bacquire_run s me b x :
  k_bufs s !! b = Some x → sl_locked (b_lock x) = false → L_buf b ∉ k_held s →
  k_procs s !! k_cur s = Some me →
  bacquire b s =
  Ok tt (set_kbufs (alter (set_block (SleepLock true (p_pid me))) b (k_bufs s)) s).
Proof.
  intros Hx Hl Hh Hme. unfold bacquire, acquiresleep, myproc. run_acquire. run.
  rewrite (bind_ok _ _ _ _ _ (buf_at_run b (set_held _ s) x Hx)). run. rewrite Hl. run.
  rewrite (bind_ok _ _ _ _ _ (proc_at_run _ (set_held _ s) me Hme)).
  pose proof (lookup_lt_Some _ _ _ Hx). run_ubuf. run_release. do 2 f_equal.
  unfold set_kbufs, set_held, set_io. cbn [k_held]. by rewrite held_restore.
Qed.

Lemma bholding_run s me b x :
  k_bufs s !! b = Some x → L_buf b ∉ k_held s → k_procs s !! k_cur s = Some me →
  bholding b s = Ok (sl_locked (b_lock x) && (sl_pid (b_lock x) =? p_pid me)) s.
Proof.
  intros Hx Hh Hme. unfold bholding, holdingsleep, myproc. run_acquire. run.
  rewrite (bind_ok _ _ _ _ _ (buf_at_run b (set_held _ s) x Hx)). run.
  rewrite (bind_ok _ _ _ _ _ (proc_at_run _ (set_held _ s) me Hme)).
  run_release. run. cbn. unfold mret, M_ret. f_equal. unfold set_held. cbn.
  rewrite held_restore by done. by destruct s.
Qed.

Lemma brelease_run s b :
  (b < length (k_bufs s))%nat → L_buf b ∉ k_held s → no_proc_locks s → length (k_procs s) = NPROC →
  brelease b s =
  Ok tt (set_procs (wake (C_buf b) (k_cur s) (k_procs s))
    (set_kbufs (alter (set_block (SleepLock false 0)) b (k_bufs s)) s)).
Proof.
  intros Hb Hh Hn Hl. unfold brelease, releasesleep. run_acquire. run_ubuf.
  erewrite bind_ok; [|apply wakeup_run; [|done]].
  - run_release. do 2 f_equal.
    unfold set_kbufs, set_procs, set_held, set_io. cbn. by rewrite held_restore.
  - intros i Hi. specialize (Hn i Hi). unfold set_kbufs, set_held, set_io. cbn. set_solver.
Qed.

(** ** Cells: the buffers without their links *)

Definition strip (x : buf) : buf := set_prev 0%nat (set_next 0%nat x).
Definition cells (bufs : list buf) : list buf := strip <$> take NBUF bufs.

Lemma cells_lookup bufs b : (b < NBUF)%nat → cells bufs !! b = strip <$> bufs !! b.
Proof. intros. unfold cells. by rewrite list_lookup_fmap, lookup_take_lt. Qed.

Lemma cells_lookup_inv bufs b x :
  cells bufs !! b = Some x → (b < NBUF)%nat ∧ ∃ y, bufs !! b = Some y ∧ x = strip y.
Proof.
  intros H. assert (b < NBUF)%nat as Hb.
  { apply lookup_lt_Some in H. unfold cells in H. rewrite length_fmap, length_take in H. lia. }
  split; [done|]. rewrite cells_lookup in H by done.
  destruct (bufs !! b) as [y|]; [|done]. injection H as <-. eauto.
Qed.

Lemma cells_alter bufs b f :
  (∀ x, strip (f x) = f (strip x)) → cells (alter f b bufs) = alter f b (cells bufs).
Proof.
  intros Hf. apply list_eq. intros i. destruct (decide (i < NBUF)%nat) as [Hi|Hi].
  - rewrite cells_lookup by done. destruct (decide (i = b)) as [->|].
    + rewrite !list_lookup_alter_eq, cells_lookup by done. destruct (bufs !! b); simpl; [|done].
      by rewrite Hf.
    + by rewrite !list_lookup_alter_ne, cells_lookup.
  - rewrite !lookup_ge_None_2; [done| |];
      unfold cells; rewrite ?length_alter, length_fmap, length_take; lia.
Qed.

Lemma cells_links bufs b f : (∀ x, strip (f x) = strip x) → cells (alter f b bufs) = cells bufs.
Proof.
  intros Hf. apply list_eq. intros i. destruct (decide (i < NBUF)%nat) as [Hi|Hi].
  - rewrite !cells_lookup by done. destruct (decide (i = b)) as [->|].
    + rewrite list_lookup_alter_eq. destruct (bufs !! b); simpl; [|done]. by rewrite Hf.
    + by rewrite list_lookup_alter_ne.
  - rewrite !lookup_ge_None_2; [done| |];
      unfold cells; rewrite length_fmap, length_take, ?length_alter; lia.
Qed.

Lemma alter_insert {A} (f : A → A) (l : list A) i x : l !! i = Some x → alter f i l = <[i := f x]> l.
Proof.
  intros H. apply list_eq. intros j. destruct (decide (j = i)) as [->|].
  - rewrite list_lookup_alter_eq, H, list_lookup_insert_eq; [done|]. by apply lookup_lt_Some in H.
  - by rewrite list_lookup_alter_ne, list_lookup_insert_ne.
Qed.

(** A cell holds block [bno] of the root device. *)
Definition holds (bno : Z) (x : buf) : Prop := b_dev x = ROOTDEV ∧ b_blockno x = bno.

(** The content of block [bno]: the cached copy if there is one. *)
Fixpoint bview (cs : list buf) (d : list (Z * list Z)) (bno : Z) : list Z :=
  match cs with
  | [] => disk_block d bno
  | x :: cs => if is_block ROOTDEV bno x && b_valid x then b_data x else bview cs d bno
  end.

Record cache_ok (cs : list buf) (d : list (Z * list Z)) : Prop := {
  co_len : length cs = NBUF;
  co_uniq : ∀ i j x y bno, cs !! i = Some x → cs !! j = Some y → holds bno x → holds bno y → i = j;
  co_ref : ∀ i x, cs !! i = Some x → 0 ≤ b_refcnt x < 2147483648;
  co_unused : ∀ i x, cs !! i = Some x → b_refcnt x = 0 →
    b_lock x = SleepLock false 0 ∧
    (b_dev x = ROOTDEV → b_valid x = true → b_data x = disk_block d (b_blockno x));
}.

Lemma is_block_holds bno x : is_block ROOTDEV bno x = true ↔ holds bno x.
Proof. unfold is_block, holds. rewrite andb_true_iff, !Z.eqb_eq. done. Qed.

Lemma bview_cached cs d bno i x :
  cache_ok cs d → cs !! i = Some x → holds bno x → b_valid x = true → bview cs d bno = b_data x.
Proof.
  intros C Hx Hh Hv. pose proof (λ j y H1 H2, co_uniq _ _ C i j x y bno Hx H1 Hh H2) as U. clear C.
  revert i Hx U. induction cs as [|y cs IH]; intros [|i] Hx U; simpl in *; try done.
  - injection Hx as <-. by rewrite (proj2 (is_block_holds bno y) Hh), Hv.
  - destruct (is_block ROOTDEV bno y) eqn:E; simpl.
    + apply is_block_holds in E. by specialize (U 0%nat y eq_refl E).
    + apply (IH i); [done|]. intros j z Hz Hhz. specialize (U (S j) z Hz Hhz). lia.
Qed.

Lemma bview_uncached cs d bno :
  (∀ j y, cs !! j = Some y → holds bno y → b_valid y = false) → bview cs d bno = disk_block d bno.
Proof.
  induction cs as [|y cs IH]; intros H; simpl; [done|].
  destruct (is_block ROOTDEV bno y) eqn:E; simpl.
  - apply is_block_holds in E. rewrite (H 0%nat y eq_refl E). apply IH. intros j. apply (H (S j)).
  - apply IH. intros j. apply (H (S j)).
Qed.

(** ** bget *)

(** The cell that bget() finds for block [bno]: the one that holds it, or an
    unused one when none does. *)
Definition found (cs : list buf) (bno : Z) (b : nat) (x : buf) : Prop :=
  cs !! b = Some x ∧
  (holds bno x ∨ (b_refcnt x = 0 ∧ ∀ j y, cs !! j = Some y → ¬ holds bno y)).

(** The cell after bget(): locked by [pid] and counted once more; [v] is
    whether its data are those of the block already. *)
Definition got (pid bno : Z) (v : bool) (x : buf) : buf :=
  Buf v ROOTDEV bno (SleepLock true pid) (b_refcnt x + 1) (b_prev x) (b_next x) (b_data x).

Lemma ring_ok_alter bufs b f :
  (∀ x, b_next (f x) = b_next x ∧ b_prev (f x) = b_prev x) → ring_ok bufs → ring_ok (alter f b bufs).
Proof. intros Hf [ord R]. exists ord. by apply ring_alter. Qed.

Lemma ring_head bufs ord :
  ring bufs ord → ∃ h, bufs !! head = Some h ∧
    b_next h = default head (List.hd_error ord) ∧ b_prev h = default head (List.hd_error (reverse ord)).
Proof.
  intros R. destruct (lookup_is_Some bufs head) as [h Hh].
  { rewrite (ring_len _ _ R). unfold head. lia. }
  exists h. split; [done|].
  pose proof (path_first _ _ _ _ (ring_next _ _ R)) as E1. unfold nxt in E1. rewrite Hh in E1.
  pose proof (path_first _ _ _ _ (ring_prev _ _ R)) as E2. unfold prv in E2. rewrite Hh in E2.
  injection E1 as E1. injection E2 as E2. done.
Qed.

Lemma ring_find bufs ord P b :
  ring bufs ord → find_buf P bufs ord = Some b → (b < NBUF)%nat ∧ ∃ x, bufs !! b = Some x ∧ P x = true.
Proof. intros R (Hb & x & Hx & HP)%find_buf_Some. rewrite (ring_elem _ _ _ R) in Hb. eauto. Qed.

Lemma ring_find_none bufs ord P :
  ring bufs ord → find_buf P bufs ord = None →
  (∀ x, P (strip x) = P x) → ∀ j y, cells bufs !! j = Some y → P y = false.
Proof.
  intros R H HP j y (Hj & x & Hx & ->)%cells_lookup_inv. rewrite HP.
  eapply find_buf_None; [done| |done]. by rewrite (ring_elem _ _ _ R).
Qed.

Lemma bget_scan s ord dev bno h :
  ring (k_bufs s) ord → b_next h = default head (List.hd_error ord) →
  bget_cached NBUF dev bno (b_next h) s = Ok (find_buf (is_block dev bno) (k_bufs s) ord) s.
Proof.
  intros R ->. pose proof (ring_nodup _ _ R) as [? ?]%NoDup_cons.
  eapply bget_cached_run; [exact (ring_next _ _ R)|done|].
  by rewrite (ring_perm _ _ R), length_seq.
Qed.

Lemma bget_lru s ord h :
  ring (k_bufs s) ord → b_prev h = default head (List.hd_error (reverse ord)) →
  bget_unused NBUF (b_prev h) s = Ok (find_buf is_unused (k_bufs s) (reverse ord)) s.
Proof.
  intros R ->. pose proof (ring_nodup _ _ R) as [? ?]%NoDup_cons.
  eapply bget_unused_run; [exact (ring_prev _ _ R)|by rewrite elem_of_reverse|].
  by rewrite length_reverse, (ring_perm _ _ R), length_seq.
Qed.

Lemma find_buf_reverse P bufs l :
  find_buf P bufs (reverse l) = None → find_buf P bufs l = None.
Proof.
  intros H. pose proof (find_buf_None _ _ _ H) as N.
  destruct (find_buf P bufs l) as [b|] eqn:E; [|done].
  apply find_buf_Some in E as (Hb & x & Hx & HP). rewrite (N b x) in HP; [done| |done].
  by rewrite elem_of_reverse.
Qed.

(** The end of both branches of bget(). *)
Lemma bget_lock s me b bufs x :
  ready s me → bufs !! b = Some x → sl_locked (b_lock x) = false →
  (release L_bcache;; bacquire b;; mret b) (set_kbufs bufs (set_held ({[L_bcache]} ∪ k_held s) s)) =
  Ok b (set_kbufs (alter (set_block (SleepLock true (p_pid me))) b bufs) s).
Proof.
  intros Rd Hx Hl. run_release.
  erewrite bind_ok; [|eapply (bacquire_run _ me); [exact Hx|done| |apply Rd]].
  - cbn. unfold mret, M_ret. f_equal. unfold set_kbufs, set_io, set_held. cbn.
    rewrite held_restore by (by rewrite (rd_held _ _ Rd)). done.
  - cbn. rewrite (rd_held _ _ Rd). set_solver.
Qed.

(** What bget() establishes: [v] says whether the data are already there. *)
Definition bget_post (s : kstate) (pid bno : Z) (b : nat) (x : buf) (v : bool) (bufs' : list buf) : Prop :=
  let cs := cells (k_bufs s) in
  ring_ok bufs' ∧ found cs bno b x ∧ cells bufs' = <[b := got pid bno v x]> cs ∧
  (v = true → holds bno x ∧ b_valid x = true) ∧
  (v = false → ∀ j y, cs !! j = Some y → holds bno y → b_valid y = false).

Lemma bget_hit s me ord bno b h :
  ring (k_bufs s) ord → cache_ok (cells (k_bufs s)) (io_disk (k_io s)) → ready s me →
  (∀ j x, cells (k_bufs s) !! j = Some x → holds bno x → sl_locked (b_lock x) = false) →
  k_bufs s !! head = Some h → b_next h = default head (List.hd_error ord) →
  find_buf (is_block ROOTDEV bno) (k_bufs s) ord = Some b →
  ∃ x v bufs', bget ROOTDEV bno s = Ok b (set_kbufs bufs' s) ∧ bget_post s (p_pid me) bno b x v bufs'.
Proof.
  intros R C Rd Hlk Hh Hnx E. set (s1 := set_held ({[L_bcache]} ∪ k_held s) s).
  unfold bget. rewrite (bind_ok _ _ _ _ _ (acquire_run L_bcache s ltac:(by rewrite (rd_held _ _ Rd)))).
  fold s1. run_buf (Hh : k_bufs s1 !! head = Some h).
  rewrite (bind_ok _ _ _ _ _ (bget_scan s1 ord ROOTDEV bno h R Hnx)).
  change (k_bufs s1) with (k_bufs s). rewrite E.
  apply (ring_find _ _ _ _ R) in E as (Hb & x & Hx & HP).
  assert (Hc : cells (k_bufs s) !! b = Some (strip x)) by (by rewrite cells_lookup, Hx).
  assert (Hho : holds bno (strip x)) by (by apply is_block_holds).
  run_buf (Hx : k_bufs s1 !! b = Some x). pose proof (lookup_lt_Some _ _ _ Hx) as Hbl.
  pose proof (co_ref _ _ C _ _ Hc) as Hr. simpl in Hr. rewrite u32_small by lia.
  rewrite (bind_ok _ _ _ _ _ (upd_buf_run b _ s1 Hbl)). change (k_bufs s1) with (k_bufs s).
  eexists (strip x), (b_valid x), _. split; [|split_and!].
  - apply (bget_lock s me b _ (set_refcnt (b_refcnt x + 1) x)); [done| |by apply (Hlk _ _ Hc)].
    by rewrite list_lookup_alter_eq, Hx.
  - do 2 (apply ring_ok_alter; [done|]). by exists ord.
  - by split; [|left].
  - rewrite !cells_alter by done. rewrite list_alter_alter_eq, (alter_insert _ _ _ _ Hc).
    f_equal. destruct Hho as [E1 E2]. unfold got. rewrite <- E1, <- E2. done.
  - by intros.
  - intros Hv j y Hy Hyh. assert (j = b) as -> by (by eapply (co_uniq _ _ C)).
    rewrite Hc in Hy. by injection Hy as <-.
Qed.

Lemma bget_miss s me ord bno b h :
  ring (k_bufs s) ord → cache_ok (cells (k_bufs s)) (io_disk (k_io s)) → ready s me →
  k_bufs s !! head = Some h → b_next h = default head (List.hd_error ord) →
  b_prev h = default head (List.hd_error (reverse ord)) →
  find_buf (is_block ROOTDEV bno) (k_bufs s) ord = None →
  find_buf is_unused (k_bufs s) (reverse ord) = Some b →
  ∃ x v bufs', bget ROOTDEV bno s = Ok b (set_kbufs bufs' s) ∧ bget_post s (p_pid me) bno b x v bufs'.
Proof.
  intros R C Rd Hh Hnx Hpv E E2. set (s1 := set_held ({[L_bcache]} ∪ k_held s) s).
  assert (Hno : ∀ j y, cells (k_bufs s) !! j = Some y → ¬ holds bno y).
  { intros j y Hy Hyh. apply is_block_holds in Hyh.
    pose proof (ring_find_none _ _ _ R E ltac:(done) j y Hy). congruence. }
  unfold bget. rewrite (bind_ok _ _ _ _ _ (acquire_run L_bcache s ltac:(by rewrite (rd_held _ _ Rd)))).
  fold s1. run_buf (Hh : k_bufs s1 !! head = Some h).
  rewrite (bind_ok _ _ _ _ _ (bget_scan s1 ord ROOTDEV bno h R Hnx)).
  change (k_bufs s1) with (k_bufs s). rewrite E.
  run_buf (Hh : k_bufs s1 !! head = Some h).
  rewrite (bind_ok _ _ _ _ _ (bget_lru s1 ord h R Hpv)). change (k_bufs s1) with (k_bufs s). rewrite E2.
  apply find_buf_Some in E2 as (Hb & x & Hx & HP).
  rewrite elem_of_reverse, (ring_elem _ _ _ R) in Hb. unfold is_unused in HP. apply Z.eqb_eq in HP.
  assert (Hc : cells (k_bufs s) !! b = Some (strip x)) by (by rewrite cells_lookup, Hx).
  pose proof (lookup_lt_Some _ _ _ Hx) as Hbl. change (k_bufs s) with (k_bufs s1) in Hbl.
  do 4 run_ubuf. change (k_bufs s1) with (k_bufs s).
  eexists (strip x), false, _. split; [|split_and!].
  - eapply (bget_lock s me b); [done| |].
    + by rewrite !list_lookup_alter_eq, Hx.
    + destruct (co_unused _ _ C _ _ Hc HP) as [El _]. simpl in El. simpl. by rewrite El.
  - do 5 (apply ring_ok_alter; [done|]). by exists ord.
  - split; [done|]. by right.
  - rewrite !cells_alter by done. rewrite !list_alter_alter_eq, (alter_insert _ _ _ _ Hc).
    f_equal. unfold got. simpl. by rewrite HP.
  - done.
  - intros _ j y Hy Hyh. by destruct (Hno _ _ Hy).
Qed.

(** The cache can deliver [bno]: nobody has it locked, and it is cached or some
    buffer is unused. *)
Definition available (cs : list buf) (bno : Z) : Prop :=
  (∀ j x, cs !! j = Some x → holds bno x → b_lock x = SleepLock false 0 ∧ b_refcnt x < 2147483647) ∧
  (∃ j x, cs !! j = Some x ∧ (holds bno x ∨ b_refcnt x = 0)).

Lemma bget_ok s me bno :
  ring_ok (k_bufs s) → cache_ok (cells (k_bufs s)) (io_disk (k_io s)) → ready s me →
  available (cells (k_bufs s)) bno →
  ∃ b x v bufs', bget ROOTDEV bno s = Ok b (set_kbufs bufs' s) ∧ bget_post s (p_pid me) bno b x v bufs'.
Proof.
  intros [ord R] C Rd [Hlk Hav]. destruct (ring_head _ _ R) as (h & Hh & Hnx & Hpv).
  destruct (find_buf (is_block ROOTDEV bno) (k_bufs s) ord) as [b|] eqn:E.
  { exists b. eapply bget_hit; eauto. intros j x Hx Hh'. by destruct (Hlk j x Hx Hh') as [-> _]. }
  destruct (find_buf is_unused (k_bufs s) (reverse ord)) as [b|] eqn:E2.
  { exists b. by eapply bget_miss. }
  exfalso. destruct Hav as (j & x & Hx & Hx'). apply find_buf_reverse in E2.
  pose proof (ring_find_none _ _ _ R E ltac:(done) j x Hx) as Hr1.
  pose proof (ring_find_none _ _ _ R E2 ltac:(done) j x Hx) as Hr2.
  destruct Hx' as [Hx'%is_block_holds|Hx']; [congruence|].
  unfold is_unused in Hr2. by apply Z.eqb_neq in Hr2.
Qed.

(** ** Keeping the cache invariant *)

Lemma cache_ok_insert cs d b x y :
  cache_ok cs d → cs !! b = Some x →
  (∀ bno, holds bno y → holds bno x ∨ ∀ j z, cs !! j = Some z → ¬ holds bno z) →
  0 ≤ b_refcnt y < 2147483648 →
  (b_refcnt y = 0 → b_lock y = SleepLock false 0 ∧
     (b_dev y = ROOTDEV → b_valid y = true → b_data y = disk_block d (b_blockno y))) →
  cache_ok (<[b := y]> cs) d.
Proof.
  intros C Hx Hh Hr H0.
  assert (Hl : ∀ i z, <[b := y]> cs !! i = Some z → (i = b ∧ z = y) ∨ (i ≠ b ∧ cs !! i = Some z)).
  { intros i z. destruct (decide (i = b)) as [->|].
    - rewrite list_lookup_insert_eq by (by apply lookup_lt_Some in Hx). intros [= <-]. auto.
    - rewrite list_lookup_insert_ne by done. auto. }
  destruct C as [Cl Cu Cr C0]. split.
  - by rewrite length_insert.
  - intros i j z w bno Hi Hj Hz Hw.
    destruct (Hl _ _ Hi) as [[-> ->]|[Hib Hi']], (Hl _ _ Hj) as [[-> ->]|[Hjb Hj']].
    + done.
    + destruct (Hh _ Hz) as [Hxh|Hxh]; [by eapply Cu|]. by destruct (Hxh _ _ Hj').
    + destruct (Hh _ Hw) as [Hxh|Hxh]; [by eapply Cu|]. by destruct (Hxh _ _ Hi').
    + by eapply Cu.
  - intros i z Hi. destruct (Hl _ _ Hi) as [[-> ->]|[_ Hi']]; [done|by eapply Cr].
  - intros i z Hi. destruct (Hl _ _ Hi) as [[-> ->]|[_ Hi']]; [done|by apply (C0 _ _ Hi')].
Qed.

Lemma disk_block_cons d bno data bno' :
  disk_block ((bno, data) :: d) bno' = if bno =? bno' then data else disk_block d bno'.
Proof. done. Qed.

Lemma cache_ok_write cs d b x data :
  cache_ok cs d → cs !! b = Some x → b_dev x = ROOTDEV → b_refcnt x ≠ 0 →
  cache_ok cs ((b_blockno x, data) :: d).
Proof.
  intros C Hx Hd Hr. destruct C as [Cl Cu Cr C0]. split; [done..|].
  intros i y Hy Hy0. destruct (C0 _ _ Hy Hy0) as [H1 H2]. split; [done|].
  intros Hdy Hv. rewrite disk_block_cons. destruct (Z.eqb_spec (b_blockno x) (b_blockno y)) as [E|]; [|auto].
  assert (i = b) as -> by (eapply (Cu _ _ _ _ (b_blockno y)); unfold holds; eauto). congruence.
Qed.

Lemma cached_or_not (cs : list buf) bno :
  (∃ j z, cs !! j = Some z ∧ holds bno z ∧ b_valid z = true) ∨
  (∀ j z, cs !! j = Some z → holds bno z → b_valid z = false).
Proof.
  induction cs as [|y cs [(j & z & Hz)|IH]].
  - by right.
  - left. by exists (S j), z.
  - destruct (is_block ROOTDEV bno y && b_valid y) eqn:E.
    + apply andb_true_iff in E as [E%is_block_holds Ev]. left. by exists 0%nat, y.
    + right. intros [|j] z; simpl; [|apply IH]. intros [= <-] Hh%is_block_holds. by rewrite Hh in E.
Qed.

(** The content of blocks after one cell has changed. *)
Lemma bview_insert cs d b x y bno :
  cache_ok cs d → cs !! b = Some x → cache_ok (<[b := y]> cs) d →
  bview (<[b := y]> cs) d bno =
  if is_block ROOTDEV bno y && b_valid y then b_data y
  else if is_block ROOTDEV bno x && b_valid x then disk_block d bno
  else bview cs d bno.
Proof.
  intros C Hx C'. pose proof (lookup_lt_Some _ _ _ Hx) as Hb.
  assert (Hy : <[b := y]> cs !! b = Some y) by (by apply list_lookup_insert_eq).
  assert (Hne : ∀ j z, j ≠ b → <[b := y]> cs !! j = Some z ↔ cs !! j = Some z)
    by (intros; by rewrite list_lookup_insert_ne).
  destruct (is_block ROOTDEV bno y && b_valid y) eqn:E.
  { apply andb_true_iff in E as [E%is_block_holds Ev]. by eapply bview_cached. }
  assert (Hny : holds bno y → b_valid y = false).
  { intros Hh%is_block_holds. rewrite Hh in E. done. }
  destruct (is_block ROOTDEV bno x && b_valid x) eqn:E'.
  - apply andb_true_iff in E' as [E'%is_block_holds Ev]. apply bview_uncached.
    intros j z Hz Hzh. destruct (decide (j = b)) as [->|Hj].
    + rewrite Hy in Hz. injection Hz as <-. auto.
    + apply Hne in Hz; [|done]. by destruct Hj; eapply (co_uniq _ _ C).
  - assert (Hnx : holds bno x → b_valid x = false).
    { intros Hh%is_block_holds. rewrite Hh in E'. done. }
    destruct (cached_or_not cs bno) as [(j & z & Hz & Hzh & Hv)|Hno].
    + assert (j ≠ b) as Hj. { intros ->. rewrite Hx in Hz. injection Hz as <-. rewrite Hnx in Hv; done. }
      rewrite (bview_cached cs d bno j z) by done.
      apply (bview_cached _ d bno j z); try done. by apply Hne.
    + rewrite !bview_uncached; [done|done|].
      intros j z Hz Hzh. destruct (decide (j = b)) as [->|Hj].
      * rewrite Hy in Hz. injection Hz as <-. auto.
      * apply Hne in Hz; [|done]. by eapply Hno.
Qed.

(** ** The operations *)

(** A cell that the thread with pid [pid] has locked. *)
Definition mine (pid bno r : Z) (data : list Z) : buf :=
  Buf true ROOTDEV bno (SleepLock true pid) r 0%nat 0%nat data.

Lemma may_sleep_run s : k_held s = ∅ → may_sleep s = Ok tt s.
Proof.
  intros H. unfold may_sleep, myproc. run. rewrite H.
  rewrite decide_False by set_solver. by rewrite decide_True.
Qed.

Lemma taken_ok cs d bno b x pid data :
  cache_ok cs d → found cs bno b x → b_refcnt x < 2147483647 →
  cache_ok (<[b := mine pid bno (b_refcnt x + 1) data]> cs) d.
Proof.
  intros C [Hx Hf] Hr. pose proof (co_ref _ _ C _ _ Hx).
  eapply cache_ok_insert; [done..| | |]; simpl; [|lia|lia].
  intros bno' [_ E]. simpl in E. subst bno'. destruct Hf as [?|[_ ?]]; auto.
Qed.

Lemma bread_ok s me bno :
  let cs := cells (k_bufs s) in
  let d := io_disk (k_io s) in
  ring_ok (k_bufs s) → cache_ok cs d → ready s me → available cs bno →
  ∃ b x bufs',
    bread ROOTDEV bno s = Ok b (set_kbufs bufs' s) ∧ ring_ok bufs' ∧ found cs bno b x ∧
    b_refcnt x < 2147483647 ∧
    cells bufs' = <[b := mine (p_pid me) bno (b_refcnt x + 1) (bview cs d bno)]> cs.
Proof.
  intros cs d R C Rd Av. destruct (bget_ok s me bno R C Rd Av) as (b & x & v & bufs' & E & P).
  destruct P as (R' & F & Hc & Ht & Hf). fold cs in F, Hc, Hf. pose proof F as [Hx Hx'].
  assert (Hr : b_refcnt x < 2147483647).
  { destruct Hx' as [Hh|[-> _]]; [by apply (proj1 Av _ _ Hx)|lia]. }
  assert (Hb : cells bufs' !! b = Some (got (p_pid me) bno v x)).
  { rewrite Hc. apply list_lookup_insert_eq. by apply lookup_lt_Some in Hx. }
  destruct (cells_lookup_inv _ _ _ Hb) as (Hbn & y & Hy & Ey).
  assert (Hv : b_valid y = v) by (by apply (f_equal b_valid) in Ey).
  assert (Hp : b_prev x = 0%nat ∧ b_next x = 0%nat).
  { destruct (cells_lookup_inv _ _ _ Hx) as (_ & z & _ & ->). done. }
  destruct Hp as [Hp1 Hp2].
  unfold bread. rewrite (bind_ok _ _ _ _ _ E).
  rewrite (bind_ok _ _ _ _ _ (buf_at_run b (set_kbufs bufs' s) y Hy)). rewrite Hv.
  destruct v; simpl.
  - destruct (Ht eq_refl) as [Hh Hv']. exists b, x, bufs'. split_and!; [done|done|done|done|].
    rewrite Hc. f_equal. unfold got, mine. rewrite Hp1, Hp2. f_equal.
    by rewrite (bview_cached _ _ _ _ _ C Hx Hh Hv').
  - unfold virtio_disk_rw. run.
    rewrite (bind_ok _ _ _ _ _ (may_sleep_run (set_kbufs bufs' s) (rd_held _ _ Rd))). run.
    rewrite (bind_ok _ _ _ _ _ (buf_at_run b (set_kbufs bufs' s) y Hy)). run.
    pose proof (lookup_lt_Some _ _ _ Hy) as Hbl. change bufs' with (k_bufs (set_kbufs bufs' s)) in Hbl.
    do 2 run_ubuf. exists b, x. eexists. split_and!; [done| |done|done|].
    + by do 2 (apply ring_ok_alter; [done|]).
    + rewrite !cells_alter, list_alter_alter_eq by done. rewrite (alter_insert _ _ _ _ Hb), Hc.
      rewrite list_insert_insert_eq. f_equal. unfold got, mine, set_bvalid, set_data. cbn.
      rewrite Hp1, Hp2. f_equal.
      assert (b_blockno y = bno) as -> by (by apply (f_equal b_blockno) in Ey).
      symmetry. apply bview_uncached, Hf. done.
Qed.

Lemma bwrite_ok s me b x :
  cells (k_bufs s) !! b = Some x → b_lock x = SleepLock true (p_pid me) → ready s me →
  bwrite b s = Ok tt (set_io (set_disk ((b_blockno x, b_data x) :: io_disk (k_io s)) (k_io s)) s).
Proof.
  intros (_ & y & Hy & ->)%cells_lookup_inv Hl Rd. simpl in *. unfold bwrite.
  assert (Hlk : L_buf b ∉ k_held s) by (rewrite (rd_held _ _ Rd); set_solver).
  rewrite (bind_ok _ _ _ _ _ (bholding_run s me b y Hy Hlk (rd_me _ _ Rd))).
  rewrite Hl. simpl. rewrite Z.eqb_refl. simpl. unfold virtio_disk_rw.
  rewrite (bind_ok _ _ _ _ _ (may_sleep_run s (rd_held _ _ Rd))).
  by rewrite (bind_ok _ _ _ _ _ (buf_at_run b s y Hy)).
Qed.

(** The neighbours of a buffer in the ring. *)
Lemma ring_links bufs l1 b l2 x :
  ring bufs (l1 ++ b :: l2) → bufs !! b = Some x →
  b_prev x = before head l1 ∧ b_next x = default head (List.hd_error l2).
Proof.
  intros R Hx. pose proof (ring_next _ _ R) as [_ Hn]%path_app. apply path_first in Hn.
  pose proof (ring_prev _ _ R) as Hp. rewrite reverse_app, reverse_cons, <- app_assoc in Hp.
  apply path_app in Hp as [_ Hp]. apply path_first in Hp.
  unfold nxt, prv in *. rewrite Hx in *. injection Hn as Hn. injection Hp as Hp.
  rewrite <- head_before. done.
Qed.

Lemma link_front_run s b h :
  (b < length (k_bufs s))%nat → k_bufs s !! head = Some h → b ≠ head → (b_next h < length (k_bufs s))%nat →
  link_front b s = Ok tt (set_kbufs (front b (b_next h) (k_bufs s)) s).
Proof.
  intros Hb Hh Hne Hq. unfold link_front. run_buf Hh. do 2 run_ubuf.
  assert (Hh' : k_bufs (set_kbufs (alter (set_prev head) b (alter (set_next (b_next h)) b (k_bufs s))) s)
    !! head = Some h) by (rewrite k_bufs_set, !list_lookup_alter_ne by done; done).
  pose proof (lookup_lt_Some _ _ _ Hh) as Hhl.
  run_buf Hh'. do 2 run_ubuf. done.
Qed.

Lemma cells_unlinked b p q bufs : cells (unlinked b p q bufs) = cells bufs.
Proof. unfold unlinked. by rewrite !cells_links. Qed.
Lemma cells_front b q bufs : cells (front b q bufs) = cells bufs.
Proof. unfold front. by rewrite !cells_links. Qed.

(** The surgery of brelse() on a buffer whose count dropped to zero. *)
Lemma to_front_run s ord b x :
  ring (k_bufs s) ord → (b < NBUF)%nat → k_bufs s !! b = Some x →
  ∃ bufs',
    (upd_buf (b_next x) (set_prev (b_prev x));;
     x ← buf_at b;
     upd_buf (b_prev x) (set_next (b_next x));;
     link_front b) s = Ok tt (set_kbufs bufs' s) ∧ ring_ok bufs' ∧ cells bufs' = cells (k_bufs s).
Proof.
  intros R Hb Hx. assert (He : b ∈ ord) by (by apply (ring_elem _ _ _ R)).
  apply list_elem_of_split in He as (l1 & l2 & ->).
  pose proof (ring_nodup _ _ R) as Hnd.
  destruct (ring_links _ _ _ _ _ R Hx) as [Ep Eq].
  assert (Hq : (b_next x < length (k_bufs s))%nat ∧ b_next x ≠ b).
  { rewrite Eq. pose proof (first_elem head l2) as He. split; [apply (ring_node _ _ _ R); set_solver|].
    intros E. rewrite E in He. rewrite NoDup_cons, NoDup_app, NoDup_cons in Hnd. set_solver. }
  assert (Hp : (b_prev x < length (k_bufs s))%nat).
  { rewrite Ep. apply (ring_node _ _ _ R). pose proof (before_elem head l1). set_solver. }
  run_ubuf. pose proof (proj2 Hq) as Hqb.
  assert (Hx1 : k_bufs (set_kbufs (alter (set_prev (b_prev x)) (b_next x) (k_bufs s)) s) !! b = Some x)
    by (by rewrite k_bufs_set, list_lookup_alter_ne).
  run_buf Hx1. run_ubuf. fold (unlinked b (b_prev x) (b_next x) (k_bufs s)).
  pose proof (unlinked_next _ _ _ _ R) as Hn. rewrite <- Ep, <- Eq in Hn. apply path_first in Hn.
  pose proof (length_unlinked b (b_prev x) (b_next x) (k_bufs s)) as Hlu.
  pose proof (ring_to_front _ _ _ _ R) as RF. cbv zeta in RF. rewrite <- Ep, <- Eq in RF.
  set (bufs1 := unlinked b (b_prev x) (b_next x) (k_bufs s)) in *.
  unfold nxt in Hn. destruct (bufs1 !! head) as [h|] eqn:Eh; [|done]. injection Hn as Hn.
  erewrite (link_front_run _ b h); rewrite ?k_bufs_set, ?set_kbufs_set; [| |done| |].
  - eexists. split_and!; [done| |].
    + rewrite Hn. by eexists.
    + unfold bufs1. by rewrite cells_front, cells_unlinked.
  - rewrite Hlu, (ring_len _ _ R). lia.
  - unfold head. lia.
  - rewrite Hn, Hlu. apply (ring_node _ _ _ R).
    pose proof (first_elem head (l1 ++ l2)) as H. set_solver.
Qed.

(** Dropping a reference: the second half of brelse(). *)
Lemma bput_run s b x :
  ring_ok (k_bufs s) → L_bcache ∉ k_held s → cells (k_bufs s) !! b = Some x →
  0 < b_refcnt x < 2147483648 →
  ∃ bufs',
    (acquire L_bcache;;
     x ← buf_at b;
     upd_buf b (set_refcnt (u32 (b_refcnt x - 1)));;
     x ← buf_at b;
     when (b_refcnt x =? 0)
       (upd_buf (b_next x) (set_prev (b_prev x));;
        x ← buf_at b;
        upd_buf (b_prev x) (set_next (b_next x));;
        link_front b);;
     release L_bcache) s = Ok tt (set_kbufs bufs' s) ∧
    ring_ok bufs' ∧ cells bufs' = <[b := set_refcnt (b_refcnt x - 1) x]> (cells (k_bufs s)).
Proof.
  intros R Hlk Hc Hr. destruct (cells_lookup_inv _ _ _ Hc) as (Hbn & y & Hy & ->). simpl in Hr.
  rewrite (bind_ok _ _ _ _ _ (acquire_run L_bcache s Hlk)).
  set (s2 := set_held _ s).
  rewrite (bind_ok _ _ _ _ _ (buf_at_run b s2 y Hy)). rewrite (u32_small (b_refcnt y - 1)) by lia.
  pose proof (lookup_lt_Some _ _ _ Hy) as Hbl.
  rewrite (bind_ok _ _ _ _ _ (upd_buf_run b (set_refcnt (b_refcnt y - 1)) s2 Hbl)).
  set (bufs2 := alter (set_refcnt (b_refcnt y - 1)) b (k_bufs s2)).
  set (y2 := set_refcnt (b_refcnt y - 1) y).
  assert (Hy2 : bufs2 !! b = Some y2).
  { unfold bufs2. change (k_bufs s2) with (k_bufs s). by rewrite list_lookup_alter_eq, Hy. }
  rewrite (bind_ok _ _ _ _ _ (buf_at_run b (set_kbufs bufs2 s2) y2 Hy2)).
  assert (R2 : ring_ok bufs2) by (by apply ring_ok_alter).
  assert (E2 : cells bufs2 = <[b := set_refcnt (b_refcnt (strip y) - 1) (strip y)]> (cells (k_bufs s))).
  { unfold bufs2. rewrite cells_alter by done. by rewrite (alter_insert _ _ _ _ Hc). }
  assert (Hend : ∀ B, release L_bcache (set_kbufs B s2) = Ok tt (set_kbufs B s)).
  { intros B. rewrite (release_run L_bcache) by (cbn; set_solver). do 2 f_equal.
    unfold s2, set_kbufs, set_procs, set_held, set_io. cbn. by rewrite held_restore. }
  unfold when. destruct (b_refcnt y2 =? 0).
  - destruct R2 as [ord R2].
    destruct (to_front_run (set_kbufs bufs2 s2) ord b y2 R2 Hbn Hy2) as (bufs3 & E3 & R3 & C3).
    rewrite set_kbufs_set in E3. rewrite (bind_ok _ _ _ _ _ E3), Hend.
    exists bufs3. split_and!; [done|done|]. by rewrite C3, <- E2.
  - unfold skip. run. rewrite Hend. exists bufs2. by split_and!.
Qed.

(** The processes waiting for buffer [b] are made runnable. *)
Abbreviation woken_by b s := (set_procs (wake (C_buf b) (k_cur s) (k_procs s)) s).

Lemma brelse_ok s me b x :
  let cs := cells (k_bufs s) in
  ring_ok (k_bufs s) → ready s me →
  cs !! b = Some x → b_lock x = SleepLock true (p_pid me) → 0 < b_refcnt x < 2147483648 →
  ∃ bufs',
    brelse b s = Ok tt (set_kbufs bufs' (woken_by b s)) ∧ ring_ok bufs' ∧
    cells bufs' = <[b := set_refcnt (b_refcnt x - 1) (set_block (SleepLock false 0) x)]> cs.
Proof.
  intros cs R Rd Hc Hl Hr.
  destruct (cells_lookup_inv _ _ _ Hc) as (Hbn & y & Hy & ->). simpl in Hl, Hr.
  assert (Hlk : ∀ l, l ∉ k_held s) by (intros; rewrite (rd_held _ _ Rd); set_solver).
  pose proof (lookup_lt_Some _ _ _ Hy) as Hbl.
  unfold brelse. rewrite (bind_ok _ _ _ _ _ (bholding_run s me b y Hy (Hlk _) (rd_me _ _ Rd))).
  rewrite Hl. cbn [sl_locked sl_pid]. rewrite Z.eqb_refl. cbn [andb negb].
  rewrite (bind_ok _ _ _ _ _ (brelease_run s b Hbl (Hlk _) (λ i _, Hlk _) (rd_procs _ _ Rd))).
  set (bufs1 := alter (set_block (SleepLock false 0)) b (k_bufs s)).
  assert (E1 : cells bufs1 = <[b := set_block (SleepLock false 0) (strip y)]> cs).
  { unfold bufs1. rewrite cells_alter by done. by rewrite (alter_insert _ _ _ _ Hc). }
  destruct (bput_run (set_kbufs bufs1 (woken_by b s)) b (set_block (SleepLock false 0) (strip y)))
    as (bufs' & E & R' & C'); [by apply ring_ok_alter|apply Hlk| |done|].
  - rewrite k_bufs_set, E1. apply list_lookup_insert_eq. by apply lookup_lt_Some in Hc.
  - exists bufs'. split_and!; [exact E|done|].
    by rewrite C', k_bufs_set, E1, list_insert_insert_eq.
Qed.

Lemma bpin_ok s b x :
  cells (k_bufs s) !! b = Some x → L_bcache ∉ k_held s → 0 ≤ b_refcnt x < 2147483647 →
  ring_ok (k_bufs s) →
  ∃ bufs', bpin b s = Ok tt (set_kbufs bufs' s) ∧ ring_ok bufs' ∧
    cells bufs' = <[b := set_refcnt (b_refcnt x + 1) x]> (cells (k_bufs s)).
Proof.
  intros Hc Hlk Hr R. destruct (cells_lookup_inv _ _ _ Hc) as (Hbn & y & Hy & ->). simpl in Hr.
  pose proof (lookup_lt_Some _ _ _ Hy) as Hbl. unfold bpin. run_acquire.
  rewrite (bind_ok _ _ _ _ _ (buf_at_run b (set_held _ s) y Hy)). rewrite u32_small by lia. run_ubuf.
  run_release. eexists. split_and!.
  - do 2 f_equal. unfold set_kbufs, set_held, set_io. cbn. by rewrite held_restore.
  - by apply ring_ok_alter.
  - rewrite cells_alter by done. by rewrite (alter_insert _ _ _ _ Hc).
Qed.

Lemma bunpin_ok s b x :
  cells (k_bufs s) !! b = Some x → L_bcache ∉ k_held s → 0 < b_refcnt x < 2147483648 →
  ring_ok (k_bufs s) →
  ∃ bufs', bunpin b s = Ok tt (set_kbufs bufs' s) ∧ ring_ok bufs' ∧
    cells bufs' = <[b := set_refcnt (b_refcnt x - 1) x]> (cells (k_bufs s)).
Proof.
  intros Hc Hlk Hr R. destruct (cells_lookup_inv _ _ _ Hc) as (Hbn & y & Hy & ->). simpl in Hr.
  pose proof (lookup_lt_Some _ _ _ Hy) as Hbl. unfold bunpin. run_acquire.
  rewrite (bind_ok _ _ _ _ _ (buf_at_run b (set_held _ s) y Hy)). rewrite u32_small by lia. run_ubuf.
  run_release. eexists. split_and!.
  - do 2 f_equal. unfold set_kbufs, set_held, set_io. cbn. by rewrite held_restore.
  - by apply ring_ok_alter.
  - rewrite cells_alter by done. by rewrite (alter_insert _ _ _ _ Hc).
Qed.
