(* ===== verification/BioOps.v ===== *)
(** The buffer cache as its clients use it: each operation as a step between
    abstract states, made of the log, the disk and the cells. *)

From S2P Require Import Prelude Riscv Kstate Sched Bio BioSpec Log.

(** ** Views and availability when cells change *)

(** A cell that nobody has locked. *)
Definition released (bno r : Z) (data : list Z) : buf :=
  Buf true ROOTDEV bno (SleepLock false 0) r 0%nat 0%nat data.

(** No buffer is locked, and one is unused. *)
Definition quiet_cache (cs : list buf) : Prop :=
  (∀ j x, cs !! j = Some x → b_lock x = SleepLock false 0 ∧ b_refcnt x < 2147483647) ∧
  (∃ j x, cs !! j = Some x ∧ b_refcnt x = 0).

(** No buffer is used at all. *)
Definition idle_cache (cs : list buf) : Prop :=
  ∀ j x, cs !! j = Some x → b_lock x = SleepLock false 0 ∧ b_refcnt x = 0.

Lemma quiet_available cs bno : quiet_cache cs → available cs bno.
Proof. intros [H1 (j & x & Hx & H0)]. split; [intros; eauto|eauto]. Qed.

Lemma bview_taken cs d bno b x pid w :
  cache_ok cs d → found cs bno b x → b_refcnt x < 2147483647 →
  bview (<[b := mine pid bno (b_refcnt x + 1) (bview cs d bno)]> cs) d w = bview cs d w.
Proof.
  intros C F Hr. pose proof F as [Hx Hf].
  rewrite (bview_insert _ _ _ x) by (done || by apply taken_ok).
  destruct (is_block ROOTDEV w (mine _ _ _ _)) eqn:E; simpl.
  { apply is_block_holds in E as [_ E]. simpl in E. by rewrite E. }
  destruct (is_block ROOTDEV w x && b_valid x) eqn:E'; [|done].
  apply andb_true_iff in E' as [E'%is_block_holds Ev].
  rewrite (bview_cached _ _ _ _ _ C Hx E' Ev). destruct E' as [E1 <-].
  destruct Hf as [[_ E2]|[H0 _]].
  - exfalso. unfold is_block in E. simpl in E. rewrite E2, Z.eqb_refl in E. done.
  - symmetry. by apply (co_unused _ _ C _ _ Hx).
Qed.

Lemma view_unused cs d bno b x :
  cache_ok cs d → found cs bno b x → b_refcnt x = 0 → bview cs d bno = disk_block d bno.
Proof.
  intros C [Hx Hf] H0. destruct Hf as [Hh|[_ Hno]].
  - destruct (b_valid x) eqn:Ev.
    + rewrite (bview_cached _ _ _ _ _ C Hx Hh Ev). destruct Hh as [E <-].
      by apply (co_unused _ _ C _ _ Hx).
    + apply bview_uncached. intros j y Hy Hyh.
      assert (j = b) as -> by (by eapply (co_uniq _ _ C)). congruence.
  - apply bview_uncached. intros j y Hy Hyh. by destruct (Hno _ _ Hy).
Qed.

Lemma bview_disk_ne cs d bno v w : w ≠ bno → bview cs ((bno, v) :: d) w = bview cs d w.
Proof.
  intros Hw. induction cs as [|x cs IH]; simpl; [|by rewrite IH].
  by destruct (Z.eqb_spec bno w).
Qed.

(** Reading a block and releasing it. *)
Lemma read_ok cs d bno b x :
  cache_ok cs d → found cs bno b x →
  cache_ok (<[b := released bno (b_refcnt x) (bview cs d bno)]> cs) d.
Proof.
  intros C F. pose proof F as [Hx Hf]. pose proof (co_ref _ _ C _ _ Hx).
  eapply cache_ok_insert; [done..| |done|]; simpl.
  - intros bno' [_ E]. simpl in E. subst bno'. destruct Hf as [?|[_ ?]]; auto.
  - intros H0. split; [done|]. intros _ _. by eapply view_unused.
Qed.

(** The blocks a cell change leaves alone. *)
Lemma bview_touch cs d bno b x r v w :
  cache_ok cs d → found cs bno b x → cache_ok (<[b := released bno r v]> cs) d → w ≠ bno →
  bview (<[b := released bno r v]> cs) d w = bview cs d w.
Proof.
  intros C F C' Hw. pose proof F as [Hx Hf]. rewrite (bview_insert _ _ _ x) by done.
  destruct (is_block ROOTDEV w (released bno r v)) eqn:E; simpl.
  { apply is_block_holds in E as [_ E]. by destruct Hw. }
  destruct (is_block ROOTDEV w x && b_valid x) eqn:E'; [|done].
  apply andb_true_iff in E' as [E'%is_block_holds Ev].
  rewrite (bview_cached _ _ _ _ _ C Hx E' Ev). destruct E' as [E1 <-].
  destruct Hf as [[_ E2]|[H0 _]]; [done|]. symmetry. by apply (co_unused _ _ C _ _ Hx).
Qed.

Lemma bview_same cs d bno b r v :
  cache_ok (<[b := released bno r v]> cs) d → (b < length cs)%nat →
  bview (<[b := released bno r v]> cs) d bno = v.
Proof.
  intros C Hb. rewrite (bview_cached _ _ bno b (released bno r v) C); [done| |done|done].
  by apply list_lookup_insert_eq.
Qed.

Lemma bview_read cs d bno b x w :
  cache_ok cs d → found cs bno b x →
  bview (<[b := released bno (b_refcnt x) (bview cs d bno)]> cs) d w = bview cs d w.
Proof.
  intros C F. pose proof (read_ok _ _ _ _ _ C F) as C'. destruct (decide (w = bno)) as [->|].
  - apply bview_same; [done|]. destruct F as [Hx _]. by apply lookup_lt_Some in Hx.
  - by eapply bview_touch.
Qed.

(** Writing a block through the cache and releasing it. *)
Lemma write_ok cs d bno b x r v :
  cache_ok cs d → found cs bno b x → b_refcnt x < 2147483647 → 0 ≤ r < 2147483648 →
  cache_ok (<[b := released bno r v]> cs) ((bno, v) :: d).
Proof.
  intros C F Hx Hr. pose proof F as [Hb _]. apply lookup_lt_Some in Hb.
  pose proof (taken_ok _ _ _ _ _ 0 v C F Hx) as C1.
  set (y := mine 0 bno (b_refcnt x + 1) v) in *. pose proof F as [Hx' _].
  pose proof (co_ref _ _ C _ _ Hx') as Hr'.
  assert (Hy : <[b := y]> cs !! b = Some y) by (by apply list_lookup_insert_eq).
  pose proof (cache_ok_write _ _ _ _ v C1 Hy eq_refl ltac:(simpl; lia)) as C2.
  simpl in C2. rewrite <- (list_insert_insert_eq cs b (released bno r v) y).
  eapply cache_ok_insert; [exact C2|exact Hy| |done|].
  - intros bno' [_ E]. simpl in E. subst bno'. by left.
  - intros _. split; [done|]. intros _ _. cbn. by rewrite Z.eqb_refl.
Qed.

Lemma bview_write cs d bno b x r v w :
  cache_ok cs d → found cs bno b x → b_refcnt x < 2147483647 → 0 ≤ r < 2147483648 →
  bview (<[b := released bno r v]> cs) ((bno, v) :: d) w = if decide (w = bno) then v else bview cs d w.
Proof.
  intros C F Hx Hr. pose proof (write_ok _ _ _ _ _ r v C F Hx Hr) as C'.
  pose proof F as [Hb _]. apply lookup_lt_Some in Hb.
  case_decide as E; [subst; by apply bview_same|].
  rewrite bview_disk_ne by done.
  assert (C1 : cache_ok (<[b := released bno (b_refcnt x + 1) v]> cs) d).
  { pose proof F as [Hx' Hf]. pose proof (co_ref _ _ C _ _ Hx').
    eapply cache_ok_insert; [done..| | |]; simpl; [|lia|lia].
    intros bno' [_ E']. simpl in E'. subst bno'. destruct Hf as [?|[_ ?]]; auto. }
  rewrite <- (bview_touch cs d bno b x (b_refcnt x + 1) v w) by done.
  clear. revert b. induction cs as [|y cs IH]; intros [|b]; simpl; try done. by rewrite IH.
Qed.

(** A cached block with reference count at least one. *)
Definition pinned (cs : list buf) (bno : Z) (v : list Z) : Prop :=
  ∃ j r, cs !! j = Some (released bno r v) ∧ 1 ≤ r < 2147483647.

Lemma pinned_found cs d bno v b x :
  cache_ok cs d → pinned cs bno v → found cs bno b x → ∃ r, x = released bno r v ∧ 1 ≤ r < 2147483647.
Proof.
  intros C (j & r & Hj & Hr) [Hx [Hh|[_ Hno]]].
  - assert (j = b) as -> by (eapply (co_uniq _ _ C); eauto; done).
    rewrite Hx in Hj. injection Hj as ->. eauto.
  - by destruct (Hno _ _ Hj).
Qed.

Lemma pinned_touch cs bno b x y w v :
  pinned cs w v → found cs bno b x → w ≠ bno → pinned (<[b := y]> cs) w v.
Proof.
  intros (j & r & Hj & Hr) [Hx Hf] Hw. exists j, r. split; [|done].
  rewrite list_lookup_insert_ne; [done|]. intros ->. rewrite Hx in Hj. injection Hj as ->.
  destruct Hf as [[_ E]|[E _]]; simpl in *; [done|lia].
Qed.

Lemma pinned_view cs d bno v : cache_ok cs d → pinned cs bno v → bview cs d bno = v.
Proof. intros C (j & r & Hj & _). by rewrite (bview_cached _ _ _ _ _ C Hj). Qed.

Lemma quiet_touch cs b x y :
  quiet_cache cs → cs !! b = Some x → b_lock y = SleepLock false 0 → b_refcnt y < 2147483647 →
  (b_refcnt x = 0 → b_refcnt y = 0) → quiet_cache (<[b := y]> cs).
Proof.
  intros [H1 (j & z & Hz & H0)] Hx Hl Hr Hxy. pose proof (lookup_lt_Some _ _ _ Hx) as Hb. split.
  - intros i w. destruct (decide (i = b)) as [->|]; [|rewrite list_lookup_insert_ne by done; apply H1].
    rewrite list_lookup_insert_eq by done. by intros [= <-].
  - destruct (decide (j = b)) as [->|].
    + exists b, y. rewrite list_lookup_insert_eq by done. split; [done|]. apply Hxy. congruence.
    + exists j, z. by rewrite list_lookup_insert_ne.
Qed.

Lemma idle_quiet cs : idle_cache cs → (0 < length cs)%nat → quiet_cache cs.
Proof.
  intros H Hl. split.
  - intros j x Hx. destruct (H _ _ Hx) as [-> ->]. split; [done|lia].
  - destruct (lookup_is_Some cs 0 Hl) as [x Hx]. exists 0%nat, x. split; [done|]. by apply (H _ _ Hx).
Qed.

Lemma idle_touch cs b y :
  idle_cache cs → b_lock y = SleepLock false 0 → b_refcnt y = 0 → idle_cache (<[b := y]> cs).
Proof.
  intros H Hl Hr j x. destruct (decide (j = b ∧ (b < length cs)%nat)) as [[-> ?]|Hn].
  - rewrite list_lookup_insert_eq by done. by intros [= <-].
  - destruct (decide (j = b)) as [->|]; [|rewrite list_lookup_insert_ne by done; apply H].
    intros Hx%lookup_lt_Some. rewrite length_insert in Hx. tauto.
Qed.

(** ** Steps *)

(** [io_at me s0 lg d cs s]: [s] is [s0] with log [lg], disk [d], cache cells
    [cs], and possibly some sleeping processes woken up; the current process
    [me] holds no spinlock. *)
Record io_at (me : proc) (s0 : kstate) (lg : log) (d : list (Z * list Z)) (cs : list buf) (s : kstate)
    : Prop := {
  ia_ring : ring_ok (k_bufs s);
  ia_cells : cells (k_bufs s) = cs;
  ia_ready : ready s me;
  ia_frame : ∃ bufs ps, s = set_procs ps (set_io (IO bufs d lg (io_sb (k_io s0))) s0);
}.

Lemma io_at_refl me s : ring_ok (k_bufs s) → ready s me →
  io_at me s (io_log (k_io s)) (io_disk (k_io s)) (cells (k_bufs s)) s.
Proof.
  intros R Rd. split; [done..|]. exists (k_bufs s), (k_procs s). by destruct s as [? ? ? []].
Qed.

Section steps.
Context {me : proc} {s0 : kstate} {lg : log} {d : list (Z * list Z)} {cs : list buf} {s : kstate}.
Hypothesis A : io_at me s0 lg d cs s.

Lemma ia_disk : io_disk (k_io s) = d.
Proof. destruct (ia_frame _ _ _ _ _ _ A) as (? & ? & ->). done. Qed.
Lemma ia_log : io_log (k_io s) = lg.
Proof. destruct (ia_frame _ _ _ _ _ _ A) as (? & ? & ->). done. Qed.

Lemma step_bufs bufs' : ring_ok bufs' → io_at me s0 lg d (cells bufs') (set_kbufs bufs' s).
Proof.
  intros R. destruct A as [_ _ Rd (bufs & ps & ->)]. split; [done|done| |].
  - destruct Rd. by split.
  - by exists bufs', ps.
Qed.

Lemma step_bread bno :
  cache_ok cs d → available cs bno →
  ∃ b x s', bread ROOTDEV bno s = Ok b s' ∧ found cs bno b x ∧ b_refcnt x < 2147483647 ∧
    io_at me s0 lg d (<[b := mine (p_pid me) bno (b_refcnt x + 1) (bview cs d bno)]> cs) s'.
Proof.
  intros C Av. pose proof (ia_cells _ _ _ _ _ _ A) as Ec. pose proof ia_disk as Ed.
  destruct (bread_ok s me bno) as (b & x & bufs' & E & R & F & Hr & Ec').
  { apply A. } { by rewrite Ec, Ed. } { apply A. } { by rewrite Ec. }
  rewrite Ec, Ed in *. exists b, x, (set_kbufs bufs' s). split_and!; [done..|].
  rewrite <- Ec'. by apply step_bufs.
Qed.

Lemma step_bwrite b x :
  cs !! b = Some x → b_lock x = SleepLock true (p_pid me) →
  ∃ s', bwrite b s = Ok tt s' ∧ io_at me s0 lg ((b_blockno x, b_data x) :: d) cs s'.
Proof.
  intros Hx Hl. pose proof (ia_cells _ _ _ _ _ _ A) as Ec. pose proof ia_disk as Ed.
  eexists. split; [apply (bwrite_ok s me b x); [by rewrite Ec|done|apply A]|].
  rewrite Ed. destruct A as [R _ Rd (bufs & ps & ->)]. split; [done|done| |].
  - destruct Rd. by split.
  - by exists bufs, ps.
Qed.

Lemma step_brelse b x :
  cs !! b = Some x → b_lock x = SleepLock true (p_pid me) → 0 < b_refcnt x < 2147483648 →
  ∃ s', brelse b s = Ok tt s' ∧
    io_at me s0 lg d (<[b := set_refcnt (b_refcnt x - 1) (set_block (SleepLock false 0) x)]> cs) s'.
Proof.
  intros Hx Hl Hr. pose proof (ia_cells _ _ _ _ _ _ A) as Ec.
  destruct (brelse_ok s me b x) as (bufs' & E & R & Ec').
  { apply A. } { apply A. } { by rewrite Ec. } { done. } { done. }
  rewrite Ec in *. eexists. split; [done|].
  destruct A as [_ _ Rd (bufs & ps & ->)]. split; [done|done| |].
  - destruct Rd as [R1 R2 R3]. split; [done| |].
    + etransitivity; [apply length_wake|exact R2].
    + etransitivity; [apply wake_cur|exact R3].
  - exists bufs'. eexists. reflexivity.
Qed.

Lemma step_bunpin b x :
  cs !! b = Some x → 0 < b_refcnt x < 2147483648 →
  ∃ s', bunpin b s = Ok tt s' ∧ io_at me s0 lg d (<[b := set_refcnt (b_refcnt x - 1) x]> cs) s'.
Proof.
  intros Hx Hr. pose proof (ia_cells _ _ _ _ _ _ A) as Ec.
  destruct (bunpin_ok s b x) as (bufs' & E & R & Ec').
  { by rewrite Ec. } { rewrite (rd_held _ _ (ia_ready _ _ _ _ _ _ A)). set_solver. } { done. } { apply A. }
  rewrite Ec in *. eexists. split; [done|]. rewrite <- Ec'. by apply step_bufs.
Qed.

(** An assignment to a field of a buffer other than its links. *)
Lemma step_upd b x f :
  cs !! b = Some x → (∀ y, strip (f y) = f (strip y)) →
  (∀ y, b_next (f y) = b_next y ∧ b_prev (f y) = b_prev y) →
  ∃ s', upd_buf b f s = Ok tt s' ∧ io_at me s0 lg d (<[b := f x]> cs) s'.
Proof.
  intros Hx Hf Hk. pose proof (ia_cells _ _ _ _ _ _ A) as Ec.
  assert (Hb : (b < length (k_bufs s))%nat).
  { rewrite <- Ec in Hx. destruct (cells_lookup_inv _ _ _ Hx) as (_ & y & Hy & _).
    by apply lookup_lt_Some in Hy. }
  eexists. split; [by apply upd_buf_run|].
  rewrite <- (alter_insert f _ _ _ Hx), <- Ec, <- cells_alter by done.
  apply step_bufs. apply ring_ok_alter; [done|apply A].
Qed.

Lemma step_read b x : cs !! b = Some x → ∃ y, buf_at b s = Ok y s ∧ x = strip y.
Proof.
  intros Hx. rewrite <- (ia_cells _ _ _ _ _ _ A) in Hx.
  destruct (cells_lookup_inv _ _ _ Hx) as (_ & y & Hy & ->). exists y. split; [|done].
  by apply buf_at_run.
Qed.

Lemma step_copy dst src x y :
  cs !! dst = Some x → cs !! src = Some y →
  ∃ s', copy_block dst src s = Ok tt s' ∧ io_at me s0 lg d (<[dst := set_data (b_data y) x]> cs) s'.
Proof.
  intros Hx Hy. destruct (step_read src y Hy) as (y' & Ey & ->).
  destruct (step_upd dst x (set_data (b_data y')) Hx) as (s' & E & A'); [done..|].
  exists s'. split; [|done]. unfold copy_block. by rewrite (bind_ok _ _ _ _ _ Ey).
Qed.

Lemma step_log f : ∃ s', upd_log f s = Ok tt s' ∧ io_at me s0 (f lg) d cs s'.
Proof.
  pose proof ia_log as El. eexists. split; [reflexivity|].
  destruct A as [R Ec Rd (bufs & ps & ->)]. split; [done|done| |].
  - destruct Rd. by split.
  - by exists bufs, ps.
Qed.

Lemma step_get_log : get_log s = Ok lg s.
Proof. unfold get_log, gets. by rewrite ia_log. Qed.

Lemma step_lh_block i v : lg_block lg !! i = Some v → lh_block i s = Ok v s.
Proof. intros H. unfold lh_block. by rewrite (bind_ok _ _ _ _ _ step_get_log), H. Qed.
End steps.
