(* ===== verification/LogSpec.v ===== *)
(** The redo log: what write_log(), write_head(), install_trans(), commit() and
    recovery do to the disk. *)

From S2P Require Import Prelude Riscv Kstate Sched Bytes Bio BioSpec BioOps Log.

(** ** Copying one block through the cache *)

(** The log is set up: it starts at block [lg_start] of the root device. *)
Record log_geo (lg : log) : Prop := {
  lg_root : lg_dev lg = ROOTDEV;
  lg_len : length (lg_block lg) = Z.to_nat LOGSIZE;
  lg_range : 0 < lg_start lg < 2147483600;
}.

(** The home of block [k] in the log. *)
Definition slot (lg : log) (k : nat) : Z := lg_start lg + Z.of_nat k + 1.

Lemma slot_range lg k : log_geo lg → (k < 32)%nat → 0 ≤ slot lg k < 4294967296.
Proof. intros G Hk. pose proof (lg_range _ G). unfold slot. lia. Qed.

Definition write_log_body (tail : nat) : K unit :=
  l ← get_log;
  to ← bread (u32 (lg_dev l)) (u32 (lg_start l + Z.of_nat tail + 1));
  bno ← lh_block tail;
  from ← bread (u32 (lg_dev l)) (u32 bno);
  copy_block to from;;
  bwrite to;;
  brelse from;;
  brelse to.

Definition install_body (recovering : bool) (tail : nat) : K unit :=
  l ← get_log;
  lbuf ← bread (u32 (lg_dev l)) (u32 (lg_start l + Z.of_nat tail + 1));
  bno ← lh_block tail;
  dbuf ← bread (u32 (lg_dev l)) (u32 bno);
  copy_block dbuf lbuf;;
  bwrite dbuf;;
  when (negb recovering) (bunpin dbuf);;
  brelse lbuf;;
  brelse dbuf.

Lemma pinned_available cs d bno v : cache_ok cs d → pinned cs bno v → available cs bno.
Proof.
  intros C (j & r & Hj & Hr). split.
  - intros i x Hx Hh. assert (i = j) as -> by (by eapply (co_uniq _ _ C)).
    rewrite Hj in Hx. injection Hx as <-. simpl. split; [done|lia].
  - exists j, (released bno r v). split; [done|]. by left.
Qed.

Lemma pinned_available_touch cs d a bno v ba xa y :
  cache_ok cs d → pinned cs bno v → found cs a ba xa → bno ≠ a → ¬ holds bno y →
  available (<[ba := y]> cs) bno.
Proof.
  intros C P Fa Hne Hyn. pose proof (pinned_touch _ _ _ _ y _ _ P Fa Hne) as (j & r & Hj & Hr).
  split; [|exists j; eexists; split; [done|]; by left].
  intros i x Hx Hh. destruct P as (j' & r' & Hj' & Hr').
  destruct (decide (i = ba)) as [->|Hi].
  - pose proof (lookup_lt_Some _ _ _ Hx) as Hl. rewrite length_insert in Hl.
    rewrite list_lookup_insert_eq in Hx by done. injection Hx as ->. done.
  - rewrite list_lookup_insert_ne in Hx by done.
    assert (i = j') as -> by (by eapply (co_uniq _ _ C)). rewrite Hj' in Hx. injection Hx as <-.
    simpl. split; [done|lia].
Qed.

(** Two different blocks, read one after the other. *)
Lemma step_bread2 me s0 lg d cs s a b :
  io_at me s0 lg d cs s → cache_ok cs d → a ≠ b → available cs a →
  (∀ ba xa y, found cs a ba xa → b_refcnt y ≠ 0 → ¬ holds b y → available (<[ba := y]> cs) b) →
  ∃ ba xa bb xb s1 s2,
    bread ROOTDEV a s = Ok ba s1 ∧ bread ROOTDEV b s1 = Ok bb s2 ∧ get_log s1 = Ok lg s1 ∧
    (∀ k v, lg_block lg !! k = Some v → lh_block k s1 = Ok v s1) ∧
    found cs a ba xa ∧ b_refcnt xa < 2147483647 ∧
    cs !! bb = Some xb ∧ ba ≠ bb ∧ b_refcnt xb < 2147483647 ∧
    found (<[ba := released a (b_refcnt xa) (bview cs d a)]> cs) b bb xb ∧
    io_at me s0 lg d (<[bb := mine (p_pid me) b (b_refcnt xb + 1) (bview cs d b)]>
      (<[ba := mine (p_pid me) a (b_refcnt xa + 1) (bview cs d a)]> cs)) s2.
Proof.
  intros A C Hab Av Av2.
  destruct (step_bread A a C Av) as (ba & xa & s1 & E1 & Fa & Ha & A1).
  set (ya := mine (p_pid me) a (b_refcnt xa + 1) (bview cs d a)) in *.
  pose proof Fa as [Hxa Hfa]. pose proof (co_ref _ _ C _ _ Hxa) as Hra.
  pose proof (lookup_lt_Some _ _ _ Hxa) as Hla.
  assert (C1 : cache_ok (<[ba := ya]> cs) d) by (by apply taken_ok).
  assert (Hya : ¬ holds b ya) by (intros [_ E]; simpl in E; congruence).
  destruct (step_bread A1 b C1) as (bb & xb & s2 & E2 & Fb & Hb & A2).
  { apply (Av2 _ xa); [done|simpl; lia|done]. }
  unfold ya in A2. rewrite bview_taken in A2 by done. fold ya in A2.
  pose proof Fb as [Hxb Hfb].
  assert (Hne : ba ≠ bb).
  { intros <-. rewrite list_lookup_insert_eq in Hxb by done. injection Hxb as <-.
    destruct Hfb as [?|[E _]]; [done|]. simpl in E. lia. }
  rewrite list_lookup_insert_ne in Hxb by done.
  exists ba, xa, bb, xb, s1, s2. split_and!; try done.
  - exact (step_get_log A1).
  - intros k v. exact (step_lh_block A1 k v).
  - split; [by rewrite list_lookup_insert_ne|]. destruct Hfb as [?|[E Hno]]; [by left|right].
    split; [done|]. intros j y Hy Hyh. destruct (decide (j = ba)) as [->|].
    + rewrite list_lookup_insert_eq in Hy by done. injection Hy as <-. by destruct Hyh.
    + apply (Hno j y); [|done]. by rewrite list_lookup_insert_ne in *.
Qed.

(** [cells_ext]: equality of cell lists built by insertions, index by index. *)
Ltac cells_at :=
  repeat first
    [ rewrite list_lookup_insert_eq by (rewrite ?length_insert; (lia || by eapply lookup_lt_Some))
    | rewrite list_lookup_insert_ne by congruence ].
Ltac cells_ext ba bb :=
  let i := fresh "i" in
  apply list_eq; intros i; destruct (decide (i = ba)) as [->|?]; [|destruct (decide (i = bb)) as [->|?]];
  cells_at; try done.

Lemma io_at_cells me s0 lg d cs cs' s : cs = cs' → io_at me s0 lg d cs s → io_at me s0 lg d cs' s.
Proof. by intros ->. Qed.

Lemma write_log_step me s0 lg d cs s k bno v :
  io_at me s0 lg d cs s → cache_ok cs d → quiet_cache cs → log_geo lg → (k < 32)%nat →
  lg_block lg !! k = Some bno → 0 ≤ bno < 4294967296 → bno ≠ slot lg k → pinned cs bno v →
  ∃ ba xa s',
    write_log_body k s = Ok tt s' ∧ found cs (slot lg k) ba xa ∧ b_refcnt xa < 2147483647 ∧
    io_at me s0 lg ((slot lg k, v) :: d) (<[ba := released (slot lg k) (b_refcnt xa) v]> cs) s'.
Proof.
  intros A C Q G Hk Hb Hbr Hne P. set (dst := slot lg k) in *.
  destruct (step_bread2 me s0 lg d cs s dst bno A C ltac:(congruence) (quiet_available _ _ Q))
    as (ba & xa & bb & xb & s1 & s2 & E1 & E2 & El & Eb & Fa & Ha & Hxb & Hab & Hrb & Fb & A2).
  { intros ba xa y Fa _ Hyn. eapply pinned_available_touch; eauto. }
  pose proof (pinned_view _ _ _ _ C P) as Hv. rewrite Hv in A2.
  assert (Hbb : ∃ r, xb = released bno r v ∧ 1 ≤ r < 2147483647).
  { eapply pinned_found; [by apply read_ok|eapply pinned_touch; [exact P|exact Fa|done]|exact Fb]. }
  destruct Hbb as (r & -> & Hr). simpl in A2.
  pose proof Fa as [Hxa _]. pose proof (lookup_lt_Some _ _ _ Hxa). pose proof (lookup_lt_Some _ _ _ Hxb).
  pose proof (co_ref _ _ C _ _ Hxa) as Hra.
  destruct (step_copy A2 ba bb (mine (p_pid me) dst (b_refcnt xa + 1) (bview cs d dst))
    (mine (p_pid me) bno (r + 1) v)) as (s3 & E3 & A3); [by cells_at..|]. simpl in A3.
  destruct (step_bwrite A3 ba (mine (p_pid me) dst (b_refcnt xa + 1) v)) as (s4 & E4 & A4);
    [by cells_at|done|]. simpl in A4.
  destruct (step_brelse A4 bb (mine (p_pid me) bno (r + 1) v)) as (s5 & E5 & A5);
    [by cells_at|done|simpl; lia|].
  destruct (step_brelse A5 ba (mine (p_pid me) dst (b_refcnt xa + 1) v)) as (s6 & E6 & A6);
    [by cells_at|done|simpl; lia|].
  exists ba, xa, s6. split; [|split; [done|split; [done|]]].
  - unfold write_log_body. rewrite (bind_ok _ _ _ _ _ (step_get_log A)).
    rewrite (lg_root _ G). change (u32 ROOTDEV) with ROOTDEV.
    fold (slot lg k). rewrite (u32_small (slot lg k)) by (by apply slot_range). fold dst.
    rewrite (bind_ok _ _ _ _ _ E1), (bind_ok _ _ _ _ _ (Eb _ _ Hb)), (u32_small bno) by done.
    by rewrite (bind_ok _ _ _ _ _ E2), (bind_ok _ _ _ _ _ E3), (bind_ok _ _ _ _ _ E4),
      (bind_ok _ _ _ _ _ E5).
  - eapply io_at_cells, A6. simpl. cells_ext ba bb.
    + unfold set_refcnt, set_block, released. simpl. do 2 f_equal. lia.
    + rewrite Hxb. unfold set_refcnt, set_block, released. simpl. do 2 f_equal. lia.
Qed.

(** One iteration of install_trans(): the log block [slot lg k] is copied to its
    home [bno].  [u] is 1 when the home block is unpinned, 0 in recovery. *)
Lemma install_step me s0 lg d cs s (recovering : bool) k bno :
  let u := if recovering then 0 else 1 in
  let v := bview cs d (slot lg k) in
  io_at me s0 lg d cs s → cache_ok cs d → quiet_cache cs → log_geo lg → (k < 32)%nat →
  lg_block lg !! k = Some bno → 0 ≤ bno < 4294967296 → bno ≠ slot lg k →
  (∀ ba xa y, found cs (slot lg k) ba xa → b_refcnt y ≠ 0 → ¬ holds bno y → available (<[ba := y]> cs) bno) →
  (∀ ba xa bb xb, found cs (slot lg k) ba xa →
     found (<[ba := released (slot lg k) (b_refcnt xa) v]> cs) bno bb xb → u ≤ b_refcnt xb) →
  ∃ ba xa bb xb s',
    install_body recovering k s = Ok tt s' ∧ found cs (slot lg k) ba xa ∧ b_refcnt xa < 2147483647 ∧
    found (<[ba := released (slot lg k) (b_refcnt xa) v]> cs) bno bb xb ∧ b_refcnt xb < 2147483647 ∧
    io_at me s0 lg ((bno, v) :: d)
      (<[bb := released bno (b_refcnt xb - u) v]> (<[ba := released (slot lg k) (b_refcnt xa) v]> cs)) s'.
Proof.
  intros u v A C Q G Hk Hb Hbr Hne Av Hu. set (L := slot lg k) in *.
  destruct (step_bread2 me s0 lg d cs s L bno A C ltac:(congruence) (quiet_available _ _ Q) Av)
    as (ba & xa & bb & xb & s1 & s2 & E1 & E2 & El & Eb & Fa & Ha & Hxb & Hab & Hrb & Fb & A2).
  specialize (Hu _ _ _ _ Fa Fb). fold v in A2, Fb.
  pose proof Fa as [Hxa _]. pose proof (lookup_lt_Some _ _ _ Hxa). pose proof (lookup_lt_Some _ _ _ Hxb).
  pose proof (co_ref _ _ C _ _ Hxa) as Hra. pose proof (co_ref _ _ C _ _ Hxb) as Hrb'.
  destruct (step_copy A2 bb ba (mine (p_pid me) bno (b_refcnt xb + 1) (bview cs d bno))
    (mine (p_pid me) L (b_refcnt xa + 1) v)) as (s3 & E3 & A3); [by cells_at..|]. simpl in A3.
  destruct (step_bwrite A3 bb (mine (p_pid me) bno (b_refcnt xb + 1) v)) as (s4 & E4 & A4);
    [by cells_at|done|]. simpl in A4.
  assert (HU : ∃ s4' cs4, when (negb recovering) (bunpin bb) s4 = Ok tt s4' ∧
     cs4 = <[bb := mine (p_pid me) bno (b_refcnt xb + 1 - u) v]> (<[ba := mine (p_pid me) L (b_refcnt xa + 1) v]> cs) ∧
     io_at me s0 lg ((bno, v) :: d) cs4 s4').
  { destruct recovering; simpl.
    - eexists s4, _. split; [done|]. split; [reflexivity|]. eapply io_at_cells, A4.
      cells_ext ba bb. unfold mine, set_data. simpl. do 2 f_equal. lia.
    - destruct (step_bunpin A4 bb (mine (p_pid me) bno (b_refcnt xb + 1) v)) as (s4' & E4' & A4');
        [by cells_at|simpl; lia|].
      eexists s4', _. split; [done|]. split; [reflexivity|]. eapply io_at_cells, A4'. cells_ext ba bb. }
  destruct HU as (s4' & cs4 & E4' & -> & A4'). clear A4 A3 A2.
  assert (Hu1 : 0 ≤ u ≤ 1) by (unfold u; destruct recovering; lia).
  destruct (step_brelse A4' ba (mine (p_pid me) L (b_refcnt xa + 1) v)) as (s5 & E5 & A5);
    [by cells_at|done|simpl; lia|].
  destruct (step_brelse A5 bb (mine (p_pid me) bno (b_refcnt xb + 1 - u) v)) as (s6 & E6 & A6);
    [by cells_at|done|simpl; lia|].
  exists ba, xa, bb, xb, s6. split_and!; [|done..|].
  - unfold install_body. rewrite (bind_ok _ _ _ _ _ (step_get_log A)).
    rewrite (lg_root _ G). change (u32 ROOTDEV) with ROOTDEV.
    fold (slot lg k). rewrite (u32_small (slot lg k)) by (by apply slot_range). fold L.
    rewrite (bind_ok _ _ _ _ _ E1), (bind_ok _ _ _ _ _ (Eb _ _ Hb)), (u32_small bno) by done.
    by rewrite (bind_ok _ _ _ _ _ E2), (bind_ok _ _ _ _ _ E3), (bind_ok _ _ _ _ _ E4),
      (bind_ok _ _ _ _ _ E4'), (bind_ok _ _ _ _ _ E5).
  - eapply io_at_cells, A6. simpl. cells_ext ba bb.
    + unfold set_refcnt, set_block, released. simpl. do 2 f_equal. lia.
    + unfold set_refcnt, set_block, released. simpl. do 2 f_equal. lia.
Qed.

(** ** The loops *)

(** The first [k] of a sequence of block writes, latest first. *)
Fixpoint writes (f : nat → Z) (vs : list (list Z)) (k : nat) : list (Z * list Z) :=
  match k with
  | O => []
  | S k => (f k, vs !!! k) :: writes f vs k
  end.

(** A transaction ready to commit: [bs] are the logged blocks, [vs] their
    contents, all pinned in the cache and none of them in the log itself; the
    log has one block for the header and LOGSIZE - 1 for the contents. *)
Record tx_ok (lg : log) (cs : list buf) (bs : list Z) (vs : list (list Z)) : Prop := {
  tx_geo : log_geo lg;
  tx_n : lg_n lg = Z.of_nat (length bs);
  tx_bs : bs = take (length bs) (lg_block lg);
  tx_nodup : NoDup bs;
  tx_home : ∀ b, b ∈ bs → 0 ≤ b < 2147483648 ∧ (b < lg_start lg ∨ lg_start lg + LOGSIZE ≤ b);
  tx_fits : Z.of_nat (length bs) < LOGSIZE;
  tx_pinned : Forall2 (pinned cs) bs vs;
}.

Lemma tx_len lg cs bs vs : tx_ok lg cs bs vs → (length bs ≤ 29)%nat.
Proof.
  intros T. pose proof (tx_fits _ _ _ _ T) as H. change LOGSIZE with 30 in H. lia.
Qed.

Lemma tx_block lg cs bs vs k b : tx_ok lg cs bs vs → bs !! k = Some b → lg_block lg !! k = Some b.
Proof.
  intros T Hb. rewrite (tx_bs _ _ _ _ T) in Hb. rewrite lookup_take_Some in Hb. tauto.
Qed.

Lemma tx_slot lg cs bs vs k b j : tx_ok lg cs bs vs → bs !! k = Some b → (j < 29)%nat → b ≠ slot lg j.
Proof.
  intros T Hb Hj. destruct (tx_home _ _ _ _ T b) as [_ H]; [by eapply list_elem_of_lookup_2|].
  unfold slot. change LOGSIZE with 30 in H. lia.
Qed.

Lemma slot_inj lg i j : slot lg i = slot lg j → i = j.
Proof. unfold slot. lia. Qed.

(** The cache while the blocks of the transaction are being copied. *)
Record copying (me : proc) (s0 : kstate) (lg : log) (d : list (Z * list Z)) (cs : list buf) (s : kstate)
    : Prop := {
  cp_at : io_at me s0 lg d cs s;
  cp_cache : cache_ok cs d;
  cp_quiet : quiet_cache cs;
}.

Lemma write_log_ok me s0 lg d cs s bs vs :
  copying me s0 lg d cs s → tx_ok lg cs bs vs →
  ∃ cs' s',
    write_log s = Ok tt s' ∧
    copying me s0 lg (writes (slot lg) vs (length bs) ++ d) cs' s' ∧ tx_ok lg cs' bs vs ∧
    (∀ i v, vs !! i = Some v → bview cs' (writes (slot lg) vs (length bs) ++ d) (slot lg i) = v) ∧
    (∀ w, (∀ i, (i < length bs)%nat → w ≠ slot lg i) →
       bview cs' (writes (slot lg) vs (length bs) ++ d) w = bview cs d w).
Proof.
  intros [A C Q] T. pose proof (tx_len _ _ _ _ T) as Hn. pose proof (tx_geo _ _ _ _ T) as G.
  destruct (forM_upto (length bs) write_log_body (λ k s', ∃ cs',
    copying me s0 lg (writes (slot lg) vs k ++ d) cs' s' ∧ Forall2 (pinned cs') bs vs ∧
    (∀ i v, (i < k)%nat → vs !! i = Some v → bview cs' (writes (slot lg) vs k ++ d) (slot lg i) = v) ∧
    (∀ w, (∀ i, (i < k)%nat → w ≠ slot lg i) → bview cs' (writes (slot lg) vs k ++ d) w = bview cs d w)) s)
    as (s' & E & cs' & K & P & V & W).
  - exists cs. split_and!; [done|apply T|intros; lia|done].
  - intros k s1 Hk (cs1 & [A1 C1 Q1] & P & V & W).
    destruct (lookup_is_Some bs k Hk) as [b Hb].
    destruct (Forall2_lookup_l _ _ _ _ _ P Hb) as (v & Hv & Pv).
    destruct (tx_home _ _ _ _ T b) as [Hbr _]; [by eapply list_elem_of_lookup_2|].
    pose proof (tx_block _ _ _ _ _ _ T Hb) as Hblk.
    destruct (write_log_step me s0 lg _ cs1 s1 k b v A1 C1 Q1 G) as (ba & xa & s2 & E2 & Fa & Ha & A2);
      [lia|done|lia|eapply (tx_slot _ _ _ _ _ _ _ T Hb); lia|done|].
    pose proof Fa as [Hxa _]. pose proof (co_ref _ _ C1 _ _ Hxa) as Hra.
    pose proof (write_ok _ _ _ _ _ (b_refcnt xa) v C1 Fa Ha ltac:(lia)) as C2.
    assert (Ev : vs !!! k = v) by (by apply list_lookup_total_correct).
    exists s2. split; [done|]. eexists. split_and!.
    + split; [cbn [writes app]; rewrite Ev; exact A2|cbn [writes app]; by rewrite Ev|].
      by eapply quiet_touch.
    + eapply Forall2_impl; [|]. 2:{ intros ? ? H. exact H. }
      apply Forall2_same_length_lookup_2; [by eapply Forall2_length|].
      intros i b' v' Hb' Hv'. eapply pinned_touch; [|exact Fa|].
      * by eapply (Forall2_lookup_lr _ _ _ _ _ _ P).
      * eapply (tx_slot _ _ _ _ _ _ _ T Hb'); lia.
    + intros i v' Hi Hv'. cbn [writes app]. rewrite Ev, (bview_write _ _ _ _ xa) by (done || lia).
      case_decide as Ei.
      * apply slot_inj in Ei as ->. congruence.
      * apply V; [|done]. destruct (decide (i = k)) as [->|]; [done|lia].
    + intros w Hw. cbn [writes app]. rewrite Ev, (bview_write _ _ _ _ xa) by (done || lia).
      rewrite decide_False by (apply Hw; lia). apply W. intros i Hi. apply Hw. lia.
  - exists cs', s'. split; [|split_and!].
    + unfold write_log, tails. rewrite (bind_ok _ _ _ _ _ (step_get_log A)).
      rewrite (tx_n _ _ _ _ T), Nat2Z.id. exact E.
    + done.
    + destruct T. by split.
    + intros i v Hv. apply V; [|done]. rewrite (Forall2_length _ _ _ P). by apply lookup_lt_Some in Hv.
    + done.
Qed.

(** The cache after one iteration of install_trans(). *)
Lemma installed_cache me s0 lg d cs s L bno u ba xa bb xb :
  let v := bview cs d L in
  let cs1 := <[ba := released L (b_refcnt xa) v]> cs in
  cache_ok cs d → quiet_cache cs → found cs L ba xa → b_refcnt xa < 2147483647 →
  found cs1 bno bb xb → 0 ≤ u ≤ b_refcnt xb → b_refcnt xb < 2147483647 →
  io_at me s0 lg ((bno, v) :: d) (<[bb := released bno (b_refcnt xb - u) v]> cs1) s →
  copying me s0 lg ((bno, v) :: d) (<[bb := released bno (b_refcnt xb - u) v]> cs1) s ∧
  (∀ w, bview (<[bb := released bno (b_refcnt xb - u) v]> cs1) ((bno, v) :: d) w =
     if decide (w = bno) then v else bview cs d w).
Proof.
  intros v cs1 C Q Fa Ha Fb Hu Hb A. pose proof (read_ok _ _ _ _ _ C Fa) as C1. fold v cs1 in C1.
  pose proof Fa as [Hxa _]. pose proof Fb as [Hxb _].
  split; [split; [done| |]|].
  - eapply write_ok; [done..|lia].
  - eapply quiet_touch; [eapply (quiet_touch cs ba xa); done|exact Hxb|done|simpl; lia|simpl; lia].
  - intros w. rewrite (bview_write _ _ _ _ xb) by (done || lia).
    case_decide; [done|]. unfold cs1, v. by apply bview_read.
Qed.

Lemma pinned_count cs d bno v L ba xa bb xb :
  cache_ok cs d → pinned cs bno v → bno ≠ L → found cs L ba xa →
  found (<[ba := released L (b_refcnt xa) (bview cs d L)]> cs) bno bb xb → 1 ≤ b_refcnt xb.
Proof.
  intros C P Hne Fa Fb.
  destruct (pinned_found _ _ _ v _ _ (read_ok _ _ _ _ _ C Fa)
    (pinned_touch _ _ _ _ _ _ _ P Fa Hne) Fb) as (r & -> & Hr). simpl. lia.
Qed.

Lemma install_ok me s0 lg d cs s bs vs :
  copying me s0 lg d cs s → tx_ok lg cs bs vs →
  (∀ i v, vs !! i = Some v → bview cs d (slot lg i) = v) →
  ∃ cs' s',
    install_trans false s = Ok tt s' ∧
    copying me s0 lg (writes (λ i, bs !!! i) vs (length bs) ++ d) cs' s' ∧
    (∀ w, bview cs' (writes (λ i, bs !!! i) vs (length bs) ++ d) w = bview cs d w).
Proof.
  intros K T V0. pose proof (tx_len _ _ _ _ T) as Hn. pose proof (tx_geo _ _ _ _ T) as G.
  set (D := λ k, writes (λ i, bs !!! i) vs k ++ d).
  destruct (forM_upto (length bs) (install_body false) (λ k s', ∃ cs',
    copying me s0 lg (D k) cs' s' ∧
    (∀ i b v, (k ≤ i)%nat → bs !! i = Some b → vs !! i = Some v → pinned cs' b v) ∧
    (∀ w, bview cs' (D k) w = bview cs d w)) s) as (s' & E & cs' & K' & _ & W).
  - exists cs. split_and!; [done| |done].
    intros i b v _ Hb Hv. by eapply (Forall2_lookup_lr _ _ _ _ _ _ (tx_pinned _ _ _ _ T)).
  - intros k s1 Hk (cs1 & [A1 C1 Q1] & P & W).
    destruct (lookup_is_Some bs k Hk) as [b Hb].
    destruct (Forall2_lookup_l _ _ _ _ _ (tx_pinned _ _ _ _ T) Hb) as (v & Hv & Pv0).
    pose proof (P k b v ltac:(lia) Hb Hv) as Pv.
    destruct (tx_home _ _ _ _ T b) as [Hbr _]; [by eapply list_elem_of_lookup_2|].
    assert (Hbs : b ≠ slot lg k) by (eapply (tx_slot _ _ _ _ _ _ _ T Hb); lia).
    assert (Ev : bview cs1 (D k) (slot lg k) = v) by (by rewrite W; apply V0).
    destruct (install_step me s0 lg (D k) cs1 s1 false k b) as
      (ba & xa & bb & xb & s2 & E2 & Fa & Ha & Fb & Hxb & A2); try done; [lia|..].
    { by apply (tx_block _ _ _ _ _ _ T). } { lia. }
    { intros. by eapply pinned_available_touch. }
    { intros ba xa bb xb Fa Fb. by eapply (pinned_count cs1 (D k) b v). }
    assert (Hxb' : 0 ≤ 1 ≤ b_refcnt xb) by (split; [done|by eapply (pinned_count cs1 (D k) b v)]).
    destruct (installed_cache me s0 lg (D k) cs1 s2 (slot lg k) b 1 ba xa bb xb) as [K2 V2]; try done.
    rewrite Ev in *. exists s2. split; [done|]. eexists. unfold D in *. cbn [writes app].
    rewrite (list_lookup_total_correct _ _ _ Hb), (list_lookup_total_correct _ _ _ Hv).
    split_and!; [exact K2| |].
    + intros i b' v' Hi Hb' Hv'. eapply pinned_touch; [eapply pinned_touch; [|exact Fa|]|exact Fb|].
      * apply (P i); [lia|done..].
      * eapply (tx_slot _ _ _ _ _ _ _ T Hb'); lia.
      * intros ->. assert (i = k) as ->; [|lia]. by eapply NoDup_lookup; [apply T|..].
    + intros w. rewrite V2. case_decide as Ew; [|done]. subst w. rewrite <- W.
      symmetry. by eapply pinned_view.
  - exists cs', s'. split; [|by split].
    unfold install_trans, tails. rewrite (bind_ok _ _ _ _ _ (step_get_log (cp_at _ _ _ _ _ _ K))).
    rewrite (tx_n _ _ _ _ T), Nat2Z.id. exact E.
Qed.

(** ** The header block *)

Fixpoint put_blocks (bl : list Z) (k : nat) (h : list Z) : list Z :=
  match k with
  | O => h
  | S k => put32 (put_blocks bl k h) (4 + 4 * k) (bl !!! k)
  end.

(** The header block write_head() writes, on top of the old contents [h]. *)
Definition header (lg : log) (h : list Z) : list Z :=
  put_blocks (lg_block lg) (Z.to_nat (lg_n lg)) (put32 h 0 (lg_n lg)).

Lemma length_put_blocks bl k h :
  length h = BNAT → (k ≤ 30)%nat → length (put_blocks bl k h) = BNAT.
Proof.
  intros Hh. induction k as [|k IH]; intros Hk; [done|]. cbn [put_blocks].
  unfold put32. rewrite length_put; rewrite IH; try lia. unfold BNAT, BSIZE. lia.
Qed.

Lemma length_header lg h :
  length h = BNAT → lg_n lg ≤ 30 → length (header lg h) = BNAT.
Proof.
  intros Hh Hn. apply length_put_blocks; [|lia]. unfold put32. rewrite length_put; [done|].
  rewrite Hh. unfold BNAT, BSIZE. lia.
Qed.

Lemma get_put_blocks_ne bl k h off :
  length h = BNAT → (k ≤ 30)%nat → (off < 4)%nat ∨ (4 + 4 * k ≤ off)%nat → (off = 0 ∨ 4 ≤ off)%nat →
  get32 (put_blocks bl k h) off = get32 h off.
Proof.
  intros Hh. induction k as [|k IH]; intros Hk Hoff Ho; [done|]. cbn [put_blocks].
  unfold get32, put32 in *.
  rewrite get_put_ne; [apply IH; lia| |lia].
  rewrite length_put_blocks by (done || lia). unfold BNAT, BSIZE. lia.
Qed.

Lemma get_put_blocks bl k h i :
  length h = BNAT → (k ≤ 30)%nat → (i < k)%nat →
  get32 (put_blocks bl k h) (4 + 4 * i) = (bl !!! i) mod 2 ^ 32.
Proof.
  intros Hh. induction k as [|k IH]; intros Hk Hi; [lia|]. cbn [put_blocks].
  unfold get32, put32 in *.
  assert (4 + 4 * k + 4 ≤ length (put_blocks bl k h))%nat.
  { rewrite length_put_blocks by (done || lia). unfold BNAT, BSIZE. lia. }
  destruct (decide (i = k)) as [->|Hne].
  - by rewrite get_put_same.
  - rewrite get_put_ne by lia. apply IH; lia.
Qed.

Lemma s32_mod v : -2147483648 ≤ v < 2147483648 → s32 (v mod 2 ^ 32) = v.
Proof.
  intros Hv. transitivity (s32 v); [|by apply s32_small].
  unfold s32, sext, wrap. by rewrite Z.mod_mod by lia.
Qed.

(** A written header reads back. *)
Lemma header_n lg h : length h = BNAT → 0 ≤ lg_n lg ≤ 30 → hdr_n (header lg h) = lg_n lg.
Proof.
  intros Hh Hn. unfold hdr_n, header. unfold BNAT, BSIZE in *.
  rewrite get_put_blocks_ne; [|unfold put32; rewrite length_put; unfold BNAT, BSIZE; lia|lia..].
  unfold get32, put32. rewrite get_put_same by lia. apply s32_mod. lia.
Qed.

Lemma header_block lg h i :
  length h = BNAT → 0 ≤ lg_n lg ≤ 30 → (i < Z.to_nat (lg_n lg))%nat →
  -2147483648 ≤ lg_block lg !!! i < 2147483648 → hdr_block (header lg h) i = lg_block lg !!! i.
Proof.
  intros Hh Hn Hi Hb. unfold hdr_block, header. unfold BNAT, BSIZE in *.
  rewrite get_put_blocks; [by apply s32_mod| |lia|done].
  unfold put32. rewrite length_put; unfold BNAT, BSIZE; lia.
Qed.

Lemma write_head_ok me s0 lg d cs s :
  copying me s0 lg d cs s → log_geo lg → 0 ≤ lg_n lg ≤ 30 →
  let h := header lg (bview cs d (lg_start lg)) in
  ∃ cs' s',
    write_head s = Ok tt s' ∧ copying me s0 lg ((lg_start lg, h) :: d) cs' s' ∧
    (∀ w v, w ≠ lg_start lg → pinned cs w v → pinned cs' w v) ∧ (idle_cache cs → idle_cache cs') ∧
    (∀ w, bview cs' ((lg_start lg, h) :: d) w = if decide (w = lg_start lg) then h else bview cs d w).
Proof.
  intros [A C Q] G Hn h. pose proof (lg_range _ G) as Hr. set (st := lg_start lg) in *.
  destruct (step_bread A st C (quiet_available _ _ Q)) as (b & x & s1 & E1 & F & Hx & A1).
  pose proof F as [Hxb Hf]. pose proof (lookup_lt_Some _ _ _ Hxb) as Hbl.
  pose proof (co_ref _ _ C _ _ Hxb) as Hxr.
  set (y := λ v, mine (p_pid me) st (b_refcnt x + 1) v).
  destruct (step_upd A1 b (y (bview cs d st)) (λ x, set_data (put32 (b_data x) 0 (lg_n lg)) x))
    as (s2 & E2 & A2); [by cells_at|done|done|].
  rewrite list_insert_insert_eq in A2. cbn [set_data y mine b_data] in A2.
  set (h0 := put32 (bview cs d st) 0 (lg_n lg)) in *.
  destruct (forM_upto (Z.to_nat (lg_n lg)) (λ i,
      v ← lh_block i; upd_buf b (λ x, set_data (put32 (b_data x) (4 + 4 * i) v) x))
    (λ k s', io_at me s0 lg d (<[b := y (put_blocks (lg_block lg) k h0)]> cs) s') s2) as (s3 & E3 & A3).
  - exact A2.
  - intros k s' Hk A'. destruct (lookup_is_Some (lg_block lg) k) as [v Hv].
    { rewrite (lg_len _ G). change (Z.to_nat LOGSIZE) with 30%nat. lia. }
    rewrite (bind_ok _ _ _ _ _ (step_lh_block A' k v Hv)).
    destruct (step_upd A' b (y (put_blocks (lg_block lg) k h0))
      (λ x, set_data (put32 (b_data x) (4 + 4 * k) v) x)) as (s'' & E'' & A''); [by cells_at|done|done|].
    exists s''. split; [done|]. rewrite list_insert_insert_eq in A''. cbn [put_blocks].
    by rewrite (list_lookup_total_correct _ _ _ Hv).
  - change (put_blocks (lg_block lg) (Z.to_nat (lg_n lg)) h0) with h in A3.
    destruct (step_bwrite A3 b (y h)) as (s4 & E4 & A4); [by cells_at|done|].
    destruct (step_brelse A4 b (y h)) as (s5 & E5 & A5); [by cells_at|done|simpl; lia|].
    rewrite list_insert_insert_eq in A5.
    assert (EA : set_refcnt (b_refcnt (y h) - 1) (set_block (SleepLock false 0) (y h)) =
      released st (b_refcnt x) h).
    { unfold set_refcnt, set_block, released, y. simpl. f_equal. lia. }
    rewrite EA in A5. exists (<[b := released st (b_refcnt x) h]> cs), s5. split_and!.
    + unfold write_head, tails. rewrite (bind_ok _ _ _ _ _ (step_get_log A)).
      rewrite (lg_root _ G). change (u32 ROOTDEV) with ROOTDEV. fold st.
      rewrite (u32_small st) by lia.
      by rewrite (bind_ok _ _ _ _ _ E1), (bind_ok _ _ _ _ _ E2), (bind_ok _ _ _ _ _ E3), (bind_ok _ _ _ _ _ E4).
    + split; [done| |].
      * eapply write_ok; [done..|lia].
      * by eapply quiet_touch.
    + intros w v Hw P. by eapply pinned_touch.
    + intros I. apply idle_touch; [done|done|]. apply (I _ _ Hxb).
    + intros w. eapply bview_write; [done..|lia].
Qed.

(** ** Commit *)

Definition commit_disk (lg : log) (bs : list Z) (vs : list (list Z)) (h : list Z) (d : list (Z * list Z))
    : list (Z * list Z) :=
  (lg_start lg, header (set_n 0 lg) (header lg h)) ::
  writes (λ i, bs !!! i) vs (length bs) ++
  (lg_start lg, header lg h) :: writes (slot lg) vs (length bs) ++ d.

Lemma log_geo_set_n n lg : log_geo lg → log_geo (set_n n lg).
Proof. intros []. by split. Qed.

Lemma commit_ok me s0 lg d cs s bs vs :
  copying me s0 lg d cs s → tx_ok lg cs bs vs → bs ≠ [] →
  ∃ cs' s',
    commit s = Ok tt s' ∧
    copying me s0 (set_n 0 lg) (commit_disk lg bs vs (bview cs d (lg_start lg)) d) cs' s'.
Proof.
  intros K T Hbs. pose proof (tx_geo _ _ _ _ T) as G. pose proof (tx_len _ _ _ _ T) as Hn.
  pose proof (tx_n _ _ _ _ T) as En. set (st := lg_start lg).
  assert (Hst : ∀ i, st ≠ slot lg i) by (intros i; unfold slot; fold st; lia).
  destruct (write_log_ok me s0 lg d cs s bs vs K T) as (cs1 & s1 & E1 & K1 & T1 & V1 & W1).
  destruct (write_head_ok me s0 lg _ cs1 s1 K1 G ltac:(lia)) as (cs2 & s2 & E2 & K2 & P2 & _ & W2).
  fold st in K2, P2, W2. rewrite (W1 st) in * by (intros; apply Hst).
  assert (T2 : tx_ok lg cs2 bs vs).
  { destruct T1 as [? ? ? ? Hh ? Hp]. split; [done..|].
    apply Forall2_same_length_lookup_2; [by eapply Forall2_length|]. intros i b v Hb Hv. apply P2.
    - destruct (Hh b) as [_ H]; [by eapply list_elem_of_lookup_2|]. fold st in H. change LOGSIZE with 30 in H. lia.
    - by eapply (Forall2_lookup_lr _ _ _ _ _ _ Hp). }
  destruct (install_ok me s0 lg _ cs2 s2 bs vs K2 T2) as (cs3 & s3 & E3 & K3 & W3).
  { intros i v Hv. rewrite W2, decide_False by (intros E; by apply (Hst i)). by apply V1. }
  pose proof K3 as [A3 C3 Q3]. destruct (step_log A3 (set_n 0)) as (s4 & E4 & A4).
  assert (K4 : copying me s0 (set_n 0 lg)
    (writes (λ i, bs !!! i) vs (length bs) ++ (st, header lg (bview cs d st)) :: writes (slot lg) vs (length bs) ++ d)
    cs3 s4) by (by split).
  destruct (write_head_ok me s0 (set_n 0 lg) _ cs3 s4 K4 (log_geo_set_n 0 lg G) ltac:(simpl; lia))
    as (cs5 & s5 & E5 & K5 & _).
  change (lg_start (set_n 0 lg)) with st in K5. rewrite W3, W2, decide_True in K5 by done.
  exists cs5, s5. split; [|exact K5].
  unfold commit. rewrite (bind_ok _ _ _ _ _ (step_get_log (cp_at _ _ _ _ _ _ K))).
  assert ((0 <? lg_n lg) = true) as ->.
  { apply Z.ltb_lt. rewrite En. destruct bs; [done|simpl; lia]. }
  simpl when. by rewrite (bind_ok _ _ _ _ _ E1), (bind_ok _ _ _ _ _ E2), (bind_ok _ _ _ _ _ E3), (bind_ok _ _ _ _ _ E4).
Qed.

(** ** Reading blocks of a history *)

Lemma writes_miss f vs k d w :
  (∀ i, (i < k)%nat → f i ≠ w) → disk_block (writes f vs k ++ d) w = disk_block d w.
Proof.
  induction k as [|k IH]; intros H; [done|]. cbn [writes app disk_block].
  destruct (Z.eqb_spec (f k) w) as [E|]; [by destruct (H k); [lia|]|]. apply IH. intros i Hi. apply H. lia.
Qed.

Lemma writes_hit f vs k d w i :
  (i < k)%nat → f i = w → (∀ j, (j < k)%nat → f j = w → j = i) →
  disk_block (writes f vs k ++ d) w = vs !!! i.
Proof.
  induction k as [|k IH]; intros Hi Hw Hinj; [lia|]. cbn [writes app disk_block].
  destruct (Z.eqb_spec (f k) w) as [E|E].
  - by rewrite (Hinj k) by (done || lia).
  - apply IH; [|done|].
    + destruct (decide (i = k)) as [->|]; [done|lia].
    + intros j Hj. apply Hinj. lia.
Qed.

Lemma suffix_cons_cases {A} (x : A) (l k : list A) :
  l `suffix_of` (x :: k) → l = x :: k ∨ l `suffix_of` k.
Proof. intros [[|y p] E]; simpl in E; [by left|]. injection E as -> ->. right. by exists p. Qed.

(** Where a sequence of writes can be cut. *)
Lemma writes_cut f vs k d dc :
  d `suffix_of` dc → dc `suffix_of` (writes f vs k ++ d) → ∃ j, (j ≤ k)%nat ∧ dc = writes f vs j ++ d.
Proof.
  intros Hd. induction k as [|k IH]; intros Hc.
  - exists 0%nat. split; [done|]. simpl in *. by apply (anti_symm suffix).
  - cbn [writes app] in Hc. apply suffix_cons_cases in Hc as [->|Hc].
    + exists (S k). done.
    + destruct (IH Hc) as (j & Hj & ->). exists j. split; [lia|done].
Qed.
