(* ===== verification/LogCrash.v ===== *)
(** Recovery after a power failure, and the crash safety of commit(). *)

From S2P Require Import Prelude Riscv Kstate Sched Bytes Bio BioSpec BioOps Log LogSpec.

(** ** Recovery *)

(** A freshly booted machine with disk [d]: the cache is empty. *)
Record booted (me : proc) (d : list (Z * list Z)) (s : kstate) : Prop := {
  bt_ring : ring_ok (k_bufs s);
  bt_cache : cache_ok (cells (k_bufs s)) d;
  bt_idle : idle_cache (cells (k_bufs s));
  bt_ready : ready s me;
  bt_disk : io_disk (k_io s) = d;
  bt_log : length (lg_block (io_log (k_io s))) = Z.to_nat LOGSIZE;
}.

Lemma idle_view cs d w : cache_ok cs d → idle_cache cs → bview cs d w = disk_block d w.
Proof.
  intros C I. destruct (cached_or_not cs w) as [(j & z & Hz & Hh & Hv)|Hno].
  - rewrite (bview_cached _ _ _ _ _ C Hz Hh Hv). destruct Hh as [Hd <-].
    apply (co_unused _ _ C _ _ Hz); [|done|done]. by apply (I _ _ Hz).
  - by apply bview_uncached.
Qed.

(** Homes of file-system blocks: everything outside the log. *)
Definition home (st w : Z) : Prop := w < st ∨ st + LOGSIZE ≤ w.

(** The header on disk describes a log that can be replayed. *)
Record replayable (st : Z) (d : list (Z * list Z)) : Prop := {
  rp_len : length (disk_block d st) = BNAT;
  rp_n : 0 ≤ hdr_n (disk_block d st) ≤ 29;
  rp_home : ∀ i, (i < Z.to_nat (hdr_n (disk_block d st)))%nat →
    0 ≤ hdr_block (disk_block d st) i < 2147483648 ∧ home st (hdr_block (disk_block d st) i);
}.

(** The contents of the log blocks. *)
Definition log_vals (st : Z) (d : list (Z * list Z)) : list (list Z) :=
  (λ k, disk_block d (st + Z.of_nat k + 1)) <$> upto 30.

Lemma log_vals_at st d k : (k < 30)%nat → log_vals st d !!! k = disk_block d (st + Z.of_nat k + 1).
Proof.
  intros Hk. apply list_lookup_total_correct. unfold log_vals.
  rewrite list_lookup_fmap, lookup_seq_lt by done. done.
Qed.

(** What recovery leaves on the disk. *)
Definition replay (st : Z) (d : list (Z * list Z)) : list (Z * list Z) :=
  let h := disk_block d st in
  (st, put32 h 0 0) :: writes (hdr_block h) (log_vals st d) (Z.to_nat (hdr_n h)) ++ d.

Lemma s32_s32 x : s32 (s32 x) = s32 x.
Proof.
  apply s32_small. unfold s32, sext. pose proof (wrap_range 32 x ltac:(lia)).
  change (2 ^ (32 - 1)) with 2147483648. change (2 ^ 32) with 4294967296 in *.
  destruct (Z.ltb_spec (wrap 32 x) 2147483648); lia.
Qed.

(** The log after read_head(). *)
Record head_read (lg : log) (h : list Z) (lg' : log) : Prop := {
  hr_start : lg_start lg' = lg_start lg;
  hr_dev : lg_dev lg' = lg_dev lg;
  hr_n : lg_n lg' = hdr_n h;
  hr_len : length (lg_block lg') = Z.to_nat LOGSIZE;
  hr_block : ∀ i, (i < Z.to_nat (hdr_n h))%nat → lg_block lg' !! i = Some (hdr_block h i);
}.

Lemma read_head_ok me s0 lg d cs s :
  copying me s0 lg d cs s → idle_cache cs → log_geo lg → replayable (lg_start lg) d →
  let h := disk_block d (lg_start lg) in
  ∃ lg' cs' s',
    read_head s = Ok tt s' ∧ head_read lg h lg' ∧ copying me s0 lg' d cs' s' ∧ idle_cache cs'.
Proof.
  intros [A C Q] I G R h. set (st := lg_start lg) in *. pose proof (lg_range _ G) as Hr. fold st in Hr.
  pose proof (rp_n _ _ R) as Hn. fold h in Hn.
  destruct (step_bread A st C (quiet_available _ _ Q)) as (b & x & s1 & E1 & F & Hx & A1).
  rewrite idle_view in A1 by done. fold h in A1.
  pose proof F as [Hxb _]. pose proof (lookup_lt_Some _ _ _ Hxb) as Hbl.
  destruct (I _ _ Hxb) as [_ Hx0].
  set (y := mine (p_pid me) st (b_refcnt x + 1) h) in *.
  destruct (step_read A1 b y) as (z & Ez & Hz); [by cells_at|].
  assert (Ezd : b_data z = h) by (by apply (f_equal b_data) in Hz).
  destruct (step_log A1 (set_n (hdr_n h))) as (s2 & E2 & A2).
  destruct (forM_upto (Z.to_nat (hdr_n h)) (λ i, set_lh_block i (hdr_block h i)) (λ k s', ∃ lg',
    io_at me s0 lg' d (<[b := y]> cs) s' ∧ lg_start lg' = st ∧ lg_dev lg' = lg_dev lg ∧ lg_n lg' = hdr_n h ∧
    length (lg_block lg') = Z.to_nat LOGSIZE ∧
    (∀ i, (i < k)%nat → lg_block lg' !! i = Some (hdr_block h i))) s2)
    as (s3 & E3 & lg' & A3 & L1 & L2 & L3 & L4 & L5).
  - eexists. split; [exact A2|]. split_and!; try done; [apply G|lia].
  - intros k s' Hk (lg1 & A' & M1 & M2 & M3 & M4 & M5).
    assert (Hkl : (k < length (lg_block lg1))%nat) by (rewrite M4; change (Z.to_nat LOGSIZE) with 30%nat; lia).
    destruct (lookup_is_Some (lg_block lg1) k Hkl) as [v Hv].
    destruct (step_log A' (λ l, set_lblock (<[k := s32 (hdr_block h k)]> (lg_block l)) l)) as (s'' & E'' & A'').
    exists s''. split; [unfold set_lh_block; by rewrite (bind_ok _ _ _ _ _ (step_lh_block A' k v Hv))|].
    eexists. split; [exact A''|]. simpl. rewrite length_insert. split_and!; try done.
    intros i Hi. destruct (decide (i = k)) as [->|].
    + rewrite list_lookup_insert_eq by done. unfold hdr_block. by rewrite s32_s32.
    + rewrite list_lookup_insert_ne by done. apply M5. lia.
  - destruct (step_brelse A3 b y) as (s4 & E4 & A4); [by cells_at|done|simpl; lia|].
    rewrite list_insert_insert_eq in A4.
    assert (EA : set_refcnt (b_refcnt y - 1) (set_block (SleepLock false 0) y) = released st (b_refcnt x) h).
    { unfold set_refcnt, set_block, released, y. simpl. f_equal. lia. }
    rewrite EA in A4. exists lg', (<[b := released st (b_refcnt x) h]> cs), s4.
    split; [|split; [|split]].
    + unfold read_head, tails. rewrite (bind_ok _ _ _ _ _ (step_get_log A)).
      rewrite (lg_root _ G). change (u32 ROOTDEV) with ROOTDEV. fold st. rewrite (u32_small st) by lia.
      rewrite (bind_ok _ _ _ _ _ E1), (bind_ok _ _ _ _ _ Ez), Ezd, (bind_ok _ _ _ _ _ E2).
      rewrite (bind_ok _ _ _ _ _ (step_get_log A2)). simpl lg_n. by rewrite (bind_ok _ _ _ _ _ E3).
    + by split.
    + split; [done| |].
      * rewrite <- (idle_view cs d st C I : _ = h). by apply read_ok.
      * by eapply quiet_touch.
    + by apply idle_touch.
Qed.

Lemma idle_available cs d ba y bno :
  cache_ok cs d → idle_cache cs → ¬ holds bno y → available (<[ba := y]> cs) bno.
Proof.
  intros C I Hy. split.
  - intros j x Hx Hh. destruct (decide (j = ba)) as [->|].
    + pose proof (lookup_lt_Some _ _ _ Hx) as Hl. rewrite length_insert in Hl.
      rewrite list_lookup_insert_eq in Hx by done. injection Hx as ->. done.
    + rewrite list_lookup_insert_ne in Hx by done. destruct (I _ _ Hx) as [-> ->]. split; [done|lia].
  - set (j := if decide (ba = 0%nat) then 1%nat else 0%nat).
    assert (Hj : j ≠ ba ∧ (j < length cs)%nat).
    { rewrite (co_len _ _ C). unfold NBUF, MAXOPBLOCKS, j. case_decide; split; lia. }
    destruct Hj as [Hj Hl]. destruct (lookup_is_Some cs j Hl) as [x Hx]. exists j, x.
    rewrite list_lookup_insert_ne by done. split; [done|]. right. by apply (I _ _ Hx).
Qed.

Lemma replay_ok me s0 lg0 lg d cs s :
  let h := disk_block d (lg_start lg0) in
  copying me s0 lg d cs s → idle_cache cs → log_geo lg0 → head_read lg0 h lg →
  replayable (lg_start lg0) d →
  let n := Z.to_nat (hdr_n h) in
  ∃ cs' s',
    install_trans true s = Ok tt s' ∧
    copying me s0 lg (writes (hdr_block h) (log_vals (lg_start lg0) d) n ++ d) cs' s' ∧ idle_cache cs'.
Proof.
  intros h K I G H R n. set (st := lg_start lg0) in *. pose proof (rp_n _ _ R) as Hn. fold h in Hn.
  assert (G' : log_geo lg).
  { destruct G as [G1 G2 G3]. destruct H as [H1 H2 H3 H4 H5]. split; [congruence|done|lia]. }
  assert (Hsl : ∀ k, slot lg k = st + Z.of_nat k + 1) by (intros; unfold slot; by rewrite (hr_start _ _ _ H)).
  set (D := λ k, writes (hdr_block h) (log_vals st d) k ++ d).
  destruct (forM_upto n (install_body true) (λ k s', ∃ cs',
    copying me s0 lg (D k) cs' s' ∧ idle_cache cs') s) as (s' & E & cs' & K' & I').
  - exists cs. done.
  - intros k s1 Hk (cs1 & [A1 C1 Q1] & I1). unfold n in Hk.
    destruct (rp_home _ _ R k Hk) as [Hbr Hbh]. fold h in Hbr, Hbh.
    set (b := hdr_block h k) in *. unfold home in Hbh. change LOGSIZE with 30 in Hbh.
    assert (Hbs : b ≠ slot lg k) by (rewrite Hsl; lia).
    assert (Ev : bview cs1 (D k) (slot lg k) = log_vals st d !!! k).
    { rewrite idle_view, log_vals_at, Hsl by (done || lia). apply writes_miss. intros i Hi.
      destruct (rp_home _ _ R i ltac:(fold h; lia)) as [_ Hh]. fold h in Hh.
      unfold home in Hh. change LOGSIZE with 30 in Hh. lia. }
    destruct (install_step me s0 lg (D k) cs1 s1 true k b) as
      (ba & xa & bb & xb & s2 & E2 & Fa & Ha & Fb & Hxb & A2); try done; [lia|..].
    { by apply (hr_block _ _ _ H). } { lia. }
    { intros. by eapply idle_available. }
    { intros ba xa bb xb Fa [Fb _]. by eapply (co_ref _ _ (read_ok _ _ _ _ _ C1 Fa)). }
    assert (Hxb' : 0 ≤ 0 ≤ b_refcnt xb).
    { split; [done|]. destruct Fb as [Fb _]. by eapply (co_ref _ _ (read_ok _ _ _ _ _ C1 Fa)). }
    destruct (installed_cache me s0 lg (D k) cs1 s2 (slot lg k) b 0 ba xa bb xb) as [K2 _]; try done.
    rewrite Ev in *. exists s2. split; [done|]. eexists. split; [exact K2|].
    assert (I2 : idle_cache (<[ba := released (slot lg k) (b_refcnt xa) (log_vals st d !!! k)]> cs1)).
    { apply idle_touch; [done|done|]. destruct Fa as [Fa _]. by apply (I1 _ _ Fa). }
    apply idle_touch; [done|done|]. destruct Fb as [Fb _]. destruct (I2 _ _ Fb) as [_ ->]. done.
  - exists cs', s'. split; [|done].
    unfold install_trans, tails. rewrite (bind_ok _ _ _ _ _ (step_get_log (cp_at _ _ _ _ _ _ K))).
    rewrite (hr_n _ _ _ H). exact E.
Qed.

Lemma initlog_ok me d s sb :
  booted me d s → sb_nlog sb < 2147483648 → 0 < sb_logstart sb < 2147483600 →
  0 ≤ sb_nlog sb → replayable (sb_logstart sb) d →
  ∃ s', initlog ROOTDEV sb s = Ok tt s' ∧ io_disk (k_io s') = replay (sb_logstart sb) d ∧
    lg_n (io_log (k_io s')) = 0 ∧ ready s' me.
Proof.
  intros B Hn1 Hst Hn0 R. set (st := sb_logstart sb) in *.
  pose proof (io_at_refl me s (bt_ring _ _ _ B) (bt_ready _ _ _ B)) as A0.
  rewrite (bt_disk _ _ _ B) in A0.
  destruct (step_log A0 (set_lstart (s32 (sb_logstart sb)))) as (s1 & E1 & A1).
  destruct (step_log A1 (set_lsize (s32 (sb_nlog sb)))) as (s2 & E2 & A2).
  destruct (step_log A2 (set_ldev ROOTDEV)) as (s3 & E3 & A3).
  fold st in A3, A2, A1, E1. rewrite (s32_small st) in A3 by lia.
  set (lg := set_ldev _ _) in A3.
  assert (G : log_geo lg) by (split; [done|apply B|simpl; lia]).
  assert (K3 : copying me s lg d (cells (k_bufs s)) s3).
  { split; [done|apply B|]. apply idle_quiet; [apply B|]. rewrite (co_len _ _ (bt_cache _ _ _ B)).
    unfold NBUF, MAXOPBLOCKS. lia. }
  destruct (read_head_ok me s lg d _ s3 K3 (bt_idle _ _ _ B) G R)
    as (lg4 & cs4 & s4 & E4 & H4 & K4 & I4).
  destruct (replay_ok me s lg lg4 d cs4 s4 K4 I4 G H4 R) as (cs5 & s5 & E5 & K5 & I5).
  pose proof K5 as [A5 C5 Q5]. destruct (step_log A5 (set_n 0)) as (s6 & E6 & A6).
  change (lg_start lg) with st in *. set (h := disk_block d st) in *.
  assert (G6 : log_geo (set_n 0 lg4)).
  { destruct H4 as [H1 H2 H3 H5 _]. split; simpl; [by rewrite H2|done|]. rewrite H1. simpl. lia. }
  assert (K6 : copying me s (set_n 0 lg4) (writes (hdr_block h) (log_vals st d) (Z.to_nat (hdr_n h)) ++ d) cs5 s6)
    by (by split).
  destruct (write_head_ok me s _ _ cs5 s6 K6 G6 ltac:(simpl; lia)) as (cs7 & s7 & E7 & [A7 C7 Q7] & _).
  assert (Est : lg_start (set_n 0 lg4) = st) by (simpl; by rewrite (hr_start _ _ _ H4)).
  rewrite Est, idle_view in A7 by done. rewrite writes_miss in A7.
  2:{ intros i Hi. destruct (rp_home _ _ R i Hi) as [_ Hh]. fold h in Hh.
      unfold home in Hh. change LOGSIZE with 30 in Hh. lia. }
  exists s7. split; [|split; [|split]].
  - unfold initlog, recover_from_log. change (BSIZE <=? sizeof_logheader) with false. cbv iota.
    fold st. by rewrite (bind_ok _ _ _ _ _ E1), (bind_ok _ _ _ _ _ E2), (bind_ok _ _ _ _ _ E3),
      (bind_ok _ _ _ _ _ E4), (bind_ok _ _ _ _ _ E5), (bind_ok _ _ _ _ _ E6).
  - by rewrite (ia_disk A7).
  - by rewrite (ia_log A7).
  - apply A7.
Qed.

(** ** Crash safety of commit *)

Section crash.
Context (lg : log) (cs : list buf) (bs : list Z) (vs : list (list Z)) (h : list Z) (d : list (Z * list Z)).
Hypothesis T : tx_ok lg cs bs vs.
Hypothesis Hh : length h = BNAT.
Hypothesis Hdn : hdr_n (disk_block d (lg_start lg)) = 0.
Hypothesis Hdl : length (disk_block d (lg_start lg)) = BNAT.

#[local] Abbreviation st := (lg_start lg).
#[local] Abbreviation n := (length bs).
(** The header of the transaction, and the header that ends it. *)
#[local] Abbreviation h1 := (header lg h).
#[local] Abbreviation h0 := (header (set_n 0 lg) h1).
(** The disk after the commit point, with [j] blocks installed. *)
#[local] Abbreviation installing j :=
  (writes (λ i, bs !!! i) vs j ++ ((st, h1) :: (writes (slot lg) vs n ++ d))).

Lemma crash_n : (n ≤ 29)%nat ∧ length vs = n ∧ lg_n lg = Z.of_nat n.
Proof.
  split_and!; [by eapply tx_len| |by apply (tx_n _ _ _ _ T)].
  symmetry. by eapply Forall2_length, (tx_pinned _ _ _ _ T).
Qed.

Lemma h1_n : hdr_n h1 = Z.of_nat n.
Proof. destruct crash_n as (? & ? & E). rewrite header_n by (done || lia). done. Qed.

Lemma h1_block i b : bs !! i = Some b → hdr_block h1 i = b.
Proof.
  intros Hb. destruct crash_n as (? & ? & E). pose proof (lookup_lt_Some _ _ _ Hb).
  pose proof (list_lookup_total_correct _ _ _ (tx_block _ _ _ _ _ _ T Hb)) as Eb.
  destruct (tx_home _ _ _ _ T b) as [Hr _]; [by eapply list_elem_of_lookup_2|].
  rewrite header_block; rewrite ?Eb; try done; lia.
Qed.

Lemma h1_len : length h1 = BNAT.
Proof. destruct crash_n as (? & ? & ?). apply length_header; [done|lia]. Qed.

Lemma h0_n : hdr_n h0 = 0.
Proof. rewrite header_n; [done|apply h1_len|simpl; lia]. Qed.

Lemma h0_len : length h0 = BNAT.
Proof. apply length_header; [apply h1_len|simpl; lia]. Qed.

Lemma bs_home i b : bs !! i = Some b → 0 ≤ b < 2147483648 ∧ home st b.
Proof.
  intros Hb. destruct (tx_home _ _ _ _ T b) as [? ?]; [by eapply list_elem_of_lookup_2|]. done.
Qed.

Lemma home_ne w j : home st w → (j < 29)%nat → slot lg j ≠ w ∧ st ≠ w.
Proof. unfold home, slot. change LOGSIZE with 30. lia. Qed.

Lemma st_ne i : (i < n)%nat → bs !!! i ≠ st.
Proof.
  intros Hi. destruct (lookup_is_Some bs i Hi) as [b Hb]. rewrite (list_lookup_total_correct _ _ _ Hb).
  destruct (bs_home _ _ Hb) as [_ H]. unfold home in H. change LOGSIZE with 30 in H. lia.
Qed.

(** What the disk holds while the blocks are installed. *)
Lemma installing_header j : (j ≤ n)%nat → disk_block (installing j) st = h1.
Proof.
  intros Hj. rewrite writes_miss by (intros; apply st_ne; lia). simpl. by rewrite Z.eqb_refl.
Qed.

Lemma installing_slot j k : (j ≤ n)%nat → (k < n)%nat → disk_block (installing j) (slot lg k) = vs !!! k.
Proof.
  intros Hj Hk. destruct crash_n as (Hn & _ & _). rewrite writes_miss.
  - cbn [disk_block]. destruct (Z.eqb_spec st (slot lg k)) as [E|_]; [unfold slot in E; lia|].
    apply writes_hit; [done|done|]. intros i _ E. by apply slot_inj in E.
  - intros i Hi. destruct (lookup_is_Some bs i ltac:(lia)) as [b Hb].
    rewrite (list_lookup_total_correct _ _ _ Hb). eapply (tx_slot _ _ _ _ _ _ _ T Hb). lia.
Qed.

Lemma installing_other j w : (j ≤ n)%nat → home st w → w ∉ bs → disk_block (installing j) w = disk_block d w.
Proof.
  intros Hj Hw Hb. destruct crash_n as (Hn & _ & _). rewrite writes_miss.
  - cbn [disk_block]. destruct (home_ne w 0 Hw ltac:(lia)) as [_ Hs].
    destruct (Z.eqb_spec st w); [done|]. apply writes_miss. intros i Hi. apply home_ne; [done|lia].
  - intros i Hi E. apply Hb. rewrite <- E. destruct (lookup_is_Some bs i ltac:(lia)) as [b Hb'].
    rewrite (list_lookup_total_correct _ _ _ Hb'). by eapply list_elem_of_lookup_2.
Qed.

Lemma bs_inj i j b : bs !! i = Some b → (j < n)%nat → bs !!! j = b → j = i.
Proof.
  intros Hb Hj E. destruct (lookup_is_Some bs j Hj) as [b' Hb'].
  rewrite (list_lookup_total_correct _ _ _ Hb') in E. subst b'.
  by eapply NoDup_lookup; [apply (tx_nodup _ _ _ _ T)|..].
Qed.

(** The committed disk. *)
Lemma commit_disk_logged i b : bs !! i = Some b → disk_block (commit_disk lg bs vs h d) b = vs !!! i.
Proof.
  intros Hb. destruct (bs_home _ _ Hb) as [_ Hw]. unfold commit_disk. cbn [disk_block].
  destruct (home_ne b 0 Hw ltac:(lia)) as [_ Hs]. destruct (Z.eqb_spec st b); [done|].
  apply writes_hit; [by apply lookup_lt_Some in Hb|by apply list_lookup_total_correct|].
  intros j Hj E. by eapply bs_inj.
Qed.

Lemma commit_disk_other w :
  home st w → w ∉ bs → disk_block (commit_disk lg bs vs h d) w = disk_block d w.
Proof.
  intros Hw Hb. unfold commit_disk. cbn [disk_block].
  destruct (home_ne w 0 Hw ltac:(lia)) as [_ Hs]. destruct (Z.eqb_spec st w); [done|].
  by apply installing_other.
Qed.

(** A disk whose log is empty is left alone by recovery. *)
Lemma replay_empty dc :
  length (disk_block dc st) = BNAT → hdr_n (disk_block dc st) = 0 →
  replayable st dc ∧ ∀ w, home st w → disk_block (replay st dc) w = disk_block dc w.
Proof.
  intros Hl Hn. split.
  - split; [done|lia|rewrite Hn; lia].
  - intros w Hw. unfold replay. rewrite Hn. cbn [Z.to_nat writes app disk_block].
    destruct (home_ne w 0 Hw ltac:(lia)) as [_ Hs]. by destruct (Z.eqb_spec st w).
Qed.

(** A disk cut after the commit point is completed by recovery. *)
Lemma replay_installing j :
  (j ≤ n)%nat →
  replayable st (installing j) ∧
  ∀ w, home st w → disk_block (replay st (installing j)) w = disk_block (commit_disk lg bs vs h d) w.
Proof.
  intros Hj. destruct crash_n as (Hn & _ & _). split.
  - split; rewrite ?installing_header by done; [apply h1_len|rewrite h1_n; lia|].
    rewrite h1_n, Nat2Z.id. intros i Hi. destruct (lookup_is_Some bs i Hi) as [b Hb].
    rewrite (h1_block _ _ Hb). by eapply bs_home.
  - intros w Hw. unfold replay. rewrite installing_header, h1_n, Nat2Z.id by done. cbn [disk_block].
    destruct (home_ne w 0 Hw ltac:(lia)) as [_ Hs]. destruct (Z.eqb_spec st w); [done|].
    destruct (decide (w ∈ bs)) as [(i & Hb)%list_elem_of_lookup_1|Hno].
    + pose proof (lookup_lt_Some _ _ _ Hb) as Hi. rewrite (commit_disk_logged _ _ Hb).
      rewrite (writes_hit _ _ _ _ _ i); [|done|by apply h1_block|].
      * rewrite log_vals_at by lia. by apply installing_slot.
      * intros k Hk E. destruct (lookup_is_Some bs k Hk) as [b' Hb'].
        rewrite (h1_block _ _ Hb') in E. subst b'.
        by eapply NoDup_lookup; [apply (tx_nodup _ _ _ _ T)|..].
    + rewrite commit_disk_other, writes_miss by (try done; intros k Hk E;
        destruct (lookup_is_Some bs k Hk) as [b' Hb']; rewrite (h1_block _ _ Hb') in E; subst b';
        apply Hno; by eapply list_elem_of_lookup_2).
      by apply installing_other.
Qed.

(** Wherever the writes of commit() are cut, recovery yields the old file
    system or the new one. *)
Lemma crash_cut dc :
  d `suffix_of` dc → dc `suffix_of` commit_disk lg bs vs h d →
  replayable st dc ∧
  ((∀ w, home st w → disk_block (replay st dc) w = disk_block d w) ∨
   (∀ w, home st w → disk_block (replay st dc) w = disk_block (commit_disk lg bs vs h d) w)).
Proof.
  intros Hd Hc. destruct crash_n as (Hn & _ & _).
  unfold commit_disk in Hc. apply suffix_cons_cases in Hc as [->|Hc].
  { fold (commit_disk lg bs vs h d).
    assert (E : disk_block (commit_disk lg bs vs h d) st = h0) by (unfold commit_disk; simpl; by rewrite Z.eqb_refl).
    destruct (replay_empty (commit_disk lg bs vs h d)) as [H1 H2]; rewrite ?E.
    - apply h0_len. - apply h0_n. - split; [done|]. by right. }
  destruct (decide (((st, h1) :: (writes (slot lg) vs n ++ d)) `suffix_of` dc)) as [Hd'|Hd'].
  { destruct (writes_cut _ _ _ _ _ Hd' Hc) as (j & Hj & ->).
    destruct (replay_installing j Hj) as [H1 H2]. split; [done|]. by right. }
  assert (Hc' : dc `suffix_of` (writes (slot lg) vs n ++ d)).
  { destruct (suffix_weak_total _ _ _ (suffix_app_r ((st, h1) :: (writes (slot lg) vs n ++ d)) _ _ ltac:(reflexivity)) Hc) as [H|H]; [done|].
    apply suffix_cons_cases in H as [->|H]; [|done]. by destruct Hd'. }
  destruct (writes_cut _ _ _ _ _ Hd Hc') as (j & Hj & ->).
  assert (Hst : ∀ i, (i < j)%nat → slot lg i ≠ st) by (intros; unfold slot; lia).
  destruct (replay_empty (writes (slot lg) vs j ++ d)) as [H1 H2]; rewrite ?writes_miss by done; [done..|].
  split; [done|]. left. intros w Hw. rewrite H2 by done. apply writes_miss.
  intros i Hi. apply home_ne; [done|lia].
Qed.
End crash.
