(* ===== verification/LogTheorems.v ===== *)
(** The theorems about the redo log, with the transaction they are
    instantiated on. *)

From S2P Require Import Prelude Riscv Kstate Sched Machine Bytes Bio BioSpec BioOps Log LogSpec LogCrash.

(** C6: commit() is atomic with respect to power failures.  From a state whose
    log holds the blocks [bs] with cached contents [vs], commit() returns with
    those contents on disk and every other file-system block unchanged; and
    for every point at which its sequence of disk writes can be cut, booting
    from what is then on the disk and running initlog() returns normally and
    leaves either the file system from before the commit or the one after. *)
Theorem commit_crash_safe s me sb bs vs :
  let lg := io_log (k_io s) in
  let d := io_disk (k_io s) in
  let cs := cells (k_bufs s) in
  let st := lg_start lg in
  ring_ok (k_bufs s) → cache_ok cs d → quiet_cache cs → ready s me → tx_ok lg cs bs vs → bs ≠ [] →
  length (bview cs d st) = BNAT → length (disk_block d st) = BNAT → hdr_n (disk_block d st) = 0 →
  sb_logstart sb = st → 0 ≤ sb_nlog sb < 2147483648 →
  ∃ s', commit s = Ok tt s' ∧ lg_n (io_log (k_io s')) = 0 ∧
    let d' := io_disk (k_io s') in
    (∀ i b, bs !! i = Some b → disk_block d' b = vs !!! i) ∧
    (∀ w, home st w → w ∉ bs → disk_block d' w = disk_block d w) ∧
    (∀ dc, d `suffix_of` dc → dc `suffix_of` d' →
       ∀ me' t, booted me' dc t →
       ∃ t', initlog ROOTDEV sb t = Ok tt t' ∧
         ((∀ w, home st w → disk_block (io_disk (k_io t')) w = disk_block d w) ∨
          (∀ w, home st w → disk_block (io_disk (k_io t')) w = disk_block d' w))).
Proof.
  intros lg d cs st R C Q Rd T Hbs Hvl Hdl Hdn Hsb Hnl.
  assert (K : copying me s lg d cs s) by (split; [by apply io_at_refl|done|done]).
  destruct (commit_ok me s lg d cs s bs vs K T Hbs) as (cs' & s' & E & [A' C' Q']).
  fold st in A'. exists s'. rewrite (ia_log A'), (ia_disk A'). split; [done|]. split; [done|]. cbv zeta. split_and!.
  - intros i b. by eapply commit_disk_logged.
  - intros w. by eapply commit_disk_other.
  - intros dc Hd Hc me' t B. destruct (crash_cut lg cs bs vs _ d T Hvl Hdn Hdl dc Hd Hc) as [Rp Hr].
    pose proof (lg_range _ (tx_geo _ _ _ _ T)) as Hst. fold lg st in Hst, Rp, Hr.
    destruct (initlog_ok me' dc t sb B) as (t' & Et & Ed & _); rewrite ?Hsb; [lia..|done|].
    exists t'. split; [done|]. rewrite Ed, Hsb. exact Hr.
Qed.

(** ** A transaction of one block *)

(** The buffers as binit() links them: head, 29, 28, ..., 0. *)
Definition ring_buf (x : buf) (i : nat) : buf :=
  set_prev (if decide (i = 29)%nat then 30%nat else S i)
    (set_next (if decide (i = 0)%nat then 30%nat else (i - 1)%nat) x).
Definition ring_bufs (xs : list buf) : list buf :=
  imap (λ i x, ring_buf x i) xs ++ [set_next 29%nat (set_prev 0%nat buf0)].

Definition block_seven : list Z := replicate 1024 7.
Definition tx_cells : list buf := released 50 1 block_seven :: replicate 29 buf0.
Definition tx_log : log := Log 2 30 0 true 1 1 (50 :: replicate 29 0).
Definition st_tx : kstate :=
  KState 0 ∅ mm0 (IO (ring_bufs tx_cells) [] tx_log sb0) (replicate 50 inode_free)
    (file_rw :: replicate 99 file_free) (replicate 30 vma_unused) ∅
    (running [Some 0%nat] :: replicate 63 proc0) 2 (Some 1%nat) 0.

Lemma ring_tx : ring_ok (k_bufs st_tx).
Proof.
  exists (reverse (upto NBUF)). split; [done|apply reverse_Permutation|vm_compute; by repeat split..].
Qed.

Lemma cells_tx : cells (k_bufs st_tx) = tx_cells.
Proof. vm_compute. done. Qed.

Lemma tx_cells_inv i x :
  tx_cells !! i = Some x → (i = 0%nat ∧ x = released 50 1 block_seven) ∨ x = buf0.
Proof.
  destruct i as [|i]; [intros [= <-]; by left|]. intros H. right.
  change (replicate 29 buf0 !! i = Some x) in H. by apply lookup_replicate_1 in H as [-> _].
Qed.

Lemma cache_tx : cache_ok tx_cells [].
Proof.
  split.
  - done.
  - intros i j x y bno [[-> ->]| ->]%tx_cells_inv [[-> ->]| ->]%tx_cells_inv [? ?] [? ?]; done.
  - intros i x [[-> ->]| ->]%tx_cells_inv; done.
  - intros i x [[-> ->]| ->]%tx_cells_inv; done.
Qed.

Lemma quiet_tx : quiet_cache tx_cells.
Proof.
  split.
  - intros i x [[-> ->]| ->]%tx_cells_inv; done.
  - by exists 1%nat, buf0.
Qed.

Lemma ready_tx : ready st_tx (running [Some 0%nat]).
Proof. by split. Qed.

Lemma tx_ok_tx : tx_ok tx_log tx_cells [50] [block_seven].
Proof.
  split; [by split|done|done|apply NoDup_singleton| |done|].
  - intros b ->%list_elem_of_singleton. change LOGSIZE with 30. simpl. lia.
  - constructor; [|constructor]. exists 0%nat, 1. split; [done|lia].
Qed.

Lemma commit_crash_safe_witness :
  ∃ s', commit st_tx = Ok tt s' ∧ disk_block (io_disk (k_io s')) 50 = block_seven.
Proof.
  destruct (commit_crash_safe st_tx (running [Some 0%nat]) sb0 [50] [block_seven]) as (s' & E & _ & H & _).
  - apply ring_tx.
  - rewrite cells_tx. apply cache_tx.
  - rewrite cells_tx. apply quiet_tx.
  - apply ready_tx.
  - rewrite cells_tx. apply tx_ok_tx.
  - done.
  - rewrite cells_tx. vm_compute. done.
  - vm_compute. done.
  - vm_compute. done.
  - done.
  - simpl. lia.
  - exists s'. split; [exact E|]. exact (H 0%nat 50 eq_refl).
Defined.
