(* ===== verification/Frame.v ===== *)
(** Frame reasoning on code that may stop: [keeps f m] says that whenever [m]
    returns, the part [f] of the state is what it was.  The lemmas follow the
    structure of the code and are collected in the hint database [keeps]. *)

From S2P Require Import Prelude Riscv Kstate Sched Bytes Bio Log.

Definition keeps {X A} (f : kstate → X) (m : K A) : Prop :=
  ∀ s a s', m s = Ok a s' → f s' = f s.

Create HintDb keeps discriminated.

Section rules.
Context {X : Type} (f : kstate → X).

Lemma keeps_ret {A} (a : A) : keeps f (mret a : K A).
Proof. by intros s a' s' [= <- <-]. Qed.
Lemma keeps_skip : keeps f skip.
Proof. by intros s a' s' [= <- <-]. Qed.
Lemma keeps_bind {A B} (m : K A) (k : A → K B) :
  keeps f m → (∀ a, keeps f (k a)) → keeps f (m ≫= k).
Proof. intros Hm Hk s b s' (a & s1 & E1 & E2)%bind_inv. rewrite (Hk _ _ _ _ E2). by eapply Hm. Qed.
Lemma keeps_gets {A} (g : kstate → A) : keeps f (gets g).
Proof. by intros s a' s' [= <- <-]. Qed.
Lemma keeps_fail {A} e : keeps f (fail e : K A).
Proof. by intros s a' s' [=]. Qed.
Lemma keeps_panic {A} e : keeps f (panic e : K A).
Proof. by intros s a' s' [=]. Qed.
Lemma keeps_modify (g : kstate → kstate) : (∀ s, f (g s) = f s) → keeps f (modify g).
Proof. by intros H s a' s' [= <- <-]. Qed.
Lemma keeps_when (c : bool) (m : K unit) : keeps f m → keeps f (when c m).
Proof. destruct c; [done|]. intros _. apply keeps_skip. Qed.
Lemma keeps_forM {A} (l : list A) (body : A → K unit) :
  (∀ x, keeps f (body x)) → keeps f (forM l body).
Proof.
  intros H. induction l as [|x l IH]; simpl; [apply keeps_ret|]. by apply keeps_bind.
Qed.
Lemma keeps_if {A} (c : bool) (m1 m2 : K A) : keeps f m1 → keeps f m2 → keeps f (if c then m1 else m2).
Proof. by destruct c. Qed.
Lemma keeps_dec {A} (P : Prop) `{Decision P} (m1 m2 : K A) :
  keeps f m1 → keeps f m2 → keeps f (if decide P then m1 else m2).
Proof. by case_decide. Qed.
Lemma keeps_option {A B} (o : option B) (m1 : B → K A) (m2 : K A) :
  (∀ b, keeps f (m1 b)) → keeps f m2 → keeps f (match o with Some b => m1 b | None => m2 end).
Proof. by destruct o. Qed.
Lemma keeps_deref {A} (tbl : kstate → list A) p : keeps f (deref tbl p).
Proof.
  unfold deref. destruct p as [i|]; [|apply keeps_fail]. apply keeps_bind; [apply keeps_gets|].
  intros l. destruct (l !! i); [apply keeps_ret|apply keeps_fail].
Qed.
Lemma keeps_assign {A} (tbl : kstate → list A) set_tbl p g :
  (∀ l s, f (set_tbl l s) = f s) → keeps f (assign tbl set_tbl p g).
Proof.
  intros H. unfold assign. apply keeps_bind; [apply keeps_deref|]. intros x.
  destruct p; [|apply keeps_skip]. apply keeps_modify. intros. apply H.
Qed.
End rules.

#[export] Hint Resolve keeps_ret keeps_skip keeps_gets keeps_fail keeps_panic keeps_when keeps_forM
  keeps_if keeps_dec keeps_option keeps_deref : keeps.
#[export] Hint Extern 1 (keeps _ (_ ≫= _)) => apply keeps_bind; [|intro] : keeps.
#[export] Hint Extern 1 (keeps _ (when _ _)) => apply keeps_when : keeps.
#[export] Hint Extern 1 (keeps _ (forM _ _)) => apply keeps_forM; intro : keeps.
#[export] Hint Extern 1 (keeps _ (modify _)) => apply keeps_modify; intros; reflexivity : keeps.
#[export] Hint Extern 1 (keeps _ (assign _ _ _ _)) => apply keeps_assign; intros; reflexivity : keeps.

(** [keeps_tac]: unfold nothing, follow the structure. *)
Ltac keeps_tac := typeclasses eauto 30 with keeps.

(** ** The ways code can stop: [errs P m] says that every error of [m] is in [P] *)

Definition errs {A} (P : kerr → Prop) (m : K A) : Prop := ∀ s e s', m s = Err e s' → P e.

Section errs.
Context (P : kerr → Prop).

Lemma errs_ret {A} (a : A) : errs P (mret a : K A).
Proof. by intros s e s' [=]. Qed.
Lemma errs_skip : errs P skip.
Proof. by intros s e s' [=]. Qed.
Lemma errs_gets {A} (g : kstate → A) : errs P (gets g).
Proof. by intros s e s' [=]. Qed.
Lemma errs_modify (g : kstate → kstate) : errs P (modify g).
Proof. by intros s e s' [=]. Qed.
Lemma errs_fail {A} e : P e → errs P (fail e : K A).
Proof. by intros H s e' s' [= <- <-]. Qed.
Lemma errs_bind {A B} (m : K A) (k : A → K B) :
  errs P m → (∀ a, errs P (k a)) → errs P (m ≫= k).
Proof.
  intros Hm Hk s e s' E. unfold mbind, M_bind in E. destruct (m s) as [a s1|e1 s1] eqn:E1.
  - by eapply Hk.
  - injection E as <- <-. by eapply Hm.
Qed.
Lemma errs_when (c : bool) (m : K unit) : errs P m → errs P (when c m).
Proof. destruct c; [done|]. intros _. apply errs_skip. Qed.
Lemma errs_if {A} (c : bool) (m1 m2 : K A) : errs P m1 → errs P m2 → errs P (if c then m1 else m2).
Proof. by destruct c. Qed.
Lemma errs_dec {A} (Q : Prop) `{Decision Q} (m1 m2 : K A) :
  errs P m1 → errs P m2 → errs P (if decide Q then m1 else m2).
Proof. by case_decide. Qed.
Lemma errs_option {A B} (o : option B) (m1 : B → K A) (m2 : K A) :
  (∀ b, errs P (m1 b)) → errs P m2 → errs P (match o with Some b => m1 b | None => m2 end).
Proof. by destruct o. Qed.
Lemma errs_deref {A} (tbl : kstate → list A) p : (∀ a, P (EFault a)) → errs P (deref tbl p).
Proof.
  intros H. unfold deref. destruct p as [i|]; [|by apply errs_fail]. apply errs_bind; [apply errs_gets|].
  intros l. destruct (l !! i); [apply errs_ret|by apply errs_fail].
Qed.
Lemma errs_assign {A} (tbl : kstate → list A) set_tbl p g :
  (∀ a, P (EFault a)) → errs P (assign tbl set_tbl p g).
Proof.
  intros H. unfold assign. apply errs_bind; [by apply errs_deref|]. intros x.
  destruct p; [apply errs_modify|apply errs_skip].
Qed.
End errs.

(** [errs_tac]: follow the structure of the code, discharging the conditions on
    its errors by discrimination. *)
Ltac errs_tac :=
  repeat first
    [ apply errs_ret | apply errs_skip | apply errs_gets | apply errs_modify
    | apply errs_bind; [|intro] | apply errs_when | apply errs_if | apply errs_dec | apply errs_option; [intro|]
    | apply errs_deref; intros; discriminate | apply errs_assign; intros; discriminate
    | apply errs_fail; discriminate ].

(** ** The log is changed by the log only *)

Definition the_log (s : kstate) : log := io_log (k_io s).

Lemma keeps_acquire l : keeps the_log (acquire l).
Proof. unfold acquire. keeps_tac. Qed.
Lemma keeps_release l : keeps the_log (release l).
Proof. unfold release. keeps_tac. Qed.
#[export] Hint Resolve keeps_acquire keeps_release : keeps.

Lemma keeps_myproc : keeps the_log myproc.
Proof. unfold myproc. keeps_tac. Qed.
Lemma keeps_buf_at b : keeps the_log (buf_at b).
Proof. unfold buf_at. keeps_tac. Qed.
Lemma keeps_upd_buf b g : keeps the_log (upd_buf b g).
Proof. unfold upd_buf. keeps_tac. Qed.
Lemma keeps_proc_at i : keeps the_log (proc_at i).
Proof. unfold proc_at. keeps_tac. Qed.
Lemma keeps_upd_proc i g : keeps the_log (upd_proc i g).
Proof. unfold upd_proc. keeps_tac. Qed.
#[export] Hint Resolve keeps_myproc keeps_buf_at keeps_upd_buf keeps_proc_at keeps_upd_proc : keeps.

Lemma keeps_wakeup c : keeps the_log (wakeup c).
Proof. unfold wakeup. keeps_tac. Qed.
Lemma keeps_sched {A} : keeps the_log (sched : K A).
Proof. unfold sched, holding. keeps_tac. Qed.
#[export] Hint Resolve keeps_wakeup keeps_sched : keeps.
Lemma keeps_sleep {A} c l : keeps the_log (sleep c l : K A).
Proof. unfold sleep. keeps_tac. Qed.
#[export] Hint Resolve keeps_sleep : keeps.

Lemma keeps_bacquire b : keeps the_log (bacquire b).
Proof. unfold bacquire, acquiresleep. keeps_tac. Qed.
Lemma keeps_bholding b : keeps the_log (bholding b).
Proof. unfold bholding, holdingsleep. keeps_tac. Qed.
Lemma keeps_brelease b : keeps the_log (brelease b).
Proof. unfold brelease, releasesleep. keeps_tac. Qed.
Lemma keeps_virtio b w : keeps the_log (virtio_disk_rw b w).
Proof. unfold virtio_disk_rw, may_sleep, upd_io. keeps_tac. Qed.
Lemma keeps_cached fuel dev bno b : keeps the_log (bget_cached fuel dev bno b).
Proof. revert b. induction fuel; intros b; cbn [bget_cached]; keeps_tac. Qed.
Lemma keeps_unused fuel b : keeps the_log (bget_unused fuel b).
Proof. revert b. induction fuel; intros b; cbn [bget_unused]; keeps_tac. Qed.
#[export] Hint Resolve keeps_bacquire keeps_bholding keeps_brelease keeps_virtio keeps_cached keeps_unused : keeps.

Lemma keeps_bget dev bno : keeps the_log (bget dev bno).
Proof. unfold bget. keeps_tac. Qed.
#[export] Hint Resolve keeps_bget : keeps.
Lemma keeps_bread dev bno : keeps the_log (bread dev bno).
Proof. unfold bread. keeps_tac. Qed.
Lemma keeps_bwrite b : keeps the_log (bwrite b).
Proof. unfold bwrite. keeps_tac. Qed.
Lemma keeps_brelse b : keeps the_log (brelse b).
Proof. unfold brelse, link_front. keeps_tac. Qed.
Lemma keeps_bpin b : keeps the_log (bpin b).
Proof. unfold bpin. keeps_tac. Qed.
Lemma keeps_bunpin b : keeps the_log (bunpin b).
Proof. unfold bunpin. keeps_tac. Qed.
#[export] Hint Resolve keeps_bread keeps_bwrite keeps_brelse keeps_bpin keeps_bunpin : keeps.

Lemma keeps_get_log : keeps the_log get_log.
Proof. unfold get_log. keeps_tac. Qed.
#[export] Hint Resolve keeps_get_log : keeps.
Lemma keeps_lh_block i : keeps the_log (lh_block i).
Proof. unfold lh_block. keeps_tac. Qed.
Lemma keeps_copy a b : keeps the_log (copy_block a b).
Proof. unfold copy_block. keeps_tac. Qed.
#[export] Hint Resolve keeps_lh_block keeps_copy : keeps.

Lemma keeps_write_head : keeps the_log write_head.
Proof. unfold write_head. keeps_tac. Qed.
Lemma keeps_write_log : keeps the_log write_log.
Proof. unfold write_log. keeps_tac. Qed.
Lemma keeps_install r : keeps the_log (install_trans r).
Proof. unfold install_trans. keeps_tac. Qed.
#[export] Hint Resolve keeps_write_head keeps_write_log keeps_install : keeps.
