(* ===== verification/LogReserve.v ===== *)
(** Log space reservation: begin_op() admits an operation only when the log has
    room for all the blocks the admitted operations may still write.

    The steps of concurrent file-system operations are interleaved by
    [fs_step]; next to the kernel state it counts, for each operation between
    its begin_op() and end_op(), the blocks it has passed to log_write(). *)

From S2P Require Import Prelude Riscv Kstate Sched Machine Bytes Bio BioSpec BioOps Log LogTheorems Frame.

(** ** What the log operations do to the log *)

(** sleep() does not return to its caller within a run. *)
Definition never {A} (m : K A) : Prop := ∀ s a s', m s = Ok a s' → False.

Lemma never_bind {A B} (m : K A) (k : A → K B) : (∀ a, never (k a)) → never (m ≫= k).
Proof. intros H s b s' (a & s1 & _ & E)%bind_inv. by eapply H. Qed.

Lemma never_sched {A} : never (sched : K A).
Proof.
  unfold sched. apply never_bind. intros p. apply never_bind. intros [|]; simpl; [|by intros ? ? ? [=]].
  apply never_bind. intros h. case_match; [by intros ? ? ? [=]|].
  apply never_bind. intros x. case_match; by intros ? ? ? [=].
Qed.

Lemma never_sleep {A} c l : never (sleep c l : K A).
Proof. unfold sleep. do 5 (apply never_bind; intros _ || intro). apply never_sched. Qed.

Lemma begin_op_inv s s' :
  begin_op s = Ok tt s' →
  let l := the_log s in
  lg_n l + (lg_outstanding l + 1) * MAXOPBLOCKS ≤ LOGSIZE ∧
  the_log s' = set_outstanding (lg_outstanding l + 1) l.
Proof.
  intros ([] & s1 & E1%keeps_acquire & E)%bind_inv l. apply bind_inv in E as (l' & s2 & [= <- <-] & E).
  change (io_log (k_io s1)) with (the_log s1) in E. rewrite E1 in E. fold l in E.
  destruct (lg_committing l); [by apply never_sleep in E|].
  destruct (Z.ltb_spec LOGSIZE (lg_n l + (lg_outstanding l + 1) * MAXOPBLOCKS)) as [|Hle];
    [by apply never_sleep in E|].
  split; [done|]. apply bind_inv in E as ([] & s2 & [= <-] & E%keeps_release). rewrite E.
  unfold the_log at 1. cbn. change (io_log (k_io s1)) with (the_log s1). by rewrite E1.
Qed.

Lemma log_write_inv b s s' :
  log_write b s = Ok tt s' →
  let l := the_log s in
  let l' := the_log s' in
  lg_outstanding l' = lg_outstanding l ∧ lg_size l' = lg_size l ∧ lg_committing l' = lg_committing l ∧
  lg_n l ≤ lg_n l' ≤ lg_n l + 1.
Proof.
  intros ([] & s1 & E1%keeps_acquire & E)%bind_inv. apply bind_inv in E as (l' & s2 & [= <- <-] & E).
  change (io_log (k_io s1)) with (the_log s1) in E. rewrite E1 in E. set (l := the_log s) in *.
  destruct (_ || _); [done|]. destruct (_ <? 1); [done|].
  apply bind_inv in E as (x & s2 & E2%keeps_buf_at & E).
  apply bind_inv in E as ([] & s3 & E3 & E).
  unfold set_lh_block in E3. apply bind_inv in E3 as (v & s4 & E4%keeps_lh_block & E3).
  injection E3 as <-.
  apply bind_inv in E as ([] & s5 & E5 & E%keeps_release). rewrite E.
  set (i := find_logged _ _ _) in *. set (s3 := set_io _ s4) in *.
  assert (E3 : the_log s3 = set_lblock (<[i := s32 (b_blockno x)]> (lg_block l)) l).
  { unfold s3, the_log. cbn. change (io_log (k_io s4)) with (the_log s4). by rewrite E4, E2, E1. }
  destruct (Z.of_nat i =? lg_n l); simpl in E5.
  - apply bind_inv in E5 as ([] & s6 & E6%keeps_bpin & [= <-]).
    change (the_log (set_io _ s6)) with (set_n (lg_n (the_log s6) + 1) (the_log s6)).
    rewrite E6, E3. simpl. split_and!; (done || lia).
  - injection E5 as <-. rewrite E3. simpl. split_and!; (done || lia).
Qed.

Lemma commit_inv s s' :
  commit s = Ok tt s' → the_log s' = if 0 <? lg_n (the_log s) then set_n 0 (the_log s) else the_log s.
Proof.
  intros (l & s1 & [= <- <-] & E)%bind_inv. change (io_log (k_io s)) with (the_log s) in E.
  destruct (0 <? lg_n (the_log s)); simpl in E; [|by injection E as <-].
  apply bind_inv in E as ([] & s1 & E1%keeps_write_log & E).
  apply bind_inv in E as ([] & s2 & E2%keeps_write_head & E).
  apply bind_inv in E as ([] & s3 & E3%keeps_install & E).
  apply bind_inv in E as ([] & s4 & [= <-] & E%keeps_write_head). rewrite E.
  change (the_log (set_io _ s3)) with (set_n 0 (the_log s3)). by rewrite E3, E2, E1.
Qed.

Lemma end_op_inv s s' :
  end_op s = Ok tt s' →
  let l := the_log s in
  let l' := the_log s' in
  lg_committing l = false ∧ lg_outstanding l' = lg_outstanding l - 1 ∧ lg_size l' = lg_size l ∧
  lg_n l' = if (lg_outstanding l - 1 =? 0) && (0 <? lg_n l) then 0 else lg_n l.
Proof.
  intros ([] & s1 & E1%keeps_acquire & E)%bind_inv. set (l := the_log s) in *.
  apply bind_inv in E as ([] & s2 & [= <-] & E).
  apply bind_inv in E as (l1 & s2 & [= <- <-] & E). cbn -[LOGSIZE] in E.
  set (s2 := set_io _ s1) in E.
  assert (E2 : the_log s2 = set_outstanding (lg_outstanding l - 1) l) by (unfold s2, the_log; cbn; by rewrite <- E1).
  change (io_log (k_io s1)) with (the_log s1) in E. rewrite E1 in E. cbn in E. fold l in E.
  destruct (lg_committing l) eqn:Ec; [done|]. intros l'. split; [done|].
  apply bind_inv in E as (dc & s3 & E3 & E).
  apply bind_inv in E as ([] & s4 & E4%keeps_release & E).
  destruct (lg_outstanding l - 1 =? 0) eqn:Eo; cbn [andb].
  - apply bind_inv in E3 as ([] & s5 & [= <-] & [= <- <-]). simpl in E.
    apply bind_inv in E as ([] & s6 & E6%commit_inv & E).
    apply bind_inv in E as ([] & s7 & E7%keeps_acquire & E).
    apply bind_inv in E as ([] & s8 & [= <-] & E).
    apply bind_inv in E as ([] & s9 & E9%keeps_wakeup & E%keeps_release).
    subst l'. rewrite E, E9.
    change (the_log (set_io _ s7)) with (set_committing false (the_log s7)). rewrite E7, E6, E4.
    change (the_log (set_io _ s2)) with (set_committing true (the_log s2)). rewrite E2. simpl.
    rewrite Eo. by destruct (0 <? lg_n l).
  - apply bind_inv in E3 as ([] & s5 & E5%keeps_wakeup & [= <- <-]). simpl in E. injection E as <-.
    subst l'. rewrite E4, E5, E2, Eo. done.
Qed.

(** ** Interleaved file-system operations *)

(** The second component counts the log_write() calls of each operation in
    progress.  Everything else the kernel does leaves the log alone. *)
Inductive fs_step : kstate * list Z → kstate * list Z → Prop :=
| fs_begin s s' us : begin_op s = Ok tt s' → fs_step (s, us) (s', 0 :: us)
| fs_log s s' us i u b :
    us !! i = Some u → u < MAXOPBLOCKS → log_write b s = Ok tt s' → fs_step (s, us) (s', <[i := u + 1]> us)
| fs_end s s' us i u : us !! i = Some u → end_op s = Ok tt s' → fs_step (s, us) (s', delete i us)
| fs_other s s' us : the_log s' = the_log s → fs_step (s, us) (s', us).

(** The blocks the operations in progress may still write. *)
Fixpoint reserved (us : list Z) : Z :=
  match us with
  | [] => 0
  | u :: us => (MAXOPBLOCKS - u) + reserved us
  end.

Record log_inv (c : kstate * list Z) : Prop := {
  li_ops : lg_outstanding (the_log c.1) = Z.of_nat (length c.2);
  li_used : Forall (λ u, 0 ≤ u ≤ MAXOPBLOCKS) c.2;
  li_n : 0 ≤ lg_n (the_log c.1);
  li_room : lg_n (the_log c.1) + reserved c.2 ≤ LOGSIZE;
}.

Lemma reserved_range us :
  Forall (λ u, 0 ≤ u ≤ MAXOPBLOCKS) us → 0 ≤ reserved us ≤ MAXOPBLOCKS * Z.of_nat (length us).
Proof.
  induction 1 as [|u us Hu _ IH]; cbn [reserved length]; [lia|].
  change MAXOPBLOCKS with 10 in *. lia.
Qed.

Lemma reserved_insert us i u v :
  us !! i = Some u → reserved (<[i := v]> us) = reserved us + u - v.
Proof.
  revert i. induction us as [|w us IH]; intros [|i] H; simpl in *; try done.
  - injection H as ->. lia.
  - rewrite (IH _ H). lia.
Qed.

Lemma reserved_delete us i u :
  us !! i = Some u → reserved (delete i us) = reserved us - (MAXOPBLOCKS - u).
Proof.
  revert i. induction us as [|w us IH]; intros [|i] H; simpl in *; try done.
  - injection H as ->. lia.
  - rewrite (IH _ H). lia.
Qed.

Lemma fs_step_inv c c' : fs_step c c' → log_inv c → log_inv c'.
Proof.
  intros St [Ho Hu Hn Hr]. destruct St as [s s' us E|s s' us i u b Hi Hlt E|s s' us i u Hi E|s s' us E];
    cbn [fst snd] in *.
  - apply begin_op_inv in E as [Hg El]. pose proof (reserved_range us Hu) as Hrr.
    split; cbn [fst snd reserved length]; rewrite ?El; cbn [lg_n lg_outstanding set_outstanding].
    + lia.
    + constructor; [by change MAXOPBLOCKS with 10|done].
    + done.
    + change MAXOPBLOCKS with 10 in *. lia.
  - apply log_write_inv in E as (E1 & _ & _ & E4).
    pose proof (Forall_lookup_1 _ _ _ _ Hu Hi) as Hui. simpl in Hui.
    split; cbn [fst snd]; rewrite ?length_insert.
    + lia.
    + apply Forall_insert; [done|lia].
    + lia.
    + rewrite (reserved_insert _ _ _ _ Hi). lia.
  - apply end_op_inv in E as (_ & E2 & _ & E4).
    pose proof (Forall_lookup_1 _ _ _ _ Hu Hi) as Hui. simpl in Hui.
    pose proof (lookup_lt_Some _ _ _ Hi) as Hl.
    assert (Hn' : 0 ≤ lg_n (the_log s') ≤ lg_n (the_log s)) by (rewrite E4; case_match; lia).
    split; cbn [fst snd]; rewrite ?length_delete by done.
    + lia.
    + by apply Forall_delete.
    + lia.
    + rewrite (reserved_delete _ _ _ Hi). lia.
  - split; cbn [fst snd]; by rewrite ?E.
Qed.

Lemma fs_reach_inv c c' : rtc fs_step c c' → log_inv c → log_inv c'.
Proof. induction 1; eauto using fs_step_inv. Qed.

(** C8: The reservation made by begin_op() is an invariant of every interleaving
    of file-system operations: the blocks already in the log plus all the
    blocks the operations in progress may still write never exceed LOGSIZE,
    and log.outstanding is the number of those operations. *)
Theorem log_reservation s0 s us :
  lg_n (the_log s0) = 0 → lg_outstanding (the_log s0) = 0 → rtc fs_step (s0, []) (s, us) →
  lg_outstanding (the_log s) = Z.of_nat (length us) ∧
  0 ≤ lg_n (the_log s) ∧ lg_n (the_log s) + reserved us ≤ LOGSIZE.
Proof.
  intros Hn Ho Hr. destruct (fs_reach_inv _ _ Hr) as [H1 _ H3 H4]; [|done].
  split; cbn [fst snd]; rewrite ?Hn, ?Ho; [done|constructor|lia|done].
Qed.

(** The errors log_write() can end in once there is room. *)
Lemma errs_after_room b l s s' :
  (if lg_outstanding l <? 1 then panic "log_write outside of trans"
   else
     x ← buf_at b;
     set_lh_block (find_logged (Z.to_nat (lg_n l)) (lg_block l) (b_blockno x)) (b_blockno x);;
     when (Z.of_nat (find_logged (Z.to_nat (lg_n l)) (lg_block l) (b_blockno x)) =? lg_n l)
       (bpin b;; upd_log (λ l : log, set_n (lg_n l + 1) l));;
     release L_log) s ≠ Err (EPanic "too big a transaction") s'.
Proof.
  match goal with |- ?m s ≠ _ => assert (H : errs (λ e, e ≠ EPanic "too big a transaction") m) end.
  { unfold set_lh_block, lh_block, get_log, bpin, buf_at, upd_buf, acquire, release, upd_log, upd_io.
    errs_tac. }
  intros E. by destruct (H _ _ _ E).
Qed.

(** Whether log_write() finds the log full. *)
Lemma log_write_full b s :
  L_log ∉ k_held s →
  (∃ s', log_write b s = Err (EPanic "too big a transaction") s') ↔
  LOGSIZE ≤ lg_n (the_log s) ∨ lg_size (the_log s) - 1 ≤ lg_n (the_log s).
Proof.
  intros Hh. unfold log_write. rewrite (bind_ok _ _ _ _ _ (acquire_run _ _ Hh)).
  unfold get_log. rewrite bind_gets. change (io_log (k_io _)) with (the_log s).
  destruct (_ || _) eqn:E.
  - split; [intros _|intros _; by eexists]. apply orb_true_iff in E as [E%Z.leb_le|E%Z.leb_le]; auto.
  - apply orb_false_iff in E as [E1%Z.leb_gt E2%Z.leb_gt]. split; [|lia]. intros [s' Es]. by apply errs_after_room in Es.
Qed.

(** An operation that may still write a block finds fewer than LOGSIZE blocks
    in the log. *)
Lemma reach_room s0 s us i u :
  lg_n (the_log s0) = 0 → lg_outstanding (the_log s0) = 0 → rtc fs_step (s0, []) (s, us) →
  us !! i = Some u → u < MAXOPBLOCKS → lg_n (the_log s) < LOGSIZE.
Proof.
  intros Hn Ho Hr Hi Hu. destruct (fs_reach_inv _ _ Hr) as [H1 H2 H3 H4]; cbn [fst snd] in *.
  { split; cbn [fst snd]; rewrite ?Hn, ?Ho; [done|constructor|lia|done]. }
  pose proof (reserved_delete _ _ _ Hi) as Hd. pose proof (reserved_range _ (Forall_delete _ _ i H2)). lia.
Qed.

(** ** Runs *)

Lemma begin_op_run s :
  L_log ∉ k_held s → lg_committing (the_log s) = false →
  lg_n (the_log s) + (lg_outstanding (the_log s) + 1) * MAXOPBLOCKS ≤ LOGSIZE →
  begin_op s = Ok tt (set_io (set_log (set_outstanding (lg_outstanding (the_log s) + 1) (the_log s)) (k_io s)) s).
Proof.
  intros Hh Hc Hr. unfold begin_op, get_log. run_acquire. run. cbn [k_io set_held].
  change (io_log (k_io s)) with (the_log s). rewrite Hc. rewrite (proj2 (Z.ltb_ge _ _)) by done.
  unfold upd_log, upd_io. run. run_release. do 2 f_equal.
  unfold set_held, set_io. cbn [k_held]. by rewrite held_restore.
Qed.

(** A machine at rest whose on-disk log has [nlog] blocks, header included. *)
Definition st_fs (nlog : Z) : kstate :=
  KState 0 ∅ mm0 (IO (ring_bufs (replicate 30 buf0)) [] (Log 2 nlog 0 false 1 0 (replicate 30 0)) sb0)
    (replicate 50 inode_free) (file_rw :: replicate 99 file_free) (replicate 30 vma_unused) ∅
    (running [Some 0%nat] :: replicate 63 proc0) 2 (Some 1%nat) 0.

Lemma st_fs_begin nlog :
  rtc fs_step (st_fs nlog, [])
    (set_io (set_log (Log 2 nlog 1 false 1 0 (replicate 30 0)) (k_io (st_fs nlog))) (st_fs nlog), [0]).
Proof. apply rtc_once, fs_begin. by apply begin_op_run. Qed.

Lemma log_reservation_witness :
  ∃ s, rtc fs_step (st_fs 30, []) (s, [0]) ∧
    lg_outstanding (the_log s) = 1 ∧ lg_n (the_log s) + reserved [0] ≤ LOGSIZE.
Proof.
  eexists. split; [apply st_fs_begin|].
  destruct (log_reservation (st_fs 30) _ [0] eq_refl eq_refl (st_fs_begin 30)) as (H1 & _ & H3).
  split; [exact H1|exact H3].
Defined.

(** An operation that writes [n] blocks from [bno] on, one at a time. *)
Definition log_blocks (bno n : nat) : K unit :=
  forM (seq bno n) (λ k, b ← bread ROOTDEV (Z.of_nat k); log_write b;; brelse b).

Lemma log_blocks_steps n bno s s' us i u :
  us !! i = Some u → u + Z.of_nat n ≤ MAXOPBLOCKS → log_blocks bno n s = Ok tt s' →
  rtc fs_step (s, us) (s', <[i := u + Z.of_nat n]> us).
Proof.
  revert bno s us u. induction n as [|n IH]; intros bno s us u Hi Hn.
  { unfold log_blocks. cbn. intros [= <-]. rewrite Z.add_0_r, list_insert_id by done. apply rtc_refl. }
  unfold log_blocks. cbn [seq forM]. intros ([] & s1 & E & E')%bind_inv.
  apply bind_inv in E as (b & s2 & E1%keeps_bread & E). apply bind_inv in E as ([] & s3 & E2 & E3%keeps_brelse).
  eapply rtc_l; [by apply fs_other|]. eapply rtc_l; [eapply fs_log; [done|lia|done]|].
  eapply rtc_l; [by apply fs_other|].
  assert (Hl : (i < length us)%nat) by by eapply lookup_lt_Some.
  specialize (IH (S bno) s1 (<[i := u + 1]> us) (u + 1)).
  rewrite list_insert_insert_eq in IH. replace (u + Z.of_nat (S n)) with (u + 1 + Z.of_nat n) by lia.
  apply IH; [by apply list_lookup_insert_eq|lia|exact E'].
Qed.

(** Three operations that are admitted together, the first two of which write
    all the blocks they may and the third all but one. *)
Definition fill_log : K unit :=
  begin_op;; begin_op;; begin_op;;
  log_blocks 50 10;; log_blocks 60 10;; log_blocks 70 9.

Lemma fill_log_reach nlog s :
  fill_log (st_fs nlog) = Ok tt s → rtc fs_step (st_fs nlog, []) (s, [10; 10; 9]).
Proof.
  intros ([] & s1 & E1 & E)%bind_inv. apply bind_inv in E as ([] & s2 & E2 & E). apply bind_inv in E as ([] & s3 & E3 & E).
  apply bind_inv in E as ([] & s4 & E4 & E). apply bind_inv in E as ([] & s5 & E5 & E6).
  eapply rtc_l; [by apply fs_begin|]. eapply rtc_l; [by apply fs_begin|]. eapply rtc_l; [by apply fs_begin|].
  etrans; [by apply (log_blocks_steps 10 50 s3 s4 _ 0 0)|].
  etrans; [by apply (log_blocks_steps 10 60 s4 s5 _ 1 0)|].
  change [10; 10; 9] with (<[2%nat := 0 + Z.of_nat 9]> [10; 10; 0]). by apply (log_blocks_steps 9 70 s5 s).
Qed.

Lemma st_fs_full :
  ∃ s, rtc fs_step (st_fs LOGSIZE, []) (s, [10; 10; 9]) ∧ lg_n (the_log s) = LOGSIZE - 1 ∧
    lg_size (the_log s) = LOGSIZE ∧ L_log ∉ k_held s.
Proof.
  assert (H : match fill_log (st_fs LOGSIZE) with
             | Ok _ s => (lg_n (the_log s) =? LOGSIZE - 1) && (lg_size (the_log s) =? LOGSIZE) && bool_decide (L_log ∉ k_held s)
             | _ => false end = true) by (vm_compute; reflexivity).
  destruct (fill_log (st_fs LOGSIZE)) as [[] s|] eqn:E; [|done]. exists s.
  apply andb_true_iff in H as [[H1%Z.eqb_eq H2%Z.eqb_eq]%andb_true_iff H3%bool_decide_eq_true].
  split_and!; [by apply fill_log_reach|done..].
Qed.

(** C38: The log that mkfs lays out is one block short of what begin_op()
    reserves.  Take any interleaving of file-system operations, and one of them
    that has written fewer than MAXOPBLOCKS blocks.  With LOGSIZE blocks in all
    for header and log, which is what mkfs gives the file system, its next
    log_write() panics, whatever the block is, exactly when LOGSIZE - 1 blocks
    are in the log (and three operations can get there).  With one block more
    it never panics for lack of room. *)
Theorem log_one_block_short s0 s us i u b :
  lg_n (the_log s0) = 0 → lg_outstanding (the_log s0) = 0 → rtc fs_step (s0, []) (s, us) →
  us !! i = Some u → u < MAXOPBLOCKS → L_log ∉ k_held s →
  (lg_size (the_log s) = LOGSIZE →
     (∃ s', log_write b s = Err (EPanic "too big a transaction") s') ↔ lg_n (the_log s) = LOGSIZE - 1) ∧
  (LOGSIZE < lg_size (the_log s) → ¬ ∃ s', log_write b s = Err (EPanic "too big a transaction") s').
Proof.
  intros Hn Ho Hr Hi Hu Hh. pose proof (reach_room s0 s us i u Hn Ho Hr Hi Hu).
  rewrite (log_write_full b s Hh). split; lia.
Qed.

Lemma log_one_block_short_witness :
  ∃ s, rtc fs_step (st_fs LOGSIZE, []) (s, [10; 10; 9]) ∧ lg_n (the_log s) = LOGSIZE - 1 ∧
    ∀ b, ∃ s', log_write b s = Err (EPanic "too big a transaction") s'.
Proof.
  destruct st_fs_full as (s & Hr & Hn & Hs & Hh). exists s. split; [exact Hr|]. split; [exact Hn|]. intros b.
  apply (log_one_block_short (st_fs LOGSIZE) s [10; 10; 9] 2 9 b eq_refl eq_refl Hr eq_refl); [by vm_compute|exact Hh|exact Hs|exact Hn].
Defined.
