(* ===== verification/VmaExit.v ===== *)
(** exit() and the memory areas of the process: the loop that unmaps them
    terminates and gives everything back; an empty area makes it spin. *)

From S2P Require Import Prelude Riscv Kstate Mem Kalloc Vm PageTable VmSpec Machine VmMap MemTheorems Sched Bio Log Fs Pipe File Vma VmaSpec VmaUnmap Proc.

Section exit.
Context {L : Layout} {LO : LayoutOk L}.

(** All pages of an area can be dropped without writing to its file. *)
Record droppable (s : kstate) (root : Z) (fl : list Z) (x : vma) (pgs : list (option Z)) : Prop := {
  dr_len : v_addre x - v_addri x = 4096 * Z.of_nat (length pgs);
  dr_max : Z.of_nat (length pgs) ≤ 524288;
  dr_page : ∀ j o, pgs !! j = Some o →
    quiet s root fl (v_flag x =? MAP_SHARED) (v_addri x + 4096 * Z.of_nat j) o;
}.

(** How many of the areas map file [f]. *)
Definition users (f : nat) (xs : list vma) : Z :=
  Z.of_nat (length (filter (λ x, v_ofile x = Some f) xs)).

(** Every area maps an open file that counts the areas among its references. *)
Definition files_ok (ft : list file) (xs : list vma) : Prop :=
  ∀ x, x ∈ xs → ∃ f fx, v_ofile x = Some f ∧ ft !! f = Some fx ∧ users f xs ≤ f_ref fx < 2147483648.

Lemma users_cons f x xs : users f (x :: xs) = (if decide (v_ofile x = Some f) then 1 else 0) + users f xs.
Proof. unfold users. rewrite filter_cons. case_decide; cbn [length]; lia. Qed.

Lemma users_nonneg f xs : 0 ≤ users f xs.
Proof. unfold users. lia. Qed.

Lemma files_ok_drop ft x xs f :
  files_ok ft (x :: xs) → v_ofile x = Some f →
  files_ok (alter (λ g, set_fref (f_ref g - 1) g) f ft) xs.
Proof.
  intros Hf Hx y Hy. destruct (Hf y) as (g & gx & H1 & H2 & H3); [by right|].
  rewrite users_cons in H3. pose proof (users_nonneg g xs).
  destruct (decide (g = f)) as [->|Hne].
  - exists f. eexists. split; [done|]. rewrite list_lookup_alter_eq, H2. split; [done|].
    rewrite decide_True in H3 by done. cbn. lia.
  - exists g, gx. rewrite list_lookup_alter_ne by done. split; [done|]. split; [done|].
    rewrite decide_False in H3 by congruence. lia.
Qed.
(** The state between two iterations. *)
Record unmapping (s : kstate) (p : nat) (root : Z) (fl : list Z) (l : list nat) (xs : list vma)
    (pgss : list (list (option Z))) : Prop := {
  um_vmas : vmas_ok s p l xs;
  um_cur : k_cur s = p;
  um_root : (p_pagetable <$> k_procs s !! p) = Some root;
  um_space : as_ok s root fl;
  um_drop : Forall2 (droppable s root fl) xs pgss;
  um_frames : NoDup (frames (concat pgss));
  um_files : files_ok (k_ftable s) xs;
  um_held : (L_proc p ∉ k_held s) ∧ (L_vmas ∉ k_held s) ∧ (L_kmem ∉ k_held s);
}.

Lemma frames_app a b : frames (a ++ b) = frames a ++ frames b.
Proof. unfold frames. apply omap_app. Qed.

Lemma elem_of_frames_concat pgss i qs j q :
  pgss !! i = Some qs → qs !! j = Some (Some q) → q ∈ frames (concat pgss).
Proof.
  revert i. induction pgss as [|ps pgss IH]; intros [|i] Hi Hj; cbn in *; try done;
    rewrite frames_app, elem_of_app.
  - injection Hi as ->. left. by eapply elem_of_frames.
  - right. by eapply IH.
Qed.

(** One iteration removes the first area. *)
Lemma unmap_first s p root fl a l x xs pgs pgss :
  unmapping s p root fl (a :: l) (x :: xs) (pgs :: pgss) →
  ∃ s' f,
    munmap (v_addri x) (u64 (v_addre x - v_addri x)) s = Ok 0 s' ∧ v_ofile x = Some f ∧
    unmapping s' p root (reverse (frames pgs) ++ fl) l xs pgss ∧ k_held s' = k_held s ∧
    k_ftable s' = alter (λ g, set_fref (f_ref g - 1) g) f (k_ftable s) ∧
    cleared s s' root (v_addri x) (v_addre x).
Proof.
  intros [O Hcur Hroot A Hd Hnd Hfs (Hh1 & Hh2 & Hh3)].
  destruct (k_procs s !! p) as [me|] eqn:Hme; [|done]. injection Hroot as Hroot.
  apply Forall2_cons in Hd as [D Hd]. pose proof (dr_len _ _ _ _ _ D) as Dl.
  assert (Ha : areas (x :: xs) !! 0%nat = Some (v_addri x, v_addre x)) by done.
  destruct (ordered_lookup _ _ _ _ _ (vo_areas _ _ _ _ O) Ha) as (B1 & B2 & B3 & B4 & B5).
  unfold START_ADDRESS, TOP_ADDRESS in B1, B3. assert (HM : MAXVA = 274877906944) by done.
  rewrite u64_small by lia.
  destruct (Hfs x) as (f & fx & F1 & F2 & F3); [by left|].
  rewrite users_cons, decide_True in F3 by done. pose proof (users_nonneg f xs).
  assert (Hpg : PGROUNDUP (v_addre x - v_addri x) = v_addre x - v_addri x).
  { rewrite pgroundup_eq by lia. rewrite Dl. dlia. }
  cbn [concat] in Hnd. rewrite frames_app in Hnd. apply NoDup_app in Hnd as (N1 & N2 & N3).
  subst p. destruct (munmap_ok s me (a :: l) (x :: xs) 0 a x f fx root fl pgs (v_addri x) (v_addre x - v_addri x))
    as (s' & l' & xs' & E & O' & _ & A' & C' & Eh & Ef & Ec & Ep & Hdel & Hq); try done.
  { split; [lia|]. lia. } { lia. } { by rewrite Hpg. } { apply D. } { apply D. }
  destruct Hdel as [-> ->]; [rewrite Hpg; lia|done|]. cbn [delete list_delete] in O'.
  rewrite Hpg in *. replace (v_addri x + (v_addre x - v_addri x)) with (v_addre x) in * by lia.
  rewrite Z.eqb_refl in Ef. exists s', f. split_and!; [done|done| |done|done|done].
  split; [exact O'|done|done|done| |done| |by rewrite Eh].
  - apply Forall2_same_length_lookup_2; [by eapply Forall2_length|].
    intros i y qs Hy Hqs. pose proof (Forall2_lookup_lr _ _ _ _ _ _ Hd Hy Hqs) as [E1 E2 E3].
    split; [done|done|]. intros j o Hj.
    assert (Hay : areas (x :: xs) !! S i = Some (v_addri y, v_addre y)).
    { change (areas xs !! i = Some (v_addri y, v_addre y)). unfold areas. by rewrite list_lookup_fmap, Hy. }
    destruct (ordered_lookup _ _ _ _ _ (vo_areas _ _ _ _ O) Hay) as (Y1 & Y2 & Y3 & _).
    unfold START_ADDRESS, TOP_ADDRESS in Y1, Y3. apply lookup_lt_Some in Hj as Hjl.
    apply Hq; [lia| | |by apply E3].
    + intros Hr. apply (ordered_disjoint _ _ 0 (S i) _ _ _ _ (v_addri y + 4096 * Z.of_nat j)
        (vo_areas _ _ _ _ O) Ha Hay); [done|lia|lia].
    + intros q -> Hin. eapply N2; [exact Hin|]. apply (elem_of_frames_concat pgss i qs j q); done.
  - rewrite Ef. by eapply files_ok_drop.
Qed.

Lemma exit_unmap_ok : ∀ l s p root fl xs pgss fuel,
  unmapping s p root fl l xs pgss → (length l ≤ fuel)%nat →
  ∃ s' fl',
    exit_unmap fuel p s = Ok tt s' ∧ unmapping s' p root fl' [] [] [] ∧
    fl' = reverse (frames (concat pgss)) ++ fl ∧ k_held s' = k_held s ∧
    (∀ f fx, k_ftable s !! f = Some fx → k_ftable s' !! f = Some (set_fref (f_ref fx - users f xs) fx)) ∧
    (∀ va, 0 ≤ va < MAXVA →
       (Exists (λ x, v_addri x ≤ va < v_addre x) xs → has (leaf (view s') root va) PTE_V = false) ∧
       (¬ Exists (λ x, v_addri x ≤ va < v_addre x) xs → leaf (view s') root va = leaf (view s) root va)).
Proof.
  induction l as [|a l IH]; intros s p root fl xs pgss fuel U Hf.
  - pose proof (um_vmas _ _ _ _ _ _ _ U) as O. destruct (vo_proc _ _ _ _ O) as (me & Hme & Hnv & Hc).
    assert (xs = []) as -> by (by destruct xs).
    assert (pgss = []) as -> by exact (Forall2_nil_inv_l _ _ (um_drop _ _ _ _ _ _ _ U)).
    exists s, fl. split; [|split_and!; [done|done|done| |]].
    + destruct fuel; simpl; rewrite (bind_ok _ _ _ _ _ (proc_at_run p s me Hme)), Hnv; done.
    + intros f fx Hfx. rewrite Hfx. unfold users. cbn. rewrite Z.sub_0_r. by destruct fx.
    + intros va _. split; [by intros ?%Exists_nil|done].
  - destruct fuel as [|fuel]; [simpl in Hf; lia|]. cbn [length] in Hf.
    pose proof (um_vmas _ _ _ _ _ _ _ U) as O. destruct (vo_proc _ _ _ _ O) as (me & Hme & Hnv & Hc).
    destruct xs as [|x xs]; [done|].
    destruct pgss as [|pgs pgss]; [pose proof (Forall2_nil_inv_r _ _ (um_drop _ _ _ _ _ _ _ U)); done|].
    assert (Hv : p_vmas me = Some a ∧ k_vmas s !! a = Some x) by (destruct Hc as (? & ? & ?); done).
    destruct Hv as [Hv1 Hv2].
    destruct (unmap_first _ _ _ _ _ _ _ _ _ _ U) as (s1 & f & E1 & Hof & U1 & Eh1 & Ef1 & Cl1).
    destruct (IH s1 p root _ xs pgss fuel U1 ltac:(lia)) as (s2 & fl2 & E2 & U2 & -> & Eh2 & Ef2 & Lf2).
    exists s2. eexists. split; [|split_and!; [exact U2| | | |]].
    + cbn [exit_unmap]. rewrite (bind_ok _ _ _ _ _ (proc_at_run p s me Hme)), Hnv.
      rewrite (proj2 (Z.ltb_lt _ _)) by (cbn [length]; lia). cbn [negb].
      rewrite Hv1, (bind_ok _ _ _ _ _ (vma_at_run a s x Hv2)), (bind_ok _ _ _ _ _ E1). exact E2.
    + cbn [concat]. by rewrite frames_app, reverse_app, app_assoc.
    + congruence.
    + intros g gx Hg. rewrite users_cons. destruct (decide (g = f)) as [->|Hne].
      * rewrite decide_True by done. erewrite Ef2; [|by rewrite Ef1, list_lookup_alter_eq, Hg].
        unfold set_fref. cbn. do 2 f_equal. lia.
      * rewrite decide_False by congruence. rewrite Z.add_0_l. apply Ef2.
        by rewrite Ef1, list_lookup_alter_ne.
    + intros va Hva. destruct Cl1 as [Cl1 Cl1']. destruct (Lf2 va Hva) as [L2 L2'].
      rewrite Exists_cons. destruct (decide (Exists (λ x, v_addri x ≤ va < v_addre x) xs)) as [Hin|Hout].
      * split; [intros _; by apply L2|tauto].
      * rewrite L2' by done. split; [intros [?|?]; [by apply Cl1|done]|].
        intros Hn. apply Cl1'; [done|tauto].
Qed.

(** C28: The loop with which exit() unmaps the memory areas terminates, after one
    munmap() per area, when every page of the areas is mapped and needs no
    write-back (it is clean or its area is private), or is not mapped but the
    page table that would hold its entry exists (else the munmap() faults): no
    area is left, all their frames are back on the free list, no address of an area
    is mapped any more and no other translation has changed, and every file
    has lost one reference per area that mapped it. *)
Theorem exit_unmaps_all s root fl l xs pgss :
  let p := k_cur s in
  unmapping s p root fl l xs pgss →
  ∃ s', exit_unmap (length l) p s = Ok tt s' ∧
    vmas_ok s' p [] [] ∧ as_ok s' root (reverse (frames (concat pgss)) ++ fl) ∧
    (∀ va x, x ∈ xs → v_addri x ≤ va < v_addre x → has (leaf (view s') root va) PTE_V = false) ∧
    (∀ va, 0 ≤ va < MAXVA → (∀ x, x ∈ xs → ¬ (v_addri x ≤ va < v_addre x)) →
       leaf (view s') root va = leaf (view s) root va) ∧
    (∀ f fx, k_ftable s !! f = Some fx → k_ftable s' !! f = Some (set_fref (f_ref fx - users f xs) fx)).
Proof.
  intros p U. destruct (exit_unmap_ok l s p root fl xs pgss (length l) U) as (s' & fl' & E & U' & -> & _ & Ef & Lf);
    [done|].
  exists s'. split; [done|]. split_and!; [apply U'|apply U'| | |done].
  - intros va x Hx Hr. pose proof (um_vmas _ _ _ _ _ _ _ U) as O.
    assert (HM : MAXVA = 274877906944) by done. pose proof Hx as (i & Hi)%list_elem_of_lookup_1.
    assert (Hai : areas xs !! i = Some (v_addri x, v_addre x)) by (unfold areas; by rewrite list_lookup_fmap, Hi).
    destruct (ordered_lookup _ _ _ _ _ (vo_areas _ _ _ _ O) Hai) as (Y1 & Y2 & Y3 & _).
    unfold START_ADDRESS, TOP_ADDRESS in Y1, Y3. apply (Lf va); [lia|]. apply Exists_exists. eauto.
  - intros va Hva Hno. apply (Lf va Hva). rewrite Exists_exists. intros (x & Hx & Hr). by apply (Hno x).
Qed.

(** C39: An empty area, which mmap() creates for length 0, makes exit() of a
    process whose only area it is spin: the
    munmap() of its zero bytes finds no area and returns -1, so p->nvma never
    reaches 0, however many iterations are made. *)
Theorem exit_spins_on_empty_area s me a x fuel :
  let p := k_cur s in
  k_procs s !! p = Some me → p_nvma me = 1 → p_vmas me = Some a → k_vmas s !! a = Some x →
  v_addri x = v_addre x → 0 ≤ v_addri x < 2 ^ 63 → L_proc p ∉ k_held s →
  exit_unmap fuel p s = Err EFuel s.
Proof.
  intros p Hme Hn Hv Hx He Hr Hh.
  assert (E : munmap (v_addri x) (u64 (v_addre x - v_addri x)) s = Ok (-1) s).
  { rewrite He, Z.sub_diag. change (u64 0) with 0. unfold munmap, myproc. run. fold p. run_acquire. kst.
    run_at. rewrite Hn, Hv. change (Z.to_nat 1) with 1%nat. cbn [munmap_find].
    rewrite !bind_assoc. erewrite bind_ok; [|apply vma_at_run; exact Hx].
    assert (vma_contains x (v_addre x) 0 = false) as ->.
    { unfold vma_contains. rewrite Z.ltb_irrefl. by rewrite andb_false_r. }
    run. run_release. run. kst. rewrite held_restore by done. unfold mret, M_ret. by destruct s. }
  induction fuel as [|fuel IH]; cbn [exit_unmap]; rewrite (bind_ok _ _ _ _ _ (proc_at_run p s me Hme)), Hn;
    change (negb (0 <? 1)) with false; cbv iota; [done|].
  rewrite Hv, (bind_ok _ _ _ _ _ (vma_at_run a s x Hx)), (bind_ok _ _ _ _ _ E). exact IH.
Qed.

End exit.

(** ** Instances *)

(** A process with a two-page area whose first page is mapped. *)
Lemma exit_unmaps_all_witness :
  ∃ s s', exit_unmap 1 0 s = Ok tt s' ∧ vmas_ok s' 0 [] [] ∧
    has (leaf (view s) root0 START_ADDRESS) PTE_V = true ∧
    has (leaf (view s') root0 START_ADDRESS) PTE_V = false.
Proof.
  destruct (mapped_state st1) as (s & fl & Es & A & U & Hd & Q1 & _); [done|apply free_list1|done..|].
  destruct (exit_unmaps_all s root0 fl [0%nat] [vma_two] [[Some FRAME; None]]) as (s' & E & O & _ & C & _).
  - split; try (rewrite Es; done); try done.
    + rewrite Es. by apply (vmas_ok1 _ _ 8192).
    + constructor; [|constructor]. split; [done|done|].
      intros [|[|j]] o Ho; [|injection Ho as <-; apply Q1|done].
      injection Ho as <-. change (v_addri vma_two + 4096 * Z.of_nat 0) with START_ADDRESS.
      split; [exact U|]. by rewrite Hd.
    + apply NoDup_singleton.
    + intros x ->%list_elem_of_singleton. exists 0%nat. eexists. split; [done|]. rewrite Es.
      split; [done|]. by vm_compute.
  - rewrite Es in E, O. exists s, s'. split_and!; [by rewrite Es|done|apply U|].
    apply (C _ vma_two); [by left|by vm_compute].
Defined.

(** mmap() of no bytes, then exit(). *)
Definition mmap_zero_ok : bool :=
  match mmap 0 PROT_READ MAP_PRIVATE 0 st0 with
  | Ok r s =>
      match k_procs s !! 0%nat, k_vmas s !! 0%nat with
      | Some me, Some x =>
          (r =? START_ADDRESS) && (p_nvma me =? 1) && bool_decide (p_vmas me = Some 0%nat) &&
          (v_addri x =? v_addre x) && (v_addri x =? START_ADDRESS) &&
          bool_decide (k_cur s = 0%nat) && bool_decide (k_held s = ∅)
      | _, _ => false
      end
  | _ => false
  end.

Lemma exit_spins_on_empty_area_witness :
  ∃ s, mmap 0 PROT_READ MAP_PRIVATE 0 st0 = Ok START_ADDRESS s ∧
    ∀ fuel, exit_unmap fuel 0 s = Err EFuel s.
Proof.
  assert (H : mmap_zero_ok = true) by (vm_compute; reflexivity). unfold mmap_zero_ok in H.
  destruct (mmap 0 PROT_READ MAP_PRIVATE 0 st0) as [r s|]; [|done].
  destruct (k_procs s !! 0%nat) as [me|] eqn:Hme; [|done].
  destruct (k_vmas s !! 0%nat) as [x|] eqn:Hx; [|done].
  rewrite !andb_true_iff, !Z.eqb_eq, !bool_decide_eq_true in H.
  destruct H as ((((((-> & Hn) & Hv) & He) & Hs) & Hc) & Hh).
  exists s. split; [done|]. intros fuel.
  pose proof (exit_spins_on_empty_area s me 0 x fuel) as T. cbv zeta in T. rewrite Hc in T.
  apply T; try done; [by rewrite Hs|]. rewrite Hh. set_solver.
Defined.
