(* ===== verification/Ulib.v ===== *)
(** user/ulib.c and user/printf.c: the string functions and formatted output
    of user programs, on character arrays and byte streams.

    As for the kernel's strings, a character array is the list of its bytes and
    reading past the end of the list reads the terminating NUL; char is
    unsigned on this target. *)

From S2P Require Import Prelude Bytes.

(** ** user/ulib.c *)

(** The bytes strcpy() stores, the terminating NUL included. *)
Fixpoint strcpy_bytes (t : list Z) : list Z :=
  match t with
  | [] => [0]
  | c :: t => if c =? 0 then [0] else c :: strcpy_bytes t
  end.

Definition strcpy (s t : list Z) : list Z :=
  strcpy_bytes t ++ drop (length (strcpy_bytes t)) s.

Fixpoint strcmp (p q : list Z) : Z :=
  match p with
  | [] => 0 - hd 0 q
  | c :: p' =>
      if negb (c =? 0) && (c =? hd 0 q) then strcmp p' (tl q)
      else c - hd 0 q
  end.

(** [None] is the null pointer; otherwise the offset of the byte found. *)
Fixpoint strchr (s : list Z) (c : Z) : option nat :=
  match s with
  | [] => None
  | x :: s =>
      if x =? 0 then None
      else if x =? c then Some O
      else S <$> strchr s c
  end.

(** gets(buf, max): the bytes stored before the NUL and the rest of the input.
    [input] is what read(0, &c, 1) delivers one byte at a time; [max - 1]
    bytes are stored at most. *)
Fixpoint gets_loop (room : nat) (input : list Z) : list Z * list Z :=
  match room, input with
  | O, _ => ([], input)
  | _, [] => ([], [])
  | S room, c :: input =>
      if (c =? 10) || (c =? 13) then ([c], input)
      else let '(line, rest) := gets_loop room input in (c :: line, rest)
  end.

Definition gets (buf : list Z) (max : Z) (input : list Z) : list Z * list Z :=
  let '(line, rest) := gets_loop (Z.to_nat (max - 1)) input in
  (line ++ [0] ++ drop (S (length line)) buf, rest).

Definition is_digit (c : Z) : bool := (48 <=? c) && (c <=? 57).

Fixpoint atoi_loop (n : Z) (s : list Z) : Z :=
  match s with
  | [] => n
  | c :: s => if is_digit c then atoi_loop (s32 (n * 10 + c - 48)) s else n
  end.
Definition atoi (s : list Z) : Z := atoi_loop 0 s.

(** memcmp(s1, s2, n) *)
Fixpoint memcmp (p1 p2 : list Z) (n : nat) : Z :=
  match n with
  | O => 0
  | S n =>
      if negb (hd 0 p1 =? hd 0 p2) then hd 0 p1 - hd 0 p2
      else memcmp (tl p1) (tl p2) n
  end.

(** ** user/printf.c *)

(** digits[] = "0123456789ABCDEF" *)
Definition digits : list Z :=
  [48; 49; 50; 51; 52; 53; 54; 55; 56; 57; 65; 66; 67; 68; 69; 70].
Definition digit (tbl : list Z) (i : Z) : Z := tbl !!! Z.to_nat i.

(** do { buf[i++] = digits[x % base]; } while((x /= base) != 0);
    [x] is a 32-bit unsigned int, so 32 iterations are enough for every base
    from 2 on. *)
Fixpoint digit_loop (fuel : nat) (tbl : list Z) (x base : Z) : list Z :=
  match fuel with
  | O => []
  | S fuel =>
      digit tbl (x mod base) ::
      (if x / base =? 0 then [] else digit_loop fuel tbl (x / base) base)
  end.

(** The characters printint() emits, the first one first. *)
Definition printint_with (tbl : list Z) (xx base : Z) (sgn : bool) : list Z :=
  let neg := sgn && (xx <? 0) in
  let x := if neg then u32 (- xx) else u32 xx in
  let buf := digit_loop 32 tbl x base ++ (if neg then [45] else []) in
  reverse buf.
Definition printint (xx base : Z) (sgn : bool) : list Z := printint_with digits xx base sgn.

(** for (i = 0; i < 16; i++, x <<= 4) putc(fd, digits[x >> 60]); *)
Fixpoint ptr_digits (n : nat) (tbl : list Z) (x : Z) : list Z :=
  match n with
  | O => []
  | S n => digit tbl (Z.shiftr x 60) :: ptr_digits n tbl (u64 (Z.shiftl x 4))
  end.
Definition printptr_with (tbl : list Z) (x : Z) : list Z := 48 :: 120 :: ptr_digits 16 tbl x.
Definition printptr (x : Z) : list Z := printptr_with digits x.

(** The variable arguments with their C types: int, uint, uint64, or a string
    ([None] is the null pointer). *)
Inductive varg : Type :=
| AInt (v : Z)
| AUint (v : Z)
| AUlong (v : Z)
| AStr (s : option (list Z)).

(** The types va_arg() is asked for. *)
Inductive vty : Type := TInt | TUint | TUlong | TStr.
#[export] Instance vty_eq_dec : EqDecision vty.
Proof. solve_decision. Defined.

(** The register that holds an integer argument: 32-bit integers, unsigned ones
    too, are sign-extended by the caller. *)
Definition arg_reg (a : varg) : option Z :=
  match a with
  | AInt v | AUint v => Some (u64 (s32 v))
  | AUlong v => Some (u64 v)
  | AStr _ => None
  end.

(** va_arg() on the machine: the bits of the register that the type has. *)
Definition va_machine (t : vty) (a : varg) : option Z :=
  r ← arg_reg a;
  match t with TInt => Some (s32 r) | TUint => Some (u32 r) | TUlong => Some r | TStr => None end.

(** va_arg() as the C standard defines it: the argument has the type asked for. *)
Definition va_standard (t : vty) (a : varg) : option Z :=
  match t, a with
  | TInt, AInt v | TUint, AUint v | TUlong, AUlong v => Some v
  | _, _ => None
  end.

(** "(null)" *)
Definition null_str : list Z := [40; 110; 117; 108; 108; 41].

Section printf.
Context (va : vty → varg → option Z).

(** va_arg(ap, t) and va_arg(ap, char* ) with the arguments left *)
Definition va_arg (t : vty) (ap : list varg) : option (Z * list varg) :=
  match ap with a :: ap => v ← va t a; Some (v, ap) | [] => None end.
Definition va_str (ap : list varg) : option (option (list Z) * list varg) :=
  match ap with AStr s :: ap => Some (s, ap) | _ => None end.

(** One conversion: the characters it prints and the arguments left; [None]
    when va_arg() has no argument.  The parameter of printint() is an int, that
    of putc() a char. *)
Definition conversion (c : Z) (ap : list varg) : option (list Z * list varg) :=
  if c =? 100 (* d *) then '(v, ap) ← va_arg TInt ap; Some (printint v 10 true, ap)
  else if c =? 108 (* l *) then '(v, ap) ← va_arg TUlong ap; Some (printint (s32 v) 10 false, ap)
  else if c =? 120 (* x *) then '(v, ap) ← va_arg TInt ap; Some (printint v 16 false, ap)
  else if c =? 112 (* p *) then '(v, ap) ← va_arg TUlong ap; Some (printptr v, ap)
  else if c =? 115 (* s *) then '(s, ap) ← va_str ap; Some (cstr (default null_str s), ap)
  else if c =? 99 (* c *) then '(v, ap) ← va_arg TUint ap; Some ([u8 v], ap)
  else if c =? 37 (* % *) then Some ([c], ap)
  else Some ([37; c], ap).

(** for(i = 0; fmt[i]; i++) with the flag [state]: everything printed. *)
Fixpoint vprintf (state : bool) (fmt : list Z) (ap : list varg) : option (list Z) :=
  match fmt with
  | [] => Some []
  | c :: fmt =>
      if c =? 0 then Some []
      else if state then
        match conversion c ap with
        | Some (out, ap) => (λ rest, out ++ rest) <$> vprintf false fmt ap
        | None => None
        end
      else if c =? 37 then vprintf true fmt ap
      else (λ rest, c :: rest) <$> vprintf false fmt ap
  end.

End printf.

Definition printf (fmt : list Z) (ap : list varg) : option (list Z) := vprintf va_machine false fmt ap.

(** ** Strings *)

Lemma strchr_spec s c i :
  strchr s c = Some i →
  s !! i = Some c ∧ c ≠ 0 ∧ Forall (λ x, x ≠ c ∧ x ≠ 0) (take i s).
Proof.
  revert i. induction s as [|x s IH]; intros i; [done|]. cbn [strchr].
  destruct (Z.eqb_spec x 0) as [->|H0]; [done|].
  destruct (Z.eqb_spec x c) as [->|Hc].
  - intros [= <-]. repeat split; auto.
  - destruct (strchr s c) as [j|] eqn:E; [|done]. intros [= <-].
    destruct (IH j eq_refl) as (? & ? & ?). split_and!; auto. by constructor.
Qed.

Lemma strchr_none s c :
  strchr s c = None → Forall (λ x, x ≠ 0) s → c ∉ s.
Proof.
  induction s as [|x s IH]; intros Hn Hz; [intros []%elem_of_nil|].
  inversion Hz as [|?? Hx Hz']; subst. cbn [strchr] in Hn.
  destruct (Z.eqb_spec x 0); [done|]. destruct (Z.eqb_spec x c) as [->|Hc]; [done|].
  destruct (strchr s c) eqn:E; [done|]. intros [->|?]%elem_of_cons; [done|]. by apply IH.
Qed.

(** strcmp() is 0 exactly on equal strings. *)
Lemma strcmp_spec p q : strcmp p q = 0 ↔ cstr p = cstr q.
Proof.
  revert q. induction p as [|c p IH]; intros q; cbn [strcmp].
  - rewrite (cstr_hd q). cbn [cstr]. destruct (Z.eqb_spec (hd 0 q) 0) as [->|H]; split; try done. lia.
  - rewrite (cstr_hd q). cbn [cstr]. destruct (Z.eqb_spec c 0) as [->|Hc]; cbn [negb andb].
    + destruct (Z.eqb_spec (hd 0 q) 0) as [->|H]; split; try done. lia.
    + destruct (Z.eqb_spec c (hd 0 q)) as [->|He].
      * rewrite (IH (tl q)). destruct (Z.eqb_spec (hd 0 q) 0); [done|]. split; [by intros ->|by intros [= ->]].
      * destruct (Z.eqb_spec (hd 0 q) 0); (split; [lia|]); [done|]. by intros [= ->].
Qed.

Lemma strcpy_cstr s t : cstr (strcpy s t) = cstr t.
Proof.
  unfold strcpy. generalize (drop (length (strcpy_bytes t)) s). intros l.
  induction t as [|c t IH]; [done|]. cbn [strcpy_bytes cstr].
  destruct (Z.eqb_spec c 0) as [->|Hc]; [done|]. cbn. rewrite (proj2 (Z.eqb_neq c 0) Hc). by f_equal.
Qed.

(** ** Numerals *)

(** The value of a numeral whose first digit is the most significant one. *)
Fixpoint numeral (base acc : Z) (ds : list Z) : Z :=
  match ds with
  | [] => acc
  | d :: ds => numeral base (acc * base + d) ds
  end.

Lemma numeral_snoc base acc ds d : numeral base acc (ds ++ [d]) = numeral base acc ds * base + d.
Proof. revert acc. induction ds as [|e ds IH]; intros acc; [done|]. apply IH. Qed.

(** The digits of [x], the least significant first. *)
Fixpoint digits_of (fuel : nat) (x base : Z) : list Z :=
  match fuel with
  | O => []
  | S fuel => x mod base :: (if x / base =? 0 then [] else digits_of fuel (x / base) base)
  end.

Lemma digit_loop_of fuel tbl x base :
  digit_loop fuel tbl x base = digit tbl <$> digits_of fuel x base.
Proof.
  revert x. induction fuel as [|fuel IH]; intros x; [done|]. cbn.
  destruct (x / base =? 0); [done|]. by rewrite IH.
Qed.

Lemma digits_of_value fuel x base :
  1 < base → 0 ≤ x < base ^ Z.of_nat fuel →
  numeral base 0 (reverse (digits_of fuel x base)) = x.
Proof.
  revert x. induction fuel as [|fuel IH]; intros x Hb Hx; [cbn in *; lia|].
  cbn [digits_of]. rewrite reverse_cons, numeral_snoc.
  rewrite Nat2Z.inj_succ, Z.pow_succ_r in Hx by lia.
  assert (0 ≤ x / base < base ^ Z.of_nat fuel)
    by (split; [apply Z.div_pos; lia|apply Z.div_lt_upper_bound; lia]).
  pose proof (Z.div_mod x base ltac:(lia)) as E.
  destruct (Z.eqb_spec (x / base) 0) as [E0|]; [|rewrite IH by done; lia].
  rewrite E0 in E. cbn. lia.
Qed.

Lemma digits_of_range fuel x base :
  1 < base → Forall (λ d, 0 ≤ d < base) (digits_of fuel x base).
Proof.
  intros Hb. revert x. induction fuel as [|fuel IH]; intros x; cbn; constructor.
  - apply Z.mod_pos_bound. lia.
  - case_match; [constructor|apply IH].
Qed.

(** [n] digits are enough for a number below [base]^[n], whatever the fuel. *)
Lemma digits_of_length fuel n x base :
  1 < base → 0 ≤ x < base ^ Z.of_nat n → (0 < n)%nat → (length (digits_of fuel x base) ≤ n)%nat.
Proof.
  intros Hb. revert n x. induction fuel as [|fuel IH]; intros n x Hx Hn; cbn; [lia|].
  destruct n as [|n]; [lia|]. rewrite Nat2Z.inj_succ, Z.pow_succ_r in Hx by lia.
  assert (0 ≤ x / base < base ^ Z.of_nat n)
    by (split; [apply Z.div_pos; lia|apply Z.div_lt_upper_bound; lia]).
  destruct (Z.eqb_spec (x / base) 0); cbn; [lia|].
  destruct n as [|n]; [cbn in *; lia|]. specialize (IH (S n) (x / base)). lia.
Qed.

(** No leading zero, except for the number 0 itself. *)
Lemma digits_of_last fuel x base :
  1 < base → 0 < x < base ^ Z.of_nat fuel → ∃ d l, digits_of fuel x base = l ++ [d] ∧ 0 < d.
Proof.
  intros Hb. revert x. induction fuel as [|fuel IH]; intros x Hx; cbn [digits_of]; [cbn in *; lia|].
  rewrite Nat2Z.inj_succ, Z.pow_succ_r in Hx by lia.
  pose proof (Z.div_mod x base ltac:(lia)). pose proof (Z.div_pos x base).
  assert (x / base < base ^ Z.of_nat fuel) by (apply Z.div_lt_upper_bound; lia).
  destruct (Z.eqb_spec (x / base) 0) as [E|]; [exists (x mod base), []; split; [done|lia]|].
  destruct (IH (x / base)) as (d & l & -> & ?); [lia|]. by exists d, (x mod base :: l).
Qed.

Lemma digit_ten d : 0 ≤ d < 10 → digit digits d = 48 + d.
Proof.
  intros H. assert (d = 0 ∨ d = 1 ∨ d = 2 ∨ d = 3 ∨ d = 4 ∨ d = 5 ∨ d = 6 ∨ d = 7 ∨ d = 8 ∨ d = 9)
    as Hd by lia. by repeat destruct Hd as [->|Hd]; [..|subst d].
Qed.

Lemma numeral_ge base acc ds :
  1 < base → 0 ≤ acc → Forall (λ d, 0 ≤ d < base) ds → acc ≤ numeral base acc ds.
Proof.
  intros Hb Ha Hd. revert acc Ha. induction Hd as [|d ds Hd _ IH]; intros acc Ha; cbn; [lia|].
  transitivity (acc * base + d); [nia|]. apply IH. nia.
Qed.

(** atoi() reads decimal digits back, as long as the value is an int. *)
Lemma atoi_numeral ds acc rest :
  Forall (λ d, 0 ≤ d < 10) ds → is_digit (hd 0 rest) = false →
  0 ≤ acc → numeral 10 acc ds < 2 ^ 31 →
  atoi_loop acc ((digit digits <$> ds) ++ rest) = numeral 10 acc ds.
Proof.
  intros Hd Hr. revert acc. induction Hd as [|d ds Hd Hds IH]; intros acc Ha Hm; cbn [numeral fmap list_fmap app].
  - destruct rest as [|c rest]; [done|]. cbn in Hr |- *. by rewrite Hr.
  - pose proof (numeral_ge 10 (acc * 10 + d) ds ltac:(lia) ltac:(nia) Hds).
    cbn [numeral] in Hm. cbn [atoi_loop app]. rewrite digit_ten by done.
    assert (is_digit (48 + d) = true) as -> by (unfold is_digit; lia).
    rewrite s32_small by lia. replace (acc * 10 + (48 + d) - 48) with (acc * 10 + d) by lia.
    apply IH; lia.
Qed.

(** For every 32-bit int, printint() in base 10 with a sign emits a minus
    sign exactly for negative numbers, then decimal digits without a leading
    zero whose value is the absolute value of the number (that of INT_MIN
    included); at most 11 characters are stored, so the 16 bytes of its buffer
    are enough; and atoi() reads a printed non-negative number back. *)
Theorem printint_decimal xx :
  - 2 ^ 31 ≤ xx < 2 ^ 31 →
  ∃ ds,
    printint xx 10 true = (if xx <? 0 then [45] else []) ++ ((λ d, 48 + d) <$> ds) ∧
    Forall (λ d, 0 ≤ d < 10) ds ∧
    numeral 10 0 ds = Z.abs xx ∧
    (xx ≠ 0 → hd 0 ds ≠ 0) ∧
    (0 < length ds ≤ 10)%nat ∧
    (0 ≤ xx → ∀ rest, is_digit (hd 0 rest) = false → atoi (printint xx 10 true ++ rest) = xx).
Proof.
  intros Hxx. set (x := Z.abs xx). assert (0 ≤ x ≤ 2 ^ 31) as Hx by lia.
  exists (reverse (digits_of 32 x 10)).
  pose proof (digits_of_range 32 x 10 ltac:(lia)) as Hr.
  assert (E : printint xx 10 true =
    (if xx <? 0 then [45] else []) ++ (digit digits <$> reverse (digits_of 32 x 10))).
  { unfold printint, printint_with. cbn [andb]. rewrite digit_loop_of, reverse_app, <-fmap_reverse.
    destruct (Z.ltb_spec xx 0); rewrite u32_small by lia; [by replace (- xx) with x by lia|].
    by replace xx with x at 1 by lia. }
  assert (Ev : numeral 10 0 (reverse (digits_of 32 x 10)) = x)
    by (apply digits_of_value; [lia|]; split; [lia|]; apply (Z.le_lt_trans _ (2 ^ 31)); [lia|done]).
  assert (Hr' : Forall (λ d, 0 ≤ d < 10) (reverse (digits_of 32 x 10))) by by apply Forall_reverse.
  split_and!; try done.
  - rewrite E. f_equal. apply list_fmap_ext. intros i d Hd.
    apply digit_ten. by eapply Forall_lookup in Hr'.
  - intros Hn. destruct (digits_of_last 32 x 10) as (d & l & -> & Hd);
      [lia|split; [lia|]; apply (Z.le_lt_trans _ (2 ^ 31)); [lia|done]|].
    rewrite reverse_snoc. cbn. lia.
  - rewrite length_reverse. cbn [digits_of length]. lia.
  - rewrite length_reverse. apply digits_of_length; [lia| |lia].
    split; [lia|]. apply (Z.le_lt_trans _ (2 ^ 31)); [lia|done].
  - intros Hp rest Hrest. rewrite E. destruct (Z.ltb_spec xx 0); [lia|]. cbn [app].
    unfold atoi. rewrite atoi_numeral by (done || lia || (rewrite Ev; lia)). lia.
Qed.

Lemma printint_decimal_witness :
  ∃ ds, printint (-2147483648) 10 true = 45 :: ((λ d, 48 + d) <$> ds) ∧ numeral 10 0 ds = 2147483648.
Proof.
  destruct (printint_decimal (-2147483648)) as (ds & E & _ & V & _); [lia|].
  exists ds. split; [exact E|exact V].
Defined.

