(* ===== verification/Grep.v ===== *)
(** user/grep.c: the regular-expression matcher and the line scanner.

    The matcher is proved equivalent to a declarative semantics of its
    patterns, and the scanner to the list of the matching lines of its input,
    however the input is cut into short reads. *)

From S2P Require Import Prelude Bytes Ulib.

(** ** The matcher *)

(** do{ if(matchhere(re, text)) return 1; }
    while( *text!='\0' && ( *text++==c || c=='.'));  [mh] is matchhere(re, .). *)
Fixpoint matchstar (c : Z) (mh : list Z → bool) (text : list Z) : bool :=
  if mh text then true
  else
    match text with
    | [] => false
    | t :: text' => if negb (t =? 0) && ((t =? c) || (c =? 46)) then matchstar c mh text' else false
    end.

Fixpoint matchhere (re text : list Z) : bool :=
  match re with
  | [] => true
  | r0 :: re' =>
      if r0 =? 0 then true
      else
        match re' with
        | r1 :: re'' =>
            if r1 =? 42 then matchstar r0 (matchhere re'') text
            else if (r0 =? 36) && (r1 =? 0) then hd 0 text =? 0
            else if negb (hd 0 text =? 0) && ((r0 =? 46) || (r0 =? hd 0 text))
                 then matchhere re' (tl text)
            else false
        | [] =>
            if r0 =? 36 then hd 0 text =? 0
            else if negb (hd 0 text =? 0) && ((r0 =? 46) || (r0 =? hd 0 text))
                 then matchhere re' (tl text)
            else false
        end
  end.

(** do{ if(matchhere(re, text)) return 1; } while( *text++ != '\0'); *)
Fixpoint match_loop (re text : list Z) : bool :=
  if matchhere re text then true
  else
    match text with
    | [] => false
    | t :: text' => if t =? 0 then false else match_loop re text'
    end.

Definition match_ (re text : list Z) : bool :=
  match re with
  | r0 :: re' => if r0 =? 94 then matchhere re' text else match_loop re text
  | [] => match_loop re text
  end.

(** ** The scanner *)

(** while((q = strchr(p, '\n')) != 0){ ... p = q+1; }: the bytes written and
    the bytes from [p] on.  Every iteration consumes a byte of the buffer. *)
Fixpoint scan_lines (fuel : nat) (pattern p : list Z) : list Z * list Z :=
  match fuel with
  | O => ([], p)
  | S fuel =>
      match strchr p 10 with
      | None => ([], p)
      | Some q =>
          let line := take q p in
          let '(out, rest) := scan_lines fuel pattern (drop (S q) p) in
          ((if match_ pattern line then line ++ [10] else []) ++ out, rest)
      end
  end.

(** sizeof(buf) *)
Definition GREPBUF : nat := 1024.

(** read(fd, buf+m, want) returns the next bytes of [input], at most [want] of
    them and possibly fewer: [short] bounds the sizes of the next reads, each
    of which makes progress. *)
Definition read_some (short : list nat) (want : nat) (input : list Z) : list Z :=
  take (match short with [] => want | r :: _ => Nat.min want (S r) end) input.

(** while((n = read(fd, buf+m, sizeof(buf)-m-1)) > 0): everything grep()
    writes.  [buf] holds the [m] bytes kept from the last round.  Every
    iteration consumes a byte of the input. *)
Fixpoint grep_loop (fuel : nat) (pattern : list Z) (short : list nat) (buf input : list Z) : list Z :=
  match fuel with
  | O => []
  | S fuel =>
      let chunk := read_some short (GREPBUF - length buf - 1) input in
      match chunk with
      | [] => []
      | _ :: _ =>
          let '(out, rest) := scan_lines (S GREPBUF) pattern (buf ++ chunk) in
          out ++ grep_loop fuel pattern (tl short) rest (drop (length chunk) input)
      end
  end.

Definition grep (pattern : list Z) (short : list nat) (input : list Z) : list Z :=
  grep_loop (S (length input)) pattern short [] input.

(** ** What a pattern means *)

(** A pattern is a sequence of characters, starred characters, and possibly a
    final end-of-line mark; [.] stands for any character. *)
Inductive tok : Type :=
| TOne (c : Z)
| TStar (c : Z)
| TEnd.

Fixpoint tokens (re : list Z) : list tok :=
  match re with
  | [] => []
  | c :: re' =>
      match re' with
      | [] => if c =? 36 then [TEnd] else [TOne c]
      | d :: re'' => if d =? 42 then TStar c :: tokens re'' else TOne c :: tokens re'
      end
  end.

Definition fits (c t : Z) : Prop := c = 46 ∨ c = t.

(** [lang ts u r]: [u], followed by [r] on its line, is matched by [ts]. *)
Inductive lang : list tok → list Z → list Z → Prop :=
| lang_nil r : lang [] [] r
| lang_end : lang [TEnd] [] []
| lang_one c t ts u r : fits c t → lang ts u r → lang (TOne c :: ts) (t :: u) r
| lang_star_nil c ts u r : lang ts u r → lang (TStar c :: ts) u r
| lang_star_cons c t ts u r : fits c t → lang (TStar c :: ts) u r → lang (TStar c :: ts) (t :: u) r.
#[local] Hint Constructors lang : core.

Abbreviation nonul := (Forall (λ c : Z, c ≠ 0)).


Lemma matchstar_spec c ts mh text :
  nonul text →
  (∀ t, nonul t → (mh t = true ↔ ∃ u r, t = u ++ r ∧ lang ts u r)) →
  matchstar c mh text = true ↔ ∃ u r, text = u ++ r ∧ lang (TStar c :: ts) u r.
Proof.
  intros Hz Hmh. induction Hz as [|t text Ht Hz IH]; cbn [matchstar].
  - pose proof (Hmh [] ltac:(constructor)) as H. destruct (mh []); split; try done.
    + intros _. destruct (proj1 H eq_refl) as (u & r & E & ?). exists u, r. split; [done|auto].
    + intros (u & r & E & Hl). symmetry in E. apply app_nil in E as [-> ->].
      apply H. exists [], []. split; [done|]. by inversion Hl.
  - pose proof (Hmh (t :: text) ltac:(by constructor)) as H.
    destruct (mh (t :: text)) eqn:Em.
    + split; [|done]. intros _. destruct (proj1 H eq_refl) as (u & r & E & ?). exists u, r. split; [done|auto].
    + rewrite (proj2 (Z.eqb_neq t 0) Ht). cbn [negb andb].
      destruct ((t =? c) || (c =? 46)) eqn:Ef.
      * rewrite IH. split.
        -- intros (u & r & -> & Hl). exists (t :: u), r. split; [done|].
           apply lang_star_cons; [|done]. unfold fits. lia.
        -- intros (u & r & E & Hl). inversion Hl as [| | |????? Hl'|????? Hf Hl']; subst.
           ++ assert (false = true) as [=]. apply H. by exists u, r.
           ++ simplify_eq/=. eauto.
      * split; [done|]. intros (u & r & E & Hl). inversion Hl as [| | |????? Hl'|????? Hf Hl']; subst.
        -- apply H. by exists u, r.
        -- simplify_eq/=. unfold fits in Hf. lia.
Qed.

(** One character of the pattern against one character of the text. *)
Lemma one_spec c ts mh text :
  nonul text →
  (∀ t, nonul t → (mh t = true ↔ ∃ u r, t = u ++ r ∧ lang ts u r)) →
  (if negb (hd 0 text =? 0) && ((c =? 46) || (c =? hd 0 text)) then mh (tl text) else false) = true ↔
  ∃ u r, text = u ++ r ∧ lang (TOne c :: ts) u r.
Proof.
  intros Hz Hmh. destruct Hz as [|t text Ht Hz]; cbn [hd tl].
  - split; [done|]. intros (u & r & E & Hl). inversion Hl; subst. done.
  - rewrite (proj2 (Z.eqb_neq t 0) Ht). cbn [negb andb].
    destruct ((c =? 46) || (c =? t)) eqn:Ef.
    + rewrite Hmh by done. split.
      * intros (u & r & -> & Hl). exists (t :: u), r. split; [done|]. constructor; [|done]. unfold fits. lia.
      * intros (u & r & E & Hl). inversion Hl; simplify_eq/=. eauto.
    + split; [done|]. intros (u & r & E & Hl). inversion Hl as [| |????? Hf| |]; simplify_eq/=. unfold fits in Hf. lia.
Qed.

Lemma end_spec text :
  nonul text → (hd 0 text =? 0) = true ↔ ∃ u r, text = u ++ r ∧ lang [TEnd] u r.
Proof.
  intros Hz. split.
  - destruct Hz; cbn; [intros _; by exists [], []|lia].
  - intros (u & r & -> & Hl). by inversion Hl; subst.
Qed.

Lemma matchhere_spec re text :
  nonul re → nonul text →
  matchhere re text = true ↔ ∃ u r, text = u ++ r ∧ lang (tokens re) u r.
Proof.
  remember (length re) as n eqn:Hn. revert re Hn text.
  induction n as [n IH] using lt_wf_ind. intros re -> text Hre Hz.
  destruct Hre as [|c re Hc Hre]; [cbn; split; [intros _; by exists [], text|done]|].
  cbn [matchhere]. rewrite (proj2 (Z.eqb_neq c 0) Hc).
  destruct Hre as [|d re Hd Hre]; cbn [tokens].
  - destruct (Z.eqb_spec c 36); [by apply end_spec|].
    apply (one_spec c [] (matchhere [])); [done|]. intros t _. split; [|done]. by exists [], t.
  - destruct (Z.eqb_spec d 42).
    + apply matchstar_spec; [done|]. intros t Ht. apply (IH (length re)); cbn; auto with lia.
    + rewrite (proj2 (Z.eqb_neq d 0) Hd), andb_false_r.
      apply one_spec; [done|]. intros t Ht.
      apply (IH (length (d :: re))); cbn [length]; auto with lia.
Qed.

Lemma match_loop_spec re text :
  nonul re → nonul text →
  match_loop re text = true ↔ ∃ pre u r, text = pre ++ u ++ r ∧ lang (tokens re) u r.
Proof.
  intros Hre Hz. induction Hz as [|t text Ht Hz IH]; cbn [match_loop].
  - pose proof (matchhere_spec re [] Hre ltac:(constructor)) as H. destruct (matchhere re []); split; try done.
    + intros _. destruct (proj1 H eq_refl) as (u & r & ? & ?). by exists [], u, r.
    + intros (pre & u & r & E & Hl). symmetry in E. apply app_nil in E as [-> E]. apply H. eauto.
  - pose proof (matchhere_spec re (t :: text) Hre ltac:(by constructor)) as H.
    destruct (matchhere re (t :: text)).
    + split; [|done]. intros _. destruct (proj1 H eq_refl) as (u & r & ? & ?). by exists [], u, r.
    + rewrite (proj2 (Z.eqb_neq t 0) Ht), IH. split.
      * intros (pre & u & r & -> & Hl). by exists (t :: pre), u, r.
      * intros ([|x pre] & u & r & E & Hl); simplify_eq/=; [|by eauto].
        assert (false = true) as [=]. apply H. eauto.
Qed.

(** C36: The matcher of grep decides the language of its pattern: match()
    returns 1 exactly when some part of the line, the beginning of the line if
    the pattern starts with a caret, is a word of the pattern, where a
    character stands for itself, a dot for any character, a starred character
    for any number of copies, and a final dollar sign for the end of the
    line. *)
Theorem match_decides re text :
  nonul re → nonul text →
  match_ re text = true ↔
  ∃ pre u post,
    text = pre ++ u ++ post ∧
    match re with
    | 94 :: re' => pre = [] ∧ lang (tokens re') u post
    | _ => lang (tokens re) u post
    end.
Proof.
  intros Hre Hz. unfold match_. destruct Hre as [|c re Hc Hre].
  - rewrite match_loop_spec by done. done.
  - destruct (Z.eqb_spec c 94) as [->|Hne].
    + rewrite matchhere_spec by done. split.
      * intros (u & r & -> & ?). by exists [], u, r.
      * intros (? & u & r & -> & -> & ?). by exists u, r.
    + rewrite match_loop_spec by (try constructor; done). repeat case_match; done.
Qed.

(** "^a*b$" on "aab" *)
Lemma match_decides_witness :
  match_ [94; 97; 42; 98; 36] [97; 97; 98] = true ∧
  ∃ pre u post, [97; 97; 98] = pre ++ u ++ post ∧ pre = [] ∧ lang (tokens [97; 42; 98; 36]) u post.
Proof.
  split; [reflexivity|].
  apply (match_decides [94; 97; 42; 98; 36] [97; 97; 98]); [repeat constructor; lia..|reflexivity].
Defined.

(** ** What grep() prints *)

(** The complete lines of a text, each without its newline; what follows the
    last newline is not a line. *)
Fixpoint lines_from (cur : list Z) (input : list Z) : list (list Z) :=
  match input with
  | [] => []
  | c :: input => if c =? 10 then cur :: lines_from [] input else lines_from (cur ++ [c]) input
  end.
Definition lines : list Z → list (list Z) := lines_from [].

(** Every matching line with its newline. *)
Definition printed (pattern : list Z) (ls : list (list Z)) : list Z :=
  concat ((λ l, if match_ pattern l then l ++ [10] else []) <$> ls).

Lemma lines_from_app cur a b :
  10 ∉ a → lines_from cur (a ++ b) = lines_from (cur ++ a) b.
Proof.
  revert cur. induction a as [|c a IH]; intros cur Ha; cbn; [by rewrite app_nil_r|].
  apply not_elem_of_cons in Ha as [Hc Ha]. destruct (Z.eqb_spec c 10); [done|].
  by rewrite IH, <-app_assoc.
Qed.

Lemma take_strchr p q :
  strchr p 10 = Some q → p = take q p ++ 10 :: drop (S q) p ∧ (10 ∉ take q p).
Proof.
  intros (Hq & _ & Hf)%strchr_spec. split; [by rewrite take_drop_middle|].
  intros Hin. rewrite Forall_forall in Hf. by destruct (Hf _ Hin).
Qed.

(** One pass over the buffer prints the lines that end in it. *)
Lemma scan_lines_ok fuel pattern p out rest :
  nonul p → (length p < fuel)%nat → scan_lines fuel pattern p = (out, rest) →
  ∃ ls, out = printed pattern ls ∧ (10 ∉ rest) ∧ nonul rest ∧
    rest `suffix_of` p ∧
    ∀ more, lines (p ++ more) = ls ++ lines (rest ++ more).
Proof.
  revert p out rest. induction fuel as [|fuel IH]; intros p out rest Hz Hf; [lia|].
  cbn [scan_lines]. destruct (strchr p 10) as [q|] eqn:Eq.
  - destruct (take_strchr p q Eq) as [Ep Hnl].
    destruct (scan_lines fuel pattern (drop (S q) p)) as [out' rest'] eqn:Es. intros [= <- <-].
    assert (Hq : (q < length p)%nat) by (by apply strchr_spec in Eq as [?%lookup_lt_Some _]).
    apply IH in Es as (ls & -> & Hr & Hzr & Hl & Hmore);
      [|by apply Forall_drop|rewrite length_drop; lia].
    exists (take q p :: ls). split_and!; auto; [by trans (drop (S q) p); [|apply suffix_drop]|].
    intros more. rewrite Ep at 1. rewrite <-app_assoc. unfold lines at 1.
    rewrite lines_from_app by done. cbn. f_equal. apply Hmore.
  - intros [= <- <-]. exists []. split_and!; auto. by eapply strchr_none.
Qed.

Lemma printed_app pattern l1 l2 : printed pattern (l1 ++ l2) = printed pattern l1 ++ printed pattern l2.
Proof. unfold printed. by rewrite fmap_app, concat_app. Qed.

Lemma lines_nonl a : 10 ∉ a → lines a = [].
Proof. intros H. unfold lines. rewrite <-(app_nil_r a), lines_from_app by done. done. Qed.

(** No stretch without a newline fills the buffer. *)
Definition short_lines (input : list Z) : Prop :=
  ∀ a b c, input = a ++ b ++ c → 10 ∉ b → (length b + 1 < GREPBUF)%nat.

Lemma short_lines_suffix a b : a `suffix_of` b → short_lines b → short_lines a.
Proof.
  intros [k ->] H x y z -> Hy. apply (H (k ++ x) y z); [by rewrite <-!app_assoc|done].
Qed.

Lemma read_some_spec short want input :
  (0 < want)%nat → input ≠ [] →
  ∃ n, (0 < n ≤ want)%nat ∧ read_some short want input = take n input ∧ take n input ≠ [].
Proof.
  intros Hw Hi. unfold read_some. destruct input as [|c input]; [done|].
  destruct short as [|r short]; [exists want|exists (Nat.min want (S r))];
    (split_and!; [lia..|done|]); destruct want; [lia|done|lia|done].
Qed.

Lemma grep_loop_ok fuel pattern short buf input :
  (length input < fuel)%nat → 10 ∉ buf → nonul (buf ++ input) → short_lines (buf ++ input) →
  grep_loop fuel pattern short buf input = printed pattern (lines (buf ++ input)).
Proof.
  revert short buf input. induction fuel as [|fuel IH]; intros short buf input Hf Hb Hz Hs; [lia|].
  pose proof (Hs [] buf input eq_refl Hb) as Hlen.
  cbn [grep_loop]. destruct (decide (input = [])) as [->|Hi].
  { replace (read_some _ _ _) with (@nil Z) by (unfold read_some; by rewrite take_nil).
    by rewrite app_nil_r, lines_nonl. }
  destruct (read_some_spec short (GREPBUF - length buf - 1) input) as (n & Hn & -> & Hne); [lia|done|].
  destruct (take n input) as [|c l] eqn:El; [done|]. rewrite <-El. clear El Hne c l.
  destruct (scan_lines (S GREPBUF) pattern (buf ++ take n input)) as [out rest] eqn:Es.
  assert (Hi' : (0 < length input)%nat) by (destruct input; [done|cbn; lia]).
  assert (Ebi : buf ++ input = (buf ++ take n input) ++ drop n input)
    by by rewrite <-app_assoc, take_drop.
  rewrite Ebi in Hz, Hs |- *. apply Forall_app in Hz as [Hz1 Hz2].
  apply scan_lines_ok in Es as (ls & -> & Hr & Hzr & [k Hk] & Hmore);
    [|done|rewrite length_app, length_take; lia].
  replace (drop (length (take n input)) input) with (drop n input)
    by (rewrite length_take; destruct (decide (n ≤ length input)%nat);
        [by rewrite Nat.min_l by lia|rewrite Nat.min_r, !drop_ge by lia; done]).
  rewrite IH, Hmore, printed_app; auto.
  - rewrite length_drop. lia.
  - by apply Forall_app.
  - eapply short_lines_suffix; [|exact Hs]. rewrite Hk, <-app_assoc. by apply suffix_app_r.
Qed.

(** However the input is cut into short reads, grep() terminates and
    writes exactly the complete lines of its input that match the pattern, in
    order and each with its newline, as long as no line fills the 1024-byte
    buffer; text after the last newline is never printed. *)
Theorem grep_prints_matches pattern short input :
  nonul input → short_lines input →
  grep pattern short input = printed pattern (lines input).
Proof. intros Hz Hs. apply grep_loop_ok; [lia|by intros []%elem_of_nil|done|done]. Qed.

(** "ab\nb\nc" with pattern "a", read one byte and then two bytes at a time *)
Lemma grep_prints_matches_witness : grep [97] [0%nat; 1%nat; 1%nat] [97; 98; 10; 98; 10; 99] = [97; 98; 10].
Proof.
  apply (grep_prints_matches [97] [0%nat; 1%nat; 1%nat] [97; 98; 10; 98; 10; 99]).
  - repeat constructor; lia.
  - intros a b c E _. apply (f_equal length) in E. rewrite !length_app in E. cbn in E. unfold GREPBUF. lia.
Defined.
