(* ===== verification/Spinlock.v ===== *)
(** kernel/spinlock.c on several harts.

    The other files see one hart and treat acquire() and release() as atomic
    (Kstate).  Here the harts interleave between any two memory accesses of
    acquire(), holding() and release(), on a sequentially consistent memory:
    the fences of the source are what makes that assumption hold on the
    hardware. *)

From S2P Require Import Prelude.

(** ** The state *)

(** struct cpu: its lock nesting, and the SIE bit of sstatus. *)
Record cpu : Type := Cpu { noff : Z; intena : bool; intr : bool }.

(** struct spinlock; [lk_cpu] is the index of the hart, [None] for 0. *)
Record spinlock : Type := Spinlock { locked : bool; lk_cpu : option nat }.
Definition initlock : spinlock := Spinlock false None.

(** Where a hart is inside acquire() or release() of a lock. *)
Inductive pc : Type :=
| Idle                   (* in neither *)
| AcqLocked (lk : nat)   (* acquire: interrupts are off, holding() reads lk->locked *)
| AcqCpu (lk : nat)      (* acquire: holding() reads lk->cpu *)
| Spin (lk : nat)        (* acquire: at the amoswap *)
| Got (lk : nat)         (* acquire: lk->cpu = mycpu() *)
| RelLocked (lk : nat)   (* release: holding() reads lk->locked *)
| RelCpu (lk : nat)      (* release: holding() reads lk->cpu *)
| RelClear (lk : nat)    (* release: lk->cpu = 0 *)
| RelSwap (lk : nat)     (* release: lk->locked = 0 *)
| RelPop                 (* release: pop_off() *)
| PanicAcquire (lk : nat)
| PanicRelease (lk : nat)
| PanicPop.
#[export] Instance pc_eq_dec : EqDecision pc.
Proof. solve_decision. Defined.

(** [h_held] and [h_pushed] are not in the code: the locks the hart got from
    the swap and has not swapped back, and its push_off() calls outside
    acquire() that are still to be undone. *)
Record hart : Type := Hart { h_cpu : cpu; h_pc : pc; h_held : list nat; h_pushed : nat }.

(** ** The operations *)

Definition push_off (c : cpu) : cpu :=
  Cpu (noff c + 1) (if noff c =? 0 then intr c else intena c) false.

(** [None] is a panic. *)
Definition pop_off (c : cpu) : option cpu :=
  if intr c then None
  else if noff c <? 1 then None
  else
    let n := noff c - 1 in
    Some (Cpu n (intena c) ((n =? 0) && intena c)).

(** __sync_lock_test_and_set(&lk->locked, 1): the old value and the new lock. *)
Definition test_and_set (l : spinlock) : bool * spinlock := (locked l, Spinlock true (lk_cpu l)).

(** One memory access of hart [me] inside acquire(). *)
Definition acquire_step (me : nat) (h : hart) (locks : list spinlock) : option (hart * list spinlock) :=
  let go p := Hart (h_cpu h) p (h_held h) (h_pushed h) in
  match h_pc h with
  | AcqLocked lk => l ← locks !! lk; Some (go (if locked l then AcqCpu lk else Spin lk), locks)
  | AcqCpu lk =>
      l ← locks !! lk;
      Some (go (if bool_decide (lk_cpu l = Some me) then PanicAcquire lk else Spin lk), locks)
  | Spin lk =>
      l ← locks !! lk;
      let '(old, l') := test_and_set l in
      if (old : bool) then Some (h, <[lk:=l']> locks)
      else Some (Hart (h_cpu h) (Got lk) (lk :: h_held h) (h_pushed h), <[lk:=l']> locks)
  | Got lk => l ← locks !! lk; Some (go Idle, <[lk:=Spinlock (locked l) (Some me)]> locks)
  | _ => None
  end.

(** One memory access of hart [me] inside release(). *)
Definition release_step (me : nat) (h : hart) (locks : list spinlock) : option (hart * list spinlock) :=
  let go p := Hart (h_cpu h) p (h_held h) (h_pushed h) in
  match h_pc h with
  | RelLocked lk => l ← locks !! lk; Some (go (if locked l then RelCpu lk else PanicRelease lk), locks)
  | RelCpu lk =>
      l ← locks !! lk;
      Some (go (if bool_decide (lk_cpu l = Some me) then RelClear lk else PanicRelease lk), locks)
  | RelClear lk => l ← locks !! lk; Some (go (RelSwap lk), <[lk:=Spinlock (locked l) None]> locks)
  | RelSwap lk =>
      l ← locks !! lk;
      Some (Hart (h_cpu h) RelPop (filter (λ k, k ≠ lk) (h_held h)) (h_pushed h),
            <[lk:=Spinlock false (lk_cpu l)]> locks)
  | RelPop =>
      match pop_off (h_cpu h) with
      | Some c => Some (Hart c Idle (h_held h) (h_pushed h), locks)
      | None => Some (go PanicPop, locks)
      end
  | _ => None
  end.

(** What the code around the locks does: call acquire() or release() (on any
    lock, held or not), pair push_off() with pop_off() as mycpu() users do,
    and change the interrupt flag, which it does only outside push_off(). *)
Inductive hart_step (me : nat) : hart → list spinlock → hart → list spinlock → Prop :=
| step_call_acquire c held pushed locks lk :
    hart_step me (Hart c Idle held pushed) locks (Hart (push_off c) (AcqLocked lk) held pushed) locks
| step_call_release c held pushed locks lk :
    hart_step me (Hart c Idle held pushed) locks (Hart c (RelLocked lk) held pushed) locks
| step_acquire h locks h' locks' :
    acquire_step me h locks = Some (h', locks') → hart_step me h locks h' locks'
| step_release h locks h' locks' :
    release_step me h locks = Some (h', locks') → hart_step me h locks h' locks'
| step_push_off c held pushed locks :
    hart_step me (Hart c Idle held pushed) locks (Hart (push_off c) Idle held (S pushed)) locks
| step_pop_off c c' held pushed locks :
    pop_off c = Some c' →
    hart_step me (Hart c Idle held (S pushed)) locks (Hart c' Idle held pushed) locks
| step_intr c held pushed locks b :
    noff c = 0 →
    hart_step me (Hart c Idle held pushed) locks (Hart (Cpu (noff c) (intena c) b) Idle held pushed) locks.

(** The machine: one hart takes a step. *)
Inductive step : list hart * list spinlock → list hart * list spinlock → Prop :=
| step_hart i h h' hs ls ls' :
    hs !! i = Some h → hart_step i h ls h' ls' → step (hs, ls) (<[i:=h']> hs, ls').

(** Every lock after initlock(), every hart in neither function. *)
Definition fresh (s : list hart * list spinlock) : Prop :=
  Forall (λ h, h_pc h = Idle ∧ h_held h = [] ∧ h_pushed h = O ∧ noff (h_cpu h) = 0) s.1 ∧
  Forall (λ l, l = initlock) s.2.

Definition reachable (s : list hart * list spinlock) : Prop :=
  ∃ s0, fresh s0 ∧ rtc step s0 s.

(** ** The invariant *)

(** push_off() calls of acquire() and release() that [h_held] does not count. *)
Definition pending (p : pc) : Z :=
  match p with
  | AcqLocked _ | AcqCpu _ | Spin _ | RelPop | PanicAcquire _ | PanicPop => 1
  | _ => 0
  end.

Definition pc_ok (p : pc) (held : list nat) : Prop :=
  match p with
  | Spin lk => lk ∉ held
  | Got lk | RelClear lk | RelSwap lk | PanicAcquire lk => lk ∈ held
  | PanicRelease lk => lk ∉ held
  | PanicPop => False
  | _ => True
  end.

(** The hart has the lock and its name is in it. *)
Definition named (h : hart) (lk : nat) : Prop :=
  lk ∈ h_held h ∧ h_pc h ≠ Got lk ∧ h_pc h ≠ RelSwap lk.

Record hart_ok (h : hart) : Prop := {
  ho_nodup : NoDup (h_held h);
  ho_pc : pc_ok (h_pc h) (h_held h);
  ho_noff : noff (h_cpu h) = Z.of_nat (length (h_held h)) + Z.of_nat (h_pushed h) + pending (h_pc h);
  ho_intr : 0 < noff (h_cpu h) → intr (h_cpu h) = false;
}.

Record lock_ok (hs : list hart) (lk : nat) (l : spinlock) : Prop := {
  lo_locked : locked l = true ↔ ∃ i h, hs !! i = Some h ∧ lk ∈ h_held h;
  lo_owner : ∀ i j h h', hs !! i = Some h → hs !! j = Some h' →
    lk ∈ h_held h → lk ∈ h_held h' → i = j;
  lo_cpu : ∀ i, lk_cpu l = Some i ↔ ∃ h, hs !! i = Some h ∧ named h lk;
}.

Record inv (s : list hart * list spinlock) : Prop := {
  inv_hart : ∀ i h, s.1 !! i = Some h → hart_ok h;
  inv_lock : ∀ lk l, s.2 !! lk = Some l → lock_ok s.1 lk l;
  inv_dom : ∀ i h lk, s.1 !! i = Some h → lk ∈ h_held h → is_Some (s.2 !! lk);
}.

(** ** One hart moves *)

Lemma lookup_moved (hs : list hart) i h h' j hj :
  hs !! i = Some h →
  <[i:=h']> hs !! j = Some hj ↔ (j = i ∧ hj = h') ∨ (j ≠ i ∧ hs !! j = Some hj).
Proof.
  intros Hi. destruct (decide (j = i)) as [->|Hne].
  - rewrite list_lookup_insert_eq by (by eapply lookup_lt_Some). naive_solver.
  - rewrite list_lookup_insert_ne by done. naive_solver.
Qed.

(** The locks a step of [h] to [h'] leaves alone stay in order. *)
Lemma lock_ok_frame hs i h h' lk l :
  hs !! i = Some h → (lk ∈ h_held h ↔ lk ∈ h_held h') → (named h lk ↔ named h' lk) →
  lock_ok hs lk l → lock_ok (<[i:=h']> hs) lk l.
Proof.
  intros Hi Hh Hn [H1 H2 H3]. split.
  - rewrite H1. split; intros (j & hj & Hj & Hk).
    + destruct (decide (j = i)) as [->|]; [exists i, h'|exists j, hj]; rewrite lookup_moved by done; naive_solver.
    + rewrite lookup_moved in Hj by done. destruct Hj as [[-> ->]|[_ Hj]]; naive_solver.
  - intros j1 j2 h1 h2. rewrite !lookup_moved by done. intros [[-> ->]|[? E1]] [[-> ->]|[? E2]] K1 K2;
      [done|apply (H2 _ _ h h2)|apply (H2 _ _ h1 h)|apply (H2 _ _ h1 h2)]; naive_solver.
  - intros j. rewrite H3. split; intros (hj & Hj & Hk).
    + destruct (decide (j = i)) as [->|]; [exists h'|exists hj]; rewrite lookup_moved by done; naive_solver.
    + rewrite lookup_moved in Hj by done. destruct Hj as [[-> ->]|[_ Hj]]; naive_solver.
Qed.

(** A step that changes neither the locks nor who has them. *)
Lemma inv_quiet hs ls i h h' :
  inv (hs, ls) → hs !! i = Some h → hart_ok h' → h_held h' = h_held h →
  (∀ lk, named h lk ↔ named h' lk) → inv (<[i:=h']> hs, ls).
Proof.
  intros [Hh Hl Hd] Hi Ho He Hn. split; cbn.
  - intros j hj. rewrite lookup_moved by done. intros [[-> ->]|[_ Hj]]; [done|by eapply Hh].
  - intros lk l Hlk. eapply lock_ok_frame; [done|by rewrite He|done|by apply Hl].
  - intros j hj lk. rewrite lookup_moved by done. intros [[-> ->]|[_ Hj]]; [rewrite He|]; by eapply Hd.
Qed.

(** A step that writes lock [lk]. *)
Lemma inv_write hs ls i h h' lk l l' :
  inv (hs, ls) → hs !! i = Some h → ls !! lk = Some l → hart_ok h' →
  (∀ k, k ≠ lk → (k ∈ h_held h ↔ k ∈ h_held h') ∧ (named h k ↔ named h' k)) →
  lock_ok (<[i:=h']> hs) lk l' → inv (<[i:=h']> hs, <[lk:=l']> ls).
Proof.
  intros [Hh Hl Hd] Hi Hlk Ho Hk Hok.
  assert (Hlt : (lk < length ls)%nat) by by eapply lookup_lt_Some. split; cbn.
  - intros j hj. rewrite lookup_moved by done. intros [[-> ->]|[_ Hj]]; [done|by eapply Hh].
  - intros k lx. destruct (decide (k = lk)) as [->|Hne].
    + rewrite list_lookup_insert_eq by done. by intros [= <-].
    + rewrite list_lookup_insert_ne by done. intros Hx. destruct (Hk k Hne).
      eapply lock_ok_frame; [done..|by apply Hl].
  - intros j hj k. rewrite lookup_moved by done. intros Hj Hin.
    destruct (decide (k = lk)) as [->|Hne]; [rewrite list_lookup_insert_eq by done; eauto|].
    rewrite list_lookup_insert_ne by done. destruct (Hk k Hne) as [E _].
    destruct Hj as [[-> ->]|[_ Hj]]; eapply Hd; [|by apply E| |]; done.
Qed.

(** Named is a matter of the held locks when the hart neither just got nor is
    about to give back the lock. *)
Definition outside (p : pc) : Prop :=
  match p with Got _ | RelSwap _ => False | _ => True end.

Lemma named_outside c p held n lk : outside p → named (Hart c p held n) lk ↔ lk ∈ held.
Proof. unfold named. destruct p; cbn; naive_solver. Qed.

Lemma named_same h h' lk :
  outside (h_pc h) → outside (h_pc h') → h_held h' = h_held h → named h lk ↔ named h' lk.
Proof.
  destruct h, h'; cbn. intros. subst. by rewrite !named_outside.
Qed.

Lemma filter_out_length (lk : nat) held :
  NoDup held → lk ∈ held → length held = S (length (filter (λ k, k ≠ lk) held)).
Proof.
  induction 1 as [|k held Hk Hnd IH]; [by intros []%elem_of_nil|].
  rewrite filter_cons. intros [->|Hin]%elem_of_cons.
  - rewrite decide_False by naive_solver. cbn. f_equal.
    clear IH. induction held as [|x held IH]; [done|]. apply not_elem_of_cons in Hk as [? Hk].
    apply NoDup_cons in Hnd as [_ Hnd]. rewrite filter_cons, decide_True by done. cbn. auto.
  - rewrite decide_True by congruence. cbn. auto.
Qed.

(** ** Each access keeps the invariant *)

Section access.
Context (hs : list hart) (ls : list spinlock) (me : nat) (h : hart).
Hypothesis Hinv : inv (hs, ls).
Hypothesis Hme : hs !! me = Some h.

Lemma own_locked lk l : ls !! lk = Some l → lk ∈ h_held h → locked l = true.
Proof using Hinv Hme. intros Hl Hh. apply (lo_locked _ _ _ (inv_lock _ Hinv lk l Hl)). eauto. Qed.

Lemma own_named lk l :
  ls !! lk = Some l → outside (h_pc h) → lk ∈ h_held h ↔ lk_cpu l = Some me.
Proof using Hinv Hme.
  intros Hl Hp. rewrite (lo_cpu _ _ _ (inv_lock _ Hinv lk l Hl)). destruct h as [c p held n]. split.
  - intros. eexists. split; [exact Hme|]. by apply named_outside.
  - intros (h' & E & Hn). cbn in E. rewrite Hme in E. injection E as <-. apply Hn.
Qed.

Lemma quiet_move h' :
  hart_ok h' → h_held h' = h_held h → outside (h_pc h) → outside (h_pc h') → inv (<[me:=h']> hs, ls).
Proof using Hinv Hme. intros. eapply inv_quiet; [done..|]. intros. by apply named_same. Qed.

End access.

Lemma spin_takes c held n lk l hs ls me :
  inv (hs, ls) → hs !! me = Some (Hart c (Spin lk) held n) → ls !! lk = Some l → locked l = false →
  inv (<[me:=Hart c (Got lk) (lk :: held) n]> hs, <[lk:=Spinlock true (lk_cpu l)]> ls).
Proof.
  intros Hinv Hme Hl Hfree. pose proof (inv_hart _ Hinv me _ Hme) as [Hnd Hpc Hno Hin]. cbn in *.
  pose proof (inv_lock _ Hinv lk l Hl) as [L1 L2 L3]. cbn in *.
  assert (Hno' : ∀ j hj, hs !! j = Some hj → lk ∉ h_held hj).
  { intros j hj Hj Hin'. assert (locked l = true) by (apply L1; eauto). congruence. }
  eapply inv_write; [done..| | |].
  - split; cbn; [by constructor|set_solver|lia|done].
  - intros k Hk. cbn. unfold named. cbn. split; set_solver.
  - split; cbn.
    + split; [|done]. intros _. eexists me, _. rewrite lookup_moved by done. split; [by left|]. set_solver.
    + intros i j hi hj. rewrite !lookup_moved by done. intros [[-> ->]|[? Hi]] [[-> ->]|[? Hj]]; naive_solver.
    + intros i. rewrite L3. split.
      * intros (hi & Hi & [Hk _]). by apply Hno' in Hi.
      * intros (hi & Hi & Hk). rewrite lookup_moved in Hi by done.
        destruct Hi as [[-> ->]|[_ Hi]]; [by destruct Hk as (_ & ? & _)|by destruct Hk as [?%(Hno' i hi Hi) _]].
Qed.

(** Writing the name of the holder, or erasing it. *)
Lemma holder_writes c p p' held n lk l hs ls me :
  inv (hs, ls) → hs !! me = Some (Hart c p held n) → ls !! lk = Some l →
  p = Got lk ∧ p' = Idle ∨ p = RelClear lk ∧ p' = RelSwap lk →
  inv (<[me:=Hart c p' held n]> hs,
       <[lk:=Spinlock (locked l) (if decide (p' = Idle) then Some me else None)]> ls).
Proof.
  intros Hinv Hme Hl Hp. pose proof (inv_hart _ Hinv me _ Hme) as [Hnd Hpc Hno Hin].
  assert (Hh : lk ∈ held) by (by destruct Hp as [[-> ->]|[-> ->]]).
  pose proof (inv_lock _ Hinv lk l Hl) as [L1 L2 L3]. cbn in *.
  assert (Huniq : ∀ j hj, hs !! j = Some hj → lk ∈ h_held hj → j = me)
    by (intros j hj Hj Hk; by eapply (L2 j me)).
  eapply inv_write; [done..| | |].
  - destruct Hp as [[-> ->]|[-> ->]]; split; cbn in *; done || lia.
  - intros k Hk. split; [done|]. unfold named. cbn. destruct Hp as [[-> ->]|[-> ->]]; naive_solver.
  - split; cbn.
    + rewrite L1. split; [|intros _; eauto].
      intros _. eexists me, _. rewrite lookup_moved by done. split; [by left|done].
    + intros i j hi hj. rewrite !lookup_moved by done. intros [[-> ->]|[? Hi]] [[-> ->]|[? Hj]]; naive_solver.
    + intros i. split.
      * destruct Hp as [[-> ->]|[-> ->]]; cbn; [|done]. rewrite decide_True by done. intros [= <-].
        eexists. rewrite lookup_moved by done. split; [by left|]. by apply named_outside.
      * intros (hi & Hi & Hk). rewrite lookup_moved in Hi by done.
        destruct Hi as [[-> ->]|[Hne Hi]]; [|by destruct (Hne (Huniq _ _ Hi (proj1 Hk)))].
        destruct Hp as [[-> ->]|[-> ->]]; [by rewrite decide_True|by destruct Hk as (_ & _ & ?)].
Qed.

Lemma swap_releases c held n lk l hs ls me :
  inv (hs, ls) → hs !! me = Some (Hart c (RelSwap lk) held n) → ls !! lk = Some l →
  inv (<[me:=Hart c RelPop (filter (λ k, k ≠ lk) held) n]> hs, <[lk:=Spinlock false (lk_cpu l)]> ls).
Proof.
  intros Hinv Hme Hl. pose proof (inv_hart _ Hinv me _ Hme) as [Hnd Hpc Hno Hin].
  pose proof (inv_lock _ Hinv lk l Hl) as [L1 L2 L3]. cbn in *.
  assert (Huniq : ∀ j hj, hs !! j = Some hj → lk ∈ h_held hj → j = me)
    by (intros j hj Hj Hk; by eapply (L2 j me)).
  assert (Hoff : ∀ j hj, <[me:=Hart c RelPop (filter (λ k, k ≠ lk) held) n]> hs !! j = Some hj → lk ∉ h_held hj).
  { intros j hj. rewrite lookup_moved by done. intros [[-> ->]|[Hne Hj]]; cbn.
    - rewrite list_elem_of_filter. naive_solver.
    - intros Hk. by destruct (Hne (Huniq _ _ Hj Hk)). }
  eapply inv_write; [done..| | |].
  - split; cbn; [by apply NoDup_filter|done| |done].
    rewrite Hno. pose proof (filter_out_length lk held Hnd Hpc). lia.
  - intros k Hk. unfold named. cbn. rewrite list_elem_of_filter. naive_solver.
  - split; cbn; [|intros i j hi hj Hi Hj Ki; by apply Hoff in Hi|].
    + split; [done|]. intros (j & hj & Hj & Hk). by apply Hoff in Hj.
    + intros i. rewrite L3. split.
      * intros (hi & Hi & Hk & _ & Hne). destruct (Huniq _ _ Hi Hk). rewrite Hme in Hi. by simplify_eq/=.
      * intros (hi & Hi & Hk & _). by apply Hoff in Hi.
Qed.

(** ** Reachable states *)

Lemma acquire_step_inv hs ls me h h' ls' :
  inv (hs, ls) → hs !! me = Some h → acquire_step me h ls = Some (h', ls') →
  inv (<[me:=h']> hs, ls').
Proof.
  intros Hinv Hme. pose proof (inv_hart _ Hinv me _ Hme) as [Hnd Hpc Hno Hin].
  destruct h as [c p held n]. unfold acquire_step. cbn in *.
  destruct p as [|lk|lk|lk|lk|lk|lk|lk|lk| |lk|lk|]; try done;
    (destruct (ls !! lk) as [l|] eqn:Hl; [|done]); cbn.
  - intros [= <- <-]. destruct (locked l) eqn:El; (eapply quiet_move; [done..| |done|done|done]); split; cbn in *; try done.
    intros Hk. pose proof (own_locked hs ls me _ Hinv Hme lk l Hl Hk). congruence.
  - intros [= <- <-]. pose proof (own_named hs ls me _ Hinv Hme lk l Hl I) as Hown. cbn in Hown.
    case_bool_decide as E; (eapply quiet_move; [done..| |done|done|done]); split; cbn in *; tauto || done.
  - destruct (locked l) eqn:El; intros [= <- <-].
    + rewrite (list_insert_id hs) by done. rewrite list_insert_id by (by rewrite Hl; destruct l; cbn in *; subst). done.
    + by apply spin_takes.
  - intros [= <- <-]. apply (holder_writes c (Got lk) Idle); auto.
Qed.

Lemma pop_off_ok c : 0 < noff c → intr c = false → ∃ c',
  pop_off c = Some c' ∧ noff c' = noff c - 1 ∧ (0 < noff c' → intr c' = false).
Proof.
  intros Hn Hi. unfold pop_off. rewrite Hi, (proj2 (Z.ltb_ge _ _)) by lia. eexists. split; [done|].
  cbn. split; [done|]. intros. by rewrite (proj2 (Z.eqb_neq _ _)) by lia.
Qed.

Lemma release_step_inv hs ls me h h' ls' :
  inv (hs, ls) → hs !! me = Some h → release_step me h ls = Some (h', ls') →
  inv (<[me:=h']> hs, ls').
Proof.
  intros Hinv Hme. pose proof (inv_hart _ Hinv me _ Hme) as [Hnd Hpc Hno Hin].
  destruct h as [c p held n]. unfold release_step. cbn in *.
  destruct p as [|lk|lk|lk|lk|lk|lk|lk|lk| |lk|lk|]; try done;
    try (destruct (ls !! lk) as [l|] eqn:Hl; [|done]); cbn in *.
  - intros [= <- <-]. destruct (locked l) eqn:El; (eapply quiet_move; [done..| |done|done|done]); split; cbn in *; try done.
    intros Hk. pose proof (own_locked hs ls me _ Hinv Hme lk l Hl Hk). congruence.
  - intros [= <- <-]. pose proof (own_named hs ls me _ Hinv Hme lk l Hl I) as Hown. cbn in Hown.
    case_bool_decide as E; (eapply quiet_move; [done..| |done|done|done]); split; cbn in *; tauto || done.
  - intros [= <- <-]. apply (holder_writes c (RelClear lk) (RelSwap lk)); auto.
  - intros [= <- <-]. by apply swap_releases.
  - destruct (pop_off_ok c) as (c' & -> & En & Ei); [lia|apply Hin; lia|]. intros [= <- <-].
    eapply quiet_move; [done..| |done|done|done]. split; cbn; done || lia.
Qed.

Lemma step_inv s s' : inv s → step s s' → inv s'.
Proof.
  intros Hinv Hs. destruct Hs as [i h h' hs ls ls' Hi Hs].
  destruct Hs as [c held n ls lk|c held n ls lk|h ls h' ls' E|h ls h' ls' E|c held n ls|c c' held n ls E|c held n ls b E];
    [| |by eapply acquire_step_inv|by eapply release_step_inv| | |];
    pose proof (inv_hart _ Hinv i _ Hi) as [Hnd Hpc Hno Hin]; cbn in *;
    (eapply quiet_move; [done..| |done|done|done]); split; cbn; try done; try lia.
  - pose proof (pop_off_ok c ltac:(lia) ltac:(apply Hin; lia)) as (c'' & E' & ? & ?).
    rewrite E in E'. injection E' as <-. lia.
  - pose proof (pop_off_ok c ltac:(lia) ltac:(apply Hin; lia)) as (c'' & E' & ? & ?).
    rewrite E in E'. by injection E' as <-.
Qed.

Lemma fresh_inv s : fresh s → inv s.
Proof.
  destruct s as [hs ls]. intros [Hh Hl]. cbn in *. rewrite Forall_forall in Hh. rewrite Forall_forall in Hl. split; cbn.
  - intros i h (E1 & E2 & E3 & E4)%list_elem_of_lookup_2%Hh. destruct h as [c p held n]. cbn in *; subst.
    split; cbn; [constructor|done|lia|lia].
  - intros lk l ->%list_elem_of_lookup_2%Hl. split; cbn.
    + split; [done|]. intros (i & h & (E1 & E2 & _)%list_elem_of_lookup_2%Hh & Hk). rewrite E2 in Hk. set_solver.
    + intros i j h h' (_ & E & _)%list_elem_of_lookup_2%Hh _ Hk. rewrite E in Hk. set_solver.
    + intros i. split; [done|]. intros (h & (_ & E & _)%list_elem_of_lookup_2%Hh & Hk & _). rewrite E in Hk. set_solver.
  - intros i h lk (_ & E & _)%list_elem_of_lookup_2%Hh Hk. rewrite E in Hk. set_solver.
Qed.

Lemma reachable_inv s : reachable s → inv s.
Proof.
  intros (s0 & H0%fresh_inv & Hr). induction Hr as [|s1 s2 s3 Hs _ IH]; [done|].
  apply IH. by eapply step_inv.
Qed.

(** ** The guarantees *)

(** C21: In every state the harts can reach by interleaving the memory accesses
    of acquire() and release(), a spin lock has at most one holder; lk->cpu
    names a hart only while it is the holder; and a hart has interrupts off
    and noff positive from the atomic swap that took a lock on, for as long as
    it holds any, so that no interrupt handler of that hart can spin on it. *)
Theorem spinlock_mutex hs ls lk i hi :
  reachable (hs, ls) → hs !! i = Some hi → lk ∈ h_held hi →
  (∀ j hj, hs !! j = Some hj → lk ∈ h_held hj → j = i) ∧
  (∃ l, ls !! lk = Some l ∧ locked l = true ∧ (lk_cpu l = Some i ∨ lk_cpu l = None)) ∧
  0 < noff (h_cpu hi) ∧ intr (h_cpu hi) = false.
Proof.
  intros Hr%reachable_inv Hi Hk. destruct (inv_dom _ Hr i hi lk Hi Hk) as [l Hl].
  pose proof (inv_lock _ Hr lk l Hl) as [L1 L2 L3]. cbn in *.
  assert (Hu : ∀ j hj, hs !! j = Some hj → lk ∈ h_held hj → j = i)
    by (intros j hj Hj Hkj; by eapply (L2 j i)).
  pose proof (inv_hart _ Hr i hi Hi) as [Hnd Hpc Hno Hin].
  assert (Hpos : 0 < noff (h_cpu hi)).
  { rewrite Hno. destruct (h_held hi); [by apply elem_of_nil in Hk|]. cbn. destruct (h_pc hi); cbn; lia. }
  split_and!; auto. exists l. split_and!; [done|apply L1; eauto|].
  destruct (lk_cpu l) as [j|] eqn:Ec; [|auto]. destruct (proj1 (L3 j) eq_refl) as (hj & Hj & Hn & _).
  left. f_equal. by eapply Hu.
Qed.

(** The self-checks of the lock code are exact, although holding() reads
    the two fields of the lock without synchronisation: acquire() panics only
    if this hart already holds the lock, release() panics only if it does not,
    release() never panics in pop_off(), and a hart that holds the lock is
    never found spinning for it. *)
Theorem spinlock_checks_exact hs ls i h :
  reachable (hs, ls) → hs !! i = Some h →
  match h_pc h with
  | PanicAcquire lk => lk ∈ h_held h
  | PanicRelease lk | Spin lk => lk ∉ h_held h
  | PanicPop => False
  | _ => True
  end.
Proof.
  intros Hr%reachable_inv Hi. pose proof (ho_pc _ (inv_hart _ Hr i h Hi)) as H.
  destruct (h_pc h); cbn in *; done.
Qed.

(** Two harts and one lock: hart 0 acquires it while hart 1 spins. *)
Definition cpu0 : cpu := Cpu 0 false true.
Definition hart0 : hart := Hart cpu0 Idle [] 0.
Definition spun : list hart * list spinlock :=
  ([Hart (push_off cpu0) Idle [0%nat] 0; Hart (push_off cpu0) (Spin 0) [] 0], [Spinlock true (Some 0%nat)]).

Lemma spun_reachable : reachable spun.
Proof.
  exists ([hart0; hart0], [initlock]). split; [split; repeat constructor|].
  eapply rtc_l; [eapply (step_hart 0); [done|apply (step_call_acquire 0 cpu0 [] 0 _ 0)]|].
  eapply rtc_l; [eapply (step_hart 0); [done|by apply step_acquire]|].
  eapply rtc_l; [eapply (step_hart 1); [done|apply (step_call_acquire 1 cpu0 [] 0 _ 0)]|].
  eapply rtc_l; [eapply (step_hart 1); [done|by apply step_acquire]|].
  eapply rtc_l; [eapply (step_hart 0); [done|by apply step_acquire]|].
  eapply rtc_l; [eapply (step_hart 1); [done|by apply step_acquire]|].
  eapply rtc_l; [eapply (step_hart 0); [done|by apply step_acquire]|].
  apply rtc_refl.
Qed.

Lemma spinlock_mutex_witness :
  reachable spun ∧ ∀ j hj, spun.1 !! j = Some hj → (0%nat ∈ h_held hj) → j = 0%nat.
Proof.
  split; [exact spun_reachable|].
  apply (spinlock_mutex spun.1 spun.2 0 0 (Hart (push_off cpu0) Idle [0%nat] 0));
    [exact spun_reachable|reflexivity|constructor].
Defined.

Lemma spinlock_checks_exact_witness : 0%nat ∉ h_held (Hart (push_off cpu0) (Spin 0) [] 0).
Proof.
  apply (spinlock_checks_exact spun.1 spun.2 1 (Hart (push_off cpu0) (Spin 0) [] 0));
    [exact spun_reachable|reflexivity].
Defined.
