(* ===== verification/RingBuf.v ===== *)
(** Ring buffers with free-running indices: pipe.c, uart.c and console.c all
    keep a read and a write index that are never reduced modulo the size of
    the buffer, and let them wrap around at the width of their type. *)

From S2P Require Import Prelude.

Section ring_buffer.
(** The buffer has [N] bytes, the indices wrap at [W] = [N] * [k]. *)
Context (N W k : Z).
Hypothesis HN : 0 < N.
Hypothesis Hk : 1 < k.
Hypothesis HW : W = N * k.

(** The bytes [q] are in the buffer, the oldest at index [r], the next free
    place at index [w]. *)
Record holds_queue (buf : list Z) (r w : Z) (q : list Z) : Prop := {
  hq_len : Z.of_nat (length buf) = N;
  hq_r : 0 ≤ r < W;
  hq_w : w = (r + Z.of_nat (length q)) mod W;
  hq_fit : Z.of_nat (length q) ≤ N;
  hq_at : ∀ i c, q !! i = Some c → buf !! Z.to_nat ((r + Z.of_nat i) mod N) = Some c;
}.

Lemma mod_mod_ring x : (x mod W) mod N = x mod N.
Proof using HN Hk HW. subst W. rewrite Z.rem_mul_r by lia. by rewrite (Z.mul_comm N), Z.mod_add, Z.mod_mod by lia. Qed.

Lemma W_pos : N < W.
Proof using HN Hk HW. nia. Qed.

(** Places of different bytes of a window of [N] bytes are different. *)
Lemma place_ne r i j : 0 ≤ i < N → 0 ≤ j < N → i ≠ j → (r + i) mod N ≠ (r + j) mod N.
Proof using HN Hk HW.
  intros Hi Hj Hne E.
  assert (D : ((r + i) - (r + j)) mod N = 0) by (rewrite Zminus_mod, E, Z.sub_diag; done).
  replace (r + i - (r + j)) with (i - j) in D by lia.
  apply Z.mod_divide in D as [m Hm]; [|lia]. destruct (decide (m = 0)) as [->|]; nia.
Qed.

Lemma hq_empty buf r w q : holds_queue buf r w q → (w = r ↔ q = []).
Proof using HN Hk HW.
  intros [Hl Hr Hw Hf _]. pose proof W_pos. split; [|intros ->; cbn in Hw; rewrite Hw, Z.add_0_r; by apply Z.mod_small].
  intros ->. destruct q as [|c q]; [done|]. exfalso. cbn [length] in *.
  destruct (decide (r + Z.of_nat (S (length q)) < W)).
  - rewrite Z.mod_small in Hw by lia. lia.
  - assert (E : (r + Z.of_nat (S (length q))) mod W = r + Z.of_nat (S (length q)) - W).
    { replace (r + Z.of_nat (S (length q))) with (r + Z.of_nat (S (length q)) - W + 1 * W) at 1 by lia.
      rewrite Z.mod_add by lia. apply Z.mod_small. lia. }
    lia.
Qed.

(** [w - r] modulo [W] is the number of bytes in the buffer. *)
Lemma hq_size buf r w q : holds_queue buf r w q → (w - r) mod W = Z.of_nat (length q).
Proof using HN Hk HW.
  intros [Hl Hr Hw Hf _]. pose proof W_pos. rewrite Hw.
  rewrite Zminus_mod_idemp_l. replace (r + _ - r) with (Z.of_nat (length q)) by lia.
  apply Z.mod_small. lia.
Qed.

Lemma hq_full buf r w q :
  holds_queue buf r w q → (w = (r + N) mod W ↔ Z.of_nat (length q) = N).
Proof using HN Hk HW.
  intros H. pose proof (hq_size _ _ _ _ H) as Hs. destruct H as [Hl Hr Hw Hf _]. pose proof W_pos.
  split; [|intros <-; done]. intros ->. rewrite Zminus_mod_idemp_l in Hs.
  replace (r + N - r) with N in Hs by lia. rewrite Z.mod_small in Hs by lia. done.
Qed.

Lemma hq_push buf r w q c :
  holds_queue buf r w q → Z.of_nat (length q) < N →
  holds_queue (<[Z.to_nat (w mod N) := c]> buf) r ((w + 1) mod W) (q ++ [c]).
Proof using HN Hk HW.
  intros [Hl Hr Hw Hf Ha] Hlt. rewrite Hw, mod_mod_ring. split.
  - by rewrite length_insert.
  - done.
  - rewrite Zplus_mod_idemp_l, length_app. cbn. f_equal. lia.
  - rewrite length_app. cbn. lia.
  - intros i x [Hx|[Hge Hx]]%lookup_app_Some.
    + pose proof (lookup_lt_Some _ _ _ Hx).
      rewrite list_lookup_insert_ne; [by apply Ha|].
      pose proof (place_ne r (Z.of_nat (length q)) (Z.of_nat i) ltac:(lia) ltac:(lia) ltac:(lia)).
      pose proof (Z.mod_pos_bound (r + Z.of_nat (length q)) N HN).
      pose proof (Z.mod_pos_bound (r + Z.of_nat i) N HN). lia.
    + apply list_lookup_singleton_Some in Hx as [Hi <-].
      replace i with (length q) by lia. apply list_lookup_insert_eq.
      pose proof (Z.mod_pos_bound (r + Z.of_nat (length q)) N HN). lia.
Qed.

Lemma hq_pop buf r w c q :
  holds_queue buf r w (c :: q) →
  buf !! Z.to_nat (r mod N) = Some c ∧ holds_queue buf ((r + 1) mod W) w q.
Proof using HN Hk HW.
  intros [Hl Hr Hw Hf Ha]. pose proof W_pos. cbn [length] in *. split.
  - pose proof (Ha 0%nat c eq_refl) as H0. by rewrite Z.add_0_r in H0.
  - split; [done|apply Z.mod_pos_bound; lia| |lia|].
    + rewrite Hw, Zplus_mod_idemp_l. f_equal. lia.
    + intros i x Hx. specialize (Ha (S i) x Hx). rewrite <-Ha. do 2 f_equal.
      rewrite <-(Zplus_mod_idemp_l ((r + 1) mod W)), mod_mod_ring, Zplus_mod_idemp_l. f_equal. lia.
Qed.

(** Taking the newest byte back. *)
Lemma hq_unpush buf r w q c :
  holds_queue buf r w (q ++ [c]) →
  buf !! Z.to_nat (((w - 1) mod W) mod N) = Some c ∧ holds_queue buf r ((w - 1) mod W) q.
Proof using HN Hk HW.
  intros [Hl Hr Hw Hf Ha]. rewrite length_app in *. cbn [length] in *.
  assert (Ew : (w - 1) mod W = (r + Z.of_nat (length q)) mod W)
    by (rewrite Hw, Zminus_mod_idemp_l; f_equal; lia).
  split.
  - rewrite Ew, mod_mod_ring. apply Ha. rewrite lookup_app_r, Nat.sub_diag by lia. done.
  - split; [done..|lia|]. intros i x Hx. apply Ha. by apply lookup_app_l_Some.
Qed.

(** Dropping the oldest bytes. *)
Lemma hq_pop_rest buf r w q :
  holds_queue buf r w q → ∀ q1 q2, q = q1 ++ q2 →
  holds_queue buf ((r + Z.of_nat (length q1)) mod W) w q2.
Proof using HN Hk HW.
  intros H q1 q2 ->. revert r H. induction q1 as [|c q1 IH]; intros r H.
  - cbn. rewrite Z.add_0_r, Z.mod_small; [done|]. apply (hq_r _ _ _ _ H).
  - apply hq_pop in H as [_ H%IH]. rewrite Zplus_mod_idemp_l in H.
    cbn [length]. by replace (r + Z.of_nat (S (length q1))) with (r + 1 + Z.of_nat (length q1)) by lia.
Qed.

(** The oldest bytes by themselves. *)
Lemma hq_prefix buf r w q1 q2 :
  holds_queue buf r w (q1 ++ q2) → holds_queue buf r ((r + Z.of_nat (length q1)) mod W) q1.
Proof using HN Hk HW.
  intros [Hl Hr Hw Hf Ha]. rewrite length_app in Hf. split; [done..|lia|].
  intros i c Hc. apply Ha. by apply lookup_app_l_Some.
Qed.

End ring_buffer.
