(* ===== verification/PipeSpec.v ===== *)
(** Pipes are bounded queues of bytes: what pipewrite() and piperead() do to
    the queue and to user memory. *)

From S2P Require Import Prelude Riscv Kstate Mem Kalloc Vm PageTable VmSpec Machine VmMap VmCopy MemTheorems Sched RingBuf Pipe.

Section pipe_spec.
Context {L : Layout}.

(** The bytes in a pipe, the oldest first.  Its indices are 32 bits wide. *)
Definition pipe_queue (x : pipe) (q : list Z) : Prop :=
  holds_queue PIPESIZE (2 ^ 32) (pi_data x) (pi_nread x) (pi_nwrite x) q.

(** [x'] is [x] up to the contents of the ring. *)
Definition same_ends (x x' : pipe) : Prop :=
  pi_readopen x' = pi_readopen x ∧ pi_writeopen x' = pi_writeopen x.

Lemma pipe_at_run pi x s : k_pipes s !! pi = Some x → pipe_at pi s = Ok x s.
Proof. intros H. unfold pipe_at. rewrite bind_gets. by rewrite H. Qed.

Lemma upd_pipe_run pi f x s :
  k_pipes s !! pi = Some x → upd_pipe pi f s = Ok tt (set_pipes (<[pi := f x]> (k_pipes s)) s).
Proof. intros H. unfold upd_pipe. by rewrite (bind_ok _ _ _ _ _ (pipe_at_run pi x s H)). Qed.

Lemma pipe_push x q c :
  pipe_queue x q → Z.of_nat (length q) < PIPESIZE →
  pipe_queue (set_nwrite (u32 (pi_nwrite x + 1)) (set_pdata (ring_put (pi_data x) (pi_nwrite x) c) x)) (q ++ [c]).
Proof. intros H Hl. by apply (hq_push _ _ (2 ^ 23)). Qed.

Lemma pipe_pop x q c :
  pipe_queue x (c :: q) →
  ring_get (pi_data x) (pi_nread x) = c ∧ pipe_queue (set_nread (u32 (pi_nread x + 1)) x) q.
Proof.
  intros H. apply (hq_pop _ _ (2 ^ 23)) in H as [Hc Hq]; [|done..]. split; [|done].
  unfold ring_get. by rewrite nth_lookup, Hc.
Qed.

Lemma pipe_full x q :
  pipe_queue x q → pi_nwrite x = u32 (pi_nread x + PIPESIZE) ↔ Z.of_nat (length q) = PIPESIZE.
Proof. intros H. by apply (hq_full PIPESIZE (2 ^ 32) (2 ^ 23) eq_refl eq_refl eq_refl _ _ _ _ H). Qed.

Lemma pipe_empty x q : pipe_queue x q → pi_nwrite x = pi_nread x ↔ q = [].
Proof. intros H. by apply (hq_empty PIPESIZE (2 ^ 32) (2 ^ 23) eq_refl eq_refl eq_refl _ _ _ _ H). Qed.

(** User memory is a matter of RAM. *)
Lemma ubytes_mm s s' root va k : k_mm s' = k_mm s → ubytes s' root va k = ubytes s root va k.
Proof.
  intros E. revert va. induction k as [|k IH]; intros va; [done|]. cbn [ubytes]. rewrite IH. f_equal.
  unfold ubyte, view, mem. by rewrite E.
Qed.

(** ** pipewrite() *)

Section write.
Context (pi addr n root : Z) (me : nat) (pr : proc).

(** The writer's view: it is alive and its buffer is mapped. *)
Record writer (s : kstate) (i : Z) : Prop := {
  wr_cur : k_cur s = me;
  wr_proc : k_procs s !! me = Some pr;
  wr_alive : p_killed pr = 0;
  wr_pt : p_pagetable pr = root;
  wr_wf : pt_wf (view s) root;
  wr_buf : readable s root (addr + i) (n - i);
}.

Lemma pipewrite_loop_ok k s i q x :
  writer s i → k_pipes s !! pi = Some x → pi_readopen x = true → pipe_queue x q →
  0 ≤ addr + i → n = i + Z.of_nat k → Z.of_nat (length q) + Z.of_nat k ≤ PIPESIZE →
  ∃ x', pipewrite_loop k pi addr n i s =
      (wakeup (C_nread pi);; release (L_pipe pi);; mret n) (set_pipes (<[pi := x']> (k_pipes s)) s) ∧
    pipe_queue x' (q ++ ubytes s root (addr + i) k) ∧ same_ends x x'.
Proof.
  revert s i q x. induction k as [|k IH]; intros s i q x Hw Hx Hro Hq Ha Hn Hl.
  - exists x. rewrite Z.add_0_r in Hn. subst i. cbn [pipewrite_loop]. rewrite Z.ltb_irrefl. cbn [negb ubytes].
    rewrite app_nil_r, insert_id by done. split_and!; try done. by destruct s.
  - pose proof Hw as [Hc Hp Hk Hpt Hwf Hr]. cbn [pipewrite_loop].
    rewrite (proj2 (Z.ltb_lt i n)) by lia. cbn [negb].
    rewrite (bind_ok _ _ _ _ _ (pipe_at_run pi x s Hx)). unfold myproc. rewrite bind_gets, Hc.
    rewrite (bind_ok _ _ _ _ _ (proc_at_run me s pr Hp)), Hro, Hk. cbn [negb orb Z.eqb].
    assert (Hf : (pi_nwrite x =? u32 (pi_nread x + PIPESIZE)) = false).
    { apply Z.eqb_neq. intros E. pose proof (proj1 (pipe_full x q Hq) E). lia. }
    rewrite Hf, Hpt.
    assert (Hm : addr + n ≤ MAXVA) by (destruct Hr as (_ & ? & _); lia).
    change MAXVA with 274877906944 in Hm.
    rewrite u64_small by lia.
    assert (Hb : readable s root (addr + i) 1).
    { destruct Hr as (? & ? & Hr). split_and!; [lia|lia|]. intros a Ha'. apply Hr. lia. }
    rewrite (bind_ok _ _ _ _ _ (copyin_ok s root (addr + i) 1 Hwf Hb ltac:(lia))).
    change (Z.to_nat 1) with 1%nat. cbn [ubytes hd Z.eqb].
    rewrite (bind_ok _ _ _ _ _ (upd_pipe_run pi _ x s Hx)). cbv beta.
    set (c := ubyte s root (addr + i)). set (x1 := set_nwrite _ _).
    destruct (IH (set_pipes (<[pi := x1]> (k_pipes s)) s) (i + 1) (q ++ [c]) x1) as (x' & E & Hq' & Hs').
    + split; try done. destruct Hr as (? & ? & Hr'). split_and!; [lia|lia|]. intros a Ha'. apply Hr'. lia.
    + cbn [k_pipes set_pipes]. apply lookup_insert_eq.
    + done.
    + apply pipe_push; [done|lia].
    + lia.
    + lia.
    + rewrite length_app. cbn [length]. lia.
    + exists x'. split_and!; [|rewrite <-app_assoc in Hq'|exact Hs'].
      * rewrite E. kst. by rewrite insert_insert_eq.
      * replace (addr + (i + 1)) with (addr + i + 1) in Hq' by lia.
        rewrite (ubytes_mm s) in Hq' by done. exact Hq'.
Qed.

End write.

(** ** piperead() *)

Lemma spares_trans s root m1 m2 :
  spares s root m1 → spares (put_mem m1 s) root m2 → spares s root m2.
Proof.
  intros H1 H2 p t i Hp Ht Hi. rewrite (H2 p t i); [|done| |done].
  - by apply (H1 p).
  - by rewrite (agree_nodes (view s) (view (put_mem m1 s)) root H1 p Hp).
Qed.

(** The user bytes [bs] have been stored at [va]; nothing else changed. *)
Definition stored (s s' : kstate) (root va : Z) (bs : list Z) : Prop :=
  ∀ a, 0 ≤ a < MAXVA → xlate (view s) root a ≠ None →
    ubyte s' root a =
    if decide (va ≤ a < va + Z.of_nat (length bs)) then u8 (bs !!! Z.to_nat (a - va)) else ubyte s root a.

Lemma stored_cons s s1 s2 root va b bs :
  (∀ a, 0 ≤ a < MAXVA → xlate (view s1) root a = xlate (view s) root a) →
  stored s s1 root va [b] → stored s1 s2 root (va + 1) bs → stored s s2 root va (b :: bs).
Proof.
  intros Hx H1 H2 a Ha Hn. rewrite H2 by (done || by rewrite Hx). cbn [length].
  case_decide as D2.
  - rewrite decide_True by lia. replace (Z.to_nat (a - va)) with (S (Z.to_nat (a - (va + 1)))) by lia. done.
  - rewrite H1 by done. cbn [length]. case_decide as D1.
    + rewrite decide_True by lia. by replace (a - va) with 0 by lia.
    + by rewrite decide_False by lia.
Qed.

Section read.
Context (pi addr n root : Z) (me : nat) (pr : proc).

Record reader (s : kstate) (i : Z) : Prop := {
  re_cur : k_cur s = me;
  re_proc : k_procs s !! me = Some pr;
  re_pt : p_pagetable pr = root;
  re_wf : pt_wf (view s) root;
  re_buf : writable s root (addr + i) (n - i);
}.

Lemma piperead_loop_ok fuel s i q x :
  reader s i → k_pipes s !! pi = Some x → pipe_queue x q →
  0 ≤ addr + i → n = i + Z.of_nat fuel →
  let j := Nat.min fuel (length q) in
  ∃ x' m, let s' := put_mem m (set_pipes (<[pi := x']> (k_pipes s)) s) in
    piperead_loop fuel pi addr n i s =
      (wakeup (C_nwrite pi);; release (L_pipe pi);; mret (i + Z.of_nat j)) s' ∧
    pipe_queue x' (drop j q) ∧ same_ends x x' ∧
    spares s root m ∧ stored s s' root (addr + i) (take j q).
Proof.
  revert s i q x. induction fuel as [|fuel IH]; intros s i q x Hre Hx Hq Ha Hn.
  - exists x, (mem s). cbn [piperead_loop Nat.min take drop]. rewrite Z.add_0_r in Hn. subst i.
    rewrite Z.ltb_irrefl, Z.add_0_r, insert_id by done. cbn [negb].
    cbv zeta. replace (set_pipes (k_pipes s) s) with s by by destruct s. rewrite put_mem_mem.
    split_and!; try done. intros a _ _. by rewrite take_0, decide_False by (cbn; lia).
  - cbn [piperead_loop]. rewrite (proj2 (Z.ltb_lt i n)) by lia. cbn [negb].
    rewrite (bind_ok _ _ _ _ _ (pipe_at_run pi x s Hx)).
    destruct q as [|c q].
    { rewrite (proj2 (Z.eqb_eq _ _)) by (symmetry; by apply (pipe_empty x [])).
      exists x, (mem s). cbn [length Nat.min take drop]. rewrite Z.add_0_r, insert_id by done.
      cbv zeta. replace (set_pipes (k_pipes s) s) with s by by destruct s. rewrite put_mem_mem.
      split_and!; try done. intros a _ _. by rewrite decide_False by (cbn; lia). }
    rewrite (proj2 (Z.eqb_neq _ _)) by (intros E; symmetry in E; by apply (pipe_empty x (c :: q)) in E).
    destruct (pipe_pop x q c Hq) as [-> Hq'].
    rewrite (bind_ok _ _ _ _ _ (upd_pipe_run pi _ x s Hx)). unfold myproc. rewrite bind_gets.
    pose proof Hre as [Hc Hp Hpt Hwf Hw]. set (x1 := set_nread _ x) in *.
    set (s1 := set_pipes (<[pi := x1]> (k_pipes s)) s).
    change (k_cur s1) with (k_cur s). rewrite Hc.
    rewrite (bind_ok _ _ _ _ _ (proc_at_run me s1 pr Hp)), Hpt.
    pose proof Hw as ((_ & Hm & _) & _). change MAXVA with 274877906944 in Hm. rewrite u64_small by lia.
    assert (Hw1 : writable s1 root (addr + i) 1).
    { destruct Hw as ((h1 & h2 & h3) & h4 & h5 & h6). split; [split_and!; [lia|change MAXVA with 274877906944; lia|]|split_and!].
      - intros a Ha'. apply h3. lia.
      - intros a p t Ha'. apply h4. lia.
      - intros a Ha'. apply h5. lia.
      - intros a a' pa Ha' Ha''. apply h6; [done|lia]. }
    destruct (copyout_ok s1 root (addr + i) [c] Hwf Hw1) as (m & E & Hsp & Hst).
    rewrite (bind_ok _ _ _ _ _ E). cbn [Z.eqb].
    destruct (IH (put_mem m s1) (i + 1) q x1) as (x' & m' & E' & Hq2 & Hse & Hsp' & Hst').
    + split; try done.
      * eapply same_nodes_wf; [by apply agree_nodes|done].
      * replace (addr + (i + 1)) with (addr + i + 1) by lia. replace (n - (i + 1)) with (n - i - 1) by lia.
        apply writable_put; [exact Hsp|exact Hw|lia].
    + apply lookup_insert_eq.
    + done.
    + lia.
    + lia.
    + exists x', m'. cbn [length Nat.min take drop]. split_and!.
      * rewrite E'. unfold s1. rewrite Nat2Z.inj_succ. unfold put_mem. kst.
        rewrite insert_insert_eq. by replace (i + 1 + _) with (i + Z.succ (Z.of_nat (Nat.min fuel (length q)))) by lia.
      * done.
      * done.
      * by eapply spares_trans.
      * eapply (stored_cons s (put_mem m s1)); [intros a Ha'; by apply (spares_xlate s1)|exact Hst|].
        replace (addr + i + 1) with (addr + (i + 1)) by lia.
        intros a Ha' Hne. rewrite <-(Hst' a Ha' Hne). unfold ubyte, view, mem, put_mem. kst. done.
Qed.

End read.

(** ** The system calls' view *)

(** After a critical section of the pipe: the processes asleep on [c] run. *)
Definition after_pipe (c : chan) (pi : Z) (x : pipe) (s : kstate) : kstate :=
  set_procs (wake c (k_cur s) (k_procs s)) (set_pipes (<[pi := x]> (k_pipes s)) s).

(** The end of both functions: wake the other side and let go of the lock. *)
Lemma pipe_finish c pi (v : Z) h s :
  L_pipe pi ∉ h → (∀ i, i ≠ k_cur s → L_proc i ∉ h) → length (k_procs s) = NPROC →
  k_held s = {[L_pipe pi]} ∪ h →
  (wakeup c;; release (L_pipe pi);; mret v) s =
  Ok v (set_held h (set_procs (wake c (k_cur s) (k_procs s)) s)).
Proof.
  intros Hl Hp Hn Hh.
  rewrite (bind_ok _ _ _ _ _ (wakeup_run c s ltac:(intros i Hi; rewrite Hh; set_solver) Hn)).
  set (s1 := set_procs _ s).
  rewrite (bind_ok _ _ _ _ _ (release_run (L_pipe pi) s1 ltac:(unfold s1; kst; rewrite Hh; set_solver))).
  unfold s1. kst. rewrite Hh, held_restore by done. done.
Qed.

(** C33: A pipe is a queue for its writers: pipewrite() of n bytes that fit
    returns n and appends exactly the n user bytes to the queue, in order,
    whatever the position and the wrap-around of its indices; user memory is
    not touched, the lock is released and the sleeping readers are woken. *)
Theorem pipewrite_appends pi addr n root me pr s q x :
  writer addr n root me pr s 0 → k_pipes s !! pi = Some x → pi_readopen x = true →
  pipe_queue x q → 0 ≤ n → Z.of_nat (length q) + n ≤ PIPESIZE → 0 ≤ addr →
  L_pipe pi ∉ k_held s → no_proc_locks s → length (k_procs s) = NPROC →
  ∃ x', pipewrite pi addr n s = Ok n (after_pipe (C_nread pi) pi x' s) ∧
    pipe_queue x' (q ++ ubytes s root addr (Z.to_nat n)) ∧ same_ends x x'.
Proof.
  intros Hw Hx Hro Hq Hn Hl Ha Hh Hnp Hps. unfold pipewrite.
  rewrite (bind_ok _ _ _ _ _ (acquire_run (L_pipe pi) s Hh)).
  set (s0 := set_held _ s).
  destruct (pipewrite_loop_ok pi addr n root me pr (Z.to_nat n) s0 0 q x) as (x' & E & Hq' & Hse);
    [by destruct Hw; split|done|done|done|lia|lia|lia|].
  exists x'. split_and!; [|rewrite Z.add_0_r, (ubytes_mm s) in Hq' by done; exact Hq'|done].
  rewrite E. rewrite (pipe_finish _ _ _ (k_held s)); [|done|exact Hnp|exact Hps|done].
  unfold after_pipe, s0. kst. by destruct s.
Qed.

(** C34: ... and for its readers: piperead() of up to n bytes from a pipe that
    holds bytes, or that no one can write to any more, returns the number of
    bytes it took, the smaller of n and the number of bytes there; these are
    the oldest ones, in order, now in the user's buffer and gone from the
    queue; no other user byte changes, the lock is released and the sleeping
    writers are woken. *)
Theorem piperead_takes pi addr n root me pr s q x :
  reader addr n root me pr s 0 → k_pipes s !! pi = Some x →
  pipe_queue x q → q ≠ [] ∨ pi_writeopen x = false → 0 ≤ n → 0 ≤ addr →
  L_pipe pi ∉ k_held s → no_proc_locks s → length (k_procs s) = NPROC →
  let k := Nat.min (Z.to_nat n) (length q) in
  ∃ x' m, let s' := put_mem m (after_pipe (C_nwrite pi) pi x' s) in
    piperead pi addr n s = Ok (Z.of_nat k) s' ∧
    pipe_queue x' (drop k q) ∧ same_ends x x' ∧
    spares s root m ∧ stored s s' root addr (take k q).
Proof.
  intros Hr Hx Hq Hor Hn Ha Hh Hnp Hps k. unfold piperead.
  rewrite (bind_ok _ _ _ _ _ (acquire_run (L_pipe pi) s Hh)).
  set (s0 := set_held _ s).
  rewrite (bind_ok _ _ _ _ _ (pipe_at_run pi x s0 Hx)).
  assert (Hc : (pi_nread x =? pi_nwrite x) && pi_writeopen x = false).
  { destruct Hor as [Hne| ->]; [|apply andb_false_r]. apply andb_false_intro1, Z.eqb_neq.
    intros E. symmetry in E. by apply (pipe_empty x q Hq) in E. }
  rewrite Hc.
  destruct (piperead_loop_ok pi addr n root me pr (Z.to_nat n) s0 0 q x) as (x' & m & E & Hq' & Hse & Hsp & Hst);
    [by destruct Hr; split|done|done|lia|lia|].
  exists x', m. cbv zeta. split_and!; [|exact Hq'|exact Hse|exact Hsp|].
  - rewrite E, Z.add_0_l. rewrite (pipe_finish _ _ _ (k_held s)); [|done|exact Hnp|exact Hps|done].
    unfold after_pipe, s0, put_mem. kst. by destruct s.
  - rewrite Z.add_0_r in Hst. exact Hst.
Qed.

End pipe_spec.

(** A pipe whose write index has just wrapped around, holding bytes 7 and 8,
    and a process with one mapped page. *)
Definition pipe_wrapped : pipe :=
  Pipe (<[511%nat := 7]> (<[0%nat := 8]> (replicate 512 0))) (2 ^ 32 - 1) 1 true true.
Definition st_pipe : kstate := set_pipes {[ 0x87020000 := pipe_wrapped ]} st1.

Lemma wrapped_queue : pipe_queue pipe_wrapped [7; 8].
Proof.
  split; [done|done|by vm_compute|done|].
  intros [|[|i]] c; [intros [= <-]; by vm_compute..|done].
Qed.

Lemma st_pipe_free s : s = set_mm (k_mm s) st_pipe → (L_pipe 0x87020000 ∉ k_held s) ∧ no_proc_locks s.
Proof. intros ->. split; [|intros i _]; apply not_elem_of_empty. Qed.

Lemma pipewrite_appends_witness : ∃ s s', pipewrite 0x87020000 START_ADDRESS 3 s = Ok 3 s'.
Proof.
  destruct (mapped_writable st_pipe) as (s & Es & Hwf & Hw); [done|apply free_list1|done..|].
  destruct (st_pipe_free s Es) as [Hl Hp].
  destruct (pipewrite_appends 0x87020000 START_ADDRESS 3 root0 0 proc_two s [7; 8] pipe_wrapped) as (x' & E & _).
  - split; [by rewrite Es|by rewrite Es|done|done|exact Hwf|].
    apply (Hw (START_ADDRESS + 0) (3 - 0)); [lia|lia].
  - by rewrite Es.
  - done.
  - exact wrapped_queue.
  - lia.
  - done.
  - done.
  - exact Hl.
  - exact Hp.
  - by rewrite Es.
  - exists s. eexists. exact E.
Defined.

Lemma piperead_takes_witness : ∃ s s', piperead 0x87020000 START_ADDRESS 10 s = Ok 2 s'.
Proof.
  destruct (mapped_writable st_pipe) as (s & Es & Hwf & Hw); [done|apply free_list1|done..|].
  destruct (st_pipe_free s Es) as [Hl Hp].
  destruct (piperead_takes 0x87020000 START_ADDRESS 10 root0 0 proc_two s [7; 8] pipe_wrapped) as (x' & m & E & _).
  - split; [by rewrite Es|by rewrite Es|done|exact Hwf|].
    apply (Hw (START_ADDRESS + 0) (10 - 0)); [lia|lia].
  - by rewrite Es.
  - exact wrapped_queue.
  - by left.
  - lia.
  - done.
  - exact Hl.
  - exact Hp.
  - by rewrite Es.
  - exists s. eexists. exact E.
Defined.
