(* ===== verification/Console.v ===== *)
(** kernel/uart.c, kernel/console.c and kernel/printf.c: the serial port, the
    line discipline on top of it and formatted kernel output.

    The 16550 chip is a parameter: two register operations, and what its data
    sheet promises about them.  The console state extends the kernel state;
    kernel functions run inside it unchanged. *)

From S2P Require Import Prelude Riscv Kstate Mem Kalloc Vm Sched Bytes Bio Log Fs Ulib.

(** ** The chip *)

(** Register offsets and bits *)
Definition RHR : Z := 0.
Definition THR : Z := 0.
Definition IER : Z := 1.
Definition IER_RX_ENABLE : Z := 1.
Definition IER_TX_ENABLE : Z := 2.
Definition FCR : Z := 2.
Definition FCR_FIFO_ENABLE : Z := 1.
Definition FCR_FIFO_CLEAR : Z := 6.
Definition LCR : Z := 3.
Definition LCR_EIGHT_BITS : Z := 3.
Definition LCR_BAUD_LATCH : Z := 128.
Definition LSR : Z := 5.
Definition LSR_RX_READY : Z := 1.
Definition LSR_TX_IDLE : Z := 32.

(** ReadReg(), which may change the chip (reading RHR takes the byte), and
    WriteReg().  [spin] bounds how often a busy-wait polls. *)
Class UartHw (hw : Type) : Type := {
  rd : Z → hw → Z * hw;
  wr : Z → Z → hw → hw;
  spin : nat;
}.

(** What the driver relies on: reading the line status changes neither what
    was sent nor what is waiting; a byte written to THR right after the status
    said the transmitter is idle is sent; the status says so within [spin]
    polls; its low bit tells whether a byte is waiting in RHR. *)
Class UartOk (hw : Type) `{UartHw hw} : Type := {
  sent : hw → list Z;
  waiting : hw → list Z;
  lsr_sent : ∀ h, sent (rd LSR h).2 = sent h;
  lsr_waiting : ∀ h, waiting (rd LSR h).2 = waiting h;
  thr_sent : ∀ h c, Z.land (rd LSR h).1 LSR_TX_IDLE ≠ 0 →
    sent (wr THR c (rd LSR h).2) = sent h ++ [c];
  thr_waiting : ∀ h c, waiting (wr THR c h) = waiting h;
  tx_soon : ∀ h, ∃ k, (k < spin)%nat ∧
    Z.land (rd LSR (Nat.iter k (λ h, (rd LSR h).2) h)).1 LSR_TX_IDLE ≠ 0;
  lsr_rx : ∀ h, Z.land (rd LSR h).1 1 ≠ 0 ↔ waiting h ≠ [];
  rhr_waiting : ∀ h c l, waiting h = c :: l → (rd RHR h).1 = c ∧ waiting (rd RHR h).2 = l;
  rhr_sent : ∀ h, sent (rd RHR h).2 = sent h;
}.

(** ** The state *)

Definition UART_TX_BUF_SIZE : Z := 32.
Definition INPUT_BUF : Z := 128.
Definition BACKSPACE : Z := 0x100.
(** C('D') and the like *)
Definition ctrl (x : Z) : Z := x - 64.

(** cons of console.c *)
Record cons : Type := Cons { c_buf : list Z; c_r : Z; c_w : Z; c_e : Z }.

Record con {hw : Type} : Type := Con {
  cs_k : kstate;
  cs_cons : cons;
  cs_txbuf : list Z;       (* uart_tx_buf *)
  cs_txw : Z;              (* uart_tx_w *)
  cs_txr : Z;              (* uart_tx_r *)
  cs_hw : hw;
  cs_panicked : bool;      (* printf.c *)
  cs_locking : bool;       (* pr.locking *)
}.
Arguments con : clear implicits.
Arguments Con {hw}.

(** How console code stops: as kernel code does, or in an endless loop. *)
Inductive cerr : Type :=
| CKern (e : kerr)
| CHang.

Section console.
Context {L : Layout} {hw : Type} {U : UartHw hw}.

Abbreviation C := (M cerr (con hw)).

Definition with_k k (s : con hw) := Con k (cs_cons s) (cs_txbuf s) (cs_txw s) (cs_txr s) (cs_hw s) (cs_panicked s) (cs_locking s).
Definition with_cons c (s : con hw) := Con (cs_k s) c (cs_txbuf s) (cs_txw s) (cs_txr s) (cs_hw s) (cs_panicked s) (cs_locking s).
Definition with_hw (h : hw) (s : con hw) := Con (cs_k s) (cs_cons s) (cs_txbuf s) (cs_txw s) (cs_txr s) h (cs_panicked s) (cs_locking s).
Definition with_tx b w r (s : con hw) := Con (cs_k s) (cs_cons s) b w r (cs_hw s) (cs_panicked s) (cs_locking s).
Definition with_panicked p (s : con hw) := Con (cs_k s) (cs_cons s) (cs_txbuf s) (cs_txw s) (cs_txr s) (cs_hw s) p (cs_locking s).
Definition with_locking l (s : con hw) := Con (cs_k s) (cs_cons s) (cs_txbuf s) (cs_txw s) (cs_txr s) (cs_hw s) (cs_panicked s) l.

(** Run a kernel function. *)
Definition kern {A} (m : K A) : C A := λ s,
  match m (cs_k s) with
  | Ok a k => Ok a (with_k k s)
  | Err e k => Err (CKern e) (with_k k s)
  end.

Definition ReadReg (r : Z) : C Z := λ s, let '(v, h) := rd r (cs_hw s) in Ok v (with_hw h s).
Definition WriteReg (r v : Z) : C unit := modify (λ s, with_hw (wr r v (cs_hw s)) s).

(** ** uart.c *)

Definition uartinit : C unit :=
  WriteReg IER 0;;
  WriteReg LCR LCR_BAUD_LATCH;;
  WriteReg 0 3;;
  WriteReg 1 0;;
  WriteReg LCR LCR_EIGHT_BITS;;
  WriteReg FCR (Z.lor FCR_FIFO_ENABLE FCR_FIFO_CLEAR);;
  WriteReg IER (Z.lor IER_TX_ENABLE IER_RX_ENABLE).

(** while(1) of uartstart(): every iteration but the last takes a byte out of
    the ring. *)
Fixpoint uartstart_loop (fuel : nat) : C unit :=
  match fuel with
  | O => fail (CKern EFuel)
  | S fuel =>
      s ← get;
      if cs_txw s =? cs_txr s then skip
      else
        lsr ← ReadReg LSR;
        if Z.land lsr LSR_TX_IDLE =? 0 then skip
        else
          s ← get;
          let c := cs_txbuf s !!! Z.to_nat (cs_txr s mod UART_TX_BUF_SIZE) in
          modify (λ s, with_tx (cs_txbuf s) (cs_txw s) (u64 (cs_txr s + 1)) s);;
          kern (wakeup C_uart);;
          WriteReg THR c;;
          uartstart_loop fuel
  end.
Definition uartstart : C unit := uartstart_loop (S (Z.to_nat UART_TX_BUF_SIZE)).

Definition uartputc (c : Z) : C unit :=
  kern (acquire L_uart);;
  s ← get;
  if cs_panicked s then fail CHang
  else if cs_txw s =? u64 (cs_txr s + UART_TX_BUF_SIZE) then kern (sleep C_uart L_uart)
  else
    modify (λ s, with_tx (<[Z.to_nat (cs_txw s mod UART_TX_BUF_SIZE) := c mod 256]> (cs_txbuf s))
                   (u64 (cs_txw s + 1)) (cs_txr s) s);;
    uartstart;;
    kern (release L_uart).

(** while((ReadReg(LSR) & LSR_TX_IDLE) == 0); *)
Fixpoint wait_idle (fuel : nat) : C unit :=
  match fuel with
  | O => fail CHang
  | S fuel =>
      lsr ← ReadReg LSR;
      if Z.land lsr LSR_TX_IDLE =? 0 then wait_idle fuel else skip
  end.

(** Its push_off() and pop_off() pair up on every path that returns. *)
Definition uartputc_sync (c : Z) : C unit :=
  s ← get;
  if cs_panicked s then fail CHang
  else
    wait_idle spin;;
    WriteReg THR (c mod 256).

Definition uartgetc : C Z :=
  lsr ← ReadReg LSR;
  if Z.land lsr 1 =? 0 then mret (-1) else ReadReg RHR.

(** ** console.c *)

Definition consputc (c : Z) : C unit :=
  if c =? BACKSPACE then
    uartputc_sync 8;; uartputc_sync 32;; uartputc_sync 8
  else uartputc_sync c.

(** ** printf.c *)

(** digits[] = "0123456789abcdef" *)
Definition kdigits : list Z :=
  [48; 49; 50; 51; 52; 53; 54; 55; 56; 57; 97; 98; 99; 100; 101; 102].

Definition puts (l : list Z) : C unit := forM l consputc.

Definition kprintint (xx base : Z) (sign : bool) : C unit := puts (printint_with kdigits xx base sign).
Definition kprintptr (x : Z) : C unit := puts (printptr_with kdigits x).

(** The switch of printf(); va_arg() without an argument reads what happens to
    be there and is left out of the model. *)
Definition kconversion (c : Z) (ap : list varg) : C (list varg) :=
  let no_arg := fail (CKern (EFault 0)) in
  if c =? 100 (* d *) then
    match va_arg va_machine TInt ap with Some (v, ap) => kprintint v 10 true;; mret ap | None => no_arg end
  else if c =? 120 (* x *) then
    match va_arg va_machine TInt ap with Some (v, ap) => kprintint v 16 true;; mret ap | None => no_arg end
  else if c =? 112 (* p *) then
    match va_arg va_machine TUlong ap with Some (v, ap) => kprintptr v;; mret ap | None => no_arg end
  else if c =? 115 (* s *) then
    match va_str ap with Some (s, ap) => puts (cstr (default null_str s));; mret ap | None => no_arg end
  else if c =? 37 (* % *) then consputc 37;; mret ap
  else consputc 37;; consputc c;; mret ap.

Fixpoint kprintf_loop (fmt : list Z) (ap : list varg) : C unit :=
  match fmt with
  | [] => skip
  | c :: fmt' =>
      if c =? 0 then skip
      else if negb (c =? 37) then consputc c;; kprintf_loop fmt' ap
      else
        match fmt' with
        | [] => skip
        | c' :: fmt'' =>
            if c' =? 0 then skip
            else ap ← kconversion c' ap; kprintf_loop fmt'' ap
        end
  end.

Definition kprintf (fmt : list Z) (ap : list varg) : C unit :=
  s ← get;
  let locking := cs_locking s in
  when locking (kern (acquire L_pr));;
  kprintf_loop fmt ap;;
  when locking (kern (release L_pr)).

(** "panic: " *)
Definition panic_str : list Z := [112; 97; 110; 105; 99; 58; 32].

Definition kpanic {A} (s : list Z) : C A :=
  modify (with_locking false);;
  kprintf panic_str [];;
  kprintf s [];;
  kprintf [10] [];;
  modify (with_panicked true);;
  fail CHang.

Definition printfinit : C unit := modify (with_locking true).

(** procdump() of proc.c; the names are "sleep ", "runble", "run   ",
    "zombie", and "???" for a state without one. *)
Definition state_name (st : procstate) : list Z :=
  match st with
  | UNUSED => [117; 110; 117; 115; 101; 100]
  | USED => [63; 63; 63]
  | SLEEPING => [115; 108; 101; 101; 112; 32]
  | RUNNABLE => [114; 117; 110; 98; 108; 101]
  | RUNNING => [114; 117; 110; 32; 32; 32]
  | ZOMBIE => [122; 111; 109; 98; 105; 101]
  end.

Definition procdump : C unit :=
  kprintf [10] [];;
  forM (upto NPROC) (λ i,
    x ← kern (proc_at i);
    if bool_decide (p_state x = UNUSED) then skip
    else
      kprintf [37; 100; 32; 37; 115; 32; 37; 115]
        [AInt (p_pid x); AStr (Some (state_name (p_state x))); AStr (Some (p_name x))];;
      kprintf [10] []).

(** ** console.c: input *)

Definition cons_at (c : cons) (i : Z) : Z := c_buf c !!! Z.to_nat (i mod INPUT_BUF).

(** while(cons.e != cons.w && cons.buf[(cons.e-1) % INPUT_BUF] != '\n') *)
Fixpoint kill_loop (fuel : nat) : C unit :=
  match fuel with
  | O => fail (CKern EFuel)
  | S fuel =>
      s ← get;
      let c := cs_cons s in
      if negb (c_e c =? c_w c) && negb (cons_at c (u32 (c_e c - 1)) =? 10) then
        modify (with_cons (Cons (c_buf c) (c_r c) (c_w c) (u32 (c_e c - 1))));;
        consputc BACKSPACE;;
        kill_loop fuel
      else skip
  end.

(** case C('H'): case '\x7f': *)
Definition backspace : C unit :=
  s ← get;
  let x := cs_cons s in
  when (negb (c_e x =? c_w x))
    (modify (with_cons (Cons (c_buf x) (c_r x) (c_w x) (u32 (c_e x - 1))));;
     consputc BACKSPACE).

(** default: *)
Definition store_char (c : Z) : C unit :=
  s ← get;
  let x := cs_cons s in
  when (negb (c =? 0) && (u32 (c_e x - c_r x) <? INPUT_BUF))
    (let c := if c =? 13 then 10 else c in
     consputc c;;
     s ← get;
     let x := cs_cons s in
     let x := Cons (<[Z.to_nat (c_e x mod INPUT_BUF) := c mod 256]> (c_buf x))
                (c_r x) (c_w x) (u32 (c_e x + 1)) in
     modify (with_cons x);;
     when ((c =? 10) || (c =? ctrl 68) || (c_e x =? u32 (c_r x + INPUT_BUF)))
       (modify (with_cons (Cons (c_buf x) (c_r x) (c_e x) (c_e x)));;
        kern (wakeup C_cons))).

Definition consoleintr (c : Z) : C unit :=
  kern (acquire L_cons);;
  (if c =? ctrl 80 then procdump
   else if c =? ctrl 85 then kill_loop (S (Z.to_nat INPUT_BUF))
   else if (c =? ctrl 72) || (c =? 127) then backspace
   else store_char c);;
  kern (release L_cons).

(** while(n > 0) of consoleread(): [n] bytes are still wanted.  [None] is the
    return with -1 of a killed process; otherwise the final [n]. *)
Fixpoint consoleread_loop (n : nat) (target : Z) (dst : dest) : C (option nat) :=
  match n with
  | O => mret (Some O)
  | S n' =>
      s ← get;
      let x := cs_cons s in
      if c_r x =? c_w x then
        p ← kern myproc;
        me ← kern (proc_at p);
        if negb (p_killed me =? 0) then kern (release L_cons);; mret None
        else kern (sleep C_cons L_cons)
      else
        let c := cons_at x (c_r x) in
        modify (with_cons (Cons (c_buf x) (u32 (c_r x + 1)) (c_w x) (c_e x)));;
        if c =? ctrl 68 then
          when (Z.of_nat n <? target) (modify (with_cons x));;
          mret (Some n)
        else
          r ← kern (either_copyout dst [c]);
          if r =? -1 then mret (Some n)
          else if c =? 10 then mret (Some n')
          else consoleread_loop n' target (dest_add dst 1)
  end.

Definition consoleread (dst : dest) (n : Z) : C Z :=
  kern (acquire L_cons);;
  r ← consoleread_loop (Z.to_nat n) n dst;
  match r with
  | None => mret (-1)
  | Some k => kern (release L_cons);; mret (Z.max n 0 - Z.of_nat k)
  end.

(** for(i = 0; i < n; i++) of consolewrite() *)
Fixpoint consolewrite_loop (n : nat) (src : source) (i : Z) : C Z :=
  match n with
  | O => mret i
  | S n =>
      r ← kern (either_copyin src 1);
      if r.1 =? -1 then mret i
      else
        uartputc (r.2 !!! 0%nat);;
        consolewrite_loop n (source_add src 1) (i + 1)
  end.
Definition consolewrite (src : source) (n : Z) : C Z := consolewrite_loop (Z.to_nat n) src 0.

Definition consoleinit : C unit := uartinit.

(** ** uart.c: the interrupt handler *)

(** while(1) over the bytes that have arrived. *)
Fixpoint uartintr_loop (fuel : nat) : C unit :=
  match fuel with
  | O => fail (CKern EFuel)
  | S fuel =>
      c ← uartgetc;
      if c =? -1 then skip
      else consoleintr c;; uartintr_loop fuel
  end.
Definition uartintr (fuel : nat) : C unit :=
  uartintr_loop fuel;;
  kern (acquire L_uart);;
  uartstart;;
  kern (release L_uart).

End console.
