(* ===== verification/ConsoleSpec.v ===== *)
(** The console as the rest of the kernel sees it: bytes leave the serial port
    in the order they were written, typed characters become edited lines, and
    a read returns one line. *)

From S2P Require Import Prelude Riscv Kstate Mem Kalloc Vm PageTable VmSpec Machine VmMap VmCopy MemTheorems Sched Bytes Bio Log Fs Ulib RingBuf Pipe PipeSpec Console.

Section console_spec.
Context {L : Layout} {hw : Type} {U : UartHw hw} {UO : UartOk hw}.

Implicit Types s : con hw.

(** ** Stepping through console code *)

Lemma kern_ok {A} (m : K A) s a k : m (cs_k s) = Ok a k → kern m s = Ok a (with_k k s).
Proof. intros E. unfold kern. by rewrite E. Qed.

Lemma bind_get {B} (k : con hw → M cerr (con hw) B) s : (get ≫= k) s = k s s.
Proof. done. Qed.

Lemma bind_read {B} r (k : Z → M cerr (con hw) B) s :
  (ReadReg r ≫= k) s = k (rd r (cs_hw s)).1 (with_hw (rd r (cs_hw s)).2 s).
Proof. unfold ReadReg, mbind, M_bind. by destruct (rd r (cs_hw s)). Qed.

(** ** Synchronous output *)

(** The transmitter was found idle. *)
Definition idle (h : hw) : Prop :=
  ∃ h0, h = (rd LSR h0).2 ∧ Z.land (rd LSR h0).1 LSR_TX_IDLE ≠ 0.

Lemma wait_idle_ok fuel s :
  (∃ k, (k < fuel)%nat ∧
    Z.land (rd LSR (Nat.iter k (λ h, (rd LSR h).2) (cs_hw s))).1 LSR_TX_IDLE ≠ 0) →
  ∃ h, wait_idle fuel s = Ok tt (with_hw h s) ∧ idle h ∧
    sent h = sent (cs_hw s) ∧ waiting h = waiting (cs_hw s).
Proof.
  revert s. induction fuel as [|fuel IH]; intros s (k & Hk & Hi); [lia|].
  cbn [wait_idle]. rewrite bind_read.
  destruct (Z.eqb_spec (Z.land (rd LSR (cs_hw s)).1 LSR_TX_IDLE) 0) as [E|E].
  - destruct k as [|k]; [by cbn in Hi|].
    destruct (IH (with_hw (rd LSR (cs_hw s)).2 s)) as (h & Eh & ? & Es & Ew).
    + exists k. split; [lia|]. cbn [cs_hw with_hw]. by rewrite Nat.iter_succ_r in Hi.
    + exists h. cbn [cs_hw with_hw] in *. rewrite lsr_sent in Es. rewrite lsr_waiting in Ew. done.
  - exists (rd LSR (cs_hw s)).2. split_and!; [done|by exists (cs_hw s)|apply lsr_sent|apply lsr_waiting].
Qed.

Lemma uartputc_sync_ok c s :
  cs_panicked s = false →
  ∃ h, uartputc_sync c s = Ok tt (with_hw h s) ∧
    sent h = sent (cs_hw s) ++ [c mod 256] ∧ waiting h = waiting (cs_hw s).
Proof.
  intros Hp. unfold uartputc_sync. rewrite bind_get, Hp.
  destruct (wait_idle_ok spin s (tx_soon (cs_hw s))) as (h & E & (h0 & -> & Hi) & Es & Ew).
  rewrite (bind_ok _ _ _ _ _ E). rewrite lsr_sent in Es. rewrite lsr_waiting in Ew.
  exists (wr THR (c mod 256) (rd LSR h0).2). split_and!; [done| |by rewrite thr_waiting, lsr_waiting].
  by rewrite thr_sent, Es.
Qed.

(** What consputc() shows. *)
Definition echo (c : Z) : list Z := if c =? BACKSPACE then [8; 32; 8] else [c mod 256].

Lemma consputc_ok c s :
  cs_panicked s = false →
  ∃ h, consputc c s = Ok tt (with_hw h s) ∧
    sent h = sent (cs_hw s) ++ echo c ∧ waiting h = waiting (cs_hw s).
Proof.
  intros Hp. unfold consputc, echo. destruct (c =? BACKSPACE); [|by apply uartputc_sync_ok].
  destruct (uartputc_sync_ok 8 s Hp) as (h1 & E1 & S1 & W1). rewrite (bind_ok _ _ _ _ _ E1).
  destruct (uartputc_sync_ok 32 (with_hw h1 s) Hp) as (h2 & E2 & S2 & W2). rewrite (bind_ok _ _ _ _ _ E2).
  destruct (uartputc_sync_ok 8 (with_hw h2 s) Hp) as (h3 & E3 & S3 & W3).
  exists h3. cbn [cs_hw with_hw] in *. split_and!; [exact E3| |congruence].
  rewrite S3, S2, S1. by rewrite <-!app_assoc.
Qed.

(** ** The transmit ring *)

Definition tx_ring s (q : list Z) : Prop :=
  holds_queue UART_TX_BUF_SIZE (2 ^ 64) (cs_txbuf s) (cs_txr s) (cs_txw s) q.

(** wakeup() can run. *)
Definition wakeable (k : kstate) : Prop := no_proc_locks k ∧ length (k_procs k) = NPROC.

Lemma woken_woken c me i x : woken c me i (woken c me i x) = woken c me i x.
Proof.
  set (b := bool_decide (i ≠ me) && bool_decide (p_state x = SLEEPING) && bool_decide (p_chan x = c)).
  assert (E : woken c me i x = if b then set_state RUNNABLE x else x) by done.
  rewrite E. destruct b eqn:Eb; [|done]. unfold woken.
  rewrite (bool_decide_eq_false_2 (p_state (set_state RUNNABLE x) = SLEEPING)) by done.
  by rewrite andb_false_r.
Qed.

Lemma wake_wake c me ps : wake c me (wake c me ps) = wake c me ps.
Proof.
  apply list_eq. intros i. unfold wake. rewrite !list_lookup_imap.
  destruct (ps !! i); cbn; [by rewrite woken_woken|done].
Qed.

Lemma wakeable_procs k ps :
  wakeable k → length ps = length (k_procs k) → wakeable (set_procs ps k).
Proof. intros [H1 H2] E. split; [exact H1|]. kst. congruence. Qed.

Lemma wakeup_kern c s :
  wakeable (cs_k s) →
  kern (wakeup c) s =
  Ok tt (with_k (set_procs (wake c (k_cur (cs_k s)) (k_procs (cs_k s))) (cs_k s)) s).
Proof. intros [H1 H2]. by apply kern_ok, wakeup_run. Qed.

(** The state after bytes left the ring: they were sent, and writers waiting
    for space run. *)
Record drained s s' (q q' : list Z) : Prop := {
  dr_ring : tx_ring s' q';
  dr_sent : sent (cs_hw s') ++ q' = sent (cs_hw s) ++ q;
  dr_waiting : waiting (cs_hw s') = waiting (cs_hw s);
  dr_cons : cs_cons s' = cs_cons s;
  dr_flags : cs_panicked s' = cs_panicked s ∧ cs_locking s' = cs_locking s;
  dr_k : cs_k s' = set_procs (if decide (q' = q) then k_procs (cs_k s)
                              else wake C_uart (k_cur (cs_k s)) (k_procs (cs_k s))) (cs_k s);
}.

Lemma drained_lsr s q :
  tx_ring s q → drained s (with_hw (rd LSR (cs_hw s)).2 s) q q.
Proof.
  intros H. split; [done|cbn; by rewrite lsr_sent|cbn; by rewrite lsr_waiting|done|done|].
  cbn. rewrite decide_True by done. by destruct (cs_k s).
Qed.


Lemma uartstart_loop_ok fuel s q :
  tx_ring s q → (length q < fuel)%nat → wakeable (cs_k s) →
  ∃ s' q', uartstart_loop fuel s = Ok tt s' ∧ drained s s' q q' ∧ q' `suffix_of` q.
Proof.
  revert s q. induction fuel as [|fuel IH]; intros s q Hq Hf Hw; [lia|].
  cbn [uartstart_loop]. rewrite bind_get.
  assert (Hem : cs_txw s = cs_txr s ↔ q = []).
  { by apply (hq_empty UART_TX_BUF_SIZE (2 ^ 64) (2 ^ 59) eq_refl eq_refl eq_refl _ _ _ _ Hq). }
  destruct (Z.eqb_spec (cs_txw s) (cs_txr s)) as [E|E].
  { exists s, q. split_and!; [done| |done]. split; try done. rewrite decide_True by done. by destruct (cs_k s). }
  destruct q as [|c q]; [by destruct E; apply Hem|].
  rewrite bind_read.
  destruct (Z.eqb_spec (Z.land (rd LSR (cs_hw s)).1 LSR_TX_IDLE) 0) as [El|El].
  { eexists _, (c :: q). split_and!; [done|by apply drained_lsr|done]. }
  rewrite bind_get. set (s1 := with_hw _ s).
  destruct (hq_pop UART_TX_BUF_SIZE (2 ^ 64) (2 ^ 59) eq_refl eq_refl eq_refl _ _ _ _ _ Hq) as [Hc Hq'].
  replace (cs_txbuf s1 !!! Z.to_nat (cs_txr s1 mod UART_TX_BUF_SIZE)) with c
    by (symmetry; by apply list_lookup_total_correct).
  rewrite bind_modify. set (s2 := with_tx _ _ _ s1).
  rewrite (bind_ok _ _ _ _ _ (wakeup_kern C_uart s2 Hw)). unfold WriteReg. rewrite bind_modify.
  set (s3 := with_hw _ _).
  assert (Hw3 : wakeable (cs_k s3)) by (apply (wakeable_procs (cs_k s)); [done|apply length_wake]).
  destruct (IH s3 q) as (s' & q' & E' & D & Hsuf); [exact Hq'|cbn in Hf; lia|exact Hw3|].
  exists s', q'. split_and!; [exact E'| |by apply suffix_cons_r].
  destruct D as [D1 D2 D3 D4 D5 D6]. cbn [s3 s2 s1 with_hw with_tx with_k cs_hw cs_cons cs_panicked cs_locking cs_k] in *.
  split; [done| |by rewrite D3, thr_waiting, lsr_waiting|done|done|].
  - rewrite D2, thr_sent by done. by rewrite <-app_assoc.
  - rewrite D6. kst. rewrite wake_wake.
    assert (q' ≠ c :: q) by (intros ->; apply suffix_length in Hsuf; cbn in Hsuf; lia).
    rewrite (decide_False (P := q' = c :: q)) by done. by case_decide.
Qed.

Lemma tx_full s q :
  tx_ring s q → cs_txw s = u64 (cs_txr s + UART_TX_BUF_SIZE) ↔ Z.of_nat (length q) = UART_TX_BUF_SIZE.
Proof. intros H. by apply (hq_full UART_TX_BUF_SIZE (2 ^ 64) (2 ^ 59) eq_refl eq_refl eq_refl _ _ _ _ H). Qed.

Lemma uartstart_ok s q :
  tx_ring s q → wakeable (cs_k s) →
  ∃ s' q', uartstart s = Ok tt s' ∧ drained s s' q q' ∧ q' `suffix_of` q.
Proof.
  intros Hq Hw. apply uartstart_loop_ok; [done| |done].
  pose proof (hq_fit _ _ _ _ _ _ Hq). unfold UART_TX_BUF_SIZE in *. lia.
Qed.

(** sleep(): with only [lk] held, the process gives up the processor. *)
Definition asleep (c : chan) (x : proc) (k : kstate) : kstate :=
  set_procs (<[k_cur k := set_state SLEEPING (set_chan c x)]> (k_procs k))
    (set_held {[L_proc (k_cur k)]} k).

Lemma sleep_run {A} c lk k x :
  k_held k = {[lk]} → lk ≠ L_proc (k_cur k) → k_procs k !! k_cur k = Some x →
  @sleep A c lk k = Err ESched (asleep c x k).
Proof.
  intros Hh Hne Hx. unfold sleep, myproc. rewrite bind_gets.
  rewrite (bind_ok _ _ _ _ _ (acquire_run (L_proc (k_cur k)) k ltac:(rewrite Hh; set_solver))).
  set (k1 := set_held _ k).
  rewrite (bind_ok _ _ _ _ _ (release_run lk k1 ltac:(unfold k1; kst; rewrite Hh; set_solver))).
  assert (Ek : k_held k1 ∖ {[lk]} = {[L_proc (k_cur k)]}) by (unfold k1; kst; rewrite Hh; set_solver).
  rewrite Ek. unfold k1, upd_proc. kst. set (k2 := KState _ _ _ _ _ _ _ _ _ _ _ _) at 1.
  rewrite (bind_ok _ _ _ _ _ (assign_run k_procs set_procs (k_cur k) _ k2 x Hx)). unfold k2. kst.
  assert (Hlt : (k_cur k < length (k_procs k))%nat) by by eapply lookup_lt_Some.
  set (k3 := KState _ _ _ _ _ _ _ _ _ _ _ _) at 1.
  rewrite (bind_ok _ _ _ _ _ (assign_run k_procs set_procs (k_cur k) _ k3 (set_chan c x)
    (list_lookup_insert_eq _ _ _ Hlt))).
  unfold k3. kst. rewrite list_insert_insert_eq. unfold sched, myproc. rewrite bind_gets. kst.
  unfold holding. rewrite bind_assoc, bind_gets. kst. rewrite bool_decide_eq_true_2 by set_solver.
  rewrite bind_ret. cbn [negb]. rewrite bind_gets. kst.
  rewrite size_singleton, bool_decide_eq_true_2 by done. cbn [negb].
  erewrite bind_ok; [|apply proc_at_run; kst; by apply list_lookup_insert_eq].
  rewrite bool_decide_eq_false_2 by done. reflexivity.
Qed.

(** The serial output is a bounded queue in front of the wire.  While the
    32-byte ring has room, uartputc(c) returns with c behind everything
    written before it: the bytes already sent followed by the bytes still in
    the ring are what they were before, then c; nothing is lost, repeated or
    reordered, also when the 64-bit indices wrap around, and the lock is
    released.  When the ring is full the writer goes to sleep until space
    opens up, with the ring unchanged and the lock released. *)
Theorem uartputc_queues c s q x :
  tx_ring s q → cs_panicked s = false → k_held (cs_k s) = ∅ → length (k_procs (cs_k s)) = NPROC →
  k_procs (cs_k s) !! k_cur (cs_k s) = Some x →
  if Z.of_nat (length q) <? UART_TX_BUF_SIZE then
    ∃ s' q', uartputc c s = Ok tt s' ∧ tx_ring s' q' ∧
      sent (cs_hw s') ++ q' = sent (cs_hw s) ++ q ++ [c mod 256] ∧
      cs_cons s' = cs_cons s ∧ k_held (cs_k s') = ∅
  else uartputc c s = Err (CKern ESched) (with_k (asleep C_uart x (set_held {[L_uart]} (cs_k s))) s).
Proof.
  intros Hq Hp Hh Hn Hx. unfold uartputc.
  rewrite (bind_ok _ _ _ _ _ (kern_ok _ s _ _ (acquire_run L_uart (cs_k s) ltac:(rewrite Hh; set_solver)))).
  rewrite Hh, union_empty_r_L, bind_get. set (s1 := with_k _ s).
  change (cs_panicked s1) with (cs_panicked s). rewrite Hp.
  pose proof (tx_full s q Hq) as Hfull. change (cs_txw s1) with (cs_txw s). change (cs_txr s1) with (cs_txr s).
  pose proof (hq_fit _ _ _ _ _ _ Hq) as Hfit.
  destruct (Z.ltb_spec (Z.of_nat (length q)) UART_TX_BUF_SIZE) as [Hlt|Hge].
  - rewrite (proj2 (Z.eqb_neq _ _)) by (intros E%Hfull; lia). rewrite bind_modify.
    set (s2 := with_tx _ _ _ s1).
    assert (Hq2 : tx_ring s2 (q ++ [c mod 256]))
      by (apply (hq_push UART_TX_BUF_SIZE (2 ^ 64) (2 ^ 59)); [done..|exact Hq|done]).
    assert (Hw : wakeable (cs_k s2)) by (split; [intros i _; cbn; set_solver|exact Hn]).
    destruct (uartstart_ok s2 (q ++ [c mod 256]) Hq2 Hw) as (s' & q' & E & [D1 D2 D3 D4 D5 D6] & _).
    rewrite (bind_ok _ _ _ _ _ E).
    assert (Hr : L_uart ∈ k_held (cs_k s')) by (rewrite D6; cbn; set_solver).
    exists (with_k (set_held ∅ (cs_k s')) s'), q'. split_and!; [|exact D1|exact D2|exact D4|done].
    rewrite (kern_ok _ s' _ _ (release_run L_uart (cs_k s') Hr)). do 3 f_equal. rewrite D6. cbn. set_solver.
  - rewrite (proj2 (Z.eqb_eq _ _)) by (apply Hfull; lia). unfold kern.
    by rewrite (sleep_run C_uart L_uart (cs_k s1) x).
Qed.

(** ** Lines *)

(** Typed characters: [ready] to be read, [edit] still open to editing. *)
Record line : Type := Line { ready : list Z; edit : list Z }.

Record cons_ok (c : cons) (l : line) : Prop := {
  co_ring : holds_queue INPUT_BUF (2 ^ 32) (c_buf c) (c_r c) (c_e c) (ready l ++ edit l);
  co_w : c_w c = (c_r c + Z.of_nat (length (ready l))) mod 2 ^ 32;
  co_edit : 10 ∉ edit l;
}.

(** The line discipline: the line after a key, and what the terminal shows. *)
Definition erase : list Z := [8; 32; 8].
Definition key (c : Z) (l : line) : line * list Z :=
  if c =? ctrl 85 then (Line (ready l) [], concat (replicate (length (edit l)) erase))
  else if (c =? ctrl 72) || (c =? 127) then
    match edit l with
    | [] => (l, [])
    | _ => (Line (ready l) (removelast (edit l)), erase)
    end
  else if (c =? 0) || (INPUT_BUF <=? Z.of_nat (length (ready l ++ edit l))) then (l, [])
  else
    let c := if c =? 13 then 10 else c in
    let e := edit l ++ [c] in
    if (c =? 10) || (c =? ctrl 68) || (Z.of_nat (length (ready l ++ e)) =? INPUT_BUF)
    then (Line (ready l ++ e) [], [c])
    else (Line (ready l) e, [c]).

Lemma cons_pos :
  0 < INPUT_BUF ∧ 1 < 2 ^ 25 ∧ 2 ^ 32 = INPUT_BUF * 2 ^ 25.
Proof. done. Qed.

(** The edit part is what lies between [w] and [e]. *)
Lemma cons_edit c l : cons_ok c l → holds_queue INPUT_BUF (2 ^ 32) (c_buf c) (c_w c) (c_e c) (edit l).
Proof.
  intros [Hr Hw _]. rewrite Hw. destruct cons_pos as (H1 & H2 & H3).
  by apply (hq_pop_rest _ _ _ H1 H2 H3 _ _ _ _ Hr).
Qed.

Lemma cons_no_edit c l : cons_ok c l → (c_e c =? c_w c) = bool_decide (edit l = []).
Proof.
  intros H%cons_edit. destruct cons_pos as (H1 & H2 & H3).
  pose proof (hq_empty _ _ _ H1 H2 H3 _ _ _ _ H) as E.
  case_bool_decide as D; [apply Z.eqb_eq|apply Z.eqb_neq]; tauto.
Qed.

(** Erasing the last character of the edit part. *)
Lemma cons_erase c rd e x :
  cons_ok c (Line rd (e ++ [x])) →
  cons_at c (u32 (c_e c - 1)) = x ∧
  cons_ok (Cons (c_buf c) (c_r c) (c_w c) (u32 (c_e c - 1))) (Line rd e).
Proof.
  intros [Hr Hw He]. cbn [ready edit] in *. destruct cons_pos as (H1 & H2 & H3).
  rewrite app_assoc in Hr. destruct (hq_unpush _ _ _ H1 H2 H3 _ _ _ _ _ Hr) as [Hx Hr']. split.
  - by apply list_lookup_total_correct.
  - split; [exact Hr'|exact Hw|]. cbn. set_solver.
Qed.

(** The whole console state with the line [l], output going straight out. *)
Record console_at s s' (l : line) (out : list Z) : Prop := {
  ca_line : cons_ok (cs_cons s') l;
  ca_sent : sent (cs_hw s') = sent (cs_hw s) ++ out;
  ca_waiting : waiting (cs_hw s') = waiting (cs_hw s);
  ca_tx : cs_txbuf s' = cs_txbuf s ∧ cs_txw s' = cs_txw s ∧ cs_txr s' = cs_txr s;
  ca_flags : cs_panicked s' = cs_panicked s ∧ cs_locking s' = cs_locking s;
}.

Lemma console_at_trans s s1 s2 l1 l2 o1 o2 :
  console_at s s1 l1 o1 → console_at s1 s2 l2 o2 → console_at s s2 l2 (o1 ++ o2).
Proof.
  intros [A1 A2 A3 A4 A5] [B1 B2 B3 B4 B5].
  split; [done|by rewrite B2, A2, app_assoc|congruence|intuition congruence|intuition congruence].
Qed.

Lemma kill_loop_ok fuel s rd e :
  cons_ok (cs_cons s) (Line rd e) → cs_panicked s = false → (length e < fuel)%nat →
  ∃ s', kill_loop fuel s = Ok tt s' ∧ cs_k s' = cs_k s ∧
    console_at s s' (Line rd []) (concat (replicate (length e) erase)).
Proof.
  revert s e. induction fuel as [|fuel IH]; intros s e Hc Hp Hf; [lia|].
  cbn [kill_loop]. rewrite bind_get, (cons_no_edit _ _ Hc). cbn [edit].
  destruct e as [|x e _] using rev_ind.
  - rewrite bool_decide_eq_true_2 by done. cbn [negb andb]. exists s.
    split_and!; [done|done|]. split; [done|by rewrite app_nil_r|done..].
  - rewrite bool_decide_eq_false_2 by (by destruct e). cbn [negb andb].
    destruct (cons_erase _ _ _ _ Hc) as [Hx Hc'].
    assert (x ≠ 10) by (pose proof (co_edit _ _ Hc) as Hn; cbn in Hn; set_solver).
    rewrite Hx, (proj2 (Z.eqb_neq x 10)) by done. cbn [negb]. rewrite bind_modify.
    set (s1 := with_cons _ s).
    destruct (consputc_ok BACKSPACE s1 Hp) as (h & E & Hs & Hw). rewrite (bind_ok _ _ _ _ _ E).
    rewrite length_app in *. cbn [length] in *.
    destruct (IH (with_hw h s1) e) as (s' & E' & Ek & Ca); [exact Hc'|exact Hp|lia|].
    exists s'. split_and!; [exact E'|exact Ek|]. rewrite Nat.add_1_r. cbn [replicate concat].
    eapply console_at_trans; [|exact Ca]. by split.
Qed.

(** Storing a character behind the edit part. *)
Lemma cons_store c l x :
  cons_ok c l → Z.of_nat (length (ready l ++ edit l)) < INPUT_BUF →
  holds_queue INPUT_BUF (2 ^ 32) (<[Z.to_nat (c_e c mod INPUT_BUF) := x]> (c_buf c))
    (c_r c) (u32 (c_e c + 1)) (ready l ++ edit l ++ [x]).
Proof.
  intros [Hr _ _] Hl. destruct cons_pos as (H1 & H2 & H3). rewrite app_assoc.
  by apply (hq_push _ _ _ H1 H2 H3).
Qed.

(** A key has been handled: the line, the echo, and readers woken when there is
    more to read. *)
Record keyed s s' (l : line) (r : line * list Z) : Prop := {
  ky_at : console_at s s' r.1 r.2;
  ky_k : cs_k s' = set_procs (if decide (ready r.1 = ready l) then k_procs (cs_k s)
                              else wake C_cons (k_cur (cs_k s)) (k_procs (cs_k s))) (cs_k s);
}.

Lemma keyed_same s s' l r :
  console_at s s' r.1 r.2 → ready r.1 = ready l → cs_k s' = cs_k s → keyed s s' l r.
Proof. intros Ha Hr Hk. split; [done|]. rewrite decide_True, Hk by done. by destruct (cs_k s). Qed.

Lemma console_refl s l : cons_ok (cs_cons s) l → console_at s s l [].
Proof. intros H. split; [done|by rewrite app_nil_r|done..]. Qed.

Lemma kill_key s l :
  cons_ok (cs_cons s) l → cs_panicked s = false →
  ∃ s', kill_loop (S (Z.to_nat INPUT_BUF)) s = Ok tt s' ∧
    keyed s s' l (Line (ready l) [], concat (replicate (length (edit l)) erase)).
Proof.
  intros Hc Hp. destruct l as [rd e].
  destruct (kill_loop_ok (S (Z.to_nat INPUT_BUF)) s rd e Hc Hp) as (s2 & E & Ek & Ca).
  { pose proof (hq_fit _ _ _ _ _ _ (cons_edit _ _ Hc)). cbn in *. unfold INPUT_BUF in *. lia. }
  exists s2. split; [exact E|]. by apply keyed_same.
Qed.

Lemma backspace_key s l :
  cons_ok (cs_cons s) l → cs_panicked s = false →
  ∃ s', backspace s = Ok tt s' ∧
    keyed s s' l (match edit l with [] => (l, []) | _ => (Line (ready l) (removelast (edit l)), erase) end).
Proof.
  intros Hc Hp. unfold backspace. rewrite bind_get, (cons_no_edit _ _ Hc).
  destruct l as [rd e]. cbn [ready edit]. destruct e as [|x e _] using rev_ind.
  - rewrite bool_decide_eq_true_2 by done. exists s. split; [done|].
    apply keyed_same; [by apply console_refl|done..].
  - rewrite bool_decide_eq_false_2 by (by destruct e). cbn [negb when]. rewrite bind_modify.
    destruct (cons_erase _ _ _ _ Hc) as [_ Hc']. set (s1 := with_cons _ s).
    destruct (consputc_ok BACKSPACE s1 Hp) as (h & E & Hs & Hwt).
    exists (with_hw h s1). split; [exact E|].
    destruct (e ++ [x]) eqn:Ee; [by destruct e|]. rewrite <-Ee, removelast_last. by apply keyed_same.
Qed.

(** Storing the byte [c] and making the line available if it is complete. *)
Lemma commit_char c s l x s0 :
  cons_ok (cs_cons s) l → 0 ≤ c < 256 → wakeable (cs_k s) →
  Z.of_nat (length (ready l ++ edit l)) < INPUT_BUF →
  x = Cons (<[Z.to_nat (c_e (cs_cons s) mod INPUT_BUF) := c mod 256]> (c_buf (cs_cons s)))
        (c_r (cs_cons s)) (c_w (cs_cons s)) (u32 (c_e (cs_cons s) + 1)) →
  console_at s0 s l [c] → cs_k s = cs_k s0 →
  ∃ s',
    (modify (with_cons x);;
     when ((c =? 10) || (c =? ctrl 68) || (c_e x =? u32 (c_r x + INPUT_BUF)))
       (modify (with_cons (Cons (c_buf x) (c_r x) (c_e x) (c_e x)));;
        kern (wakeup C_cons))) s = Ok tt s' ∧
    keyed s0 s' l
      (if (c =? 10) || (c =? ctrl 68) || (Z.of_nat (length (ready l ++ edit l ++ [c])) =? INPUT_BUF)
       then (Line (ready l ++ edit l ++ [c]) [], [c]) else (Line (ready l) (edit l ++ [c]), [c])).
Proof.
  intros Hc Hb Hw Hl -> Ca Hk. rewrite (Z.mod_small c) by lia.
  pose proof (cons_store _ _ c Hc Hl) as Hst. destruct cons_pos as (H1 & H2 & H3).
  set (x := Cons _ _ _ _).
  assert (Ef : (c_e x =? u32 (c_r x + INPUT_BUF)) =
    (Z.of_nat (length (ready l ++ edit l ++ [c])) =? INPUT_BUF)).
  { apply eq_true_iff_eq. rewrite !Z.eqb_eq. exact (hq_full _ _ _ H1 H2 H3 _ _ _ _ Hst). }
  rewrite Ef, bind_modify. set (s1 := with_cons x s).
  destruct Ca as [_ A2 A3 A4 A5].
  destruct ((c =? 10) || (c =? ctrl 68) || _) eqn:Efull; cbn [when].
  - rewrite bind_modify. eexists. split; [by apply wakeup_kern|]. split.
    + split; [|exact A2|exact A3|exact A4|exact A5]. split; cbn; [by rewrite app_nil_r| |set_solver].
      exact (hq_w _ _ _ _ _ _ Hst).
    + cbn. rewrite Hk, decide_False; [done|]. intros E%(f_equal length). rewrite !length_app in E. cbn in E. lia.
  - exists s1. split; [done|]. apply keyed_same; [|done|exact Hk].
    split; [|exact A2|exact A3|exact A4|exact A5]. pose proof Hc as [_ Hcw Hce].
    split; cbn; [exact Hst|exact Hcw|]. destruct (Z.eqb_spec c 10); [done|]. set_solver.
Qed.

Lemma store_key c s l :
  cons_ok (cs_cons s) l → cs_panicked s = false → 0 ≤ c < 256 → wakeable (cs_k s) →
  ∃ s', store_char c s = Ok tt s' ∧
    keyed s s' l
     (if (c =? 0) || (INPUT_BUF <=? Z.of_nat (length (ready l ++ edit l))) then (l, [])
      else
        let c := if c =? 13 then 10 else c in
        if (c =? 10) || (c =? ctrl 68) || (Z.of_nat (length (ready l ++ edit l ++ [c])) =? INPUT_BUF)
        then (Line (ready l ++ edit l ++ [c]) [], [c]) else (Line (ready l) (edit l ++ [c]), [c])).
Proof.
  intros Hc Hp Hb Hw. unfold store_char. rewrite bind_get. destruct cons_pos as (H1 & H2 & H3).
  assert (Hsz : u32 (c_e (cs_cons s) - c_r (cs_cons s)) = Z.of_nat (length (ready l ++ edit l)))
    by apply (hq_size _ _ _ H1 H2 H3 _ _ _ _ (co_ring _ _ Hc)).
  rewrite Hsz, Z.leb_antisym.
  destruct (Z.ltb_spec (Z.of_nat (length (ready l ++ edit l))) INPUT_BUF) as [Hl|Hl];
    destruct (c =? 0) eqn:E0; cbn [negb andb orb when];
    try (exists s; split; [done|]; apply keyed_same; [by apply console_refl|done..]).
  set (d := if c =? 13 then 10 else c). assert (Hd : 0 ≤ d < 256) by (unfold d; case_match; lia).
  destruct (consputc_ok d s Hp) as (h & E & Hs & Hwt). rewrite (bind_ok _ _ _ _ _ E), bind_get.
  assert (Hecho : echo d = [d]).
  { unfold echo, BACKSPACE. rewrite (proj2 (Z.eqb_neq _ _)) by lia. by rewrite Z.mod_small. }
  rewrite Hecho in Hs.
  apply (commit_char d (with_hw h s) l _ s); [done|done|exact Hw|done|done| |done]. by split.
Qed.

(** C32: The console line discipline: for every byte other than control-P the
    interrupt handler turns the pending input into what the key means for an
    edited line.  Control-U empties the line being edited, backspace and
    delete remove its last character, the NUL byte is ignored, any other byte
    is appended (a carriage return as a newline), unless 128 bytes are pending
    already, when it is ignored too; a newline, a
    control-D or the 128th byte makes the line available to readers and wakes
    them.  The terminal shows exactly the echo of the key; the ring indices
    may wrap around; the lock is released. *)
Theorem consoleintr_edits c s l :
  cons_ok (cs_cons s) l → cs_panicked s = false → 0 ≤ c < 256 → c ≠ ctrl 80 →
  L_cons ∉ k_held (cs_k s) → wakeable (cs_k s) →
  ∃ s', consoleintr c s = Ok tt s' ∧ keyed s s' l (key c l).
Proof.
  intros Hc Hp Hb Hne Hh Hw. unfold consoleintr.
  rewrite (bind_ok _ _ _ _ _ (kern_ok _ s _ _ (acquire_run L_cons (cs_k s) Hh))).
  set (s1 := with_k _ s).
  assert (Hw1 : wakeable (cs_k s1)).
  { destruct Hw as [Hn Hlen]. split; [|exact Hlen]. intros i Hi. cbn. specialize (Hn i Hi). set_solver. }
  rewrite (proj2 (Z.eqb_neq c (ctrl 80))) by done.
  assert (H : ∃ s2, (if c =? ctrl 85 then kill_loop (S (Z.to_nat INPUT_BUF))
     else if (c =? ctrl 72) || (c =? 127) then backspace else store_char c) s1 = Ok tt s2 ∧
     keyed s1 s2 l (key c l)).
  { unfold key. destruct (c =? ctrl 85); [by apply kill_key|].
    destruct ((c =? ctrl 72) || (c =? 127)); [by apply backspace_key|by apply store_key]. }
  destruct H as (s2 & E & [[B1 B2 B3 B4 B5] Bk]). rewrite (bind_ok _ _ _ _ _ E).
  assert (Hh2 : k_held (cs_k s2) = {[L_cons]} ∪ k_held (cs_k s)) by by rewrite Bk.
  eexists. split; [apply kern_ok, release_run; rewrite Hh2; by apply elem_of_union_l, elem_of_singleton|]. split; [by split|].
  rewrite Hh2, held_restore, Bk by done. cbn. by destruct (cs_k s).
Qed.

(** ** Reading *)

(** What a read of up to [n] bytes takes from the available input: a line, or
    what comes before a control-D; [None] when it has to wait for more.
    [started]: bytes have been taken already. *)
Fixpoint take_line (n : nat) (started : bool) (rd : list Z) : option (list Z * list Z) :=
  match n with
  | O => Some ([], rd)
  | S n =>
      match rd with
      | [] => None
      | c :: rest =>
          if c =? ctrl 68 then Some ([], if started then rd else rest)
          else if c =? 10 then Some ([c], rest)
          else prod_map (λ l, c :: l) id <$> take_line n true rest
      end
  end.

Lemma cons_ready c l :
  cons_ok c l → c_r c = c_w c ↔ ready l = [].
Proof.
  intros [Hr Hw _]. destruct cons_pos as (H1 & H2 & H3).
  apply (hq_prefix _ _ _ H1 H2 H3) in Hr. rewrite <-Hw in Hr.
  rewrite <-(hq_empty _ _ _ H1 H2 H3 _ _ _ _ Hr). split; congruence.
Qed.

Lemma cons_pop c x rd e :
  cons_ok c (Line (x :: rd) e) →
  cons_at c (c_r c) = x ∧
  cons_ok (Cons (c_buf c) (u32 (c_r c + 1)) (c_w c) (c_e c)) (Line rd e).
Proof.
  intros [Hr Hw He]. cbn [ready edit] in *. destruct cons_pos as (H1 & H2 & H3).
  destruct (hq_pop _ _ _ H1 H2 H3 _ _ _ _ _ Hr) as [Hx Hr']. split.
  - by apply list_lookup_total_correct.
  - split; [exact Hr'| |exact He]. cbn [c_w c_r ready]. rewrite Hw. cbn [length].
    unfold u32, wrap. rewrite Zplus_mod_idemp_l. f_equal. lia.
Qed.

Section reading.
Context (addr n root : Z) (me : nat) (pr : proc).

Lemma copyout_byte k i c :
  reader addr n root me pr k i → 0 ≤ addr + i → i < n →
  ∃ m, either_copyout (ToUser (addr + i)) [c] k = Ok 0 (put_mem m k) ∧ spares k root m ∧
    stored k (put_mem m k) root (addr + i) [c] ∧ reader addr n root me pr (put_mem m k) (i + 1).
Proof.
  intros [Hc Hp Hpt Hwf Hw] Ha Hi. unfold either_copyout, myproc. rewrite bind_gets, Hc.
  rewrite (bind_ok _ _ _ _ _ (proc_at_run me k pr Hp)), Hpt.
  assert (Hw1 : writable k root (addr + i) 1).
  { destruct Hw as ((h1 & h2 & h3) & h4 & h5 & h6). split; [split_and!; [lia|lia|]|split_and!].
    - intros a Ha'. apply h3. lia.
    - intros a p t Ha'. apply h4. lia.
    - intros a Ha'. apply h5. lia.
    - intros a a' pa Ha' Ha''. apply h6; [done|lia]. }
  destruct (copyout_ok k root (addr + i) [c] Hwf Hw1) as (m & E & Hsp & Hst).
  exists m. split_and!; [exact E|exact Hsp|exact Hst|]. split; try done.
  - eapply same_nodes_wf; [by apply agree_nodes|done].
  - replace (addr + (i + 1)) with (addr + i + 1) by lia. replace (n - (i + 1)) with (n - i - 1) by lia.
    apply writable_put; [exact Hsp|exact Hw|lia].
Qed.

Lemma consoleread_loop_ok k s i rd e out rest :
  reader addr n root me pr (cs_k s) i → cons_ok (cs_cons s) (Line rd e) →
  0 ≤ addr → 0 ≤ i → n = i + Z.of_nat k → take_line k (0 <? i) rd = Some (out, rest) →
  ∃ c' m, consoleread_loop k n (ToUser (addr + i)) s =
      Ok (Some (k - length out)%nat) (with_k (put_mem m (cs_k s)) (with_cons c' s)) ∧
    cons_ok c' (Line rest e) ∧ (length out ≤ k)%nat ∧ spares (cs_k s) root m ∧
    stored (cs_k s) (put_mem m (cs_k s)) root (addr + i) out.
Proof.
  assert (Hid : ∀ k va, stored k (put_mem (mem k) k) root va []).
  { intros k' va a _ _. rewrite put_mem_mem. by rewrite decide_False by (cbn; lia). }
  revert s i rd out rest. induction k as [|k IH]; intros s i rd out rest Hr Hc Ha Hi Hn Ht.
  { cbn in Ht. injection Ht as <- <-. exists (cs_cons s), (mem (cs_k s)). cbn [consoleread_loop].
    rewrite put_mem_mem. split_and!; [by destruct s|done|done|done|].
    rewrite <-(put_mem_mem (cs_k s)) at 2. apply Hid. }
  cbn [take_line] in Ht. destruct rd as [|c rd]; [done|].
  cbn [consoleread_loop]. rewrite bind_get.
  rewrite (proj2 (Z.eqb_neq _ _)) by (intros E; by apply (cons_ready _ _ Hc) in E).
  destruct (cons_pop _ _ _ _ Hc) as [-> Hc']. rewrite bind_modify.
  set (x1 := Cons _ _ _ _) in *. destruct (c =? ctrl 68) eqn:Ed.
  { replace (Z.of_nat (S k) <? n) with (0 <? i) by (apply eq_true_iff_eq; rewrite !Z.ltb_lt; lia).
    injection Ht as <- <-.
    exists (if 0 <? i then cs_cons s else x1), (mem (cs_k s)). rewrite put_mem_mem. split_and!.
    - destruct (0 <? i); cbn [when]; [rewrite bind_modify|]; by destruct s.
    - destruct (0 <? i); done.
    - cbn; lia.
    - done.
    - rewrite <-(put_mem_mem (cs_k s)) at 2. apply Hid. }
  destruct (copyout_byte (cs_k s) i c Hr) as (m & E & Hsp & Hst & Hr'); [lia|lia|].
  rewrite (bind_ok _ _ _ _ _ (kern_ok _ (with_cons x1 s) _ _ E)). cbn [Z.eqb].
  destruct (c =? 10) eqn:En.
  { injection Ht as <- <-. exists x1, m. split_and!; [|done|cbn; lia|done|done].
    cbn [length]. by replace (S k - 1)%nat with k by lia. }
  destruct (take_line k true rd) as [[out' rest']|] eqn:Et; [|done]. cbn in Ht. injection Ht as <- <-.
  set (s1 := with_k _ _).
  pose proof (re_buf _ _ _ _ _ _ _ Hr) as ((_ & Hm & _) & _). change MAXVA with 274877906944 in Hm.
  cbn [dest_add]. rewrite u64_small by lia. rewrite <-Z.add_assoc.
  destruct (IH s1 (i + 1) rd out' rest') as (c' & m' & E' & Hc2 & Hlen & Hsp' & Hst');
    [exact Hr'|exact Hc'|lia|lia|lia|by rewrite (proj2 (Z.ltb_lt _ _)) by lia|].
  exists c', m'. cbn [length]. split_and!; [|exact Hc2|lia| |].
  - rewrite E'. cbn. by rewrite put_mem_put_mem.
  - by eapply spares_trans.
  - rewrite <-(put_mem_put_mem m' m). eapply stored_cons; [intros a Ha'; by apply spares_xlate|exact Hst|].
    by rewrite <-Z.add_assoc.
Qed.

(** A console read returns one line: with input available, consoleread()
    of up to n bytes to a mapped user buffer copies the input up to and
    including the first newline, up to (not including) a control-D, or n
    bytes, whichever comes first, returns their number, and leaves the rest
    of the input and the line being edited as they were.  A control-D at the
    start of a read is consumed, so that the read returns 0, and one after
    other bytes is kept for the next read. *)
Theorem consoleread_line s rd e out rest :
  reader addr n root me pr (cs_k s) 0 → cons_ok (cs_cons s) (Line rd e) →
  0 ≤ addr → 0 ≤ n → L_cons ∉ k_held (cs_k s) →
  take_line (Z.to_nat n) false rd = Some (out, rest) →
  ∃ c' m, consoleread (ToUser addr) n s =
      Ok (Z.of_nat (length out)) (with_k (put_mem m (cs_k s)) (with_cons c' s)) ∧
    cons_ok c' (Line rest e) ∧ spares (cs_k s) root m ∧
    stored (cs_k s) (put_mem m (cs_k s)) root addr out.
Proof.
  intros Hr Hc Ha Hn Hh Ht. unfold consoleread.
  rewrite (bind_ok _ _ _ _ _ (kern_ok _ s _ _ (acquire_run L_cons (cs_k s) Hh))).
  set (s1 := with_k _ s).
  destruct (consoleread_loop_ok (Z.to_nat n) s1 0 rd e out rest) as (c' & m & E & Hc' & Hlen & Hsp & Hst);
    [by destruct Hr; split|exact Hc|lia|lia|lia|exact Ht|].
  rewrite Z.add_0_r in E, Hst. rewrite (bind_ok _ _ _ _ _ E).
  set (s2 := with_k _ (with_cons c' s1)).
  rewrite (bind_ok _ _ _ _ _ (kern_ok _ s2 _ _ (release_run L_cons (cs_k s2)
    ltac:(by apply elem_of_union_l, elem_of_singleton)))).
  exists c', m. split_and!; [|exact Hc'|exact Hsp|exact Hst].
  replace (Z.max n 0 - Z.of_nat (Z.to_nat n - length out)) with (Z.of_nat (length out)) by lia.
  unfold s2, s1, put_mem. cbn. rewrite held_restore by done. by destruct s as [[]].
Qed.

End reading.
End console_spec.

(** ** A concrete serial port *)

(** Always ready to transmit; the bytes sent and the bytes waiting. *)
Record port : Type := Port { po_sent : list Z; po_wait : list Z }.

#[export] Instance port_hw : UartHw port := {|
  rd := λ r h,
    if r =? LSR then (match po_wait h with [] => 32 | _ => 33 end, h)
    else if r =? RHR then (hd 0 (po_wait h), Port (po_sent h) (tl (po_wait h)))
    else (0, h);
  wr := λ r v h, if r =? THR then Port (po_sent h ++ [v]) (po_wait h) else h;
  spin := 1;
|}.

#[export] Instance port_ok : UartOk port.
Proof.
  refine {| sent := po_sent; waiting := po_wait |}; try done.
  - intros h. exists 0%nat. split; [cbn; lia|]. cbn. by destruct (po_wait h).
  - intros h. cbn. by destruct (po_wait h).
  - intros h c l E. cbn. by rewrite E.
Defined.

(** A console whose indices are about to wrap around: one byte to be sent, and
    the characters "ls" typed. *)
Definition cons0 : cons :=
  Cons (<[127%nat := 108]> (<[0%nat := 115]> (replicate 128 0))) (2 ^ 32 - 1) (2 ^ 32 - 1) 1.
Definition con0 (k : kstate) : con port :=
  Con k cons0 (<[31%nat := 65]> (replicate 32 0)) 0 (2 ^ 64 - 1) (Port [] []) false true.

Lemma tx_ring0 k : tx_ring (con0 k) [65].
Proof. split; [done|done|by vm_compute|done|]. intros [|i] c; [intros [= <-]; by vm_compute|done]. Qed.

Lemma cons_ok0 : cons_ok cons0 (Line [] [108; 115]).
Proof.
  split; [|by vm_compute|cbn; set_solver]. split; [done|done|by vm_compute|done|].
  intros [|[|i]] c; [intros [= <-]; by vm_compute..|done].
Qed.

Lemma uartputc_queues_witness :
  ∃ s' q', uartputc 66 (con0 st0) = Ok tt s' ∧ sent (cs_hw s') ++ q' = [65; 66].
Proof.
  destruct (uartputc_queues 66 (con0 st0) [65] (running [Some 0%nat]) (tx_ring0 st0) eq_refl eq_refl eq_refl eq_refl)
    as (s' & q' & E & _ & Hs & _).
  exists s', q'. exact (conj E Hs).
Defined.

Lemma consoleintr_edits_witness :
  ∃ s', consoleintr 13 (con0 st0) = Ok tt s' ∧ cons_ok (cs_cons s') (Line [108; 115; 10] []) ∧
    sent (cs_hw s') = [10].
Proof.
  destruct (consoleintr_edits 13 (con0 st0) (Line [] [108; 115]) cons_ok0 eq_refl) as (s' & E & [[H1 H2 _ _ _] _]).
  - lia.
  - done.
  - apply not_elem_of_empty.
  - split; [intros i _; apply not_elem_of_empty|reflexivity].
  - exists s'. exact (conj E (conj H1 H2)).
Defined.

(** The same with the line "ls" completed. *)
Definition cons1 : cons :=
  Cons (<[127%nat := 108]> (<[0%nat := 115]> (<[1%nat := 10]> (replicate 128 0)))) (2 ^ 32 - 1) 2 2.

Lemma cons_ok1 : cons_ok cons1 (Line [108; 115; 10] []).
Proof.
  split; [|by vm_compute|cbn; set_solver]. split; [done|done|by vm_compute|done|].
  intros [|[|[|i]]] c; [intros [= <-]; by vm_compute..|done].
Qed.

Lemma consoleread_line_witness :
  ∃ s s' : con port, consoleread (ToUser START_ADDRESS) 100 s = Ok 3 s'.
Proof.
  destruct (mapped_writable st1) as (k & Ek & Hwf & Hw); [done|apply free_list1|done..|].
  destruct (consoleread_line (L := layout) START_ADDRESS 100 root0 0 proc_two (with_cons cons1 (con0 k)) [108; 115; 10] [] [108; 115; 10] [])
    as (c' & m & E & _).
  - split; [cbn; by rewrite Ek|cbn; by rewrite Ek|done|exact Hwf|].
    apply (Hw (START_ADDRESS + 0) (100 - 0)); [lia|lia].
  - exact cons_ok1.
  - done.
  - lia.
  - cbn. rewrite Ek. apply not_elem_of_empty.
  - reflexivity.
  - eexists _, _. exact E.
Defined.
