(* ===== verification/VmaFork.v ===== *)
(** fork() and the memory areas: the child gets a copy of every area of the
    parent, as long as the global table has room; when the table is used up in
    the middle of the loop the rest is skipped without an error. *)

From S2P Require Import Prelude Riscv Kstate Mem Kalloc Vm PageTable VmSpec Machine VmMap Sched Bytes Bio Log Fs File Vma VmaSpec VmaUnmap Proc Syscall Trap VmaExit.

Section fork.
Context {L : Layout}.

(** The unused slots from [c] on, in order. *)
Definition unused (vs : list vma) (i : nat) : bool :=
  match vs !! i with Some x => v_use x =? 0 | None => false end.
Definition unused_from (c : nat) (vs : list vma) : list nat :=
  filter (λ i, unused vs i = true) (seq c (length vs - c)).

Lemma unused_step c vs x :
  vs !! c = Some x →
  unused_from c vs = if v_use x =? 0 then c :: unused_from (S c) vs else unused_from (S c) vs.
Proof.
  intros Hx. pose proof (lookup_lt_Some _ _ _ Hx). unfold unused_from.
  replace (length vs - c)%nat with (S (length vs - S c)) by lia. cbn [seq]. rewrite filter_cons.
  assert (Hu : unused vs c = (v_use x =? 0)) by (unfold unused; by rewrite Hx).
  destruct (v_use x =? 0); [by rewrite decide_True|]. by rewrite decide_False by (by rewrite Hu).
Qed.

Lemma unused_end c vs : (length vs ≤ c)%nat → unused_from c vs = [].
Proof. intros H. unfold unused_from. by replace (length vs - c)%nat with 0%nat by lia. Qed.

Lemma unused_elem c vs i : i ∈ unused_from c vs → (c ≤ i)%nat ∧ ∃ x, vs !! i = Some x ∧ v_use x = 0.
Proof.
  unfold unused_from. rewrite list_elem_of_filter, elem_of_seq. intros [H ?]. split; [lia|].
  unfold unused in H. destruct (vs !! i) as [x|]; [|done]. exists x. split; [done|lia].
Qed.

(** Slots below [c] do not matter. *)
Lemma unused_ext c vs vs' :
  length vs' = length vs → (∀ i, (c ≤ i)%nat → vs' !! i = vs !! i) → unused_from c vs' = unused_from c vs.
Proof.
  intros Hl H. unfold unused_from. rewrite Hl. remember (length vs - c)%nat as n eqn:En. clear En Hl.
  revert c H. induction n as [|n IH]; intros c H; [done|]. cbn [seq]. rewrite !filter_cons.
  rewrite IH by (intros i Hi; apply H; lia).
  assert (unused vs' c = unused vs c) as -> by (unfold unused; by rewrite H by lia). done.
Qed.

(** ** The search for a slot *)

Lemma fork_slot_ok fuel c s j js :
  length (k_vmas s) = VMAS_STORED → (c < VMAS_STORED)%nat → (VMAS_STORED ≤ fuel + c)%nat →
  unused_from c (k_vmas s) = j :: js →
  fork_slot fuel c s = Ok (Some j) s ∧ js = unused_from (S j) (k_vmas s).
Proof.
  intros Hlen. revert c. induction fuel as [|fuel IH]; intros c Hc Hf Hu; [lia|].
  destruct (lookup_is_Some (k_vmas s) c ltac:(lia)) as [x Hx].
  rewrite (unused_step c _ x Hx) in Hu. cbn [fork_slot].
  rewrite (bind_ok _ _ _ _ _ (vma_at_run c s x Hx)).
  destruct (v_use x =? 0); [by injection Hu as <- <-|].
  destruct (decide (c = VMAS_STORED - 1)%nat) as [->|Hne].
  { rewrite unused_end in Hu by lia. done. }
  apply IH; [lia|lia|done].
Qed.

(** ** Copying one area *)

(** The child's copy of the area [x], linked to [nx]. *)
Definition copied (nx : option nat) (x : vma) : vma :=
  Vma 1 (v_size x) (v_ofile x) (v_addrinit x) (v_addri x) (v_addre x) (v_offset x) nx (v_prot x) (v_flag x).

Definition more_refs (f : nat) (n : Z) (ft : list file) : list file :=
  alter (λ g, set_fref (s32 (f_ref g + n)) g) f ft.

(** The state after slot [j] became a copy of [x]. *)
Definition after_copy (j : nat) (x : vma) (f : nat) (s : kstate) : kstate :=
  set_ftable (more_refs f 1 (k_ftable s)) (set_vmas (<[j := copied None x]> (k_vmas s)) s).

Lemma fork_fill_run act j a x f s :
  k_vmas s !! act = Some x → act ≠ j → k_vmas s !! j = Some a → v_ofile x = Some f →
  (f < length (k_ftable s))%nat →
  (upd_vma (Some j) (set_use 1);;
   a ← vma_at (Some act);
   upd_vma (Some j) (λ x, Vma (v_use x) (v_size a) (v_ofile a) (v_addrinit a) (v_addri a)
     (v_addre a) (v_offset a) None (v_prot a) (v_flag a));;
   x ← vma_at (Some j);
   upd_file (v_ofile x) (λ f, set_fref (s32 (f_ref f + 1)) f)) s = Ok tt (after_copy j x f s).
Proof.
  intros Hx Hne Ha Hf Hlt. pose proof (lookup_lt_Some _ _ _ Ha) as Hj.
  run_upd. run_at. run_upd.
  erewrite (bind_ok (vma_at (Some j))); [|apply vma_at_run; kst; by rewrite !list_lookup_alter_eq, Ha].
  cbn [v_ofile]. rewrite Hf, (upd_file_run f) by (kst; done). unfold after_copy, more_refs. kst.
  do 2 f_equal. apply list_eq. intros i. destruct (decide (i = j)) as [->|].
  - rewrite !list_lookup_alter_eq, list_lookup_insert_eq by done. unfold copied. by rewrite Ha, Hf.
  - by rewrite !list_lookup_alter_ne, list_lookup_insert_ne.
Qed.
(** ** The loop *)

(** [ft'] is [ft] with one more reference for every area of [xs]. *)
Definition referenced (ft ft' : list file) (xs : list vma) : Prop :=
  length ft' = length ft ∧
  ∀ f fx, ft !! f = Some fx → - 2147483648 ≤ f_ref fx → f_ref fx + users f xs < 2147483648 →
    ft' !! f = Some (set_fref (f_ref fx + users f xs) fx).

(** The copies of [xs] in the slots [js], each linked to the next. *)
Fixpoint copies (js : list nat) (xs : list vma) : list vma :=
  match js, xs with
  | _ :: js, x :: xs => copied (hd_error js) x :: copies js xs
  | _, _ => []
  end.

(** What the loop needs to know about the parent's areas. *)
Definition copyable (vs : list vma) (ft : list file) (l : list nat) (xs : list vma) : Prop :=
  NoDup l ∧ Forall (λ x, v_use x ≠ 0 ∧ ∃ f, v_ofile x = Some f ∧ (f < length ft)%nat) xs.

Lemma referenced_refl ft : referenced ft ft [].
Proof.
  split; [done|]. intros f fx Hf _ _. rewrite Hf. f_equal. unfold users. cbn.
  rewrite Z.add_0_r. by destruct fx.
Qed.

Lemma referenced_cons ft ft' f x xs :
  v_ofile x = Some f → referenced (more_refs f 1 ft) ft' xs → referenced ft ft' (x :: xs).
Proof.
  intros Hx [Hl Hr]. unfold more_refs in *. rewrite length_alter in Hl. split; [done|].
  intros g gx Hg Hlo Hhi. rewrite users_cons in Hhi |- *. pose proof (users_nonneg g xs).
  destruct (decide (v_ofile x = Some g)) as [E|E].
  - assert (g = f) as -> by congruence.
    rewrite (Hr f (set_fref (s32 (f_ref gx + 1)) gx)); cbn [f_ref set_fref].
    + rewrite s32_small by lia. unfold set_fref. cbn. do 2 f_equal. lia.
    + by rewrite list_lookup_alter_eq, Hg.
    + rewrite s32_small by lia. lia.
    + rewrite s32_small by lia. lia.
  - rewrite (Hr g gx) by (try lia; by rewrite list_lookup_alter_ne by congruence).
    by rewrite Z.add_0_l.
Qed.

Lemma vchain_copies vs js xs :
  length js = length xs →
  (∀ k j, js !! k = Some j → vs !! j = copies js xs !! k) →
  vchain vs (hd_error js) js (copies js xs).
Proof.
  revert xs. induction js as [|j js IH]; intros [|x xs] Hl H; try done.
  cbn [copies vchain hd_error]. split_and!; [done|by apply (H 0%nat)|].
  cbn [v_next copied]. apply IH; [by injection Hl|]. intros k i Hk. apply (H (S k) i Hk).
Qed.

(** From the second area on: the copies go behind the slot [p]. *)
Lemma fork_vmas_tail l i np act p c s xs y :
  length (k_vmas s) = VMAS_STORED → vchain (k_vmas s) act l xs →
  copyable (k_vmas s) (k_ftable s) l xs → k_vmas s !! p = Some y → v_use y ≠ 0 → p ∉ l → (p < c)%nat →
  v_next y = None →
  (length l ≤ length (unused_from c (k_vmas s)))%nat →
  let js := take (length l) (unused_from c (k_vmas s)) in
  ∃ vs' ft', fork_vmas (length l) (S i) np act (Some p) c s = Ok true (set_ftable ft' (set_vmas vs' s)) ∧
    length vs' = length (k_vmas s) ∧
    (∀ k, k ≠ p → k ∉ js → vs' !! k = k_vmas s !! k) ∧
    vs' !! p = Some (set_vnext (hd_error js) y) ∧
    (∀ k j, js !! k = Some j → vs' !! j = copies js xs !! k) ∧
    referenced (k_ftable s) ft' xs.
Proof.
  revert i act p c s xs y. induction l as [|a l IH]; intros i act p c s xs y Hlen Hch Hcp Hy Huy Hpl Hpc Hny Hfree.
  { destruct xs; [|done]. exists (k_vmas s), (k_ftable s). cbn. rewrite take_0. cbn.
    split_and!; try done; [by destruct s|rewrite Hy; destruct y; cbn in *; by subst|apply referenced_refl]. }
  destruct xs as [|x xs]; [done|]. destruct Hch as (-> & Hx & Hch). destruct Hcp as [Hnd Hus].
  apply NoDup_cons in Hnd as [Hal Hnd]. inversion Hus as [|?? (Hux & f & Hf & Hfl) Hus']; subst.
  destruct (unused_from c (k_vmas s)) as [|j us] eqn:Eu; [cbn in Hfree; lia|].
  assert (Hj : (c ≤ j)%nat ∧ ∃ z, k_vmas s !! j = Some z ∧ v_use z = 0)
    by (apply unused_elem; rewrite Eu; by left).
  destruct Hj as (Hcj & z & Hz & Huz). pose proof (lookup_lt_Some _ _ _ Hz) as Hjl.
  destruct (fork_slot_ok VMAS_STORED c s j us Hlen ltac:(lia) ltac:(lia) Eu) as [Eslot ->].
  cbn [length fork_vmas]. rewrite decide_True by lia. rewrite decide_False by (intros [= ->]; lia).
  rewrite !bind_assoc, (bind_ok _ _ _ _ _ Eslot).
  assert (Hpj : p ≠ j) by lia.
  assert (Haj : a ≠ j) by (intros ->; congruence).
  assert (Hap : a ≠ p) by (intros ->; apply Hpl; by left).
  set (s1 := set_vmas (alter (set_vnext (Some j)) p (k_vmas s)) s).
  assert (Ecopy : fork_copy (S i) np (Some a) (Some p) j s = Ok tt (after_copy j x f s1)).
  { unfold fork_copy. rewrite decide_False by done.
    rewrite (bind_ok _ _ _ _ _ (upd_vma_run p _ s ltac:(by eapply lookup_lt_Some))).
    apply (fork_fill_run a j z); [cbn; by rewrite list_lookup_alter_ne|done|cbn; by rewrite list_lookup_alter_ne|done|done]. }
  rewrite bind_assoc, (bind_ok _ _ _ _ _ Ecopy). cbv beta. rewrite bind_ret. cbv beta iota.
  set (s2 := after_copy j x f s1).
  assert (Hlk : ∀ k, k_vmas s2 !! k =
    if decide (k = j) then Some (copied None x) else if decide (k = p) then Some (set_vnext (Some j) y) else k_vmas s !! k).
  { intros k. unfold s2, after_copy, s1. kst. destruct (decide (k = j)) as [->|].
    - rewrite list_lookup_insert_eq by (rewrite length_alter; done). done.
    - rewrite list_lookup_insert_ne by done. case_decide as Ek; [subst k; by rewrite list_lookup_alter_eq, Hy|].
      by rewrite list_lookup_alter_ne. }
  assert (Hl2 : length (k_vmas s2) = length (k_vmas s)) by (unfold s2, after_copy, s1; kst; by rewrite length_insert, length_alter).
  assert (Hu2 : unused_from (S j) (k_vmas s2) = unused_from (S j) (k_vmas s)).
  { apply unused_ext; [done|]. intros k Hk. rewrite Hlk. by rewrite !decide_False by lia. }
  erewrite (bind_ok (vma_at (Some a))); [|apply vma_at_run; rewrite Hlk, !decide_False by done; exact Hx].
  destruct (IH (S i) (v_next x) j (S j) s2 xs (copied None x)) as (vs' & ft' & E & Hlen' & Hfr & Hhead & Hcp & Href).
  - by rewrite Hl2.
  - eapply vchain_ext; [|exact Hch]. intros k Hk. rewrite Hlk.
    assert (k ≠ p) by (intros ->; apply Hpl; by right).
    assert (k ≠ j).
    { intros ->. destruct (vchain_elem _ _ _ _ _ Hch Hk) as (w & Hw & Hwj).
      rewrite Forall_forall in Hus'. destruct (Hus' w Hw) as [? _]. congruence. }
    by rewrite !decide_False.
  - split; [done|]. eapply Forall_impl; [exact Hus'|]. intros w (? & g & ? & ?). split; [done|].
    exists g. split; [done|]. unfold s2, after_copy, s1, more_refs. kst. by rewrite length_alter.
  - rewrite Hlk. by rewrite decide_True.
  - done.
  - intros Hk. destruct (vchain_elem _ _ _ _ _ Hch Hk) as (w & Hw & Hwj).
    rewrite Forall_forall in Hus'. destruct (Hus' w Hw) as [? _]. congruence.
  - lia.
  - done.
  - rewrite Hu2. cbn in Hfree. lia.
  - rewrite Hu2 in *. exists vs', ft'. rewrite E. cbn [take hd_error length].
    set (js := take (length l) (unused_from (S j) (k_vmas s))) in *.
    assert (Hjs : ∀ k, k ∈ js → (S j ≤ k)%nat) by (intros k Hk; apply (unused_elem (S j) (k_vmas s)); by eapply elem_of_take in Hk as (? & ?%list_elem_of_lookup_2 & _)).
    split_and!.
    + unfold s2, after_copy, s1. kst. done.
    + congruence.
    + intros k Hkp Hkj. apply not_elem_of_cons in Hkj as [Hkj Hkjs]. rewrite Hfr by done. rewrite Hlk. by rewrite !decide_False.
    + rewrite Hfr; [rewrite Hlk; by rewrite decide_False, decide_True| done|]. intros Hk%Hjs. lia.
    + intros [|k] i' Hk; cbn in Hk; [injection Hk as <-; exact Hhead|]. cbn [copies lookup]. by apply Hcp.
    + eapply referenced_cons; [exact Hf|]. exact Href.
Qed.

Lemma unused_nodup c vs n : NoDup (take n (unused_from c vs)).
Proof. eapply sublist_NoDup; [|apply sublist_take]. apply NoDup_filter, NoDup_seq. Qed.

Lemma copies_length js xs : length js = length xs → length (copies js xs) = length js.
Proof. revert xs. induction js as [|j js IH]; intros [|x xs] H; cbn; try done. f_equal. apply IH. by injection H. Qed.

Lemma copies_areas js xs : length js = length xs → areas (copies js xs) = areas xs.
Proof. revert xs. induction js as [|j js IH]; intros [|x xs] H; cbn; try done. f_equal. apply IH. by injection H. Qed.

Lemma copies_use js xs : Forall (λ x, v_use x ≠ 0) (copies js xs).
Proof. revert xs. induction js as [|j js IH]; intros [|x xs]; cbn; constructor; done. Qed.

(** The whole loop, starting with the child's first area. *)
Lemma fork_vmas_run l np act s xs :
  length (k_vmas s) = VMAS_STORED → vchain (k_vmas s) act l xs →
  copyable (k_vmas s) (k_ftable s) l xs → (np < length (k_procs s))%nat →
  (length l ≤ length (unused_from 0 (k_vmas s)))%nat →
  let js := take (length l) (unused_from 0 (k_vmas s)) in
  ∃ vs' ft', fork_vmas (length l) 0 np act None 0 s =
      Ok true (set_ftable ft' (set_vmas vs'
        (set_procs (match js with [] => k_procs s | j :: _ => alter (set_pvmas (Some j)) np (k_procs s) end) s))) ∧
    length vs' = length (k_vmas s) ∧
    (∀ k, k ∉ js → vs' !! k = k_vmas s !! k) ∧
    (∀ k j, js !! k = Some j → vs' !! j = copies js xs !! k) ∧
    referenced (k_ftable s) ft' xs.
Proof.
  intros Hlen Hch Hcp Hnp Hfree. destruct l as [|a l].
  { destruct xs; [|done]. exists (k_vmas s), (k_ftable s). cbn. rewrite take_0. cbn.
    split_and!; try done; [by destruct s|apply referenced_refl]. }
  destruct xs as [|x xs]; [done|]. destruct Hch as (-> & Hx & Hch). destruct Hcp as [Hnd Hus].
  apply NoDup_cons in Hnd as [Hal Hnd]. inversion Hus as [|?? (Hux & f & Hf & Hfl) Hus']; subst.
  destruct (unused_from 0 (k_vmas s)) as [|j us] eqn:Eu; [cbn in Hfree; lia|].
  assert (Hj : (0 ≤ j)%nat ∧ ∃ z, k_vmas s !! j = Some z ∧ v_use z = 0)
    by (apply unused_elem; rewrite Eu; by left).
  destruct Hj as (_ & z & Hz & Huz). pose proof (lookup_lt_Some _ _ _ Hz) as Hjl.
  destruct (fork_slot_ok VMAS_STORED 0 s j us Hlen ltac:(lia) ltac:(lia) Eu) as [Eslot ->].
  assert (Haj : a ≠ j) by (intros ->; congruence).
  cbn [length fork_vmas]. rewrite decide_True by (unfold VMAS_STORED; lia). rewrite decide_False by done.
  rewrite !bind_assoc, (bind_ok _ _ _ _ _ Eslot).
  set (s1 := set_procs (alter (set_pvmas (Some j)) np (k_procs s)) s).
  assert (Ecopy : fork_copy 0 np (Some a) None j s = Ok tt (after_copy j x f s1)).
  { unfold fork_copy. rewrite decide_True by done.
    rewrite (bind_ok _ _ _ _ _ (upd_proc_run np _ s Hnp)). by apply (fork_fill_run a j z). }
  rewrite bind_assoc, (bind_ok _ _ _ _ _ Ecopy). cbv beta. rewrite bind_ret. cbv beta iota.
  set (s2 := after_copy j x f s1).
  assert (Hlk : ∀ k, k_vmas s2 !! k = if decide (k = j) then Some (copied None x) else k_vmas s !! k).
  { intros k. unfold s2, after_copy, s1. kst. destruct (decide (k = j)) as [->|].
    - by rewrite list_lookup_insert_eq.
    - by rewrite list_lookup_insert_ne. }
  assert (Hl2 : length (k_vmas s2) = length (k_vmas s)) by (unfold s2, after_copy, s1; kst; by rewrite length_insert).
  assert (Hu2 : unused_from (S j) (k_vmas s2) = unused_from (S j) (k_vmas s)).
  { apply unused_ext; [done|]. intros k Hk. rewrite Hlk. by rewrite decide_False by lia. }
  assert (Hjl' : j ∉ l).
  { intros Hk. destruct (vchain_elem _ _ _ _ _ Hch Hk) as (w & Hw & Hwj).
    rewrite Forall_forall in Hus'. destruct (Hus' w Hw) as [? _]. congruence. }
  erewrite (bind_ok (vma_at (Some a))); [|apply vma_at_run; rewrite Hlk, decide_False by done; exact Hx].
  destruct (fork_vmas_tail l 0 np (v_next x) j (S j) s2 xs (copied None x)) as (vs' & ft' & E & Hlen' & Hfr & Hhead & Hcp & Href);
    [by rewrite Hl2| | |rewrite Hlk; by rewrite decide_True|done|done|lia|done|rewrite Hu2; cbn in Hfree; lia|].
  - eapply vchain_ext; [|exact Hch]. intros k Hk. rewrite Hlk. by rewrite decide_False by (intros ->; done).
  - split; [done|]. eapply Forall_impl; [exact Hus'|]. intros w (? & g & ? & ?). split; [done|].
    exists g. split; [done|]. unfold s2, after_copy, s1, more_refs. kst. by rewrite length_alter.
  - rewrite Hu2 in *. exists vs', ft'. rewrite E. cbn [take]. split_and!.
    + unfold s2, after_copy, s1. kst. done.
    + congruence.
    + intros k [Hkj Hkjs]%not_elem_of_cons. rewrite Hfr by done. rewrite Hlk. by rewrite decide_False.
    + intros [|k] i' Hk; cbn in Hk; [injection Hk as <-; exact Hhead|]. cbn [copies lookup]. by apply Hcp.
    + eapply referenced_cons; [exact Hf|]. exact Href.
Qed.

(** C5: fork() gives the child a copy of the parent's memory areas.  If the
    global table has as many unused slots as the parent has areas, the loop
    succeeds; the child's list is then a well-formed list of areas in the
    first unused slots, with the parent's address ranges, protections, flags,
    offsets and files in the same order; the parent's list and all other
    slots are unchanged, and every mapped file gained exactly one reference
    for each area that maps it. *)
Theorem fork_copies_areas s p np me child l xs :
  vmas_ok s p l xs → k_procs s !! p = Some me → k_procs s !! np = Some child → np ≠ p →
  p_nvma child = p_nvma me → p_vmas child = None →
  Forall (λ x, ∃ f, v_ofile x = Some f ∧ (f < length (k_ftable s))%nat) xs →
  (length l ≤ length (unused_from 0 (k_vmas s)))%nat →
  let js := take (length l) (unused_from 0 (k_vmas s)) in
  ∃ s', fork_vmas (length l) 0 np (p_vmas me) None 0 s = Ok true s' ∧
    vmas_ok s' p l xs ∧ vmas_ok s' np js (copies js xs) ∧
    areas (copies js xs) = areas xs ∧
    (∀ k, k ∉ js → k_vmas s' !! k = k_vmas s !! k) ∧
    referenced (k_ftable s) (k_ftable s') xs.
Proof.
  intros Hok Hme Hch Hne Hnv Hnil Hfs Hfree js.
  destruct Hok as [Hlen (me' & Hme' & Hn & Hvc) Hmax Hnd Huse Har]. rewrite Hme in Hme'. injection Hme' as <-.
  pose proof (vchain_length _ _ _ _ Hvc) as Hll.
  assert (Hjl : length js = length l) by (unfold js; rewrite length_take; lia).
  destruct (fork_vmas_run l np (p_vmas me) s xs Hlen Hvc) as (vs' & ft' & E & Hlen' & Hfr & Hcp & Href);
    [|by eapply lookup_lt_Some|done|].
  { split; [done|]. apply Forall_and; split; [done|]. eapply Forall_impl; [exact Hfs|]. intros x (f & ? & ?); eauto. }
  fold js in E, Hfr, Hcp. eexists. split; [exact E|].
  assert (Hfree' : ∀ k, k ∈ l → k ∉ js).
  { intros k Hk Hj. destruct (vchain_elem _ _ _ _ _ Hvc Hk) as (w & Hw & Hwk).
    apply elem_of_take in Hj as (? & Hj%list_elem_of_lookup_2 & _).
    apply unused_elem in Hj as (_ & z & Hz & ?). rewrite Forall_forall in Huse. specialize (Huse w Hw). congruence. }
  assert (Hvc' : vchain vs' (p_vmas me) l xs)
    by (eapply vchain_ext; [|exact Hvc]; intros k Hk; apply Hfr; auto).
  assert (Hcc : vchain vs' (hd_error js) js (copies js xs)) by (apply vchain_copies; [congruence|done]).
  split_and!; [split|split|apply copies_areas; congruence|exact Hfr|exact Href]; kst; try done.
  - congruence.
  - exists me. split_and!; [|done|done]. destruct js; [done|]. by rewrite list_lookup_alter_ne.
  - congruence.
  - destruct js as [|j js'] eqn:Ej.
    + exists child. split_and!; [done|rewrite Hnv, Hn, <-Hjl; done|]. by rewrite Hnil.
    + exists (set_pvmas (Some j) child). rewrite list_lookup_alter_eq, Hch. split_and!; [done|cbn [p_nvma set_pvmas]; congruence|exact Hcc].
  - congruence.
  - apply unused_nodup.
  - apply copies_use.
  - rewrite copies_areas by congruence. done.
Qed.
End fork.

(** Process 0 with the area of slot 0 (its file has one more reference), and a
    child in slot 1 whose counters fork() has already copied. *)
Definition child0 : proc :=
  Proc USED C_null 0 0 2 None 0 0 0 0 (Some 0%nat :: replicate 15 None)
    (Some 0%nat) (replicate 16 0) None 1.
Definition st_fork : kstate := set_procs (proc_two :: child0 :: replicate 62 proc0) st1.

Lemma vmas_ok_fork : vmas_ok st_fork 0 [0%nat] [vma_two].
Proof.
  split; [done| |by apply Nat.leb_le; vm_compute|apply NoDup_singleton|by repeat constructor|by vm_compute].
  exists proc_two. by split_and!.
Qed.

Lemma fork_copies_areas_witness :
  ∃ s', fork_vmas 1 0 1 (Some 0%nat) None 0 st_fork = Ok true s' ∧
    vmas_ok s' 1 [1%nat] [copied None vma_two].
Proof.
  destruct (fork_copies_areas st_fork 0 1 proc_two child0 [0%nat] [vma_two] vmas_ok_fork eq_refl eq_refl)
    as (s' & E & _ & H & _).
  - done.
  - reflexivity.
  - reflexivity.
  - repeat constructor. exists 0%nat. split; [reflexivity|cbn; lia].
  - vm_compute. lia.
  - exists s'. exact (conj E H).
Defined.

(** The same process with two areas, in a table whose only unused slot is the
    last one. *)
Definition vma_first : vma := set_vnext (Some 1%nat) vma_two.
Definition vma_second : vma :=
  Vma 1 4096 (Some 0%nat) (START_ADDRESS + 8192) (START_ADDRESS + 8192) (START_ADDRESS + 12288) 0 None
    PROT_READ MAP_PRIVATE.
Definition st_tight : kstate :=
  set_vmas (vma_first :: vma_second :: replicate 27 vma_two ++ [vma_unused])
    (set_procs (set_nvma 2 proc_two :: set_nvma 2 child0 :: replicate 62 proc0) st1).

(** When the last slot of the table is used up before all areas are
    copied, the loop of fork() does not fail: it skips the remaining areas and
    reports success.  Here the parent has two areas and one slot is free; the
    child is left with one area while its counter says two, and the first
    page fault of the child outside that area makes the kernel follow the null
    pointer at the end of the list. *)
Theorem fork_skips_areas :
  ∃ s', fork_vmas 2 0 1 (Some 0%nat) None 0 st_tight = Ok true s' ∧
    (p_nvma <$> k_procs s' !! 1%nat) = Some 2 ∧
    (p_vmas <$> k_procs s' !! 1%nat) = Some (Some 29%nat) ∧
    k_vmas s' !! 29%nat = Some (copied None vma_first) ∧
    find_vma 2 (START_ADDRESS + 8192) (Some 29%nat) s' = Err (EFault 0) s'.
Proof.
  destruct (fork_vmas 2 0 1 (Some 0%nat) None 0 st_tight) as [[] s'|e s'] eqn:E;
    [|exfalso; revert E; vm_compute; discriminate..].
  exists s'. split; [done|]. injection E as <-. vm_compute. by split_and!.
Qed.
