(* ===== verification/Readi.v ===== *)
(** readi() into user memory: what a file read delivers, for the blocks of the
    file that the inode addresses directly. *)

From S2P Require Import Prelude Riscv Kstate Mem Kalloc Vm PageTable VmSpec VmMap VmCopy Sched Bytes Bio BioSpec BioOps Log Fs RingBuf Pipe PipeSpec.

Section readi.
Context {L : Layout}.

(** ** The contents of a file *)

Section contents.
Context (cs : list buf) (d : list (Z * list Z)) (addrs : list Z).

(** Byte [p] of the file. *)
Definition fblock (p : Z) : Z := nth (Z.to_nat (p / 1024)) addrs 0.
Definition fbyte (p : Z) : Z := bview cs d (fblock p) !!! Z.to_nat (p mod 1024).
Definition fbytes (p : Z) (n : nat) : list Z := (λ k, fbyte (p + Z.of_nat k)) <$> seq 0 n.

Lemma length_fbytes p n : length (fbytes p n) = n.
Proof. unfold fbytes. by rewrite length_fmap, length_seq. Qed.

Lemma lookup_fbytes p n k : (k < n)%nat → fbytes p n !! k = Some (fbyte (p + Z.of_nat k)).
Proof. intros H. unfold fbytes. rewrite list_lookup_fmap, lookup_seq_lt by done. done. Qed.

Lemma fbytes_app p n m : fbytes p (n + m) = fbytes p n ++ fbytes (p + Z.of_nat n) m.
Proof.
  apply list_eq. intros k. destruct (decide (k < n)%nat).
  - rewrite lookup_app_l, !lookup_fbytes by (rewrite ?length_fbytes; lia). done.
  - rewrite lookup_app_r, length_fbytes by (rewrite length_fbytes; lia).
    destruct (decide (k < n + m)%nat).
    + rewrite !lookup_fbytes by lia. do 2 f_equal. lia.
    + rewrite !lookup_ge_None_2 by (rewrite length_fbytes; lia). done.
Qed.

(** The part of a file inside one block is a part of that block. *)
Lemma fbytes_slice p m :
  0 ≤ p → p mod 1024 + Z.of_nat m ≤ 1024 → length (bview cs d (fblock p)) = 1024%nat →
  slice (bview cs d (fblock p)) (Z.to_nat (p mod 1024)) m = fbytes p m.
Proof.
  intros Hp Hm Hl. apply list_eq. intros k. rewrite lookup_slice. case_decide as Hk.
  - rewrite lookup_fbytes by done. pose proof (Z.mod_pos_bound p 1024).
    assert (Ed : (p + Z.of_nat k) / 1024 = p / 1024) by dlia.
    assert (Em : (p + Z.of_nat k) mod 1024 = p mod 1024 + Z.of_nat k) by dlia.
    unfold fbyte, fblock. rewrite Ed, Em. rewrite Z2Nat.inj_add, Nat2Z.id by lia.
    apply list_lookup_lookup_total_lt. unfold fblock in Hl. rewrite Hl. lia.
  - symmetry. apply lookup_ge_None_2. rewrite length_fbytes. lia.
Qed.
End contents.

Lemma fbytes_view cs cs' d addrs p n :
  (∀ w, bview cs' d w = bview cs d w) → fbytes cs' d addrs p n = fbytes cs d addrs p n.
Proof. intros H. unfold fbytes, fbyte. apply list_fmap_ext. intros i k _. by rewrite H. Qed.

(** ** One block *)

Lemma io_at_mm me s0 lg d cs s : io_at me s0 lg d cs s → k_mm s = k_mm s0.
Proof. intros A. by destruct (ia_frame _ _ _ _ _ _ A) as (? & ? & ->). Qed.

Lemma io_at_itable me s0 lg d cs s : io_at me s0 lg d cs s → k_itable s = k_itable s0.
Proof. intros A. by destruct (ia_frame _ _ _ _ _ _ A) as (? & ? & ->). Qed.

Lemma io_at_mem me s0 lg d cs s m :
  io_at me s0 lg d cs s → io_at me (put_mem m s0) lg d cs (put_mem m s).
Proof.
  intros [R C [H1 H2 H3] (bufs & ps & ->)]. split; [done|done|by split|]. by exists bufs, ps.
Qed.

Lemma same_mm_view (s s' : kstate) : k_mm s' = k_mm s → view s' = view s.
Proof. intros E. unfold view. unfold mem. by rewrite E. Qed.

Lemma writable_mm s s' root va len : k_mm s' = k_mm s → writable s root va len → writable s' root va len.
Proof. intros E. unfold writable, readable. by rewrite (same_mm_view s s' E). Qed.

Lemma writable_cut s root va len n : writable s root va len → 0 ≤ n ≤ len → writable s root va n.
Proof.
  intros ((h1 & h2 & h3) & h4 & h5 & h6) Hn. split; [split_and!; [lia|lia|]|split_and!].
  - intros a Ha. apply h3. lia.
  - intros a p t Ha. apply h4. lia.
  - intros a Ha. apply h5. lia.
  - intros a a' pa Ha Ha'. apply h6; [done|lia].
Qed.

(** bread(), copyout() of a part of the block, brelse(). *)
Lemma read_chunk me s0 lg d cs s root va bno src :
  io_at me s0 lg d cs s → cache_ok cs d → quiet_cache cs → p_pagetable me = root →
  pt_wf (view s) root → writable s root va (Z.of_nat (length (src (bview cs d bno)))) →
  ∃ m cs' b z s1 s2 s',
    bread ROOTDEV bno s = Ok b s1 ∧ buf_at b s1 = Ok z s1 ∧ b_data z = bview cs d bno ∧
    either_copyout (ToUser va) (src (b_data z)) s1 = Ok 0 s2 ∧ brelse b s2 = Ok tt s' ∧
    io_at me (put_mem m s0) lg d cs' s' ∧ cache_ok cs' d ∧ quiet_cache cs' ∧
    (∀ w, bview cs' d w = bview cs d w) ∧ spares s root m ∧ stored s s' root va (src (bview cs d bno)).
Proof.
  intros A C Q Hpt Hwf Hw.
  destruct (step_bread A bno C (quiet_available _ _ Q)) as (b & x & s1 & E1 & F & Hr & A1).
  set (y := mine _ _ _ _) in A1.
  pose proof F as [Hx _]. pose proof (lookup_lt_Some _ _ _ Hx) as Hb. pose proof (co_ref _ _ C _ _ Hx) as Hr0.
  assert (Hy : <[b := y]> cs !! b = Some y) by by apply list_lookup_insert_eq.
  destruct (step_read A1 b y Hy) as (z & Ez & Hz).
  assert (Hzd : b_data z = bview cs d bno) by by apply (f_equal b_data) in Hz.
  assert (Emm : k_mm s1 = k_mm s) by by rewrite (io_at_mm _ _ _ _ _ _ A1), (io_at_mm _ _ _ _ _ _ A).
  destruct (copyout_ok s1 root va (src (bview cs d bno))) as (m & E2 & Hsp & Hst);
    [by rewrite (same_mm_view s)|by eapply writable_mm|].
  pose proof (io_at_mem _ _ _ _ _ _ m A1) as A2.
  destruct (step_brelse A2 b y Hy eq_refl ltac:(cbn; lia)) as (s3 & E3 & A3).
  rewrite list_insert_insert_eq in A3.
  assert (Ey : set_refcnt (b_refcnt y - 1) (set_block (SleepLock false 0) y) = released bno (b_refcnt x) (bview cs d bno)).
  { unfold y, mine, released, set_refcnt, set_block. cbn. f_equal. lia. }
  rewrite Ey in A3. eexists m, _, b, z, s1, _, s3. split_and!; [exact E1|exact Ez|exact Hzd| |exact E3|exact A3|by apply read_ok|..].
  - rewrite Hzd. unfold either_copyout, myproc. rewrite bind_gets.
    by rewrite (bind_ok _ _ _ _ _ (proc_at_run _ s1 me (rd_me _ _ (ia_ready _ _ _ _ _ _ A1)))), Hpt.
  - by apply (quiet_touch _ _ x).
  - intros w. by apply bview_read.
  - intros p t i Hp Ht Hi. rewrite (Hsp p t i); rewrite ?(same_mm_view s s1 Emm); done.
  - pose proof (io_at_mm _ _ _ _ _ _ A3) as Em3. rewrite <-(io_at_mm _ _ _ _ _ _ A2) in Em3.
    intros a Ha Hx'. rewrite <-(same_mm_view s s1 Emm) in Hx'. specialize (Hst a Ha Hx').
    unfold ubyte in *. rewrite (same_mm_view _ _ Em3). unfold mem in *. rewrite Em3.
    rewrite <-(same_mm_view s s1 Emm), <-Emm. exact Hst.
Qed.

(** ** The loop *)

(** The blocks of the file from byte [off] up to byte [stop] are addressed
    directly and allocated, and have the size of a block. *)
Definition direct (cs : list buf) (d : list (Z * list Z)) (addrs : list Z) (off stop : Z) : Prop :=
  ∀ p, off ≤ p < stop →
    p / 1024 < NDIRECT ∧ fblock addrs p ≠ 0 ∧ length (bview cs d (fblock addrs p)) = 1024%nat.

Lemma bmap_direct ip s ino bn :
  k_itable s !! ip = Some ino → bn < NDIRECT → nth (Z.to_nat bn) (i_addrs ino) 0 ≠ 0 →
  bmap ip bn s = Ok (nth (Z.to_nat bn) (i_addrs ino) 0) s.
Proof.
  intros Hi Hb Ha. unfold bmap, addr_at. rewrite (bind_ok _ _ _ _ _ (inode_at_run ip s ino Hi)).
  rewrite (proj2 (Z.ltb_lt _ _)) by done. rewrite bind_assoc, (bind_ok _ _ _ _ _ (inode_at_run ip s ino Hi)).
  rewrite bind_ret. by rewrite (proj2 (Z.eqb_neq _ _)).
Qed.

Lemma stored_app s s1 s2 root va l1 l2 :
  (∀ a, 0 ≤ a < MAXVA → xlate (view s1) root a = xlate (view s) root a) →
  stored s s1 root va l1 → stored s1 s2 root (va + Z.of_nat (length l1)) l2 → stored s s2 root va (l1 ++ l2).
Proof.
  intros Hx H1 H2 a Ha Hn. rewrite H2 by (done || by rewrite Hx). rewrite length_app.
  case_decide as D2.
  - rewrite decide_True by lia. f_equal.
    rewrite !list_lookup_total_alt, lookup_app_r by lia. do 2 f_equal. lia.
  - rewrite H1 by done. case_decide as D1.
    + rewrite decide_True by lia. f_equal. rewrite !list_lookup_total_alt, lookup_app_l by lia. done.
    + by rewrite decide_False by lia.
Qed.

Lemma readi_loop_done fuel ip me lg d root s0 s cs va addrs off n acc :
  io_at me s0 lg d cs s → cache_ok cs d → quiet_cache cs → 0 ≤ n < 2 ^ 31 →
  let out := fbytes cs d addrs off (Z.to_nat (n - n)) in
  ∃ m cs' s', readi_loop fuel ip (ToUser va) off n n acc s = Ok (n, acc ++ out) s' ∧
    io_at me (put_mem m s0) lg d cs' s' ∧ cache_ok cs' d ∧ quiet_cache cs' ∧
    (∀ w, bview cs' d w = bview cs d w) ∧ spares s root m ∧ stored s s' root va out.
Proof.
  intros A C Q Hn out. assert (out = []) as -> by (unfold out; by rewrite Z.sub_diag).
  exists (mem s0), cs, s. rewrite put_mem_mem, app_nil_r. split_and!; try done.
  - destruct fuel; cbn [readi_loop]; rewrite Z.ltb_irrefl; cbn [negb]; by rewrite s32_small by lia.
  - intros p t i Hp Ht' Hi'. unfold view, mem. by rewrite (io_at_mm _ _ _ _ _ _ A).
  - intros a _ _. by rewrite decide_False by (cbn; lia).
Qed.

Lemma readi_loop_ok fuel ip ino me lg d root s0 s cs va off n tot acc :
  io_at me s0 lg d cs s → cache_ok cs d → quiet_cache cs → p_pagetable me = root →
  k_itable s0 !! ip = Some ino → i_dev ino = ROOTDEV → direct cs d (i_addrs ino) off (off + (n - tot)) →
  pt_wf (view s) root → writable s root va (n - tot) →
  0 ≤ va → 0 ≤ tot ≤ n → n < 2 ^ 31 → 0 ≤ off → off + (n - tot) < 2 ^ 32 →
  (tot < n → off mod 1024 + (n - tot) ≤ 1024 * Z.of_nat fuel) →
  let out := fbytes cs d (i_addrs ino) off (Z.to_nat (n - tot)) in
  ∃ m cs' s', readi_loop fuel ip (ToUser va) off n tot acc s = Ok (n, acc ++ out) s' ∧
    io_at me (put_mem m s0) lg d cs' s' ∧ cache_ok cs' d ∧ quiet_cache cs' ∧
    (∀ w, bview cs' d w = bview cs d w) ∧ spares s root m ∧ stored s s' root va out.
Proof.
  revert s0 s cs va off tot acc.
  induction fuel as [|fuel IH]; intros s0 s cs va off tot acc A C Q Hpt Hi Hdev Hdir Hwf Hw Hva Ht Hn Hoff Hend Hfuel;
    pose proof (Z.mod_pos_bound off 1024 ltac:(lia)) as Hmod;
    (destruct (decide (tot = n)) as [->|Hne]; [eapply readi_loop_done; [done|done|done|lia]|]); [lia|].
  cbn [readi_loop]. rewrite (proj2 (Z.ltb_lt tot n)) by lia. cbn [negb].
  assert (Hi' : k_itable s !! ip = Some ino) by by rewrite (io_at_itable _ _ _ _ _ _ A).
  rewrite (bind_ok _ _ _ _ _ (inode_at_run ip s ino Hi')).
  destruct (Hdir off ltac:(lia)) as (Hnd & Hnz & Hbl).
  change (off / BSIZE) with (off / 1024). unfold fblock in Hnz.
  rewrite (bind_ok _ _ _ _ _ (bmap_direct ip s ino (off / 1024) Hi' Hnd Hnz)).
  fold (fblock (i_addrs ino) off). rewrite Hdev.
  set (m := io_chunk n tot off). set (bno := fblock (i_addrs ino) off) in *.
  assert (Hm : m = Z.min (n - tot) (1024 - off mod 1024)).
  { unfold m, io_chunk. rewrite u32_small by lia. change BSIZE with 1024. case_match; lia. }
  set (src := λ data, slice data (Z.to_nat (off mod 1024)) (Z.to_nat m)).
  assert (Hsrc : src (bview cs d bno) = fbytes cs d (i_addrs ino) off (Z.to_nat m)).
  { apply fbytes_slice; [lia|lia|exact Hbl]. }
  assert (Hls : Z.of_nat (length (src (bview cs d bno))) = m) by (rewrite Hsrc, length_fbytes; lia).
  destruct (read_chunk me s0 lg d cs s root va bno src A C Q Hpt Hwf) as
    (mm & cs1 & b & z & s1 & s2 & s3 & E1 & Ez & Hz & E2 & E3 & A3 & C3 & Q3 & V3 & Sp3 & St3).
  { rewrite Hls. eapply writable_cut; [exact Hw|lia]. }
  rewrite (bind_ok _ _ _ _ _ E1), (bind_ok _ _ _ _ _ Ez).
  change (slice (b_data z) (Z.to_nat (off mod BSIZE)) (Z.to_nat m)) with (src (b_data z)).
  rewrite (bind_ok _ _ _ _ _ E2). cbn [Z.eqb]. rewrite (bind_ok _ _ _ _ _ E3).
  pose proof Hw as ((_ & Hmax & _) & _). change MAXVA with 274877906944 in Hmax.
  assert (Ex : ∀ a, 0 ≤ a < MAXVA → xlate (view s3) root a = xlate (view s) root a).
  { intros a Ha. rewrite (same_mm_view (put_mem mm s) s3); [by apply spares_xlate|].
    rewrite (io_at_mm _ _ _ _ _ _ A3). cbn. by rewrite (io_at_mm _ _ _ _ _ _ A). }
  assert (Em3 : k_mm s3 = k_mm (put_mem mm s)).
  { rewrite (io_at_mm _ _ _ _ _ _ A3). cbn. by rewrite (io_at_mm _ _ _ _ _ _ A). }
  cbn [dest_add]. rewrite (u64_small (va + m)), (u32_small (off + m)), (u32_small (tot + m)) by lia.
  destruct (IH (put_mem mm s0) s3 cs1 (va + m) (off + m) (tot + m) (acc ++ src (b_data z)))
    as (m' & cs' & s' & E' & A' & C' & Q' & V' & Sp' & St'); try done; [..|].
  - replace (off + m + (n - (tot + m))) with (off + (n - tot)) by lia.
    intros p Hp. rewrite V3. apply Hdir. lia.
  - rewrite (same_mm_view (put_mem mm s) s3) by done.
    eapply same_nodes_wf; [by apply agree_nodes|done].
  - eapply writable_mm; [exact Em3|]. replace (n - (tot + m)) with (n - tot - m) by lia.
    apply writable_put; [done|done|lia].
  - lia.
  - lia.
  - lia.
  - lia.
  - intros Hlt. assert (Em : m = 1024 - off mod 1024) by lia. rewrite Em in *.
    replace ((off + (1024 - off mod 1024)) mod 1024) with 0 by dlia. lia.
  - exists m', cs', s'. rewrite put_mem_put_mem in A'. rewrite Hz, Hsrc in E'.
    rewrite (fbytes_view cs cs1) in E', St' by done.
    assert (Eout : fbytes cs d (i_addrs ino) off (Z.to_nat (n - tot)) =
      fbytes cs d (i_addrs ino) off (Z.to_nat m) ++ fbytes cs d (i_addrs ino) (off + m) (Z.to_nat (n - (tot + m)))).
    { replace (Z.to_nat (n - tot)) with (Z.to_nat m + Z.to_nat (n - (tot + m)))%nat by lia.
      rewrite fbytes_app. by rewrite Z2Nat.id by lia. }
    rewrite Eout. split_and!; [|done|done|done|..].
    + rewrite Hz, Hsrc, E'. by rewrite app_assoc.
    + intros w. by rewrite V', V3.
    + eapply spares_trans; [exact Sp3|]. intros p t i Hp Ht' Hi''.
      rewrite <-(same_mm_view (put_mem mm s) s3) in Ht' |- * by done. by apply (Sp' p).
    + rewrite <-Hsrc. eapply stored_app; [exact Ex|exact St3|]. rewrite Hls. rewrite Hsrc in *. exact St'.
Qed.
End readi.
