(* ===== verification/PageFault.v ===== *)
(** The page-fault handler of kernel/trap.c on a memory area: it maps a fresh
    frame and fills it from the file of the area. *)

From S2P Require Import Prelude Riscv Kstate Mem Kalloc Vm PageTable VmSpec Machine VmMap VmCopy MemTheorems Sched Bytes Bio BioSpec BioOps Log LogSpec LogCrash LogTheorems Fs RingBuf Pipe PipeSpec File Vma VmaSpec VmaUnmap Proc Exec Syscall Trap Readi.

Section page_fault.
Context {L : Layout} {LO : LayoutOk L}.

(** ** A fresh frame *)

(** The frames user addresses reach are neither free nor page tables. *)
Definition user_frames (s : kstate) (root : Z) (l : list Z) : Prop :=
  ∀ a, 0 ≤ a < MAXVA → has (leaf (view s) root a) PTE_V = true →
    plain s root l (PTE2PA (leaf (view s) root a) / 4096).

Definition zeroed (pg : Z) (s : kstate) : kstate :=
  let s1 := set_mm (taken pg (k_mm s)) s in
  put_mem (fill (mem s1) (4096 * pg) (replicate PGNAT 0)) s1.

Lemma fresh_run s root pg l :
  as_ok s root (pg :: l) → L_kmem ∉ k_held s →
  kalloc s = Ok (4096 * pg) (set_mm (taken pg (k_mm s)) s) ∧
  memset (4096 * pg) 0 PGNAT (set_mm (taken pg (k_mm s)) s) = Ok tt (zeroed pg s).
Proof.
  intros A Hh. pose proof (as_free _ _ _ A) as Hf. split; [by eapply kalloc_run|].
  apply memset_run, page_ok_ram. destruct Hf as (_ & _ & Hok). by inversion Hok.
Qed.

Lemma fresh_plain s root pg l : as_ok s root (pg :: l) → plain s root l pg.
Proof.
  intros [(_ & Hnd & _) _ Hf]. apply NoDup_cons in Hnd as [Hni _]. split; [done|].
  intros p t Hp Ht E. apply (Hf p t Hp Ht). rewrite E. by left.
Qed.

Lemma zeroed_agree s root pg l p t i :
  as_ok s root (pg :: l) → path_ok p → node (view s) root p = Some t → idx_ok i →
  view (zeroed pg s) t i = view s t i.
Proof.
  intros A Hp Ht Hi. destruct (fresh_plain _ _ _ _ A) as [_ Hpl].
  pose proof (wf_tbl _ _ (as_wf _ _ _ A) p t Hp Ht) as [Ha _].
  assert (Hne : t ≠ 4096 * pg) by (intros ->; by eapply Hpl; [exact Hp|exact Ht|apply page_of_mul]).
  unfold view, zeroed. rewrite mem_put_mem. rewrite entries_fill_other; [|apply aligned_mul|done|done|done].
  change (entries (fill (mem s) (4096 * pg) (replicate PGNAT 5)) t i = entries (mem s) t i).
  by rewrite entries_fill_other; [|apply aligned_mul|..].
Qed.

Lemma zeroed_ok s root pg l :
  as_ok s root (pg :: l) →
  as_ok (zeroed pg s) root l ∧ plain (zeroed pg s) root l pg ∧
  same_nodes (view s) (view (zeroed pg s)) root ∧
  (∀ a, 0 ≤ a < MAXVA → leaf (view (zeroed pg s)) root a = leaf (view s) root a) ∧
  (∀ a, ld8 (mem (zeroed pg s)) a = if decide (a / 4096 = pg) then 0 else ld8 (mem s) a).
Proof.
  intros A. pose proof (zeroed_agree s root pg l) as Hag.
  assert (Hsn : same_nodes (view s) (view (zeroed pg s)) root) by (apply agree_nodes; intros; by eapply Hag).
  assert (Hpl : plain (zeroed pg s) root l pg).
  { eapply plain_frame; [exact Hsn|by apply fresh_plain|]. by destruct (fresh_plain _ _ _ _ A). }
  split_and!; [|done|done| |].
  - destruct A as [Hf Hwf Hfr]. split.
    + apply free_list_set_mem. by apply taken_free_list.
    + by eapply same_nodes_wf.
    + intros p t Hp. rewrite Hsn by done. intros Ht Hin. apply (Hfr p t Hp Ht). by right.
  - intros a Ha. apply agree_leaf; [|done]. intros; by eapply Hag.
  - intros a. unfold zeroed. rewrite mem_put_mem, ld8_memset, pgnat_eq.
    pose proof (taken_mem (k_mm s) pg a) as Et. change (mm_mem (taken pg (k_mm s))) with (mem (set_mm (taken pg (k_mm s)) s)) in Et.
    destruct (decide (a / 4096 = pg)) as [<-|Hne].
    + rewrite decide_True by dlia. done.
    + rewrite decide_False by dlia. rewrite Et. by rewrite decide_False by dlia.
Qed.

Lemma pte2pa_aligned pte : PTE2PA pte mod 4096 = 0.
Proof.
  unfold PTE2PA, u64, wrap. rewrite Z.mod_mod_divide by (by exists (2 ^ 52)).
  rewrite Z.shiftl_mul_pow2 by lia. change (2 ^ 12) with 4096. apply Z.mod_mul. lia.
Qed.

(** ** Mapping it *)

Section mapping.
Context (s : kstate) (root pg : Z) (l : list Z) (va perm : Z).
Hypothesis A : as_ok s root (pg :: l).
Hypothesis Hh : L_kmem ∉ k_held s.
Hypothesis Hperm : 0 ≤ perm < 1024.
Hypothesis Hu : has perm PTE_U = true.
Hypothesis Hva : 0 ≤ va ∧ va + PGSIZE ≤ MAXVA.
Hypothesis Hroom : (4 ≤ length l)%nat.
Hypothesis Huf : user_frames s root (pg :: l).

(** The page of the address, and the one after the last byte mapped. *)
Let lo := PGROUNDDOWN va.
Let hi := PGROUNDDOWN (va + PGSIZE - 1) + PGSIZE.

Hypothesis Hun : ∀ v, lo ≤ v < hi → has (leaf (view s) root v) PTE_V = false.

(** The state after the page has been mapped. *)
Record page_mapped (s' : kstate) : Prop := {
  pm_state : s' = set_mm (k_mm s') s;
  pm_wf : pt_wf (view s') root;
  pm_leaf : ∀ v, 0 ≤ v < MAXVA → leaf (view s') root v =
    if decide (lo ≤ v < hi) then pte_of (4096 * pg + (PGROUNDDOWN v - lo)) perm else leaf (view s) root v;
  pm_zero : ∀ a, a / 4096 = pg → ld8 (mem s') a = 0;
  pm_mem : ∀ a, plain s root (pg :: l) (a / 4096) → ld8 (mem s') a = ld8 (mem s) a;
  pm_table : ∀ p t, path_ok p → node (view s') root p = Some t → t ≠ 4096 * pg;
  pm_held : k_held s' = k_held s;
  pm_as : ∃ l', as_ok s' root l' ∧ l' `suffix_of` l ∧ (length l ≤ 2 * Z.to_nat ((hi - lo) / 4096) + length l')%nat;
  pm_node : ∀ p t, path_ok p → node (view s') root p = Some t → node (view s) root p = Some t ∨ t / 4096 ∈ l;
  pm_ref : r_ref (run_at (k_mm s') (run_addr pg)) = 1;
  pm_refs : ∀ q, q ∉ pg :: l → run_at (k_mm s') (run_addr q) = run_at (k_mm s) (run_addr q);
}.

Lemma page_ok_pg : page_ok pg.
Proof using A. destruct (as_free _ _ _ A) as (_ & _ & Hok). by inversion Hok. Qed.

Lemma mapping_ok : ∃ s', mappages root va PGSIZE (4096 * pg) perm (zeroed pg s) = Ok 0 s' ∧ page_mapped s'.
Proof using A Hh Hperm Hva Hroom Huf Hun LO.
  clear Hu. destruct (zeroed_ok s root pg l A) as (A2 & Hpl & Hsn & Hlf & Hm).
  pose proof page_ok_pg as [Hp1 Hp2]. unfold PHYSTOP, KERNBASE in *. pose proof l_end_range as Hend. unfold KERNBASE in Hend.
  destruct (mappages_ok (zeroed pg s) root l va PGSIZE (4096 * pg) perm) as (s' & l' & E & A' & G & Hlen & Hl');
    [exact A2|exact Hh|done|lia|done|lia|apply aligned_mul|lia| | | |].
  - rewrite !pgrounddown_eq. unfold PGSIZE in *. dlia.
  - assert (Z.to_nat ((PGROUNDDOWN (va + PGSIZE - 1) - PGROUNDDOWN va) / PGSIZE) ≤ 1)%nat; [|lia].
    rewrite !pgrounddown_eq. unfold PGSIZE in *. dlia.
  - intros v Hv. change (has (leaf (view (zeroed pg s)) root v) PTE_V = false). rewrite Hlf; [by apply Hun|].
    rewrite !pgrounddown_eq in Hv. change MAXVA with 274877906944 in *. unfold PGSIZE in *. dlia.
  - exists s'. split; [exact E|]. destruct G as [G1 G2 G3 G4 G5 G6]. split.
    + rewrite G1. by destruct s.
    + apply A'.
    + intros v Hv. rewrite Hl' by done. by rewrite Hlf.
    + intros a Ha. rewrite G5 by (by rewrite Ha). rewrite Hm. by rewrite decide_True.
    + intros a [Hni Hn]. apply not_elem_of_cons in Hni as [Hne Hni].
      rewrite G5; [rewrite Hm; by rewrite decide_False|]. split; [done|].
      intros p t Hp. rewrite Hsn by done. by apply Hn.
    + intros p t Hp Ht ->. destruct (G3 p _ Hp Ht) as [Ht'|Hin].
      * by eapply (proj2 Hpl); [exact Hp|exact Ht'|apply page_of_mul].
      * rewrite page_of_mul in Hin. by apply (proj1 Hpl).
    + rewrite G1. done.
    + exists l'. split_and!; [exact A'|exact G2|]. etransitivity; [exact Hlen|].
      assert ((hi - lo) / 4096 = (PGROUNDDOWN (va + PGSIZE - 1) - PGROUNDDOWN va) / PGSIZE + 1 ∧ 0 ≤ (PGROUNDDOWN (va + PGSIZE - 1) - PGROUNDDOWN va) / PGSIZE) as [-> ?]; [|lia].
      subst lo hi. rewrite !pgrounddown_eq. unfold PGSIZE. split; dlia.
    + intros p t Hp Ht. destruct (G3 p t Hp Ht) as [H0|H0]; [left|by right]. by rewrite <-Hsn.
    + rewrite G6 by apply Hpl. unfold zeroed, put_mem, run_at, taken. cbn. by rewrite lookup_insert_eq.
    + intros q Hq. rewrite G6 by set_solver. unfold zeroed, put_mem, run_at, taken. cbn.
      rewrite lookup_insert_ne; [done|]. unfold run_addr. assert (q ≠ pg) by set_solver. lia.
Qed.

(** The page that was mapped first is ordinary writable user memory. *)
Lemma mapped_page_writable s' : page_mapped s' → writable s' root lo 4096.
Proof using A Hperm Hu Hva Hroom Huf Hun LO.
  intros [P1 P2 P3 P4 P5 P6 _ _ _ _ _]. pose proof page_ok_pg as Hpg. pose proof (page_ok_ram _ Hpg) as Hram.
  rewrite pgnat_eq in Hram. pose proof Hpg as [Hp1 Hp2].
  assert (Hlo : 0 ≤ lo ∧ lo + 4096 ≤ MAXVA ∧ lo mod 4096 = 0 ∧ lo + 4096 ≤ hi).
  { subst lo hi. rewrite !pgrounddown_eq. change MAXVA with 274877906944 in *. unfold PGSIZE in *. split_and!; dlia. }
  assert (Hpa : 0 ≤ 4096 * pg < 2 ^ 56).
  { unfold PHYSTOP, KERNBASE in *. pose proof l_end_range as He. unfold KERNBASE in He. lia. }
  assert (Hin : ∀ a, lo ≤ a < lo + 4096 → leaf (view s') root a = pte_of (4096 * pg) perm).
  { intros a Ha. rewrite P3 by lia. rewrite decide_True by lia. do 1 f_equal.
    rewrite pgrounddown_eq. unfold PGSIZE. dlia. }
  assert (Hpp : PTE2PA (pte_of (4096 * pg) perm) = 4096 * pg) by (apply pte_of_pa; [lia|apply aligned_mul|done]).
  split; [split_and!; [lia|lia|]|split_and!].
  - intros a Ha. rewrite Hin, Hpp by done. split_and!; [| |done].
    + rewrite pte_of_has by (done || lia). by rewrite orb_true_r.
    + rewrite pte_of_has by (done || lia). by rewrite Hu.
  - intros a p t Ha Hp Ht. rewrite Hin, Hpp by done. by eapply P6.
  - intros a Ha. rewrite Hin, Hpp by done. apply aligned_mul.
  - intros a a' pa Ha Ha'. unfold xlate. rewrite (Hin a') by done. rewrite Hpp.
    destruct (has (leaf (view s') root a) PTE_V && has (leaf (view s') root a) PTE_U) eqn:Ev; [|done].
    case_match; [|done]. intros [= <-] [= E'].
    apply andb_true_iff in Ev as [Ev _].
    pose proof (pte2pa_aligned (leaf (view s') root a)) as Hal.
    assert (Epg : PTE2PA (leaf (view s') root a) / 4096 = pg) by dlia.
    destruct (decide (lo ≤ a < hi)) as [Hr|Hr].
    + assert (Hrd : lo ≤ PGROUNDDOWN a < lo + 8192 ∧ PGROUNDDOWN a mod 4096 = 0 ∧ PGROUNDDOWN a = a - a mod 4096).
      { subst lo hi. rewrite !pgrounddown_eq in *. unfold PGSIZE in *. split_and!; dlia. }
      assert (E2 : PTE2PA (leaf (view s') root a) = 4096 * pg + (PGROUNDDOWN a - lo)).
      { rewrite P3, decide_True by done. apply pte_of_pa; [|unfold PGSIZE; dlia|done].
        unfold PHYSTOP, KERNBASE in *. lia. }
      rewrite E2 in Epg, E'. dlia.
    + rewrite P3, decide_False in Ev, Epg by (done || lia).
      destruct (Huf a Ha Ev) as [Hni _]. rewrite Epg in Hni. destruct Hni. by left.
Qed.
(** The bytes of that page are zero, and the rest of user memory is as before. *)
Lemma mapped_page_zero s' k :
  page_mapped s' → 0 ≤ k < 4096 → xlate (view s') root (lo + k) ≠ None ∧ ubyte s' root (lo + k) = 0.
Proof using A Hperm Hu Hva Hroom Huf Hun LO.
  intros Pm Hk. pose proof (mapped_page_writable s' Pm) as ((_ & _ & Hr) & _).
  destruct (Hr (lo + k) ltac:(lia)) as (Hv & Hus & _). destruct Pm as [P1 P2 P3 P4 P5 P6 _ _ _ _ _].
  unfold ubyte. rewrite xlate_mapped by done. split; [done|]. apply P4.
  assert (Hlo : 0 ≤ lo + k < MAXVA ∧ lo ≤ lo + k < hi ∧ PGROUNDDOWN (lo + k) = lo).
  { subst lo hi. rewrite !pgrounddown_eq. change MAXVA with 274877906944 in *. unfold PGSIZE in *. split_and!; dlia. }
  rewrite P3, decide_True by lia. destruct Hlo as (_ & _ & ->).
  pose proof page_ok_pg as [Hp1 Hp2]. pose proof l_end_range as He. unfold PHYSTOP, KERNBASE in *.
  rewrite pte_of_pa; [dlia|lia| |done]. rewrite Z.sub_diag, Z.add_0_r. apply aligned_mul.
Qed.

Lemma mapped_page_other s' a :
  page_mapped s' → 0 ≤ a < MAXVA → xlate (view s) root a ≠ None →
  ¬ (lo ≤ a < hi) ∧ xlate (view s') root a = xlate (view s) root a ∧ ubyte s' root a = ubyte s root a.
Proof using A Hperm Hva Hroom Huf Hun.
  intros [P1 P2 P3 P4 P5 P6 _ _ _ _ _] Ha Hx.
  assert (Hv : has (leaf (view s) root a) PTE_V = true).
  { unfold xlate in Hx. destruct (has (leaf (view s) root a) PTE_V); [done|]. done. }
  assert (Hout : ¬ (lo ≤ a < hi)) by (intros Hr; rewrite Hun in Hv by done; done).
  assert (Ex : xlate (view s') root a = xlate (view s) root a).
  { unfold xlate. rewrite P3 by done. by rewrite decide_False. }
  split_and!; [done|done|]. unfold ubyte. rewrite Ex.
  destruct (xlate (view s) root a) as [pa|] eqn:E; [|done]. apply P5.
  unfold xlate in E. destruct (has (leaf (view s) root a) PTE_V && has (leaf (view s) root a) PTE_U); [|done].
  injection E as <-. pose proof (pte2pa_aligned (leaf (view s) root a)).
  replace ((PTE2PA (leaf (view s) root a) + a mod 4096) / 4096) with (PTE2PA (leaf (view s) root a) / 4096) by dlia.
  by apply Huf.
Qed.
End mapping.

(** ** The inode of the file *)

Definition locked_by (me : proc) (ip : nat) (s : kstate) : kstate :=
  set_itable (alter (set_ilock (SleepLock true (p_pid me))) ip (k_itable s)) s.

Lemma ilock_acquire_run s me ip ino :
  ready s me → k_itable s !! ip = Some ino → sl_locked (i_lock ino) = false →
  ilock_acquire ip s = Ok tt (locked_by me ip s).
Proof using Type.
  clear LO L. intros [Hh Hn Hme] Hi Hl. pose proof (lookup_lt_Some _ _ _ Hi) as Hlt. unfold ilock_acquire, acquiresleep, myproc.
  rewrite (bind_ok _ _ _ _ _ (acquire_run (L_inode ip) s ltac:(rewrite Hh; set_solver))).
  set (s1 := set_held _ s). rewrite bind_assoc, (bind_ok _ _ _ _ _ (inode_at_run ip s1 ino Hi)), bind_ret, Hl.
  rewrite bind_gets, (bind_ok _ _ _ _ _ (proc_at_run (k_cur s1) s1 me Hme)).
  rewrite (bind_ok _ _ _ _ _ (upd_inode_run ip _ s1 Hlt)).
  rewrite release_run by (unfold s1; kst; set_solver). unfold s1, locked_by. kst.
  by rewrite held_restore by (rewrite Hh; set_solver).
Qed.

Lemma ilock_run s me ip ino :
  ready s me → k_itable s !! ip = Some ino → sl_locked (i_lock ino) = false → i_valid ino = true →
  1 ≤ i_ref ino → ilock (Some ip) s = Ok tt (locked_by me ip s).
Proof.
  intros Rd Hi Hl Hv Hr. unfold ilock.
  rewrite (bind_ok _ _ _ _ _ (inode_at_run ip s ino Hi)), (proj2 (Z.ltb_ge _ _)) by lia.
  rewrite (bind_ok _ _ _ _ _ (ilock_acquire_run s me ip ino Rd Hi Hl)).
  erewrite (bind_ok (inode_at (Some ip))); [|apply inode_at_run; unfold locked_by; kst; by rewrite list_lookup_alter_eq, Hi].
  cbn [fmap option_fmap option_map i_valid set_ilock]. by rewrite Hv.
Qed.

Definition unlocked (ip : nat) (s : kstate) : kstate :=
  set_procs (wake (C_inode ip) (k_cur s) (k_procs s))
    (set_itable (alter (set_ilock (SleepLock false 0)) ip (k_itable s)) s).

Lemma iunlock_run s me ip ino :
  ready s me → k_itable s !! ip = Some ino → i_lock ino = SleepLock true (p_pid me) → 1 ≤ i_ref ino →
  iunlock (Some ip) s = Ok tt (unlocked ip s).
Proof.
  intros [Hh Hn Hme] Hi Hl Hr. unfold iunlock. pose proof (lookup_lt_Some _ _ _ Hi) as Hlt.
  assert (E : ilock_holding ip s = Ok true s).
  { unfold ilock_holding, holdingsleep, myproc.
    rewrite (bind_ok _ _ _ _ _ (acquire_run (L_inode ip) s ltac:(rewrite Hh; set_solver))).
    set (s1 := set_held _ s). rewrite bind_assoc, (bind_ok _ _ _ _ _ (inode_at_run ip s1 ino Hi)), bind_ret.
    rewrite bind_gets, (bind_ok _ _ _ _ _ (proc_at_run (k_cur s1) s1 me Hme)).
    rewrite (bind_ok _ _ _ _ _ (release_run (L_inode ip) s1 ltac:(unfold s1; kst; set_solver))).
    rewrite Hl. cbn [sl_locked sl_pid andb]. rewrite Z.eqb_refl. unfold s1, mret, M_ret. f_equal. kst.
    rewrite held_restore by (rewrite Hh; set_solver). by destruct s. }
  rewrite (bind_ok _ _ _ _ _ E). cbn [negb].
  rewrite (bind_ok _ _ _ _ _ (inode_at_run ip s ino Hi)), (proj2 (Z.ltb_ge _ _)) by lia.
  unfold ilock_release, releasesleep.
  rewrite (bind_ok _ _ _ _ _ (acquire_run (L_inode ip) s ltac:(rewrite Hh; set_solver))).
  set (s1 := set_held _ s). rewrite (bind_ok _ _ _ _ _ (upd_inode_run ip _ s1 Hlt)).
  set (s2 := set_itable _ s1).
  rewrite (bind_ok _ _ _ _ _ (wakeup_run (C_inode ip) s2 ltac:(intros i _; unfold s2, s1; kst; rewrite Hh; set_solver) Hn)).
  set (s3 := set_procs _ s2).
  rewrite release_run by (unfold s3, s2, s1; kst; set_solver). unfold s3, s2, s1, unlocked. kst.
  by rewrite held_restore by (rewrite Hh; set_solver).
Qed.

(** ** readi() *)

(** The bytes a read of [n] bytes at [off] delivers from a file of [size]. *)
Definition rlen (size off n : Z) : Z := Z.max 0 (Z.min n (size - off)).

Lemma readi_ok ip ino me lg d root s0 s cs va off n :
  io_at me s0 lg d cs s → cache_ok cs d → quiet_cache cs → p_pagetable me = root →
  k_itable s0 !! ip = Some ino → i_dev ino = ROOTDEV → 0 ≤ i_size ino < 2 ^ 31 →
  direct cs d (i_addrs ino) off (off + rlen (i_size ino) off n) →
  pt_wf (view s) root → writable s root va n →
  0 ≤ va → 0 ≤ n < 2 ^ 31 → 0 ≤ off < 2 ^ 31 →
  let out := fbytes cs d (i_addrs ino) off (Z.to_nat (rlen (i_size ino) off n)) in
  ∃ r m cs' s', readi ip (ToUser va) off n s = Ok r s' ∧
    io_at me (put_mem m s0) lg d cs' s' ∧ cache_ok cs' d ∧ quiet_cache cs' ∧ (∀ w, bview cs' d w = bview cs d w) ∧
    spares s root m ∧ stored s s' root va out.
Proof.
  intros A C Q Hpt Hi Hdev Hsz Hdir Hwf Hw Hva Hn Hoff out. unfold readi.
  assert (Hi' : k_itable s !! ip = Some ino) by by rewrite (io_at_itable _ _ _ _ _ _ A).
  rewrite (bind_ok _ _ _ _ _ (inode_at_run ip s ino Hi')).
  rewrite (u32_small (off + n)) by lia. rewrite (proj2 (Z.ltb_ge (off + n) off)), orb_false_r by lia.
  destruct (Z.ltb_spec (i_size ino) off) as [Hlt|Hge].
  { assert (out = []) as -> by (unfold out, rlen; by replace (Z.max 0 (Z.min n (i_size ino - off))) with 0 by lia).
    eexists _, (mem s0), cs, s. rewrite put_mem_mem. split_and!; [done|done|done|done|done|..].
    - intros p t i Hp Ht' Hi''. unfold view, mem. by rewrite (io_at_mm _ _ _ _ _ _ A).
    - intros a _ _. by rewrite decide_False by (cbn; lia). }
  assert (En : (if i_size ino <? off + n then u32 (i_size ino - off) else n) = rlen (i_size ino) off n).
  { unfold rlen. destruct (Z.ltb_spec (i_size ino) (off + n)); [rewrite u32_small by lia|]; lia. }
  rewrite En. set (k := rlen (i_size ino) off n) in *.
  assert (Hk : 0 ≤ k ≤ n) by (unfold k, rlen; lia).
  destruct (readi_loop_ok (io_fuel k) ip ino me lg d root s0 s cs va off k 0 [])
    as (m & cs' & s' & E & A' & C' & Q' & V' & Sp & St); try done; rewrite ?Z.sub_0_r; try done; try lia.
  - eapply writable_cut; [exact Hw|lia].
  - intros _. pose proof (Z.mod_pos_bound off 1024). unfold io_fuel. change BSIZE with 1024.
    rewrite !Nat2Z.inj_succ, Z2Nat.id by (apply Z.div_pos; lia). dlia.
  - eexists _, m, cs', s'. split_and!; [exact E|exact A'|exact C'|exact Q'|exact V'|exact Sp|]. rewrite Z.sub_0_r in St. exact St.
Qed.

(** ** Finding the area *)

Lemma find_vma_ok s n va act l xs j i x :
  vchain (k_vmas s) act l xs → ordered START_ADDRESS (areas xs) →
  l !! j = Some i → xs !! j = Some x → v_addri x ≤ va < v_addre x → (j < n)%nat →
  find_vma n va act s = Ok (Some i) s.
Proof.
  intros Hc Hor. revert n act l j Hc Hor. generalize START_ADDRESS.
  induction xs as [|y xs IH]; intros lo n act [|i' l] j Hc Hor Hi Hx Hva Hj; cbn [vchain] in Hc; try done.
  destruct Hc as (-> & Hy & Hc). destruct n as [|n]; [lia|]. cbn [find_vma].
  rewrite (bind_ok _ _ _ _ _ (vma_at_run i' s y Hy)). cbn [areas fmap list_fmap ordered] in Hor.
  destruct j as [|j]; cbn in Hi, Hx.
  - injection Hi as <-. injection Hx as <-.
    by rewrite (proj2 (Z.leb_le _ _)), (proj2 (Z.ltb_lt _ _)) by lia.
  - destruct Hor as (_ & _ & _ & _ & _ & Hor). change (xs !! j = Some x) in Hx.
    destruct (ordered_lookup _ _ j (v_addri x) (v_addre x) Hor) as (? & _);
      [unfold areas; by rewrite list_lookup_fmap, Hx|].
    rewrite (proj2 (Z.ltb_ge va (v_addre y))), andb_false_r by lia.
    eapply (IH _ n (v_next y) l j); [done|exact Hor|done|done|done|lia].
Qed.

(** ** The handler *)

(** The area [x] maps the file with inode [ip], whose contents are in memory,
    and no one is using it. *)
Record backed (s : kstate) (x : vma) (ip : nat) (ino : inode) : Prop := {
  bk_file : ∃ f fx, v_ofile x = Some f ∧ k_ftable s !! f = Some fx ∧ f_ip fx = Some ip;
  bk_inode : k_itable s !! ip = Some ino;
  bk_dev : i_dev ino = ROOTDEV;
  bk_valid : i_valid ino = true;
  bk_free : sl_locked (i_lock ino) = false;
  bk_ref : 1 ≤ i_ref ino;
  bk_size : 0 ≤ i_size ino < 2 ^ 31;
}.

Section handler.
Context (s : kstate) (me : proc) (root pg va off : Z) (l : list Z) (x : vma) (ip : nat) (ino : inode).

(** The page of the faulting address and the end of what mappages() maps. *)
Let lo := PGROUNDDOWN va.
Let hi := PGROUNDDOWN (va + PGSIZE - 1) + PGSIZE.
Let perm := Z.lor (v_prot x) PTE_U.
Let cs := cells (k_bufs s).
Let d := io_disk (k_io s).

(** What the file has for byte [k] of the page. *)
Definition page_byte (k : Z) : Z :=
  if off + k <? i_size ino then u8 (fbyte cs d (i_addrs ino) (off + k)) else 0.

(** The page has been mapped and filled. *)
Record filled (s' : kstate) : Prop := {
  fl_leaf : ∀ v, 0 ≤ v < MAXVA → leaf (view s') root v =
    if decide (lo ≤ v < hi) then pte_of (4096 * pg + (PGROUNDDOWN v - lo)) perm else leaf (view s) root v;
  fl_page : ∀ k, 0 ≤ k < 4096 → ubyte s' root (lo + k) = page_byte k;
  fl_other : ∀ a, 0 ≤ a < MAXVA → xlate (view s) root a ≠ None → ubyte s' root a = ubyte s root a;
}.

(** What the handler leaves of the rest of the kernel: everything but the page
    tables, the buffer cache and the lock of the inode is as it was, the cache
    shows the same disk, the frame is a user page, and the free list is what is
    left after the page and at most two tables for each page mapped. *)
Record resumed (s' : kstate) : Prop := {
  re_vmas : k_vmas s' = k_vmas s;
  re_ftable : k_ftable s' = k_ftable s;
  re_cur : k_cur s' = k_cur s;
  re_itable : k_itable s' = alter (set_ilock (SleepLock false 0)) ip (k_itable s);
  re_ready : ready s' me;
  re_disk : io_disk (k_io s') = d;
  re_ring : ring_ok (k_bufs s');
  re_cache : cache_ok (cells (k_bufs s')) d;
  re_quiet : quiet_cache (cells (k_bufs s'));
  re_view : ∀ w, bview (cells (k_bufs s')) d w = bview cs d w;
  re_as : ∃ l', as_ok s' root l' ∧ l' `suffix_of` l ∧ (length l ≤ 2 * Z.to_nat ((hi - lo) / 4096) + length l')%nat;
  re_node : ∀ p t, path_ok p → node (view s') root p = Some t → node (view s) root p = Some t ∨ t / 4096 ∈ l;
  re_table : ∀ p t, path_ok p → node (view s') root p = Some t → t ≠ 4096 * pg;
  re_ref : r_ref (run_at (k_mm s') (run_addr pg)) = 1;
  re_refs : ∀ q, q ∉ pg :: l → run_at (k_mm s') (run_addr q) = run_at (k_mm s) (run_addr q);
}.

(** Unlocking the inode after the transfer into the new page. *)
Lemma resume_ok s1 m cs' s3 :
  page_mapped s root pg l va perm s1 → io_at me (put_mem m (locked_by me ip s1)) (io_log (k_io s)) d cs' s3 →
  cache_ok cs' d → quiet_cache cs' → (∀ w, bview cs' d w = bview cs d w) → spares (locked_by me ip s1) root m →
  k_mm (unlocked ip s3) = k_mm (put_mem m (locked_by me ip s1)) → resumed (unlocked ip s3).
Proof.
  intros [P1 _ _ _ _ P6 _ (l' & A1 & Hsuf & Hlen) P9 P10 P11] A3 C3 Q3 V3 Sp Em.
  destruct (ia_frame _ _ _ _ _ _ A3) as (bufs & ps & E3). pose proof (ia_cells _ _ _ _ _ _ A3) as Ec.
  set (s' := unlocked ip s3) in *.
  assert (Ev : view s' = view (put_mem m s1)) by (unfold view, mem; by rewrite Em).
  assert (Er : ∀ q, run_at (k_mm s') (run_addr q) = run_at (k_mm s1) (run_addr q)) by (intros q; by rewrite Em).
  assert (Hag : ∀ p t i, path_ok p → node (view s1) root p = Some t → idx_ok i → view s' t i = view s1 t i).
  { intros p t i Hp Ht Hi. rewrite Ev. unfold view at 1. rewrite mem_put_mem. by eapply Sp. }
  assert (Hsn : same_nodes (view s1) (view s') root) by by apply agree_nodes.
  split.
  - unfold s', unlocked. rewrite E3, P1. done.
  - unfold s', unlocked. rewrite E3, P1. done.
  - unfold s', unlocked. rewrite E3, P1. done.
  - unfold s', unlocked. rewrite E3, P1. cbn [k_itable set_itable set_procs set_io put_mem set_mm locked_by].
    apply list_eq. intros i. kst. rewrite !list_lookup_alter. case_decide as Ei; [|done]. rewrite decide_True by done. subst i. by destruct (k_itable s !! ip).
  - destruct (ia_ready _ _ _ _ _ _ A3) as [R1 R2 R3]. split; [exact R1|..]; unfold s', unlocked; kst.
    + by rewrite length_wake.
    + by rewrite wake_cur.
  - unfold s', unlocked. rewrite E3. done.
  - exact (ia_ring _ _ _ _ _ _ A3).
  - change (k_bufs s') with (k_bufs s3). by rewrite Ec.
  - change (k_bufs s') with (k_bufs s3). by rewrite Ec.
  - change (k_bufs s') with (k_bufs s3). by rewrite Ec.
  - exists l'. split_and!; [|exact Hsuf|exact Hlen]. destruct A1 as [F1 W1 Fr1]. split.
    + rewrite Em. by apply free_list_set_mem.
    + by eapply same_nodes_wf.
    + intros p t Hp. rewrite Hsn by done. by apply Fr1.
  - intros p t Hp. rewrite Hsn by done. by apply P9.
  - intros p t Hp. rewrite Hsn by done. by apply P6.
  - by rewrite Er.
  - intros q Hq. rewrite Er. by apply P11.
Qed.

Lemma fill_page s1 :
  as_ok s root (pg :: l) → 0 ≤ perm < 1024 → has perm PTE_U = true → 0 ≤ va → va + PGSIZE ≤ MAXVA →
  (4 ≤ length l)%nat → user_frames s root (pg :: l) →
  (∀ v, lo ≤ v < hi → has (leaf (view s) root v) PTE_V = false) →
  page_mapped s root pg l va perm s1 → ready s me → p_pagetable me = root → backed s x ip ino →
  ring_ok (k_bufs s) → cache_ok cs d → quiet_cache cs →
  0 ≤ off < 2 ^ 31 → direct cs d (i_addrs ino) off (off + rlen (i_size ino) off PGSIZE) →
  ∃ s', (ilock (Some ip);; readi ip (ToUser lo) off PGSIZE;; iunlock (Some ip)) s1 = Ok tt s' ∧ filled s' ∧ resumed s'.
Proof.
  intros A Hperm Hu Hva0 Hva1 Hroom Huf Hun Pm Rd Hpt [_ Hi Hdev Hval Hfree Href Hsz] R C Q Hoff Hdir.
  pose proof (mapped_page_writable s root pg l va perm A Hperm Hu (conj Hva0 Hva1) Hroom Huf Hun s1 Pm) as Hw.
  fold lo in Hw.
  pose proof (λ k, mapped_page_zero s root pg l va perm A Hperm Hu (conj Hva0 Hva1) Hroom Huf Hun s1 k Pm) as Hz.
  pose proof (λ a, mapped_page_other s root pg l va perm A Hperm (conj Hva0 Hva1) Hroom Huf Hun s1 a Pm) as Ho.
  fold lo in Hz. fold lo hi in Ho. destruct Pm as [P1 P2 P3 P4 P5 P6 P7 P8 P9 P10 P11].
  assert (Rd1 : ready s1 me) by (rewrite P1; destruct Rd; by split).
  assert (Hi1 : k_itable s1 !! ip = Some ino) by (rewrite P1; exact Hi).
  rewrite (bind_ok _ _ _ _ _ (ilock_run s1 me ip ino Rd1 Hi1 Hfree Hval Href)).
  set (s2 := locked_by me ip s1). set (ino' := set_ilock (SleepLock true (p_pid me)) ino).
  assert (Hi2 : k_itable s2 !! ip = Some ino') by (unfold s2, locked_by; kst; by rewrite list_lookup_alter_eq, Hi1).
  assert (Ebufs : k_bufs s2 = k_bufs s) by (unfold s2, locked_by; rewrite P1; done).
  assert (Eio : k_io s2 = k_io s) by (unfold s2, locked_by; rewrite P1; done).
  assert (Rd2 : ready s2 me) by (destruct Rd1; by split).
  pose proof (io_at_refl me s2 ltac:(by rewrite Ebufs) Rd2) as A2. rewrite Ebufs, Eio in A2. fold cs d in A2.
  assert (Hlo : 0 ≤ lo ∧ lo + 4096 ≤ MAXVA ∧ lo + 4096 ≤ hi).
  { unfold lo, hi. rewrite !pgrounddown_eq. change MAXVA with 274877906944 in *. unfold PGSIZE in *. split_and!; dlia. }
  destruct (readi_ok ip ino' me (io_log (k_io s)) d root s2 s2 cs lo off PGSIZE) as (r & m & cs' & s3 & E & A3 & C3 & Q3 & V3 & Sp & St);
    try done; try lia.
  rewrite (bind_ok _ _ _ _ _ E).
  assert (Hi3 : k_itable s3 !! ip = Some ino') by (rewrite (io_at_itable _ _ _ _ _ _ A3); exact Hi2).
  rewrite (iunlock_run s3 me ip ino' (ia_ready _ _ _ _ _ _ A3) Hi3 eq_refl Href).
  exists (unlocked ip s3). split; [done|].
  assert (Em : k_mm (unlocked ip s3) = k_mm (put_mem m s2)) by apply (io_at_mm _ _ _ _ _ _ A3).
  assert (Ub : ∀ a, ubyte (unlocked ip s3) root a = ubyte s3 root a) by done.
  assert (U2 : ∀ a, ubyte s2 root a = ubyte s1 root a) by done.
  split; [|by eapply (resume_ok s1 m cs' s3)]. split.
  - intros v Hv. rewrite (same_mm_view (put_mem m s2) _ Em).
    rewrite (agree_leaf (view s2)) by done. by apply P3.
  - intros k Hk. destruct (Hz k Hk) as [Hx H0]. rewrite Ub, St by (done || lia).
    rewrite length_fbytes. unfold page_byte. change (i_size ino') with (i_size ino). change (i_addrs ino') with (i_addrs ino).
    destruct (Z.ltb_spec (off + k) (i_size ino)) as [Hlt|Hge].
    + rewrite decide_True by (unfold rlen, PGSIZE; lia). f_equal.
      replace (lo + k - lo) with k by lia. apply list_lookup_total_correct.
      rewrite lookup_fbytes by (unfold rlen, PGSIZE; lia). by rewrite Z2Nat.id by lia.
    + rewrite decide_False by (unfold rlen, PGSIZE; lia). by rewrite U2.
  - intros a Ha Hx. destruct (Ho a Ha Hx) as (Hout & Ex & Eu).
    rewrite Ub, St, length_fbytes by (done || by rewrite <-Ex in Hx).
    rewrite decide_False by (unfold rlen, PGSIZE; lia). by rewrite U2.
Qed.
End handler.

(** The handler, with what it leaves of the kernel state. *)
Lemma page_fault_ok fuel s me root pg l vl xs j x ip ino va :
  let off := PGROUNDDOWN va - v_addri x in
  let cs := cells (k_bufs s) in
  let d := io_disk (k_io s) in
  vmas_ok s (k_cur s) vl xs → xs !! j = Some x → v_addri x ≤ va < v_addre x → 0 ≤ v_prot x < 1024 →
  ready s me → p_pagetable me = root →
  as_ok s root (pg :: l) → (4 ≤ length l)%nat → user_frames s root (pg :: l) →
  (∀ v, PGROUNDDOWN va ≤ v < PGROUNDDOWN (va + PGSIZE - 1) + PGSIZE → has (leaf (view s) root v) PTE_V = false) →
  backed s x ip ino → off < 2 ^ 31 →
  ring_ok (k_bufs s) → cache_ok cs d → quiet_cache cs →
  direct cs d (i_addrs ino) off (off + rlen (i_size ino) off PGSIZE) →
  ∃ s', page_fault fuel (k_cur s) va s = Ok tt s' ∧ filled s root pg va off x ino s' ∧ resumed s me root pg va l ip s'.
Proof.
  intros off cs d Vo Hx Hva Hprot Rd Hpt A Hroom Huf Hun Bk Hoff R C Q Hdir.
  pose proof Vo as [_ (me' & Hme & Hn & Hch) _ _ _ Har]. pose proof Rd as [Hh _ Hme']. rewrite Hme in Hme'. injection Hme' as ->.
  destruct (ordered_lookup _ _ j (v_addri x) (v_addre x) Har) as (Hlo & _ & Htop & Hal & _);
    [unfold areas; by rewrite list_lookup_fmap, Hx|].
  assert (Hoff0 : 0 ≤ off) by (unfold off; rewrite pgrounddown_eq; unfold PGSIZE in *; dlia).
  assert (Hva' : 0 ≤ va ∧ va + PGSIZE ≤ MAXVA).
  { change MAXVA with 274877906944. unfold START_ADDRESS, TOP_ADDRESS, PGSIZE in *. lia. }
  assert (Hperm : 0 ≤ Z.lor (v_prot x) PTE_U < 1024) by (apply (lor_range 10); unfold PTE_U; lia).
  assert (Hu : has (Z.lor (v_prot x) PTE_U) PTE_U = true) by (rewrite has_lor; apply orb_true_r).
  pose proof (vchain_length _ _ _ _ Hch) as Hll. pose proof (lookup_lt_Some _ _ _ Hx) as Hj.
  destruct (lookup_is_Some vl j ltac:(lia)) as [i Hi].
  unfold page_fault. rewrite (bind_ok _ _ _ _ _ (proc_at_run _ s me Hme)).
  rewrite (proj2 (Z.eqb_neq (p_nvma me) 0)) by lia.
  rewrite (bind_ok _ _ _ _ _ (find_vma_ok s (Z.to_nat (p_nvma me)) va (p_vmas me) vl xs j i x Hch Har Hi Hx Hva ltac:(lia))).
  destruct (fresh_run s root pg l A ltac:(rewrite Hh; set_solver)) as [Ek Em].
  rewrite (bind_ok _ _ _ _ _ Ek). pose proof (page_ok_pg s root pg l A) as [Hp1 _]. pose proof l_end_range as He.
  unfold KERNBASE in He. rewrite (proj2 (Z.eqb_neq (4096 * pg) 0)) by lia. cbn [when].
  unfold skip at 1. rewrite bind_ret, (bind_ok _ _ _ _ _ Em).
  destruct (vchain_lookup _ _ _ _ _ _ Hch Hi) as (x' & Hx' & Hvi). rewrite Hx in Hx'. injection Hx' as <-.
  rewrite (bind_ok _ _ _ _ _ (vma_at_run i (zeroed pg s) x Hvi)).
  rewrite (bind_ok _ _ _ _ _ (proc_at_run (k_cur s) (zeroed pg s) me Hme)), Hpt.
  destruct (mapping_ok s root pg l va (Z.lor (v_prot x) PTE_U) A ltac:(rewrite Hh; set_solver) Hperm Hva' Hroom Huf Hun)
    as (s1 & E1 & Pm).
  rewrite (bind_ok _ _ _ _ _ E1). change (negb (0 =? 0)) with false. cbv iota.
  destruct (bk_file _ _ _ _ Bk) as (f & fx & Hf & Hfx & Hfi). rewrite Hf.
  rewrite (bind_ok _ _ _ _ _ (file_at_run f s1 fx ltac:(rewrite (pm_state _ _ _ _ _ _ _ Pm); exact Hfx))), Hfi.
  cbn [nonnull]. unfold off in *. rewrite (u32_small (PGROUNDDOWN va - v_addri x)) by lia.
  destruct (fill_page s me root pg va (PGROUNDDOWN va - v_addri x) l x ip ino s1) as (s' & E & F & Re); try done; [lia..|].
  exists s'. split; [exact E|done].
Qed.

(** C4: A page fault inside a memory area loads the page from the file.  When
    the process faults at an address of one of its areas and the pages that
    the handler maps are not mapped yet, the handler returns; a fresh frame is
    mapped at the page of the address with the protection of the area, and its
    4096 bytes are the bytes of the file at the distance of the page from the
    start of the area, with zeros past the end of the file; every user byte
    that was mapped before keeps its value.  Exactly the pages from the page of
    the address to the page of the address plus 4095 are mapped, to consecutive
    frames: one page for an aligned address, and otherwise a second page, whose
    frame was not allocated.  (For the blocks the inode addresses directly.) *)
Theorem page_fault_fills fuel s me root pg l vl xs j x ip ino va :
  let off := PGROUNDDOWN va - v_addri x in
  let cs := cells (k_bufs s) in
  let d := io_disk (k_io s) in
  vmas_ok s (k_cur s) vl xs → xs !! j = Some x → v_addri x ≤ va < v_addre x → 0 ≤ v_prot x < 1024 →
  ready s me → p_pagetable me = root →
  as_ok s root (pg :: l) → (4 ≤ length l)%nat → user_frames s root (pg :: l) →
  (∀ v, PGROUNDDOWN va ≤ v < PGROUNDDOWN (va + PGSIZE - 1) + PGSIZE → has (leaf (view s) root v) PTE_V = false) →
  backed s x ip ino → off < 2 ^ 31 →
  ring_ok (k_bufs s) → cache_ok cs d → quiet_cache cs →
  direct cs d (i_addrs ino) off (off + rlen (i_size ino) off PGSIZE) →
  ∃ s', page_fault fuel (k_cur s) va s = Ok tt s' ∧ filled s root pg va off x ino s'.
Proof.
  intros off cs d. intros. destruct (page_fault_ok fuel s me root pg l vl xs j x ip ino va) as (s' & E & F & _); [done..|].
  by exists s'.
Qed.
End page_fault.

(** ** A fault on a small file *)

(** The file of five bytes in block 50, mapped at the start of the region. *)
Definition inode_five : inode :=
  Inode 1 2 1 (SleepLock false 0) true 2 0 0 1 5 (50 :: replicate 12 0).
Definition st_pf : kstate :=
  KState 0 ∅ mm0 (IO (ring_bufs tx_cells) [] tx_log sb0) (inode_five :: replicate 49 inode_free)
    (file_rw :: replicate 99 file_free) (vma_two :: replicate 29 vma_unused) ∅
    (proc_two :: replicate 63 proc0) 2 (Some 1%nat) 0.

Lemma leaf_pf v : leaf (view st_pf) root0 v = 0.
Proof.
  unfold leaf. destruct (node (view st_pf) root0 (va_path v)) as [t|] eqn:E; [|done].
  by apply node0 in E as [? _].
Qed.

Lemma vmas_ok_pf : vmas_ok st_pf 0 [0%nat] [vma_two].
Proof.
  split; [done| |by apply Nat.leb_le; vm_compute|apply NoDup_singleton|by repeat constructor|by vm_compute].
  exists proc_two. by split_and!.
Qed.

Lemma direct_pf : direct tx_cells [] (i_addrs inode_five) 0 5.
Proof.
  intros p Hp. assert (fblock (i_addrs inode_five) p = 50) as ->.
  { unfold fblock. by rewrite Z.div_small by lia. }
  split_and!; [unfold NDIRECT; dlia|done|by vm_compute].
Qed.

Lemma page_fault_fills_witness :
  ∃ s', page_fault 0 0 START_ADDRESS st_pf = Ok tt s' ∧
    ubyte s' root0 START_ADDRESS = 7 ∧ ubyte s' root0 (START_ADDRESS + 5) = 0.
Proof.
  destruct (page_fault_fills 0 st_pf proc_two root0 0x87001 (tail free0) [0%nat] [vma_two] 0 vma_two 0 inode_five START_ADDRESS)
    as (s' & E & [_ F _]).
  - exact vmas_ok_pf.
  - reflexivity.
  - split; [intros C; discriminate C|reflexivity].
  - split; [intros C; discriminate C|reflexivity].
  - split; reflexivity.
  - reflexivity.
  - exact (as_ok0 st_pf eq_refl free_list0).
  - cbn. lia.
  - intros a _. rewrite leaf_pf. discriminate.
  - intros v _. rewrite leaf_pf. reflexivity.
  - split; try reflexivity.
    + exists 0%nat, file_rw. split_and!; reflexivity.
    + cbn. lia.
  - reflexivity.
  - exact ring_tx.
  - change (cells (k_bufs st_pf)) with (cells (k_bufs st_tx)). rewrite cells_tx. exact cache_tx.
  - change (cells (k_bufs st_pf)) with (cells (k_bufs st_tx)). rewrite cells_tx. exact quiet_tx.
  - change (cells (k_bufs st_pf)) with (cells (k_bufs st_tx)). rewrite cells_tx. exact direct_pf.
  - exists s'. split; [exact E|]. split.
    + etransitivity; [apply (F 0); lia|]. vm_compute. reflexivity.
    + etransitivity; [apply (F 5); lia|]. vm_compute. reflexivity.
Defined.
