(* ===== verification/VirtioDisk.v ===== *)
(** kernel/virtio_disk.c and kernel/virtio.h: the driver's data structures and
    operations, and the protocol it runs with the disk.

    The driver and the device share the descriptor table and the two rings.
    Any number of threads are inside virtio_disk_rw() at the same time; each
    stops at the points where the code sleeps, and the device works between
    any two accesses that it could observe.  The device is a parameter: what
    the driver may rely on is the relation [dev_doc], from the sections of the
    virtio specification that the source cites. *)

From S2P Require Import Prelude RingBuf Bio.

(** ** Constants of virtio.h *)
Definition NUM : Z := 8.
Definition VRING_DESC_F_NEXT : Z := 1.
Definition VRING_DESC_F_WRITE : Z := 2.
Definition VIRTIO_BLK_T_IN : Z := 0.
Definition VIRTIO_BLK_T_OUT : Z := 1.

(** ** Data *)

(** The addresses the driver puts into descriptors: 0, &disk.ops[i],
    b->data and &disk.info[i].status. *)
Inductive daddr : Type :=
| DNull
| DOps (i : Z)
| DData (b : nat)
| DStatus (i : Z).

Record virtq_desc : Type := VDesc { d_addr : daddr; d_len : Z; d_flags : Z; d_next : Z }.
Record virtio_blk_req : Type := BlkReq { rq_type : Z; rq_reserved : Z; rq_sector : Z }.
(** struct { struct buf *b; char status; } *)
Record dinfo : Type := DInfo { in_b : option nat; in_status : Z }.

(** struct disk.  desc, avail and used point into pages[]; of the used
    elements the driver only reads the id. *)
Record disk : Type := Disk {
  desc : list virtq_desc;
  avail_ring : list Z;
  avail_idx : Z;
  used_ring : list Z;
  used_dev_idx : Z;      (* disk.used->idx *)
  free : list bool;
  used_idx : Z;
  info : list dinfo;
  ops : list virtio_blk_req;
}.

(** The fields of struct buf that the driver uses. *)
Record vbuf : Type := VBuf { vb_blockno : Z; vb_disk : Z; vb_data : list Z }.

(** Channels: &disk.free[0], and a buffer. *)
Inductive wchan : Type := WFree | WBuf (b : nat).
#[export] Instance wchan_eq_dec : EqDecision wchan.
Proof. solve_decision. Defined.

(** Memory: the driver's structure, the buffer cache, and the threads asleep
    on one of the driver's channels. *)
Record vmem : Type := VMem {
  v_disk : disk;
  v_bufs : list vbuf;
  v_sleep : gmap nat wchan;
}.

Inductive verr : Type := VPanic (msg : string) | VFault | VFuel.

Abbreviation V := (M verr vmem).

(** ** Access to the structure *)

Definition set_desc f (d : disk) := Disk (f (desc d)) (avail_ring d) (avail_idx d) (used_ring d) (used_dev_idx d) (free d) (used_idx d) (info d) (ops d).
Definition set_free f (d : disk) := Disk (desc d) (avail_ring d) (avail_idx d) (used_ring d) (used_dev_idx d) (f (free d)) (used_idx d) (info d) (ops d).
Definition set_avail f (d : disk) := Disk (desc d) (f (avail_ring d)) (avail_idx d) (used_ring d) (used_dev_idx d) (free d) (used_idx d) (info d) (ops d).
Definition set_avail_idx i (d : disk) := Disk (desc d) (avail_ring d) i (used_ring d) (used_dev_idx d) (free d) (used_idx d) (info d) (ops d).
Definition set_used r i (d : disk) := Disk (desc d) (avail_ring d) (avail_idx d) r i (free d) (used_idx d) (info d) (ops d).
Definition set_used_idx i (d : disk) := Disk (desc d) (avail_ring d) (avail_idx d) (used_ring d) (used_dev_idx d) (free d) i (info d) (ops d).
Definition set_info f (d : disk) := Disk (desc d) (avail_ring d) (avail_idx d) (used_ring d) (used_dev_idx d) (free d) (used_idx d) (f (info d)) (ops d).
Definition set_ops f (d : disk) := Disk (desc d) (avail_ring d) (avail_idx d) (used_ring d) (used_dev_idx d) (free d) (used_idx d) (info d) (f (ops d)).

Definition upd_disk (f : disk → disk) (v : vmem) : vmem := VMem (f (v_disk v)) (v_bufs v) (v_sleep v).
Definition upd_bufs (f : list vbuf → list vbuf) (v : vmem) : vmem := VMem (v_disk v) (f (v_bufs v)) (v_sleep v).
Definition upd_sleep (f : gmap nat wchan → gmap nat wchan) (v : vmem) : vmem := VMem (v_disk v) (v_bufs v) (f (v_sleep v)).

(** a[i], for an index that can be negative. *)
Definition at_ {A} (l : list A) (i : Z) : option A := if i <? 0 then None else l !! Z.to_nat i.
Definition load {A} (f : vmem → list A) (i : Z) : V A :=
  λ v, match at_ (f v) i with Some x => Ok x v | None => Err VFault v end.
(** The element of an array at [i] becomes [x]. *)
Definition wr {A} (i : Z) (x : A) (l : list A) : list A := <[Z.to_nat i:=x]> l.

Definition set_buf_disk (k : Z) (x : vbuf) : vbuf := VBuf (vb_blockno x) k (vb_data x).
Definition set_buf_data (l : list Z) (x : vbuf) : vbuf := VBuf (vb_blockno x) (vb_disk x) l.
Definition set_in_b (o : option nat) (x : dinfo) : dinfo := DInfo o (in_status x).
Definition set_in_status (k : Z) (x : dinfo) : dinfo := DInfo (in_b x) k.

(** wakeup(): no thread sleeps on [c] any more. *)
Definition vwakeup (c : wchan) : V unit := modify (upd_sleep (filter (λ p, p.2 ≠ c))).
(** sleep(): thread [t] is asleep; it gives up the lock (in [step]). *)
Definition vsleep (t : nat) (c : wchan) : V unit := modify (upd_sleep (<[t:=c]>)).

(** ** The operations *)

Fixpoint alloc_desc_loop (n : nat) (i : Z) : V Z :=
  match n with
  | O => mret (-1)
  | S n =>
      f ← load (λ v, free (v_disk v)) i;
      if (f : bool) then
        modify (upd_disk (set_free (wr i false)));;
        mret i
      else alloc_desc_loop n (i + 1)
  end.
Definition alloc_desc : V Z := alloc_desc_loop (Z.to_nat NUM) 0.

Definition free_desc (i : Z) : V unit :=
  if NUM <=? i then fail (VPanic "free_desc 1")
  else
    f ← load (λ v, free (v_disk v)) i;
    if (f : bool) then fail (VPanic "free_desc 2")
    else
      modify (upd_disk (set_desc (wr i (VDesc DNull 0 0 0))));;
      modify (upd_disk (set_free (wr i true)));;
      vwakeup WFree.

(** The loop follows at most [fuel] descriptors. *)
Fixpoint free_chain (fuel : nat) (i : Z) : V unit :=
  match fuel with
  | O => fail VFuel
  | S fuel =>
      d ← load (λ v, desc (v_disk v)) i;
      let flag := d_flags d in
      let nxt := d_next d in
      free_desc i;;
      if negb (Z.land flag VRING_DESC_F_NEXT =? 0) then free_chain fuel nxt else skip
  end.

(** int idx[3] *)
Record idx3 : Type := Idx3 { i0 : Z; i1 : Z; i2 : Z }.

(** [None] is the result -1. *)
Definition alloc3_desc : V (option idx3) :=
  a ← alloc_desc;
  if a <? 0 then mret None
  else
    b ← alloc_desc;
    if b <? 0 then free_desc a;; mret None
    else
      c ← alloc_desc;
      if c <? 0 then free_desc a;; free_desc b;; mret None
      else mret (Some (Idx3 a b c)).

(** blockno is a uint, so the product is reduced to 32 bits before it becomes
    the 64-bit sector number. *)
Definition sector_of (blockno : Z) : Z := u32 (blockno * (BSIZE / 512)).

(** virtio_disk_rw(), from the header of the request to the entry in the
    avail ring. *)
Definition format_req (b : nat) (write : bool) (idx : idx3) : V unit :=
  x ← load v_bufs (Z.of_nat b);
  modify (upd_disk (set_ops (wr (i0 idx)
    (BlkReq (if write then VIRTIO_BLK_T_OUT else VIRTIO_BLK_T_IN) 0 (sector_of (vb_blockno x))))));;
  modify (upd_disk (set_desc (wr (i0 idx) (VDesc (DOps (i0 idx)) 16 VRING_DESC_F_NEXT (i1 idx)))));;
  modify (upd_disk (set_desc (wr (i1 idx)
    (VDesc (DData b) BSIZE (Z.lor (if write then 0 else VRING_DESC_F_WRITE) VRING_DESC_F_NEXT) (i2 idx)))));;
  modify (upd_disk (set_info (alter (set_in_status 255) (Z.to_nat (i0 idx)))));;
  modify (upd_disk (set_desc (wr (i2 idx) (VDesc (DStatus (i0 idx)) 1 VRING_DESC_F_WRITE 0))));;
  modify (upd_bufs (alter (set_buf_disk 1) b));;
  modify (upd_disk (set_info (alter (set_in_b (Some b)) (Z.to_nat (i0 idx)))));;
  modify (λ v, upd_disk (set_avail (wr (avail_idx (v_disk v) mod NUM) (i0 idx))) v).

(** virtio_disk_rw(), one turn of the allocation loop and, when it ends the
    loop, the request. *)
Definition rw_alloc (t b : nat) (write : bool) : V (option idx3) :=
  r ← alloc3_desc;
  match r with
  | None => vsleep t WFree;; mret None
  | Some idx => format_req b write idx;; mret (Some idx)
  end.

(** disk.avail->idx += 1; the notification that follows only tells the device
    to look. *)
Definition rw_publish : V unit :=
  modify (λ v, upd_disk (set_avail_idx (u16 (avail_idx (v_disk v) + 1))) v).

(** virtio_disk_rw(), one test of the waiting loop and, when it ends the loop,
    the rest of the function; the result says whether it returned. *)
Definition rw_wait (t b : nat) (idx : idx3) : V bool :=
  x ← load v_bufs (Z.of_nat b);
  if vb_disk x =? 1 then vsleep t (WBuf b);; mret false
  else
    modify (upd_disk (set_info (alter (set_in_b None) (Z.to_nat (i0 idx)))));;
    free_chain (Z.to_nat NUM) (i0 idx);;
    mret true.

(** virtio_disk_intr(), one test of its loop and the body; the result says
    whether the loop goes on. *)
Definition intr_turn : V bool :=
  d ← gets v_disk;
  if used_idx d =? used_dev_idx d then mret false
  else
    id ← load (λ v, used_ring (v_disk v)) (used_idx d mod NUM);
    x ← load (λ v, info (v_disk v)) id;
    if negb (in_status x =? 0) then fail (VPanic "virtio_disk_intr status")
    else
      match in_b x with
      | None => fail VFault
      | Some b =>
          modify (upd_bufs (alter (set_buf_disk 0) b));;
          vwakeup (WBuf b);;
          modify (λ v, upd_disk (set_used_idx (u16 (used_idx (v_disk v) + 1))) v);;
          mret true
      end.

(** ** virtio_disk_init() *)

Definition VIRTIO_MMIO_MAGIC_VALUE : Z := 0.
Definition VIRTIO_MMIO_VERSION : Z := 4.
Definition VIRTIO_MMIO_DEVICE_ID : Z := 8.
Definition VIRTIO_MMIO_VENDOR_ID : Z := 12.
Definition VIRTIO_MMIO_DEVICE_FEATURES : Z := 16.
Definition VIRTIO_MMIO_DRIVER_FEATURES : Z := 32.
Definition VIRTIO_MMIO_GUEST_PAGE_SIZE : Z := 40.
Definition VIRTIO_MMIO_QUEUE_SEL : Z := 48.
Definition VIRTIO_MMIO_QUEUE_NUM_MAX : Z := 52.
Definition VIRTIO_MMIO_QUEUE_NUM : Z := 56.
Definition VIRTIO_MMIO_QUEUE_PFN : Z := 64.
Definition VIRTIO_MMIO_STATUS : Z := 112.

Definition VIRTIO_CONFIG_S_ACKNOWLEDGE : Z := 1.
Definition VIRTIO_CONFIG_S_DRIVER : Z := 2.
Definition VIRTIO_CONFIG_S_DRIVER_OK : Z := 4.
Definition VIRTIO_CONFIG_S_FEATURES_OK : Z := 8.

Definition VIRTIO_BLK_F_RO : Z := 5.
Definition VIRTIO_BLK_F_SCSI : Z := 7.
Definition VIRTIO_BLK_F_CONFIG_WCE : Z := 11.
Definition VIRTIO_BLK_F_MQ : Z := 12.
Definition VIRTIO_F_ANY_LAYOUT : Z := 27.
Definition VIRTIO_RING_F_INDIRECT_DESC : Z := 28.
Definition VIRTIO_RING_F_EVENT_IDX : Z := 29.

(** features &= ~(1 << bit), for the bits in the order of the source. *)
Definition negotiate (features : Z) : Z :=
  fold_left (λ f bit, Z.ldiff f (Z.shiftl 1 bit))
    [VIRTIO_BLK_F_RO; VIRTIO_BLK_F_SCSI; VIRTIO_BLK_F_CONFIG_WCE; VIRTIO_BLK_F_MQ;
     VIRTIO_F_ANY_LAYOUT; VIRTIO_RING_F_EVENT_IDX; VIRTIO_RING_F_INDIRECT_DESC] features.

(** The structure after memset() of the pages and the loop over free[];
    ops[], info[] and used_idx are static storage, zero at boot. *)
Definition init_disk : disk :=
  Disk (replicate (Z.to_nat NUM) (VDesc DNull 0 0 0))
       (replicate (Z.to_nat NUM) 0) 0 (replicate (Z.to_nat NUM) 0) 0
       (replicate (Z.to_nat NUM) true) 0
       (replicate (Z.to_nat NUM) (DInfo None 0)) (replicate (Z.to_nat NUM) (BlkReq 0 0 0)).

(** [R] gives the values the registers read; the result is the sequence of
    register writes and the structure, or the panic. *)
Definition virtio_disk_init (R : Z → Z) (pages : Z) : string + list (Z * Z) * disk :=
  if negb (R VIRTIO_MMIO_MAGIC_VALUE =? 0x74726976) ||
     negb (R VIRTIO_MMIO_VERSION =? 1) ||
     negb (R VIRTIO_MMIO_DEVICE_ID =? 2) ||
     negb (R VIRTIO_MMIO_VENDOR_ID =? 0x554d4551)
  then inl "could not find virtio disk"%string
  else
    let s1 := VIRTIO_CONFIG_S_ACKNOWLEDGE in
    let s2 := Z.lor s1 VIRTIO_CONFIG_S_DRIVER in
    let s3 := Z.lor s2 VIRTIO_CONFIG_S_FEATURES_OK in
    let s4 := Z.lor s3 VIRTIO_CONFIG_S_DRIVER_OK in
    let max := R VIRTIO_MMIO_QUEUE_NUM_MAX in
    if max =? 0 then inl "virtio disk has no queue 0"%string
    else if max <? NUM then inl "virtio disk max queue too short"%string
    else inr
      ([(VIRTIO_MMIO_STATUS, s1); (VIRTIO_MMIO_STATUS, s2);
        (VIRTIO_MMIO_DRIVER_FEATURES, u32 (negotiate (R VIRTIO_MMIO_DEVICE_FEATURES)));
        (VIRTIO_MMIO_STATUS, s3); (VIRTIO_MMIO_STATUS, s4);
        (VIRTIO_MMIO_GUEST_PAGE_SIZE, 4096); (VIRTIO_MMIO_QUEUE_SEL, 0);
        (VIRTIO_MMIO_QUEUE_NUM, NUM);
        (VIRTIO_MMIO_QUEUE_PFN, u32 (Z.shiftr pages 12))], init_disk).

(** ** The device *)

(** The medium, byte by byte. *)
Definition medium : Type := Z → Z.
Definition mread (p : medium) (o n : Z) : list Z := (λ i, p (o + i)) <$> seqZ 0 n.
Definition mwrite (p : medium) (o : Z) (l : list Z) : medium := λ a,
  if (o <=? a) && (a <? o + Z.of_nat (length l)) then l !!! Z.to_nat (a - o) else p a.

(** The device has read the avail ring up to [dv_last]; it works on the
    requests [dv_taken], and has to announce those of [dv_done].
    [dv_failed]: it reported an error.  [dv_stray]: it was given a chain that
    is not a block request, so that anything may happen. *)
Record dev : Type := Dev {
  dv_last : Z;
  dv_taken : list Z;
  dv_done : list Z;
  dv_failed : bool;
  dv_stray : bool;
  dv_medium : medium;
}.

(** The block request whose chain starts at descriptor [h] (section 5.2.6 of
    the specification): the header, the data buffer with its length, and the
    status byte. *)
Definition parse_chain (v : vmem) (h : Z) : option (virtio_blk_req * nat * Z * Z) :=
  a ← at_ (desc (v_disk v)) h;
  b ← at_ (desc (v_disk v)) (d_next a);
  c ← at_ (desc (v_disk v)) (d_next b);
  match d_addr a, d_addr b, d_addr c with
  | DOps i, DData k, DStatus j =>
      r ← at_ (ops (v_disk v)) i;
      if bool_decide (d_flags a = 1 ∧ d_len a = 16 ∧ d_flags c = 2 ∧ d_len c = 1 ∧
        (rq_type r = VIRTIO_BLK_T_IN ∧ d_flags b = 3 ∨ rq_type r = VIRTIO_BLK_T_OUT ∧ d_flags b = 1))
      then Some (r, k, d_len b, j) else None
  | _, _, _ => None
  end.

(** The transfer: a read fills the buffer, a write changes the medium; the
    status byte becomes [st]. *)
Definition transfer (r : virtio_blk_req) (b : nat) (len : Z) (p : medium) (v : vmem) : medium * vmem :=
  let o := rq_sector r * 512 in
  if rq_type r =? VIRTIO_BLK_T_IN then (p, upd_bufs (alter (set_buf_data (mread p o len)) b) v)
  else
    (match v_bufs v !! b with
     | Some x => mwrite p o (take (Z.to_nat len) (vb_data x))
     | None => p
     end, v).
Definition put_status (j st : Z) : vmem → vmem :=
  upd_disk (set_info (alter (set_in_status st) (Z.to_nat j))).

(** What the device may do. *)
Inductive dev_doc : dev * vmem → dev * vmem → Prop :=
(* take the next entry of the avail ring *)
| dev_take x v h :
    dv_last x ≠ avail_idx (v_disk v) →
    at_ (avail_ring (v_disk v)) (dv_last x mod NUM) = Some h →
    dev_doc (x, v)
      (Dev (u16 (dv_last x + 1)) (dv_taken x ++ [h]) (dv_done x) (dv_failed x) (dv_stray x) (dv_medium x), v)
(* serve a request it has taken, in any order *)
| dev_serve x v l1 h l2 r b len j :
    dv_taken x = l1 ++ h :: l2 → parse_chain v h = Some (r, b, len, j) →
    let pv := transfer r b len (dv_medium x) v in
    dev_doc (x, v)
      (Dev (dv_last x) (l1 ++ l2) (dv_done x ++ [h]) (dv_failed x) (dv_stray x) pv.1, put_status j 0 pv.2)
(* or fail to *)
| dev_error x v l1 h l2 r b len j st :
    dv_taken x = l1 ++ h :: l2 → parse_chain v h = Some (r, b, len, j) → st = 1 ∨ st = 2 →
    dev_doc (x, v)
      (Dev (dv_last x) (l1 ++ l2) (dv_done x ++ [h]) true (dv_stray x) (dv_medium x), put_status j st v)
(* a chain that is not a request *)
| dev_undefined x v h :
    h ∈ dv_taken x → parse_chain v h = None →
    dev_doc (x, v)
      (Dev (dv_last x) (dv_taken x) (dv_done x) (dv_failed x) true (dv_medium x), v)
(* announce a request in the used ring, in any order *)
| dev_used x v l1 h l2 :
    dv_done x = l1 ++ h :: l2 →
    dev_doc (x, v)
      (Dev (dv_last x) (dv_taken x) (l1 ++ l2) (dv_failed x) (dv_stray x) (dv_medium x),
       upd_disk (λ d, set_used (wr (used_dev_idx d mod NUM) h (used_ring d)) (u16 (used_dev_idx d + 1)) d) v).

(** ** The whole system *)

(** Where a thread is inside virtio_disk_rw(b, write). *)
Inductive tpc : Type :=
| TAlloc (b : nat) (w : bool)                  (* at acquire(), or in the sleep() of the allocation loop *)
| TPublish (b : nat) (w : bool) (idx : idx3)   (* has the lock, before avail->idx += 1 *)
| TCheck (b : nat) (w : bool) (idx : idx3)     (* has the lock, at while(b->disk == 1) *)
| TWait (b : nat) (w : bool) (idx : idx3).     (* in the sleep() of that loop *)

Definition tbuf (p : tpc) : nat :=
  match p with TAlloc b _ | TPublish b _ _ | TCheck b _ _ | TWait b _ _ => b end.
Definition twrite (p : tpc) : bool :=
  match p with TAlloc _ w | TPublish _ w _ | TCheck _ w _ | TWait _ w _ => w end.
Definition tidx (p : tpc) : option idx3 :=
  match p with TAlloc _ _ => None | TPublish _ _ i | TCheck _ _ i | TWait _ _ i => Some i end.

Inductive owner : Type := OThread (t : nat) | OIntr.

Record sys : Type := Sys {
  s_mem : vmem;
  s_dev : dev;
  s_threads : gmap nat tpc;
  s_lock : option owner;        (* vdisk_lock *)
  s_panic : option verr;
}.

(** The run of [m] by a holder of the lock: on success go on with [k], on a
    panic stop. *)
Definition exec {A} (s : sys) (m : V A) (k : A → vmem → sys) : sys :=
  match m (s_mem s) with
  | Ok a v => k a v
  | Err e v => Sys v (s_dev s) (s_threads s) (s_lock s) (Some e)
  end.

Section protocol.
(** The device. *)
Context (device : dev * vmem → dev * vmem → Prop).

Inductive vstep (s : sys) : sys → Prop :=
(* a thread calls virtio_disk_rw(); bread() and bwrite() hold the sleep lock
   of the buffer, so no other request is on it *)
| step_call t b w x :
    s_panic s = None → s_threads s !! t = None →
    v_bufs (s_mem s) !! b = Some x → length (vb_data x) = Z.to_nat BSIZE → 0 ≤ vb_blockno x < 2 ^ 32 →
    (∀ t' p, s_threads s !! t' = Some p → tbuf p ≠ b) →
    vstep s (Sys (s_mem s) (s_dev s) (<[t:=TAlloc b w]> (s_threads s)) (s_lock s) None)
(* the rest of the kernel uses a buffer no request is on *)
| step_kernel b f :
    s_panic s = None → (∀ t' p, s_threads s !! t' = Some p → tbuf p ≠ b) →
    (∀ x, vb_disk (f x) = vb_disk x) →
    vstep s (Sys (upd_bufs (alter f b) (s_mem s)) (s_dev s) (s_threads s) (s_lock s) None)
(* acquire(), and a turn of the allocation loop *)
| step_alloc t b w :
    s_panic s = None → s_lock s = None →
    s_threads s !! t = Some (TAlloc b w) → v_sleep (s_mem s) !! t = None →
    vstep s (exec s (rw_alloc t b w) (λ r v,
      match r with
      | None => Sys v (s_dev s) (s_threads s) None None
      | Some idx => Sys v (s_dev s) (<[t:=TPublish b w idx]> (s_threads s)) (Some (OThread t)) None
      end))
| step_publish t b w idx :
    s_panic s = None → s_threads s !! t = Some (TPublish b w idx) →
    vstep s (exec s rw_publish (λ _ v,
      Sys v (s_dev s) (<[t:=TCheck b w idx]> (s_threads s)) (s_lock s) None))
(* the waiting loop: sleep, or return *)
| step_check t b w idx :
    s_panic s = None → s_threads s !! t = Some (TCheck b w idx) →
    vstep s (exec s (rw_wait t b idx) (λ r v,
      if (r : bool) then Sys v (s_dev s) (delete t (s_threads s)) None None
      else Sys v (s_dev s) (<[t:=TWait b w idx]> (s_threads s)) None None))
(* awake again, with the lock *)
| step_awake t b w idx :
    s_panic s = None → s_lock s = None →
    s_threads s !! t = Some (TWait b w idx) → v_sleep (s_mem s) !! t = None →
    vstep s (Sys (s_mem s) (s_dev s) (<[t:=TCheck b w idx]> (s_threads s)) (Some (OThread t)) None)
(* kill() wakes a sleeping thread *)
| step_kill t :
    s_panic s = None →
    vstep s (Sys (upd_sleep (delete t) (s_mem s)) (s_dev s) (s_threads s) (s_lock s) None)
(* virtio_disk_intr() *)
| step_intr :
    s_panic s = None → s_lock s = None →
    vstep s (Sys (s_mem s) (s_dev s) (s_threads s) (Some OIntr) None)
| step_turn :
    s_panic s = None → s_lock s = Some OIntr →
    vstep s (exec s intr_turn (λ r v,
      Sys v (s_dev s) (s_threads s) (if (r : bool) then Some OIntr else None) None))
| step_device x v :
    device (s_dev s, s_mem s) (x, v) →
    vstep s (Sys v x (s_threads s) (s_lock s) (s_panic s)).

(** After virtio_disk_init(): no request, an idle device, any buffers that
    the disk does not own, any contents of the medium. *)
Definition vinit (s : sys) : Prop :=
  ∃ bufs p, Forall (λ x, vb_disk x = 0) bufs ∧
    s = Sys (VMem init_disk bufs ∅) (Dev 0 [] [] false false p) ∅ None None.

Definition vreach (s : sys) : Prop := ∃ s0, vinit s0 ∧ rtc vstep s0 s.
End protocol.
