(* ===== verification/VirtioSpec.v ===== *)
(** The virtio disk driver against its specification: every run of
    virtio_disk_rw() is one atomic transfer of its block between the call and
    the return, whatever the order in which the device serves the requests. *)

From S2P Require Import Prelude RingBuf Bio VirtioDisk.

(** ** Arrays *)

Lemma at_Some {A} (l : list A) i x : at_ l i = Some x → 0 ≤ i < Z.of_nat (length l).
Proof.
  unfold at_. destruct (Z.ltb_spec i 0); [done|]. intros E%lookup_lt_Some. lia.
Qed.

Lemma at_nth {A} (l : list A) (n : nat) : at_ l (Z.of_nat n) = l !! n.
Proof. unfold at_. destruct (Z.ltb_spec (Z.of_nat n) 0); [lia|]. by rewrite Nat2Z.id. Qed.

Lemma at_is_Some {A} (l : list A) i : 0 ≤ i < Z.of_nat (length l) → ∃ x, at_ l i = Some x.
Proof.
  intros H. unfold at_. destruct (Z.ltb_spec i 0); [lia|]. apply lookup_is_Some. lia.
Qed.

Lemma at_wr {A} (l : list A) i x : 0 ≤ i < Z.of_nat (length l) → at_ (wr i x l) i = Some x.
Proof.
  intros H. unfold at_, wr. destruct (Z.ltb_spec i 0); [lia|]. apply list_lookup_insert_eq. lia.
Qed.

Lemma at_wr_ne {A} (l : list A) i j x : 0 ≤ i → i ≠ j → at_ (wr i x l) j = at_ l j.
Proof.
  intros H Hne. unfold at_, wr. destruct (Z.ltb_spec j 0); [done|].
  apply list_lookup_insert_ne. lia.
Qed.

Lemma at_alter {A} (l : list A) i f x :
  at_ l i = Some x → at_ (alter f (Z.to_nat i) l) i = Some (f x).
Proof.
  unfold at_. destruct (Z.ltb_spec i 0); [done|]. intros E. by rewrite list_lookup_alter_eq, E.
Qed.

Lemma at_alter_ne {A} (l : list A) i j f :
  0 ≤ i → i ≠ j → at_ (alter f (Z.to_nat i) l) j = at_ l j.
Proof.
  intros H Hne. unfold at_. destruct (Z.ltb_spec j 0); [done|].
  apply list_lookup_alter_ne. lia.
Qed.

Lemma length_wr {A} (l : list A) i x : length (wr i x l) = length l.
Proof. apply length_insert. Qed.

Lemma wr_id {A} (l : list A) i x y : at_ l i = Some x → wr i x (wr i y l) = l.
Proof.
  unfold at_, wr. destruct (Z.ltb_spec i 0); [done|]. intros E.
  rewrite list_insert_insert_eq. by apply list_insert_id.
Qed.

Create HintDb virtio discriminated.

Lemma load_ok {A} (f : vmem → list A) i v x : at_ (f v) i = Some x → load f i v = Ok x v.
Proof. unfold load. by intros ->. Qed.

(** ** The invariant *)

Definition idx_list (i : idx3) : list Z := [i0 i; i1 i; i2 i].

Definition req_type (w : bool) : Z := if w then VIRTIO_BLK_T_OUT else VIRTIO_BLK_T_IN.

(** The descriptors [i] describe the transfer of buffer [b]. *)
Record request (d : disk) (b : nat) (x : vbuf) (w : bool) (i : idx3) : Prop := {
  rq_nodup : NoDup (idx_list i);
  rq_taken : ∀ k, k ∈ idx_list i → at_ (free d) k = Some false;
  rq_op : at_ (ops d) (i0 i) = Some (BlkReq (req_type w) 0 (sector_of (vb_blockno x)));
  rq_d0 : at_ (desc d) (i0 i) = Some (VDesc (DOps (i0 i)) 16 1 (i1 i));
  rq_d1 : at_ (desc d) (i1 i) = Some (VDesc (DData b) BSIZE (if w then 1 else 3) (i2 i));
  rq_d2 : at_ (desc d) (i2 i) = Some (VDesc (DStatus (i0 i)) 1 2 0);
}.

(** How far a request is: [pend] are the chains the device is to serve, [fin]
    those it has served and the interrupt handler has not seen. *)
Definition req_stage (published : bool) (pend fin : list Z) (failed : bool) (h st dk : Z) : Prop :=
  if published then
    (h ∈ pend ∧ (h ∉ fin) ∧ st = 255 ∧ dk = 1) ∨
    ((h ∉ pend) ∧ h ∈ fin ∧ dk = 1 ∧ (st = 0 ∨ failed = true ∧ (st = 1 ∨ st = 2))) ∨
    ((h ∉ pend) ∧ (h ∉ fin) ∧ st = 0 ∧ dk = 0)
  else (h ∉ pend) ∧ (h ∉ fin) ∧ st = 255 ∧ dk = 1.

Definition published (p : tpc) : bool :=
  match p with TCheck _ _ _ | TWait _ _ _ => true | _ => false end.
Definition has_lock (p : tpc) : bool :=
  match p with TPublish _ _ _ | TCheck _ _ _ => true | _ => false end.

Definition thread_ok (d : disk) (bufs : list vbuf) (pend fin : list Z) (failed : bool) (p : tpc) : Prop :=
  ∃ x, bufs !! tbuf p = Some x ∧ length (vb_data x) = Z.to_nat BSIZE ∧ 0 ≤ vb_blockno x < 2 ^ 32 ∧
    match tidx p with
    | None => True
    | Some i =>
        request d (tbuf p) x (twrite p) i ∧
        ∃ st, at_ (info d) (i0 i) = Some (DInfo (Some (tbuf p)) st) ∧
          req_stage (published p) pend fin failed (i0 i) st (vb_disk x)
    end.

(** Fewer than three descriptors are free. *)
Definition few_free (l : list bool) : Prop :=
  ∀ a b c, NoDup [a; b; c] → at_ l a = Some true → at_ l b = Some true → at_ l c = Some true → False.

Definition sleep_ok (v : vmem) (p : tpc) (c : wchan) : Prop :=
  match c with
  | WFree => tidx p = None ∧ few_free (free (v_disk v))
  | WBuf b => (∃ w i, p = TWait b w i) ∧ ∃ x, v_bufs v !! b = Some x ∧ vb_disk x = 1
  end.

Record vinv_q (s : sys) (qa qu : list Z) : Prop := {
  vi_desc : length (desc (v_disk (s_mem s))) = 8%nat;
  vi_free : length (free (v_disk (s_mem s))) = 8%nat;
  vi_info : length (info (v_disk (s_mem s))) = 8%nat;
  vi_ops : length (ops (v_disk (s_mem s))) = 8%nat;
  vi_avail : holds_queue 8 65536 (avail_ring (v_disk (s_mem s))) (dv_last (s_dev s)) (avail_idx (v_disk (s_mem s))) qa;
  vi_used : holds_queue 8 65536 (used_ring (v_disk (s_mem s))) (used_idx (v_disk (s_mem s))) (used_dev_idx (v_disk (s_mem s))) qu;
  vi_nodup : NoDup ((qa ++ dv_taken (s_dev s)) ++ (dv_done (s_dev s) ++ qu));
  vi_heads : ∀ h, h ∈ (qa ++ dv_taken (s_dev s)) ++ (dv_done (s_dev s) ++ qu) →
    ∃ t p i, s_threads s !! t = Some p ∧ published p = true ∧ tidx p = Some i ∧ i0 i = h;
  vi_thread : ∀ t p, s_threads s !! t = Some p →
    thread_ok (v_disk (s_mem s)) (v_bufs (s_mem s)) (qa ++ dv_taken (s_dev s)) (dv_done (s_dev s) ++ qu)
      (dv_failed (s_dev s)) p;
  vi_apart : ∀ t t' p p', t ≠ t' → s_threads s !! t = Some p → s_threads s !! t' = Some p' →
    tbuf p ≠ tbuf p' ∧
    ∀ i i' k, tidx p = Some i → tidx p' = Some i' → k ∈ idx_list i → k ∈ idx_list i' → False;
  vi_busy : ∀ k, at_ (free (v_disk (s_mem s))) k = Some false →
    ∃ t p i, s_threads s !! t = Some p ∧ tidx p = Some i ∧ k ∈ idx_list i;
  vi_sleep : ∀ t c, v_sleep (s_mem s) !! t = Some c →
    ∃ p, s_threads s !! t = Some p ∧ sleep_ok (s_mem s) p c;
  vi_lock : ∀ t p, s_threads s !! t = Some p → has_lock p = true → s_lock s = Some (OThread t);
  vi_slot : ∀ t b w i, s_threads s !! t = Some (TPublish b w i) →
    at_ (avail_ring (v_disk (s_mem s))) (avail_idx (v_disk (s_mem s)) mod 8) = Some (i0 i);
  vi_panic : s_panic s = None ∨
    s_panic s = Some (VPanic "virtio_disk_intr status") ∧ dv_failed (s_dev s) = true;
  vi_stray : dv_stray (s_dev s) = false;
}.
Definition vinv (s : sys) : Prop := ∃ qa qu, vinv_q s qa qu.

(** ** The abstract disk *)

(** A request for buffer [ar_buf]; [ar_done]: the block was transferred. *)
Record areq : Type := AReq { ar_buf : nat; ar_write : bool; ar_done : bool }.
Record astate : Type := AState {
  a_bufs : list (Z * list Z);     (* block number and data of each buffer *)
  a_medium : medium;
  a_reqs : gmap nat areq;
}.

(** Where block [n] is on the medium.  Sectors have 32 bits in the driver, so
    block numbers from 2^31 on come around. *)
Definition block_pos (n : Z) : Z := n mod 2 ^ 31 * BSIZE.

Definition unused (a : astate) (b : nat) : Prop := ∀ t r, a_reqs a !! t = Some r → ar_buf r ≠ b.

(** Calls, one atomic transfer for each request, and returns after it. *)
Inductive astep (a : astate) : astate → Prop :=
| as_call t b w :
    a_reqs a !! t = None → unused a b →
    astep a (AState (a_bufs a) (a_medium a) (<[t:=AReq b w false]> (a_reqs a)))
| as_kernel b nd :
    unused a b → astep a (AState (<[b:=nd]> (a_bufs a)) (a_medium a) (a_reqs a))
| as_read t b n data :
    a_reqs a !! t = Some (AReq b false false) → a_bufs a !! b = Some (n, data) →
    astep a (AState (<[b:=(n, mread (a_medium a) (block_pos n) BSIZE)]> (a_bufs a)) (a_medium a)
      (<[t:=AReq b false true]> (a_reqs a)))
| as_write t b n data :
    a_reqs a !! t = Some (AReq b true false) → a_bufs a !! b = Some (n, data) →
    astep a (AState (a_bufs a) (mwrite (a_medium a) (block_pos n) data) (<[t:=AReq b true true]> (a_reqs a)))
| as_return t b w :
    a_reqs a !! t = Some (AReq b w true) →
    astep a (AState (a_bufs a) (a_medium a) (delete t (a_reqs a))).

(** The device has stored the status byte 0. *)
Definition served (d : disk) (p : tpc) : bool :=
  match tidx p with
  | None => false
  | Some i => match at_ (info d) (i0 i) with Some x => in_status x =? 0 | None => false end
  end.
Definition abs_req (d : disk) (p : tpc) : areq := AReq (tbuf p) (twrite p) (served d p).
Definition abs_buf (x : vbuf) : Z * list Z := (vb_blockno x, vb_data x).
Definition abs (s : sys) : astate :=
  AState (abs_buf <$> v_bufs (s_mem s)) (dv_medium (s_dev s)) (abs_req (v_disk (s_mem s)) <$> s_threads s).

(** ** What a thread's request depends on *)

Definition same_at (d d' : disk) (k : Z) : Prop :=
  at_ (desc d') k = at_ (desc d) k ∧ at_ (free d') k = at_ (free d) k ∧
  at_ (ops d') k = at_ (ops d) k ∧ at_ (info d') k = at_ (info d) k.

Lemma request_frame d d' b x x' w i :
  request d b x w i → (∀ k, k ∈ idx_list i → same_at d d' k) → vb_blockno x' = vb_blockno x →
  request d' b x' w i.
Proof.
  intros [H1 H2 H3 H4 H5 H6] Hs Hx. unfold idx_list in *.
  destruct (Hs (i0 i) ltac:(set_solver)) as (A1 & A2 & A3 & A4).
  destruct (Hs (i1 i) ltac:(set_solver)) as (B1 & B2 & _ & _).
  destruct (Hs (i2 i) ltac:(set_solver)) as (C1 & C2 & _ & _).
  split; [done| |by rewrite A3, Hx|by rewrite A1|by rewrite B1|by rewrite C1].
  intros k Hk. destruct (Hs k Hk) as (_ & -> & _ & _). by apply H2.
Qed.

Lemma req_stage_frame pub pend fin pend' fin' failed failed' h st dk :
  req_stage pub pend fin failed h st dk →
  (h ∈ pend' ↔ h ∈ pend) → (h ∈ fin' ↔ h ∈ fin) → (failed = true → failed' = true) →
  req_stage pub pend' fin' failed' h st dk.
Proof. unfold req_stage. intros H Hp Hq Hf. destruct pub; tauto. Qed.

Lemma thread_ok_frame d d' bufs bufs' pend fin pend' fin' failed failed' p :
  thread_ok d bufs pend fin failed p →
  bufs' !! tbuf p = bufs !! tbuf p →
  (∀ i k, tidx p = Some i → k ∈ idx_list i → same_at d d' k) →
  (∀ i, tidx p = Some i → (i0 i ∈ pend' ↔ i0 i ∈ pend) ∧ (i0 i ∈ fin' ↔ i0 i ∈ fin)) →
  (failed = true → failed' = true) →
  thread_ok d' bufs' pend' fin' failed' p.
Proof.
  intros (x & Hx & Hl & Hn & Hp) Hb Hd Hq Hf. exists x. rewrite Hb. do 3 (split; [done|]).
  destruct (tidx p) as [i|] eqn:Ei; [|done]. destruct Hp as (Hr & st & Hi & Hs). split.
  - eapply request_frame; [done| |done]. intros k Hk. by eapply Hd.
  - exists st. destruct (Hd i (i0 i) eq_refl ltac:(unfold idx_list; set_solver)) as (_ & _ & _ & ->).
    split; [done|]. destruct (Hq i eq_refl). eapply req_stage_frame; eauto.
Qed.

Lemma thread_ok_idx d bufs pend fin failed p i k :
  thread_ok d bufs pend fin failed p → tidx p = Some i → k ∈ idx_list i →
  at_ (free d) k = Some false.
Proof.
  intros (x & _ & _ & _ & Hp) Hi Hk. rewrite Hi in Hp. destruct Hp as [[_ H _ _ _ _] _]. by apply H.
Qed.

Lemma same_at_refl d k : same_at d d k.
Proof. done. Qed.
#[export] Hint Resolve same_at_refl : virtio.

Lemma idx_ne i : NoDup (idx_list i) → i0 i ≠ i1 i ∧ i0 i ≠ i2 i ∧ i1 i ≠ i2 i.
Proof.
  unfold idx_list. intros Hn. apply NoDup_cons in Hn as [A Hn]. apply NoDup_cons in Hn as [B _].
  rewrite !elem_of_cons in A. rewrite elem_of_cons in B. tauto.
Qed.

Lemma i0_in i : i0 i ∈ idx_list i.
Proof. unfold idx_list. set_solver. Qed.
Lemma i1_in i : i1 i ∈ idx_list i.
Proof. unfold idx_list. set_solver. Qed.
Lemma i2_in i : i2 i ∈ idx_list i.
Proof. unfold idx_list. set_solver. Qed.
#[export] Hint Resolve i0_in i1_in i2_in : virtio.

(** ** Descriptors *)

Lemma alloc_desc_loop_ok n i v :
  0 ≤ i → i + Z.of_nat n = 8 → length (free (v_disk v)) = 8%nat →
  (∃ k, alloc_desc_loop n i v = Ok k (upd_disk (set_free (wr k false)) v) ∧ 0 ≤ k < 8 ∧
     at_ (free (v_disk v)) k = Some true) ∨
  (alloc_desc_loop n i v = Ok (-1) v ∧ ∀ k, i ≤ k → at_ (free (v_disk v)) k ≠ Some true).
Proof.
  revert i. induction n as [|n IH]; intros i Hi Hn Hl; cbn [alloc_desc_loop].
  - right. split; [done|]. intros k Hk E%at_Some. lia.
  - destruct (at_is_Some (free (v_disk v)) i) as [f Hf]; [lia|].
    rewrite (bind_ok _ _ _ _ _ (load_ok (λ v, free (v_disk v)) _ _ _ Hf)). destruct f.
    + left. exists i. split; [done|]. split; [lia|done].
    + destruct (IH (i + 1)) as [(k & E & Hk & Hf')|[E Hk]]; [lia..| |].
      * left. exists k. done.
      * right. split; [done|]. intros k Hk'. destruct (decide (k = i)) as [->|]; [congruence|apply Hk; lia].
Qed.

Lemma alloc_desc_ok v :
  length (free (v_disk v)) = 8%nat →
  (∃ k, alloc_desc v = Ok k (upd_disk (set_free (wr k false)) v) ∧ 0 ≤ k < 8 ∧
     at_ (free (v_disk v)) k = Some true) ∨
  (alloc_desc v = Ok (-1) v ∧ ∀ k, at_ (free (v_disk v)) k ≠ Some true).
Proof.
  intros Hl. unfold alloc_desc. change (Z.to_nat NUM) with 8%nat.
  destruct (alloc_desc_loop_ok 8 0 v) as [H|[E Hk]]; [lia..|done|by left|].
  right. split; [done|]. intros k H. apply (Hk k); [|done]. apply at_Some in H. lia.
Qed.

(** The state after free_desc(k). *)
Definition freed (k : Z) (v : vmem) : vmem :=
  VMem (set_free (wr k true) (set_desc (wr k (VDesc DNull 0 0 0)) (v_disk v))) (v_bufs v)
    (filter (λ p, p.2 ≠ WFree) (v_sleep v)).

Lemma free_desc_ok k v :
  k < 8 → at_ (free (v_disk v)) k = Some false → free_desc k v = Ok tt (freed k v).
Proof.
  intros Hk Hf. unfold free_desc, NUM. destruct (Z.leb_spec 8 k); [lia|].
  by rewrite (bind_ok _ _ _ _ _ (load_ok (λ v, free (v_disk v)) _ _ _ Hf)).
Qed.

Lemma at_wr_true (l : list bool) k j :
  at_ (wr k false l) j = Some true → 0 ≤ k → at_ l j = Some true ∧ j ≠ k.
Proof.
  intros Hj Hk. destruct (decide (j = k)) as [->|Hne].
  - pose proof (at_Some _ _ _ Hj) as R. rewrite length_wr in R. by rewrite at_wr in Hj.
  - by rewrite at_wr_ne in Hj.
Qed.

(** Only two descriptors are free. *)
Lemma few_free_two l a b :
  (∀ u, u ≠ a → u ≠ b → at_ l u = Some true → False) → few_free l.
Proof.
  intros W x y z Hnd Hx Hy Hz.
  assert (x ≠ y ∧ x ≠ z ∧ y ≠ z) as (? & ? & ?).
  { apply NoDup_cons in Hnd as [Hxy Hnd]. apply NoDup_cons in Hnd as [Hyz _].
    rewrite !elem_of_cons in Hxy. rewrite elem_of_cons in Hyz. tauto. }
  assert (C : ∀ u, at_ l u = Some true → u = a ∨ u = b).
  { intros u Hu. destruct (decide (u = a)), (decide (u = b)); [tauto..|]. exfalso. by apply (W u). }
  destruct (C x Hx), (C y Hy), (C z Hz); congruence.
Qed.

(** What a failed alloc3_desc() leaves: descriptors that are free may have
    been cleared, and threads that sleep for descriptors may be awake. *)
Definition undone (v v' : vmem) : Prop :=
  ∃ ds sl, v' = VMem (set_desc (λ _, ds) (v_disk v)) (v_bufs v) sl ∧
    length ds = length (desc (v_disk v)) ∧
    (∀ k, at_ (free (v_disk v)) k = Some false → at_ ds k = at_ (desc (v_disk v)) k) ∧
    sl ⊆ v_sleep v.

Lemma undone_refl v : undone v v.
Proof. exists (desc (v_disk v)), (v_sleep v). destruct v as [[] ? ?]. done. Qed.

Lemma undone_trans v1 v2 v3 : undone v1 v2 → undone v2 v3 → undone v1 v3.
Proof.
  intros (ds & sl & -> & Hl & Hk & Hs) (ds' & sl' & -> & Hl' & Hk' & Hs').
  exists ds', sl'. cbn in *. split; [done|]. split; [congruence|]. split; [|by etrans].
  intros k E. rewrite Hk' by done. by apply Hk.
Qed.

(** Allocating a descriptor and freeing it again. *)
Lemma alloc_free v w k :
  at_ (free (v_disk v)) k = Some true →
  v_disk w = set_free (wr k false) (v_disk v) → v_bufs w = v_bufs v → v_sleep w = v_sleep v →
  undone v (freed k w).
Proof.
  intros Hk Ed Eb Es. exists (wr k (VDesc DNull 0 0 0) (desc (v_disk v))), (filter (λ p, p.2 ≠ WFree) (v_sleep v)).
  unfold freed. rewrite Ed, Eb, Es. cbn. split.
  - f_equal. unfold set_free, set_desc; cbn. f_equal. by apply wr_id.
  - split; [apply length_wr|]. split.
    + intros j Hj. apply at_wr_ne; [apply at_Some in Hk; lia|congruence].
    + apply map_filter_subseteq.
Qed.

Lemma at_free_alloc v k :
  at_ (free (v_disk v)) k = Some true → at_ (free (v_disk (upd_disk (set_free (wr k false)) v))) k = Some false.
Proof. intros Hk. apply at_wr. by eapply at_Some. Qed.

Definition claim3 (i : idx3) : vmem → vmem :=
  upd_disk (set_free (λ l, wr (i2 i) false (wr (i1 i) false (wr (i0 i) false l)))).

Lemma alloc3_ok v :
  length (free (v_disk v)) = 8%nat →
  (∃ i, alloc3_desc v = Ok (Some i) (claim3 i v) ∧ NoDup (idx_list i) ∧
     ∀ k, k ∈ idx_list i → at_ (free (v_disk v)) k = Some true) ∨
  (∃ v', alloc3_desc v = Ok None v' ∧ undone v v' ∧ few_free (free (v_disk v))).
Proof.
  intros Hl. unfold alloc3_desc.
  destruct (alloc_desc_ok v Hl) as [(a & Ea & Ha & Fa)|[Ea Na]]; rewrite (bind_ok _ _ _ _ _ Ea); last first.
  { right. exists v. split; [done|]. split; [apply undone_refl|]. intros ??? _ H. by apply Na in H. }
  destruct (Z.ltb_spec a 0); [lia|]. set (va := upd_disk (set_free (wr a false)) v) in *.
  destruct (alloc_desc_ok va) as [(b & Eb & Hb & Fb)|[Eb Nb]];
    [cbn; by rewrite length_wr|..]; rewrite (bind_ok _ _ _ _ _ Eb); last first.
  { right. exists (freed a va). cbn [Z.ltb Z.compare]. rewrite (bind_ok _ _ _ _ _ (free_desc_ok a va ltac:(lia) (at_free_alloc v a Fa))).
    split; [done|]. split; [by apply alloc_free|].
    apply (few_free_two _ a a). intros u Hu _ E. apply (Nb u). cbn. by rewrite at_wr_ne by lia. }
  destruct (Z.ltb_spec b 0); [lia|]. set (vb := upd_disk (set_free (wr b false)) va) in *.
  apply (at_wr_true _ a b) in Fb as [Fb Hab]; [|lia].
  assert (Fb' : at_ (free (v_disk va)) b = Some true) by (cbn; rewrite at_wr_ne by lia; done).
  destruct (alloc_desc_ok vb) as [(c & Ec & Hc & Fc)|[Ec Nc]];
    [cbn; by rewrite !length_wr|..]; rewrite (bind_ok _ _ _ _ _ Ec); last first.
  - right. exists (freed b (freed a vb)). cbn [Z.ltb Z.compare].
    assert (Fa1 : at_ (free (v_disk vb)) a = Some false).
    { cbn. rewrite at_wr_ne by lia. apply at_wr. by eapply at_Some. }
    assert (Fb1 : at_ (free (v_disk (freed a vb))) b = Some false).
    { cbn. rewrite at_wr_ne by lia. apply at_wr. rewrite length_wr. lia. }
    rewrite (bind_ok _ _ _ _ _ (free_desc_ok a vb ltac:(lia) Fa1)).
    rewrite (bind_ok _ _ _ _ _ (free_desc_ok b _ ltac:(lia) Fb1)).
    split; [done|]. split.
    + set (w := VMem (set_free (wr b false) (v_disk (freed a va))) (v_bufs v) (v_sleep (freed a va))).
      assert (Ew : freed a vb = w).
      { unfold freed, w, vb, va. cbn. f_equal. unfold set_free, set_desc; cbn. f_equal.
        unfold wr. apply list_insert_insert_ne. lia. }
      rewrite Ew. eapply undone_trans; [by apply (alloc_free v va a)|]. apply alloc_free; [|done..].
      cbn. rewrite at_wr_ne by lia. by rewrite at_wr_ne by lia.
    + apply (few_free_two _ a b). intros u ?? Hu. apply (Nc u). cbn. by rewrite !at_wr_ne by lia.
  - destruct (Z.ltb_spec c 0); [lia|]. left. exists (Idx3 a b c). split; [done|].
    apply (at_wr_true _ b c) in Fc as [Fc Hbc]; [|lia]. apply (at_wr_true _ a c) in Fc as [Fc Hac]; [|lia].
    split; [unfold idx_list; cbn; repeat constructor; set_solver|].
    intros k Hk. unfold idx_list in Hk. cbn in Hk.
    repeat (apply elem_of_cons in Hk as [->|Hk]; [done|]). by apply elem_of_nil in Hk.
Qed.

(** ** The request in memory *)

(** The state after the request for buffer [b] is in the descriptors [i]. *)
Definition formatted (b : nat) (x : vbuf) (w : bool) (i : idx3) (v : vmem) : vmem :=
  let d := v_disk v in
  VMem
    (Disk
       (wr (i2 i) (VDesc (DStatus (i0 i)) 1 2 0)
          (wr (i1 i) (VDesc (DData b) BSIZE (if w then 1 else 3) (i2 i))
             (wr (i0 i) (VDesc (DOps (i0 i)) 16 1 (i1 i)) (desc d))))
       (wr (avail_idx d mod 8) (i0 i) (avail_ring d)) (avail_idx d) (used_ring d) (used_dev_idx d)
       (wr (i2 i) false (wr (i1 i) false (wr (i0 i) false (free d)))) (used_idx d)
       (alter (set_in_b (Some b)) (Z.to_nat (i0 i)) (alter (set_in_status 255) (Z.to_nat (i0 i)) (info d)))
       (wr (i0 i) (BlkReq (req_type w) 0 (sector_of (vb_blockno x))) (ops d)))
    (alter (set_buf_disk 1) b (v_bufs v)) (v_sleep v).

Lemma format_req_ok b x w i v :
  v_bufs v !! b = Some x → format_req b w i (claim3 i v) = Ok tt (formatted b x w i v).
Proof.
  intros Hx. unfold format_req.
  rewrite (bind_ok _ _ _ _ _ (load_ok v_bufs (Z.of_nat b) (claim3 i v) x ltac:(by rewrite at_nth))).
  by destruct w.
Qed.

Lemma rw_alloc_ok t b w v x :
  length (free (v_disk v)) = 8%nat → v_bufs v !! b = Some x →
  (∃ i, rw_alloc t b w v = Ok (Some i) (formatted b x w i v) ∧ NoDup (idx_list i) ∧
     ∀ k, k ∈ idx_list i → at_ (free (v_disk v)) k = Some true) ∨
  (∃ v', rw_alloc t b w v = Ok None (upd_sleep (<[t:=WFree]>) v') ∧ undone v v' ∧
     few_free (free (v_disk v))).
Proof.
  intros Hl Hx. unfold rw_alloc.
  destruct (alloc3_ok v Hl) as [(i & E & Hn & Hf)|(v' & E & Hu & Hf)]; rewrite (bind_ok _ _ _ _ _ E).
  - left. exists i. by rewrite (bind_ok _ _ _ _ _ (format_req_ok b x w i v Hx)).
  - right. by exists v'.
Qed.

(** Outside the descriptors of the request nothing changed. *)
Lemma formatted_same b x w i v k :
  (∀ j, j ∈ idx_list i → 0 ≤ j) → k ∉ idx_list i → same_at (v_disk v) (v_disk (formatted b x w i v)) k.
Proof.
  intros H0 Hk. unfold idx_list in *.
  assert (0 ≤ i0 i ∧ 0 ≤ i1 i ∧ 0 ≤ i2 i) as (? & ? & ?) by (repeat split; apply H0; set_solver).
  assert (i0 i ≠ k ∧ i1 i ≠ k ∧ i2 i ≠ k) as (? & ? & ?) by set_solver.
  unfold same_at; cbn. by rewrite !at_wr_ne, !at_alter_ne.
Qed.

Lemma formatted_free b x w i v k :
  (∀ j, j ∈ idx_list i → 0 ≤ j < 8) → at_ (free (v_disk (formatted b x w i v))) k = Some true →
  at_ (free (v_disk v)) k = Some true.
Proof.
  intros Hr. pose proof (Hr _ (i0_in i)). pose proof (Hr _ (i1_in i)). pose proof (Hr _ (i2_in i)). cbn.
  intros E. do 3 (apply at_wr_true in E as [E _]; [|lia]). done.
Qed.

Lemma formatted_request b x w i v :
  length (desc (v_disk v)) = 8%nat → length (ops (v_disk v)) = 8%nat → length (free (v_disk v)) = 8%nat →
  NoDup (idx_list i) → (∀ k, k ∈ idx_list i → 0 ≤ k < 8) →
  request (v_disk (formatted b x w i v)) b (set_buf_disk 1 x) w i.
Proof.
  intros Hd Ho Hf Hn Hr.
  pose proof (Hr _ (i0_in i)). pose proof (Hr _ (i1_in i)). pose proof (Hr _ (i2_in i)).
  destruct (idx_ne i Hn) as (? & ? & ?).
  split; [done| |cbn..].
  - intros k Hk. unfold idx_list in Hk. cbn. rewrite !elem_of_cons, elem_of_nil in Hk.
    destruct (decide (k = i2 i)) as [->|]; [apply at_wr; rewrite !length_wr; lia|].
    rewrite at_wr_ne by lia. destruct (decide (k = i1 i)) as [->|]; [apply at_wr; rewrite !length_wr; lia|].
    rewrite at_wr_ne by lia. assert (k = i0 i) as -> by naive_solver. apply at_wr. lia.
  - by rewrite at_wr by lia.
  - rewrite !at_wr_ne by lia. by rewrite at_wr by lia.
  - rewrite at_wr_ne by lia. by rewrite at_wr by (rewrite length_wr; lia).
  - by rewrite at_wr by (rewrite !length_wr; lia).
Qed.

(** ** The end of a request *)

Definition freed3 (i : idx3) (v : vmem) : vmem := freed (i2 i) (freed (i1 i) (freed (i0 i) v)).

Lemma land_next f : Z.land f VRING_DESC_F_NEXT = f mod 2.
Proof. apply (Z.land_ones f 1). lia. Qed.

Lemma free_chain_ok b x w i v :
  request (v_disk v) b x w i → (∀ k, k ∈ idx_list i → 0 ≤ k < 8) →
  free_chain (Z.to_nat NUM) (i0 i) v = Ok tt (freed3 i v).
Proof.
  intros [Hn Ht _ H0 H1 H2] Hr. change (Z.to_nat NUM) with (S (S (S 5))).
  pose proof (Hr _ (i0_in i)). pose proof (Hr _ (i1_in i)). pose proof (Hr _ (i2_in i)).
  pose proof (Ht _ (i0_in i)) as T0. pose proof (Ht _ (i1_in i)) as T1. pose proof (Ht _ (i2_in i)) as T2.
  destruct (idx_ne i Hn) as (? & ? & ?).
  cbn [free_chain].
  rewrite (bind_ok _ _ _ _ _ (load_ok (λ v, desc (v_disk v)) _ v _ H0)). cbn [d_flags d_next].
  rewrite (bind_ok _ _ _ _ _ (free_desc_ok (i0 i) v ltac:(lia) T0)).
  rewrite land_next. change (negb (1 mod 2 =? 0)) with true. cbv iota.
  assert (H1' : at_ (desc (v_disk (freed (i0 i) v))) (i1 i) = Some (VDesc (DData b) BSIZE (if w then 1 else 3) (i2 i)))
    by (cbn; by rewrite at_wr_ne by lia).
  rewrite (bind_ok _ _ _ _ _ (load_ok (λ v, desc (v_disk v)) _ (freed (i0 i) v) _ H1')). cbn [d_flags d_next].
  rewrite (bind_ok _ _ _ _ _ (free_desc_ok (i1 i) (freed (i0 i) v) ltac:(lia) ltac:(cbn; by rewrite at_wr_ne by lia))).
  assert (Ef : negb (Z.land (if w then 1 else 3) VRING_DESC_F_NEXT =? 0) = true) by by destruct w.
  rewrite Ef. cbv iota.
  assert (H2' : at_ (desc (v_disk (freed (i1 i) (freed (i0 i) v)))) (i2 i) = Some (VDesc (DStatus (i0 i)) 1 2 0))
    by (cbn; by rewrite !at_wr_ne by lia).
  rewrite (bind_ok _ _ _ _ _ (load_ok (λ v, desc (v_disk v)) _ (freed (i1 i) (freed (i0 i) v)) _ H2')). cbn [d_flags d_next].
  by rewrite (bind_ok _ _ _ _ _ (free_desc_ok (i2 i) (freed (i1 i) (freed (i0 i) v)) ltac:(lia) ltac:(cbn; by rewrite !at_wr_ne by lia))).
Qed.

(** The state when virtio_disk_rw() returns. *)
Definition returned (i : idx3) (v : vmem) : vmem :=
  freed3 i (upd_disk (set_info (alter (set_in_b None) (Z.to_nat (i0 i)))) v).

Lemma rw_wait_ok t b x w i v :
  v_bufs v !! b = Some x → request (v_disk v) b x w i → (∀ k, k ∈ idx_list i → 0 ≤ k < 8) →
  rw_wait t b i v =
    if vb_disk x =? 1 then Ok false (upd_sleep (<[t:=WBuf b]>) v) else Ok true (returned i v).
Proof.
  intros Hx Hr Hi. unfold rw_wait.
  rewrite (bind_ok _ _ _ _ _ (load_ok v_bufs (Z.of_nat b) v x ltac:(by rewrite at_nth))).
  destruct (vb_disk x =? 1); [done|]. rewrite bind_modify. cbv beta.
  set (v1 := upd_disk _ v). assert (Hr1 : request (v_disk v1) b x w i) by (destruct Hr; by split).
  by rewrite (bind_ok _ _ _ _ _ (free_chain_ok b x w i v1 Hr1 Hi)).
Qed.

Lemma returned_same i v k :
  (∀ j, j ∈ idx_list i → 0 ≤ j < 8) → k ∉ idx_list i → same_at (v_disk v) (v_disk (returned i v)) k.
Proof.
  intros H0 Hk. pose proof (H0 _ (i0_in i)). pose proof (H0 _ (i1_in i)). pose proof (H0 _ (i2_in i)).
  unfold idx_list in Hk. rewrite !elem_of_cons in Hk.
  assert (i0 i ≠ k ∧ i1 i ≠ k ∧ i2 i ≠ k) as (? & ? & ?) by naive_solver.
  unfold same_at; cbn. rewrite !at_wr_ne, at_alter_ne by lia. done.
Qed.

Lemma returned_free i v k :
  NoDup (idx_list i) → (∀ j, j ∈ idx_list i → 0 ≤ j < 8) → length (free (v_disk v)) = 8%nat →
  k ∈ idx_list i → at_ (free (v_disk (returned i v))) k = Some true.
Proof.
  intros Hn H0 Hl Hk. pose proof (H0 _ (i0_in i)). pose proof (H0 _ (i1_in i)). pose proof (H0 _ (i2_in i)).
  unfold idx_list in Hk. rewrite !elem_of_cons, elem_of_nil in Hk. cbn.
  destruct (decide (k = i2 i)) as [->|]; [apply at_wr; rewrite !length_wr; lia|]. rewrite at_wr_ne by lia.
  destruct (decide (k = i1 i)) as [->|]; [apply at_wr; rewrite !length_wr; lia|]. rewrite at_wr_ne by lia.
  assert (k = i0 i) as -> by tauto. apply at_wr. lia.
Qed.

Lemma returned_sleep i v t c :
  v_sleep (returned i v) !! t = Some c → v_sleep v !! t = Some c ∧ c ≠ WFree.
Proof.
  cbn. intros E. apply map_lookup_filter_Some in E as [E Hc]. apply map_lookup_filter_Some in E as [E _].
  by apply map_lookup_filter_Some in E as [E _].
Qed.

(** The thread of a request that was just put together. *)
Lemma formatted_thread d b x w i v pend fin failed :
  length (desc (v_disk v)) = 8%nat → length (ops (v_disk v)) = 8%nat → length (free (v_disk v)) = 8%nat →
  length (info (v_disk v)) = 8%nat → NoDup (idx_list i) → (∀ k, k ∈ idx_list i → 0 ≤ k < 8) →
  thread_ok d (v_bufs v) pend fin failed (TAlloc b w) → v_bufs v !! b = Some x →
  (i0 i ∉ pend ++ fin) →
  thread_ok (v_disk (formatted b x w i v)) (v_bufs (formatted b x w i v)) pend fin failed (TPublish b w i).
Proof.
  intros Ld Lo Lf Li Hn Hr (x' & Hx' & Hlen & Hbn & _) Hx Hh. cbn in Hx'. rewrite Hx in Hx'. injection Hx' as <-.
  exists (set_buf_disk 1 x). cbn [tbuf tidx twrite published].
  split; [cbn; by rewrite list_lookup_alter_eq, Hx|]. do 2 (split; [done|]).
  split; [by apply formatted_request|]. exists 255. split.
  - cbn. destruct (at_is_Some (info (v_disk v)) (i0 i)) as [y Hy].
    { rewrite Li. apply (Hr (i0 i)). auto with virtio. }
    by rewrite (at_alter _ _ _ _ (at_alter _ _ _ _ Hy)).
  - cbn. rewrite elem_of_app in Hh. tauto.
Qed.
