(* ===== verification/VirtioInv.v ===== *)
(** Every step of the threads, the interrupt handler and the device keeps the
    invariant of the virtio disk driver. *)

From S2P Require Import Prelude RingBuf Bio VirtioDisk VirtioSpec.

(** ** Rings of chain heads *)

Lemma nodup_bound (l : list Z) n : NoDup l → (∀ k, k ∈ l → 0 ≤ k < Z.of_nat n) → (length l ≤ n)%nat.
Proof.
  intros Hn Hr.
  transitivity (length (seqZ 0 (Z.of_nat n))); [|rewrite length_seqZ; lia].
  apply submseteq_length, NoDup_submseteq; [done|]. intros k Hk. apply elem_of_seqZ. by apply Hr.
Qed.

Lemma ring_room h (l : list Z) :
  h ∉ l → NoDup l → 0 ≤ h < 8 → (∀ k, k ∈ l → 0 ≤ k < 8) → Z.of_nat (length l) < 8.
Proof.
  intros Hh Hn H0 Hl. assert ((length (h :: l) ≤ 8)%nat); [|cbn in *; lia].
  apply nodup_bound; [by constructor|]. intros k [->|Hk]%elem_of_cons; [lia|]. by apply Hl.
Qed.

(** The entry after the last one is not part of the ring yet. *)
Lemma hq_write buf r w q c :
  holds_queue 8 65536 buf r w q → Z.of_nat (length q) < 8 →
  holds_queue 8 65536 (wr (w mod 8) c buf) r w q.
Proof.
  intros Hq Hl. pose proof (hq_push 8 65536 8192 ltac:(lia) ltac:(lia) eq_refl _ _ _ _ c Hq Hl) as Hp.
  apply (hq_prefix 8 65536 8192) in Hp; [|lia..|done]. by rewrite <-(hq_w _ _ _ _ _ _ Hq) in Hp.
Qed.

(** It becomes part of it with the index. *)
Lemma hq_publish buf r w q c :
  holds_queue 8 65536 buf r w q → Z.of_nat (length q) < 8 → at_ buf (w mod 8) = Some c →
  holds_queue 8 65536 buf r (u16 (w + 1)) (q ++ [c]).
Proof.
  intros Hq Hl Hc. pose proof (hq_push 8 65536 8192 ltac:(lia) ltac:(lia) eq_refl _ _ _ _ c Hq Hl) as Hp.
  rewrite list_insert_id in Hp; [done|].
  pose proof (at_Some _ _ _ Hc). unfold at_ in Hc. by destruct (Z.ltb_spec (w mod 8) 0).
Qed.

Section threads.
Context (s : sys) (qa qu : list Z).
Hypothesis H : vinv_q s qa qu.

Lemma vi_range t p i k :
  s_threads s !! t = Some p → tidx p = Some i → k ∈ idx_list i → 0 ≤ k < 8.
Proof using H.
  intros Ht Hi Hk. pose proof (thread_ok_idx _ _ _ _ _ _ _ _ (vi_thread _ _ _ H t p Ht) Hi Hk) as E.
  apply at_Some in E. rewrite (vi_free _ _ _ H) in E. lia.
Qed.

(** Requests of different threads have different heads. *)
Lemma vi_head_inj t t' p p' i i' :
  s_threads s !! t = Some p → s_threads s !! t' = Some p' → tidx p = Some i → tidx p' = Some i' →
  i0 i = i0 i' → t = t'.
Proof using H.
  intros Ht Ht' Hi Hi' E. destruct (decide (t = t')) as [|Hne]; [done|].
  destruct (vi_apart _ _ _ H t t' p p' Hne Ht Ht') as [_ Hd]. exfalso.
  apply (Hd i i' (i0 i) Hi Hi'); [auto with virtio|]. rewrite E. auto with virtio.
Qed.

(** One thread has the lock at most. *)
Lemma vi_no_lock t t' p' :
  s_lock s = Some (OThread t) → t' ≠ t → s_threads s !! t' = Some p' → has_lock p' = false.
Proof using H.
  intros Hl Hne Ht'. destruct (has_lock p') eqn:E; [|done].
  pose proof (vi_lock _ _ _ H t' p' Ht' E). congruence.
Qed.

Lemma vi_no_lock_none t' p' :
  s_lock s = None ∨ s_lock s = Some OIntr → s_threads s !! t' = Some p' → has_lock p' = false.
Proof using H.
  intros Hl Ht'. destruct (has_lock p') eqn:E; [|done].
  pose proof (vi_lock _ _ _ H t' p' Ht' E). destruct Hl; congruence.
Qed.

(** A thread moves between the test of its waiting loop and the sleep. *)
Lemma vinv_move t p p' sl lk :
  s_threads s !! t = Some p → tbuf p' = tbuf p → tidx p' = tidx p → twrite p' = twrite p →
  published p = true → published p' = true → s_panic s = None →
  (∀ t' c, sl !! t' = Some c →
     t' ≠ t ∧ v_sleep (s_mem s) !! t' = Some c ∨ t' = t ∧ sleep_ok (s_mem s) p' c) →
  (∀ t' q, t' ≠ t → s_threads s !! t' = Some q → has_lock q = false) →
  (has_lock p' = true → lk = Some (OThread t)) →
  vinv_q (Sys (VMem (v_disk (s_mem s)) (v_bufs (s_mem s)) sl) (s_dev s) (<[t:=p']> (s_threads s)) lk None) qa qu.
Proof using H.
  intros Ht Eb Ei Ew Hp Hp' Hpan Hsl Hlk Hlk'. destruct H as [? ? ? ? ? ? ? Ihd Ith Iap Ibu Isl Ilk Islot ? ?].
  split; cbn; try done.
  - intros h Hh. destruct (Ihd h Hh) as (t' & q & i & Hq & ? & ? & ?).
    destruct (decide (t' = t)) as [->|Hne].
    + exists t, p', i. rewrite lookup_insert_eq, Ei. rewrite Ht in Hq. naive_solver.
    + exists t', q, i. by rewrite lookup_insert_ne.
  - intros t' q [[<- <-]|[_ Hq]]%lookup_insert_Some; [|by apply (Ith t')].
    pose proof (Ith t p Ht) as Hok. unfold thread_ok in *. by rewrite Eb, Ei, Ew, Hp', <-Hp.
  - intros t1 t2 p1 p2 Hne [[<- <-]|[_ H1]]%lookup_insert_Some [[<- <-]|[_ H2]]%lookup_insert_Some;
      rewrite ?Eb, ?Ei; by eauto.
  - intros k Hk. destruct (Ibu k Hk) as (t' & q & i & Hq & ? & ?).
    destruct (decide (t' = t)) as [->|Hne].
    + exists t, p', i. rewrite lookup_insert_eq, Ei. rewrite Ht in Hq. naive_solver.
    + exists t', q, i. by rewrite lookup_insert_ne.
  - intros t' c Hc. destruct (Hsl t' c Hc) as [[Hne Hc']|[-> Hc']].
    + rewrite lookup_insert_ne by done. destruct (Isl t' c Hc') as (q & ? & ?). by exists q.
    + exists p'. by rewrite lookup_insert_eq.
  - intros t' q [[<- <-]|[Hne Hq]]%lookup_insert_Some; [done|]. rewrite (Hlk t' q) by done. done.
  - intros t' b w i [[<- ->]|[Hne Hq]]%lookup_insert_Some; [done|]. by apply (Islot t' b w).
  - by left.
Qed.

(** A new request. *)
Lemma vinv_call t b w x :
  s_panic s = None → s_threads s !! t = None → v_bufs (s_mem s) !! b = Some x →
  length (vb_data x) = Z.to_nat BSIZE → 0 ≤ vb_blockno x < 2 ^ 32 →
  (∀ t' p, s_threads s !! t' = Some p → tbuf p ≠ b) →
  vinv_q (Sys (s_mem s) (s_dev s) (<[t:=TAlloc b w]> (s_threads s)) (s_lock s) None) qa qu.
Proof using H.
  intros Hpan Ht Hx Hl Hn Hb. destruct H as [? ? ? ? ? ? ? Ihd Ith Iap Ibu Isl Ilk Islot ? ?].
  assert (Hne : ∀ t' p, s_threads s !! t' = Some p → t ≠ t') by congruence.
  split; cbn; try done.
  - intros h Hh. destruct (Ihd h Hh) as (t' & q & i & Hq & ?). exists t', q, i.
    by rewrite lookup_insert_ne by eauto.
  - intros t' q [[<- <-]|[_ Hq]]%lookup_insert_Some; [by exists x|by apply (Ith t')].
  - intros t1 t2 p1 p2 Hne12 [[<- <-]|[_ H1]]%lookup_insert_Some [[<- <-]|[_ H2]]%lookup_insert_Some; [done|..|by eauto].
    + split; [by apply not_eq_sym, (Hb _ _ H2)|done].
    + split; [by apply (Hb _ _ H1)|done].
  - intros k Hk. destruct (Ibu k Hk) as (t' & q & i & Hq & ?). exists t', q, i.
    by rewrite lookup_insert_ne by eauto.
  - intros t' c Hc. destruct (Isl t' c Hc) as (q & Hq & ?). exists q. by rewrite lookup_insert_ne by eauto.
  - intros t' q [[<- <-]|[_ Hq]]%lookup_insert_Some; [done|by apply Ilk].
  - intros t' b' w' i [[<- ?]|[_ Hq]]%lookup_insert_Some; [done|by apply (Islot t' b' w')].
  - by left.
Qed.

(** The kernel changes a buffer that no request is on. *)
Lemma vinv_kernel b f :
  s_panic s = None → (∀ t' p, s_threads s !! t' = Some p → tbuf p ≠ b) → 
  vinv_q (Sys (upd_bufs (alter f b) (s_mem s)) (s_dev s) (s_threads s) (s_lock s) None) qa qu.
Proof using H.
  intros Hpan Hb. destruct H as [? ? ? ? ? ? ? Ihd Ith Iap Ibu Isl Ilk Islot ? ?].
  split; cbn; try done; [| |by left].
  - intros t p Ht. eapply thread_ok_frame; [by apply (Ith t)|..]; auto with virtio.
    apply list_lookup_alter_ne. by apply not_eq_sym, (Hb t).
  - intros t c Hc. destruct (Isl t c Hc) as (p & Hp & Hok). exists p. split; [done|].
    destruct c as [|b']; [done|]. destruct Hok as ((w & i & ->) & x & Hx & Hd). cbn. split; [eauto|].
    exists x. rewrite list_lookup_alter_ne; [done|]. apply not_eq_sym, (Hb _ _ Hp).
Qed.

(** Threads wake up. *)
Lemma vinv_wake sl :
  sl ⊆ v_sleep (s_mem s) →
  vinv_q (Sys (VMem (v_disk (s_mem s)) (v_bufs (s_mem s)) sl) (s_dev s) (s_threads s) (s_lock s) (s_panic s)) qa qu.
Proof using H.
  intros Hs. destruct H as [? ? ? ? ? ? ? Ihd Ith Iap Ibu Isl Ilk Islot ? ?]. split; cbn; try done.
  intros t c Hc. destruct (Isl t c) as (p & ? & ?); [by eapply lookup_weaken|]. by exists p.
Qed.

(** The interrupt handler takes or gives back the lock. *)
Lemma vinv_intr lk :
  s_lock s = None ∨ s_lock s = Some OIntr →
  vinv_q (Sys (s_mem s) (s_dev s) (s_threads s) lk (s_panic s)) qa qu.
Proof using H.
  intros Hl. pose proof vi_no_lock_none as Hno.
  destruct H as [? ? ? ? ? ? ? Ihd Ith Iap Ibu Isl Ilk Islot ? ?]. split; cbn; try done.
  intros t p Ht. by rewrite (Hno t p).
Qed.

(** A failed allocation. *)
Lemma vinv_undone t b w v' :
  s_panic s = None → s_lock s = None → s_threads s !! t = Some (TAlloc b w) →
  undone (s_mem s) v' → few_free (free (v_disk (s_mem s))) →
  vinv_q (Sys (upd_sleep (<[t:=WFree]>) v') (s_dev s) (s_threads s) None None) qa qu.
Proof using H.
  intros Hpan Hlock Ht (ds & sl & -> & Hlen & Hds & Hsl) Hfew.
  pose proof vi_no_lock_none as Hno.
  destruct H as [? ? ? ? ? ? ? Ihd Ith Iap Ibu Isl Ilk Islot ? ?].
  split; cbn; try done; [congruence|..|by left].
  - intros t' p Hp. pose proof (Ith t' p Hp) as Hok. eapply thread_ok_frame; [done|done|..|done|done].
    intros i k Hi Hk. repeat split; cbn. apply Hds. by eapply thread_ok_idx.
  - intros t' c [[<- <-]|[Hne Hc]]%lookup_insert_Some; [by exists (TAlloc b w)|].
    destruct (Isl t' c) as (p & Hp & Hok); [by eapply lookup_weaken|]. exists p. split; [done|].
    by destruct c.
  - intros t' p Hp. by rewrite (Hno t' p) by auto.
Qed.

(** The chains in the rings are not free. *)
Lemma vi_head_busy h :
  h ∈ (qa ++ dv_taken (s_dev s)) ++ (dv_done (s_dev s) ++ qu) →
  at_ (free (v_disk (s_mem s))) h = Some false ∧ 0 ≤ h < 8.
Proof using H.
  intros Hh. destruct (vi_heads _ _ _ H h Hh) as (t & p & i & Ht & _ & Hi & <-). split.
  - eapply thread_ok_idx; [by apply (vi_thread _ _ _ H t)|done|auto with virtio].
  - eapply vi_range; eauto with virtio.
Qed.

Lemma vi_room h :
  (h ∉ qa) → 0 ≤ h < 8 → Z.of_nat (length qa) < 8.
Proof using H.
  intros Hh H0. eapply ring_room; [done| |done|].
  - pose proof (vi_nodup _ _ _ H) as Hn. by apply NoDup_app in Hn as [[Hn _]%NoDup_app _].
  - intros k Hk. apply vi_head_busy. set_solver.
Qed.

Lemma vinv_alloc t b w x i :
  s_panic s = None → s_lock s = None → s_threads s !! t = Some (TAlloc b w) →
  v_sleep (s_mem s) !! t = None → v_bufs (s_mem s) !! b = Some x →
  NoDup (idx_list i) → (∀ k, k ∈ idx_list i → at_ (free (v_disk (s_mem s))) k = Some true) →
  vinv_q (Sys (formatted b x w i (s_mem s)) (s_dev s) (<[t:=TPublish b w i]> (s_threads s))
    (Some (OThread t)) None) qa qu.
Proof using H.
  intros Hpan Hlock Ht Hslt Hx Hnd Hfree.
  pose proof vi_no_lock_none as Hno. pose proof vi_head_busy as Hbusy. pose proof vi_room as Hroom.
  destruct H as [Ld Lf Li Lo Iav Iu Ind Ihd Ith Iap Ibu Isl Ilk Islot ? ?].
  assert (Hr : ∀ k, k ∈ idx_list i → 0 ≤ k < 8).
  { intros k Hk. pose proof (at_Some _ _ _ (Hfree k Hk)). lia. }
  assert (Hsame : ∀ k, at_ (free (v_disk (s_mem s))) k = Some false →
    same_at (v_disk (s_mem s)) (v_disk (formatted b x w i (s_mem s))) k).
  { intros k Hk. apply formatted_same; [intros j Hj; by apply Hr|]. intros Hin%Hfree. congruence. }
  assert (Hh : i0 i ∉ (qa ++ dv_taken (s_dev s)) ++ dv_done (s_dev s) ++ qu).
  { intros Hin%Hbusy. rewrite Hfree in Hin by auto with virtio. naive_solver. }
  assert (Hne : ∀ t' p, s_threads s !! t' = Some p → is_Some (tidx p) → t ≠ t').
  { intros t' p Hp [? Hi] <-. rewrite Ht in Hp. by simplify_eq. }
  assert (Ith' : ∀ t' p, t ≠ t' → s_threads s !! t' = Some p →
    thread_ok (v_disk (formatted b x w i (s_mem s))) (v_bufs (formatted b x w i (s_mem s)))
      (qa ++ dv_taken (s_dev s)) (dv_done (s_dev s) ++ qu) (dv_failed (s_dev s)) p).
  { intros t' p Htt Hp. pose proof (Ith t' p Hp) as Hok. eapply thread_ok_frame; [done|..|done|done].
    - cbn. apply list_lookup_alter_ne. apply (Iap t t' _ _ Htt Ht Hp).
    - intros j k Hj Hk. apply Hsame. by eapply thread_ok_idx. }
  split; cbn [s_mem s_dev s_threads s_lock s_panic]; try done.
  - cbn. by rewrite !length_wr.
  - cbn. by rewrite !length_wr.
  - cbn. by rewrite !length_alter.
  - cbn. by rewrite !length_wr.
  - cbn. apply hq_write; [done|]. apply (Hroom (i0 i)); [set_solver|auto with virtio].
  - intros h Hin. destruct (Ihd h Hin) as (t' & q & j & Hq & ? & Hj & ?). exists t', q, j.
    by rewrite lookup_insert_ne by eauto.
  - intros t' q [[<- <-]|[Htt Hq]]%lookup_insert_Some; [|by eapply Ith'].
    by eapply formatted_thread; [..|apply (Ith t _ Ht)| |].
  - intros t1 t2 p1 p2 H12 [[<- <-]|[Ha1 H1]]%lookup_insert_Some [[<- <-]|[Ha2 H2]]%lookup_insert_Some;
      [done|..|by apply (Iap t1 t2)].
    + split; [by apply (Iap t t2 _ _ H12 Ht H2)|]. intros j j' k [= <-] Hj' Hk%Hfree Hk'.
      pose proof (thread_ok_idx _ _ _ _ _ _ _ _ (Ith t2 p2 H2) Hj' Hk'). congruence.
    + split; [by apply (Iap t1 t _ _ H12 H1 Ht)|]. intros j j' k Hj [= <-] Hk Hk'%Hfree.
      pose proof (thread_ok_idx _ _ _ _ _ _ _ _ (Ith t1 p1 H1) Hj Hk). congruence.
  - intros k Hk. destruct (decide (k ∈ idx_list i)) as [Hin|Hout].
    + exists t, (TPublish b w i), i. by rewrite lookup_insert_eq.
    + destruct (formatted_same b x w i (s_mem s) k) as (_ & E & _ & _); [intros j Hj; by apply Hr|done|].
      rewrite E in Hk. destruct (Ibu k Hk) as (t' & q & j & Hq & Hj & ?). exists t', q, j.
      by rewrite lookup_insert_ne by eauto.
  - intros t' c Hc. cbn in Hc. destruct (Isl t' c Hc) as (q & Hq & Hok). exists q.
    assert (t ≠ t') by congruence. rewrite lookup_insert_ne by done. split; [done|].
    destruct c as [|b'].
    + destruct Hok as [Hi Hfew]. split; [done|]. intros u1 u2 u3 Hu E1 E2 E3.
      apply (Hfew u1 u2 u3 Hu); [revert E1|revert E2|revert E3]; apply formatted_free; intros j Hj; by apply Hr.
    + destruct Hok as ((w' & j & ->) & y & Hy & Hd). split; [eauto|]. exists y. cbn.
      rewrite list_lookup_alter_ne; [done|]. apply (Iap t t' _ _ ltac:(done) Ht Hq).
  - intros t' q [[<- <-]|[Htt Hq]]%lookup_insert_Some; [done|]. by rewrite (Hno t' q) by auto.
  - intros t' b' w' j [[<- [= <- <- <-]]|[Htt Hq]]%lookup_insert_Some.
    + cbn. apply at_wr. rewrite (hq_len _ _ _ _ _ _ Iav). dlia.
    + specialize (Hno t' _ ltac:(auto) Hq). done.
  - by left.
Qed.

(** The index of the avail ring moves past the request. *)
Lemma vinv_publish t b w i :
  s_panic s = None → s_threads s !! t = Some (TPublish b w i) →
  vinv_q (Sys (upd_disk (set_avail_idx (u16 (avail_idx (v_disk (s_mem s)) + 1))) (s_mem s)) (s_dev s)
    (<[t:=TCheck b w i]> (s_threads s)) (s_lock s) None) (qa ++ [i0 i]) qu.
Proof using H.
  intros Hpan Ht. pose proof vi_no_lock as Hno. pose proof vi_room as Hroom. pose proof vi_range as Hrange.
  pose proof vi_head_inj as Hinj.
  destruct H as [Ld Lf Li Lo Iav Iu Ind Ihd Ith Iap Ibu Isl Ilk Islot ? ?].
  pose proof (Ilk t _ Ht eq_refl) as Hlk.
  destruct (Ith t _ Ht) as (x & Hx & Hlen & Hbn & Hrq & st & Hst & Hnp & Hnf & -> & Hdk).
  cbn [tidx tbuf twrite] in *.
  assert (Hmem : ∀ h, h ∈ (qa ++ [i0 i]) ++ dv_taken (s_dev s) ↔ h = i0 i ∨ h ∈ qa ++ dv_taken (s_dev s))
    by (intros h; rewrite !elem_of_app, list_elem_of_singleton; tauto).
  split; cbn; try done.
  - apply hq_publish; [done| |by eapply Islot].
    apply (Hroom (i0 i)); [rewrite elem_of_app in Hnp; tauto|]. eapply Hrange; eauto with virtio.
  - rewrite <-!(assoc_L (++)). rewrite <-(assoc_L (++)) in Ind.
    cbn. rewrite <-Permutation_middle. constructor; [|done].
    rewrite !elem_of_app in *. tauto.
  - intros h. rewrite elem_of_app, Hmem. intros [[->|Hh]|Hh].
    + exists t, (TCheck b w i), i. by rewrite lookup_insert_eq.
    + destruct (Ihd h) as (t' & q & j & Hq & Hpub & ? & ?); [rewrite elem_of_app; tauto|].
      exists t', q, j. rewrite lookup_insert_ne; [done|]. intros <-. rewrite Ht in Hq. by simplify_eq.
    + destruct (Ihd h) as (t' & q & j & Hq & Hpub & ? & ?); [rewrite elem_of_app; tauto|].
      exists t', q, j. rewrite lookup_insert_ne; [done|]. intros <-. rewrite Ht in Hq. by simplify_eq.
  - intros t' q [[<- <-]|[Htt Hq]]%lookup_insert_Some.
    + exists x. split; [done|]. do 2 (split; [done|]). cbn. split; [by destruct Hrq; split|].
      exists 255. split; [done|]. left. rewrite Hmem. tauto.
    + eapply thread_ok_frame; [by apply (Ith t')|done|by auto with virtio| |done].
      intros j Hj. split; [|done]. rewrite Hmem. split; [|tauto]. intros [E|?]; [|done].
      exfalso. by apply Htt, (Hinj t t' _ _ i j Ht Hq).
  - intros t1 t2 p1 p2 Hne [[<- <-]|[_ H1]]%lookup_insert_Some [[<- <-]|[_ H2]]%lookup_insert_Some;
      [done|by apply (Iap t t2 _ _ Hne Ht)|by apply (Iap t1 t _ _ Hne H1 Ht)|by eauto].
  - intros k Hk. destruct (Ibu k Hk) as (t' & q & j & Hq & Hj & ?). destruct (decide (t' = t)) as [->|].
    + exists t, (TCheck b w i), i. rewrite lookup_insert_eq. rewrite Ht in Hq. naive_solver.
    + exists t', q, j. by rewrite lookup_insert_ne.
  - intros t' c Hc. destruct (Isl t' c Hc) as (q & Hq & Hok). exists q. rewrite lookup_insert_ne; [by destruct c|].
    intros <-. rewrite Ht in Hq. injection Hq as <-. destruct c as [|b']; [by destruct Hok|].
    destruct Hok as ((? & ? & ?) & _). done.
  - intros t' q [[<- <-]|[Htt Hq]]%lookup_insert_Some; [done|]. by rewrite (Hno t t' q).
  - intros t' b' w' j [[<- ?]|[Htt Hq]]%lookup_insert_Some; [done|]. by specialize (Hno t t' _ Hlk ltac:(done) Hq).
  - by left.
Qed.

(** virtio_disk_rw() returns. *)
Lemma vinv_return t b w i x :
  s_panic s = None → s_threads s !! t = Some (TCheck b w i) →
  v_bufs (s_mem s) !! b = Some x → vb_disk x ≠ 1 →
  vinv_q (Sys (returned i (s_mem s)) (s_dev s) (delete t (s_threads s)) None None) qa qu.
Proof using H.
  intros Hpan Ht Hx Hdk. pose proof vi_no_lock as Hno. pose proof (λ k, vi_range t _ i k Ht eq_refl) as Hrange.
  destruct H as [Ld Lf Li Lo Iav Iu Ind Ihd Ith Iap Ibu Isl Ilk Islot ? ?].
  pose proof (Ilk t _ Ht eq_refl) as Hlk.
  destruct (Ith t _ Ht) as (x' & Hx' & _ & _ & Hrq & st & Hst & Hs). cbn in Hx', Hs.
  rewrite Hx in Hx'. injection Hx' as <-.
  assert ((i0 i ∉ qa ++ dv_taken (s_dev s)) ∧ (i0 i ∉ dv_done (s_dev s) ++ qu)) as [Hnp Hnf] by tauto.
  assert (Hout : ∀ t' q j k, t' ≠ t → s_threads s !! t' = Some q → tidx q = Some j → k ∈ idx_list j → k ∉ idx_list i).
  { intros t' q j k Hne Hq Hj Hk Hk'. by apply (proj2 (Iap t' t _ _ Hne Hq Ht) j i k). }
  split; cbn [s_mem s_dev s_threads s_lock s_panic]; try done.
  - cbn. by rewrite !length_wr.
  - cbn. by rewrite !length_wr.
  - cbn. by rewrite length_alter.
  - intros h Hh. destruct (Ihd h Hh) as (t' & q & j & Hq & ? & Hj & Eh). exists t', q, j.
    rewrite lookup_delete_ne; [done|]. intros <-. rewrite Ht in Hq. injection Hq as <-.
    injection Hj as <-. rewrite <-Eh, elem_of_app in Hh. tauto.
  - intros t' q [Hne Hq]%lookup_delete_Some. eapply thread_ok_frame; [by apply (Ith t')|done| |done|done].
    intros j k Hj Hk. apply returned_same; [done|]. by eapply (Hout t' q j).
  - intros t1 t2 p1 p2 Hne [_ H1]%lookup_delete_Some [_ H2]%lookup_delete_Some. by apply (Iap t1 t2).
  - intros k Hk. assert (Hki : k ∉ idx_list i).
    { intros Hin. rewrite returned_free in Hk; [done|apply Hrq|done..]. }
    destruct (returned_same i (s_mem s) k) as (_ & E & _); [done..|]. rewrite E in Hk.
    destruct (Ibu k Hk) as (t' & q & j & Hq & Hj & Hkj). exists t', q, j. rewrite lookup_delete_ne; [done|].
    intros <-. rewrite Ht in Hq. injection Hq as <-. by injection Hj as <-.
  - intros t' c [Hc Hcf]%returned_sleep. destruct (Isl t' c Hc) as (q & Hq & Hok).
    destruct c as [|b']; [done|]. exists q. destruct Hok as ((w' & j & ->) & y & Hy & Hd).
    rewrite lookup_delete_ne; [|intros <-; congruence]. split; [done|]. split; [eauto|]. by exists y.
  - intros t' q [Hne Hq]%lookup_delete_Some. by rewrite (Hno t t' q).
  - intros t' b' w' j [Hne Hq]%lookup_delete_Some. by apply (Islot t' b' w').
  - by left.
Qed.
End threads.

Lemma parse_chain_ok v b x w i :
  request (v_disk v) b x w i →
  parse_chain v (i0 i) = Some (BlkReq (req_type w) 0 (sector_of (vb_blockno x)), b, BSIZE, i0 i).
Proof.
  intros [_ _ Ho H0 H1 H2]. unfold parse_chain. rewrite H0. cbn [mbind option_bind d_next].
  rewrite H1. cbn [mbind option_bind d_next]. rewrite H2. cbn [mbind option_bind d_addr].
  rewrite Ho. cbn [mbind option_bind d_flags d_len rq_type].
  rewrite bool_decide_true; [done|]. destruct w; cbn; auto 10.
Qed.

Section device.
Context (s : sys) (qa qu : list Z).
Hypothesis H : vinv_q s qa qu.

(** The request a chain in one of the rings belongs to. *)
Lemma vi_owner h :
  h ∈ (qa ++ dv_taken (s_dev s)) ++ (dv_done (s_dev s) ++ qu) →
  ∃ t p i x st, s_threads s !! t = Some p ∧ published p = true ∧ tidx p = Some i ∧ i0 i = h ∧
    v_bufs (s_mem s) !! tbuf p = Some x ∧ length (vb_data x) = Z.to_nat BSIZE ∧ 0 ≤ vb_blockno x < 2 ^ 32 ∧
    request (v_disk (s_mem s)) (tbuf p) x (twrite p) i ∧
    at_ (info (v_disk (s_mem s))) h = Some (DInfo (Some (tbuf p)) st) ∧
    req_stage true (qa ++ dv_taken (s_dev s)) (dv_done (s_dev s) ++ qu) (dv_failed (s_dev s)) h st (vb_disk x).
Proof using H.
  intros Hh. destruct (vi_heads _ _ _ H h Hh) as (t & p & i & Ht & Hp & Hi & Eh).
  destruct (vi_thread _ _ _ H t p Ht) as (x & Hx & Hl & Hn & Hok). rewrite Hi, Hp, Eh in Hok.
  destruct Hok as (Hr & st & Hst & Hs). by exists t, p, i, x, st.
Qed.

(** The device takes the oldest entry of the avail ring. *)
Lemma vinv_take h :
  dv_last (s_dev s) ≠ avail_idx (v_disk (s_mem s)) →
  at_ (avail_ring (v_disk (s_mem s))) (dv_last (s_dev s) mod NUM) = Some h →
  let x := s_dev s in
  vinv (Sys (s_mem s)
    (Dev (u16 (dv_last x + 1)) (dv_taken x ++ [h]) (dv_done x) (dv_failed x) (dv_stray x) (dv_medium x))
    (s_threads s) (s_lock s) (s_panic s)).
Proof using H.
  intros Hne Hat x. subst x. destruct H as [Ld Lf Li Lo Iav Iu Ind Ihd Ith Iap Ibu Isl Ilk Islot ? ?].
  destruct qa as [|h' qa'].
  { exfalso. apply Hne. symmetry. by apply (hq_empty 8 65536 8192 ltac:(lia) ltac:(lia) eq_refl _ _ _ _ Iav). }
  destruct (hq_pop 8 65536 8192 ltac:(lia) ltac:(lia) eq_refl _ _ _ _ _ Iav) as [Hh Iav'].
  unfold at_, NUM in Hat. destruct (Z.ltb_spec (dv_last (s_dev s) mod 8) 0); [done|].
  rewrite Hh in Hat. injection Hat as <-.
  assert (Hperm : qa' ++ dv_taken (s_dev s) ++ [h'] ≡ₚ (h' :: qa') ++ dv_taken (s_dev s))
    by (cbn; rewrite (assoc_L (++)); symmetry; apply Permutation_cons_append).
  exists qa', qu. split; cbn [s_mem s_dev s_threads s_lock s_panic dv_last dv_taken dv_done dv_failed dv_stray]; try done.
  - by rewrite Hperm.
  - intros k. rewrite Hperm. apply Ihd.
  - intros t p Ht. eapply thread_ok_frame; [by apply (Ith t)|done|by auto with virtio| |done].
    intros i _. by rewrite Hperm.
Qed.

(** The device has served or refused the request at [h]. *)
Lemma vinv_served l1 h l2 t p i x st st' x' bufs' failed m :
  dv_taken (s_dev s) = l1 ++ h :: l2 →
  s_threads s !! t = Some p → published p = true → tidx p = Some i → i0 i = h →
  v_bufs (s_mem s) !! tbuf p = Some x → at_ (info (v_disk (s_mem s))) h = Some (DInfo (Some (tbuf p)) st) →
  request (v_disk (s_mem s)) (tbuf p) x (twrite p) i →
  bufs' !! tbuf p = Some x' → (∀ b, b ≠ tbuf p → bufs' !! b = v_bufs (s_mem s) !! b) →
  vb_blockno x' = vb_blockno x → vb_disk x' = 1 → vb_disk x = 1 → 0 ≤ vb_blockno x < 2 ^ 32 →
  length (vb_data x') = Z.to_nat BSIZE →
  (dv_failed (s_dev s) = true → failed = true) → (st' = 0 ∨ failed = true ∧ (st' = 1 ∨ st' = 2)) →
  vinv (Sys (put_status h st' (VMem (v_disk (s_mem s)) bufs' (v_sleep (s_mem s))))
    (Dev (dv_last (s_dev s)) (l1 ++ l2) (dv_done (s_dev s) ++ [h]) failed (dv_stray (s_dev s)) m)
    (s_threads s) (s_lock s) (s_panic s)).
Proof using H.
  intros Htk Ht Hpub Hi Eh Hx Hin Hrq Hx' Hbufs Hbn Hdk' Hdk Hbr Hlen Hf Hst'.
  pose proof (vi_head_inj _ _ _ H) as Hinj. pose proof (vi_range _ _ _ H t p i) as Hrange.
  destruct H as [Ld Lf Li Lo Iav Iu Ind Ihd Ith Iap Ibu Isl Ilk Islot Ipan ?].
  rewrite Htk in Ind, Ihd, Ith.
  assert (Hh0 : 0 ≤ h) by (subst h; eapply Hrange; eauto with virtio).
  assert (P1 : qa ++ l1 ++ h :: l2 ≡ₚ h :: (qa ++ l1 ++ l2))
    by (rewrite !(assoc_L (++)); symmetry; apply Permutation_middle).
  assert (P2 : (dv_done (s_dev s) ++ [h]) ++ qu ≡ₚ h :: dv_done (s_dev s) ++ qu)
    by (rewrite <-(assoc_L (++)); cbn; symmetry; apply Permutation_middle).
  assert (P : (qa ++ l1 ++ l2) ++ (dv_done (s_dev s) ++ [h]) ++ qu ≡ₚ
    (qa ++ l1 ++ h :: l2) ++ dv_done (s_dev s) ++ qu)
    by (rewrite P1, P2; cbn; symmetry; apply Permutation_middle).
  assert (Hsame : ∀ k, k ≠ h → same_at (v_disk (s_mem s))
    (set_info (alter (set_in_status st') (Z.to_nat h)) (v_disk (s_mem s))) k)
    by (intros k Hk; unfold same_at; cbn; by rewrite at_alter_ne).
  exists qa, qu. split; cbn [s_mem s_dev s_threads s_lock s_panic dv_last dv_taken dv_done dv_failed dv_stray]; try done.
  - cbn. by rewrite length_alter.
  - by rewrite P.
  - intros k. rewrite P. apply Ihd.
  - intros t' q Hq. destruct (decide (t' = t)) as [->|Hne].
    + rewrite Ht in Hq. injection Hq as <-. exists x'. rewrite Hbn, Hi, Hpub, Eh. split; [done|]. split; [done|].
      split; [done|]. split; [by destruct Hrq; split; rewrite ?Hbn|]. exists st'. split.
      * apply (at_alter _ _ (set_in_status st') _ Hin).
      * right; left. rewrite P1 in Ind. apply NoDup_cons in Ind as [Hnin _].
        rewrite elem_of_app in Hnin. rewrite P2, elem_of_cons. tauto.
    + eapply thread_ok_frame; [by apply (Ith t')|..|done].
      * cbn. apply Hbufs. apply (Iap t' t q p); done.
      * intros j k Hj Hk. apply Hsame. intros ->. apply (proj2 (Iap t' t q p Hne Hq Ht) j i h); [done..|].
        subst h. auto with virtio.
      * intros j Hj. assert (i0 j ≠ h).
        { intros E. apply Hne. apply (Hinj t' t q p j i Hq Ht Hj Hi). congruence. }
        rewrite P1, P2, !elem_of_cons. tauto.
  - intros t' c Hc. destruct (Isl t' c Hc) as (q & Hq & Hok). exists q. split; [done|].
    destruct c as [|b']; [done|]. destruct Hok as ((w & j & Eq) & y & Hy & Hd). split; [eauto|]. cbn.
    destruct (decide (b' = tbuf p)) as [->|Hb]; [by exists x'|]. exists y. by rewrite Hbufs.
  - destruct Ipan as [?|[? ?]]; [by left|right; auto].
Qed.

(** The device announces a request. *)
Lemma vinv_used l1 h l2 :
  dv_done (s_dev s) = l1 ++ h :: l2 →
  let x := s_dev s in
  vinv (Sys (upd_disk (λ d, set_used (wr (used_dev_idx d mod NUM) h (used_ring d)) (u16 (used_dev_idx d + 1)) d) (s_mem s))
    (Dev (dv_last x) (dv_taken x) (l1 ++ l2) (dv_failed x) (dv_stray x) (dv_medium x))
    (s_threads s) (s_lock s) (s_panic s)).
Proof using H.
  intros Hdn x. subst x. pose proof (vi_head_busy _ _ _ H) as Hbusy.
  destruct H as [Ld Lf Li Lo Iav Iu Ind Ihd Ith Iap Ibu Isl Ilk Islot Ipan ?].
  rewrite Hdn in Ind, Ihd, Ith, Hbusy.
  assert (P : (l1 ++ l2) ++ qu ++ [h] ≡ₚ (l1 ++ h :: l2) ++ qu).
  { transitivity (h :: (l1 ++ l2) ++ qu).
    - rewrite (assoc_L (++) _ qu). symmetry. apply Permutation_cons_append.
    - by rewrite <-(Permutation_middle l1). }
  assert (Hnq : (h ∉ qu) ∧ NoDup qu).
  { apply NoDup_app in Ind as (_ & _ & Ind). rewrite <-(assoc_L (++)) in Ind. cbn in Ind.
    rewrite <-Permutation_middle in Ind. apply NoDup_cons in Ind as [Hh Ind]. rewrite !elem_of_app in Hh.
    split; [tauto|]. by apply NoDup_app in Ind as (_ & _ & (_ & _ & ?)%NoDup_app). }
  exists qa, (qu ++ [h]). split; cbn [s_mem s_dev s_threads s_lock s_panic dv_last dv_taken dv_done dv_failed dv_stray]; try done.
  - apply (hq_push 8 65536 8192); [lia|lia|done|done|]. destruct Hnq. apply (ring_room h); [done..| |].
    + apply Hbusy. rewrite !elem_of_app, elem_of_cons. tauto.
    + intros k Hk. apply Hbusy. rewrite !elem_of_app. tauto.
  - by rewrite P.
  - intros k. rewrite P. apply Ihd.
  - intros t p Ht. eapply thread_ok_frame; [by apply (Ith t)|done|by auto with virtio| |done].
    intros i _. by rewrite P.
Qed.

(** The state after the interrupt handler has seen the request of [b]. *)
Definition seen (b : nat) (v : vmem) : vmem :=
  VMem (set_used_idx (u16 (used_idx (v_disk v) + 1)) (v_disk v))
    (alter (set_buf_disk 0) b (v_bufs v)) (filter (λ p, p.2 ≠ WBuf b) (v_sleep v)).

Lemma intr_turn_ok :
  (qu = [] ∧ intr_turn (s_mem s) = Ok false (s_mem s)) ∨
  (∃ h qu' t p x, qu = h :: qu' ∧ s_threads s !! t = Some p ∧ (i0 <$> tidx p) = Some h ∧
     v_bufs (s_mem s) !! tbuf p = Some x ∧ vb_disk x = 1 ∧
     intr_turn (s_mem s) = Ok true (seen (tbuf p) (s_mem s)) ∧
     at_ (info (v_disk (s_mem s))) h = Some (DInfo (Some (tbuf p)) 0)) ∨
  (intr_turn (s_mem s) = Err (VPanic "virtio_disk_intr status") (s_mem s) ∧ dv_failed (s_dev s) = true).
Proof using H.
  pose proof (vi_used _ _ _ H) as Iu.
  pose proof (hq_empty 8 65536 8192 ltac:(lia) ltac:(lia) eq_refl _ _ _ _ Iu) as Hemp.
  unfold intr_turn. rewrite bind_gets. cbv beta.
  destruct (Z.eqb_spec (used_idx (v_disk (s_mem s))) (used_dev_idx (v_disk (s_mem s)))) as [E|E].
  { left. split; [by apply Hemp|done]. }
  right. assert (∃ h qu', qu = h :: qu') as (h & qu' & Eq).
  { destruct qu as [|h qu']; [|by eauto]. destruct E. symmetry. by apply Hemp. }
  destruct (vi_owner h) as (t & p & i & x & st & Ht & Hp & Hi & Eh & Hx & Hlen & Hbn & Hrq & Hin & Hs).
  { rewrite Eq, !elem_of_app, elem_of_cons. tauto. }
  rewrite Eq in Iu. destruct (hq_pop 8 65536 8192 ltac:(lia) ltac:(lia) eq_refl _ _ _ _ _ Iu) as [Hat _].
  assert (Hat' : at_ (used_ring (v_disk (s_mem s))) (used_idx (v_disk (s_mem s)) mod NUM) = Some h).
  { unfold at_, NUM. pose proof (Z.mod_pos_bound (used_idx (v_disk (s_mem s))) 8 ltac:(lia)).
    by destruct (Z.ltb_spec (used_idx (v_disk (s_mem s)) mod 8) 0); [lia|]. }
  rewrite (bind_ok _ _ _ _ _ (load_ok (λ v, used_ring (v_disk v)) _ (s_mem s) _ Hat')).
  rewrite (bind_ok _ _ _ _ _ (load_ok (λ v, info (v_disk v)) _ (s_mem s) _ Hin)). cbn [in_status in_b].
  assert (Hfin : h ∈ dv_done (s_dev s) ++ qu) by (rewrite Eq, elem_of_app, elem_of_cons; tauto).
  destruct Hs as [Hs|[(_ & _ & Hdk & Hst)|Hs]]; [tauto| |tauto].
  destruct Hst as [->|[Hf Hst]].
  - left. exists h, qu', t, p, x. do 2 (split; [done|]). split; [by rewrite Hi, <-Eh|]. do 3 (split; [done|]). done.
  - right. split; [|done]. by destruct Hst as [-> | ->].
Qed.

Lemma vinv_seen h qu' t p x :
  s_panic s = None → s_lock s = Some OIntr →
  qu = h :: qu' → s_threads s !! t = Some p → (i0 <$> tidx p) = Some h →
  v_bufs (s_mem s) !! tbuf p = Some x → at_ (info (v_disk (s_mem s))) h = Some (DInfo (Some (tbuf p)) 0) →
  vinv (Sys (seen (tbuf p) (s_mem s)) (s_dev s) (s_threads s) (Some OIntr) None).
Proof using H.
  intros Hpan Hlk Eq Ht Eh Hx Hin. pose proof (vi_head_inj _ _ _ H) as Hinj. 
  destruct H as [Ld Lf Li Lo Iav Iu Ind Ihd Ith Iap Ibu Isl Ilk Islot Ipan ?]. rewrite Eq in Iu, Ind, Ihd, Ith.
  destruct (tidx p) as [i|] eqn:Hi; [|done]. injection Eh as Eh.
  destruct (hq_pop 8 65536 8192 ltac:(lia) ltac:(lia) eq_refl _ _ _ _ _ Iu) as [_ Iu'].
  rewrite <-(Permutation_middle (dv_done (s_dev s))) in Ind.
  assert (P : dv_done (s_dev s) ++ h :: qu' ≡ₚ h :: dv_done (s_dev s) ++ qu') by (symmetry; apply Permutation_middle).
  assert (Hnin : (h ∉ qa ++ dv_taken (s_dev s)) ∧ (h ∉ dv_done (s_dev s) ++ qu') ∧
    NoDup ((qa ++ dv_taken (s_dev s)) ++ dv_done (s_dev s) ++ qu')).
  { rewrite <-Permutation_middle in Ind. apply NoDup_cons in Ind as [Hh Ind]. rewrite elem_of_app in Hh. tauto. }
  destruct Hnin as (Hnp & Hnf & Hnd).
  exists qa, qu'. split; cbn [s_mem s_dev s_threads s_lock s_panic]; try done.
  - intros k Hk. apply Ihd. rewrite !elem_of_app, elem_of_cons. rewrite !elem_of_app in Hk. tauto.
  - intros t' q Hq. destruct (decide (t' = t)) as [->|Hne].
    + rewrite Ht in Hq. injection Hq as <-. destruct (Ith t p Ht) as (x' & Hx' & Hlen & Hbn & Hok).
      rewrite Hi in Hok. destruct Hok as (Hrq & st & Hst & Hs). rewrite Hx in Hx'. injection Hx' as <-.
      rewrite Eh, Hin in Hst. injection Hst as <-.
      exists (set_buf_disk 0 x). split; [cbn; by rewrite list_lookup_alter_eq, Hx|]. do 2 (split; [done|]).
      rewrite Hi. split; [by destruct Hrq; split|]. exists 0. rewrite Eh. split; [done|].
      destruct (published p); [|by destruct Hs as (_ & _ & ? & _)]. right; right. by cbn.
    + eapply thread_ok_frame; [by apply (Ith t')|..|done].
      * cbn. apply list_lookup_alter_ne. apply not_eq_sym, (Iap t' t q p Hne Hq Ht).
      * by auto with virtio.
      * intros j Hj. rewrite P, elem_of_cons. split; [done|].
        assert (i0 j ≠ h); [|tauto]. intros E. apply Hne, (Hinj t' t q p j i Hq Ht Hj Hi). congruence.
  - intros t' c Hc. cbn in Hc. apply map_lookup_filter_Some in Hc as [Hc Hcb].
    destruct (Isl t' c Hc) as (q & Hq & Hok). exists q. split; [done|]. destruct c as [|b']; [done|].
    destruct Hok as (? & y & Hy & Hd). split; [done|]. exists y. cbn. rewrite list_lookup_alter_ne; [done|].
    cbn in Hcb. congruence.
  - intros t' q Hq Hl. specialize (Ilk t' q Hq Hl). congruence.
  - by left.
Qed.
End device.
