(* ===== verification/VirtioTheorems.v ===== *)
(** The theorems on the virtio disk driver: it never stops with a panic of its
    own, loses no wake-up, and implements one atomic transfer for each call of
    virtio_disk_rw(). *)

From S2P Require Import Prelude RingBuf Bio VirtioDisk VirtioSpec VirtioInv.

(** ** The abstraction of a step *)

Lemma abs_bufs_alter f b (l : list vbuf) :
  (∀ x, abs_buf (f x) = abs_buf x) → abs_buf <$> alter f b l = abs_buf <$> l.
Proof.
  intros Hf. apply list_eq. intros k. rewrite !list_lookup_fmap.
  destruct (decide (k = b)) as [->|]; [|by rewrite list_lookup_alter_ne].
  rewrite list_lookup_alter_eq. destruct (l !! b); cbn; by rewrite ?Hf.
Qed.

Lemma abs_bufs_insert b x x' (l : list vbuf) :
  l !! b = Some x → abs_buf <$> alter (λ _, x') b l = <[b:=abs_buf x']> (abs_buf <$> l).
Proof.
  intros Hx. rewrite <-list_fmap_insert. f_equal. apply list_eq. intros k.
  destruct (decide (k = b)) as [->|].
  - rewrite list_lookup_alter_eq, Hx, list_lookup_insert_eq; [done|]. by eapply lookup_lt_Some.
  - by rewrite list_lookup_alter_ne, list_lookup_insert_ne.
Qed.

Lemma alter_value {A} (f : A → A) b x (l : list A) :
  l !! b = Some x → alter f b l = alter (λ _, f x) b l.
Proof.
  intros Hx. apply list_eq. intros k. destruct (decide (k = b)) as [->|]; [|by rewrite !list_lookup_alter_ne].
  by rewrite !list_lookup_alter_eq, Hx.
Qed.

Lemma served_frame d d' p :
  (∀ i, tidx p = Some i → at_ (info d') (i0 i) = at_ (info d) (i0 i)) → abs_req d' p = abs_req d p.
Proof.
  intros Hi. unfold abs_req, served. destruct (tidx p) as [i|]; [|done]. by rewrite (Hi i).
Qed.

(** The requests when one thread moves. *)
Lemma abs_reqs_move d d' (m : gmap nat tpc) t p p' r :
  m !! t = Some p → abs_req d' p' = r →
  (∀ t' q, t' ≠ t → m !! t' = Some q → abs_req d' q = abs_req d q) →
  abs_req d' <$> <[t:=p']> m = <[t:=r]> (abs_req d <$> m).
Proof.
  intros Ht Hp Hq. apply map_eq. intros t'. rewrite lookup_fmap. destruct (decide (t' = t)) as [->|Hne].
  - by rewrite !lookup_insert_eq, <-Hp.
  - rewrite !lookup_insert_ne, lookup_fmap by done. destruct (m !! t') as [q|] eqn:E; [|done].
    cbn. by rewrite (Hq t').
Qed.

Lemma abs_reqs_same d d' (m : gmap nat tpc) :
  (∀ t q, m !! t = Some q → abs_req d' q = abs_req d q) → abs_req d' <$> m = abs_req d <$> m.
Proof. intros Hq. apply map_fmap_ext. exact Hq. Qed.

(** A move that the specification does not see. *)
Lemma abs_reqs_quiet d d' (m : gmap nat tpc) t p p' :
  m !! t = Some p → abs_req d' p' = abs_req d p →
  (∀ t' q, t' ≠ t → m !! t' = Some q → abs_req d' q = abs_req d q) →
  abs_req d' <$> <[t:=p']> m = abs_req d <$> m.
Proof.
  intros Ht Hp Hq. rewrite (abs_reqs_move d d' m t p p' _ Ht Hp Hq).
  apply insert_id. by rewrite lookup_fmap, Ht.
Qed.

(** ** Steps *)

Section refinement.
Context (device : dev * vmem → dev * vmem → Prop).
Hypothesis device_doc : ∀ x y, device x y → dev_doc x y.

(** A step keeps the invariant and is a step of the specification or none. *)
Definition simulates (s s' : sys) : Prop := vinv s' ∧ (abs s' = abs s ∨ astep (abs s) (abs s')).

Lemma sim_alloc s qa qu t b w :
  vinv_q s qa qu → s_panic s = None → s_lock s = None →
  s_threads s !! t = Some (TAlloc b w) → v_sleep (s_mem s) !! t = None →
  simulates s (exec s (rw_alloc t b w) (λ r v,
    match r with
    | None => Sys v (s_dev s) (s_threads s) None None
    | Some idx => Sys v (s_dev s) (<[t:=TPublish b w idx]> (s_threads s)) (Some (OThread t)) None
    end)).
Proof.
  intros H Hpan Hlk Ht Hsl. destruct (vi_thread _ _ _ H t _ Ht) as (x & Hx & _). cbn in Hx.
  unfold exec.
  destruct (rw_alloc_ok t b w (s_mem s) x (vi_free _ _ _ H) Hx) as [(i & -> & Hnd & Hf)|(v' & -> & Hu & Hf)].
  - split; [exists qa, qu; by apply vinv_alloc|]. left. unfold abs. cbn [s_mem s_dev s_threads].
    assert (Hr : ∀ k, k ∈ idx_list i → 0 ≤ k < 8).
    { intros k Hk. pose proof (at_Some _ _ _ (Hf k Hk)) as R. rewrite (vi_free _ _ _ H) in R. lia. }
    f_equal.
    + apply abs_bufs_alter. done.
    + eapply abs_reqs_quiet; [done|..].
      * unfold abs_req, served. cbn. destruct (at_is_Some (info (v_disk (s_mem s))) (i0 i)) as [y Hy].
        { rewrite (vi_info _ _ _ H). apply (Hr (i0 i)). auto with virtio. }
        by rewrite (at_alter _ _ _ _ (at_alter _ _ _ _ Hy)).
      * intros t' q Hne Hq. apply served_frame. intros j Hj.
        apply (formatted_same b x w i (s_mem s) (i0 j)); [intros k Hk; by apply Hr|]. intros Hin%Hf.
        pose proof (thread_ok_idx _ _ _ _ _ _ _ _ (vi_thread _ _ _ H t' q Hq) Hj (i0_in j)). congruence.
  - split; [exists qa, qu; by eapply vinv_undone|]. left.
    destruct Hu as (ds & sl & -> & _). unfold abs; cbn. f_equal.
Qed.

Lemma sim_check s qa qu t b w i :
  vinv_q s qa qu → s_panic s = None → s_threads s !! t = Some (TCheck b w i) →
  simulates s (exec s (rw_wait t b i) (λ r v,
    if (r : bool) then Sys v (s_dev s) (delete t (s_threads s)) None None
    else Sys v (s_dev s) (<[t:=TWait b w i]> (s_threads s)) None None)).
Proof.
  intros H Hpan Ht. destruct (vi_thread _ _ _ H t _ Ht) as (x & Hx & _ & _ & Hrq & st & Hst & Hs).
  cbn [tbuf tidx twrite published] in *.
  pose proof (λ k, vi_range _ _ _ H t _ i k Ht eq_refl) as Hr.
  pose proof (vi_lock _ _ _ H t _ Ht eq_refl) as Hlk.
  unfold exec. rewrite (rw_wait_ok t b x w i (s_mem s) Hx Hrq Hr).
  destruct (Z.eqb_spec (vb_disk x) 1) as [Hd|Hd].
  - split.
    + exists qa, qu. eapply vinv_move; [done..| | |done].
      * intros t' c [[<- <-]|[Hne Hc]]%lookup_insert_Some; [|by left].
        right. split; [done|]. split; [eauto|]. by exists x.
      * intros t' q Hne Hq. by eapply vi_no_lock.
    + left. unfold abs; cbn. f_equal. by eapply abs_reqs_quiet.
  - split; [exists qa, qu; by eapply vinv_return|]. right.
    assert (st = 0) as -> by (destruct Hs as [Hs|[Hs|Hs]]; tauto).
    assert (E : abs (Sys (returned i (s_mem s)) (s_dev s) (delete t (s_threads s)) None None) =
      AState (a_bufs (abs s)) (a_medium (abs s)) (delete t (a_reqs (abs s)))).
    { unfold abs. cbn [s_mem s_dev s_threads a_bufs a_medium a_reqs]. f_equal. apply map_eq. intros t'.
      rewrite lookup_fmap. destruct (decide (t' = t)) as [->|Hne]; [by rewrite !lookup_delete_eq|].
      rewrite !lookup_delete_ne, lookup_fmap by done. destruct (s_threads s !! t') as [q|] eqn:Hq; [|done].
      cbn [fmap option_fmap option_map]. f_equal. apply served_frame. intros j Hj.
      apply (returned_same i (s_mem s) (i0 j)); [done|]. intros Hin.
      apply (proj2 (vi_apart _ _ _ H t' t q _ Hne Hq Ht) j i (i0 j)); auto with virtio. }
    rewrite E. apply (as_return _ t b w). cbn. rewrite lookup_fmap, Ht. cbn.
    unfold abs_req, served. cbn. by rewrite Hst.
Qed.

Lemma sim_turn s qa qu :
  vinv_q s qa qu → s_panic s = None → s_lock s = Some OIntr →
  simulates s (exec s intr_turn (λ r v,
    Sys v (s_dev s) (s_threads s) (if (r : bool) then Some OIntr else None) None)).
Proof.
  intros H Hpan Hlk. unfold exec.
  destruct (intr_turn_ok _ _ _ H) as [[-> ->]|[(h & qu' & t & p & x & Eq & Ht & Hh & Hx & _ & -> & Hin)|[-> Hf]]].
  - split; [|by left]. exists qa, []. rewrite <-Hpan. apply vinv_intr; auto.
  - split; [by eapply vinv_seen|]. left. unfold abs; cbn. f_equal. by apply abs_bufs_alter.
  - split; [|by left]. exists qa, qu. destruct H. split; cbn; try done. right. auto.
Qed.

(** The specification's step when the device serves a request. *)
Lemma sim_serve_abs s qa qu h t p i x l1 l2 :
  vinv_q s qa qu → s_threads s !! t = Some p → tidx p = Some i → i0 i = h →
  v_bufs (s_mem s) !! tbuf p = Some x → at_ (info (v_disk (s_mem s))) h = Some (DInfo (Some (tbuf p)) 255) →
  length (vb_data x) = Z.to_nat BSIZE → 0 ≤ vb_blockno x < 2 ^ 32 →
  let pv := transfer (BlkReq (req_type (twrite p)) 0 (sector_of (vb_blockno x))) (tbuf p) BSIZE (dv_medium (s_dev s)) (s_mem s) in
  astep (abs s) (abs (Sys (put_status h 0 pv.2)
    (Dev (dv_last (s_dev s)) (l1 ++ l2) (dv_done (s_dev s) ++ [h]) (dv_failed (s_dev s)) (dv_stray (s_dev s)) pv.1)
    (s_threads s) (s_lock s) (s_panic s))).
Proof.
  intros H Ht Hi Eh Hx Hin Hlen Hbn pv.
  assert (Hsec : sector_of (vb_blockno x) * 512 = block_pos (vb_blockno x)).
  { unfold sector_of, block_pos, BSIZE, u32, wrap. change (1024 / 512) with 2. change (2 ^ 32) with (2 ^ 31 * 2).
    rewrite Z.mul_mod_distr_r by lia. lia. }
  assert (Hreq : abs_req (v_disk (s_mem s)) p = AReq (tbuf p) (twrite p) false)
    by (unfold abs_req, served; by rewrite Hi, Eh, Hin).
  set (d' := set_info (alter (set_in_status 0) (Z.to_nat h)) (v_disk (s_mem s))).
  assert (Hth : abs_req d' <$> s_threads s = <[t:=AReq (tbuf p) (twrite p) true]> (abs_req (v_disk (s_mem s)) <$> s_threads s)).
  { rewrite <-(insert_id (s_threads s) t p) at 1 by done. eapply abs_reqs_move; [done|..].
    - unfold abs_req, served. rewrite Hi, Eh. unfold d'; cbn. by rewrite (at_alter _ _ _ _ Hin).
    - intros t' q Hne Hq. apply served_frame. intros j Hj. unfold d'; cbn. apply at_alter_ne.
      + apply at_Some in Hin. lia.
      + intros E. apply Hne. apply (vi_head_inj _ _ _ H t' t q p j i Hq Ht Hj Hi). congruence. }
  assert (Hat : a_reqs (abs s) !! t = Some (AReq (tbuf p) (twrite p) false))
    by (cbn; rewrite lookup_fmap, Ht; cbn; by rewrite Hreq).
  assert (Hab : a_bufs (abs s) !! tbuf p = Some (vb_blockno x, vb_data x))
    by (cbn; by rewrite list_lookup_fmap, Hx).
  unfold abs at 2. cbn [s_mem s_dev s_threads dv_medium]. unfold pv, transfer. cbn [rq_type rq_sector].
  rewrite Hsec. destruct (twrite p); cbn [req_type].
  - change (VIRTIO_BLK_T_OUT =? VIRTIO_BLK_T_IN) with false. cbn [fst snd]. rewrite Hx.
    rewrite take_ge by lia. cbn. fold d'. rewrite Hth. by eapply as_write.
  - change (VIRTIO_BLK_T_IN =? VIRTIO_BLK_T_IN) with true. cbn [fst snd put_status upd_disk upd_bufs v_disk v_bufs].
    fold d'. rewrite Hth. rewrite (alter_value _ _ _ _ Hx), (abs_bufs_insert _ _ _ _ Hx).
    by eapply (as_read (abs s)).
Qed.

Lemma length_mread p o n : 0 ≤ n → length (mread p o n) = Z.to_nat n.
Proof. intros Hn. unfold mread. by rewrite length_fmap, length_seqZ. Qed.

Lemma vmem_eta v : VMem (v_disk v) (v_bufs v) (v_sleep v) = v.
Proof. by destruct v. Qed.

(** The request of a chain that the device has taken. *)
Lemma vi_taken s qa qu l1 h l2 r b len j :
  vinv_q s qa qu → dv_taken (s_dev s) = l1 ++ h :: l2 → parse_chain (s_mem s) h = Some (r, b, len, j) →
  ∃ t p i x, s_threads s !! t = Some p ∧ published p = true ∧ tidx p = Some i ∧ i0 i = h ∧
    v_bufs (s_mem s) !! tbuf p = Some x ∧ length (vb_data x) = Z.to_nat BSIZE ∧ 0 ≤ vb_blockno x < 2 ^ 32 ∧
    request (v_disk (s_mem s)) (tbuf p) x (twrite p) i ∧
    at_ (info (v_disk (s_mem s))) h = Some (DInfo (Some (tbuf p)) 255) ∧ vb_disk x = 1 ∧
    r = BlkReq (req_type (twrite p)) 0 (sector_of (vb_blockno x)) ∧ b = tbuf p ∧ len = BSIZE ∧ j = h.
Proof.
  intros H Htk Hpc.
  assert (Hpend : h ∈ qa ++ dv_taken (s_dev s)) by (rewrite elem_of_app, Htk, elem_of_app, elem_of_cons; tauto).
  destruct (vi_owner _ _ _ H h) as (t & p & i & x & st & Ht & Hp & Hi & Eh & Hx & Hlen & Hbn & Hrq & Hin & Hs).
  { rewrite elem_of_app. tauto. }
  pose proof (parse_chain_ok _ _ _ _ _ Hrq) as Hpc'. rewrite Eh, Hpc in Hpc'. injection Hpc' as -> -> -> ->.
  assert (st = 255 ∧ vb_disk x = 1) as [-> Hdk] by (destruct Hs as [Hs|[Hs|Hs]]; tauto).
  by exists t, p, i, x.
Qed.

Lemma sim_serve s qa qu l1 h l2 r b len j :
  vinv_q s qa qu → dv_taken (s_dev s) = l1 ++ h :: l2 → parse_chain (s_mem s) h = Some (r, b, len, j) →
  let pv := transfer r b len (dv_medium (s_dev s)) (s_mem s) in
  simulates s (Sys (put_status j 0 pv.2)
    (Dev (dv_last (s_dev s)) (l1 ++ l2) (dv_done (s_dev s) ++ [h]) (dv_failed (s_dev s)) (dv_stray (s_dev s)) pv.1)
    (s_threads s) (s_lock s) (s_panic s)).
Proof.
  intros H Htk Hpc.
  destruct (vi_taken _ _ _ _ _ _ _ _ _ _ H Htk Hpc)
    as (t & p & i & x & Ht & Hp & Hi & Eh & Hx & Hlen & Hbn & Hrq & Hin & Hdk & -> & -> & -> & ->).
  intros pv. split; [|right; by eapply sim_serve_abs]. subst pv.
  unfold transfer. cbn [rq_type rq_sector]. destruct (twrite p) eqn:Ew; cbn [req_type].
  - change (VIRTIO_BLK_T_OUT =? VIRTIO_BLK_T_IN) with false. cbn [fst snd].
    rewrite <-(vmem_eta (s_mem s)) at 1. eapply vinv_served; eauto. by rewrite Ew.
  - change (VIRTIO_BLK_T_IN =? VIRTIO_BLK_T_IN) with true. cbn [fst snd].
    eapply (vinv_served s qa qu H _ _ _ t p i x _ _ (set_buf_data _ x)); eauto.
    + by rewrite Ew.
    + by rewrite list_lookup_alter_eq, Hx.
    + intros b Hb. by apply list_lookup_alter_ne, not_eq_sym.
    + by apply length_mread.
Qed.

Lemma sim_error s qa qu l1 h l2 r b len j st :
  vinv_q s qa qu → dv_taken (s_dev s) = l1 ++ h :: l2 → parse_chain (s_mem s) h = Some (r, b, len, j) →
  st = 1 ∨ st = 2 →
  simulates s (Sys (put_status j st (s_mem s))
    (Dev (dv_last (s_dev s)) (l1 ++ l2) (dv_done (s_dev s) ++ [h]) true (dv_stray (s_dev s)) (dv_medium (s_dev s)))
    (s_threads s) (s_lock s) (s_panic s)).
Proof.
  intros H Htk Hpc Hst.
  destruct (vi_taken _ _ _ _ _ _ _ _ _ _ H Htk Hpc)
    as (t & p & i & x & Ht & Hp & Hi & Eh & Hx & Hlen & Hbn & Hrq & Hin & Hdk & -> & -> & -> & ->).
  split.
  - rewrite <-(vmem_eta (s_mem s)) at 1. eapply vinv_served; eauto.
  - left. unfold abs. cbn [s_mem s_dev s_threads dv_medium]. f_equal. apply abs_reqs_same. intros t' q Hq.
    destruct (decide (t' = t)) as [->|Hne].
    + rewrite Ht in Hq. injection Hq as <-. unfold abs_req, served. rewrite Hi, Eh. cbn.
      rewrite (at_alter _ _ _ _ Hin), Hin. by destruct Hst as [-> | ->].
    + apply served_frame. intros j Hj. cbn. apply at_alter_ne.
      * apply at_Some in Hin. lia.
      * intros E. apply Hne, (vi_head_inj _ _ _ H t' t q p j i Hq Ht Hj Hi). congruence.
Qed.

Lemma sim_device s x v :
  vinv s → device (s_dev s, s_mem s) (x, v) →
  simulates s (Sys v x (s_threads s) (s_lock s) (s_panic s)).
Proof using device_doc.
  intros (qa & qu & H) Hdev%device_doc.
  inversion Hdev as [x0 v0 h Hne Hat|x0 v0 l1 h l2 r b len j Htk Hpc pv|x0 v0 l1 h l2 r b len j st Htk Hpc Hst
    |x0 v0 h Hin Hpc|x0 v0 l1 h l2 Hdn]; subst x0 v0 x v; clear Hdev.
  - split; [by eapply vinv_take|by left].
  - by eapply sim_serve.
  - by eapply sim_error.
  - exfalso. destruct (vi_owner _ _ _ H h) as (t & p & i & x & st & _ & _ & _ & Eh & _ & _ & _ & Hrq & _).
    { rewrite !elem_of_app. tauto. }
    pose proof (parse_chain_ok _ _ _ _ _ Hrq). congruence.
  - split; [by eapply vinv_used|by left].
Qed.

(** Every step of the system. *)
Lemma sim_step s s' : vinv s → vstep device s s' → simulates s s'.
Proof using device_doc.
  intros (qa & qu & H) [t b w x Hpan Ht Hx Hl Hn Hb|b f Hpan Hb Hf|t b w Hpan Hlk Ht Hsl|t b w i Hpan Ht
    |t b w i Hpan Ht|t b w i Hpan Hlk Ht Hsl|t Hpan|Hpan Hlk|Hpan Hlk|x v Hdev].
  - split; [exists qa, qu; by eapply vinv_call|]. right. unfold abs at 2. cbn [s_mem s_dev s_threads].
    rewrite fmap_insert. apply as_call; cbn.
    + by rewrite lookup_fmap, Ht.
    + intros t' r. cbn. rewrite lookup_fmap. destruct (s_threads s !! t') as [p|] eqn:Hp; [|done].
      intros [= <-]. by apply (Hb t').
  - split; [exists qa, qu; by apply vinv_kernel|].
    unfold abs at 1 4. cbn [s_mem s_dev s_threads upd_bufs v_bufs v_disk].
    destruct (v_bufs (s_mem s) !! b) as [x|] eqn:Hx.
    + right. rewrite (alter_value _ _ _ _ Hx), (abs_bufs_insert _ _ _ _ Hx). apply (as_kernel (abs s)).
      intros t' r. cbn. rewrite lookup_fmap. destruct (s_threads s !! t') as [p|] eqn:Hp; [|done].
      intros [= <-]. by apply (Hb t').
    + left. unfold abs. f_equal. f_equal. apply list_eq. intros k.
      destruct (decide (k = b)) as [->|]; [by rewrite list_lookup_alter_eq, Hx|by rewrite list_lookup_alter_ne].
  - by eapply sim_alloc.
  - split; [exists (qa ++ [i0 i]), qu; by eapply vinv_publish|]. left. unfold abs; cbn. f_equal.
    by eapply abs_reqs_quiet.
  - by eapply sim_check.
  - split.
    + exists qa, qu. rewrite <-(vmem_eta (s_mem s)) at 1. eapply vinv_move; eauto.
      * intros t' c Hc. left. split; [|done]. intros ->. congruence.
      * intros t' q Hne Hq. by eapply vi_no_lock_none; [|left|].
    + left. unfold abs; cbn. f_equal. by eapply abs_reqs_quiet.
  - split; [|by left]. exists qa, qu. rewrite <-Hpan. apply vinv_wake; [done|]. apply delete_subseteq.
  - split; [|by left]. exists qa, qu. rewrite <-Hpan. apply vinv_intr; auto.
  - by eapply sim_turn.
  - apply sim_device; [by exists qa, qu|done].
Qed.

Lemma vinv_init s : vinit s → vinv s.
Proof.
  intros (bufs & p & _ & ->). exists [], [].
  split; cbn [s_mem s_dev s_threads s_lock s_panic v_disk v_bufs v_sleep]; try done; try (by left).
  - cbn. intros h Hh. by apply elem_of_nil in Hh.
  - intros k Hk. exfalso. unfold at_ in Hk. destruct (Z.ltb_spec k 0); [done|].
    apply lookup_replicate in Hk as [? _]. done.
Qed.

Lemma vinv_reach s : vreach device s → vinv s.
Proof using device_doc.
  intros (s0 & H0%vinv_init & Hrun). induction Hrun as [|s1 s2 s3 Hs _ IH]; [done|].
  apply IH. by apply (sim_step s1 s2).
Qed.
End refinement.

(** ** A device that serves the requests in order *)

Definition fifo (xv : dev * vmem) : option (dev * vmem) :=
  let '(x, v) := xv in
  match dv_done x, dv_taken x with
  | h :: l, _ =>
      Some (Dev (dv_last x) (dv_taken x) l (dv_failed x) (dv_stray x) (dv_medium x),
        upd_disk (λ d, set_used (wr (used_dev_idx d mod NUM) h (used_ring d)) (u16 (used_dev_idx d + 1)) d) v)
  | [], h :: l =>
      match parse_chain v h with
      | Some (r, b, len, j) =>
          let pv := transfer r b len (dv_medium x) v in
          Some (Dev (dv_last x) l [h] (dv_failed x) (dv_stray x) pv.1, put_status j 0 pv.2)
      | None => None
      end
  | [], [] =>
      if dv_last x =? avail_idx (v_disk v) then None
      else
        h ← at_ (avail_ring (v_disk v)) (dv_last x mod NUM);
        Some (Dev (u16 (dv_last x + 1)) [h] [] (dv_failed x) (dv_stray x) (dv_medium x), v)
  end.
Definition fifo_device (xv yw : dev * vmem) : Prop := fifo xv = Some yw.

Lemma fifo_doc x y : fifo_device x y → dev_doc x y.
Proof.
  unfold fifo_device, fifo. destruct x as [x v]. destruct (dv_done x) as [|h l] eqn:Ed.
  - destruct (dv_taken x) as [|h l] eqn:Et.
    + destruct (Z.eqb_spec (dv_last x) (avail_idx (v_disk v))); [done|].
      destruct (at_ _ _) as [h|] eqn:Eh; [|done]. cbn. intros [= <-].
      pose proof (dev_take x v h) as D. rewrite Et, Ed in D. by apply D.
    + destruct (parse_chain v h) as [[[[r b] len] j]|] eqn:Ep; [|done]. intros [= <-].
      pose proof (dev_serve x v [] h l r b len j) as D. rewrite Ed in D. by apply D.
  - intros [= <-]. by apply (dev_used x v [] h l).
Qed.

(** Two buffers, block 3 of the medium read into the first. *)
Definition run_medium : medium := λ a, a mod 251.
Definition run_init : sys :=
  Sys (VMem init_disk [VBuf 3 0 (replicate 1024 0); VBuf 5 0 (replicate 1024 7)] ∅)
    (Dev 0 [] [] false false run_medium) ∅ None None.

(** The rest of [step_call], [step_alloc], [step_publish] and [step_check] as
    functions, for the request of thread 1 on buffer 0. *)
Definition run_call (s : sys) : sys :=
  Sys (s_mem s) (s_dev s) (<[1%nat:=TAlloc 0 false]> (s_threads s)) (s_lock s) None.
Definition run_alloc (s : sys) : sys :=
  exec s (rw_alloc 1 0 false) (λ r v,
    match r with
    | None => Sys v (s_dev s) (s_threads s) None None
    | Some idx => Sys v (s_dev s) (<[1%nat:=TPublish 0 false idx]> (s_threads s)) (Some (OThread 1)) None
    end).
Definition run_publish (s : sys) : sys :=
  exec s rw_publish (λ _ v, Sys v (s_dev s) (<[1%nat:=TCheck 0 false (Idx3 0 1 2)]> (s_threads s)) (s_lock s) None).
Definition run_device (s : sys) : sys :=
  match fifo (s_dev s, s_mem s) with
  | Some (x, v) => Sys v x (s_threads s) (s_lock s) (s_panic s)
  | None => s
  end.
Definition run_sleep (s : sys) : sys :=
  exec s (rw_wait 1 0 (Idx3 0 1 2)) (λ r v,
    if (r : bool) then Sys v (s_dev s) (delete 1%nat (s_threads s)) None None
    else Sys v (s_dev s) (<[1%nat:=TWait 0 false (Idx3 0 1 2)]> (s_threads s)) None None).

(** The request is taken by the device, the thread sleeps. *)
Definition run_taken : sys := run_device (run_sleep (run_publish (run_alloc (run_call run_init)))).

Lemma run_taken_reach : vreach fifo_device run_taken.
Proof.
  exists run_init. split.
  { exists [VBuf 3 0 (replicate 1024 0); VBuf 5 0 (replicate 1024 7)], run_medium. split; [|done]. by repeat constructor. }
  apply (rtc_r _ (run_sleep (run_publish (run_alloc (run_call run_init))))).
  - eapply rtc_l; [eapply (step_call fifo_device run_init 1 0 false); [done|done|done|done|cbn; lia|by intros t p Hp]|].
    eapply rtc_l; [apply (step_alloc fifo_device (run_call run_init) 1 0 false); done|].
    eapply rtc_l; [apply (step_publish fifo_device (run_alloc (run_call run_init)) 1 0 false (Idx3 0 1 2)); vm_compute; done|].
    apply rtc_once. apply (step_check fifo_device (run_publish (run_alloc (run_call run_init))) 1 0 false (Idx3 0 1 2)); vm_compute; done.
  - unfold run_taken, run_device at 1.
    destruct (fifo _) as [[x v]|] eqn:E; [by apply step_device|by vm_compute in E].
Qed.

(** ** The theorems *)

(** C18: The disk driver implements the atomic transfer of a block.  For any
    device that follows the virtio specification, in any order of serving and
    announcing requests, every step of the threads in virtio_disk_rw(), of
    the interrupt handler and of the device is a step of the specification or
    invisible to it; in the specification a request is called, transfers its
    block exactly once between the medium and its own buffer, and returns only
    after that.  The block is at BSIZE times the block number, reduced modulo
    2^31: the driver computes the sector in 32 bits. *)
Theorem virtio_disk_refines (device : dev * vmem → dev * vmem → Prop) s s' :
  (∀ x y, device x y → dev_doc x y) →
  vreach device s → vstep device s s' →
  abs s' = abs s ∨ astep (abs s) (abs s').
Proof. intros Hdoc Hs Hstep. apply (sim_step device Hdoc s s'); [by eapply vinv_reach|done]. Qed.

Lemma virtio_disk_refines_witness :
  abs (run_device run_taken) = abs run_taken ∨ astep (abs run_taken) (abs (run_device run_taken)).
Proof.
  apply (virtio_disk_refines fifo_device); [apply fifo_doc|apply run_taken_reach|].
  unfold run_device. destruct (fifo _) as [[x v]|] eqn:E; [by apply step_device|by vm_compute in E].
Defined.

(** C30: The disk driver is safe.  In every reachable state the kernel has not
    panicked, unless the device reported an error; the device was never given
    a chain of descriptors that is not a block request; no thread sleeps on a
    buffer the disk is done with, and none sleeps for descriptors while three
    are free; and when no request is under way every descriptor is free. *)
Theorem virtio_disk_safe (device : dev * vmem → dev * vmem → Prop) s :
  (∀ x y, device x y → dev_doc x y) → vreach device s →
  (dv_failed (s_dev s) = false → s_panic s = None) ∧
  dv_stray (s_dev s) = false ∧
  (∀ t b, v_sleep (s_mem s) !! t = Some (WBuf b) → ∃ x, v_bufs (s_mem s) !! b = Some x ∧ vb_disk x = 1) ∧
  (∀ t, v_sleep (s_mem s) !! t = Some WFree → few_free (free (v_disk (s_mem s)))) ∧
  (s_threads s = ∅ → ∀ k, 0 ≤ k < NUM → at_ (free (v_disk (s_mem s))) k = Some true).
Proof.
  intros Hdoc Hs. destruct (vinv_reach device Hdoc s Hs) as (qa & qu & H). split_and!.
  - intros Hf. destruct (vi_panic _ _ _ H) as [?|[_ ?]]; congruence.
  - by apply (vi_stray _ _ _ H).
  - intros t b Ht. destruct (vi_sleep _ _ _ H t _ Ht) as (p & _ & _ & x & ? & ?). by exists x.
  - intros t Ht. by destruct (vi_sleep _ _ _ H t _ Ht) as (p & _ & _ & ?).
  - intros Ht k Hk. destruct (at_is_Some (free (v_disk (s_mem s))) k) as [[] E]; [|done|].
    + rewrite (vi_free _ _ _ H). done.
    + destruct (vi_busy _ _ _ H k E) as (t & p & i & Hp & _). by rewrite Ht in Hp.
Qed.

Lemma virtio_disk_safe_witness :
  v_sleep (s_mem run_taken) !! 1%nat = Some (WBuf 0) ∧
  (dv_failed (s_dev run_taken) = false → s_panic run_taken = None).
Proof.
  split; [vm_compute; reflexivity|].
  apply (virtio_disk_safe fifo_device run_taken fifo_doc run_taken_reach).
Defined.
