(* ===== verification/Sh.v ===== *)
(** The command parser of user/sh.c.

    The text of a line stays where gets() put it; the parser moves one pointer
    over it and builds a tree whose words are pairs of pointers into the text,
    which nulterminate() at the end turns into C strings by storing a 0 behind
    each of them. *)

From S2P Require Import Prelude Riscv Bytes Ulib.

Definition MAXARGS : nat := 10.

(** struct execcmd, redircmd, pipecmd, listcmd and backcmd; a word is the pair
    of the pointers to its first byte and to the byte behind it. *)
Inductive pcmd : Type :=
| EXEC (argv : list (nat * nat))
| REDIR (c : pcmd) (file efile : nat) (mode fd : Z)
| PIPE (left right : pcmd)
| LIST (left right : pcmd)
| BACK (c : pcmd).

(** The constructors; malloc() is taken to have room for a node. *)
Definition execcmd : pcmd := EXEC [].
Definition redircmd (subcmd : pcmd) (file efile : nat) (mode fd : Z) : pcmd := REDIR subcmd file efile mode fd.
Definition pipecmd (left right : pcmd) : pcmd := PIPE left right.
Definition listcmd (left right : pcmd) : pcmd := LIST left right.
Definition backcmd (subcmd : pcmd) : pcmd := BACK subcmd.

(** panic(); the message about the text that is left over, followed by panic();
    and the end of the fuel. *)
Inductive serr : Type := SPanic (msg : string) | SLeftovers (s : list Z) (msg : string) | SFuel.

Definition whitespace : list Z := [32; 9; 13; 10; 11].
Definition symbols : list Z := [60; 124; 62; 38; 59; 40; 41].
(** strchr(s, c) != 0 *)
Definition strchr_in (s : list Z) (c : Z) : bool :=
  match strchr s c with Some _ => true | None => false end.
Definition is_ws (c : Z) : bool := strchr_in whitespace c.
Definition is_sym (c : Z) : bool := strchr_in symbols c.
Definition is_word (c : Z) : bool := negb (is_ws c) && negb (is_sym c).

(** The characters of the grammar. *)
Abbreviation c_bar := 124.
Abbreviation c_amp := 38.
Abbreviation c_semi := 59.
Abbreviation c_open := 40.
Abbreviation c_close := 41.
Abbreviation c_lt := 60.
Abbreviation c_gt := 62.
Abbreviation c_plus := 43.
Abbreviation c_a := 97.

Section parser.
(** The memory that holds the text, and the pointer to the 0 at its end. *)
Context (mem : list Z) (es : nat).

(** *s *)
Definition ch (s : nat) : Z := default 0 (mem !! s).

(** while(s < es && p( *s)) s++; [n] is es - s. *)
Fixpoint skip_while (p : Z → bool) (n s : nat) : nat :=
  match n with
  | O => s
  | S n => if p (ch s) then skip_while p n (S s) else s
  end.
Definition skip_ws (s : nat) : nat := skip_while is_ws (es - s) s.

(** The state is *ps. *)
Abbreviation P := (M serr nat).
Definition ps : P nat := get.
Definition set_ps (s : nat) : P unit := modify (λ _, s).

(** The switch over the first character of a token: the token and eq. *)
Definition scan_token (q : nat) : Z * nat :=
  let c := ch q in
  if c =? 0 then (c, q)
  else if strchr_in [c_bar; c_open; c_close; c_semi; c_amp; c_lt] c then (c, S q)
  else if c =? c_gt then
    if ch (S q) =? c_gt then (c_plus, S (S q)) else (c, S q)
  else (c_a, skip_while is_word (es - q) q).

(** The result is the token with q and eq. *)
Definition gettoken : P (Z * nat * nat) :=
  s ← ps;
  let q := skip_ws s in
  let '(ret, eq) := scan_token q in
  set_ps (skip_ws eq);;
  mret (ret, q, eq).

Definition peek (toks : list Z) : P bool :=
  s ← ps;
  let s := skip_ws s in
  set_ps s;;
  mret (negb (ch s =? 0) && strchr_in toks (ch s)).

(** The switch of parseredirs(): O_RDONLY; O_WRONLY|O_CREATE|O_TRUNC;
    O_WRONLY|O_CREATE *)
Definition redir_switch (tok : Z) (c : pcmd) (q eq : nat) : pcmd :=
  if tok =? c_lt then redircmd c q eq O_RDONLY 0
  else if tok =? c_gt then redircmd c q eq (Z.lor (Z.lor O_WRONLY O_CREATE) O_TRUNC) 1
  else if tok =? c_plus then redircmd c q eq (Z.lor O_WRONLY O_CREATE) 1
  else c.

Definition parseredirs : pcmd → P pcmd :=
  iterM SFuel (S es) (λ c,
    b ← peek [c_lt; c_gt];
    if (b : bool) then
      '(tok, _, _) ← gettoken;
      '(t, q, eq) ← gettoken;
      if negb (t =? c_a) then fail (SPanic "missing file for redirection")
      else mret (inl (redir_switch tok c q eq))
    else mret (inr c)).

(** cmd->argv[argc] = q; cmd->eargv[argc] = eq, where cmd is the struct
    execcmd that ret is, or that the redirections of ret end in. *)
Fixpoint push_arg (ret : pcmd) (q eq : nat) : pcmd :=
  match ret with
  | REDIR c f e m fd => REDIR (push_arg c q eq) f e m fd
  | EXEC argv => EXEC (argv ++ [(q, eq)])
  | c => c
  end.

(** The loop of parseexec() over the words. *)
Definition arg_turn : pcmd * nat → P (pcmd * nat + pcmd) := λ '(ret, argc),
  b ← peek [c_bar; c_close; c_amp; c_semi];
  if (b : bool) then mret (inr ret)
  else
    '(tok, q, eq) ← gettoken;
    if tok =? 0 then mret (inr ret)
    else if negb (tok =? c_a) then fail (SPanic "syntax")
    else
      let ret := push_arg ret q eq in
      let argc := S argc in
      if (MAXARGS <=? argc)%nat then fail (SPanic "too many args")
      else ret ← parseredirs ret; mret (inl (ret, argc)).
Definition parseargs (ret : pcmd) : P pcmd := iterM SFuel (S es) arg_turn (ret, 0%nat).

(** The loop of parseline() over the &s. *)
Definition parsebacks : pcmd → P pcmd :=
  iterM SFuel (S es) (λ c,
    b ← peek [c_amp];
    if (b : bool) then gettoken;; mret (inl (backcmd c)) else mret (inr c)).

Fixpoint parseline (fuel : nat) : P pcmd :=
  match fuel with
  | O => fail SFuel
  | S fuel =>
      c ← parsepipe fuel;
      c ← parsebacks c;
      b ← peek [c_semi];
      if (b : bool) then
        gettoken;;
        r ← parseline fuel;
        mret (listcmd c r)
      else mret c
  end
with parsepipe (fuel : nat) : P pcmd :=
  match fuel with
  | O => fail SFuel
  | S fuel =>
      c ← parseexec fuel;
      b ← peek [c_bar];
      if (b : bool) then
        gettoken;;
        r ← parsepipe fuel;
        mret (pipecmd c r)
      else mret c
  end
with parseexec (fuel : nat) : P pcmd :=
  match fuel with
  | O => fail SFuel
  | S fuel =>
      b ← peek [c_open];
      if (b : bool) then parseblock fuel
      else
        ret ← parseredirs execcmd;
        parseargs ret
  end
with parseblock (fuel : nat) : P pcmd :=
  match fuel with
  | O => fail SFuel
  | S fuel =>
      b ← peek [c_open];
      if negb b then fail (SPanic "parseblock")
      else
        gettoken;;
        c ← parseline fuel;
        b ← peek [c_close];
        if negb b then fail (SPanic "syntax - missing )")
        else gettoken;; parseredirs c
  end.
End parser.

Fixpoint nulterminate (c : pcmd) (mem : list Z) : list Z :=
  match c with
  | EXEC argv => fold_left (λ m w, <[w.2:=0]> m) argv mem
  | REDIR c _ e _ _ => <[e:=0]> (nulterminate c mem)
  | PIPE l r | LIST l r => nulterminate r (nulterminate l mem)
  | BACK c => nulterminate c mem
  end.

(** The result is the tree and the memory with the terminated words.  Each
    level of recursion is four calls deep and begins with a symbol. *)
Definition parsecmd (mem : list Z) : serr + pcmd * list Z :=
  let es := Z.to_nat (strlen mem) in
  match (c ← parseline mem es (4 * es + 4); peek mem es [];; mret c) 0%nat with
  | Err e _ => inl e
  | Ok c s =>
      if bool_decide (s ≠ es) then inl (SLeftovers (cstr (drop s mem)) "syntax")
      else inr (c, nulterminate c mem)
  end.
