(* ===== verification/ShSpec.v ===== *)
(** The grammar of the shell, and the theorem that the parser of sh.c decides
    it: it accepts exactly the lines of the grammar, with their trees. *)

From S2P Require Import Prelude Riscv Bytes Ulib Sh.

(** ** Tokens *)

(** A symbol, with + for >>, or a word. *)
Inductive tok : Type := TSym (c : Z) | TWord (w : list Z).

(** The word read so far, if any. *)
Definition flush (cur : list Z) : list tok :=
  match cur with [] => [] | _ => [TWord cur] end.

Fixpoint lex_from (cur : list Z) (s : list Z) : list tok :=
  match s with
  | [] => flush cur
  | c :: s' =>
      if is_ws c then flush cur ++ lex_from [] s'
      else if c =? c_gt then
        flush cur ++
        match s' with
        | d :: s'' => if d =? c_gt then TSym c_plus :: lex_from [] s'' else TSym c :: lex_from [] s'
        | [] => [TSym c]
        end
      else if is_sym c then flush cur ++ TSym c :: lex_from [] s'
      else lex_from (cur ++ [c]) s'
  end.
Definition lex (s : list Z) : list tok := lex_from [] s.

(** ** The grammar *)

(** <file, >file or >>file *)
Record redir : Type := Redir { rd_op : Z; rd_file : list Z }.

Inductive line : Type :=
| LLast (p : pline) (backs : nat)
| LMore (p : pline) (backs : nat) (l : line)
with pline : Type :=
| PLast (e : ecmd)
| PMore (e : ecmd) (p : pline)
with ecmd : Type :=
| EBlock (l : line) (rs : list redir)
| EWords (rs : list redir) (ws : list (list Z * list redir)).

Scheme line_mut := Induction for line Sort Prop
with pline_mut := Induction for pline Sort Prop
with ecmd_mut := Induction for ecmd Sort Prop.
Combined Scheme grammar_ind from line_mut, pline_mut, ecmd_mut.

Definition redir_toks (r : redir) : list tok := [TSym (rd_op r); TWord (rd_file r)].
Definition word_toks (w : list Z * list redir) : list tok := TWord w.1 :: (w.2 ≫= redir_toks).

Fixpoint line_toks (l : line) : list tok :=
  match l with
  | LLast p n => pline_toks p ++ replicate n (TSym c_amp)
  | LMore p n l => pline_toks p ++ replicate n (TSym c_amp) ++ TSym c_semi :: line_toks l
  end
with pline_toks (p : pline) : list tok :=
  match p with
  | PLast e => ecmd_toks e
  | PMore e p => ecmd_toks e ++ TSym c_bar :: pline_toks p
  end
with ecmd_toks (e : ecmd) : list tok :=
  match e with
  | EBlock l rs => TSym c_open :: line_toks l ++ TSym c_close :: (rs ≫= redir_toks)
  | EWords rs ws => (rs ≫= redir_toks) ++ (ws ≫= word_toks)
  end.

Definition is_redir (c : Z) : Prop := c = c_lt ∨ c = c_gt ∨ c = c_plus.
Definition redirs_wf (rs : list redir) : Prop := Forall (λ r, is_redir (rd_op r)) rs.

(** At most nine words. *)
Fixpoint line_wf (l : line) : Prop :=
  match l with
  | LLast p n => pline_wf p
  | LMore p n l => pline_wf p ∧ line_wf l
  end
with pline_wf (p : pline) : Prop :=
  match p with
  | PLast e => ecmd_wf e
  | PMore e p => ecmd_wf e ∧ pline_wf p
  end
with ecmd_wf (e : ecmd) : Prop :=
  match e with
  | EBlock l rs => line_wf l ∧ redirs_wf rs
  | EWords rs ws => redirs_wf rs ∧ Forall (λ w, redirs_wf w.2) ws ∧ (length ws < MAXARGS)%nat
  end.

(** ** Commands *)

Inductive cmd : Type :=
| CExec (argv : list (list Z))
| CRedir (c : cmd) (file : list Z) (mode fd : Z)
| CPipe (left right : cmd)
| CList (left right : cmd)
| CBack (c : cmd).

Definition redirect (c : cmd) (r : redir) : cmd :=
  if rd_op r =? c_lt then CRedir c (rd_file r) O_RDONLY 0
  else if rd_op r =? c_gt then CRedir c (rd_file r) (Z.lor (Z.lor O_WRONLY O_CREATE) O_TRUNC) 1
  else CRedir c (rd_file r) (Z.lor O_WRONLY O_CREATE) 1.

Fixpoint line_cmd (l : line) : cmd :=
  match l with
  | LLast p n => Nat.iter n CBack (pline_cmd p)
  | LMore p n l => CList (Nat.iter n CBack (pline_cmd p)) (line_cmd l)
  end
with pline_cmd (p : pline) : cmd :=
  match p with
  | PLast e => ecmd_cmd e
  | PMore e p => CPipe (ecmd_cmd e) (pline_cmd p)
  end
with ecmd_cmd (e : ecmd) : cmd :=
  match e with
  | EBlock l rs => fold_left redirect rs (line_cmd l)
  | EWords rs ws => fold_left redirect (rs ++ (ws ≫= snd)) (CExec (fst <$> ws))
  end.

(** The tree of the parser with its words as strings; [str] reads a word. *)
Fixpoint denote (str : nat * nat → list Z) (c : pcmd) : cmd :=
  match c with
  | EXEC argv => CExec (str <$> argv)
  | REDIR c q e m fd => CRedir (denote str c) (str (q, e)) m fd
  | PIPE l r => CPipe (denote str l) (denote str r)
  | LIST l r => CList (denote str l) (denote str r)
  | BACK c => CBack (denote str c)
  end.

(** The words of a tree. *)
Fixpoint pwords (c : pcmd) : list (nat * nat) :=
  match c with
  | EXEC argv => argv
  | REDIR c q e _ _ => pwords c ++ [(q, e)]
  | PIPE l r | LIST l r => pwords l ++ pwords r
  | BACK c => pwords c
  end.

(** ** Characters *)

Lemma strchr_in_spec s c : Forall (λ x, x ≠ 0) s → strchr_in s c = bool_decide (c ∈ s).
Proof.
  unfold strchr_in. induction 1 as [|x s Hx _ IH]; [done|]. cbn.
  destruct (Z.eqb_spec x 0); [done|]. destruct (Z.eqb_spec x c) as [->|Hne].
  - symmetry. apply bool_decide_true. by left.
  - destruct (strchr s c); cbn in *; rewrite IH; apply bool_decide_ext; rewrite elem_of_cons; naive_solver.
Qed.

Lemma is_ws_spec c : is_ws c = true ↔ c ∈ whitespace.
Proof. unfold is_ws. rewrite strchr_in_spec by (by repeat constructor). apply bool_decide_eq_true. Qed.

Lemma is_sym_spec c : is_sym c = true ↔ c ∈ symbols.
Proof. unfold is_sym. rewrite strchr_in_spec by (by repeat constructor). apply bool_decide_eq_true. Qed.

Lemma is_ws_sym c : is_sym c = true → is_ws c = false.
Proof.
  rewrite is_sym_spec. unfold symbols. intros Hc. 
  repeat (apply elem_of_cons in Hc as [->|Hc]; [done|]). by apply elem_of_nil in Hc.
Qed.

Lemma is_word_split c : is_word c = true ↔ is_ws c = false ∧ is_sym c = false.
Proof. unfold is_word. destruct (is_ws c), (is_sym c); naive_solver. Qed.

(** ** The tokens of a text *)

Lemma lex_ws c s : is_ws c = true → lex (c :: s) = lex s.
Proof. unfold lex. cbn. by intros ->. Qed.

Lemma lex_ws_app w s : Forall (λ c, is_ws c = true) w → lex (w ++ s) = lex s.
Proof. induction 1 as [|c w Hc _ IH]; [done|]. by rewrite <-app_comm_cons, lex_ws. Qed.

Lemma lex_gt s : lex (c_gt :: c_gt :: s) = TSym c_plus :: lex s.
Proof. done. Qed.

Lemma lex_gt_one s : hd_error s ≠ Some c_gt → lex (c_gt :: s) = TSym c_gt :: lex s.
Proof.
  intros Hs. unfold lex. cbn. destruct s as [|d s]; [done|]. cbn in Hs.
  destruct (Z.eqb_spec d c_gt) as [->|]; done.
Qed.

Lemma lex_sym c s : is_sym c = true → c ≠ c_gt → lex (c :: s) = TSym c :: lex s.
Proof.
  intros Hc Hne. unfold lex. cbn. rewrite (is_ws_sym c Hc), Hc. by destruct (Z.eqb_spec c c_gt).
Qed.

Lemma lex_from_word cur w s :
  Forall (λ c, is_word c = true) w → lex_from cur (w ++ s) = lex_from (cur ++ w) s.
Proof.
  intros Hw. revert cur. induction Hw as [|c w Hc _ IH]; intros cur; cbn; [by rewrite app_nil_r|].
  apply is_word_split in Hc as [-> Hsym]. rewrite Hsym. destruct (Z.eqb_spec c c_gt) as [->|]; [done|].
  by rewrite IH, <-(assoc_L (++)).
Qed.

Lemma lex_from_end cur s :
  cur ≠ [] → (∀ c, hd_error s = Some c → is_word c = false) → lex_from cur s = TWord cur :: lex s.
Proof.
  intros Hc Hs. destruct cur as [|x cur]; [done|]. destruct s as [|c s]; [done|].
  specialize (Hs c eq_refl). unfold lex. cbn [lex_from flush app].
  destruct (is_ws c) eqn:E1; [done|]. destruct (c =? c_gt); [done|]. destruct (is_sym c) eqn:E2; [done|].
  unfold is_word in Hs. by rewrite E1, E2 in Hs.
Qed.

Lemma lex_word w s :
  w ≠ [] → Forall (λ c, is_word c = true) w → (∀ c, hd_error s = Some c → is_word c = false) →
  lex (w ++ s) = TWord w :: lex s.
Proof. intros Hw Hf Hs. unfold lex. rewrite lex_from_word by done. by apply lex_from_end. Qed.

(** ** The text in memory *)

Section text.
Context (text junk : list Z).
Hypothesis Htext : Forall (λ c, c ≠ 0) text.

Local Abbreviation mem := (text ++ 0 :: junk).
Local Abbreviation es := (length text).

Definition toks_at (s : nat) : list tok := lex (drop s text).
Definition sub (q e : nat) : list Z := take (e - q) (drop q text).

Lemma ch_lt s c : text !! s = Some c → ch mem s = c.
Proof using. intros E. unfold ch. by rewrite lookup_app_l_Some with (x := c). Qed.

Lemma ch_end : ch mem es = 0.
Proof using. unfold ch. by rewrite list_lookup_middle. Qed.

Lemma ch_drop s : (s ≤ es)%nat → ch mem s = default 0 (hd_error (drop s text)).
Proof using.
  intros Hs. destruct (decide (s = es)) as [->|]; [by rewrite ch_end, drop_ge|].
  destruct (lookup_is_Some text s) as [c Hc]; [lia|]. rewrite (ch_lt s c Hc). by rewrite (drop_S _ _ _ Hc).
Qed.

Lemma ch_zero s : (s ≤ es)%nat → ch mem s = 0 → s = es.
Proof using Htext.
  intros Hs Hc. destruct (decide (s = es)); [done|]. destruct (lookup_is_Some text s) as [c E]; [lia|].
  rewrite (ch_lt s c E) in Hc. by destruct (Forall_lookup_1 _ _ _ _ Htext E).
Qed.

(** A loop over characters stops at the end or at the first other one. *)
Lemma skip_while_ok p n s :
  (s + n = es)%nat →
  let s' := skip_while mem p n s in
  (s ≤ s' ≤ es)%nat ∧ drop s text = sub s s' ++ drop s' text ∧
  Forall (λ c, p c = true) (sub s s') ∧ (∀ c, hd_error (drop s' text) = Some c → p c = false).
Proof using.
  revert s. induction n as [|n IH]; intros s Hn; cbn [skip_while]; cbv zeta.
  - unfold sub. rewrite Nat.sub_diag, take_0. rewrite drop_ge by lia. split; [lia|]. done.
  - destruct (lookup_is_Some text s) as [c Hc]; [lia|]. rewrite (ch_lt s c Hc).
    destruct (p c) eqn:Hp.
    + destruct (IH (S s) ltac:(lia)) as (Hle & Hd & Hf & Hh). split; [lia|].
      assert (Es : sub s (skip_while mem p n (S s)) = c :: sub (S s) (skip_while mem p n (S s))).
      { unfold sub. rewrite (drop_S _ _ _ Hc). by replace (_ - s)%nat with (S (skip_while mem p n (S s) - S s)) by lia. }
      rewrite Es. rewrite (drop_S _ _ _ Hc) at 1. split; [cbn; by rewrite <-Hd|]. split; [by constructor|done].
    + unfold sub. rewrite Nat.sub_diag, take_0. split; [lia|]. split; [done|]. split; [by constructor|].
      rewrite (drop_S _ _ _ Hc). cbn. by intros ? [= <-].
Qed.

Lemma skip_ws_ok s :
  (s ≤ es)%nat →
  let s' := skip_ws mem es s in
  (s ≤ s' ≤ es)%nat ∧ toks_at s' = toks_at s ∧ (∀ c, hd_error (drop s' text) = Some c → is_ws c = false).
Proof using.
  intros Hs. destruct (skip_while_ok is_ws (es - s) s ltac:(lia)) as (Hle & Hd & Hf & Hh).
  cbn. split; [done|]. split; [|done]. unfold toks_at. rewrite Hd. by rewrite lex_ws_app.
Qed.

(** The word between [q] and [e] ends there. *)
Record word_at (q e : nat) (w : list Z) : Prop := {
  wa_text : sub q e = w;
  wa_le : (q < e ≤ es)%nat;
  wa_word : Forall (λ c, is_word c = true) w;
  wa_end : ∀ c, text !! e = Some c → is_word c = false;
}.

(** What the next token is, by the first character. *)
Lemma toks_first s :
  (s ≤ es)%nat → (∀ c, hd_error (drop s text) = Some c → is_ws c = false) →
  (toks_at s = [] ∧ ch mem s = 0 ∧ s = es) ∨
  (∃ c, toks_at s = TSym c :: toks_at (S s) ∧ ch mem s = c ∧ c ∈ symbols ∧ c ≠ c_gt ∧ (S s ≤ es)%nat) ∨
  (ch mem s = c_gt ∧ (S s ≤ es)%nat ∧
     (ch mem (S s) = c_gt ∧ toks_at s = TSym c_plus :: toks_at (S (S s)) ∧ (S (S s) ≤ es)%nat ∨
      ch mem (S s) ≠ c_gt ∧ toks_at s = TSym c_gt :: toks_at (S s))) ∨
  (is_word (ch mem s) = true ∧ ch mem s ≠ 0 ∧
     let e := skip_while mem is_word (es - s) s in
     (e ≤ es)%nat ∧ toks_at s = TWord (sub s e) :: toks_at e ∧ word_at s e (sub s e)).
Proof using Htext.
  intros Hs Hws. destruct (decide (s = es)) as [->|Hlt].
  { left. unfold toks_at. by rewrite drop_ge, ch_end. }
  right. destruct (lookup_is_Some text s) as [c Hc]; [lia|]. rewrite (ch_lt s c Hc).
  pose proof (drop_S _ _ _ Hc) as Hd. assert (Hcw : is_ws c = false) by (apply Hws; by rewrite Hd).
  destruct (is_sym c) eqn:Hsym; [destruct (Z.eq_dec c c_gt) as [->|Hne]|].
  - right; left. split; [done|]. split; [lia|]. unfold toks_at at 1 3. rewrite Hd.
    rewrite (ch_drop (S s)) by lia.
    destruct (drop (S s) text) as [|d l] eqn:Ed.
    + right. split; [done|]. unfold toks_at. by rewrite Ed.
    + cbn [hd_error default]. assert (Hd' : text !! S s = Some d) by (by rewrite <-(Nat.add_0_r (S s)), <-lookup_drop, Ed).
      destruct (Z.eq_dec d c_gt) as [->|Hdne].
      * left. pose proof (drop_S _ _ _ Hd') as E2. rewrite Ed in E2. injection E2 as ->.
        split; [done|]. split; [apply lex_gt|]. apply lookup_lt_Some in Hd'. lia.
      * right. split; [done|]. rewrite lex_gt_one by (cbn; congruence). unfold toks_at. by rewrite Ed.
  - left. exists c. unfold toks_at. rewrite Hd, lex_sym by done. split; [done|]. split; [done|].
    split; [by apply is_sym_spec|]. split; [done|lia].
  - right; right. assert (Hw : is_word c = true) by by apply is_word_split.
    split; [done|]. split; [exact (Forall_lookup_1 _ _ _ _ Htext Hc)|].
    destruct (skip_while_ok is_word (es - s) s ltac:(lia)) as (Hle & Hdr & Hf & Hh).
    set (e := skip_while mem is_word (es - s) s) in *.
    assert (Hse : (s < e)%nat).
    { destruct (decide (s = e)) as [E|]; [|lia]. rewrite <-E, Hd in Hh. specialize (Hh c eq_refl). congruence. }
    split; [lia|]. split.
    + unfold toks_at. rewrite Hdr at 1. rewrite lex_word; [done| |done|done].
      unfold sub. rewrite Hd. by replace (e - s)%nat with (S (e - S s)) by lia.
    + split; [done|lia|done|]. intros x Hx. apply Hh. by rewrite (drop_S _ _ _ Hx).
Qed.

Local Abbreviation gettoken' := (gettoken mem es).
Local Abbreviation peek' := (peek mem es).

Lemma gettoken_eq s tok e :
  scan_token mem es (skip_ws mem es s) = (tok, e) →
  gettoken' s = Ok (tok, skip_ws mem es s, e) (skip_ws mem es e).
Proof using. intros E. unfold gettoken, ps, get, mbind, M_bind. by rewrite E. Qed.

Lemma gettoken_end s :
  (s ≤ es)%nat → toks_at s = [] → ∃ q e s', gettoken' s = Ok (0, q, e) s' ∧ (s' ≤ es)%nat ∧ toks_at s' = [].
Proof using Htext.
  intros Hs Ht. destruct (skip_ws_ok s Hs) as (Hq & Etq & Hws). set (q := skip_ws mem es s) in *.
  destruct (skip_ws_ok q ltac:(lia)) as (Hq' & Etq' & _).
  rewrite <-Etq in Ht.
  destruct (toks_first q ltac:(lia) Hws) as [(_ & Hc & _)|[(c & E & _)|[(_ & _ & [(_ & E & _)|(_ & E)])|(_ & _ & _ & E & _)]]];
    [|congruence..].
  exists q, q, (skip_ws mem es q). split; [|split; [lia|congruence]].
  apply gettoken_eq. fold q. unfold scan_token. by rewrite Hc.
Qed.

Lemma gettoken_sym s c ts :
  (s ≤ es)%nat → toks_at s = TSym c :: ts →
  ∃ q e s', gettoken' s = Ok (c, q, e) s' ∧ (s' ≤ es)%nat ∧ toks_at s' = ts ∧ (c ∈ symbols ∨ c = c_plus).
Proof using Htext.
  intros Hs Ht. destruct (skip_ws_ok s Hs) as (Hq & Etq & Hws). set (q := skip_ws mem es s) in *.
  rewrite <-Etq in Ht.
  destruct (toks_first q ltac:(lia) Hws)
    as [(E & _)|[(c' & E & Hc & Hin & Hne & Hle)|[(Hc & Hle & [(Hc' & E & Hle')|(Hc' & E)])|(_ & _ & _ & E & _)]]];
    rewrite Ht in E; try discriminate E; injection E as -> ->.
  - destruct (skip_ws_ok (S q) Hle) as (Hq' & Etq' & _). exists q, (S q), (skip_ws mem es (S q)).
    split; [|split; [lia|split; [done|by left]]]. apply gettoken_eq. fold q. unfold scan_token. rewrite Hc.
    unfold symbols in Hin. repeat (apply elem_of_cons in Hin as [->|Hin]; [done|]). by apply elem_of_nil in Hin.
  - destruct (skip_ws_ok (S (S q)) Hle') as (Hq' & Etq' & _). exists q, (S (S q)), (skip_ws mem es (S (S q))).
    split; [|split; [lia|split; [done|by right]]]. apply gettoken_eq. fold q. unfold scan_token. by rewrite Hc, Hc'.
  - destruct (skip_ws_ok (S q) Hle) as (Hq' & Etq' & _). exists q, (S q), (skip_ws mem es (S q)).
    split; [|split; [lia|split; [done|by left; apply is_sym_spec]]].
    apply gettoken_eq. fold q. unfold scan_token. rewrite Hc. by rewrite (proj2 (Z.eqb_neq _ _) Hc').
Qed.

Lemma gettoken_word s w ts :
  (s ≤ es)%nat → toks_at s = TWord w :: ts →
  ∃ q e s', gettoken' s = Ok (c_a, q, e) s' ∧ (s' ≤ es)%nat ∧ toks_at s' = ts ∧ word_at q e w.
Proof using Htext.
  intros Hs Ht. destruct (skip_ws_ok s Hs) as (Hq & Etq & Hws). set (q := skip_ws mem es s) in *.
  rewrite <-Etq in Ht.
  destruct (toks_first q ltac:(lia) Hws)
    as [(E & _)|[(c' & E & _)|[(_ & _ & [(_ & E & _)|(_ & E)])|(Hw & H0 & Hle & E & Hwa)]]];
    rewrite Ht in E; try discriminate E; injection E as -> ->.
  set (e := skip_while mem is_word (es - q) q) in *.
  destruct (skip_ws_ok e Hle) as (Hq' & Etq' & _). exists q, e, (skip_ws mem es e).
  split; [|split; [lia|by split]]. apply gettoken_eq. fold q. unfold scan_token. rewrite (proj2 (Z.eqb_neq _ _) H0).
  apply is_word_split in Hw as [_ Hw].
  assert (Hns : ch mem q ∉ symbols) by (rewrite <-is_sym_spec; congruence).
  rewrite strchr_in_spec by (by repeat constructor). rewrite bool_decide_false.
  - destruct (Z.eqb_spec (ch mem q) c_gt) as [Ec|_]; [|done]. rewrite Ec in Hw. done.
  - intros Hin. apply Hns. revert Hin. unfold symbols. rewrite !elem_of_cons, elem_of_nil. tauto.
Qed.

(** The first character of a symbol. *)
Definition first_ch (c : Z) : Z := if c =? c_plus then c_gt else c.
Definition starts (set : list Z) (ts : list tok) : bool :=
  match ts with TSym c :: _ => bool_decide (first_ch c ∈ set) | _ => false end.

Lemma peek_ok set s :
  (s ≤ es)%nat → (∀ c, c ∈ set → c ∈ symbols) →
  ∃ s', peek' set s = Ok (starts set (toks_at s)) s' ∧ (s' ≤ es)%nat ∧ toks_at s' = toks_at s ∧ 
    (s' = es ↔ toks_at s = []).
Proof using Htext.
  intros Hs Hset. destruct (skip_ws_ok s Hs) as (Hq & Etq & Hws). set (q := skip_ws mem es s) in *.
  exists q. unfold peek, ps, get, set_ps, modify, mbind, M_bind, mret, M_ret. fold q. cbv zeta.
  assert (Hnz : Forall (λ x, x ≠ 0) set).
  { apply Forall_forall. intros x Hx%Hset ->. by vm_compute in Hx; repeat (apply elem_of_cons in Hx as [?|Hx]; [done|]); apply elem_of_nil in Hx. }
  rewrite strchr_in_spec by done.
  destruct (toks_first q ltac:(lia) Hws)
    as [(E & Hc & Eq)|[(c & E & Hc & Hin & Hne & Hle)|[(Hc & Hle & [(Hc' & E & Hle')|(Hc' & E)])|(Hw & H0 & Hle & E & Hwa)]]];
    rewrite Etq in E; rewrite E.
  - rewrite Hc. split; [done|]. split; [lia|]. split; [congruence|by split].
  - rewrite Hc. assert (Hr : c ≠ 0 ∧ c ≠ c_plus)
      by (revert Hin; unfold symbols; rewrite !elem_of_cons, elem_of_nil; lia).
    cbn [starts]. unfold first_ch. rewrite !(proj2 (Z.eqb_neq _ _)) by apply Hr.
    split; [done|]. split; [lia|]. split; [congruence|]. split; [lia|done].
  - rewrite Hc. split; [done|]. split; [lia|]. split; [congruence|]. split; [lia|done].
  - rewrite Hc. split; [done|]. split; [lia|]. split; [congruence|]. split; [lia|done].
  - rewrite (proj2 (Z.eqb_neq _ _) H0). rewrite bool_decide_false.
    + split; [done|]. split; [lia|]. split; [congruence|]. split; [|done]. intros Eq. by rewrite Eq, ch_end in H0.
    + intros Hin%Hset%is_sym_spec. apply is_word_split in Hw as [_ Hw]. congruence.
Qed.
End text.
