(* ===== verification/ShParse.v ===== *)
(** The parser of sh.c accepts exactly the lines of the grammar. *)

From S2P Require Import Prelude Riscv Bytes Ulib Sh ShSpec.

(** ** Words added to a command *)

Fixpoint cpush (c : cmd) (w : list Z) : cmd :=
  match c with
  | CRedir c f m fd => CRedir (cpush c w) f m fd
  | CExec argv => CExec (argv ++ [w])
  | c => c
  end.

Lemma cpush_redirect c r w : cpush (redirect c r) w = redirect (cpush c w) r.
Proof. unfold redirect. by repeat case_match. Qed.

Lemma cpush_redirects rs c w : cpush (fold_left redirect rs c) w = fold_left redirect rs (cpush c w).
Proof. revert c. induction rs as [|r rs IH]; intros c; cbn; [done|]. by rewrite IH, cpush_redirect. Qed.

Lemma denote_push str c q e : denote str (push_arg c q e) = cpush (denote str c) (str (q, e)).
Proof. induction c; cbn; [by rewrite fmap_app|by rewrite IHc|done..]. Qed.

Lemma pwords_push P c q e : Forall P (pwords c) → P (q, e) → Forall P (pwords (push_arg c q e)).
Proof.
  intros Hc Hq. induction c; cbn in *; [|rewrite !Forall_app in *|done..].
  - apply Forall_app. split; [done|]. by repeat constructor.
  - naive_solver.
Qed.

Lemma length_flush cur : (length (flush cur) ≤ length cur)%nat.
Proof. destruct cur; cbn; lia. Qed.

Lemma length_lex_from cur s : (length (lex_from cur s) ≤ length cur + length s)%nat.
Proof.
  remember (length s) as n eqn:En. revert cur s En. induction (lt_wf n) as [n _ IH]. intros cur s ->.
  pose proof (length_flush cur). destruct s as [|c s]; cbn [lex_from length] in *; [lia|].
  assert (IH' : ∀ cur s', (length s' < S (length s))%nat → (length (lex_from cur s') ≤ length cur + length s')%nat)
    by (intros; by eapply IH).
  destruct (is_ws c); [|destruct (c =? c_gt); [|destruct (is_sym c)]].
  - rewrite length_app. pose proof (IH' [] s ltac:(lia)) as H1. cbn in H1. lia.
  - rewrite length_app. destruct s as [|d s]; [cbn; lia|]. destruct (d =? c_gt).
    + pose proof (IH' [] s ltac:(cbn; lia)) as H1. cbn in *. lia.
    + pose proof (IH' [] (d :: s) ltac:(cbn; lia)) as H1. cbn [length] in *. lia.
  - rewrite length_app. pose proof (IH' [] s ltac:(lia)) as H1. cbn in *. lia.
  - pose proof (IH' (cur ++ [c]) s ltac:(lia)) as H1. rewrite length_app in H1. cbn in *. lia.
Qed.

(** ** Parsing *)

Section parse.
Context (text junk : list Z).
Hypothesis Htext : Forall (λ c, c ≠ 0) text.

Local Abbreviation mem := (text ++ 0 :: junk).
Local Abbreviation es := (length text).
Local Abbreviation toks := (toks_at text).

Definition str (w : nat * nat) : list Z := sub text w.1 w.2.
Definition is_word_at (w : nat * nat) : Prop := ∃ x, word_at text w.1 w.2 x.

(** The tree [c] stands for the command [k], and its words are words of the
    text. *)
Definition repr (c : pcmd) (k : cmd) : Prop := denote str c = k ∧ Forall is_word_at (pwords c).

Lemma length_toks s : (length (toks s) ≤ es)%nat.
Proof using. pose proof (length_lex_from [] (drop s text)) as H. rewrite length_drop in H. cbn in H. unfold toks_at, lex. lia. Qed.

Lemma repr_redir c k tok q e w :
  repr c k → word_at text q e w → is_redir tok →
  repr (redir_switch tok c q e) (redirect k (Redir tok w)).
Proof using.
  intros [<- Hw] Hwa Htok. unfold redir_switch, redircmd, redirect. cbn [rd_op rd_file].
  assert (Es : str (q, e) = w) by apply (wa_text _ _ _ _ Hwa).
  assert (Hf : Forall is_word_at (pwords c ++ [(q, e)])).
  { apply Forall_app. split; [done|]. repeat constructor. by exists w. }
  destruct Htok as [->|[->| ->]]; (split; [cbn -[str]; by rewrite Es|done]).
Qed.

Lemma repr_push c rs ws q e w :
  repr c (fold_left redirect rs (CExec ws)) → word_at text q e w →
  repr (push_arg c q e) (fold_left redirect rs (CExec (ws ++ [w]))).
Proof using.
  intros [Hd Hw] Hwa. split.
  - rewrite denote_push, Hd, cpush_redirects. cbn. do 3 f_equal. by rewrite <-(wa_text _ _ _ _ Hwa).
  - apply pwords_push; [done|]. by exists w.
Qed.

(** The symbols a [peek] looks for. *)
Ltac in_symbols := unfold symbols; intros ?; rewrite !elem_of_cons, elem_of_nil; tauto.

Lemma peek_redir s :
  (s ≤ es)%nat →
  ∃ s', peek mem es [c_lt; c_gt] s = Ok (starts [c_lt; c_gt] (toks s)) s' ∧ (s' ≤ es)%nat ∧ toks s' = toks s.
Proof using Htext.
  intros Hs. destruct (peek_ok text junk Htext [c_lt; c_gt] s Hs) as (s' & ? & ? & ? & _); [in_symbols|]. by exists s'.
Qed.

Lemma starts_redir ts : starts [c_lt; c_gt] ts = true → ∃ c ts', ts = TSym c :: ts' ∧ (c = c_plus ∨ c = c_lt ∨ c = c_gt).
Proof using.
  destruct ts as [|[c|w] ts]; [done| |done]. cbn. rewrite bool_decide_eq_true, !elem_of_cons, elem_of_nil.
  unfold first_ch. intros H. exists c, ts. split; [done|]. destruct (Z.eqb_spec c c_plus); [by left|]. lia.
Qed.

Lemma starts_redir_op c ts : is_redir c → starts [c_lt; c_gt] (TSym c :: ts) = true.
Proof using. by intros [->|[->| ->]]. Qed.

(** *** Redirections *)

Lemma parseredirs_sound c k s :
  (s ≤ es)%nat → repr c k →
  match parseredirs mem es c s with
  | Ok c' s' => (s' ≤ es)%nat ∧ ∃ rs, redirs_wf rs ∧ toks s = (rs ≫= redir_toks) ++ toks s' ∧
      repr c' (fold_left redirect rs k)
  | Err e _ => e ≠ SFuel
  end.
Proof using Htext.
  intros Hs Hr. unfold parseredirs. pose proof (length_toks s) as Hl.
  assert (Hn : (length (toks s) < S es)%nat) by lia. clear Hl. revert Hn.
  generalize (S es) as n. intros n. revert c k s Hs Hr. induction n as [|n IH]; intros c k s Hs Hr Hn; [lia|].
  rewrite iterM_S, bind_assoc. destruct (peek_redir s Hs) as (s1 & E1 & Hs1 & Et1).
  rewrite (bind_ok _ _ _ _ _ E1). destruct (starts _ (toks s)) eqn:Hst.
  - apply starts_redir in Hst as (op & ts & Hts & Hop). rewrite <-Et1 in Hts.
    destruct (gettoken_sym text junk Htext s1 op ts Hs1 Hts) as (q1 & e1 & s2 & E2 & Hs2 & Et2 & _).
    rewrite bind_assoc, (bind_ok _ _ _ _ _ E2). cbv beta iota.
    destruct (toks s2) as [|[c2|w] ts2] eqn:Hts2.
    + destruct (gettoken_end text junk Htext s2 Hs2 Hts2) as (q & e & s3 & E3 & _).
      by rewrite bind_assoc, (bind_ok _ _ _ _ _ E3).
    + destruct (gettoken_sym text junk Htext s2 c2 ts2 Hs2 Hts2) as (q & e & s3 & E3 & _ & _ & Hc2).
      rewrite bind_assoc, (bind_ok _ _ _ _ _ E3). cbv beta iota.
      assert (Hne : (c2 =? c_a) = false) by (apply Z.eqb_neq; unfold symbols in Hc2; rewrite !elem_of_cons, elem_of_nil in Hc2; lia).
      by rewrite Hne.
    + destruct (gettoken_word text junk Htext s2 w ts2 Hs2 Hts2) as (q & e & s3 & E3 & Hs3 & Et3 & Hw).
      rewrite bind_assoc, (bind_ok _ _ _ _ _ E3). cbv beta iota. cbn [negb Z.eqb Pos.eqb]. rewrite bind_ret.
      assert (Hrd : is_redir op) by (unfold is_redir; tauto).
      specialize (IH (redir_switch op c q e) (redirect k (Redir op w)) s3 Hs3).
      assert (Elen : length (toks s) = S (S (length (toks s3)))) by (rewrite <-Et1, Hts, <-Et2; cbn; by rewrite Et3).
      specialize (IH ltac:(by apply repr_redir) ltac:(lia)).
      destruct (iterM _ n _ _ s3) as [c' s'|err s']; [|done]. destruct IH as (Hs' & rs & Hwf & Ets & Hrep).
      split; [done|]. exists (Redir op w :: rs). split; [by constructor|]. split; [|done].
      rewrite <-Et1, Hts, <-Et2. cbn. by rewrite <-Et3, Ets.
  - rewrite bind_ret. split; [done|]. exists []. split; [constructor|]. split; [done|done].
Qed.

Lemma parseredirs_complete rs c k s rest :
  (s ≤ es)%nat → repr c k → redirs_wf rs → toks s = (rs ≫= redir_toks) ++ rest →
  starts [c_lt; c_gt] rest = false →
  ∃ c' s', parseredirs mem es c s = Ok c' s' ∧ (s' ≤ es)%nat ∧ toks s' = rest ∧ repr c' (fold_left redirect rs k).
Proof using Htext.
  intros Hs Hr Hwf Hts Hrest. unfold parseredirs. pose proof (length_toks s) as Hl.
  assert (Hn : (length (toks s) < S es)%nat) by lia. clear Hl. revert Hn.
  generalize (S es) as n. intros n. revert c k s Hs Hr rs Hwf Hts. induction n as [|n IH]; intros c k s Hs Hr rs Hwf Hts Hn; [lia|].
  rewrite iterM_S, bind_assoc. destruct (peek_redir s Hs) as (s1 & E1 & Hs1 & Et1).
  rewrite (bind_ok _ _ _ _ _ E1). destruct Hwf as [|[op w] rs Hop Hwf].
  - cbn in Hts. rewrite Hts, Hrest. rewrite bind_ret. exists c, s1. rewrite Et1. done.
  - cbn in Hts. rewrite Hts, starts_redir_op by done. rewrite Hts in Et1.
    destruct (gettoken_sym text junk Htext s1 _ _ Hs1 Et1) as (q1 & e1 & s2 & E2 & Hs2 & Et2 & _).
    rewrite bind_assoc, (bind_ok _ _ _ _ _ E2). cbv beta iota.
    destruct (gettoken_word text junk Htext s2 _ _ Hs2 Et2) as (q & e & s3 & E3 & Hs3 & Et3 & Hw).
    rewrite bind_assoc, (bind_ok _ _ _ _ _ E3). cbv beta iota. cbn [negb Z.eqb Pos.eqb]. rewrite bind_ret.
    destruct (IH (redir_switch op c q e) (redirect k (Redir op w)) s3 Hs3 ltac:(by apply repr_redir) rs Hwf Et3)
      as (c' & s' & E & ?); [rewrite Hts in Hn; cbn in Hn; rewrite Et3; lia|].
    exists c', s'. done.
Qed.

(** *** Words *)

(** What can follow a command. *)
Abbreviation stop_e := [c_bar; c_close; c_amp; c_semi].
Definition follow (set : list Z) (ts : list tok) : Prop := ts = [] ∨ starts set ts = true.

Lemma peek_set set s :
  (s ≤ es)%nat → (∀ c, c ∈ set → c ∈ symbols) →
  ∃ s', peek mem es set s = Ok (starts set (toks s)) s' ∧ (s' ≤ es)%nat ∧ toks s' = toks s.
Proof using Htext.
  intros Hs Hset. destruct (peek_ok text junk Htext set s Hs Hset) as (s' & ? & ? & ? & _). by exists s'.
Qed.

Lemma first_ch_symbols c : c ∈ symbols ∨ c = c_plus → c ≠ c_a ∧ c ≠ 0.
Proof using. unfold symbols. rewrite !elem_of_cons, elem_of_nil. lia. Qed.

Lemma parseargs_sound n c rs ws s :
  (length (toks s) < n)%nat → (s ≤ es)%nat → repr c (fold_left redirect rs (CExec ws)) → (length ws < MAXARGS)%nat →
  match iterM SFuel n (arg_turn mem es) (c, length ws) s with
  | Ok c' s' => (s' ≤ es)%nat ∧ ∃ ws', Forall (λ w, redirs_wf w.2) ws' ∧ (length ws + length ws' < MAXARGS)%nat ∧
      toks s = (ws' ≫= word_toks) ++ toks s' ∧
      repr c' (fold_left redirect (rs ++ (ws' ≫= snd)) (CExec (ws ++ (fst <$> ws'))))
  | Err e _ => e ≠ SFuel
  end.
Proof using Htext.
  revert c rs ws s. induction n as [|n IH]; intros c rs ws s Hn Hs Hr Hw; [lia|].
  assert (Hstop : ∀ s1, (s1 ≤ es)%nat → toks s1 = toks s → (s1 ≤ es)%nat ∧ ∃ ws' : list (list Z * list redir),
    Forall (λ w, redirs_wf w.2) ws' ∧ (length ws + length ws' < MAXARGS)%nat ∧
    toks s = (ws' ≫= word_toks) ++ toks s1 ∧
    repr c (fold_left redirect (rs ++ (ws' ≫= snd)) (CExec (ws ++ (fst <$> ws'))))).
  { intros s1 Hs1 Et. split; [done|]. exists []. cbn. rewrite Nat.add_0_r, !app_nil_r. done. }
  rewrite iterM_S. unfold arg_turn at 2. cbv beta iota. rewrite bind_assoc. destruct (peek_set stop_e s Hs) as (s1 & E1 & Hs1 & Et1); [in_symbols|].
  rewrite (bind_ok _ _ _ _ _ E1). destruct (starts stop_e (toks s)) eqn:Hst; [rewrite bind_ret; by apply Hstop|].
  destruct (toks s1) as [|[c2|w] ts2] eqn:Hts.
  - destruct (gettoken_end text junk Htext s1 Hs1 Hts) as (q & e & s2 & E2 & Hs2 & Et2).
    rewrite bind_assoc, (bind_ok _ _ _ _ _ E2). cbv beta iota. change (0 =? 0) with true. cbv iota. rewrite bind_ret.
    apply Hstop; [done|congruence].
  - destruct (gettoken_sym text junk Htext s1 c2 ts2 Hs1 Hts) as (q & e & s2 & E2 & _ & _ & Hc2).
    rewrite bind_assoc, (bind_ok _ _ _ _ _ E2). cbv beta iota.
    apply first_ch_symbols in Hc2 as [Ha H0]. by rewrite (proj2 (Z.eqb_neq _ _) Ha), (proj2 (Z.eqb_neq _ _) H0).
  - destruct (gettoken_word text junk Htext s1 w ts2 Hs1 Hts) as (q & e & s2 & E2 & Hs2 & Et2 & Hwa).
    rewrite bind_assoc, (bind_ok _ _ _ _ _ E2). cbv beta iota zeta. cbn [negb Z.eqb Pos.eqb].
    destruct (Nat.leb_spec MAXARGS (S (length ws))); [done|].
    pose proof (parseredirs_sound (push_arg c q e) _ s2 Hs2 (repr_push _ _ _ _ _ _ Hr Hwa)) as Hrd.
    rewrite bind_assoc. destruct (parseredirs mem es (push_arg c q e) s2) as [c3 s3|err s3] eqn:E3; last first.
    { by rewrite (bind_err _ _ _ _ _ E3). }
    rewrite (bind_ok _ _ _ _ _ E3), bind_ret. destruct Hrd as (Hs3 & rs3 & Hwf3 & Et3 & Hr3).
    rewrite <-fold_left_app in Hr3. assert (Elen : toks s = TWord w :: (rs3 ≫= redir_toks) ++ toks s3) by (rewrite <-Et1; congruence).
    assert (Hn' : (length (toks s3) < n)%nat) by (rewrite Elen in Hn; cbn [length] in Hn; rewrite length_app in Hn; lia).
    specialize (IH c3 (rs ++ rs3) (ws ++ [w]) s3 Hn' Hs3 Hr3).
    rewrite length_app in IH. cbn [length] in IH. rewrite Nat.add_1_r in IH. specialize (IH ltac:(lia)).
    destruct (iterM _ n _ _ s3) as [c' s'|err s']; [|done]. destruct IH as (Hs' & ws' & Hwf' & Hlen & Et' & Hr').
    split; [done|]. exists ((w, rs3) :: ws'). split; [by constructor|]. split; [cbn; lia|].
    split; [rewrite Elen, Et'; cbn; by rewrite <-(assoc_L (++))|].
    cbn. by rewrite <-!(assoc_L (++)) in Hr'.
Qed.

Lemma words_not_redir ws rest :
  follow stop_e rest → starts [c_lt; c_gt] ((ws ≫= word_toks) ++ rest) = false.
Proof using.
  intros Hf. destruct ws as [|w ws]; [|done]. cbn. destruct Hf as [->|Hf]; [done|].
  destruct rest as [|[c|w] rest]; [done| |done]. cbn in *. apply bool_decide_eq_true in Hf. apply bool_decide_eq_false.
  rewrite !elem_of_cons, elem_of_nil in *. lia.
Qed.

Lemma parseargs_complete ws' n c rs ws s rest :
  (length (toks s) < n)%nat → (s ≤ es)%nat → repr c (fold_left redirect rs (CExec ws)) →
  Forall (λ w, redirs_wf w.2) ws' → (length ws + length ws' < MAXARGS)%nat →
  toks s = (ws' ≫= word_toks) ++ rest → follow stop_e rest →
  ∃ c' s', iterM SFuel n (arg_turn mem es) (c, length ws) s = Ok c' s' ∧ (s' ≤ es)%nat ∧ toks s' = rest ∧
    repr c' (fold_left redirect (rs ++ (ws' ≫= snd)) (CExec (ws ++ (fst <$> ws')))).
Proof using Htext.
  intros Hn Hs Hr Hwf. revert n c rs ws s Hn Hs Hr.
  induction Hwf as [|[w rs'] ws' Hwf Hwfs IH]; intros n c rs ws s Hn Hs Hr Hlen Hts Hf;
    (destruct n as [|n]; [lia|]); rewrite iterM_S; unfold arg_turn at 2; cbv beta iota; rewrite bind_assoc;
    (destruct (peek_set stop_e s Hs) as (s1 & E1 & Hs1 & Et1); [in_symbols|]); rewrite (bind_ok _ _ _ _ _ E1).
  - cbn in *. rewrite Hts in *. destruct Hf as [->|Hf].
    + cbn. destruct (gettoken_end text junk Htext s1 Hs1 Et1) as (q & e & s2 & E2 & Hs2 & Et2).
      rewrite bind_assoc, (bind_ok _ _ _ _ _ E2). cbv beta iota. change (0 =? 0) with true. cbv iota. rewrite bind_ret.
      exists c, s2. by rewrite !app_nil_r.
    + rewrite Hf. rewrite bind_ret. exists c, s1. by rewrite !app_nil_r.
  - cbn in Hts, Hlen. rewrite <-(assoc_L (++)) in Hts. rewrite Hts in Et1 |- *. cbn [starts]. cbv iota.
    destruct (gettoken_word text junk Htext s1 w _ Hs1 Et1) as (q & e & s2 & E2 & Hs2 & Et2 & Hwa).
    rewrite bind_assoc, (bind_ok _ _ _ _ _ E2). cbv beta iota zeta. cbn [negb Z.eqb Pos.eqb].
    destruct (Nat.leb_spec MAXARGS (S (length ws))); [lia|].
    destruct (parseredirs_complete rs' (push_arg c q e) _ s2 _ Hs2 (repr_push _ _ _ _ _ _ Hr Hwa) Hwf Et2)
      as (c3 & s3 & E3 & Hs3 & Et3 & Hr3); [by apply words_not_redir|].
    rewrite bind_assoc, (bind_ok _ _ _ _ _ E3), bind_ret. rewrite <-fold_left_app in Hr3.
    destruct (IH n c3 (rs ++ rs') (ws ++ [w]) s3) as (c' & s' & E' & Hs' & Et' & Hr'); try done.
    + rewrite Hts in Hn. cbn [length] in Hn. rewrite Et3. rewrite length_app in Hn. lia.
    + rewrite length_app. cbn. lia.
    + rewrite length_app in E'. cbn [length] in E'. rewrite Nat.add_1_r in E'. exists c', s'. split; [done|].
      split; [done|]. split; [done|]. cbn. by rewrite <-!(assoc_L (++)) in Hr'.
Qed.

(** *** Ampersands *)

Lemma repr_back c k : repr c k → repr (BACK c) (CBack k).
Proof using. intros [<- ?]. done. Qed.

Lemma parsebacks_ok c k s :
  (s ≤ es)%nat → repr c k →
  ∃ m c' s', parsebacks mem es c s = Ok c' s' ∧ (s' ≤ es)%nat ∧ toks s = replicate m (TSym c_amp) ++ toks s' ∧
    starts [c_amp] (toks s') = false ∧ repr c' (Nat.iter m CBack k).
Proof using Htext.
  intros Hs Hr. unfold parsebacks. pose proof (length_toks s) as Hl.
  assert (Hn : (length (toks s) < S es)%nat) by lia. clear Hl. revert Hn.
  generalize (S es) as n. intros n. revert c k s Hs Hr. induction n as [|n IH]; intros c k s Hs Hr Hn; [lia|].
  rewrite iterM_S, bind_assoc. destruct (peek_set [c_amp] s Hs) as (s1 & E1 & Hs1 & Et1); [in_symbols|].
  rewrite (bind_ok _ _ _ _ _ E1). destruct (starts _ (toks s)) eqn:Hst.
  - destruct (toks s) as [|[a|] ts] eqn:Hts; [done| |done]. cbn in Hst. apply bool_decide_eq_true in Hst.
    assert (a = c_amp) as ->.
    { unfold first_ch in Hst. rewrite elem_of_cons, elem_of_nil in Hst. destruct (Z.eqb_spec a c_plus); lia. }
    destruct (gettoken_sym text junk Htext s1 _ _ Hs1 Et1) as (q & e & s2 & E2 & Hs2 & Et2 & _).
    rewrite bind_assoc, (bind_ok _ _ _ _ _ E2), bind_ret. cbn [length] in Hn.
    destruct (IH (BACK c) (CBack k) s2 Hs2 (repr_back _ _ Hr)) as (m & c' & s' & E & Hs' & Et' & Hst' & Hr');
      [rewrite Et2; lia|].
    exists (S m), c', s'. rewrite Et2 in Et'. split; [done|]. split; [done|]. split; [by rewrite Et'|]. split; [done|].
    by rewrite Nat.iter_succ_r.
  - rewrite bind_ret. exists 0%nat, c, s1. rewrite <-Et1 in *. done.
Qed.

(** *** Commands, pipes and lines: what is accepted is a sentence *)

Lemma starts_one x ts : x ≠ c_gt → starts [x] ts = true → ∃ ts', ts = TSym x :: ts'.
Proof using.
  intros Hx. destruct ts as [|[c|] ts]; [done| |done]. cbn. unfold first_ch.
  rewrite bool_decide_eq_true, elem_of_cons, elem_of_nil. destruct (Z.eqb_spec c c_plus); [lia|].
  intros [->|[]]. by eauto.
Qed.

(** peek() for one symbol, and gettoken() when it is there. *)
Lemma peek_one x s :
  (s ≤ es)%nat → x ∈ symbols → x ≠ c_gt →
  (∃ ts s' q e s'', toks s = TSym x :: ts ∧ peek mem es [x] s = Ok true s' ∧
     gettoken mem es s' = Ok (x, q, e) s'' ∧ (s' ≤ es)%nat ∧ toks s' = toks s ∧ (s'' ≤ es)%nat ∧ toks s'' = ts) ∨
  (∃ s', starts [x] (toks s) = false ∧ peek mem es [x] s = Ok false s' ∧ (s' ≤ es)%nat ∧ toks s' = toks s).
Proof using Htext.
  intros Hs Hx Hne. destruct (peek_set [x] s Hs) as (s1 & E1 & Hs1 & Et1).
  { intros c. rewrite elem_of_cons, elem_of_nil. by intros [->|[]]. }
  destruct (starts [x] (toks s)) eqn:Hst; [left|right; by exists s1].
  apply starts_one in Hst as [ts Hts]; [|done]. rewrite Hts in Et1.
  destruct (gettoken_sym text junk Htext s1 _ _ Hs1 Et1) as (q & e & s2 & E2 & Hs2 & Et2 & _).
  exists ts, s1, q, e, s2. rewrite Hts. done.
Qed.

Lemma repr_list c c' k k' : repr c k → repr c' k' → repr (LIST c c') (CList k k').
Proof using. intros [<- ?] [<- ?]. split; [done|]. by apply Forall_app. Qed.

Lemma repr_pipe c c' k k' : repr c k → repr c' k' → repr (PIPE c c') (CPipe k k').
Proof using. intros [<- ?] [<- ?]. split; [done|]. by apply Forall_app. Qed.

Definition sound {A} (m : M serr nat pcmd) (wf : A → Prop) (tk : A → list tok) (cm : A → cmd) (s : nat) : Prop :=
  match m s with
  | Ok c s' => (s' ≤ es)%nat ∧ ∃ l, wf l ∧ toks s = tk l ++ toks s' ∧ repr c (cm l)
  | Err e _ => e ≠ SFuel
  end.

(** Every parse function with fuel for the tokens that are left. *)
Record sound_at (fuel : nat) : Prop := {
  so_line : ∀ s, (s ≤ es)%nat → (4 * length (toks s) + 4 ≤ fuel)%nat →
    sound (parseline mem es fuel) line_wf line_toks line_cmd s;
  so_pipe : ∀ s, (s ≤ es)%nat → (4 * length (toks s) + 3 ≤ fuel)%nat →
    sound (parsepipe mem es fuel) pline_wf pline_toks pline_cmd s;
  so_exec : ∀ s, (s ≤ es)%nat → (4 * length (toks s) + 2 ≤ fuel)%nat →
    sound (parseexec mem es fuel) ecmd_wf ecmd_toks ecmd_cmd s;
  so_block : ∀ s, (s ≤ es)%nat → (4 * length (toks s) + 1 ≤ fuel)%nat →
    sound (parseblock mem es fuel) ecmd_wf ecmd_toks ecmd_cmd s;
}.

Ltac in_syms := unfold symbols; rewrite !elem_of_cons; tauto.

Lemma sound_line fuel s :
  sound_at fuel → (s ≤ es)%nat → (4 * length (toks s) + 4 ≤ S fuel)%nat →
  sound (parseline mem es (S fuel)) line_wf line_toks line_cmd s.
Proof using Htext.
  intros Hso Hs Hf. unfold sound. cbn [parseline].
  pose proof (so_pipe _ Hso s Hs ltac:(lia)) as Hp. unfold sound in Hp.
  destruct (parsepipe mem es fuel s) as [c s1|err s1] eqn:E1; [|by rewrite (bind_err _ _ _ _ _ E1)].
  rewrite (bind_ok _ _ _ _ _ E1). destruct Hp as (Hs1 & p & Hwf & Et & Hr).
  destruct (parsebacks_ok c _ s1 Hs1 Hr) as (m & c2 & s2 & E2 & Hs2 & Et2 & _ & Hr2).
  rewrite (bind_ok _ _ _ _ _ E2).
  destruct (peek_one c_semi s2 Hs2 ltac:(in_syms) ltac:(lia))
    as [(ts & s3 & q & e & s4 & Ets & E3 & E4 & _ & _ & Hs4 & Et4)|(s3 & _ & E3 & Hs3 & Et3)];
    rewrite (bind_ok _ _ _ _ _ E3).
  - rewrite (bind_ok _ _ _ _ _ E4).
    assert (Hlen : (length (toks s) ≥ S (length (toks s4)))%nat).
    { rewrite Et, Et2, Ets, Et4, !length_app. cbn. lia. }
    pose proof (so_line _ Hso s4 Hs4 ltac:(lia)) as Hl. unfold sound in Hl.
    destruct (parseline mem es fuel s4) as [c5 s5|err s5] eqn:E5; [|by rewrite (bind_err _ _ _ _ _ E5)].
    rewrite (bind_ok _ _ _ _ _ E5). destruct Hl as (Hs5 & l & Hwf5 & Et5 & Hr5). cbn [mret M_ret].
    split; [done|]. exists (LMore p m l). split; [done|]. split.
    + rewrite Et, Et2, Ets, <-Et4, Et5. cbn. by rewrite <-!(assoc_L (++)).
    + by apply repr_list.
  - cbn [mret M_ret]. split; [done|]. exists (LLast p m). split; [done|]. split; [|done].
    cbn. by rewrite Et, Et2, Et3, (assoc_L (++)).
Qed.

Lemma sound_pipe fuel s :
  sound_at fuel → (s ≤ es)%nat → (4 * length (toks s) + 3 ≤ S fuel)%nat →
  sound (parsepipe mem es (S fuel)) pline_wf pline_toks pline_cmd s.
Proof using Htext.
  intros Hso Hs Hf. unfold sound. cbn [parsepipe].
  pose proof (so_exec _ Hso s Hs ltac:(lia)) as Hp. unfold sound in Hp.
  destruct (parseexec mem es fuel s) as [c s1|err s1] eqn:E1; [|by rewrite (bind_err _ _ _ _ _ E1)].
  rewrite (bind_ok _ _ _ _ _ E1). destruct Hp as (Hs1 & x & Hwf & Et & Hr).
  destruct (peek_one c_bar s1 Hs1 ltac:(in_syms) ltac:(lia))
    as [(ts & s3 & q & e & s4 & Ets & E3 & E4 & _ & _ & Hs4 & Et4)|(s3 & _ & E3 & Hs3 & Et3)];
    rewrite (bind_ok _ _ _ _ _ E3).
  - rewrite (bind_ok _ _ _ _ _ E4).
    assert (Hlen : (length (toks s) ≥ S (length (toks s4)))%nat).
    { rewrite Et, Ets, Et4, !length_app. cbn. lia. }
    pose proof (so_pipe _ Hso s4 Hs4 ltac:(lia)) as Hl. unfold sound in Hl.
    destruct (parsepipe mem es fuel s4) as [c5 s5|err s5] eqn:E5; [|by rewrite (bind_err _ _ _ _ _ E5)].
    rewrite (bind_ok _ _ _ _ _ E5). destruct Hl as (Hs5 & l & Hwf5 & Et5 & Hr5). cbn [mret M_ret].
    split; [done|]. exists (PMore x l). split; [done|]. split.
    + rewrite Et, Ets, <-Et4, Et5. cbn. by rewrite <-!(assoc_L (++)).
    + by apply repr_pipe.
  - cbn [mret M_ret]. split; [done|]. exists (PLast x). split; [done|]. split; [|done]. by rewrite Et3.
Qed.

Lemma repr_exec : repr (EXEC []) (CExec []).
Proof using. split; [done|constructor]. Qed.

Lemma sound_exec fuel s :
  sound_at fuel → (s ≤ es)%nat → (4 * length (toks s) + 2 ≤ S fuel)%nat →
  sound (parseexec mem es (S fuel)) ecmd_wf ecmd_toks ecmd_cmd s.
Proof using Htext.
  intros Hso Hs Hf. unfold sound. cbn [parseexec].
  destruct (peek_one c_open s Hs ltac:(in_syms) ltac:(lia))
    as [(ts & s1 & q & e & s4 & Ets & E1 & E4 & Hs1 & Et1 & _)|(s1 & _ & E1 & Hs1 & Et1)];
    rewrite (bind_ok _ _ _ _ _ E1).
  - pose proof (so_block _ Hso s1 Hs1 ltac:(rewrite Et1; lia)) as Hb. unfold sound in Hb. by rewrite Et1 in Hb.
  - pose proof (parseredirs_sound _ _ s1 Hs1 repr_exec) as Hrd.
    destruct (parseredirs mem es (EXEC []) s1) as [c2 s2|err s2] eqn:E2; [|by rewrite (bind_err _ _ _ _ _ E2)].
    rewrite (bind_ok _ _ _ _ _ E2). destruct Hrd as (Hs2 & rs & Hwf & Et2 & Hr2).
    pose proof (length_toks s2) as Hl2.
    pose proof (parseargs_sound (S es) c2 rs [] s2 ltac:(lia) Hs2 Hr2 ltac:(unfold MAXARGS; cbn; lia)) as Ha.
    unfold parseargs. cbn [length] in Ha. destruct (iterM _ _ _ _ s2) as [c3 s3|]; [|done].
    destruct Ha as (Hs3 & ws & Hwfs & Hlen & Et3 & Hr3). split; [done|]. exists (EWords rs ws).
    split; [done|]. split; [|done]. cbn. by rewrite <-Et1, Et2, Et3, (assoc_L (++)).
Qed.

Lemma sound_block fuel s :
  sound_at fuel → (s ≤ es)%nat → (4 * length (toks s) + 1 ≤ S fuel)%nat →
  sound (parseblock mem es (S fuel)) ecmd_wf ecmd_toks ecmd_cmd s.
Proof using Htext.
  intros Hso Hs Hf. unfold sound. cbn [parseblock].
  destruct (peek_one c_open s Hs ltac:(in_syms) ltac:(lia))
    as [(ts & s1 & q & e & s2 & Ets & E1 & E2 & _ & _ & Hs2 & Et2)|(s1 & _ & E1 & Hs1 & Et1)];
    rewrite (bind_ok _ _ _ _ _ E1); [|done]. cbn [negb]. rewrite (bind_ok _ _ _ _ _ E2).
  assert (Hlen : (length (toks s) = S (length (toks s2)))%nat) by (rewrite Ets, Et2; done).
  pose proof (so_line _ Hso s2 Hs2 ltac:(lia)) as Hl. unfold sound in Hl.
  destruct (parseline mem es fuel s2) as [c3 s3|err s3] eqn:E3; [|by rewrite (bind_err _ _ _ _ _ E3)].
  rewrite (bind_ok _ _ _ _ _ E3). destruct Hl as (Hs3 & l & Hwf & Et3 & Hr3).
  destruct (peek_one c_close s3 Hs3 ltac:(in_syms) ltac:(lia))
    as [(ts' & s4 & q' & e' & s5 & Ets' & E4 & E5 & _ & _ & Hs5 & Et5)|(s4 & _ & E4 & _ & _)];
    rewrite (bind_ok _ _ _ _ _ E4); [|done]. cbn [negb]. rewrite (bind_ok _ _ _ _ _ E5).
  pose proof (parseredirs_sound _ _ s5 Hs5 Hr3) as Hrd.
  destruct (parseredirs mem es c3 s5) as [c6 s6|err s6]; [|done]. destruct Hrd as (Hs6 & rs & Hwf6 & Et6 & Hr6).
  split; [done|]. exists (EBlock l rs). split; [done|]. split; [|done].
  rewrite Ets, <-Et2, Et3, Ets', <-Et5, Et6. cbn. by rewrite <-!(assoc_L (++)).
Qed.

Lemma sound_all fuel : sound_at fuel.
Proof using Htext.
  induction fuel as [|fuel IH]; split; intros s Hs Hf; [lia..| | | |];
    [by apply sound_line|by apply sound_pipe|by apply sound_exec|by apply sound_block].
Qed.

(** *** Every sentence is accepted *)

Lemma follow_mono set set' ts : (∀ c, c ∈ set → c ∈ set') → follow set ts → follow set' ts.
Proof using.
  intros Hset [->|Hs]; [by left|right]. destruct ts as [|[c|] ts]; [done| |done]. cbn in *.
  apply bool_decide_eq_true in Hs. by apply bool_decide_eq_true, Hset.
Qed.

Lemma follow_not set x ts : follow set ts → (∀ c, c ∈ set → c ≠ x) → starts [x] ts = false.
Proof using.
  intros [->|Hs] Hx; [done|]. destruct ts as [|[c|] ts]; [done| |done]. cbn in *.
  apply bool_decide_eq_true in Hs. apply bool_decide_eq_false. rewrite elem_of_cons, elem_of_nil.
  specialize (Hx _ Hs). tauto.
Qed.

Lemma follow_sym set c ts : c ≠ c_plus → c ∈ set → follow set (TSym c :: ts).
Proof using.
  intros Hc Hin. right. cbn. unfold first_ch. apply bool_decide_eq_true. by rewrite (proj2 (Z.eqb_neq _ _) Hc).
Qed.

Lemma backs_unique m n A B :
  replicate m (TSym c_amp) ++ A = replicate n (TSym c_amp) ++ B →
  starts [c_amp] A = false → starts [c_amp] B = false → m = n ∧ A = B.
Proof using.
  revert n. induction m as [|m IH]; intros [|n] E HA HB; cbn in E; [done|by subst|by subst|].
  injection E as E. destruct (IH n E HA HB) as [-> ->]. done.
Qed.

Definition complete {A} (parse : nat → M serr nat pcmd) (k : nat) (set : list Z) (wf : A → Prop) (tk : A → list tok)
    (cm : A → cmd) (l : A) : Prop :=
  wf l → ∀ fuel s rest, (s ≤ es)%nat → (4 * length (toks s) + k ≤ fuel)%nat → toks s = tk l ++ rest → follow set rest →
  ∃ c s', parse fuel s = Ok c s' ∧ (s' ≤ es)%nat ∧ toks s' = rest ∧ repr c (cm l).

Abbreviation stop_p := [c_close; c_amp; c_semi].
Abbreviation stop_l := [c_close].
Local Abbreviation complete_line := (complete (parseline mem es) 4 stop_l line_wf line_toks line_cmd).
Local Abbreviation complete_pipe := (complete (parsepipe mem es) 3 stop_p pline_wf pline_toks pline_cmd).
Local Abbreviation complete_exec := (complete (parseexec mem es) 2 stop_e ecmd_wf ecmd_toks ecmd_cmd).

Ltac sets := intros ?; rewrite ?elem_of_cons, ?elem_of_nil; lia.

(** A pipe and the ampersands behind it. *)
Lemma complete_backs p n fuel s rest :
  complete_pipe p → pline_wf p → (s ≤ es)%nat → (4 * length (toks s) + 3 ≤ fuel)%nat →
  toks s = pline_toks p ++ replicate n (TSym c_amp) ++ rest → follow [c_close; c_semi] rest →
  ∃ c1 s1 c2 s2, parsepipe mem es fuel s = Ok c1 s1 ∧ parsebacks mem es c1 s1 = Ok c2 s2 ∧
    (s2 ≤ es)%nat ∧ toks s2 = rest ∧ repr c2 (Nat.iter n CBack (pline_cmd p)).
Proof using Htext.
  intros Hp Hwf Hs Hf Hts Hfol.
  destruct (Hp Hwf fuel s _ Hs Hf Hts) as (c1 & s1 & E1 & Hs1 & Et1 & Hr1).
  { destruct n; [|by apply follow_sym; [|rewrite !elem_of_cons; tauto]]. eapply follow_mono; [|done]. sets. }
  destruct (parsebacks_ok c1 _ s1 Hs1 Hr1) as (m & c2 & s2 & E2 & Hs2 & Et2 & Hst2 & Hr2).
  rewrite Et1 in Et2. apply eq_sym, backs_unique in Et2 as [-> <-]; [|done|].
  - by exists c1, s1, c2, s2.
  - eapply follow_not; [done|]. sets.
Qed.

Lemma complete_llast p n : complete_pipe p → complete_line (LLast p n).
Proof using Htext.
  intros Hp Hwf fuel s rest Hs Hf Hts Hfol. destruct fuel as [|fuel]; [lia|]. cbn [parseline].
  cbn in Hts. rewrite <-(assoc_L (++)) in Hts.
  destruct (complete_backs p n fuel s rest Hp Hwf Hs ltac:(lia) Hts) as (c1 & s1 & c2 & s2 & E1 & E2 & Hs2 & Et2 & Hr2).
  { eapply follow_mono; [|done]. sets. }
  rewrite (bind_ok _ _ _ _ _ E1), (bind_ok _ _ _ _ _ E2).
  destruct (peek_one c_semi s2 Hs2 ltac:(in_syms) ltac:(lia)) as [(ts & ? & ? & ? & ? & Ets & _)|(s3 & _ & E3 & Hs3 & Et3)].
  { exfalso. rewrite Et2 in Ets. assert (starts [c_semi] rest = false) by (eapply follow_not; [done|]; sets).
    by rewrite Ets in H. }
  rewrite (bind_ok _ _ _ _ _ E3). exists c2, s3. rewrite Et3. done.
Qed.

Lemma complete_lmore p n l : complete_pipe p → complete_line l → complete_line (LMore p n l).
Proof using Htext.
  intros Hp Hl [Hwf Hwfl] fuel s rest Hs Hf Hts Hfol. destruct fuel as [|fuel]; [lia|]. cbn [parseline].
  cbn in Hts. rewrite <-!(assoc_L (++)) in Hts. cbn in Hts.
  destruct (complete_backs p n fuel s _ Hp Hwf Hs ltac:(lia) Hts) as (c1 & s1 & c2 & s2 & E1 & E2 & Hs2 & Et2 & Hr2).
  { apply follow_sym; [lia|]. rewrite !elem_of_cons. tauto. }
  rewrite (bind_ok _ _ _ _ _ E1), (bind_ok _ _ _ _ _ E2).
  destruct (peek_one c_semi s2 Hs2 ltac:(in_syms) ltac:(lia))
    as [(ts & s3 & q & e & s4 & Ets & E3 & E4 & _ & _ & Hs4 & Et4)|(s3 & Hst & _)]; [|by rewrite Et2 in Hst].
  rewrite (bind_ok _ _ _ _ _ E3), (bind_ok _ _ _ _ _ E4). rewrite Et2 in Ets. injection Ets as <-.
  destruct (Hl Hwfl fuel s4 rest Hs4) as (c5 & s5 & E5 & Hs5 & Et5 & Hr5); [|done|done|].
  { rewrite Et4. apply (f_equal length) in Hts. rewrite !length_app in Hts. cbn [length] in Hts. rewrite length_app in *. lia. }
  rewrite (bind_ok _ _ _ _ _ E5). exists (LIST c2 c5), s5. split; [done|]. split; [done|]. split; [done|]. by apply repr_list.
Qed.

Lemma complete_plast x : complete_exec x → complete_pipe (PLast x).
Proof using Htext.
  intros Hx Hwf fuel s rest Hs Hf Hts Hfol. destruct fuel as [|fuel]; [lia|]. cbn [parsepipe].
  destruct (Hx Hwf fuel s rest Hs ltac:(lia) Hts) as (c1 & s1 & E1 & Hs1 & Et1 & Hr1).
  { eapply follow_mono; [|done]. sets. }
  rewrite (bind_ok _ _ _ _ _ E1).
  destruct (peek_one c_bar s1 Hs1 ltac:(in_syms) ltac:(lia)) as [(ts & ? & ? & ? & ? & Ets & _)|(s3 & _ & E3 & Hs3 & Et3)].
  { exfalso. rewrite Et1 in Ets. assert (starts [c_bar] rest = false) by (eapply follow_not; [done|]; sets).
    by rewrite Ets in H. }
  rewrite (bind_ok _ _ _ _ _ E3). exists c1, s3. rewrite Et3. done.
Qed.

Lemma complete_pmore x p : complete_exec x → complete_pipe p → complete_pipe (PMore x p).
Proof using Htext.
  intros Hx Hp [Hwf Hwfp] fuel s rest Hs Hf Hts Hfol. destruct fuel as [|fuel]; [lia|]. cbn [parsepipe].
  cbn in Hts. rewrite <-(assoc_L (++)) in Hts. cbn in Hts.
  destruct (Hx Hwf fuel s _ Hs ltac:(lia) Hts) as (c1 & s1 & E1 & Hs1 & Et1 & Hr1).
  { apply follow_sym; [lia|]. rewrite !elem_of_cons. tauto. }
  rewrite (bind_ok _ _ _ _ _ E1).
  destruct (peek_one c_bar s1 Hs1 ltac:(in_syms) ltac:(lia))
    as [(ts & s3 & q & e & s4 & Ets & E3 & E4 & _ & _ & Hs4 & Et4)|(s3 & Hst & _)]; [|by rewrite Et1 in Hst].
  rewrite (bind_ok _ _ _ _ _ E3), (bind_ok _ _ _ _ _ E4). rewrite Et1 in Ets. injection Ets as <-.
  destruct (Hp Hwfp fuel s4 rest Hs4) as (c5 & s5 & E5 & Hs5 & Et5 & Hr5); [|done|done|].
  { rewrite Et4. apply (f_equal length) in Hts. rewrite !length_app in Hts. cbn [length] in Hts. rewrite length_app in *. lia. }
  rewrite (bind_ok _ _ _ _ _ E5). exists (PIPE c1 c5), s5. split; [done|]. split; [done|]. split; [done|]. by apply repr_pipe.
Qed.

Lemma complete_eblock l rs : complete_line l → complete_exec (EBlock l rs).
Proof using Htext.
  intros Hl [Hwf Hwfr] fuel s rest Hs Hf Hts Hfol. destruct fuel as [|[|fuel]]; [lia..|]. cbn [parseexec parseblock].
  cbn in Hts. rewrite <-(assoc_L (++)) in Hts. cbn in Hts.
  destruct (peek_one c_open s Hs ltac:(in_syms) ltac:(lia))
    as [(ts & s1 & q & e & s4 & Ets & E1 & E4 & Hs1 & Et1 & _)|(s1 & Hst & _)]; [|by rewrite Hts in Hst].
  rewrite (bind_ok _ _ _ _ _ E1).
  destruct (peek_one c_open s1 Hs1 ltac:(in_syms) ltac:(lia))
    as [(ts' & s2 & q2 & e2 & s3 & Ets2 & E2 & E3 & _ & _ & Hs3 & Et3)|(s2 & Hst & _)]; [|by rewrite Et1, Hts in Hst].
  rewrite (bind_ok _ _ _ _ _ E2). cbn [negb]. rewrite (bind_ok _ _ _ _ _ E3).
  rewrite Et1, Hts in Ets2. injection Ets2 as <-.
  destruct (Hl Hwf fuel s3 _ Hs3 ltac:(rewrite Et3; rewrite Hts in Hf; cbn in Hf; lia) Et3) as (c5 & s5 & E5 & Hs5 & Et5 & Hr5).
  { apply follow_sym; [lia|]. rewrite !elem_of_cons. tauto. }
  rewrite (bind_ok _ _ _ _ _ E5).
  destruct (peek_one c_close s5 Hs5 ltac:(in_syms) ltac:(lia))
    as [(ts6 & s6 & q6 & e6 & s7 & Ets6 & E6 & E7 & _ & _ & Hs7 & Et7)|(s6 & Hst & _)]; [|by rewrite Et5 in Hst].
  rewrite (bind_ok _ _ _ _ _ E6). cbn [negb]. rewrite (bind_ok _ _ _ _ _ E7).
  rewrite Et5 in Ets6. injection Ets6 as <-.
  destruct (parseredirs_complete rs c5 _ s7 rest Hs7 Hr5 Hwfr Et7) as (c8 & s8 & E8 & ?).
  { apply (words_not_redir [] rest Hfol). }
  exists c8, s8. done.
Qed.

Lemma complete_ewords rs ws : complete_exec (EWords rs ws).
Proof using Htext.
  intros (Hwf & Hwfs & Hlen) fuel s rest Hs Hf Hts Hfol. destruct fuel as [|fuel]; [lia|]. cbn [parseexec].
  cbn in Hts. rewrite <-(assoc_L (++)) in Hts.
  destruct (peek_one c_open s Hs ltac:(in_syms) ltac:(lia)) as [(ts & ? & ? & ? & ? & Ets & _)|(s1 & _ & E1 & Hs1 & Et1)].
  { exfalso. rewrite Hts in Ets. destruct Hwf as [|r rs Hr Hwf].
    - cbn in Ets. destruct ws as [|w ws]; [|done]. cbn in Ets. subst rest.
      assert (starts [c_open] (TSym c_open :: ts) = false) by (eapply follow_not; [done|]; sets). done.
    - cbn in Ets. injection Ets as Er _. rewrite Er in Hr. unfold is_redir in Hr. lia. }
  rewrite (bind_ok _ _ _ _ _ E1). rewrite Hts in Et1.
  destruct (parseredirs_complete rs _ _ s1 _ Hs1 repr_exec Hwf Et1) as (c2 & s2 & E2 & Hs2 & Et2 & Hr2).
  { by apply words_not_redir. }
  rewrite (bind_ok _ _ _ _ _ E2). pose proof (length_toks s2).
  destruct (parseargs_complete ws (S es) c2 rs [] s2 rest ltac:(lia) Hs2 Hr2 Hwfs Hlen Et2 Hfol) as (c3 & s3 & E3 & ?).
  exists c3, s3. done.
Qed.

Lemma complete_all : (∀ l, complete_line l) ∧ (∀ p, complete_pipe p) ∧ (∀ e, complete_exec e).
Proof using Htext.
  apply grammar_ind; intros;
    [by apply complete_llast|by apply complete_lmore|by apply complete_plast|by apply complete_pmore
    |by apply complete_eblock|by apply complete_ewords].
Qed.
End parse.
