(* ===== verification/ShTheorems.v ===== *)
(** parsecmd() of sh.c decides the grammar of the shell. *)

From S2P Require Import Prelude Riscv Bytes Ulib Sh ShSpec ShParse.

(** ** The terminated words *)

Lemma cstr_app_zero l r : Forall (λ c, c ≠ 0) l → cstr (l ++ 0 :: r) = l.
Proof.
  induction 1 as [|c l Hc _ IH]; [done|]. cbn. rewrite (proj2 (Z.eqb_neq _ _) Hc). by rewrite IH.
Qed.

(** Storing 0 at every one of the places [es]. *)
Definition zeros (es : list nat) (m : list Z) : list Z := fold_left (λ m e, <[e:=0]> m) es m.

Lemma zeros_app es es' m : zeros (es ++ es') m = zeros es' (zeros es m).
Proof. apply fold_left_app. Qed.

Lemma nulterminate_zeros c m : nulterminate c m = zeros (snd <$> pwords c) m.
Proof.
  revert m. induction c as [argv|c IH q e md fd|l IHl r IHr|l IHl r IHr|c IH]; intros m; cbn.
  - revert m. induction argv as [|w argv IH]; intros m; [done|]. cbn. apply IH.
  - by rewrite fmap_app, zeros_app, IH.
  - by rewrite fmap_app, zeros_app, IHl, IHr.
  - by rewrite fmap_app, zeros_app, IHl, IHr.
  - apply IH.
Qed.

Lemma zeros_other es m j : j ∉ es → zeros es m !! j = m !! j.
Proof.
  revert m. induction es as [|e es IH]; intros m Hj; [done|]. apply not_elem_of_cons in Hj as [Hne Hj].
  cbn. rewrite IH by done. by apply list_lookup_insert_ne.
Qed.

Lemma zeros_at es m j : j ∈ es → (j < length m)%nat → zeros es m !! j = Some 0.
Proof.
  revert m. induction es as [|e es IH]; intros m Hj Hl; [by apply elem_of_nil in Hj|]. cbn.
  destruct (decide (j ∈ es)) as [Hin|Hout]; [apply IH; [done|by rewrite length_insert]|].
  apply elem_of_cons in Hj as [->|Hj]; [|done]. fold (zeros es (<[e:=0]> m)).
  rewrite zeros_other by done. by apply list_lookup_insert_eq.
Qed.

Lemma length_zeros es m : length (zeros es m) = length m.
Proof. revert m. induction es as [|e es IH]; intros m; [done|]. cbn. rewrite IH. apply length_insert. Qed.

Section words.
Context (text junk : list Z).
Hypothesis Htext : Forall (λ c, c ≠ 0) text.

(** No word of the tree ends inside another one. *)
Lemma word_ends_outside ws q e w j :
  Forall (is_word_at text) ws → word_at text q e w → (q ≤ j < e)%nat → j ∉ ws.*2.
Proof using.
  intros Hws [Ht Hle Hw _] Hj Hin. apply list_elem_of_fmap in Hin as ([q' e'] & -> & Hin). cbn in *.
  rewrite Forall_forall in Hws. destruct (Hws _ Hin) as (w' & [_ Hle' _ Hend']). cbn in *.
  destruct (lookup_is_Some text e') as [c Hc]; [lia|]. specialize (Hend' c Hc).
  assert (Hs : w !! (e' - q)%nat = Some c).
  { rewrite <-Ht. unfold sub. rewrite lookup_take_lt by lia. rewrite lookup_drop.
    by replace (q + (e' - q))%nat with e' by lia. }
  rewrite Forall_forall in Hw. specialize (Hw c (list_elem_of_lookup_2 _ _ _ Hs)). congruence.
Qed.

(** Every word of the tree is a C string afterwards. *)
Lemma nulterminate_word c w :
  Forall (is_word_at text) (pwords c) → w ∈ pwords c →
  cstr (drop w.1 (nulterminate c (text ++ 0 :: junk))) = sub text w.1 w.2.
Proof using Htext.
  intros Hws Hin. rewrite nulterminate_zeros. set (m := zeros _ _).
  pose proof Hws as Hf. rewrite Forall_forall in Hf. destruct (Hf w Hin) as (x & Hx). destruct w as [q e]. cbn [fst snd] in *.
  pose proof (wa_le _ _ _ _ Hx) as Hle.
  assert (Hm : length m = length (text ++ 0 :: junk)) by apply length_zeros.
  rewrite length_app in Hm. cbn in Hm.
  assert (He : m !! e = Some 0).
  { apply zeros_at; [|rewrite length_app; cbn; lia]. apply list_elem_of_fmap. by exists (q, e). }
  assert (Hsub : take (e - q) (drop q m) = sub text q e).
  { apply list_eq. intros i. unfold sub. destruct (decide (i < e - q)%nat).
    - rewrite !lookup_take_lt, !lookup_drop by done. unfold m.
      rewrite zeros_other by (eapply word_ends_outside; [done|done|lia]). apply lookup_app_l. lia.
    - by rewrite !lookup_take_ge by lia. }
  rewrite <-(take_drop (e - q) (drop q m)), Hsub, drop_drop.
  replace (q + (e - q))%nat with e by lia. rewrite (drop_S _ _ _ He). apply cstr_app_zero.
  unfold sub. by apply Forall_take, Forall_drop.
Qed.

Lemma denote_ext f g c : (∀ w, w ∈ pwords c → f w = g w) → denote f c = denote g c.
Proof using.
  induction c as [argv|c IH q e md fd|l IHl r IHr|l IHl r IHr|c IH]; cbn; intros H.
  - f_equal. apply Forall_fmap_ext_1, Forall_forall. exact H.
  - rewrite IH, H; [done|..]; intros; try apply H; rewrite elem_of_app, ?list_elem_of_singleton; auto.
  - rewrite IHl, IHr; [done|..]; intros w Hw; apply H; rewrite elem_of_app; auto.
  - rewrite IHl, IHr; [done|..]; intros w Hw; apply H; rewrite elem_of_app; auto.
  - by rewrite IH.
Qed.

Lemma strlen_text : Z.to_nat (strlen (text ++ 0 :: junk)) = length text.
Proof using Htext. by rewrite strlen_cstr, cstr_app_zero, Nat2Z.id. Qed.

End words.

Lemma parsecmd_ok text junk :
  Forall (λ c, c ≠ 0) text →
  match parsecmd (text ++ 0 :: junk) with
  | inr (c, m) => ∃ l, line_wf l ∧ lex text = line_toks l ∧ denote (λ w, cstr (drop w.1 m)) c = line_cmd l
  | inl e => e ≠ SFuel ∧ ∀ l, line_wf l → lex text ≠ line_toks l
  end.
Proof.
  intros Ht. unfold parsecmd. rewrite strlen_text by done. set (es := length text). set (mem := text ++ 0 :: junk).
  assert (Hlen : (4 * length (toks_at text 0) + 4 ≤ 4 * es + 4)%nat) by (pose proof (length_toks text 0); lia).
  assert (H0 : (0 ≤ length text)%nat) by lia.
  pose proof (so_line _ _ _ (sound_all text junk Ht (4 * es + 4)) 0 H0 Hlen) as Hso. unfold sound in Hso.
  assert (Hco : ∀ l, line_wf l → lex text = line_toks l →
    ∃ c s, parseline mem es (4 * es + 4) 0%nat = Ok c s ∧ toks_at text s = []).
  { intros l Hwf El. destruct (proj1 (complete_all text junk Ht) l Hwf (4 * es + 4)%nat 0%nat [] H0 Hlen)
      as (c & s & E & _ & Es & _); [by rewrite app_nil_r|by left|]. by exists c, s. }
  fold mem es in Hso. destruct (parseline mem es (4 * es + 4) 0%nat) as [c s|err s] eqn:Ep; last first.
  { rewrite (bind_err _ _ _ _ _ Ep). split; [done|]. intros l Hwf El. by destruct (Hco l Hwf El) as (? & ? & ? & _). }
  rewrite (bind_ok _ _ _ _ _ Ep). destruct Hso as (Hs & l & Hwf & Et & Hr).
  destruct (peek_ok text junk Ht [] s Hs) as (s' & E & Hs' & Et' & Hend); [intros ? []%elem_of_nil|].
  fold mem es in E. rewrite (bind_ok _ _ _ _ _ E). cbn [mret M_ret].
  destruct (bool_decide_reflect (s' ≠ es)) as [Hne|Heq].
  - split; [done|]. intros l' Hwf' El'. destruct (Hco l' Hwf' El') as (c1 & s1 & [= <- <-] & Hnil).
    by apply Hne, Hend.
  - assert (Es' : s' = es) by (destruct (decide (s' = es)); tauto). apply Hend in Es'.
    exists l. split; [done|]. rewrite Es', app_nil_r in Et. split; [done|]. destruct Hr as [<- Hws].
    apply denote_ext. intros w Hw. by apply nulterminate_word.
Qed.

(** C25: The parser of the shell decides the grammar.  For every line of text
    parsecmd() ends; it returns a tree exactly when the tokens of the text are
    a sentence of the grammar (lists of pipes with any number of ampersands,
    parenthesised lists, redirections anywhere between at most nine words),
    and then the tree, read with the C strings that nulterminate() left in the
    text, is the command the sentence stands for; otherwise it panics. *)
Theorem parsecmd_decides text junk :
  Forall (λ c, c ≠ 0) text →
  match parsecmd (text ++ 0 :: junk) with
  | inr (c, m) => ∃ l, line_wf l ∧ lex text = line_toks l ∧ denote (λ w, cstr (drop w.1 m)) c = line_cmd l
  | inl e => e ≠ SFuel ∧ ∀ l, line_wf l → lex text ≠ line_toks l
  end.
Proof. apply parsecmd_ok. Qed.

(** a <b|c>d&;(e) *)
Definition sample : list Z := [97; 32; 60; 98; 124; 99; 62; 100; 38; 59; 40; 101; 41].

Lemma parsecmd_decides_witness :
  Forall (λ c, c ≠ 0) sample ∧
  match parsecmd (sample ++ [0]) with
  | inr (c, m) => ∃ l, line_wf l ∧ lex sample = line_toks l ∧ denote (λ w, cstr (drop w.1 m)) c = line_cmd l
  | inl e => e ≠ SFuel ∧ ∀ l, line_wf l → lex sample ≠ line_toks l
  end.
Proof.
  assert (H : Forall (λ c, c ≠ 0) sample) by (by repeat constructor).
  split; [exact H|exact (parsecmd_decides sample [] H)].
Defined.

(** The tree of that line. *)
Example parsecmd_sample :
  match parsecmd (sample ++ [0]) with
  | inr (c, m) => denote (λ w, cstr (drop w.1 m)) c =
      CList (CBack (CPipe (CRedir (CExec [[97]]) [98] 0 0) (CRedir (CExec [[99]]) [100] 1537 1))) (CExec [[101]])
  | inl _ => False
  end.
Proof. vm_compute. reflexivity. Qed.
