(* ===== verification/Smp.v ===== *)
(** Scheduling on several harts: scheduler(), sched(), yield(), sleep(),
    wakeup(), kill(), exit(), fork() and wait() of kernel/proc.c as they act on
    the process table, with the hand-over of p->lock across swtch().

    The other files follow one kernel thread up to the point where it gives up
    the hart.  Here all harts interleave; a step is the code between two lock
    operations.  Acquiring a lock waits until it is free (Spinlock.v shows that
    acquire() gives mutual exclusion; a hart that acquires a lock it holds
    panics, here it does not go on).  release() and sched() panic when the
    locks are not held as they demand, which stops everything: their steps
    have these checks as guards.

    The kernel code around these functions is arbitrary: at any time it takes
    and gives back other locks, and p->lock of its own process as mmap() and
    munmap() do, and calls any of the functions, with whatever locks it holds.
    A hart that holds no lock may be interrupted, in a process or in
    scheduler(), also inside one of the functions here; the handler is arbitrary
    kernel code as well, which gives back the locks it takes.  In a process it
    runs in the thread of that process, on top of the code it interrupted; in
    scheduler() it has no process and calls wakeup() only. *)

From stdpp Require Import functions.
From S2P Require Import Prelude Riscv Kstate.

(** Spin locks: proc[i].lock, and all others by number. *)
Inductive lock : Type := LP (i : nat) | LK (k : nat).
#[export] Instance lock_eq_dec : EqDecision lock.
Proof. solve_decision. Defined.
Definition wait_lock : nat := 0.

(** The fields of struct proc that are protected by p->lock; [None] is the
    null channel. *)
Record sproc : Type := SProc { sp_state : procstate; sp_chan : option nat; sp_pid : Z; sp_killed : Z }.

(** Where a kernel thread is: in code that is not of this file ([TRun]), or
    before, inside or behind one of the critical sections. *)
Inductive tpc : Type :=
| TRun
| TYield                          (* yield: acquire(&p->lock) *)
| TYieldGot                       (* p->state = RUNNABLE; sched() *)
| TYieldRet                       (* back from sched(): release(&p->lock) *)
| TSleep (c lk : nat)             (* sleep(c, lk): acquire(&p->lock) *)
| TSleepGot (c lk : nat)          (* release(lk) *)
| TSleepRel (c lk : nat)          (* p->chan = c; p->state = SLEEPING; sched() *)
| TSleepRet (c lk : nat)          (* back: p->chan = 0; release(&p->lock) *)
| TSleepLk (lk : nat)             (* acquire(lk) *)
| TWake (c i : nat)               (* wakeup(c): the loop at proc[i] *)
| TWakeGot (c i : nat)            (* test proc[i], release *)
| TKill (pid : Z) (i : nat)       (* kill(pid): the loop at proc[i] *)
| TKillGot (pid : Z) (i : nat)
| TExit                           (* exit, with wait_lock: acquire(&p->lock) *)
| TExitGot                        (* p->state = ZOMBIE; release(&wait_lock) *)
| TExitRel                        (* sched() *)
| TDead                           (* never runs again *)
| TAlloc (i : nat)                (* allocproc(): the loop at proc[i] *)
| TAllocGot (i : nat)
| TNew (i : nat)                  (* the rest of allocproc() and fork() with np->lock *)
| TForkW (i : nat)                (* fork: acquire(&wait_lock) *)
| TForkWGot (i : nat)             (* np->parent = p; release(&wait_lock) *)
| TStart (i : nat)                (* fork: acquire(&np->lock) *)
| TStartGot (i : nat)             (* np->state = RUNNABLE; release *)
| TReap (i : nat)                 (* wait, at a child proc[i]: acquire(&np->lock) *)
| TReapGot (i : nat)              (* a zombie is freed; release *)
| TForkRet.                       (* forkret(): release(&p->lock) *)

(** Where a hart is: in scheduler(), in the kernel thread of a process, or in
    an interrupt handler that interrupted scheduler() at proc[i]. *)
Inductive hpc : Type :=
| HScan (i : nat)                 (* the loop at proc[i]: acquire(&p->lock) *)
| HTest (i : nat)                 (* if(p->state == RUNNABLE) *)
| HBack (i : nat)                 (* back from swtch(): c->proc = 0; release(&p->lock) *)
| HProc (p : nat)
| HIntr (i : nat).

(** [h_proc] is c->proc. *)
Record hart : Type := Hart { h_proc : option nat; h_pc : hpc }.

(** [m_ctx p] is where the thread of process [p] is, or continues: what
    p->context and its stack hold while it does not run.  [m_stack p] is where
    the code continues that interrupt handlers of that thread have interrupted,
    the innermost first.  The handler of hart [h] in scheduler() has number
    NPROC + h; it has no struct proc.  [m_held p]: the thread has taken its own
    p->lock outside the functions of this file. *)
Record smp : Type := Smp {
  m_procs : nat → sproc;
  m_ctx : nat → tpc;
  m_stack : nat → list tpc;
  m_held : nat → bool;
  m_harts : nat → hart;
  m_owner : lock → option nat;
}.

(** The thread that a hart runs. *)
Definition thread (h : nat) (pc : hpc) : option nat :=
  match pc with HProc p => Some p | HIntr _ => Some (NPROC + h)%nat | _ => None end.
Definition runs (s : smp) (h p : nat) : Prop := thread h (h_pc (m_harts s h)) = Some p.
#[export] Instance runs_dec s h p : Decision (runs s h p).
Proof. unfold runs. apply _. Defined.

(** ** The pieces of the functions *)

Definition with_state (st : procstate) (x : sproc) : sproc := SProc st (sp_chan x) (sp_pid x) (sp_killed x).

(** The next lock that the thread of process [me] acquires, and where it is
    with it. *)
Definition acquires (me : nat) (t : tpc) : option (lock * tpc) :=
  match t with
  | TYield => Some (LP me, TYieldGot)
  | TSleep c lk => Some (LP me, TSleepGot c lk)
  | TSleepLk lk => Some (LK lk, TRun)
  | TWake c i => if decide (i < NPROC ∧ i ≠ me)%nat then Some (LP i, TWakeGot c i) else None
  | TKill pid i => if decide (i < NPROC)%nat then Some (LP i, TKillGot pid i) else None
  | TExit => Some (LP me, TExitGot)
  | TAlloc i => if decide (i < NPROC)%nat then Some (LP i, TAllocGot i) else None
  | TForkW i => Some (LK wait_lock, TForkWGot i)
  | TStart i => Some (LP i, TStartGot i)
  | TReap i => Some (LP i, TReapGot i)
  | _ => None
  end.

(** The loops' tests that need no lock: the own process is skipped, the loop
    ends behind the last process. *)
Definition advances (me : nat) (t : tpc) : option tpc :=
  match t with
  | TWake c i =>
      if decide (NPROC ≤ i)%nat then Some TRun
      else if decide (i = me) then Some (TWake c (S i)) else None
  | TKill pid i => if decide (NPROC ≤ i)%nat then Some TRun else None
  | TAlloc i => if decide (NPROC ≤ i)%nat then Some TRun else None
  | _ => None
  end.

(** A critical section of a process lock up to its release: the process whose
    lock it is, its new fields, and where the thread goes on. *)
Definition critical (me : nat) (t : tpc) (procs : nat → sproc) : option (nat * sproc * tpc) :=
  match t with
  | TYieldRet => Some (me, procs me, TRun)
  | TSleepRet c lk =>
      let x := procs me in
      Some (me, SProc (sp_state x) None (sp_pid x) (sp_killed x), TSleepLk lk)
  | TForkRet => Some (me, procs me, TRun)
  | TWakeGot c i =>
      let x := procs i in
      Some (i, if bool_decide (sp_state x = SLEEPING ∧ sp_chan x = Some c) then with_state RUNNABLE x else x,
            TWake c (S i))
  | TKillGot pid i =>
      let x := procs i in
      if sp_pid x =? pid then
        Some (i, SProc (if decide (sp_state x = SLEEPING) then RUNNABLE else sp_state x) (sp_chan x) (sp_pid x) 1, TRun)
      else Some (i, x, TKill pid (S i))
  | TStartGot i => Some (i, with_state RUNNABLE (procs i), TRun)
  | TReapGot i =>
      let x := procs i in
      Some (i, if decide (sp_state x = ZOMBIE) then SProc UNUSED None 0 0 else x, TRun)
  | TAllocGot i =>
      let x := procs i in
      if decide (sp_state x = UNUSED) then None   (* in [step_found] *)
      else Some (i, x, TAlloc (S i))
  | _ => None
  end.

(** sched(): the new fields of the process, and where it comes back. *)
Definition scheds (t : tpc) (x : sproc) : option (sproc * tpc) :=
  match t with
  | TYieldGot => Some (with_state RUNNABLE x, TYieldRet)
  | TSleepRel c lk => Some (SProc SLEEPING (Some c) (sp_pid x) (sp_killed x), TSleepRet c lk)
  | TExitRel => Some (x, TDead)
  | _ => None
  end.

(** release() of a lock that is not a process's: the lock, the state of the
    own process, and where the thread goes on. *)
Definition releases (t : tpc) (x : sproc) : option (nat * sproc * tpc) :=
  match t with
  | TSleepGot c lk => Some (lk, x, TSleepRel c lk)
  | TExitGot => Some (wait_lock, with_state ZOMBIE x, TExitRel)
  | TForkWGot i => Some (wait_lock, x, TStart i)
  | _ => None
  end.

(** ** Steps *)

Definition set_pc (h : nat) (pc : hpc) (s : smp) : smp :=
  Smp (m_procs s) (m_ctx s) (m_stack s) (m_held s) (<[h:=Hart (h_proc (m_harts s h)) pc]> (m_harts s)) (m_owner s).
Definition set_cpu (h : nat) (c : hart) (s : smp) : smp :=
  Smp (m_procs s) (m_ctx s) (m_stack s) (m_held s) (<[h:=c]> (m_harts s)) (m_owner s).
Definition set_ctx (p : nat) (t : tpc) (s : smp) : smp :=
  Smp (m_procs s) (<[p:=t]> (m_ctx s)) (m_stack s) (m_held s) (m_harts s) (m_owner s).
Definition set_stack (p : nat) (l : list tpc) (s : smp) : smp :=
  Smp (m_procs s) (m_ctx s) (<[p:=l]> (m_stack s)) (m_held s) (m_harts s) (m_owner s).
Definition set_own (p : nat) (b : bool) (s : smp) : smp :=
  Smp (m_procs s) (m_ctx s) (m_stack s) (<[p:=b]> (m_held s)) (m_harts s) (m_owner s).
Definition set_proc (p : nat) (x : sproc) (s : smp) : smp :=
  Smp (<[p:=x]> (m_procs s)) (m_ctx s) (m_stack s) (m_held s) (m_harts s) (m_owner s).
Definition set_owner (l : lock) (o : option nat) (s : smp) : smp :=
  Smp (m_procs s) (m_ctx s) (m_stack s) (m_held s) (m_harts s) (<[l:=o]> (m_owner s)).

(** No interrupt is taken while a lock is held. *)
Definition no_lock (s : smp) (h : nat) : Prop := ∀ l, m_owner s l ≠ Some h.

(** The calls a thread may make; a handler in scheduler() has no process. *)
Inductive calls (p : nat) : tpc → Prop :=
| call_wakeup c : calls p (TWake c 0)
| call_yield : (p < NPROC)%nat → calls p TYield
| call_sleep c lk : (p < NPROC)%nat → calls p (TSleep c lk)
| call_kill pid : (p < NPROC)%nat → calls p (TKill pid 0)
| call_exit : (p < NPROC)%nat → calls p TExit
| call_fork : (p < NPROC)%nat → calls p (TAlloc 0)
| call_wait i : (p < NPROC)%nat → (i < NPROC)%nat → calls p (TReap i).

(** Where other locks are taken: in other code, and inside allocproc(), fork()
    and wait() while they hold the lock of the child (pid_lock, kmem.lock,
    ftable.lock, vmaslock, ...). *)
Definition takes_locks (t : tpc) : bool :=
  match t with TRun | TAllocGot _ | TNew _ | TReapGot _ => true | _ => false end.

Inductive step : smp → smp → Prop :=
(* scheduler() *)
| step_wrap s h i :
    h_pc (m_harts s h) = HScan i → (NPROC ≤ i)%nat →
    step s (set_pc h (HScan 0) s)
| step_scan s h i :
    h_pc (m_harts s h) = HScan i → (i < NPROC)%nat → m_owner s (LP i) = None →
    step s (set_owner (LP i) (Some h) (set_pc h (HTest i) s))
| step_skip s h i :
    h_pc (m_harts s h) = HTest i → sp_state (m_procs s i) ≠ RUNNABLE →
    step s (set_owner (LP i) None (set_pc h (HScan (S i)) s))
| step_swtch s h i :
    h_pc (m_harts s h) = HTest i → sp_state (m_procs s i) = RUNNABLE →
    step s (set_cpu h (Hart (Some i) (HProc i)) (set_proc i (with_state RUNNING (m_procs s i)) s))
| step_back s h i :
    h_pc (m_harts s h) = HBack i →
    step s (set_owner (LP i) None (set_cpu h (Hart None (HScan (S i))) s))
(* interrupts *)
| step_hintr s h i :
    h_pc (m_harts s h) = HScan i → step s (set_pc h (HIntr i) s)
| step_hiret s h i :
    h_pc (m_harts s h) = HIntr i → m_ctx s (NPROC + h)%nat = TRun → m_stack s (NPROC + h)%nat = [] → no_lock s h →
    step s (set_pc h (HScan i) s)
| step_intr s h p :
    runs s h p → no_lock s h → step s (set_stack p (m_ctx s p :: m_stack s p) (set_ctx p TRun s))
| step_iret s h p t l :
    runs s h p → m_ctx s p = TRun → m_stack s p = t :: l → no_lock s h → step s (set_stack p l (set_ctx p t s))
(* a kernel thread in other code *)
| step_call s h p t :
    runs s h p → m_ctx s p = TRun → calls p t → step s (set_ctx p t s)
| step_lock s h p k :
    runs s h p → takes_locks (m_ctx s p) = true → m_owner s (LK k) = None →
    step s (set_owner (LK k) (Some h) s)
| step_unlock s h p k :
    runs s h p → takes_locks (m_ctx s p) = true → m_owner s (LK k) = Some h →
    step s (set_owner (LK k) None s)
| step_plock s h p :
    runs s h p → (p < NPROC)%nat → m_ctx s p = TRun → m_owner s (LP p) = None →
    step s (set_owner (LP p) (Some h) (set_own p true s))
| step_punlock s h p :
    runs s h p → m_ctx s p = TRun → m_held s p = true →
    step s (set_owner (LP p) None (set_own p false s))
(* p->killed = 1 in usertrap(), without the lock *)
| step_kill_self s h p :
    runs s h p → m_ctx s p = TRun →
    step s (set_proc p (SProc (sp_state (m_procs s p)) (sp_chan (m_procs s p)) (sp_pid (m_procs s p)) 1) s)
(* a kernel thread in the functions *)
| step_acquire s h p l t :
    runs s h p → acquires p (m_ctx s p) = Some (l, t) → m_owner s l = None →
    step s (set_owner l (Some h) (set_ctx p t s))
| step_advance s h p t :
    runs s h p → advances p (m_ctx s p) = Some t → step s (set_ctx p t s)
| step_critical s h p i x t :
    runs s h p → critical p (m_ctx s p) (m_procs s) = Some (i, x, t) →
    step s (set_owner (LP i) None (set_proc i x (set_ctx p t s)))
| step_release s h p k x t :
    runs s h p → releases (m_ctx s p) (m_procs s p) = Some (k, x, t) → m_owner s (LK k) = Some h →
    step s (set_owner (LK k) None (set_proc p x (set_ctx p t s)))
(* sched(), which panics if another lock is held *)
| step_sched s h p x t :
    h_pc (m_harts s h) = HProc p → scheds (m_ctx s p) (m_procs s p) = Some (x, t) →
    (∀ l, m_owner s l = Some h → l = LP p) →
    step s (set_pc h (HBack p) (set_proc p x (set_ctx p t s)))
(* allocproc() finds a process *)
| step_found s h p i pid :
    runs s h p → m_ctx s p = TAllocGot i → sp_state (m_procs s i) = UNUSED →
    step s (set_proc i (SProc USED None pid 0) (set_ctx i TForkRet (set_stack i [] (set_ctx p (TNew i) s))))
(* fork() has everything for it; or has no area for it and returns with the
   process USED; or allocproc() or fork() has no memory and frees it *)
| step_child s h p i :
    runs s h p → m_ctx s p = TNew i → step s (set_owner (LP i) None (set_ctx p (TForkW i) s))
| step_no_area s h p i :
    runs s h p → m_ctx s p = TNew i → step s (set_owner (LP i) None (set_ctx p TRun s))
| step_no_mem s h p i :
    runs s h p → m_ctx s p = TNew i →
    step s (set_owner (LP i) None (set_proc i (SProc UNUSED None 0 0) (set_ctx i TDead (set_ctx p TRun s))))
(* wait() cannot copy the status out *)
| step_no_copy s h p i :
    runs s h p → m_ctx s p = TReapGot i → step s (set_owner (LP i) None (set_ctx p TRun s)).

(** After procinit() and userinit(): process 0 is ready to run, every hart is
    at the start of scheduler(), no lock is held. *)
Definition boot : smp :=
  Smp (λ i, if decide (i = 0%nat) then SProc RUNNABLE None 1 0
            else if decide (i < NPROC)%nat then SProc UNUSED None 0 0 else SProc RUNNING None 0 0)
      (λ i, if decide (i = 0%nat) then TForkRet else if decide (i < NPROC)%nat then TDead else TRun)
      (λ _, []) (λ _, false) (λ _, Hart None (HScan 0)) (λ _, None).

Definition reach (s : smp) : Prop := rtc step boot s.

(** ** The invariant *)

(** The process lock that the thread of [me] holds while it runs. *)
Definition plock (me : nat) (t : tpc) : option nat :=
  match t with
  | TYieldGot | TYieldRet | TSleepGot _ _ | TSleepRel _ _ | TSleepRet _ _ | TForkRet | TExitGot | TExitRel => Some me
  | TWakeGot _ i | TKillGot _ i | TAllocGot i | TNew i | TStartGot i | TReapGot i => Some i
  | _ => None
  end.
(** The process lock a hart holds in scheduler(). *)
Definition slock (pc : hpc) : option nat :=
  match pc with HTest i | HBack i => Some i | _ => None end.
Definition hlock (s : smp) (h : nat) : option nat :=
  match thread h (h_pc (m_harts s h)) with
  | Some p => plock p (m_ctx s p)
  | None => slock (h_pc (m_harts s h))
  end.

(** A process that no hart runs: its state says where it continues. *)
Definition idle_ok (p : nat) (x : sproc) (t : tpc) : Prop :=
  match sp_state x with
  | UNUSED | ZOMBIE => t = TDead
  | USED => t = TForkRet
  | RUNNABLE => t = TYieldRet ∨ t = TForkRet ∨ ∃ c lk, t = TSleepRet c lk
  | SLEEPING => ∃ c lk, t = TSleepRet c lk ∧ sp_chan x = Some c
  | RUNNING => (NPROC ≤ p)%nat ∧ t = TRun
  end.
(** A process that a hart runs. *)
Definition run_ok (x : sproc) (t : tpc) : Prop :=
  sp_state x = (match t with TExitRel => ZOMBIE | _ => RUNNING end) ∧ t ≠ TDead.

(** The new process that a thread in fork() is about to start. *)
Definition starting (t : tpc) : option nat :=
  match t with TNew i | TForkW i | TForkWGot i | TStart i | TStartGot i => Some i | _ => None end.
Definition starts (s : smp) (p : nat) : list nat := omap starting (m_ctx s p :: m_stack s p).

(** Where an interrupted thread can be. *)
Definition interruptible (p : nat) (t : tpc) : Prop := plock p t = None ∧ t ≠ TDead.
(** Where a handler without a process can be. *)
Definition handler (t : tpc) : Prop :=
  match t with TRun | TWake _ _ | TWakeGot _ _ => True | _ => False end.

(** Process [q] is inside sleep(c, lk) and has given up [lk]. *)
Definition waiting (s : smp) (q c lk : nat) : Prop :=
  m_ctx s q = TSleepRel c lk ∨ m_ctx s q = TSleepRet c lk ∧ sp_state (m_procs s q) = SLEEPING.

(** How far the loop of a wakeup(c) is. *)
Definition waking (t : tpc) : option (nat * nat) :=
  match t with TWake c i | TWakeGot c i => Some (c, i) | _ => None end.

Record smp_ok (s : smp) : Prop := {
  so_plock : ∀ i h, m_owner s (LP i) = Some h ↔ hlock s h = Some i ∨ runs s h i ∧ m_held s i = true;
  so_held : ∀ p, m_held s p = true → (p < NPROC)%nat ∧ (∃ h, runs s h p) ∧ plock p (m_ctx s p) ≠ Some p;
  so_klock : ∀ h k, (∀ p, ¬ runs s h p) → m_owner s (LK k) ≠ Some h;
  so_cpu : ∀ h, h_proc (m_harts s h) =
    match h_pc (m_harts s h) with HProc p | HBack p => Some p | _ => None end;
  so_range : ∀ h, match h_pc (m_harts s h) with HTest p | HProc p | HBack p => (p < NPROC)%nat | _ => True end;
  so_run : ∀ h p, runs s h p → run_ok (m_procs s p) (m_ctx s p);
  so_once : ∀ h h' p, runs s h p → runs s h' p → h = h';
  so_idle : ∀ p, (∀ h, ¬ runs s h p) → idle_ok p (m_procs s p) (m_ctx s p);
  so_stack : ∀ p, Forall (interruptible p) (m_stack s p);
  so_handler : ∀ p, (NPROC ≤ p)%nat → sp_state (m_procs s p) = RUNNING ∧ Forall handler (m_ctx s p :: m_stack s p);
  so_start : ∀ p i, i ∈ starts s p → sp_state (m_procs s i) = USED ∧ ∀ q, i ∈ starts s q → q = p;
  so_nodup : ∀ p, NoDup (starts s p);
  so_wake : ∀ h p c i lk q, runs s h p → waking (m_ctx s p) = Some (c, i) → m_owner s (LK lk) = Some h →
    (q < i)%nat → q ≠ p → ¬ waiting s q c lk;
}.
