(* ===== verification/SmpInv.v ===== *)
(** Every step of the schedulers and of the kernel threads keeps the invariant
    of the process table. *)

From stdpp Require Import functions.
From S2P Require Import Prelude Riscv Kstate Smp.

(** ** Facts that follow from the invariant *)

Section facts.
Context (s : smp).
Hypothesis H : smp_ok s.

Lemma hlock_run h p : runs s h p → hlock s h = plock p (m_ctx s p).
Proof using. unfold runs, hlock. by intros ->. Qed.

Lemma lock_unique h h' i : hlock s h = Some i → hlock s h' = Some i → h = h'.
Proof using H.
  intros H1 H2. pose proof (proj2 (so_plock _ H i h) (or_introl H1)). pose proof (proj2 (so_plock _ H i h') (or_introl H2)).
  congruence.
Qed.

Lemma runs_inj h p p' : runs s h p → runs s h p' → p = p'.
Proof using. unfold runs. congruence. Qed.

(** A process that is run is RUNNING, or on its way out. *)
Lemma run_state h p : runs s h p → sp_state (m_procs s p) = RUNNING ∨ sp_state (m_procs s p) = ZOMBIE ∧ m_ctx s p = TExitRel.
Proof using H. intros Hr. destruct (so_run _ H h p Hr) as [E _]. destruct (m_ctx s p); auto. Qed.

Lemma run_now h p : runs s h p → run_ok (m_procs s p) (m_ctx s p).
Proof using H. intros Hr. by apply (so_run _ H h). Qed.

Lemma not_run p :
  sp_state (m_procs s p) ≠ RUNNING → m_ctx s p ≠ TExitRel → ∀ h, ¬ runs s h p.
Proof using H. intros Hs Hc h Hr. destruct (run_state h p Hr) as [?|[_ ?]]; done. Qed.

(** Only processes change their state. *)
Lemma state_range p : sp_state (m_procs s p) ≠ RUNNING → (p < NPROC)%nat.
Proof using H. intros Hs. destruct (decide (p < NPROC)%nat); [done|]. destruct Hs. apply (so_handler _ H). lia. Qed.

(** A process that is being started is not run, and not waited for. *)
Lemma start_idle p i : i ∈ starts s p → ∀ h, ¬ runs s h i.
Proof using H.
  intros Hs. destruct (so_start _ H p i Hs) as [E _]. intros h Hr.
  destruct (run_state h i Hr) as [E'|[E' _]]; congruence.
Qed.

Lemma start_now p i : starting (m_ctx s p) = Some i → i ∈ starts s p.
Proof using. intros E. unfold starts. cbn. rewrite E. by left. Qed.

(** The thread of a process that is not idle runs. *)
Lemma idle_false p : ¬ idle_ok p (m_procs s p) (m_ctx s p) → (∀ h, runs s h p → False) → False.
Proof using H. intros Hi Hr. apply Hi, (so_idle _ H). intros h Hh. by apply (Hr h). Qed.

(** The locks of a hart that runs a thread. *)
Lemma owner_plock h p j :
  runs s h p → m_owner s (LP j) = Some h ↔ plock p (m_ctx s p) = Some j ∨ j = p ∧ m_held s p = true.
Proof using H.
  intros Hr. rewrite (so_plock _ H), (hlock_run h p Hr). split; (intros [?|[E ?]]; [by left|right]).
  - by rewrite (runs_inj h p j Hr E).
  - by subst j.
Qed.

Lemma own_free p : (∀ h, ¬ runs s h p) → m_held s p = false.
Proof using H. intros Hn. destruct (m_held s p) eqn:E; [|done]. destruct (so_held _ H p E) as (_ & [h Hh] & _). by destruct (Hn h). Qed.

Lemma plock_not_held p : plock p (m_ctx s p) = Some p → m_held s p = false.
Proof using H. intros Hp. destruct (m_held s p) eqn:E; [|done]. by destruct (so_held _ H p E) as (_ & _ & ?). Qed.

(** A hart without locks runs a thread that can be interrupted. *)
Lemma no_lock_free h p : runs s h p → no_lock s h → plock p (m_ctx s p) = None ∧ m_held s p = false.
Proof using H.
  intros Hr Hn. split.
  - destruct (plock p (m_ctx s p)) as [j|] eqn:E; [|done]. destruct (Hn (LP j)). apply (owner_plock h p j Hr). by left.
  - destruct (m_held s p) eqn:E; [|done]. destruct (Hn (LP p)). apply (owner_plock h p p Hr). by right.
Qed.
End facts.

(** ** A step of a kernel thread *)

(** Hart [h], in the thread of [p], goes to [t] with the interrupted code [l]
    and makes the fields of process [i] be [x]. *)
Record moves (s s' : smp) (h p : nat) (t : tpc) (l : list tpc) (i : nat) (x : sproc) : Prop := {
  mv_runs : runs s h p;
  mv_harts : m_harts s' = m_harts s;
  mv_ctx : ∀ q, m_ctx s' q = <[p:=t]> (m_ctx s) q;
  mv_stack : ∀ q, m_stack s' q = <[p:=l]> (m_stack s) q;
  mv_procs : ∀ q, m_procs s' q = <[i:=x]> (m_procs s) q;
  mv_frames : Forall (interruptible p) l;
  mv_handler : (NPROC ≤ p)%nat → Forall handler (t :: l);
  (* locks *)
  mv_own : ∀ q, q ≠ p → m_held s' q = m_held s q;
  mv_held : m_held s' p = true → (p < NPROC)%nat ∧ plock p t ≠ Some p;
  mv_plock : ∀ j h', m_owner s' (LP j) = Some h' ↔
    (h' = h ∧ (plock p t = Some j ∨ j = p ∧ m_held s' p = true) ∨ h' ≠ h ∧ m_owner s (LP j) = Some h');
  mv_klock : ∀ k h', h' ≠ h → m_owner s' (LK k) = Some h' ↔ m_owner s (LK k) = Some h';
  (* processes *)
  mv_run : run_ok (<[i:=x]> (m_procs s) p) t;
  mv_other : i ≠ p →
    sp_state x = sp_state (m_procs s i) ∧ sp_chan x = sp_chan (m_procs s i) ∨
    (i < NPROC)%nat ∧ (∀ h, ¬ runs s h i) ∧ idle_ok i x (m_ctx s i) ∧ sp_state x ≠ SLEEPING;
  (* fork *)
  mv_start : omap starting (t :: l) `sublist_of` starts s p ∨
    ∃ j, omap starting (t :: l) = j :: starts s p ∧ sp_state (m_procs s j) = USED ∧ ∀ q, j ∉ starts s q;
  mv_started : i ≠ p → sp_state x = sp_state (m_procs s i) ∨ (∀ q, i ∉ starts s' q);
  (* wakeup *)
  mv_waiting : ∀ c lk, t = TSleepRel c lk → m_owner s (LK lk) = Some h;
  mv_back : ∀ c lk, t ≠ TSleepRet c lk;
  mv_waking : ∀ c k lk q, waking t = Some (c, k) → m_owner s' (LK lk) = Some h → (q < k)%nat → q ≠ p → ¬ waiting s' q c lk;
}.

Section moves.
Context (s s' : smp) (h p : nat) (t : tpc) (l : list tpc) (i : nat) (x : sproc).
Hypothesis H : smp_ok s.
Hypothesis M : moves s s' h p t l i x.

Lemma mv_runs' h' q : runs s' h' q ↔ runs s h' q.
Proof using M. unfold runs. by rewrite (mv_harts _ _ _ _ _ _ _ _ M). Qed.

Lemma mv_ctx_ne q : q ≠ p → m_ctx s' q = m_ctx s q.
Proof using M. intros Hq. rewrite (mv_ctx _ _ _ _ _ _ _ _ M). by rewrite fn_lookup_insert_ne. Qed.

Lemma mv_ctx_eq : m_ctx s' p = t.
Proof using M. rewrite (mv_ctx _ _ _ _ _ _ _ _ M). apply fn_lookup_insert. Qed.

Lemma mv_stack_ne q : q ≠ p → m_stack s' q = m_stack s q.
Proof using M. intros Hq. rewrite (mv_stack _ _ _ _ _ _ _ _ M). by rewrite fn_lookup_insert_ne. Qed.

Lemma mv_stack_eq : m_stack s' p = l.
Proof using M. rewrite (mv_stack _ _ _ _ _ _ _ _ M). apply fn_lookup_insert. Qed.

Lemma mv_starts_ne q : q ≠ p → starts s' q = starts s q.
Proof using M. intros Hq. unfold starts. by rewrite mv_ctx_ne, mv_stack_ne. Qed.

Lemma mv_starts_eq : starts s' p = omap starting (t :: l).
Proof using M. unfold starts. by rewrite mv_ctx_eq, mv_stack_eq. Qed.

Lemma mv_proc_ne q : q ≠ i → m_procs s' q = m_procs s q.
Proof using M. intros Hq. rewrite (mv_procs _ _ _ _ _ _ _ _ M). by rewrite fn_lookup_insert_ne. Qed.

Lemma mv_proc_eq : m_procs s' i = x.
Proof using M. rewrite (mv_procs _ _ _ _ _ _ _ _ M). apply fn_lookup_insert. Qed.

Lemma mv_hart_ne h' q : h' ≠ h → runs s h' q → q ≠ p.
Proof using H M. intros Hne Hr ->. by apply Hne, (so_once _ H h' h p Hr), (mv_runs _ _ _ _ _ _ _ _ M). Qed.

Lemma mv_hlock_ne h' : h' ≠ h → hlock s' h' = hlock s h'.
Proof using H M.
  intros Hne. unfold hlock. rewrite (mv_harts _ _ _ _ _ _ _ _ M).
  destruct (thread h' (h_pc (m_harts s h'))) as [q|] eqn:E; [|done]. rewrite mv_ctx_ne; [done|].
  by apply (mv_hart_ne h').
Qed.

Lemma mv_hlock_eq : hlock s' h = plock p t.
Proof using M.
  rewrite (hlock_run s' h p); [by rewrite mv_ctx_eq|]. apply mv_runs', (mv_runs _ _ _ _ _ _ _ _ M).
Qed.

(** Nobody else starts to wait. *)
Lemma mv_waiting_old q c lk :
  waiting s' q c lk → waiting s q c lk ∨ q = p ∧ m_owner s (LK lk) = Some h.
Proof using H M.
  unfold waiting. destruct (decide (q = p)) as [->|Hqp].
  - rewrite mv_ctx_eq. intros [E|[E _]]; [right; split; [done|]; by eapply mv_waiting|].
    by apply (mv_back _ _ _ _ _ _ _ _ M) in E.
  - rewrite mv_ctx_ne by done. intros [E|[E Hs]]; left; [by left|]. right. split; [done|].
    destruct (decide (q = i)) as [->|Hqi]; [|by rewrite mv_proc_ne in Hs].
    rewrite mv_proc_eq in Hs.
    destruct (mv_other _ _ _ _ _ _ _ _ M Hqp) as [[Es _]|(_ & _ & _ & Hne)]; congruence.
Qed.

Lemma moves_start q j :
  j ∈ starts s' q → sp_state (m_procs s' j) = USED ∧ ∀ q', j ∈ starts s' q' → q' = q.
Proof using H M.
  intros Hs.
  assert (Hold : ∀ q', j ∈ starts s' q' → j ∈ starts s q' ∨
    q' = p ∧ sp_state (m_procs s j) = USED ∧ ∀ q, j ∉ starts s q).
  { intros q'. destruct (decide (q' = p)) as [->|]; [rewrite mv_starts_eq|rewrite mv_starts_ne by done; auto].
    destruct (mv_start _ _ _ _ _ _ _ _ M) as [E|(j' & E & ?)]; [intros Hj; left; by eapply elem_of_sublist|].
    rewrite E. intros [->|?]%elem_of_cons; auto. }
  assert (Hused : sp_state (m_procs s j) = USED).
  { destruct (Hold q Hs) as [Ho|(_ & ? & _)]; [|done]. by apply (so_start _ H q). }
  split.
  - destruct (decide (j = i)) as [->|Hne]; [|by rewrite mv_proc_ne]. rewrite mv_proc_eq.
    destruct (decide (i = p)) as [->|Hip].
    { exfalso. destruct (run_state s H h p (mv_runs _ _ _ _ _ _ _ _ M)) as [?|[? _]]; congruence. }
    destruct (mv_started _ _ _ _ _ _ _ _ M Hip) as [E|E]; [congruence|]. by destruct (E q).
  - intros q' Hq'. destruct (Hold q Hs) as [Ho|(-> & _ & Hn)], (Hold q' Hq') as [Ho'|(-> & _ & Hn')].
    + by apply (so_start _ H q j Ho).
    + by destruct (Hn' q).
    + by destruct (Hn q').
    + done.
Qed.

Lemma moves_nodup q : NoDup (starts s' q).
Proof using H M.
  destruct (decide (q = p)) as [->|Hq]; [|rewrite mv_starts_ne by done; apply (so_nodup _ H)]. rewrite mv_starts_eq.
  destruct (mv_start _ _ _ _ _ _ _ _ M) as [E|(j & E & _ & Hj)].
  - eapply sublist_NoDup; [apply (so_nodup _ H p)|done].
  - rewrite E. constructor; [apply Hj|apply (so_nodup _ H)].
Qed.

Lemma moves_handler q :
  (NPROC ≤ q)%nat → sp_state (m_procs s' q) = RUNNING ∧ Forall handler (m_ctx s' q :: m_stack s' q).
Proof using H M.
  intros Hq. destruct (so_handler _ H q Hq) as [Hst Hf]. split.
  - destruct (decide (q = i)) as [->|Hne]; [|by rewrite mv_proc_ne]. rewrite mv_proc_eq.
    destruct (decide (i = p)) as [->|Hip].
    + pose proof (mv_run _ _ _ _ _ _ _ _ M) as [E _]. rewrite fn_lookup_insert in E. rewrite E.
      pose proof (Forall_inv (mv_handler _ _ _ _ _ _ _ _ M Hq)). by destruct t.
    + destruct (mv_other _ _ _ _ _ _ _ _ M Hip) as [[Es _]|(? & _)]; [by rewrite Es|lia].
  - destruct (decide (q = p)) as [->|Hne]; [rewrite mv_ctx_eq, mv_stack_eq; by apply (mv_handler _ _ _ _ _ _ _ _ M)|].
    by rewrite mv_ctx_ne, mv_stack_ne.
Qed.

Lemma moves_plock j h' : m_owner s' (LP j) = Some h' ↔ hlock s' h' = Some j ∨ runs s' h' j ∧ m_held s' j = true.
Proof using H M.
  pose proof (mv_runs _ _ _ _ _ _ _ _ M) as Hr. rewrite (mv_plock _ _ _ _ _ _ _ _ M), mv_runs'.
  destruct (decide (h' = h)) as [->|Hne].
  - rewrite mv_hlock_eq. split.
    + intros [[_ [?|[-> ?]]]|[? _]]; [by left|by right|done].
    + intros [?|[E ?]]; left; (split; [done|]); [by left|right]. by rewrite (runs_inj s h p j Hr E) in *.
  - rewrite mv_hlock_ne by done. rewrite (so_plock _ H). split.
    + intros [[? _]|[_ [?|[E Hh]]]]; [done|by left|right]. split; [done|].
      rewrite (mv_own _ _ _ _ _ _ _ _ M); [done|]. by apply (mv_hart_ne h').
    + intros [?|[E Hh]]; right; (split; [done|]); [by left|right]. split; [done|].
      rewrite (mv_own _ _ _ _ _ _ _ _ M) in Hh; [done|]. by apply (mv_hart_ne h').
Qed.

Lemma moves_idle q : (∀ h, ¬ runs s' h q) → idle_ok q (m_procs s' q) (m_ctx s' q).
Proof using H M.
  intros Hq. assert (Hq' : ∀ h, ¬ runs s h q) by (intros h'; rewrite <-mv_runs'; apply Hq).
  assert (Hqp : q ≠ p) by (intros ->; apply (Hq' h), (mv_runs _ _ _ _ _ _ _ _ M)). rewrite mv_ctx_ne by done.
  destruct (decide (q = i)) as [->|Hqi]; [|rewrite mv_proc_ne by done; by apply (so_idle _ H)].
  rewrite mv_proc_eq. destruct (mv_other _ _ _ _ _ _ _ _ M Hqp) as [[Es Ec]|(_ & _ & Hi & _)]; [|done].
  pose proof (so_idle _ H i Hq') as Hid. unfold idle_ok in *. by rewrite Es, Ec.
Qed.

Lemma moves_ok : smp_ok s'.
Proof using H M.
  pose proof (mv_runs _ _ _ _ _ _ _ _ M) as Hr. split.
  - apply moves_plock.
  - intros q Hq. destruct (decide (q = p)) as [->|Hne].
    + rewrite mv_ctx_eq. destruct (mv_held _ _ _ _ _ _ _ _ M Hq) as [? ?]. split; [done|]. split; [|done].
      exists h. by apply mv_runs'.
    + rewrite mv_ctx_ne by done. rewrite (mv_own _ _ _ _ _ _ _ _ M) in Hq by done.
      destruct (so_held _ H q Hq) as (? & [h' Hh'] & ?). split; [done|]. split; [|done]. exists h'. by apply mv_runs'.
  - intros h' k Hn. destruct (decide (h' = h)) as [->|Hne]; [by destruct (Hn p); apply mv_runs'|].
    rewrite (mv_klock _ _ _ _ _ _ _ _ M) by done. apply (so_klock _ H). intros q. rewrite <-mv_runs'. apply Hn.
  - intros h'. rewrite (mv_harts _ _ _ _ _ _ _ _ M). apply (so_cpu _ H).
  - intros h'. rewrite (mv_harts _ _ _ _ _ _ _ _ M). apply (so_range _ H).
  - intros h' q. rewrite mv_runs'. intros Hq. destruct (decide (q = p)) as [->|Hqp].
    + rewrite mv_ctx_eq, (mv_procs _ _ _ _ _ _ _ _ M). apply (mv_run _ _ _ _ _ _ _ _ M).
    + rewrite mv_ctx_ne by done. destruct (decide (q = i)) as [->|Hqi]; [|rewrite mv_proc_ne by done; by apply (so_run _ H h')].
      rewrite mv_proc_eq. destruct (mv_other _ _ _ _ _ _ _ _ M Hqp) as [[Es _]|(_ & Hi & _)]; [|by destruct (Hi h')].
      destruct (so_run _ H h' i Hq) as [E1 E2]. split; [by rewrite Es|done].
  - intros h1 h2 q. rewrite !mv_runs'. apply (so_once _ H).
  - apply moves_idle.
  - intros q. destruct (decide (q = p)) as [->|Hne]; [rewrite mv_stack_eq; apply (mv_frames _ _ _ _ _ _ _ _ M)|].
    rewrite mv_stack_ne by done. apply (so_stack _ H).
  - apply moves_handler.
  - apply moves_start.
  - apply moves_nodup.
  - intros h1 p1 c k lk q. rewrite mv_runs'. intros H1 Hw Ho Hlt Hne Hwait.
    destruct (decide (h1 = h)) as [->|Hh].
    + assert (p1 = p) as -> by by eapply runs_inj. rewrite mv_ctx_eq in Hw. by eapply (mv_waking _ _ _ _ _ _ _ _ M).
    + rewrite (mv_klock _ _ _ _ _ _ _ _ M) in Ho by done.
      rewrite mv_ctx_ne in Hw by (by apply (mv_hart_ne h1)).
      destruct (mv_waiting_old q c lk Hwait) as [Hold|[-> Hown]]; [|congruence].
      by apply (so_wake _ H h1 p1 c k lk q).
Qed.
End moves.

(** ** The locks after a step *)

Section locks.
Context (s : smp) (h p : nat) (t : tpc).
Hypothesis H : smp_ok s.
Hypothesis Hr : runs s h p.

(** [b]: the thread holds its own p->lock outside the functions. *)
Definition plock_after (b : bool) (o : lock → option nat) : Prop :=
  ∀ j h', o (LP j) = Some h' ↔
    (h' = h ∧ (plock p t = Some j ∨ j = p ∧ b = true) ∨ h' ≠ h ∧ m_owner s (LP j) = Some h').

Lemma plock_keep (o : lock → option nat) :
  (∀ j, o (LP j) = m_owner s (LP j)) → plock p t = plock p (m_ctx s p) → plock_after (m_held s p) o.
Proof using H Hr.
  intros Ho Hp j h'. rewrite Ho, Hp, <-(owner_plock s H h p j Hr). destruct (decide (h' = h)) as [->|]; naive_solver.
Qed.

Lemma plock_take i (o : lock → option nat) :
  (∀ l, o l = <[LP i:=Some h]> (m_owner s) l) → m_owner s (LP i) = None → plock p (m_ctx s p) = None → plock p t = Some i →
  plock_after (m_held s p) o.
Proof using H Hr.
  intros Ho Hi Hn Ht j h'. rewrite Ho, Ht. pose proof (owner_plock s H h p j Hr) as Hj. rewrite Hn in Hj.
  destruct (decide (j = i)) as [->|Hne].
  - rewrite fn_lookup_insert, Hi. destruct (decide (h' = h)) as [->|]; naive_solver.
  - rewrite fn_lookup_insert_ne by congruence. destruct (decide (h' = h)) as [->|]; naive_solver.
Qed.

Lemma plock_drop i (o : lock → option nat) :
  (∀ l, o l = <[LP i:=None]> (m_owner s) l) → plock p (m_ctx s p) = Some i → plock p t = None →
  plock_after (m_held s p) o.
Proof using H Hr.
  intros Ho Hi Ht j h'. rewrite Ho, Ht. pose proof (owner_plock s H h p j Hr) as Hj. rewrite Hi in Hj.
  destruct (decide (j = i)) as [->|Hne].
  - rewrite fn_lookup_insert.
    assert (Hno : ¬ (i = p ∧ m_held s p = true)) by (intros [-> E]; rewrite (plock_not_held s H) in E; done).
    assert (Hown : m_owner s (LP i) = Some h) by (apply Hj; by left).
    rewrite Hown. naive_solver.
  - rewrite fn_lookup_insert_ne by congruence. destruct (decide (h' = h)) as [->|]; naive_solver.
Qed.

(** A lock that the thread takes is not the one it holds already. *)
Lemma take_not_held i : m_owner s (LP i) = None → i = p → m_held s p = false.
Proof using H Hr.
  intros Ho ->. destruct (m_held s p) eqn:E; [|done].
  assert (m_owner s (LP p) = Some h) by (apply (owner_plock s H h p p Hr); by right). congruence.
Qed.

Lemma handler_now : (NPROC ≤ p)%nat → handler (m_ctx s p).
Proof using H. intros Hp. by destruct (so_handler _ H p Hp) as [_ ?%Forall_inv]. Qed.
End locks.

(** ** Thread steps, rule by rule *)

Lemma insert_self {B} (f : nat → B) p q : <[p:=f p]> f q = f q.
Proof. destruct (decide (q = p)) as [->|]; [apply fn_lookup_insert|by rewrite fn_lookup_insert_ne]. Qed.

(** The new processes a thread has to start when it moves on. *)
Lemma starts_move s p t :
  starting t = None ∨ starting t = starting (m_ctx s p) → omap starting (t :: m_stack s p) `sublist_of` starts s p.
Proof.
  unfold starts. cbn. intros [->| ->]; [|done]. destruct (starting (m_ctx s p)); [by apply sublist_cons|done].
Qed.

(** The thread changes its place, and locks, only. *)
Lemma quiet_ok s s' h p t :
  smp_ok s → runs s h p → m_harts s' = m_harts s → (∀ q, m_ctx s' q = <[p:=t]> (m_ctx s) q) →
  m_procs s' = m_procs s → m_stack s' = m_stack s → m_held s' = m_held s →
  plock_after s h p t (m_held s p) (m_owner s') → (plock p t = Some p → m_held s p = false) →
  (∀ k h', h' ≠ h → m_owner s' (LK k) = Some h' ↔ m_owner s (LK k) = Some h') →
  ((NPROC ≤ p)%nat → handler t) → t ≠ TExitRel → t ≠ TDead → m_ctx s p ≠ TExitRel →
  (starting t = None ∨ starting t = starting (m_ctx s p)) →
  (∀ c lk, t ≠ TSleepRel c lk) → (∀ c lk, t ≠ TSleepRet c lk) →
  (∀ c k lk q, waking t = Some (c, k) → m_owner s' (LK lk) = Some h → (q < k)%nat → q ≠ p → ¬ waiting s q c lk) →
  smp_ok s'.
Proof.
  intros H Hr Hh Hc Hp Hsk Hhd Hpl Hown Hkl Hhn Ht1 Ht2 Ht3 Hst Hrel Hret Hwk.
  apply (moves_ok s s' h p t (m_stack s p) p (m_procs s p) H). split; rewrite ?Hhd; try done.
  - intros q. by rewrite insert_self, Hsk.
  - intros q. by rewrite insert_self, Hp.
  - apply (so_stack _ H).
  - intros Hnp. constructor; [by apply Hhn|]. destruct (so_handler _ H p Hnp) as [_ Hf]. by inversion Hf.
  - intros Hd. split; [by apply (so_held _ H)|]. intros E. by rewrite Hown in Hd.
  - rewrite insert_self. destruct (run_now s H h p Hr) as [E _]. split; [|done].
    destruct (m_ctx s p); try done; destruct t; done.
  - left. by apply starts_move.
  - intros c lk ->. by destruct (Hrel c lk).
  - intros c k lk q Hw Ho Hq Hne. specialize (Hwk c k lk q Hw Ho Hq Hne). unfold waiting in *.
    rewrite Hc, Hp. by rewrite fn_lookup_insert_ne.
Qed.

Lemma ok_call s h p t :
  smp_ok s → runs s h p → m_ctx s p = TRun → calls p t → smp_ok (set_ctx p t s).
Proof.
  intros H Hr Hc Hcall. eapply (quiet_ok s _ h p t); try done.
  - apply plock_keep; [done|done|done|]. rewrite Hc. by destruct Hcall.
  - by destruct Hcall.
  - intros Hp. destruct Hcall; try done; lia.
  - by destruct Hcall.
  - by destruct Hcall.
  - by rewrite Hc.
  - left. by destruct Hcall.
  - intros c lk ->. inversion Hcall.
  - intros c lk ->. inversion Hcall.
  - intros c k lk q Hw _ Hq. destruct Hcall; cbn in Hw; simplify_eq. lia.
Qed.

(** Locks of other code. *)
Lemma ok_klock s h p k o :
  smp_ok s → runs s h p → takes_locks (m_ctx s p) = true →
  (m_owner s (LK k) = None ∨ m_owner s (LK k) = Some h) → (o = None ∨ o = Some h) → smp_ok (set_owner (LK k) o s).
Proof.
  intros H Hr Hc Hk Ho.
  assert (Ht : m_ctx s p ≠ TExitRel ∧ m_ctx s p ≠ TDead ∧ (∀ c lk, m_ctx s p ≠ TSleepRel c lk) ∧
    (∀ c lk, m_ctx s p ≠ TSleepRet c lk) ∧ waking (m_ctx s p) = None) by by destruct (m_ctx s p).
  destruct Ht as (Ht1 & Ht2 & Ht3 & Ht4 & Ht5).
  eapply (quiet_ok s _ h p (m_ctx s p)); try done.
  - intros q. cbn. by rewrite insert_self.
  - by apply plock_keep.
  - by apply plock_not_held.
  - intros k' h' Hne. cbn. destruct (decide (k' = k)) as [->|]; [|by rewrite fn_lookup_insert_ne by congruence].
    rewrite fn_lookup_insert. destruct Hk as [-> | ->], Ho as [-> | ->]; naive_solver.
  - by apply handler_now.
  - by right.
  - intros c' k' lk q. by rewrite Ht5.
Qed.

(** p->lock taken or given back by other code. *)
Lemma ok_own_lock s h p (b : bool) :
  smp_ok s → runs s h p → (p < NPROC)%nat → m_ctx s p = TRun →
  (m_owner s (LP p) = None ∨ m_held s p = true) → smp_ok (set_owner (LP p) (if b then Some h else None) (set_own p b s)).
Proof.
  intros H Hr Hp Hc Ho. apply (moves_ok s _ h p TRun (m_stack s p) p (m_procs s p) H). split; cbn; try done.
  - intros q. by rewrite <-Hc, insert_self.
  - intros q. by rewrite insert_self.
  - intros q. by rewrite insert_self.
  - apply (so_stack _ H).
  - lia.
  - intros q Hq. by rewrite fn_lookup_insert_ne.
  - intros j h'. rewrite fn_lookup_insert. pose proof (owner_plock s H h p j Hr) as Hj. rewrite Hc in Hj. cbn in Hj.
    destruct (decide (j = p)) as [->|Hne].
    + rewrite fn_lookup_insert. assert (Hn : h' ≠ h → m_owner s (LP p) ≠ Some h').
      { intros Hne E. destruct Ho as [Ho|Ho]; [congruence|]. rewrite (proj2 Hj) in E by (by right). congruence. }
      destruct (decide (h' = h)) as [->|]; destruct b; naive_solver.
    + rewrite fn_lookup_insert_ne by congruence. destruct (decide (h' = h)) as [->|]; naive_solver.
  - rewrite insert_self. pose proof (run_now s H h p Hr) as [E _]. by rewrite Hc in E.
  - left. exact (starts_move s p TRun (or_introl eq_refl)).
Qed.

(** p->killed = 1 *)
Lemma ok_kill_self s h p :
  smp_ok s → runs s h p → m_ctx s p = TRun →
  smp_ok (set_proc p (SProc (sp_state (m_procs s p)) (sp_chan (m_procs s p)) (sp_pid (m_procs s p)) 1) s).
Proof.
  intros H Hr Hc. set (x := SProc _ _ _ 1). apply (moves_ok s _ h p TRun (m_stack s p) p x H). split; cbn; try done.
  - intros q. by rewrite <-Hc, insert_self.
  - intros q. by rewrite insert_self.
  - apply (so_stack _ H).
  - intros Hp. destruct (so_handler _ H p Hp) as [_ Hf]. by rewrite Hc in Hf.
  - intros Hd. split; [by apply (so_held _ H)|done].
  - apply (plock_keep s h p TRun H Hr); [done|by rewrite Hc].
  - pose proof (run_now s H h p Hr) as [E _]. rewrite Hc in E. by rewrite fn_lookup_insert.
  - left. exact (starts_move s p TRun (or_introl eq_refl)).
Qed.

(** An interrupt, and the return from it. *)
Lemma ok_intr s h p :
  smp_ok s → runs s h p → no_lock s h → smp_ok (set_stack p (m_ctx s p :: m_stack s p) (set_ctx p TRun s)).
Proof.
  intros H Hr Hn. destruct (no_lock_free s H h p Hr Hn) as [Hpl Hhd]. destruct (run_now s H h p Hr) as [Hst Hnd].
  eapply (moves_ok s _ h p TRun (m_ctx s p :: m_stack s p) p (m_procs s p) H). split; cbn; try done.
  - intros q. by rewrite insert_self.
  - constructor; [done|apply (so_stack _ H)].
  - intros Hp. constructor; [done|]. by apply (so_handler _ H).
  - by rewrite Hhd.
  - apply (plock_keep s h p TRun H Hr); [done|by rewrite Hpl].
  - rewrite insert_self. split; [|done]. rewrite Hst. by destruct (m_ctx s p).
  - by left.
Qed.

Lemma ok_iret s h p t l :
  smp_ok s → runs s h p → m_ctx s p = TRun → m_stack s p = t :: l → no_lock s h → smp_ok (set_stack p l (set_ctx p t s)).
Proof.
  intros H Hr Hc Hs Hn. destruct (no_lock_free s H h p Hr Hn) as [_ Hhd]. destruct (run_now s H h p Hr) as [Hst _].
  pose proof (so_stack _ H p) as Hfr. rewrite Hs in Hfr. inversion_clear Hfr as [|?? [Hpl Hnd] Hfr'].
  eapply (moves_ok s _ h p t l p (m_procs s p) H). split; cbn; try done.
  - intros q. by rewrite insert_self.
  - intros Hp. destruct (so_handler _ H p Hp) as [_ Hf]. rewrite Hs in Hf. by inversion Hf.
  - by rewrite Hhd.
  - apply (plock_keep s h p t H Hr); [done|by rewrite Hpl, Hc].
  - rewrite insert_self. split; [|done]. rewrite Hst, Hc. by destruct t.
  - left. unfold starts. by rewrite Hc, Hs.
  - by intros c lk ->.
  - by intros c lk ->.
  - intros c k lk q _ Ho. by destruct (Hn (LK lk)).
Qed.

Lemma ok_advance s h p t :
  smp_ok s → runs s h p → advances p (m_ctx s p) = Some t → smp_ok (set_ctx p t s).
Proof.
  intros H Hr Ha. pose proof (handler_now s p H) as Hh.
  pose proof (λ c i lk q, so_wake _ H h p c i lk q Hr) as Hwake.
  destruct (m_ctx s p) eqn:Hc in Ha, Hh; try done; cbn in Ha, Hh; repeat case_decide; simplify_eq;
    (eapply (quiet_ok s _ h p); [done|done|done|done|done|done|done|..]);
    try done; try (by apply plock_keep; [done|done|done|rewrite Hc]); try (by rewrite Hc); try (by left).
  intros c' k lk q [= <- <-] Ho Hq Hne. apply (Hwake c p lk q); [by rewrite Hc|done|lia|done].
Qed.

Lemma ok_acquire s h p l t :
  smp_ok s → runs s h p → acquires p (m_ctx s p) = Some (l, t) → m_owner s l = None →
  smp_ok (set_owner l (Some h) (set_ctx p t s)).
Proof.
  intros H Hr Ha Hl. pose proof (handler_now s p H) as Hh.
  pose proof (λ c i lk q, so_wake _ H h p c i lk q Hr) as Hwake.
  assert (Hkl : ∀ k h', h' ≠ h → <[l:=Some h]> (m_owner s) (LK k) = Some h' ↔ m_owner s (LK k) = Some h').
  { intros k h' Hne. destruct (decide (l = LK k)) as [->|]; [|by rewrite fn_lookup_insert_ne].
    rewrite fn_lookup_insert, Hl. naive_solver. }
  destruct (m_ctx s p) eqn:Hc in Ha, Hh; try done; cbn in Ha, Hh; repeat case_decide; simplify_eq;
    (eapply (quiet_ok s _ h p); [done|done|done|done|done|done|done| | |done|..]);
    try done; try (by rewrite Hc); try (by left); try (by right; rewrite Hc);
    try (cbn; intros ?; apply (take_not_held s h p H Hr _ Hl); congruence); try
    match goal with
    | |- plock_after _ _ _ _ _ (m_owner (set_owner (LP ?j) _ _)) =>
        by apply (plock_take s h p _ H Hr j); rewrite ?Hc
    | |- plock_after _ _ _ _ _ (m_owner (set_owner (LK _) _ _)) => by apply (plock_keep s h p _ H Hr); rewrite ?Hc
    end.
  intros c' k lk q [= <- <-] Ho Hq Hne. apply (Hwake c i lk q); [by rewrite Hc|done..].
Qed.

Lemma klock_drop s h k :
  m_owner s (LK k) = Some h →
  ∀ k' h', h' ≠ h → <[LK k:=None]> (m_owner s) (LK k') = Some h' ↔ m_owner s (LK k') = Some h'.
Proof.
  intros Hk k' h' Hne. destruct (decide (k' = k)) as [->|]; [|by rewrite fn_lookup_insert_ne by congruence].
  rewrite fn_lookup_insert, Hk. naive_solver.
Qed.

Lemma ok_release s h p k x t :
  smp_ok s → runs s h p → releases (m_ctx s p) (m_procs s p) = Some (k, x, t) → m_owner s (LK k) = Some h →
  smp_ok (set_owner (LK k) None (set_proc p x (set_ctx p t s))).
Proof.
  intros H Hr Ha Hown. pose proof (run_now s H h p Hr) as Hrun. pose proof (handler_now s p H) as Hh.
  assert (Hf : plock p t = plock p (m_ctx s p) ∧ ¬ handler (m_ctx s p) ∧ run_ok x t ∧
    (starting t = None ∨ starting t = starting (m_ctx s p)) ∧ waking t = None ∧
    (∀ c lk, t = TSleepRel c lk → lk = k) ∧ ∀ c lk, t ≠ TSleepRet c lk).
  { unfold run_ok in *. destruct (m_ctx s p); try done; cbn in Ha, Hrun; simplify_eq; split_and!; auto; try done; try tauto.
    by intros c' lk' [= -> ->]. }
  destruct Hf as (Hpl & Hnh & Hrx & Hst & Hwk & Hrel & Hret).
  apply (moves_ok s _ h p t (m_stack s p) p x H). split; cbn [m_procs m_ctx m_stack m_held m_harts m_owner set_owner set_proc set_ctx]; try done.
  - intros q. by rewrite insert_self.
  - apply (so_stack _ H).
  - tauto.
  - rewrite Hpl. intros (? & _ & ?)%(so_held _ H p). done.
  - by apply (plock_keep s h p t H Hr).
  - by apply klock_drop.
  - by rewrite fn_lookup_insert.
  - left. by apply starts_move.
  - intros c lk ->. by rewrite (Hrel c lk).
  - intros c k' lk q. by rewrite Hwk.
Qed.

(** ** Critical sections *)

Section critical.
Context (s : smp) (h p : nat).
Hypothesis H : smp_ok s.
Hypothesis Hr : runs s h p.

(** The lock that the thread gives back protects process [i]; it goes to [t]. *)
Lemma ok_section i x t :
  plock p (m_ctx s p) = Some i → plock p t = None → ((NPROC ≤ p)%nat → handler t) →
  run_ok (<[i:=x]> (m_procs s) p) t →
  (i ≠ p → sp_state x = sp_state (m_procs s i) ∧ sp_chan x = sp_chan (m_procs s i) ∨
    (i < NPROC)%nat ∧ (∀ h, ¬ runs s h i) ∧ idle_ok i x (m_ctx s i) ∧ sp_state x ≠ SLEEPING) →
  (starting t = None ∨ starting t = starting (m_ctx s p)) →
  (i ≠ p → sp_state x = sp_state (m_procs s i) ∨ (i ∉ omap starting (t :: m_stack s p)) ∧ ∀ q, q ≠ p → i ∉ starts s q) →
  (∀ c lk, t ≠ TSleepRel c lk) → (∀ c lk, t ≠ TSleepRet c lk) →
  (∀ c k lk q, waking t = Some (c, k) → m_owner s (LK lk) = Some h → (q < k)%nat → q ≠ p →
     ¬ waiting (set_proc i x s) q c lk) →
  smp_ok (set_owner (LP i) None (set_proc i x (set_ctx p t s))).
Proof using H Hr.
  intros Hpl Hnt Hhn Hrun Hoth Hst Hstd Hrel Hret Hwk. apply (moves_ok s _ h p t (m_stack s p) i x H).
  split; cbn [m_procs m_ctx m_stack m_held m_harts m_owner set_owner set_proc set_ctx]; try done.
  - intros q. by rewrite insert_self.
  - apply (so_stack _ H).
  - intros Hp. constructor; [by apply Hhn|]. destruct (so_handler _ H p Hp) as [_ Hf]. by inversion Hf.
  - intros Hd. rewrite Hnt. split; [by apply (so_held _ H)|done].
  - by apply (plock_drop s h p t H Hr i).
  - left. by apply starts_move.
  - intros Hne. destruct (Hstd Hne) as [E|[E1 E2]]; [by left|right]. intros q. unfold starts.
    cbn [m_ctx m_stack set_owner set_proc set_ctx].
    destruct (decide (q = p)) as [->|Hq]; [by rewrite fn_lookup_insert|]. rewrite fn_lookup_insert_ne by done. by apply E2.
  - intros c lk ->. by destruct (Hrel c lk).
  - intros c k lk q Hw Ho Hq Hne Hwait. apply (Hwk c k lk q Hw Ho Hq Hne).
    unfold waiting in *. cbn in *. by rewrite fn_lookup_insert_ne in Hwait.
Qed.

(** The own process keeps its state. *)
Lemma ok_own x t :
  plock p (m_ctx s p) = Some p → plock p t = None → ¬ handler (m_ctx s p) →
  sp_state x = sp_state (m_procs s p) → m_ctx s p ≠ TExitRel → t ≠ TExitRel → t ≠ TDead →
  starting t = None → waking t = None → (∀ c lk, t ≠ TSleepRel c lk) → (∀ c lk, t ≠ TSleepRet c lk) →
  smp_ok (set_owner (LP p) None (set_proc p x (set_ctx p t s))).
Proof using H Hr.
  intros Hpl Hnt Hnh Hx Hc1 Ht1 Ht2 Hst Hwk Hrel Hret. apply ok_section; try done.
  - intros Hp. by destruct Hnh; apply handler_now.
  - rewrite fn_lookup_insert. destruct (run_now s H h p Hr) as [E _]. split; [|done]. rewrite Hx, E.
    destruct (m_ctx s p); try done; by destruct t.
  - by left.
  - intros c k lk q. by rewrite Hwk.
Qed.

(** A running thread other than [p] does not hold the lock of process [i]. *)
Lemma lock_other h' q i :
  plock p (m_ctx s p) = Some i → runs s h' q → plock q (m_ctx s q) = Some i → q = p.
Proof using H Hr.
  intros Hp Hq Hl. assert (h' = h) as ->.
  { apply (lock_unique s H h' h i); [by rewrite (hlock_run s h' q)|by rewrite (hlock_run s h p)]. }
  by eapply runs_inj.
Qed.

(** wakeup(c) has passed process [i]: it does not wait for [c] any more. *)
Lemma woken_not_waiting c i lk :
  m_ctx s p = TWakeGot c i → i ≠ p →
  let x := m_procs s i in
  ¬ waiting (set_proc i (if bool_decide (sp_state x = SLEEPING ∧ sp_chan x = Some c) then with_state RUNNABLE x else x) s) i c lk.
Proof using H Hr.
  intros Hc Hne x [E|[E Hs]]; cbn in *.
  - apply (idle_false s H i).
    + unfold idle_ok. rewrite E. destruct (sp_state (m_procs s i)); naive_solver.
    + intros h' Hh'. apply Hne, (lock_other h' i i); [by rewrite Hc|done|by rewrite E].
  - rewrite fn_lookup_insert in Hs. destruct (bool_decide_reflect (sp_state x = SLEEPING ∧ sp_chan x = Some c)) as [_|Hn]; [done|].
    assert (Hi : idle_ok i (m_procs s i) (m_ctx s i)).
    { apply (so_idle _ H), (not_run s H); [unfold x in Hs; congruence|by rewrite E]. }
    unfold idle_ok in Hi. fold x in Hi. rewrite Hs in Hi. destruct Hi as (c' & lk' & E' & Hch).
    rewrite E in E'. injection E' as <- <-. by apply Hn.
Qed.

(** A process that sleeps can be made RUNNABLE; it is not about to be started. *)
Lemma sleeper_idle i x :
  sp_state (m_procs s i) = SLEEPING → sp_state x = RUNNABLE →
  (i < NPROC)%nat ∧ (∀ h, ¬ runs s h i) ∧ idle_ok i x (m_ctx s i) ∧ sp_state x ≠ SLEEPING.
Proof using H.
  intros Hsl Hx. assert (Hidle : ∀ h, ¬ runs s h i).
  { intros h' Hh'. destruct (run_state s H h' i Hh') as [E|[E _]]; congruence. }
  split; [apply (state_range s H); congruence|]. split; [done|].
  pose proof (so_idle _ H i Hidle) as Hi. unfold idle_ok in *. rewrite Hsl in Hi. rewrite Hx.
  split; [|done]. destruct Hi as (c' & lk & -> & _). right; right. eauto.
Qed.

Lemma not_starting i q : sp_state (m_procs s i) ≠ USED → i ∉ starts s q.
Proof using H. intros Hs Hq. by destruct (so_start _ H q i Hq). Qed.

(** If the state of [i] changes, [i] was not about to be started. *)
Lemma section_starts i t :
  starting t = None → sp_state (m_procs s i) ≠ USED →
  (i ∉ omap starting (t :: m_stack s p)) ∧ ∀ q, q ≠ p → i ∉ starts s q.
Proof using H.
  intros Ht Hs. split; [|intros q _; by apply not_starting]. intros Hi. apply (not_starting i p Hs).
  eapply elem_of_sublist; [exact Hi|apply starts_move; by left].
Qed.

Lemma ok_wake c i :
  m_ctx s p = TWakeGot c i →
  let x := m_procs s i in
  smp_ok (set_owner (LP i) None (set_proc i
    (if bool_decide (sp_state x = SLEEPING ∧ sp_chan x = Some c) then with_state RUNNABLE x else x)
    (set_ctx p (TWake c (S i)) s))).
Proof using H Hr.
  intros Hc x. pose proof (run_now s H h p Hr) as [Hrs _]. rewrite Hc in Hrs. cbn in Hrs.
  apply ok_section; try done; rewrite ?Hc; try done.
  - destruct (decide (i = p)) as [->|Hne].
    + rewrite fn_lookup_insert. unfold x. rewrite Hrs. rewrite bool_decide_false by naive_solver. done.
    + by rewrite fn_lookup_insert_ne.
  - intros Hne. destruct (bool_decide_reflect (sp_state x = SLEEPING ∧ sp_chan x = Some c)) as [[Hsl Hch]|_]; [right|by left].
    by apply sleeper_idle.
  - by left.
  - intros Hne. destruct (bool_decide_reflect (sp_state x = SLEEPING ∧ sp_chan x = Some c)) as [[Hsl Hch]|_]; [right|by left].
    apply section_starts; [done|]. unfold x in *. congruence.
  - intros c' k lk q [= <- <-] Ho Hq Hne. destruct (decide (q = i)) as [->|Hqi]; [by apply woken_not_waiting|].
    intros Hw. apply (so_wake _ H h p c i lk q Hr); [by rewrite Hc|done|lia|done|].
    unfold waiting in *. cbn in Hw. by rewrite fn_lookup_insert_ne in Hw.
Qed.

Lemma ok_kill pid i x t :
  m_ctx s p = TKillGot pid i → critical p (TKillGot pid i) (m_procs s) = Some (i, x, t) →
  smp_ok (set_owner (LP i) None (set_proc i x (set_ctx p t s))).
Proof using H Hr.
  intros Hc Hcr. pose proof (run_now s H h p Hr) as [Hrs _]. rewrite Hc in Hrs. cbn in Hrs, Hcr.
  pose proof (handler_now s p H) as Hh. rewrite Hc in Hh. cbn in Hh.
  destruct (sp_pid (m_procs s i) =? pid); simplify_eq.
  - apply ok_section; try done; rewrite ?Hc; try done.
    + destruct (decide (i = p)) as [->|Hne].
      * rewrite fn_lookup_insert. split; [cbn|done]. rewrite decide_False by congruence. done.
      * by rewrite fn_lookup_insert_ne.
    + intros Hne. cbn. destruct (decide (sp_state (m_procs s i) = SLEEPING)) as [Hsl|]; [right|by left].
      by apply sleeper_idle.
    + by left.
    + intros Hne. cbn. destruct (decide (sp_state (m_procs s i) = SLEEPING)) as [Hsl|]; [right|by left].
      apply (section_starts i TRun); [done|congruence].
  - apply ok_section; try done; rewrite ?Hc; try done.
    + by rewrite insert_self.
    + by left.
    + by left.
    + by left.
Qed.

Lemma ok_start i :
  m_ctx s p = TStartGot i →
  smp_ok (set_owner (LP i) None (set_proc i (with_state RUNNABLE (m_procs s i)) (set_ctx p TRun s))).
Proof using H Hr.
  intros Hc. pose proof (run_now s H h p Hr) as [Hrs _]. rewrite Hc in Hrs. cbn in Hrs.
  assert (Hst : i ∈ starts s p) by (apply start_now; by rewrite Hc).
  pose proof (start_idle s H p i Hst) as Hidle. destruct (so_start _ H p i Hst) as [Hus Huniq].
  assert (Hne : i ≠ p) by (intros ->; by apply (Hidle h)).
  pose proof (so_nodup _ H p) as Hnd. unfold starts in Hnd. rewrite Hc in Hnd. cbn in Hnd. apply NoDup_cons in Hnd as [Hni _].
  apply ok_section; try done; rewrite ?Hc; try done.
  - by rewrite fn_lookup_insert_ne.
  - intros _. right. pose proof (so_idle _ H i Hidle) as Hi. unfold idle_ok in *. rewrite Hus in Hi.
    split; [apply (state_range s H); congruence|]. split; [done|]. cbn. split; [by right; left|done].
  - by left.
  - intros _. right. split; [done|]. intros q Hq Hsq. by apply Hq, Huniq.
Qed.

Lemma ok_reap i :
  m_ctx s p = TReapGot i →
  smp_ok (set_owner (LP i) None (set_proc i
    (if decide (sp_state (m_procs s i) = ZOMBIE) then SProc UNUSED None 0 0 else m_procs s i) (set_ctx p TRun s))).
Proof using H Hr.
  intros Hc. pose proof (run_now s H h p Hr) as [Hrs _]. rewrite Hc in Hrs. cbn in Hrs.
  destruct (decide (sp_state (m_procs s i) = ZOMBIE)) as [Hz|Hz].
  - assert (Hne : i ≠ p) by congruence.
    assert (Hidle : ∀ h, ¬ runs s h i).
    { intros h' Hh'. destruct (run_state s H h' i Hh') as [E|[_ E]]; [congruence|].
      apply Hne, (lock_other h' i i); [by rewrite Hc|done|by rewrite E]. }
    apply ok_section; try done; rewrite ?Hc; try done.
    + by rewrite fn_lookup_insert_ne.
    + intros _. right. split; [apply (state_range s H); congruence|]. split; [done|].
      pose proof (so_idle _ H i Hidle) as Hi. unfold idle_ok in *. rewrite Hz in Hi. done.
    + by left.
    + intros _. right. apply (section_starts i TRun); [done|congruence].
  - apply ok_section; try done; rewrite ?Hc; try done; [by rewrite insert_self|by left..].
Qed.

(** A lock is given back and nothing else. *)
Lemma ok_give i t :
  plock p (m_ctx s p) = Some i → plock p t = None → ((NPROC ≤ p)%nat → handler t) →
  m_ctx s p ≠ TExitRel → t ≠ TExitRel → t ≠ TDead → starting t = None ∨ starting t = starting (m_ctx s p) → waking t = None →
  (∀ c lk, t ≠ TSleepRel c lk) → (∀ c lk, t ≠ TSleepRet c lk) →
  smp_ok (set_owner (LP i) None (set_ctx p t s)).
Proof using H Hr.
  intros Hpl Hnt Hhn Hc Ht1 Ht2 Hst Hwk Hrel Hret. eapply (quiet_ok s _ h p t); try done.
  - by apply (plock_drop s h p t H Hr i).
  - by rewrite Hnt.
  - intros c k lk q. by rewrite Hwk.
Qed.
End critical.

Lemma ok_critical s h p i x t :
  smp_ok s → runs s h p → critical p (m_ctx s p) (m_procs s) = Some (i, x, t) →
  smp_ok (set_owner (LP i) None (set_proc i x (set_ctx p t s))).
Proof.
  intros H Hr Ha.
  destruct (m_ctx s p) eqn:Hc in Ha; try done; cbn in Ha; simplify_eq;
    try (by apply (ok_own s h i H Hr); rewrite ?Hc; auto).
  - by apply (ok_wake s h p H Hr).
  - destruct (_ =? pid) eqn:E in Ha; simplify_eq; (eapply (ok_kill s h p H Hr); [done|cbn; by rewrite E]).
  - pose proof (handler_now s p H) as Hh. rewrite Hc in Hh. cbn in Hh.
    case_decide; simplify_eq. apply (ok_section s h p H Hr); try done; rewrite ?Hc; try done; [|by left..].
    rewrite insert_self. pose proof (run_now s H h p Hr) as [Hrs _]. by rewrite Hc in Hrs.
  - by apply (ok_start s h p H Hr).
  - by apply (ok_reap s h p H Hr).
Qed.

(** ** allocproc() and freeproc() *)

(** A process that no hart runs, and that is not about to be started, gets a
    new beginning. *)
Section reset.
Context (s s' : smp) (i : nat) (x : sproc) (t : tpc) (l : list tpc).
Hypothesis H : smp_ok s.
Hypothesis Hi : (i < NPROC)%nat.
Hypothesis Hidle : ∀ h, ¬ runs s h i.
Hypothesis Hstart : ∀ q, i ∉ starts s q.
Hypothesis Hnew : idle_ok i x t ∧ sp_state x ≠ SLEEPING ∧ starting t = None ∧ ∀ c lk, t ≠ TSleepRel c lk.
Hypothesis Hl : l = [] ∨ l = m_stack s i.
Hypothesis Hsame : m_harts s' = m_harts s ∧ m_owner s' = m_owner s ∧ m_held s' = m_held s.
Hypothesis Hctx : ∀ q, m_ctx s' q = <[i:=t]> (m_ctx s) q.
Hypothesis Hstack : ∀ q, m_stack s' q = <[i:=l]> (m_stack s) q.
Hypothesis Hprocs : ∀ q, m_procs s' q = <[i:=x]> (m_procs s) q.

Lemma reset_runs h q : runs s' h q ↔ runs s h q.
Proof using Hsame. unfold runs. by rewrite (proj1 Hsame). Qed.

Lemma reset_ne q : q ≠ i → m_ctx s' q = m_ctx s q ∧ m_stack s' q = m_stack s q ∧ m_procs s' q = m_procs s q.
Proof using Hctx Hstack Hprocs. intros Hq. rewrite Hctx, Hstack, Hprocs. by rewrite !fn_lookup_insert_ne. Qed.

Lemma reset_run_ne h q : runs s h q → q ≠ i.
Proof using Hidle. intros Hr ->. by apply (Hidle h). Qed.

Lemma reset_starts q : starts s' q `sublist_of` starts s q.
Proof using Hnew Hl Hctx Hstack.
  destruct (decide (q = i)) as [->|Hq].
  - unfold starts. rewrite Hctx, Hstack, !fn_lookup_insert. destruct Hnew as (_ & _ & Ht & _). cbn. rewrite Ht.
    destruct Hl as [-> | ->]; cbn; [apply sublist_nil_l|]. destruct (starting (m_ctx s i)); [by apply sublist_cons|done].
  - unfold starts. by rewrite Hctx, Hstack, !fn_lookup_insert_ne.
Qed.

Lemma reset_hlock h : hlock s' h = hlock s h.
Proof using Hidle Hsame Hctx.
  unfold hlock. rewrite (proj1 Hsame). destruct (thread h (h_pc (m_harts s h))) as [q|] eqn:E; [|done].
  rewrite Hctx, fn_lookup_insert_ne; [done|]. by apply (not_eq_sym (reset_run_ne h q E)).
Qed.

Lemma ok_reset : smp_ok s'.
Proof using All.
  destruct Hsame as (Eh & Eo & Ed). split; rewrite ?Eo, ?Ed, ?Eh.
  - intros j h. rewrite reset_hlock, reset_runs. apply (so_plock _ H).
  - intros q Hq. destruct (so_held _ H q Hq) as (? & [h Hh] & ?).
    destruct (reset_ne q (reset_run_ne h q Hh)) as (-> & _). split; [done|]. split; [|done]. exists h. by apply reset_runs.
  - intros h k Hn. apply (so_klock _ H). intros q. rewrite <-reset_runs. apply Hn.
  - apply (so_cpu _ H).
  - apply (so_range _ H).
  - intros h q Hr%reset_runs. destruct (reset_ne q (reset_run_ne h q Hr)) as (-> & _ & ->). by apply (so_run _ H h).
  - intros h h' q. rewrite !reset_runs. apply (so_once _ H).
  - intros q Hq. destruct (decide (q = i)) as [->|Hne]; [rewrite Hctx, Hprocs, !fn_lookup_insert; apply Hnew|].
    destruct (reset_ne q Hne) as (-> & _ & ->). apply (so_idle _ H). intros h. rewrite <-reset_runs. apply Hq.
  - intros q. destruct (decide (q = i)) as [->|Hne]; [|destruct (reset_ne q Hne) as (_ & -> & _); apply (so_stack _ H)].
    rewrite Hstack, fn_lookup_insert. destruct Hl as [-> | ->]; [constructor|apply (so_stack _ H)].
  - intros q Hq. destruct (reset_ne q ltac:(lia)) as (-> & -> & ->). by apply (so_handler _ H).
  - intros q j Hj. pose proof (elem_of_sublist _ _ _ Hj (reset_starts q)) as Hj'.
    destruct (so_start _ H q j Hj') as [Hu Hun]. split.
    + assert (Hne : j ≠ i) by (intros ->; by apply (Hstart q)). by destruct (reset_ne j Hne) as (_ & _ & ->).
    + intros q' Hq'. apply Hun. by eapply elem_of_sublist; [|apply reset_starts].
  - intros q. eapply sublist_NoDup; [apply (so_nodup _ H)|apply reset_starts].
  - intros h q c k lk r Hr%reset_runs Hw Ho Hlt Hne Hwt.
    destruct (reset_ne q (reset_run_ne h q Hr)) as (E & _ & _). rewrite E in Hw.
    apply (so_wake _ H h q c k lk r Hr Hw Ho Hlt Hne). unfold waiting in *. rewrite Hctx, Hprocs in Hwt.
    destruct (decide (r = i)) as [->|]; [|by rewrite !fn_lookup_insert_ne in Hwt].
    rewrite !fn_lookup_insert in Hwt. destruct Hnew as (_ & Hs & _ & Hrel). destruct Hwt as [Hwt|[_ Hwt]]; [by apply Hrel in Hwt|done].
Qed.
End reset.

(** allocproc() has found a process. *)
Lemma ok_found s h p i pid :
  smp_ok s → runs s h p → m_ctx s p = TAllocGot i → sp_state (m_procs s i) = UNUSED →
  smp_ok (set_proc i (SProc USED None pid 0) (set_ctx i TForkRet (set_stack i [] (set_ctx p (TNew i) s)))).
Proof.
  intros H Hr Hc Hi. set (s1 := set_proc i (SProc USED None pid 0) (set_ctx i TForkRet (set_stack i [] s))).
  assert (Hidle : ∀ h, ¬ runs s h i).
  { intros h' Hr'. destruct (run_state s H h' i Hr') as [?|[? _]]; congruence. }
  assert (Hne : p ≠ i) by (intros ->; by apply (Hidle h)).
  assert (Hns : ∀ q, i ∉ starts s q) by (intros q; apply (not_starting s H); congruence).
  assert (H1 : smp_ok s1).
  { apply (ok_reset s s1 i (SProc USED None pid 0) TForkRet []); try done; [apply (state_range s H); congruence|by left]. }
  assert (Hc1 : m_ctx s1 p = TAllocGot i) by (cbn; by rewrite fn_lookup_insert_ne).
  assert (Hs1 : ∀ q, i ∉ starts s1 q).
  { intros q. unfold starts. cbn [s1 m_ctx m_stack set_proc set_ctx set_stack].
    destruct (decide (q = i)) as [->|Hq]; [rewrite !fn_lookup_insert; apply not_elem_of_nil|].
    rewrite !fn_lookup_insert_ne by done. apply Hns. }
  pose proof (handler_now s p H) as Hh. rewrite Hc in Hh. cbn in Hh.
  apply (moves_ok s1 _ h p (TNew i) (m_stack s1 p) p (m_procs s1 p) H1). split; try done.
  - intros q. cbn. destruct (decide (q = i)) as [->|Hq]; [by rewrite fn_lookup_insert, fn_lookup_insert_ne, fn_lookup_insert|].
    rewrite (fn_lookup_insert_ne _ i q) by done. destruct (decide (q = p)) as [->|]; [by rewrite !fn_lookup_insert|].
    by rewrite !fn_lookup_insert_ne.
  - intros q. by rewrite insert_self.
  - intros q. by rewrite insert_self.
  - apply (so_stack _ H1).
  - intros Hd. split; [by apply (so_held _ H)|]. cbn. congruence.
  - apply (plock_keep s1 h p (TNew i) H1 Hr); [done|by rewrite Hc1].
  - rewrite insert_self. destruct (run_now s1 H1 h p Hr) as [E _]. by rewrite Hc1 in E.
  - right. exists i. split; [|split; [cbn; by rewrite fn_lookup_insert|done]].
    unfold starts. by rewrite Hc1.
Qed.

(** The new process is given up. *)
Lemma ok_no_mem s h p i :
  smp_ok s → runs s h p → m_ctx s p = TNew i →
  smp_ok (set_owner (LP i) None (set_proc i (SProc UNUSED None 0 0) (set_ctx i TDead (set_ctx p TRun s)))).
Proof.
  intros H Hr Hc. set (s1 := set_owner (LP i) None (set_ctx p TRun s)).
  assert (Hst : i ∈ starts s p) by (apply start_now; by rewrite Hc).
  pose proof (start_idle s H p i Hst) as Hidle. destruct (so_start _ H p i Hst) as [Hus Huniq].
  assert (Hne : p ≠ i) by (intros ->; by apply (Hidle h)).
  pose proof (so_nodup _ H p) as Hnd. unfold starts in Hnd. rewrite Hc in Hnd. cbn in Hnd. apply NoDup_cons in Hnd as [Hni _].
  assert (H1 : smp_ok s1) by (apply (ok_give s h p H Hr i TRun); rewrite ?Hc; try done; auto).
  apply (ok_reset s1 _ i (SProc UNUSED None 0 0) TDead (m_stack s1 i) H1); try done.
  - apply (state_range s H). congruence.
  - intros q. unfold starts. cbn [s1 m_ctx m_stack set_owner set_ctx].
    destruct (decide (q = p)) as [->|Hq]; [by rewrite fn_lookup_insert|]. rewrite fn_lookup_insert_ne by done.
    intros Hiq. by apply Hq, Huniq.
  - by right.
  - intros q. by rewrite insert_self.
Qed.

(** ** scheduler() and sched() *)

(** The handler of a hart is run by that hart only. *)
Lemma runs_handler s h h' : smp_ok s → runs s h' (NPROC + h)%nat → h' = h.
Proof.
  intros H Hr. pose proof (so_range _ H h') as Hg. unfold runs, thread in Hr.
  destruct (h_pc (m_harts s h')) as [| | |q|j]; try done; apply (inj Some) in Hr; [subst q|]; lia.
Qed.

(** A handler that no hart runs is at its beginning. *)
Lemma handler_idle s h : smp_ok s → (∀ p, ¬ runs s h p) → m_ctx s (NPROC + h)%nat = TRun.
Proof.
  intros H Hn. assert (Hi : ∀ h', ¬ runs s h' (NPROC + h)%nat).
  { intros h' Hr. pose proof (runs_handler s h h' H Hr) as ->. by apply (Hn _ Hr). }
  pose proof (so_idle _ H _ Hi) as Hid. destruct (so_handler _ H (NPROC + h)%nat ltac:(lia)) as [Hs _].
  unfold idle_ok in Hid. rewrite Hs in Hid. by destruct Hid.
Qed.

(** A hart moves inside scheduler(), into a handler or out of it: [pc'] is
    where it is then, [o] are the owners of the locks. *)
Section hart.
Context (s : smp) (h : nat) (pc' : hpc) (o : lock → option nat).
Hypothesis H : smp_ok s.
(** It runs no process, and no handler before the step or none after it. *)
Hypothesis Hold : ∀ p, runs s h p → p = (NPROC + h)%nat ∧ m_ctx s p = TRun ∧ no_lock s h ∧ thread h pc' = None.
Hypothesis Hnew : ∀ p, thread h pc' = Some p → p = (NPROC + h)%nat.
Hypothesis Hcpu : match pc' with HScan _ | HIntr _ => True | HTest i => (i < NPROC)%nat | _ => False end.
Hypothesis Hpl : ∀ j h', o (LP j) = Some h' ↔ (h' = h ∧ slock pc' = Some j ∨ h' ≠ h ∧ m_owner s (LP j) = Some h').
Hypothesis Hkl : ∀ k, o (LK k) = m_owner s (LK k).

Let s' : smp := Smp (m_procs s) (m_ctx s) (m_stack s) (m_held s) (<[h:=Hart None pc']> (m_harts s)) o.

Lemma hart_runs h' q : runs s' h' q ↔ h' = h ∧ thread h pc' = Some q ∨ h' ≠ h ∧ runs s h' q.
Proof using.
  unfold runs, s'. cbn. destruct (decide (h' = h)) as [->|Hne].
  - rewrite fn_lookup_insert. split; [intros Ht; left; done|]. by intros [[_ Ht]|[Hn _]].
  - rewrite fn_lookup_insert_ne by done. split; [intros Ht; right; done|]. by intros [[Hn _]|[_ Ht]].
Qed.

Lemma hart_klock k : m_owner s (LK k) ≠ Some h.
Proof using H Hold.
  intros E. apply (so_klock _ H h k); [|done]. intros p Hp. destruct (Hold p Hp) as (_ & _ & Hn & _). by destruct (Hn (LK k)).
Qed.

(** The handler that runs after the step has not begun. *)
Lemma hart_begins p : thread h pc' = Some p → m_ctx s p = TRun.
Proof using H Hold Hnew.
  intros Ht. rewrite (Hnew p Ht). apply (handler_idle s h H). intros q Hq. destruct (Hold q Hq) as (_ & _ & _ & ?). congruence.
Qed.

Lemma hart_hlock h' : hlock s' h' = if decide (h' = h) then slock pc' else hlock s h'.
Proof using H Hold Hnew Hcpu Hpl.
  pose proof hart_begins as Hb.
  unfold hlock, s'. cbn. case_decide as Hh; [subst h'; rewrite fn_lookup_insert|by rewrite fn_lookup_insert_ne]. cbn [h_pc].
  destruct (thread h pc') as [p|] eqn:Ht; [|done]. rewrite (Hb p eq_refl). by destruct pc'.
Qed.

Lemma hart_plock j h' : o (LP j) = Some h' ↔ hlock s' h' = Some j ∨ runs s' h' j ∧ m_held s j = true.
Proof using H Hold Hnew Hcpu Hpl.
  rewrite Hpl, hart_hlock, hart_runs. case_decide as Hh.
  - subst h'. split; [naive_solver|]. intros [?|[[[_ Ht]|[? _]] Hd]]; [naive_solver| |done].
    destruct (so_held _ H j Hd) as (Hlt & _). rewrite (Hnew j Ht) in Hlt. lia.
  - rewrite (so_plock _ H). naive_solver.
Qed.

Lemma ok_hart : smp_ok s'.
Proof using H Hold Hnew Hcpu Hpl Hkl.
  assert (Hne : ∀ h' q, h' ≠ h → runs s h' q → runs s' h' q) by (intros; apply hart_runs; by right).
  split; cbn [m_procs m_ctx m_stack m_held m_harts m_owner s'].
  - apply hart_plock.
  - intros q Hq. destruct (so_held _ H q Hq) as (Hlt & [h' Hh'] & ?). split; [done|]. split; [|done].
    exists h'. apply Hne; [|done]. intros ->. destruct (Hold q Hh') as (-> & _). lia.
  - intros h' k Hn. rewrite Hkl. destruct (decide (h' = h)) as [->|Hh]; [apply hart_klock|].
    apply (so_klock _ H). intros p Hp. by apply (Hn p), Hne.
  - intros h'. destruct (decide (h' = h)) as [->|Hh]; [|rewrite fn_lookup_insert_ne by done; apply (so_cpu _ H)].
    rewrite fn_lookup_insert. cbn. by destruct pc'.
  - intros h'. destruct (decide (h' = h)) as [->|Hh]; [|rewrite fn_lookup_insert_ne by done; apply (so_range _ H)].
    rewrite fn_lookup_insert. cbn. by destruct pc'.
  - intros h' q [[-> Ht]|[_ Hr]]%hart_runs; [|by apply (so_run _ H h')]. rewrite (hart_begins q Ht), (Hnew q Ht).
    split; [|done]. apply (so_handler _ H). lia.
  - intros h1 h2 q [[-> H1]|[? H1]]%hart_runs [[-> H2]|[? H2]]%hart_runs; [done|..].
    + rewrite (Hnew q H1) in H2. symmetry. by apply (runs_handler s h h2 H).
    + rewrite (Hnew q H2) in H1. by apply (runs_handler s h h1 H).
    + by apply (so_once _ H h1 h2 q).
  - intros q Hq. destruct (decide (runs s h q)) as [Hr|Hr].
    + destruct (Hold q Hr) as (-> & Hc & _). destruct (so_handler _ H (NPROC + h)%nat ltac:(lia)) as [Hs _].
      unfold idle_ok. rewrite Hs. split; [lia|done].
    + apply (so_idle _ H). intros h' Hh'. destruct (decide (h' = h)) as [->|Hh]; [done|]. by apply (Hq h'), Hne.
  - apply (so_stack _ H).
  - apply (so_handler _ H).
  - apply (so_start _ H).
  - apply (so_nodup _ H).
  - intros h' q c k lk r [[-> Ht]|[_ Hr]]%hart_runs Hw; [by rewrite (hart_begins q Ht) in Hw|]. rewrite Hkl.
    by apply (so_wake _ H h' q).
Qed.
End hart.

Lemma ok_swtch s h i :
  smp_ok s → h_pc (m_harts s h) = HTest i → sp_state (m_procs s i) = RUNNABLE →
  smp_ok (set_cpu h (Hart (Some i) (HProc i)) (set_proc i (with_state RUNNING (m_procs s i)) s)).
Proof.
  intros H Hpc Hrb. set (s' := set_cpu _ _ _).
  assert (Hidle : ∀ h, ¬ runs s h i).
  { intros h' Hr. destruct (run_state s H h' i Hr) as [?|[? _]]; congruence. }
  pose proof (so_range _ H h) as Hlt. rewrite Hpc in Hlt.
  pose proof (so_idle _ H i Hidle) as Hid. unfold idle_ok in Hid. rewrite Hrb in Hid.
  assert (Hctx : plock i (m_ctx s i) = Some i ∧ waking (m_ctx s i) = None ∧ m_ctx s i ≠ TExitRel ∧ m_ctx s i ≠ TDead).
  { destruct Hid as [->|[->|(c & lk & ->)]]; done. }
  destruct Hctx as (Hpl & Hnw & Hne1 & Hne2).
  assert (Hnr : ∀ q, ¬ runs s h q) by (intros q; unfold runs; by rewrite Hpc).
  assert (Hruns : ∀ h' q, runs s' h' q ↔ (h' = h ∧ q = i ∨ h' ≠ h ∧ runs s h' q)).
  { intros h' q. unfold runs, s'. cbn. destruct (decide (h' = h)) as [->|Hne].
    - rewrite fn_lookup_insert. cbn. naive_solver.
    - rewrite fn_lookup_insert_ne by done. naive_solver. }
  assert (Hhl : ∀ h', hlock s' h' = hlock s h').
  { intros h'. unfold hlock, s'. cbn. destruct (decide (h' = h)) as [->|Hne]; [|by rewrite fn_lookup_insert_ne].
    rewrite fn_lookup_insert, Hpc. done. }
  pose proof (own_free s H i Hidle) as Hnh.
  split; cbn [m_procs m_ctx m_stack m_held m_harts m_owner s' set_cpu set_proc].
  - intros j h'. rewrite Hhl, Hruns, (so_plock _ H). split; (intros [?|[Hr Hd]]; [by left|right]).
    + split; [|done]. right. split; [|done]. intros ->. by apply (Hnr j).
    + destruct Hr as [[-> ->]|[_ Hr]]; [congruence|done].
  - intros q Hq. destruct (so_held _ H q Hq) as (? & [h' Hh'] & ?). split; [done|]. split; [|done].
    exists h'. apply Hruns. right. split; [|done]. intros ->. by apply (Hnr q).
  - intros h' k Hn. apply (so_klock _ H). intros q Hq. apply (Hn q), Hruns. right. split; [|done]. intros ->. by apply (Hnr q).
  - intros h'. destruct (decide (h' = h)) as [->|Hne]; [by rewrite fn_lookup_insert|].
    rewrite fn_lookup_insert_ne by done. apply (so_cpu _ H).
  - intros h'. destruct (decide (h' = h)) as [->|Hne]; [by rewrite fn_lookup_insert|].
    rewrite fn_lookup_insert_ne by done. apply (so_range _ H).
  - intros h' q. rewrite Hruns. intros [[-> ->]|[Hne Hr]].
    + rewrite fn_lookup_insert. split; [|done]. destruct (m_ctx s i); done.
    + rewrite fn_lookup_insert_ne by (intros ->; by apply (Hidle h')). by apply (so_run _ H h').
  - intros h1 h2 q. rewrite !Hruns. intros [[-> ->]|[? H1]] [[-> ?]|[? H2]]; [done|..].
    + by destruct (Hidle h2).
    + subst q. by destruct (Hidle h1).
    + by apply (so_once _ H h1 h2 q).
  - intros q Hq. assert (Hqi : q ≠ i) by (intros ->; apply (Hq h), Hruns; by left).
    rewrite fn_lookup_insert_ne by done. apply (so_idle _ H). intros h' Hr. apply (Hq h'), Hruns. right. split; [|done].
    intros ->. by apply (Hnr q).
  - apply (so_stack _ H).
  - intros q Hq. rewrite fn_lookup_insert_ne by lia. by apply (so_handler _ H).
  - intros q j Hs. destruct (so_start _ H q j Hs) as [Hu Hun]. rewrite fn_lookup_insert_ne by congruence. done.
  - apply (so_nodup _ H).
  - intros h' q c k lk r. rewrite Hruns. intros [[-> ->]|[Hne Hr]] Hw; [congruence|].
    intros Ho Hltk Hrq Hwt. apply (so_wake _ H h' q c k lk r Hr Hw Ho Hltk Hrq). unfold waiting in *. cbn in Hwt.
    destruct (decide (r = i)) as [->|]; [rewrite fn_lookup_insert in Hwt; cbn in Hwt; naive_solver|].
    by rewrite fn_lookup_insert_ne in Hwt.
Qed.

Lemma ok_sched s h p x t :
  smp_ok s → h_pc (m_harts s h) = HProc p → scheds (m_ctx s p) (m_procs s p) = Some (x, t) →
  (∀ l, m_owner s l = Some h → l = LP p) →
  smp_ok (set_pc h (HBack p) (set_proc p x (set_ctx p t s))).
Proof.
  intros H Hpc Ha Honly. set (s' := set_pc _ _ _).
  assert (Hr : runs s h p) by (unfold runs; by rewrite Hpc).
  pose proof (so_range _ H h) as Hlt. rewrite Hpc in Hlt. pose proof (run_now s H h p Hr) as Hrun.
  assert (Hfacts : plock p (m_ctx s p) = Some p ∧ idle_ok p x t ∧ starting t = None ∧
    (∀ c lk, t ≠ TSleepRel c lk) ∧ ∀ c lk, t = TSleepRet c lk → sp_state x = SLEEPING → m_ctx s p = TSleepRel c lk).
  { unfold run_ok in Hrun. destruct (m_ctx s p); try done; cbn in Ha; simplify_eq; split_and!; try done.
    - by left.
    - by exists c, lk.
    - by intros c' lk' [= <- <-].
    - unfold idle_ok. by rewrite (proj1 Hrun). }
  destruct Hfacts as (Hpl & Hid & Hns & Hrel & Hret).
  assert (Hother : ∀ h' q, h' ≠ h → runs s h' q → q ≠ p).
  { intros h' q Hne Hq ->. by apply Hne, (so_once _ H h' h p). }
  assert (Hruns : ∀ h' q, runs s' h' q ↔ h' ≠ h ∧ runs s h' q).
  { intros h' q. unfold runs, s'. cbn. destruct (decide (h' = h)) as [->|Hne].
    - rewrite fn_lookup_insert. cbn. naive_solver.
    - rewrite fn_lookup_insert_ne by done. naive_solver. }
  assert (Hhl : ∀ h', hlock s' h' = hlock s h').
  { intros h'. destruct (decide (h' = h)) as [->|Hne].
    - rewrite (hlock_run s h p Hr), Hpl. unfold hlock, s'. cbn. by rewrite fn_lookup_insert.
    - unfold hlock, s'. cbn. rewrite fn_lookup_insert_ne by done. destruct (thread h' (h_pc (m_harts s h'))) as [q|] eqn:E; [|done].
      rewrite fn_lookup_insert_ne; [done|]. by apply not_eq_sym, (Hother h'). }
  assert (Hheld : ∀ h' q, runs s h' q → m_held s q = true → h' ≠ h).
  { intros h' q Hq Hd ->. assert (q = p) as -> by by eapply runs_inj. rewrite (plock_not_held s H) in Hd; done. }
  assert (Hst : ∀ q, starts s' q `sublist_of` starts s q).
  { intros q. unfold starts, s'. cbn [m_ctx m_stack set_pc set_proc set_ctx]. destruct (decide (q = p)) as [->|Hq].
    - rewrite fn_lookup_insert. apply starts_move. by left.
    - by rewrite fn_lookup_insert_ne. }
  split; cbn [m_procs m_ctx m_stack m_held m_harts m_owner s' set_pc set_proc set_ctx].
  - intros j h'. rewrite Hhl, Hruns, (so_plock _ H). split; (intros [?|[Hq Hd]]; [by left|right]); [|naive_solver].
    split; [|done]. split; [|done]. by eapply Hheld.
  - intros q Hq. destruct (so_held _ H q Hq) as (? & [h' Hh'] & ?). pose proof (Hheld h' q Hh' Hq) as Hne.
    rewrite fn_lookup_insert_ne by (by apply not_eq_sym, (Hother h')). split; [done|]. split; [|done]. exists h'. by apply Hruns.
  - intros h' k Hn. destruct (decide (h' = h)) as [->|Hne]; [by intros ?%Honly|].
    apply (so_klock _ H). intros q Hq. apply (Hn q), Hruns. done.
  - intros h'. destruct (decide (h' = h)) as [->|Hne].
    + rewrite fn_lookup_insert. cbn. rewrite (so_cpu _ H). by rewrite Hpc.
    + rewrite fn_lookup_insert_ne by done. apply (so_cpu _ H).
  - intros h'. destruct (decide (h' = h)) as [->|Hne]; [by rewrite fn_lookup_insert|].
    rewrite fn_lookup_insert_ne by done. apply (so_range _ H).
  - intros h' q. rewrite Hruns. intros [Hne Hq]. pose proof (Hother h' q Hne Hq).
    rewrite !fn_lookup_insert_ne by done. by apply (so_run _ H h').
  - intros h1 h2 q. rewrite !Hruns. intros [_ H1] [_ H2]. by apply (so_once _ H h1 h2 q).
  - intros q Hq. destruct (decide (q = p)) as [->|]; [by rewrite !fn_lookup_insert|].
    rewrite !fn_lookup_insert_ne by done. apply (so_idle _ H). intros h' Hh'. apply (Hq h'), Hruns. split; [|done].
    intros ->. by apply (runs_inj s h q p) in Hr.
  - apply (so_stack _ H).
  - intros q Hq. rewrite !fn_lookup_insert_ne by lia. by apply (so_handler _ H).
  - intros q j Hs. pose proof (elem_of_sublist _ _ _ Hs (Hst q)) as Hs'. destruct (so_start _ H q j Hs') as [Hu Hun].
    assert (j ≠ p) by (intros ->; destruct (run_state s H h p Hr) as [?|[? _]]; congruence).
    rewrite fn_lookup_insert_ne by done. split; [done|]. intros q' Hq'. apply Hun. eapply elem_of_sublist; [exact Hq'|apply Hst].
  - intros q. eapply sublist_NoDup; [apply (so_nodup _ H)|apply Hst].
  - intros h' q c k lk r. rewrite Hruns. intros [Hne Hq] Hw Ho Hltk Hrq Hwt. pose proof (Hother h' q Hne Hq).
    rewrite fn_lookup_insert_ne in Hw by done. apply (so_wake _ H h' q c k lk r Hq Hw Ho Hltk Hrq).
    unfold waiting in *. cbn in Hwt. destruct (decide (r = p)) as [->|]; [|by rewrite !fn_lookup_insert_ne in Hwt].
    rewrite !fn_lookup_insert in Hwt. destruct Hwt as [E|[E Es]]; [by apply Hrel in E|left; by apply Hret].
Qed.

(** ** All steps *)

(** A hart in scheduler() gives back its process lock. *)
Lemma slock_drop s h i pc :
  smp_ok s → h_pc (m_harts s h) = pc → slock pc = Some i →
  ∀ j h', <[LP i:=None]> (m_owner s) (LP j) = Some h' ↔ (h' = h ∧ None = Some j ∨ h' ≠ h ∧ m_owner s (LP j) = Some h').
Proof.
  intros H Hpc Hi j h'.
  assert (Ht : thread h (h_pc (m_harts s h)) = None) by (rewrite Hpc; by destruct pc).
  assert (Hown : m_owner s (LP j) = Some h ↔ j = i).
  { rewrite (so_plock _ H). unfold hlock, runs. rewrite Ht, Hpc, Hi. naive_solver. }
  destruct (decide (j = i)) as [->|Hne].
  - rewrite fn_lookup_insert, (proj2 Hown) by done. naive_solver.
  - rewrite fn_lookup_insert_ne by congruence. destruct (decide (h' = h)) as [->|]; naive_solver.
Qed.

(** A hart in scheduler() between two processes, or in a handler without locks,
    goes on without changing locks. *)
Lemma ok_hart_free s h pc pc' :
  smp_ok s → h_pc (m_harts s h) = pc → h_proc (m_harts s h) = None → slock pc = None → slock pc' = None →
  (∀ p, runs s h p → p = (NPROC + h)%nat ∧ m_ctx s p = TRun ∧ no_lock s h ∧ thread h pc' = None) →
  match pc' with HScan _ | HIntr _ => True | _ => False end → smp_ok (set_pc h pc' s).
Proof.
  intros H Hpc Hproc Hs Hs' Hold Hpc'. unfold set_pc. rewrite Hproc. apply (ok_hart s h pc' _ H); try done.
  - intros p. by destruct pc'; cbn; try done; intros [= <-].
  - by destruct pc'.
  - intros j h'. rewrite Hs'. destruct (decide (h' = h)) as [->|]; [|naive_solver]. rewrite (so_plock _ H). split; [|naive_solver].
    intros Hj. exfalso. destruct (thread h (h_pc (m_harts s h))) as [p|] eqn:E.
    + destruct (Hold p E) as (_ & _ & Hn & _). apply (Hn (LP j)), (so_plock _ H). done.
    + unfold hlock, runs in Hj. rewrite E, Hpc, Hs in Hj. naive_solver.
Qed.

Lemma step_ok s s' : smp_ok s → step s s' → smp_ok s'.
Proof.
  intros H Hst. destruct Hst as [s h i Hpc Hi|s h i Hpc Hi Ho|s h i Hpc Hns|s h i Hpc Hrb|s h i Hpc
    |s h i Hpc|s h i Hpc Hc Hsk Hn|s h p Hr Hn|s h p t l Hr Hc Hsk Hn
    |s h p t Hr Hc Hca|s h p k Hr Hc Ho|s h p k Hr Hc Ho|s h p Hr Hp Hc Ho|s h p Hr Hc Ho|s h p Hr Hc
    |s h p l t Hr Ha Ho|s h p t Hr Ha|s h p i x t Hr Ha|s h p k x t Hr Ha Ho|s h p x t Hr Ha Ho
    |s h p i pid Hr Hc Hi|s h p i Hr Hc|s h p i Hr Hc|s h p i Hr Hc|s h p i Hr Hc].
  1-7: pose proof (so_cpu _ H h) as Hcpu; rewrite Hpc in Hcpu.
  - apply (ok_hart_free s h (HScan i)); try done. intros p. unfold runs. by rewrite Hpc.
  - unfold set_owner, set_pc. cbn. rewrite Hcpu. apply (ok_hart s h (HTest i)); try done.
    { intros p. unfold runs. by rewrite Hpc. }
    intros j h'.
    assert (Hno : m_owner s (LP j) ≠ Some h) by (rewrite (so_plock _ H); unfold hlock, runs; rewrite Hpc; naive_solver).
    destruct (decide (j = i)) as [->|Hne].
    + rewrite fn_lookup_insert, Ho. cbn. naive_solver.
    + rewrite fn_lookup_insert_ne by congruence. cbn. destruct (decide (h' = h)) as [->|]; naive_solver.
  - unfold set_owner, set_pc. cbn. rewrite Hcpu. apply (ok_hart s h (HScan (S i))); try done.
    + intros p. unfold runs. by rewrite Hpc.
    + by apply (slock_drop s h i (HTest i)).
  - by apply ok_swtch.
  - apply (ok_hart s h (HScan (S i))); try done.
    + intros p. unfold runs. by rewrite Hpc.
    + by apply (slock_drop s h i (HBack i)).
  - apply (ok_hart_free s h (HScan i)); try done. intros p. unfold runs. by rewrite Hpc.
  - apply (ok_hart_free s h (HIntr i)); try done. intros p. unfold runs. rewrite Hpc. intros [= <-]. done.
  - by eapply ok_intr.
  - by eapply ok_iret.
  - by eapply ok_call.
  - by eapply ok_klock; [..|left|right].
  - by eapply ok_klock; [..|right|left].
  - apply (ok_own_lock s h p true); auto.
  - apply (ok_own_lock s h p false); auto. by apply (so_held _ H).
  - by eapply ok_kill_self.
  - by eapply ok_acquire.
  - by eapply ok_advance.
  - by eapply ok_critical.
  - by eapply ok_release.
  - by eapply ok_sched.
  - by eapply ok_found.
  - apply (ok_give s h p H Hr i); rewrite ?Hc; try done; [|by right]. intros Hp. pose proof (handler_now s p H Hp) as Hh. by rewrite Hc in Hh.
  - apply (ok_give s h p H Hr i); rewrite ?Hc; try done. by left.
  - by eapply ok_no_mem.
  - apply (ok_give s h p H Hr i); rewrite ?Hc; try done. by left.
Qed.
