(* ===== verification/SmpTheorems.v ===== *)
(** The theorems on scheduling: a process runs on one hart at most, sched() and
    the schedulers have the locks they need, and wakeup() misses no sleeper. *)

From stdpp Require Import functions.
From S2P Require Import Prelude Riscv Kstate Smp SmpInv.

Lemma boot_handler p :
  (NPROC ≤ p)%nat → m_ctx boot p = TRun ∧ m_procs boot p = SProc RUNNING None 0 0.
Proof.
  intros Hp. assert (NPROC = 64%nat) by done. unfold boot. cbn [m_ctx m_procs]. by rewrite !decide_False by lia.
Qed.

Lemma boot_ok : smp_ok boot.
Proof.
  assert (Hst : ∀ p, starts boot p = []) by (intros p; unfold starts, boot; cbn; by repeat case_decide).
  assert (Hr : ∀ h p, ¬ runs boot h p) by done.
  split; try done.
  - intros i h. split; [done|]. by intros [?|[? ?]].
  - intros p _. unfold idle_ok, boot. cbn [m_ctx m_procs].
    destruct (decide (p = 0%nat)); [right; left; done|]. destruct (decide (p < NPROC)%nat); [done|]. split; [lia|done].
  - intros p Hp. destruct (boot_handler p Hp) as [-> ->]. split; [done|]. by repeat constructor.
  - intros p i. rewrite Hst. by intros ?%elem_of_nil.
  - intros p. rewrite Hst. constructor.
Qed.

Lemma reach_ok s : reach s → smp_ok s.
Proof.
  unfold reach. intros Hr. assert (H : smp_ok boot) by apply boot_ok. revert H.
  induction Hr as [|s1 s2 s3 Hs _ IH]; intros H; [done|]. by apply IH, (step_ok s1).
Qed.

(** ** A run: process 0 wakes up channel 7 with lock 1 *)

(** Hart 0 runs process 0, which has lock 1 and is in wakeup(7) at proc[i]; no
    process lock is taken. *)
Record in_wakeup (s : smp) (i : nat) : Prop := {
  iw_reach : reach s;
  iw_runs : runs s 0 0;
  iw_ctx : m_ctx s 0%nat = TWake 7 i;
  iw_free : ∀ j, m_owner s (LP j) = None;
  iw_lock : m_owner s (LK 1) = Some 0%nat;
}.

Lemma in_wakeup_start : ∃ s, in_wakeup s 0.
Proof.
  set (s1 := set_owner (LP 0) (Some 0%nat) (set_pc 0 (HTest 0) boot)).
  set (s2 := set_cpu 0 (Hart (Some 0%nat) (HProc 0)) (set_proc 0 (with_state RUNNING (m_procs s1 0%nat)) s1)).
  set (s3 := set_owner (LP 0) None (set_proc 0 (m_procs s2 0%nat) (set_ctx 0 TRun s2))).
  set (s4 := set_owner (LK 1) (Some 0%nat) s3).
  exists (set_ctx 0 (TWake 7 0) s4). split; try done.
  - unfold reach. eapply (rtc_l _ _ s1); [apply (step_scan boot 0 0); [done|unfold NPROC; lia|done]|].
    eapply (rtc_l _ _ s2); [by apply (step_swtch s1 0 0)|].
    eapply (rtc_l _ _ s3); [by apply (step_critical s2 0 0 0 _ TRun)|].
    eapply (rtc_l _ _ s4); [by apply (step_lock s3 0 0 1)|].
    apply rtc_once. apply (step_call s4 0 0); [done|done|apply call_wakeup].
  - intros j. cbn. destruct (decide (j = 0%nat)) as [->|]; [done|].
    rewrite !fn_lookup_insert_ne by congruence. done.
Qed.

Lemma in_wakeup_next s i : in_wakeup s i → (i < NPROC)%nat → ∃ s', in_wakeup s' (S i).
Proof.
  intros [Hreach Hruns Hctx Hfree Hlock] Hi. destruct (decide (i = 0%nat)) as [->|Hne].
  - exists (set_ctx 0 (TWake 7 1) s). split; try done.
    eapply rtc_r; [exact Hreach|]. apply (step_advance s 0 0); [done|]. by rewrite Hctx.
  - set (s1 := set_owner (LP i) (Some 0%nat) (set_ctx 0 (TWakeGot 7 i) s)).
    assert (Hc1 : m_ctx s1 0%nat = TWakeGot 7 i) by (cbn; apply fn_lookup_insert).
    eexists. split.
    + eapply rtc_r; [|apply (step_critical s1 0 0 i); [done|by rewrite Hc1]].
      eapply rtc_r; [exact Hreach|]. apply (step_acquire s 0 0); [done| |done].
      rewrite Hctx. cbn -[NPROC]. by rewrite decide_True.
    + done.
    + cbn. by rewrite fn_lookup_insert.
    + intros j. cbn. destruct (decide (j = i)) as [->|]; [by rewrite fn_lookup_insert|].
      rewrite !fn_lookup_insert_ne by congruence. apply Hfree.
    + cbn. by rewrite !fn_lookup_insert_ne.
Qed.

Lemma in_wakeup_end n : (n ≤ NPROC)%nat → ∃ s, in_wakeup s n.
Proof.
  induction n as [|n IH]; intros Hn; [apply in_wakeup_start|].
  destruct IH as [s Hs]; [lia|]. apply (in_wakeup_next s n Hs). lia.
Qed.

(** ** The theorems *)

(** C20: Scheduling is safe on any number of harts, whatever the kernel code
    around it does with other locks and with its own p->lock, and wherever
    interrupts arrive.  In every reachable state no process is run by two
    harts; a hart that runs a process has it in c->proc, and the process is
    RUNNING, or ZOMBIE on its way out of exit(); a RUNNING process is run; a
    thread that is at its call of sched() holds p->lock and has left the state
    RUNNING, so these two checks of sched() never panic (if it holds another
    lock sched() panics and nothing goes on); and a hart in scheduler() holds
    the lock of the process that it is at and no other lock. *)
Theorem scheduler_safe s :
  reach s →
  (∀ h h' p, runs s h p → runs s h' p → h = h') ∧
  (∀ h p, (p < NPROC)%nat → runs s h p → h_proc (m_harts s h) = Some p ∧
     (sp_state (m_procs s p) = RUNNING ∨ sp_state (m_procs s p) = ZOMBIE ∧ m_ctx s p = TExitRel)) ∧
  (∀ p, (p < NPROC)%nat → sp_state (m_procs s p) = RUNNING → ¬ ∀ h, ¬ runs s h p) ∧
  (∀ h p x t, runs s h p → scheds (m_ctx s p) (m_procs s p) = Some (x, t) →
     m_owner s (LP p) = Some h ∧ sp_state x ≠ RUNNING) ∧
  (∀ h, (∀ p, ¬ runs s h p) →
     ∀ l, m_owner s l = Some h ↔ ∃ i, l = LP i ∧ slock (h_pc (m_harts s h)) = Some i).
Proof.
  intros H%reach_ok. split_and!.
  - apply (so_once _ H).
  - intros h p Hp Hr. split; [|by apply (run_state s H h)]. rewrite (so_cpu _ H). unfold runs, thread in Hr.
    destruct (h_pc (m_harts s h)); try done. apply (inj Some) in Hr. lia.
  - intros p Hp Hs Hn. pose proof (so_idle _ H p Hn) as Hi. unfold idle_ok in Hi. rewrite Hs in Hi. lia.
  - intros h p x t Hr Ha. pose proof (run_now s H h p Hr) as [Hst _].
    assert (plock p (m_ctx s p) = Some p ∧ sp_state x ≠ RUNNING) as [Hpl Hx].
    { destruct (m_ctx s p); try done; cbn in Ha; simplify_eq; split; try done. by rewrite Hst. }
    split; [|done]. apply (owner_plock s H h p p Hr). by left.
  - intros h Hn l. assert (Ht : thread h (h_pc (m_harts s h)) = None).
    { destruct (thread h (h_pc (m_harts s h))) as [p|] eqn:E; [|done]. by destruct (Hn p). }
    destruct l as [i|k]; [|split; [by intros ?%(so_klock _ H)|by intros (i & ? & _)]].
    rewrite (so_plock _ H). unfold hlock. rewrite Ht. split; [intros [?|[Hr _]]; [by exists i|by destruct (Hn i)]|].
    intros (j & [= <-] & ?). by left.
Qed.

Lemma scheduler_safe_witness :
  ∃ s, reach s ∧ runs s 0 0 ∧ ∀ h, runs s h 0 → h = 0%nat.
Proof.
  destruct in_wakeup_start as [s [Hreach Hruns _ _ _]]. exists s. split; [exact Hreach|]. split; [exact Hruns|].
  intros h Hh. exact (proj1 (scheduler_safe s Hreach) h 0%nat 0%nat Hh Hruns).
Defined.

(** C19: No wake-up is lost.  When a thread that holds the lock lk has run
    through the loop of wakeup(c), no other process is left in sleep(c, lk):
    none has released lk and not yet set its state to SLEEPING, and none is
    SLEEPING there.  (sleep() acquires p->lock before it releases lk, and
    keeps it until the scheduler of its hart has the process off the hart.) *)
Theorem wakeup_not_lost s h p c lk q :
  reach s → runs s h p → m_ctx s p = TWake c NPROC → m_owner s (LK lk) = Some h →
  (q < NPROC)%nat → q ≠ p → ¬ waiting s q c lk.
Proof.
  intros H%reach_ok Hr Hc Ho Hq Hne. apply (so_wake _ H h p c NPROC lk q); [done|by rewrite Hc|done..].
Qed.

Lemma wakeup_not_lost_witness :
  ∃ s, reach s ∧ runs s 0 0 ∧ m_ctx s 0%nat = TWake 7 NPROC ∧ m_owner s (LK 1) = Some 0%nat ∧ ¬ waiting s 5 7 1.
Proof.
  destruct (in_wakeup_end NPROC ltac:(lia)) as [s [Hreach Hruns Hctx _ Hlock]].
  exists s. split; [exact Hreach|]. split; [exact Hruns|]. split; [exact Hctx|]. split; [exact Hlock|].
  apply (wakeup_not_lost s 0 0 7 1 5 Hreach Hruns Hctx Hlock); [unfold NPROC; lia|lia].
Defined.
