(* ===== verification/FsTx.v ===== *)
(** The buffer cache and the log as the file system uses them inside a
    transaction, between begin_op() and end_op().

    [tx]: the file system sees a function from block numbers to contents, the
    set of blocks logged so far and the buffers it has locked.  bread(),
    brelse() and an assignment to a locked buffer followed by log_write() are
    steps between such states; the layers above (Balloc.v, Bmap.v, Writei.v,
    Dir.v) use nothing else of the cache and the log. *)

From S2P Require Import Prelude Riscv Kstate Sched Bytes Bio BioSpec BioOps Log.

(** ** Buffers the process has locked *)

Definition keep (pid : Z) (o : option Z) (x : buf) : buf :=
  match o with
  | Some _ => set_block (SleepLock true pid) (set_refcnt (b_refcnt x + 1) x)
  | None => x
  end.

(** The cells [cs] with the buffers in [H] locked; [H] says which block each of
    them holds. *)
Definition hold (pid : Z) (H : gmap nat Z) (cs : list buf) : list buf :=
  imap (λ j, keep pid (H !! j)) cs.

Lemma hold_lookup pid H cs j : hold pid H cs !! j = keep pid (H !! j) <$> cs !! j.
Proof. unfold hold. by rewrite list_lookup_imap. Qed.

Lemma length_hold pid H cs : length (hold pid H cs) = length cs.
Proof. apply length_imap. Qed.

Lemma hold_lookup_inv pid H cs j x :
  hold pid H cs !! j = Some x → ∃ y, cs !! j = Some y ∧ x = keep pid (H !! j) y.
Proof. rewrite hold_lookup. destruct (cs !! j); simpl; [|done]. intros [= <-]. eauto. Qed.

Lemma keep_holds pid o x bno : holds bno (keep pid o x) ↔ holds bno x.
Proof. by destruct o. Qed.

Lemma hold_take pid H cs b bno x :
  hold pid (<[b := bno]> H) (<[b := x]> cs) = <[b := keep pid (Some bno) x]> (hold pid H cs).
Proof.
  apply list_eq. intros j. destruct (decide (j = b)) as [->|Hj].
  - destruct (decide (b < length cs)%nat).
    + rewrite hold_lookup, !list_lookup_insert_eq by (by rewrite ?length_hold).
      by rewrite lookup_insert_eq.
    + rewrite !lookup_ge_None_2; [done|rewrite length_insert, length_hold; lia|].
      rewrite length_hold, length_insert. lia.
  - rewrite hold_lookup, !list_lookup_insert_ne by done. by rewrite lookup_insert_ne, hold_lookup by done.
Qed.

Lemma hold_insert pid H cs b x :
  hold pid H (<[b := x]> cs) = <[b := keep pid (H !! b) x]> (hold pid H cs).
Proof.
  apply list_eq. intros j. destruct (decide (j = b)) as [->|Hj].
  - destruct (decide (b < length cs)%nat).
    + by rewrite hold_lookup, !list_lookup_insert_eq by (by rewrite ?length_hold).
    + rewrite !lookup_ge_None_2; [done|rewrite length_insert, length_hold; lia|].
      rewrite length_hold, length_insert. lia.
  - rewrite hold_lookup, !list_lookup_insert_ne by done. by rewrite hold_lookup.
Qed.

Lemma hold_drop pid H cs b x :
  cs !! b = Some x → hold pid (delete b H) cs = <[b := x]> (hold pid H cs).
Proof.
  intros Hx. apply list_eq. intros j. destruct (decide (j = b)) as [->|Hj].
  - rewrite hold_lookup, list_lookup_insert_eq, lookup_delete_eq, Hx; [done|].
    rewrite length_hold. by apply lookup_lt_Some in Hx.
  - by rewrite list_lookup_insert_ne, !hold_lookup, lookup_delete_ne.
Qed.

Lemma bview_hold pid H cs d w : bview (hold pid H cs) d w = bview cs d w.
Proof.
  unfold hold. assert (G : ∀ f : nat → option Z, bview (imap (λ j, keep pid (f j)) cs) d w = bview cs d w).
  { induction cs as [|x cs IH]; intros f; [done|]. cbn [imap bview].
    assert (E : is_block ROOTDEV w (keep pid (f 0%nat) x) && b_valid (keep pid (f 0%nat) x) =
      is_block ROOTDEV w x && b_valid x) by by destruct (f 0%nat).
    rewrite E. destruct (is_block ROOTDEV w x && b_valid x); [|apply (IH (f ∘ S))]. by destruct (f 0%nat). }
  apply G.
Qed.

(** ** Buffers nobody uses *)

Definition idle (cs : list buf) : gset nat :=
  filter (λ j, b_refcnt <$> cs !! j = Some 0) (set_seq 0 (length cs)).

Lemma elem_of_idle cs j : j ∈ idle cs ↔ ∃ x, cs !! j = Some x ∧ b_refcnt x = 0.
Proof.
  unfold idle. rewrite elem_of_filter, elem_of_set_seq. split.
  - intros [E _]. destruct (cs !! j) as [x|]; [|done]. injection E as E. eauto.
  - intros (x & Hx & E). rewrite Hx. simpl. split; [by rewrite E|]. apply lookup_lt_Some in Hx. lia.
Qed.

Lemma idle_insert cs b x y :
  cs !! b = Some x → b_refcnt x = b_refcnt y → idle (<[b := y]> cs) = idle cs.
Proof.
  intros Hx E. apply set_eq. intros j. rewrite !elem_of_idle. destruct (decide (j = b)) as [->|].
  - rewrite list_lookup_insert_eq by by apply lookup_lt_Some in Hx. rewrite Hx.
    split; intros (z & [= <-] & ?); eexists; split; try done; congruence.
  - by rewrite list_lookup_insert_ne.
Qed.

Lemma idle_remove cs b x y :
  cs !! b = Some x → (size (idle cs) ≤ S (size (idle (<[b := y]> cs))))%nat.
Proof.
  intros Hx. transitivity (size ({[b]} ∪ idle (<[b := y]> cs))).
  - apply subseteq_size. intros j. rewrite elem_of_union, elem_of_singleton, !elem_of_idle.
    destruct (decide (j = b)); [by left|]. right. by rewrite list_lookup_insert_ne.
  - rewrite size_union_alt, size_singleton. pose proof (subseteq_size (idle (<[b:=y]> cs) ∖ {[b]}) (idle (<[b:=y]> cs))).
    specialize (H ltac:(set_solver)). lia.
Qed.

(** ** Room in the log *)

(** The transaction has logged the blocks of [W] and may log up to [N] blocks:
    the log has the slots and the cache the buffers. *)
Record tx_room (N : nat) (W : gset Z) (lg : log) (cs : list buf) : Prop := {
  tr_len : length (lg_block lg) = Z.to_nat LOGSIZE;
  tr_n : lg_n lg = Z.of_nat (size W);
  tr_blocks : list_to_set (take (size W) (lg_block lg)) = W;
  tr_range : ∀ b, b ∈ W → lg_start lg + LOGSIZE ≤ b < 2147483648;
  tr_cap : Z.of_nat N < LOGSIZE ∧ Z.of_nat N ≤ lg_size lg - 1;
  tr_used : (size W ≤ N)%nat;
  tr_open : 1 ≤ lg_outstanding lg;
  tr_pinned : ∀ b, b ∈ W → ∃ j r v, cs !! j = Some (released b r v) ∧ 1 ≤ r;
  tr_quiet : ∀ j x, cs !! j = Some x →
    b_lock x = SleepLock false 0 ∧ b_refcnt x + Z.of_nat N < 2147483646 + Z.of_nat (size W);
  tr_free : (N + 2 ≤ size W + size (idle cs))%nat;
}.

Lemma hold_ok pid N W H lg cs d : cache_ok cs d → tx_room N W lg cs → cache_ok (hold pid H cs) d.
Proof.
  intros C T. split.
  - rewrite length_hold. apply C.
  - intros i j x y bno (x' & Hx & ->)%hold_lookup_inv (y' & Hy & ->)%hold_lookup_inv.
    rewrite !keep_holds. by apply (co_uniq _ _ C).
  - intros i x (x' & Hx & ->)%hold_lookup_inv. pose proof (co_ref _ _ C _ _ Hx).
    pose proof (tr_quiet _ _ _ _ T _ _ Hx) as [_ ?]. pose proof (tr_used _ _ _ _ T).
    destruct (H !! i); simpl; lia.
  - intros i x (x' & Hx & ->)%hold_lookup_inv. pose proof (co_ref _ _ C _ _ Hx).
    destruct (H !! i); simpl; [lia|]. apply (co_unused _ _ C _ _ Hx).
Qed.

Lemma hold_available pid N W (H : gmap nat Z) lg cs d bno :
  cache_ok cs d → tx_room N W lg cs → (size H ≤ 1)%nat → (∀ j, H !! j ≠ Some bno) →
  (∀ j w, H !! j = Some w → ∃ x, cs !! j = Some x ∧ holds w x) →
  available (hold pid H cs) bno.
Proof.
  intros C T Hs Hn Hh. split.
  - intros j x (y & Hy & ->)%hold_lookup_inv Hx%keep_holds.
    destruct (H !! j) as [w|] eqn:E.
    + exfalso. destruct (Hh j w E) as (z & Hz & [_ Hw]). rewrite Hy in Hz. injection Hz as <-.
      destruct Hx as [_ Hx]. apply (Hn j). congruence.
    + simpl. pose proof (tr_quiet _ _ _ _ T _ _ Hy) as [? ?]. pose proof (tr_used _ _ _ _ T).
      split; [done|lia].
  - assert (Hne : idle cs ∖ dom H ≠ ∅).
    { intros E. assert (Hsub : idle cs ⊆ dom H) by set_solver. apply subseteq_size in Hsub.
      rewrite size_dom in Hsub. pose proof (tr_free _ _ _ _ T). pose proof (tr_used _ _ _ _ T). lia. }
    apply set_choose_L in Hne as [j [Hj Hd]%elem_of_difference].
    apply elem_of_idle in Hj as (x & Hx & H0). exists j, x.
    apply not_elem_of_dom in Hd. rewrite hold_lookup, Hx, Hd. by split; [|right].
Qed.

(** ** The state of a transaction *)

(** The log differs in the list of blocks only. *)
Definition same_log (lg lg0 : log) : Prop :=
  lg = set_n (lg_n lg) (set_lblock (lg_block lg) lg0).

(** The log is below the other areas of the disk. *)
Definition log_low (s0 : kstate) : Prop :=
  0 < lg_start (io_log (k_io s0)) ∧ lg_start (io_log (k_io s0)) + LOGSIZE ≤ sb_inodestart (io_sb (k_io s0)).

(** [tx me N s0 W H B s]: process [me] is in a transaction that has logged the
    blocks [W] and may log up to [N]; it has locked the buffers [H]; block [w]
    holds [B w], which is what the disk holds unless the block has been logged;
    the disk is that of [s0], and outside the cache and the list of logged
    blocks, [s] is [s0]. *)
Inductive tx (me : proc) (N : nat) (s0 : kstate) (W : gset Z) (H : gmap nat Z) (B : Z → list Z) (s : kstate)
    : Prop :=
| Tx lg cs :
    same_log lg (io_log (k_io s0)) → log_low s0 →
    io_at me s0 lg (io_disk (k_io s0)) (hold (p_pid me) H cs) s → cache_ok cs (io_disk (k_io s0)) →
    tx_room N W lg cs → (∀ w, bview cs (io_disk (k_io s0)) w = B w) →
    (∀ w, w ∉ W → B w = disk_block (io_disk (k_io s0)) w) →
    (∀ b bno, H !! b = Some bno → ∃ r, cs !! b = Some (released bno r (B bno))) →
    tx me N s0 W H B s.

(** The contents after block [bno] has been set to [v]. *)
Definition setb (B : Z → list Z) (bno : Z) (v : list Z) : Z → list Z :=
  λ w, if decide (w = bno) then v else B w.

Lemma setb_eq B bno v : setb B bno v bno = v.
Proof. unfold setb. by rewrite decide_True. Qed.
Lemma setb_ne B bno v w : w ≠ bno → setb B bno v w = B w.
Proof. intros. unfold setb. by rewrite decide_False. Qed.

Lemma insert_noop (H : gmap nat Z) b w : H !! b = None → delete b (<[b := w]> H) = H.
Proof. apply delete_insert_id. Qed.

Section steps.
Context {me : proc} {N : nat} {s0 : kstate}.
Implicit Types (W : gset Z) (H : gmap nat Z) (B : Z → list Z).

Lemma tx_ext W H B B' s : (∀ w, B w = B' w) → tx me N s0 W H B s → tx me N s0 W H B' s.
Proof.
  intros E [lg cs G Lo A C T V Hu Hh]. exists lg cs; try done.
  - intros w. by rewrite <-E.
  - intros w Hw. rewrite <-E. auto.
  - intros b bno Hb. rewrite <-E. eauto.
Qed.

Lemma tx_bread W H B s bno :
  tx me N s0 W H B s → (size H ≤ 1)%nat → (∀ j, H !! j ≠ Some bno) →
  wp (bread ROOTDEV bno) s (λ b s', H !! b = None ∧ tx me N s0 W (<[b := bno]> H) B s').
Proof.
  intros [lg cs G Lo A C T V Hu Hh] Hs Hn. set (d := io_disk (k_io s0)) in *. apply wp_ok.
  assert (Av : available (hold (p_pid me) H cs) bno).
  { eapply hold_available; try done. intros j w Hj. destruct (Hh j w Hj) as [r Hr]. by eexists. }
  destruct (step_bread A bno (hold_ok _ _ _ _ _ _ _ C T) Av) as (b & x & s' & E & F & Hr & A').
  destruct F as [Hx Hf]. apply hold_lookup_inv in Hx as (y & Hy & Ex).
  assert (Hb : H !! b = None).
  { destruct (H !! b) as [w|] eqn:Ew; [|done]. destruct (Hh b w Ew) as [r Hr'].
    rewrite Hy in Hr'. injection Hr' as ->. subst x. pose proof (co_ref _ _ C _ _ Hy). simpl in *.
    destruct Hf as [[_ Hf]|[Hf _]]; simpl in Hf; [|lia]. subst w. by destruct (Hn b). }
  rewrite Hb in Ex. simpl in Ex. subst y.
  assert (F : found cs bno b x).
  { split; [done|]. destruct Hf as [Hf|[H0 Hno]]; [by left|right; split; [done|]].
    intros j y Hj. rewrite <-(keep_holds (p_pid me) (H !! j)). apply (Hno j). by rewrite hold_lookup, Hj. }
  rewrite bview_hold in A'. exists b, s'. split; [done|]. split; [done|].
  pose proof (lookup_lt_Some _ _ _ Hy) as Hbl.
  exists lg (<[b := released bno (b_refcnt x) (bview cs d bno)]> cs); fold d; [done|done|..].
  - by rewrite hold_take.
  - by apply read_ok.
  - destruct T as [T1 T2 T3 T4 T5 T6 T7 T8 T9 T10]. split; try done.
    + intros w Hw. destruct (T8 w Hw) as (j & r & v & Hz & Hr1). destruct (decide (j = b)) as [->|].
      * exists b, (b_refcnt x), (bview cs d bno). rewrite list_lookup_insert_eq by done. rewrite Hy in Hz. injection Hz as ->.
        split; [|done]. destruct F as [_ [[_ Hf']|[Hf' _]]]; simpl in Hf'; [by subst|lia].
      * exists j, r, v. by rewrite list_lookup_insert_ne.
    + intros j z. destruct (decide (j = b)) as [->|].
      * rewrite list_lookup_insert_eq by done. intros [= <-]. split; [done|]. simpl. by destruct (T9 _ _ Hy).
      * rewrite list_lookup_insert_ne by done. apply T9.
    + by rewrite (idle_insert _ _ x).
  - intros w. by rewrite bview_read.
  - done.
  - intros b' w. destruct (decide (b' = b)) as [->|].
    + rewrite lookup_insert_eq. intros [= <-]. rewrite list_lookup_insert_eq by done. rewrite V. eauto.
    + rewrite lookup_insert_ne, list_lookup_insert_ne by done. apply Hh.
Qed.

Lemma tx_buf W H B s b bno :
  tx me N s0 W H B s → H !! b = Some bno →
  ∃ x, buf_at b s = Ok x s ∧ b_data x = B bno ∧ b_blockno x = bno.
Proof.
  intros [lg cs G Lo A C T V Hu Hh] Hb. destruct (Hh b bno Hb) as [r Hr].
  destruct (step_read A b (keep (p_pid me) (Some bno) (released bno r (B bno)))) as (y & E & Ey).
  { by rewrite hold_lookup, Hr, Hb. }
  exists y. split; [done|]. split; [by apply (f_equal b_data) in Ey|by apply (f_equal b_blockno) in Ey].
Qed.

Lemma tx_brelse W H B s b bno :
  tx me N s0 W H B s → H !! b = Some bno →
  wp (brelse b) s (λ _ s', tx me N s0 W (delete b H) B s').
Proof.
  intros [lg cs G Lo A C T V Hu Hh] Hb. destruct (Hh b bno Hb) as [r Hr]. apply wp_ok.
  pose proof (co_ref _ _ C _ _ Hr) as Hr1. pose proof (tr_quiet _ _ _ _ T _ _ Hr) as [_ Hr2].
  pose proof (tr_used _ _ _ _ T). simpl in Hr1, Hr2.
  destruct (step_brelse A b (keep (p_pid me) (Some bno) (released bno r (B bno)))) as (s' & E & A').
  { by rewrite hold_lookup, Hr, Hb. } { done. } { simpl. lia. }
  exists tt, s'. split; [done|]. exists lg cs; try done.
  - rewrite (hold_drop _ _ _ b (released bno r (B bno))) by done.
    replace (released bno r (B bno)) with
      (set_refcnt (b_refcnt (keep (p_pid me) (Some bno) (released bno r (B bno))) - 1)
        (set_block (SleepLock false 0) (keep (p_pid me) (Some bno) (released bno r (B bno))))); [done|].
    unfold released, keep, set_refcnt, set_block. cbn. f_equal. lia.
  - intros b' w Hd. apply Hh. by apply lookup_delete_Some in Hd as [_ ?].
Qed.
End steps.

(** ** log_write *)

Lemma find_logged_spec n blocks bno :
  (n ≤ length blocks)%nat → Forall (λ b, 0 ≤ b < 2147483648) (take n blocks) →
  (bno ∈ take n blocks ∧ (find_logged n blocks bno < n)%nat ∧ blocks !! find_logged n blocks bno = Some bno) ∨
  ((bno ∉ take n blocks) ∧ find_logged n blocks bno = n).
Proof.
  revert blocks. induction n as [|n IH]; intros [|x blocks] Hl Hf; cbn [length] in Hl; try lia.
  - right. split; [|done]. rewrite take_0. set_solver.
  - right. split; [|done]. rewrite take_0. set_solver.
  - cbn [take firstn] in Hf. apply Forall_cons in Hf as [Hx Hf]. cbn [find_logged].
    rewrite u32_small by lia. change (take (S n) (x :: blocks)) with (x :: take n blocks).
    destruct (Z.eqb_spec x bno) as [->|Hne].
    + left. split; [by left|]. split; [lia|done].
    + destruct (IH blocks ltac:(lia) Hf) as [(H1 & H2 & H3)|(H1 & H2)].
      * left. split; [by right|]. split; [lia|done].
      * right. split; [|by rewrite H2]. rewrite elem_of_cons. intros [E|E]; [by destruct Hne|done].
Qed.

Section log_write.
Context {me : proc} {s0 : kstate} {lg : log} {d : list (Z * list Z)} {cs : list buf} {s : kstate}.
Hypothesis A : io_at me s0 lg d cs s.
Context (b : nat) (x : buf).
Hypothesis Hx : cs !! b = Some x.
Hypothesis Hn : lg_n lg < LOGSIZE ∧ lg_n lg < lg_size lg - 1.
Hypothesis Ho : 1 ≤ lg_outstanding lg.

Let i := find_logged (Z.to_nat (lg_n lg)) (lg_block lg) (b_blockno x).
Hypothesis Hi : (i < length (lg_block lg))%nat.
Let lg' := set_lblock (<[i := s32 (b_blockno x)]> (lg_block lg)) lg.

Lemma held_back s' h : k_held s' = ∅ → set_held ∅ (set_held h s') = s'.
Proof. destruct s'. simpl. by intros ->. Qed.

(** Up to the test for absorption. *)
Lemma log_write_prefix :
  ∃ s1, k_held s1 = ∅ ∧ io_at me s0 lg' d cs s1 ∧
  log_write b s =
    (when (Z.of_nat i =? lg_n lg) (bpin b;; upd_log (λ l, set_n (lg_n l + 1) l));; release L_log)
      (set_held {[L_log]} s1).
Proof using A Hx Hn Ho Hi.
  pose proof (rd_held _ _ (ia_ready _ _ _ _ _ _ A)) as Hh.
  destruct (step_log A (set_lblock (<[i := s32 (b_blockno x)]> (lg_block lg)))) as (s1 & E1 & A1).
  exists s1. split; [apply (rd_held _ _ (ia_ready _ _ _ _ _ _ A1))|]. split; [done|].
  assert (Hy : ∃ y, k_bufs s !! b = Some y ∧ b_blockno y = b_blockno x).
  { pose proof Hx as Hc. rewrite <-(ia_cells _ _ _ _ _ _ A) in Hc.
    destruct (cells_lookup_inv _ _ _ Hc) as (_ & y & Hy & ->). by exists y. }
  destruct Hy as (y & Hy & Eb).
  unfold log_write. rewrite (bind_ok _ _ _ _ _ (acquire_run L_log s ltac:(by rewrite Hh))).
  rewrite Hh, (right_id_L ∅ (∪)). set (s2 := set_held {[L_log]} s).
  rewrite (bind_ok get_log _ s2 lg s2) by (unfold get_log, gets; f_equal; apply (ia_log A)).
  rewrite (proj2 (orb_false_iff _ _)) by (split; apply Z.leb_gt; lia).
  rewrite (proj2 (Z.ltb_ge _ _)) by lia.
  rewrite (bind_ok (buf_at b) _ s2 y s2) by (by apply buf_at_run).
  rewrite Eb. fold i. destruct (lookup_is_Some _ _ Hi) as [v Hv].
  unfold set_lh_block, lh_block. rewrite !bind_assoc.
  rewrite (bind_ok get_log _ s2 lg s2) by (unfold get_log, gets; f_equal; apply (ia_log A)).
  cbv beta. rewrite Hv, bind_ret.
  rewrite (bind_ok (upd_log _) _ s2 tt (set_held {[L_log]} s1)); [done|].
  injection E1 as <-. unfold upd_log, upd_io, modify, s2. f_equal.
  pose proof (ia_log A) as El. unfold set_io, set_held. cbn. rewrite El. done.
Qed.

Lemma log_write_absorbs :
  Z.of_nat i < lg_n lg → wp (log_write b) s (λ _ s', io_at me s0 lg' d cs s').
Proof using A Hx Hn Ho Hi.
  intros Hlt. destruct log_write_prefix as (s1 & Hh & A1 & E). unfold wp. rewrite E.
  rewrite (proj2 (Z.eqb_neq _ _)) by lia. unfold when, skip. rewrite bind_ret.
  rewrite release_run by (simpl; set_solver). cbn [k_held set_held].
  rewrite difference_diag_L, held_back by done. done.
Qed.

Lemma log_write_appends :
  Z.of_nat i = lg_n lg → 0 ≤ b_refcnt x < 2147483647 →
  wp (log_write b) s (λ _ s', io_at me s0 (set_n (lg_n lg + 1) lg') d (<[b := set_refcnt (b_refcnt x + 1) x]> cs) s').
Proof using A Hx Hn Ho Hi.
  intros Hlt Hr. destruct log_write_prefix as (s1 & Hh & A1 & E). unfold wp. rewrite E.
  rewrite (proj2 (Z.eqb_eq _ _)) by lia. unfold when.
  destruct (bpin_ok (set_held {[L_log]} s1) b x) as (bufs' & Ep & Rp & Cp).
  { change (cells (k_bufs s1) !! b = Some x). by rewrite (ia_cells _ _ _ _ _ _ A1). }
  { simpl. set_solver. } { lia. } { apply A1. }
  rewrite bind_assoc, (bind_ok _ _ _ _ _ Ep). pose proof (step_bufs A1 bufs' Rp) as A2.
  change (cells (k_bufs (set_held {[L_log]} s1))) with (cells (k_bufs s1)) in Cp.
  rewrite (ia_cells _ _ _ _ _ _ A1) in Cp. rewrite Cp in A2.
  destruct (step_log A2 (λ l, set_n (lg_n l + 1) l)) as (s3 & E3 & A3).
  rewrite (bind_ok (upd_log _) _ _ tt (set_held {[L_log]} s3)).
  - rewrite release_run by (simpl; set_solver). cbn [k_held set_held].
    rewrite difference_diag_L, held_back by apply (rd_held _ _ (ia_ready _ _ _ _ _ _ A3)). exact A3.
  - by injection E3 as <-.
Qed.
End log_write.

(** ** Changing a block *)

Lemma wp_seq_assoc {E St A B} (m : M E St unit) (n : M E St A) (k : A → M E St B) s Q :
  wp ((m;; n) ≫= k) s Q → wp (m;; (n ≫= k)) s Q.
Proof. unfold wp. by rewrite bind_assoc. Qed.

Section put.
Context {N : nat} {W : gset Z} {lg : log} {cs : list buf} {d : list (Z * list Z)}.
Context (b : nat) (bno r r' : Z) (u v : list Z).
Hypothesis C : cache_ok cs d.
Hypothesis T : tx_room N W lg cs.
Hypothesis Hb : cs !! b = Some (released bno r u).
Hypothesis Hr' : 1 ≤ r' < 2147483647.

Lemma put_cache : cache_ok (<[b := released bno r' v]> cs) d.
Proof using C Hb Hr'.
  eapply cache_ok_insert; [done..| | |]; simpl; [|lia|lia].
  intros w [_ E]. simpl in E. subst w. by left.
Qed.

Lemma put_view w : bview (<[b := released bno r' v]> cs) d w = setb (bview cs d) bno v w.
Proof using C Hb Hr'.
  unfold setb. case_decide as E; [subst w|].
  - apply bview_same; [by apply put_cache|]. by apply lookup_lt_Some in Hb.
  - eapply bview_touch; [done| |by apply put_cache|done]. split; [done|by left].
Qed.

Lemma put_pinned w :
  (∃ j q z, cs !! j = Some (released w q z) ∧ 1 ≤ q) ∨ w = bno →
  ∃ j q z, <[b := released bno r' v]> cs !! j = Some (released w q z) ∧ 1 ≤ q.
Proof using C Hb Hr'.
  pose proof (lookup_lt_Some _ _ _ Hb) as Hl.
  assert (Hbno : ∃ j q z, <[b := released bno r' v]> cs !! j = Some (released bno q z) ∧ 1 ≤ q).
  { exists b, r', v. rewrite list_lookup_insert_eq by done. split; [done|]. lia. }
  intros [(j & q & z & Hx & Hq)| ->]; [|done]. destruct (decide (j = b)) as [->|].
  - rewrite Hb in Hx. injection Hx as <- _ _. done.
  - exists j, q, z. by rewrite list_lookup_insert_ne.
Qed.

(** The block was logged already. *)
Lemma put_absorbed : bno ∈ W → r' = r → tx_room N ({[bno]} ∪ W) lg (<[b := released bno r' v]> cs).
Proof using C T Hb Hr'.
  intros Hw Er. assert ({[bno]} ∪ W = W) as -> by set_solver. pose proof (lookup_lt_Some _ _ _ Hb) as Hl.
  destruct T as [T1 T2 T3 T4 T5 T6 T7 T8 T9 T10]. split; try done.
  - intros w Hw'. apply put_pinned. left. by apply T8.
  - intros j x. destruct (decide (j = b)) as [->|]; [|rewrite list_lookup_insert_ne by done; apply T9].
    rewrite list_lookup_insert_eq by done. intros [= <-]. split; [done|]. simpl. rewrite Er. by destruct (T9 _ _ Hb).
  - by rewrite (idle_insert _ _ (released bno r u)).
Qed.

(** The block gets a new slot of the log. *)
Lemma put_appended :
  bno ∉ W → r' = r + 1 → lg_start lg + LOGSIZE ≤ bno < 2147483648 → (size W < N)%nat →
  tx_room N ({[bno]} ∪ W) (set_n (lg_n lg + 1) (set_lblock (<[size W := bno]> (lg_block lg)) lg))
    (<[b := released bno r' v]> cs).
Proof using C T Hb Hr'.
  intros Hw Er Hrg HN. pose proof (lookup_lt_Some _ _ _ Hb) as Hl.
  assert (Es : size ({[bno]} ∪ W) = S (size W)).
  { rewrite size_union by set_solver. by rewrite size_singleton. }
  destruct T as [T1 T2 T3 T4 T5 T6 T7 T8 T9 T10]. split; try done; rewrite ?Es.
  - cbn. by rewrite length_insert.
  - cbn. lia.
  - cbn [lg_block set_n set_lblock].
    rewrite (take_S_r _ _ bno) by (apply list_lookup_insert_eq; change LOGSIZE with 30 in *; lia).
    rewrite list_to_set_app_L, take_insert_ge, T3 by lia. set_solver.
  - intros w [->%elem_of_singleton|Hw']%elem_of_union; [done|by apply T4].
  - lia.
  - intros w [->%elem_of_singleton|Hw']%elem_of_union; apply put_pinned; [by right|left; by apply T8].
  - intros j x. destruct (decide (j = b)) as [->|].
    + rewrite list_lookup_insert_eq by done. intros [= <-]. split; [done|].
      destruct (T9 _ _ Hb) as [_ ?]. simpl in *. lia.
    + rewrite list_lookup_insert_ne by done. intros Hx. destruct (T9 _ _ Hx). split; [done|lia].
  - pose proof (idle_remove cs b _ (released bno r' v) Hb). lia.
Qed.
End put.

Lemma set_lblock_id l : set_lblock (lg_block l) l = l.
Proof. by destruct l. Qed.

Lemma tx_put me N s0 W H B s b bno g :
  tx me N s0 W H B s → H !! b = Some bno → sb_inodestart (io_sb (k_io s0)) ≤ bno < 2147483648 → (size W < N)%nat →
  wp (upd_buf b (λ x, set_data (g (b_data x)) x);; log_write b) s
    (λ _ s', tx me N s0 ({[bno]} ∪ W) H (setb B bno (g (B bno))) s').
Proof.
  intros [lg cs G Lo A C T V Hu Hh] Hb Hrg HN. set (d := io_disk (k_io s0)) in *. destruct (Hh b bno Hb) as [r Hr].
  set (v := g (B bno)). set (pid := p_pid me) in *.
  destruct (step_upd A b (mine pid bno (r + 1) (B bno)) (λ x, set_data (g (b_data x)) x)) as (s1 & E1 & A1).
  { by rewrite hold_lookup, Hr, Hb. } { done. } { done. }
  apply wp_bind. unfold wp at 1. rewrite E1. cbv beta.
  change (set_data _ (mine pid bno (r + 1) (B bno))) with (mine pid bno (r + 1) v) in A1.
  set (cs1 := <[b := mine pid bno (r + 1) v]> (hold pid H cs)) in *.
  pose proof (lookup_lt_Some _ _ _ Hr) as Hl.
  assert (Hc1 : cs1 !! b = Some (mine pid bno (r + 1) v)) by (apply list_lookup_insert_eq; by rewrite length_hold).
  assert (Hheld : ∀ r', ∀ b' w, H !! b' = Some w → ∃ r0,
    <[b := released bno r' v]> cs !! b' = Some (released w r0 (setb B bno v w))).
  { intros r' b' w Hb'. destruct (decide (b' = b)) as [->|].
    - rewrite list_lookup_insert_eq by done. rewrite Hb in Hb'. injection Hb' as <-. exists r'. by rewrite setb_eq.
    - rewrite list_lookup_insert_ne by done. destruct (Hh _ _ Hb') as [r0 Hr0]. exists r0. rewrite Hr0.
      rewrite setb_ne; [done|]. intros ->. by destruct (co_uniq _ _ C b b' _ _ bno Hr Hr0). }
  assert (Hview : ∀ w (F : Z → list Z), (∀ w, F w = setb (bview cs d) bno v w) → F w = setb B bno v w).
  { intros w F ->. unfold setb. by rewrite V. }
  assert (Hst : 0 < lg_start lg ∧ lg_start lg + LOGSIZE ≤ bno).
  { destruct Lo as [? ?]. rewrite G. cbn [lg_start set_n set_lblock]. change LOGSIZE with 30 in *. lia. }
  assert (Hun : ∀ w, w ∉ {[bno]} ∪ W → setb B bno v w = disk_block d w).
  { intros w Hw. rewrite setb_ne by set_solver. apply Hu. set_solver. }
  pose proof (tr_n _ _ _ _ T) as En. pose proof (tr_used _ _ _ _ T). pose proof (tr_cap _ _ _ _ T).
  pose proof (tr_quiet _ _ _ _ T _ _ Hr) as [_ Hq]. pose proof (co_ref _ _ C _ _ Hr) as Hq'. simpl in Hq, Hq'.
  pose proof (tr_len _ _ _ _ T) as El. change LOGSIZE with 30 in *.
  assert (Hmem : bno ∈ W ↔ bno ∈ take (size W) (lg_block lg)).
  { rewrite <-(tr_blocks _ _ _ _ T) at 1. apply elem_of_list_to_set. }
  destruct (find_logged_spec (size W) (lg_block lg) bno) as [(Hin & Hlt & Hlk)|(Hin & Ef)]; [lia| |..].
  { apply Forall_forall. intros w Hw. assert (HwW : w ∈ W).
    { rewrite <-(tr_blocks _ _ _ _ T). by apply elem_of_list_to_set. }
    pose proof (tr_range _ _ _ _ T w HwW). change LOGSIZE with 30 in *. lia. }
  - apply Hmem in Hin. destruct (tr_pinned _ _ _ _ T bno Hin) as (j & q & z & Hx & Hx1).
    assert (j = b) as -> by (by eapply (co_uniq _ _ C)). rewrite Hr in Hx. injection Hx as <- _.
    eapply wp_mono.
    { eapply (log_write_absorbs A1 b _ Hc1); change LOGSIZE with 30; cbn [b_blockno mine]; rewrite ?En, ?Nat2Z.id;
        [lia|apply T|lia|lia]. }
    intros [] s2. cbn [b_blockno mine]. rewrite En, Nat2Z.id, s32_small by lia.
    rewrite list_insert_id, set_lblock_id by done. intros A2.
    exists lg (<[b := released bno r v]> cs); fold d; [done|done|..].
    + rewrite hold_insert, Hb. exact A2.
    + eapply put_cache; [exact C|exact Hr|lia].
    + eapply put_absorbed; [exact C|exact T|exact Hr|lia|done|done].
    + intros w. apply (Hview w (bview _ d)). intros w'. eapply put_view; [exact C|exact Hr|lia].
    + exact Hun.
    + apply Hheld.
  - rewrite <-Hmem in Hin. eapply wp_mono.
    { eapply (log_write_appends A1 b _ Hc1); change LOGSIZE with 30; cbn [b_blockno mine]; rewrite ?En, ?Nat2Z.id, ?Ef;
        [lia|apply T|lia|done|simpl; lia]. }
    intros [] s2 A2. cbn [b_blockno mine] in A2. rewrite En, Nat2Z.id, Ef, s32_small, <-En in A2 by lia.
    exists (set_n (lg_n lg + 1) (set_lblock (<[size W:=bno]> (lg_block lg)) lg)) (<[b := released bno (r + 1) v]> cs); fold d.
    + rewrite G. done.
    + done.
    + rewrite hold_insert, Hb. unfold cs1 in A2. rewrite list_insert_insert_eq in A2.
      exact A2.
    + eapply put_cache; [exact C|exact Hr|lia].
    + eapply put_appended; [exact C|exact T|exact Hr|lia|done|done|change LOGSIZE with 30 in *; lia|done].
    + intros w. apply (Hview w (bview _ d)). intros w'. eapply put_view; [exact C|exact Hr|lia].
    + exact Hun.
    + apply Hheld.
Qed.

(** ** What a transaction leaves alone *)

Lemma tx_sb me N s0 W H B s : tx me N s0 W H B s → io_sb (k_io s) = io_sb (k_io s0).
Proof. intros [lg cs G Lo A C T V Hu Hh]. by destruct (ia_frame _ _ _ _ _ _ A) as (? & ? & ->). Qed.

Lemma tx_itable me N s0 W H B s : tx me N s0 W H B s → k_itable s = k_itable s0.
Proof. intros [lg cs G Lo A C T V Hu Hh]. by destruct (ia_frame _ _ _ _ _ _ A) as (? & ? & ->). Qed.

Lemma tx_set_itable me N s0 W H B s it :
  tx me N s0 W H B s → tx me N (set_itable it s0) W H B (set_itable it s).
Proof.
  intros [lg cs G Lo [R C [H1 H2 H3] (bufs & ps & ->)] C' T V Hu Hh]. exists lg cs; try done.
  split; [done|done|by split|]. by exists bufs, ps.
Qed.

Lemma tx_ready me N s0 W H B s : tx me N s0 W H B s → ready s me.
Proof. intros [lg cs G Lo A C T V Hu Hh]. apply A. Qed.

Lemma wp_run {E St A} (m : M E St A) s a s' (Q : A → St → Prop) : m s = Ok a s' → Q a s' → wp m s Q.
Proof. unfold wp. by intros ->. Qed.

Lemma wp_seq {E St A B} (m : M E St A) (k : A → M E St B) s (P : A → St → Prop) Q :
  wp m s P → (∀ a s', P a s' → wp (k a) s' Q) → wp (m ≫= k) s Q.
Proof. intros H1 H2. apply wp_bind. eapply wp_mono; [exact H1|exact H2]. Qed.

Lemma wp_run_seq {E St A B} (m : M E St A) (k : A → M E St B) s a s' Q :
  m s = Ok a s' → wp (k a) s' Q → wp (m ≫= k) s Q.
Proof. intros H1 H2. apply wp_bind. by eapply wp_run. Qed.

Lemma size_add_le (W : gset Z) b : (size ({[b]} ∪ W) ≤ S (size W))%nat.
Proof.
  rewrite size_union_alt, size_singleton. pose proof (subseteq_size (W ∖ {[b]}) W). specialize (H ltac:(set_solver)). lia.
Qed.

Lemma tx_mm me N s0 W H B s : tx me N s0 W H B s → k_mm s = k_mm s0.
Proof. intros [lg cs G Lo A C T V Hu Hh]. by destruct (ia_frame _ _ _ _ _ _ A) as (? & ? & ->). Qed.
