(* ===== verification/Balloc.v ===== *)
(** balloc() and bfree() of kernel/fs.c: the block allocator over the bitmap on
    the disk. *)

From S2P Require Import Prelude Riscv Kstate Mem Kalloc Vm Sched Bytes Bio BioSpec BioOps Log Fs FsTx.

(** ** Bits of a bitmap block *)

Lemma shiftl_1 n : 0 ≤ n → Z.shiftl 1 n = 2 ^ n.
Proof. intros. rewrite Z.shiftl_mul_pow2 by done. lia. Qed.

Lemma land_pow2 a n : 0 ≤ n → negb (Z.land a (2 ^ n) =? 0) = Z.testbit a n.
Proof.
  intros Hn. destruct (Z.testbit a n) eqn:E.
  - rewrite (proj2 (Z.eqb_neq _ _)); [done|]. intros H. apply (f_equal (λ z, Z.testbit z n)) in H.
    rewrite Z.land_spec, E, Z.pow2_bits_true, Z.bits_0 in H by done. done.
  - rewrite (proj2 (Z.eqb_eq _ _)); [done|]. apply Z.bits_inj'. intros i Hi.
    rewrite Z.land_spec, Z.bits_0. destruct (decide (i = n)) as [->|].
    + by rewrite E.
    + rewrite Z.pow2_bits_false by lia. apply andb_false_r.
Qed.

Lemma bit_get_testbit d bi : bit_get d bi = Z.testbit (bit_byte d bi) (bi mod 8).
Proof.
  unfold bit_get, bit_mask. pose proof (Z.mod_pos_bound bi 8 ltac:(lia)).
  rewrite shiftl_1 by lia. apply land_pow2. lia.
Qed.

Lemma u8_testbit z i : 0 ≤ i < 8 → Z.testbit (u8 z) i = Z.testbit z i.
Proof. intros. unfold u8, wrap. apply Z.mod_pow2_bits_low. lia. Qed.

(** The byte of bit [bj] after the byte of bit [bi] has been replaced. *)
Lemma bit_byte_insert d bi bj v :
  0 ≤ bi → 0 ≤ bj → bi / 8 < Z.of_nat (length d) →
  bit_byte (<[Z.to_nat (bi / 8) := v]> d) bj = if decide (bj / 8 = bi / 8) then v else bit_byte d bj.
Proof.
  intros Hi Hj Hl. unfold bit_byte. rewrite !nth_lookup.
  assert (0 ≤ bi / 8) by dlia. assert (0 ≤ bj / 8) by dlia. case_decide as E.
  - by rewrite E, list_lookup_insert_eq by lia.
  - by rewrite list_lookup_insert_ne by lia.
Qed.

Lemma bit_get_set d bi bj :
  0 ≤ bi → 0 ≤ bj → bi / 8 < Z.of_nat (length d) →
  bit_get (bit_set d bi) bj = bool_decide (bj = bi) || bit_get d bj.
Proof.
  intros Hi Hj Hl. rewrite !bit_get_testbit. unfold bit_set. rewrite bit_byte_insert by done.
  pose proof (Z.mod_pos_bound bi 8 ltac:(lia)). pose proof (Z.mod_pos_bound bj 8 ltac:(lia)).
  case_decide as E.
  - rewrite u8_testbit, Z.lor_spec by lia. unfold bit_mask. rewrite shiftl_1 by lia.
    assert (bit_byte d bi = bit_byte d bj) as -> by (unfold bit_byte; by rewrite E).
    rewrite orb_comm. f_equal. case_bool_decide as D.
    + subst. apply Z.pow2_bits_true. lia.
    + apply Z.pow2_bits_false. dlia.
  - by rewrite bool_decide_eq_false_2 by congruence.
Qed.

Lemma bit_get_clear d bi bj :
  0 ≤ bi → 0 ≤ bj → bi / 8 < Z.of_nat (length d) →
  bit_get (bit_clear d bi) bj = negb (bool_decide (bj = bi)) && bit_get d bj.
Proof.
  intros Hi Hj Hl. rewrite !bit_get_testbit. unfold bit_clear. rewrite bit_byte_insert by done.
  pose proof (Z.mod_pos_bound bi 8 ltac:(lia)). pose proof (Z.mod_pos_bound bj 8 ltac:(lia)).
  case_decide as E.
  - rewrite u8_testbit, Z.land_spec, Z.lnot_spec by lia. unfold bit_mask. rewrite shiftl_1 by lia.
    assert (bit_byte d bi = bit_byte d bj) as -> by (unfold bit_byte; by rewrite E).
    rewrite andb_comm. f_equal. f_equal. case_bool_decide as D.
    + subst. apply Z.pow2_bits_true. lia.
    + apply Z.pow2_bits_false. dlia.
  - by rewrite bool_decide_eq_false_2 by congruence.
Qed.

Lemma length_bit_set d bi : length (bit_set d bi) = length d.
Proof. apply length_insert. Qed.
Lemma length_bit_clear d bi : length (bit_clear d bi) = length d.
Proof. apply length_insert. Qed.

(** The scan of one bitmap block returns the first clear bit. *)
Lemma find_free_spec n d bi :
  match find_free n d bi with
  | Some r => bi ≤ r < bi + Z.of_nat n ∧ bit_get d r = false ∧ ∀ c, bi ≤ c < r → bit_get d c = true
  | None => ∀ c, bi ≤ c < bi + Z.of_nat n → bit_get d c = true
  end.
Proof.
  revert bi. induction n as [|n IH]; intros bi; cbn [find_free]; [lia|].
  destruct (bit_get d bi) eqn:E; cbn [negb].
  - specialize (IH (bi + 1)). destruct (find_free n d (bi + 1)) as [r|].
    + destruct IH as (H1 & H2 & H3). split; [lia|]. split; [done|]. intros c Hc.
      destruct (decide (c = bi)) as [->|]; [done|]. apply H3. lia.
    + intros c Hc. destruct (decide (c = bi)) as [->|]; [done|]. apply IH. lia.
  - split; [lia|]. split; [done|]. lia.
Qed.

(** ** The bitmap *)

(** The first block after the bitmap. *)
Definition datastart (sb : superblock) : Z := sb_bmapstart sb + sb_size sb / 8192 + 1.

(** The areas of the disk are where mkfs puts them: the inodes before the
    bitmap, the bitmap before the data. *)
Record disk_geo (sb : superblock) : Prop := {
  dg_inodes : 0 < sb_inodestart sb ∧ 0 < sb_ninodes sb ∧ sb_inodestart sb + sb_ninodes sb / 16 < sb_bmapstart sb;
  dg_data : datastart sb ≤ sb_size sb;
  dg_size : sb_size sb < 2147483648;
}.

(** Block [b] is marked in use. *)
Definition marked (sb : superblock) (B : Z → list Z) (b : Z) : bool := bit_get (B (BBLOCK b sb)) (b mod BPB).

(** Blocks have the size of a block, and those of the file system itself are
    marked in use. *)
Record disk_ok (sb : superblock) (B : Z → list Z) : Prop := {
  do_geo : disk_geo sb;
  do_len : ∀ w, length (B w) = BNAT;
  do_meta : ∀ w, 0 ≤ w < datastart sb → marked sb B w = true;
}.

Section bitmap.
Context (sb : superblock) (G : disk_geo sb).

Lemma BBLOCK_eq b : 0 ≤ b < sb_size sb → BBLOCK b sb = b / 8192 + sb_bmapstart sb.
Proof using G.
  intros Hb. destruct G as [(? & ? & ?) H2 H3]. unfold datastart in *. unfold BBLOCK.
  change BPB with 8192. rewrite u32_small; [done|]. dlia.
Qed.

Lemma BBLOCK_range b : 0 ≤ b < sb_size sb → sb_bmapstart sb ≤ BBLOCK b sb < datastart sb.
Proof using G. intros Hb. rewrite BBLOCK_eq by done. unfold datastart. dlia. Qed.

Lemma bmapstart_pos : 0 < sb_bmapstart sb.
Proof using G. destruct G as [(? & ? & ?) H2 H3]. dlia. Qed.

Lemma inodes_before_bmap : sb_inodestart sb < sb_bmapstart sb.
Proof using G. destruct G as [(? & ? & ?) H2 H3]. dlia. Qed.

Lemma datastart_pos : 0 < datastart sb.
Proof using G. destruct G as [(? & ? & ?) H2 H3]. unfold datastart in *. dlia. Qed.

Lemma bit_in_block (B : Z → list Z) b : (∀ w, length (B w) = BNAT) → (b mod 8192) / 8 < Z.of_nat (length (B (BBLOCK b sb))).
Proof. intros ->. change (Z.of_nat BNAT) with 1024. dlia. Qed.
End bitmap.

(** The contents after [b] has been marked and zeroed, and after it has been
    unmarked. *)
Definition allocB (sb : superblock) (B : Z → list Z) (b : Z) : Z → list Z :=
  setb (setb B (BBLOCK b sb) (bit_set (B (BBLOCK b sb)) (b mod BPB))) b zero_block.
Definition freeB (sb : superblock) (B : Z → list Z) (b : Z) : Z → list Z :=
  setb B (BBLOCK b sb) (bit_clear (B (BBLOCK b sb)) (b mod BPB)).

Section marks.
Context (sb : superblock) (B : Z → list Z) (D : disk_ok sb B).

Lemma same_bit b c : 0 ≤ b < sb_size sb → 0 ≤ c < sb_size sb → BBLOCK c sb = BBLOCK b sb → c mod 8192 = b mod 8192 → c = b.
Proof using D.
  intros Hb Hc E1 E2. rewrite !(BBLOCK_eq sb (do_geo _ _ D)) in E1 by done. dlia.
Qed.

(** A free block is a data block. *)
Lemma free_is_data b : 0 ≤ b → marked sb B b = false → datastart sb ≤ b.
Proof using D.
  intros Hb Hm. destruct (decide (datastart sb ≤ b)); [done|].
  rewrite (do_meta _ _ D b) in Hm by lia. done.
Qed.

Lemma marked_alloc b c :
  0 ≤ b < sb_size sb → 0 ≤ c < sb_size sb → marked sb B b = false →
  marked sb (allocB sb B b) c = bool_decide (c = b) || marked sb B c.
Proof using D.
  intros Hb Hc Hm. pose proof (free_is_data b ltac:(lia) Hm).
  pose proof (BBLOCK_range sb (do_geo _ _ D) c Hc). unfold marked, allocB.
  rewrite setb_ne by lia. change BPB with 8192. unfold setb. case_decide as E.
  - rewrite bit_get_set; [|dlia|dlia|by apply bit_in_block, D]. rewrite E. f_equal.
    apply bool_decide_ext. split; [by apply same_bit|by intros ->].
  - rewrite bool_decide_eq_false_2 by (intros ->; done). done.
Qed.

Lemma alloc_ok b : 0 ≤ b < sb_size sb → marked sb B b = false → disk_ok sb (allocB sb B b).
Proof using D.
  intros Hb Hm. split; [apply D| |].
  - intros w. unfold allocB, setb. repeat case_decide; [done|rewrite length_bit_set|]; apply D.
  - intros w Hw. rewrite marked_alloc; [|done| |done].
    + rewrite (do_meta _ _ D) by done. apply orb_true_r.
    + pose proof (dg_data _ (do_geo _ _ D)). lia.
Qed.

Lemma marked_free b c :
  0 ≤ b < sb_size sb → 0 ≤ c < sb_size sb →
  marked sb (freeB sb B b) c = negb (bool_decide (c = b)) && marked sb B c.
Proof using D.
  intros Hb Hc. unfold marked, freeB. change BPB with 8192. unfold setb. case_decide as E.
  - rewrite bit_get_clear; [|dlia|dlia|by apply bit_in_block, D]. rewrite E. do 2 f_equal.
    apply bool_decide_ext. split; [by apply same_bit|by intros ->].
  - rewrite bool_decide_eq_false_2 by (intros ->; done). done.
Qed.

Lemma freeB_ok b : datastart sb ≤ b < sb_size sb → disk_ok sb (freeB sb B b).
Proof using D.
  intros Hb. pose proof (datastart_pos sb (do_geo _ _ D)). split; [apply D| |].
  - intros w. unfold freeB, setb. repeat case_decide; [rewrite length_bit_clear|]; apply D.
  - intros w Hw. rewrite marked_free by lia.
    rewrite (do_meta _ _ D), bool_decide_eq_false_2 by lia. done.
Qed.
End marks.

(** ** The operations *)

Section ops.
Context {L : Layout}.
Context {me : proc} {N : nat} {s0 : kstate}.
Implicit Types (W : gset Z) (H : gmap nat Z) (B : Z → list Z).

(** The superblock. *)
Let sb := io_sb (k_io s0).

Lemma wp_get_sb W H B s {A} (k : superblock → K A) Q :
  tx me N s0 W H B s → wp (k sb) s Q → wp (get_sb ≫= k) s Q.
Proof. intros T. unfold sb. rewrite <-(tx_sb _ _ _ _ _ _ _ T). done. Qed.

(** The buffers locked hold data blocks in use. *)
Definition holds_data H B : Prop :=
  ∀ j w, H !! j = Some w → datastart sb ≤ w < sb_size sb ∧ marked sb B w = true.

Lemma not_held H bno : (∀ j w, H !! j = Some w → w ≠ bno) → ∀ j, H !! j ≠ Some bno.
Proof. intros Hh j E. by apply (Hh _ _ E). Qed.

Lemma bzero_ok W H B s b :
  tx me N s0 W H B s → (size H ≤ 1)%nat → (∀ j, H !! j ≠ Some b) → sb_inodestart sb ≤ b < 2147483648 → 0 ≤ b → (size W < N)%nat →
  wp (bzero ROOTDEV b) s (λ _ s', tx me N s0 ({[b]} ∪ W) H (setb B b zero_block) s').
Proof.
  intros T Hs Hn Hb Hb0 HN. unfold bzero. change (u32 ROOTDEV) with ROOTDEV. rewrite u32_small by lia.
  eapply wp_seq; [by eapply tx_bread|]. intros bp s1 [Hbp T1]. apply wp_seq_assoc.
  eapply wp_seq; [eapply (tx_put _ _ _ _ _ _ _ _ _ (λ _, zero_block) T1); [apply lookup_insert_eq|done|done]|].
  intros [] s2 T2. eapply wp_mono; [eapply tx_brelse; [exact T2|apply lookup_insert_eq]|].
  intros [] s3. by rewrite delete_insert_id.
Qed.

(** One bitmap block: bits [b], [b+1], ... of the file system. *)
Lemma in_block b c : b mod 8192 = 0 → b ≤ c < b + 8192 → BBLOCK c sb = BBLOCK b sb ∧ c mod 8192 = c - b.
Proof. intros Hb Hc. unfold BBLOCK. change BPB with 8192. assert (c / 8192 = b / 8192) as -> by dlia. split; [done|dlia]. Qed.

Lemma balloc_loop_ok fuel W H B s b :
  tx me N s0 W H B s → disk_ok sb B → (size H ≤ 1)%nat → holds_data H B → (size W + 2 ≤ N)%nat →
  0 ≤ b → b mod 8192 = 0 → (∀ c, 0 ≤ c < b → c < sb_size sb → marked sb B c = true) →
  (∃ c, 0 ≤ c < sb_size sb ∧ marked sb B c = false) →
  sb_size sb - b ≤ 8192 * Z.of_nat fuel →
  wp (balloc_loop fuel ROOTDEV b (sb_size sb)) s (λ a s',
    0 ≤ a < sb_size sb ∧ marked sb B a = false ∧ (∀ c, 0 ≤ c < a → marked sb B c = true) ∧
    tx me N s0 ({[a]} ∪ ({[BBLOCK a sb]} ∪ W)) H (allocB sb B a) s').
Proof.
  revert s b. induction fuel as [|fuel IH]; intros s b T D Hs Hd HN Hb Hm Hbelow (c & Hc & Hfree) Hfuel;
    (assert (Hbs : b < sb_size sb);
      [destruct (decide (b < sb_size sb)); [done|]; rewrite Hbelow in Hfree by lia; done|]); [lia|].
  cbn [balloc_loop]. rewrite (proj2 (Z.ltb_lt _ _)) by done. cbn [negb].
  eapply wp_get_sb; [exact T|]. pose proof (BBLOCK_range sb (do_geo _ _ D) b ltac:(lia)) as Hbb.
  assert (Hnb : ∀ j, H !! j ≠ Some (BBLOCK b sb)) by (apply not_held; intros j w [? _]%Hd; lia).
  pose proof (dg_data _ (do_geo _ _ D)). pose proof (dg_size _ (do_geo _ _ D)).
  pose proof (bmapstart_pos sb (do_geo _ _ D)). pose proof (inodes_before_bmap sb (do_geo _ _ D)).
  eapply wp_seq; [by eapply tx_bread|]. intros bp s1 [Hbp T1].
  destruct (tx_buf _ _ _ _ _ _ T1 (lookup_insert_eq _ _ _)) as (x & Ex & Hx & _).
  eapply wp_run_seq; [exact Ex|]. cbv beta. rewrite Hx. change BPB with 8192.
  pose proof (find_free_spec (Z.to_nat (Z.min 8192 (sb_size sb - b))) (B (BBLOCK b sb)) 0) as Hf.
  destruct (find_free _ _ _) as [bi|].
  - destruct Hf as (Hbi & Hf1 & Hf2). destruct (in_block b (b + bi) Hm ltac:(lia)) as [Eb Em].
    assert (Em' : (b + bi) mod 8192 = bi) by lia.
    assert (Ha : marked sb B (b + bi) = false) by (unfold marked; change BPB with 8192; by rewrite Eb, Em').
    apply wp_seq_assoc. eapply wp_seq.
    { eapply (tx_put _ _ _ _ _ _ _ _ _ (λ _, bit_set (B (BBLOCK b sb)) bi) T1); [apply lookup_insert_eq|fold sb; lia|lia]. }
    intros [] s2 T2. eapply wp_seq; [eapply tx_brelse; [exact T2|apply lookup_insert_eq]|].
    intros [] s3. rewrite delete_insert_id by done. intros T3.
    pose proof (size_add_le W (BBLOCK b sb)). pose proof (free_is_data sb B D (b + bi) ltac:(lia) Ha).
    eapply wp_seq; [eapply (bzero_ok _ _ _ _ (b + bi)); [exact T3|done| |lia|lia|lia]|].
    { apply not_held. intros j w [_ Hw]%Hd ->. congruence. }
    intros [] s4 T4. apply wp_ret. split; [lia|]. split; [done|]. split.
    + intros c' Hc'. destruct (decide (c' < b)); [apply Hbelow; lia|].
      destruct (in_block b c' Hm ltac:(lia)) as [E1 E2]. unfold marked. change BPB with 8192. rewrite E1, E2.
      apply Hf2. lia.
    + unfold allocB. change BPB with 8192. by rewrite Eb, Em'.
  - eapply wp_seq; [eapply tx_brelse; [exact T1|apply lookup_insert_eq]|].
    intros [] s2. rewrite delete_insert_id by done. intros T2.
    apply IH; try done; [lia|dlia| |eauto|lia].
    intros c' Hc' Hc''. destruct (decide (c' < b)); [apply Hbelow; lia|].
    destruct (in_block b c' Hm ltac:(lia)) as [E1 E2]. unfold marked. change BPB with 8192. rewrite E1, E2.
    apply Hf. lia.
Qed.

(** balloc() takes the first block marked free, marks it and zeroes it. *)
Lemma balloc_ok W H B s :
  tx me N s0 W H B s → disk_ok sb B → (size H ≤ 1)%nat → holds_data H B → (size W + 2 ≤ N)%nat →
  (∃ c, 0 ≤ c < sb_size sb ∧ marked sb B c = false) →
  wp (balloc ROOTDEV) s (λ a s',
    0 ≤ a < sb_size sb ∧ marked sb B a = false ∧ (∀ c, 0 ≤ c < a → marked sb B c = true) ∧
    tx me N s0 ({[a]} ∪ ({[BBLOCK a sb]} ∪ W)) H (allocB sb B a) s').
Proof.
  intros T D Hs Hd HN Hfree. unfold balloc. eapply wp_get_sb; [exact T|].
  apply balloc_loop_ok; try done; [lia|].
  change BPB with 8192. destruct Hfree as (c & Hc & _). dlia.
Qed.

(** bfree() unmarks a block in use. *)
Lemma bfree_ok W H B s b :
  tx me N s0 W H B s → disk_ok sb B → (size H ≤ 1)%nat → holds_data H B → (size W < N)%nat →
  0 ≤ b < sb_size sb → marked sb B b = true →
  wp (bfree ROOTDEV b) s (λ _ s', tx me N s0 ({[BBLOCK b sb]} ∪ W) H (freeB sb B b) s').
Proof.
  intros T D Hs Hd HN Hb Hm. unfold bfree. eapply wp_get_sb; [exact T|]. change (u32 ROOTDEV) with ROOTDEV.
  pose proof (BBLOCK_range sb (do_geo _ _ D) b ltac:(lia)) as Hbb.
  assert (Hnb : ∀ j, H !! j ≠ Some (BBLOCK b sb)) by (apply not_held; intros j w [? _]%Hd; lia).
  pose proof (dg_data _ (do_geo _ _ D)). pose proof (dg_size _ (do_geo _ _ D)).
  pose proof (bmapstart_pos sb (do_geo _ _ D)). pose proof (inodes_before_bmap sb (do_geo _ _ D)).
  eapply wp_seq; [by eapply tx_bread|]. intros bp s1 [Hbp T1].
  destruct (tx_buf _ _ _ _ _ _ T1 (lookup_insert_eq _ _ _)) as (x & Ex & Hx & _).
  eapply wp_run_seq; [exact Ex|]. cbv beta zeta. rewrite Hx. unfold marked in Hm. rewrite Hm. cbn [negb].
  apply wp_seq_assoc. eapply wp_seq.
  { eapply (tx_put _ _ _ _ _ _ _ _ _ (λ _, bit_clear (B (BBLOCK b sb)) (b mod BPB)) T1); [apply lookup_insert_eq|fold sb; lia|lia]. }
  intros [] s2 T2. eapply wp_mono; [eapply tx_brelse; [exact T2|apply lookup_insert_eq]|].
  intros [] s3. by rewrite delete_insert_id.
Qed.
End ops.
