(* ===== verification/Bmap.v ===== *)
(** The blocks of a file: bmap() of kernel/fs.c, with direct and indirect
    blocks, allocating the blocks that are missing.

    A file has 268 block slots (12 direct, 256 in the indirect block), and slot
    268 is the indirect block itself.  [content] is the file as a sequence of
    bytes; allocating a zeroed block does not change it. *)

From S2P Require Import Prelude Riscv Kstate Mem Kalloc Vm Sched Bytes Bio BioSpec BioOps Log Fs FsTx Balloc.

Lemma bmap_before_data sb B : disk_ok sb B → sb_bmapstart sb < datastart sb.
Proof.
  intros D. pose proof (dg_data _ (do_geo _ _ D)) as H. pose proof (bmapstart_pos sb (do_geo _ _ D)). unfold datastart in *.
  dlia.
Qed.

Lemma inodes_before_data sb B : disk_ok sb B → sb_inodestart sb < datastart sb.
Proof. intros D. pose proof (inodes_before_bmap sb (do_geo _ _ D)). pose proof (bmap_before_data sb B D). lia. Qed.

(** ** Slots and contents *)

Definition fslot (B : Z → list Z) (addrs : list Z) (i : Z) : Z :=
  if i <? 12 then nth (Z.to_nat i) addrs 0
  else
    let ia := nth 12 addrs 0 in
    if i =? 268 then ia
    else if ia =? 0 then 0 else get32 (B ia) (Z.to_nat (4 * (i - 12))).

(** Byte [p] of a file; a block that is not there reads as zeros. *)
Definition content (B : Z → list Z) (addrs : list Z) (p : Z) : Z :=
  let a := fslot B addrs (p / 1024) in
  if a =? 0 then 0 else B a !!! Z.to_nat (p mod 1024).

(** The blocks of a file are data blocks, marked in use, and different. *)
Record file_ok (sb : superblock) (B : Z → list Z) (addrs : list Z) : Prop := {
  fk_len : length addrs = 13%nat;
  fk_data : ∀ i, 0 ≤ i ≤ 268 → fslot B addrs i ≠ 0 →
    datastart sb ≤ fslot B addrs i < sb_size sb ∧ marked sb B (fslot B addrs i) = true;
  fk_inj : ∀ i j, 0 ≤ i ≤ 268 → 0 ≤ j ≤ 268 → fslot B addrs i ≠ 0 → fslot B addrs i = fslot B addrs j → i = j;
}.

(** A block that belongs to another file. *)
Definition alien (sb : superblock) (B : Z → list Z) (addrs : list Z) (w : Z) : Prop :=
  datastart sb ≤ w < sb_size sb ∧ marked sb B w = true ∧ ∀ i, 0 ≤ i ≤ 268 → fslot B addrs i ≠ w.

(** From [B], [addrs] to [B'], [addrs']: the disk and the file stay well
    formed, the file keeps the blocks it has, other files keep theirs, and
    below the bitmap only block [ib] may change. *)
Record evolves (sb : superblock) (ib : Z) (B : Z → list Z) (addrs : list Z) (B' : Z → list Z) (addrs' : list Z)
    : Prop := {
  ev_disk : disk_ok sb B';
  ev_file : file_ok sb B' addrs';
  ev_alien : ∀ w, alien sb B addrs w → alien sb B' addrs' w ∧ B' w = B w;
  ev_low : ∀ w, w < sb_bmapstart sb → w ≠ ib → B' w = B w;
  ev_slot : ∀ i, 0 ≤ i ≤ 268 → fslot B addrs i ≠ 0 → fslot B' addrs' i = fslot B addrs i;
}.

Lemma evolves_refl sb ib B addrs : disk_ok sb B → file_ok sb B addrs → evolves sb ib B addrs B addrs.
Proof. by split. Qed.

Lemma evolves_trans sb ib B1 a1 B2 a2 B3 a3 :
  evolves sb ib B1 a1 B2 a2 → evolves sb ib B2 a2 B3 a3 → evolves sb ib B1 a1 B3 a3.
Proof.
  intros [D1 F1 A1 L1 S1] [D2 F2 A2 L2 S2]. split; [done|done| | |].
  - intros w [Hw Ew]%A1. destruct (A2 w Hw). split; [done|congruence].
  - intros w Hw Hn. rewrite L2, L1; done.
  - intros i Hi Hn. rewrite S2, S1; try done. by rewrite S1.
Qed.

(** ** Free blocks *)

(** At least [n] blocks are free. *)
Definition spare (sb : superblock) (B : Z → list Z) (n : nat) : Prop :=
  ∃ X : gset Z, (n ≤ size X)%nat ∧ ∀ c, c ∈ X → 0 ≤ c < sb_size sb ∧ marked sb B c = false.

Lemma spare_le sb B n m : spare sb B n → (m ≤ n)%nat → spare sb B m.
Proof. intros (X & Hs & HX) ?. exists X. split; [lia|done]. Qed.

Lemma spare_free sb B n : spare sb B (S n) → ∃ c, 0 ≤ c < sb_size sb ∧ marked sb B c = false.
Proof.
  intros (X & Hs & HX). destruct (set_choose_L X) as [c Hc]; [|eauto].
  intros ->. rewrite size_empty in Hs. lia.
Qed.

Lemma spare_marks sb B B' a n :
  (∀ c, 0 ≤ c < sb_size sb → marked sb B' c = bool_decide (c = a) || marked sb B c) →
  spare sb B (S n) → spare sb B' n.
Proof.
  intros Hm (X & Hs & HX). exists (X ∖ {[a]}). split.
  - pose proof (size_add_le (X ∖ {[a]}) a) as H1. pose proof (subseteq_size X ({[a]} ∪ (X ∖ {[a]}))) as H2.
    assert (X ⊆ {[a]} ∪ (X ∖ {[a]})).
    { intros c Hc. destruct (decide (c = a)); set_solver. }
    specialize (H2 H). lia.
  - intros c [Hc Hn]%elem_of_difference. destruct (HX c Hc) as [Hr Hf]. split; [done|].
    rewrite Hm, Hf, bool_decide_eq_false_2 by set_solver. done.
Qed.

(** ** One more block *)

(** [B'], [addrs'] is the file with the fresh block [a] in slot [k]. *)
Record grows (sb : superblock) (B : Z → list Z) (addrs : list Z) (k a : Z) (B' : Z → list Z) (addrs' : list Z)
    : Prop := {
  gr_len : length addrs' = 13%nat;
  gr_slot : ∀ i, 0 ≤ i ≤ 268 → fslot B' addrs' i = if decide (i = k) then a else fslot B addrs i;
  gr_marks : ∀ w, 0 ≤ w < sb_size sb → marked sb B' w = bool_decide (w = a) || marked sb B w;
  gr_zero : B' a = zero_block;
  gr_same : ∀ w, datastart sb ≤ w < sb_size sb → w ≠ a → w ≠ fslot B addrs 268 → B' w = B w;
  gr_low : ∀ w, w < sb_bmapstart sb → B' w = B w;
  gr_disk : disk_ok sb B';
}.

Section grow.
Context (sb : superblock) (B B' : Z → list Z) (addrs addrs' : list Z) (k a : Z).
Hypothesis D : disk_ok sb B.
Hypothesis F : file_ok sb B addrs.
Hypothesis Ha : 0 ≤ a < sb_size sb.
Hypothesis Hfree : marked sb B a = false.
Hypothesis Hk : 0 ≤ k ≤ 268.
Hypothesis Hk0 : fslot B addrs k = 0.
Hypothesis G : grows sb B addrs k a B' addrs'.

Lemma grow_fresh i : 0 ≤ i ≤ 268 → fslot B addrs i ≠ a.
Proof using D F Ha Hfree.
  intros Hi E. destruct (decide (a = 0)) as [E0|Hn].
  - pose proof (free_is_data sb B D a ltac:(lia) Hfree). pose proof (datastart_pos sb (do_geo _ _ D)). lia.
  - destruct (fk_data _ _ _ F i Hi) as [_ Hm]; [congruence|]. congruence.
Qed.

Lemma grow_evolves ib : evolves sb ib B addrs B' addrs'.
Proof using D F Ha Hfree Hk Hk0 G.
  pose proof (free_is_data sb B D a ltac:(lia) Hfree) as Hda. pose proof (datastart_pos sb (do_geo _ _ D)) as Hdp.
  split; [apply G| | |intros w Hw _; by apply (gr_low _ _ _ _ _ _ _ G)|].
  - split; [apply G| |].
    + intros i Hi. rewrite (gr_slot _ _ _ _ _ _ _ G) by done. case_decide.
      * intros _. split; [lia|]. rewrite (gr_marks _ _ _ _ _ _ _ G) by lia. by rewrite bool_decide_eq_true_2.
      * intros Hne. destruct (fk_data _ _ _ F i Hi Hne) as [Hr Hm]. split; [done|].
        rewrite (gr_marks _ _ _ _ _ _ _ G), Hm by lia. apply orb_true_r.
    + intros i j Hi Hj. rewrite !(gr_slot _ _ _ _ _ _ _ G) by done. repeat case_decide; subst; try done.
      * intros _ E. by destruct (grow_fresh j Hj).
      * intros _ E. by destruct (grow_fresh i Hi).
      * by apply (fk_inj _ _ _ F).
  - intros w (Hw & Hm & Hs). assert (Hwa : w ≠ a) by (intros ->; congruence).
    split; [split; [done|split]|].
    + rewrite (gr_marks _ _ _ _ _ _ _ G), Hm by lia. apply orb_true_r.
    + intros i Hi. rewrite (gr_slot _ _ _ _ _ _ _ G) by done. case_decide; [by apply not_eq_sym|by apply Hs].
    + apply (gr_same _ _ _ _ _ _ _ G); [done|done|]. apply not_eq_sym, Hs. lia.
  - intros i Hi Hn. rewrite (gr_slot _ _ _ _ _ _ _ G) by done. case_decide; [by subst|done].
Qed.

Lemma zero_at i : (i < BNAT)%nat → zero_block !!! i = 0.
Proof. apply lookup_total_replicate_2. Qed.

Lemma grow_content p : 0 ≤ p < 268 * 1024 → content B' addrs' p = content B addrs p.
Proof using D F Ha Hfree Hk Hk0 G.
  intros Hp. assert (Hi : 0 ≤ p / 1024 < 268) by dlia. unfold content.
  pose proof (free_is_data sb B D a ltac:(lia) Hfree) as Hda. pose proof (datastart_pos sb (do_geo _ _ D)) as Hdp.
  rewrite (gr_slot _ _ _ _ _ _ _ G) by lia. case_decide as E.
  - rewrite E, Hk0. cbn [Z.eqb]. rewrite (proj2 (Z.eqb_neq _ _)) by lia. rewrite (gr_zero _ _ _ _ _ _ _ G).
    apply zero_at. change BNAT with (Z.to_nat 1024). dlia.
  - destruct (Z.eqb_spec (fslot B addrs (p / 1024)) 0) as [|Hne]; [done|].
    destruct (fk_data _ _ _ F (p / 1024) ltac:(lia) Hne) as [Hr Hm].
    rewrite (gr_same _ _ _ _ _ _ _ G); [done|done| |].
    + apply grow_fresh. lia.
    + intros E'. apply (fk_inj _ _ _ F) in E'; lia.
Qed.
End grow.

(** ** The three places an address can be stored *)

Lemma nth_insert (l : list Z) i j v :
  (i < length l)%nat → nth j (<[i := v]> l) 0 = if decide (j = i) then v else nth j l 0.
Proof.
  intros Hi. rewrite !nth_lookup. case_decide as E; [subst|].
  - by rewrite list_lookup_insert_eq.
  - by rewrite list_lookup_insert_ne.
Qed.

Lemma get32_zero off : get32 zero_block off = 0.
Proof.
  unfold get32, get_le, slice, zero_block. rewrite drop_replicate, take_replicate.
  set (n := Nat.min _ _). clearbody n. induction n; [done|]. cbn [replicate le_val]. lia.
Qed.

Section places.
Context (sb : superblock) (B : Z → list Z) (addrs : list Z) (a : Z).
Hypothesis D : disk_ok sb B.
Hypothesis F : file_ok sb B addrs.
Hypothesis Ha : 0 ≤ a < sb_size sb.
Hypothesis Hfree : marked sb B a = false.
Local Abbreviation ia := (nth 12 addrs 0).

(** Allocation touches the block and its bitmap block only. *)
Lemma alloc_same w : datastart sb ≤ w → w ≠ a → allocB sb B a w = B w.
Proof using D Ha.
  intros Hw Hn. pose proof (BBLOCK_range sb (do_geo _ _ D) a Ha). unfold allocB. rewrite !setb_ne; [done|lia|done].
Qed.

Lemma alloc_low w : w < sb_bmapstart sb → allocB sb B a w = B w.
Proof using D Ha Hfree.
  intros Hw. pose proof (BBLOCK_range sb (do_geo _ _ D) a Ha). pose proof (free_is_data sb B D a ltac:(lia) Hfree).
  unfold allocB. rewrite !setb_ne; [done|lia|lia].
Qed.

Lemma alloc_zero : allocB sb B a a = zero_block.
Proof. unfold allocB. apply setb_eq. Qed.

(** The indirect block survives. *)
Lemma alloc_indirect : ia ≠ 0 → allocB sb B a ia = B ia.
Proof using D F Ha Hfree.
  intros Hi. assert (E : fslot B addrs 268 = ia) by done. destruct (fk_data _ _ _ F 268 ltac:(lia)) as [Hr Hm]; [by rewrite E|].
  rewrite E in *. apply alloc_same; [lia|]. intros E'. rewrite E' in Hm. congruence.
Qed.

(** Slot [k < 12]; also the indirect block, [k = 12], when there is none. *)
Lemma grows_direct k :
  0 ≤ k < 12 → grows sb B addrs k a (allocB sb B a) (<[Z.to_nat k := a]> addrs).
Proof using D F Ha Hfree.
  intros Hk. pose proof (fk_len _ _ _ F) as Hl. split.
  - by rewrite length_insert.
  - intros i Hi. unfold fslot. rewrite !nth_insert by lia. rewrite (decide_False (P := (12 = Z.to_nat k)%nat)) by lia.
    fold ia. destruct (Z.ltb_spec i 12).
    + repeat case_decide; try done; lia.
    + rewrite (decide_False (P := i = k)) by lia. destruct (i =? 268); [done|].
      destruct (Z.eqb_spec ia 0); [done|]. by rewrite alloc_indirect.
  - intros w Hw. by apply marked_alloc.
  - apply alloc_zero.
  - intros w Hw Hn _. apply alloc_same; [lia|done].
  - apply alloc_low.
  - by apply alloc_ok.
Qed.

Lemma grows_indirect :
  ia = 0 → grows sb B addrs 268 a (allocB sb B a) (<[12%nat := a]> addrs).
Proof using D F Ha Hfree.
  intros H0. pose proof (fk_len _ _ _ F) as Hl. split.
  - by rewrite length_insert.
  - intros i Hi. unfold fslot. rewrite !nth_insert by lia. rewrite (decide_True (P := (12 = 12)%nat)) by done.
    fold ia. rewrite H0. destruct (Z.ltb_spec i 12).
    + rewrite !decide_False by lia. done.
    + destruct (Z.eqb_spec i 268); [by rewrite decide_True|]. rewrite decide_False by done.
      cbn [Z.eqb]. case_match; [done|]. rewrite alloc_zero. apply get32_zero.
  - intros w Hw. by apply marked_alloc.
  - apply alloc_zero.
  - intros w Hw Hn _. apply alloc_same; [lia|done].
  - apply alloc_low.
  - by apply alloc_ok.
Qed.

(** An entry of the indirect block. *)
Lemma grows_entry k :
  12 ≤ k < 268 → ia ≠ 0 → let B1 := allocB sb B a in
  grows sb B addrs k a (setb B1 ia (put32 (B1 ia) (Z.to_nat (4 * (k - 12))) a)) addrs.
Proof using D F Ha Hfree.
  intros Hk Hi B1. pose proof (fk_len _ _ _ F) as Hl. assert (Ei : fslot B addrs 268 = ia) by done.
  destruct (fk_data _ _ _ F 268 ltac:(lia)) as [Hr Hm]; [by rewrite Ei|]. rewrite Ei in *.
  assert (Hia : ia ≠ a) by (intros E; rewrite E in Hm; congruence).
  pose proof (alloc_indirect Hi) as E1. fold B1 in E1.
  pose proof (alloc_ok sb B D a Ha Hfree) as D1. fold B1 in D1.
  assert (Hlen : (Z.to_nat (4 * (k - 12)) + 4 ≤ length (B ia))%nat).
  { rewrite (do_len _ _ D). change BNAT with 1024%nat. lia. }
  pose proof (dg_size _ (do_geo _ _ D)).
  assert (Hmk : ∀ w, 0 ≤ w < sb_size sb →
    marked sb (setb B1 ia (put32 (B1 ia) (Z.to_nat (4 * (k - 12))) a)) w = bool_decide (w = a) || marked sb B w).
  { intros w Hw. rewrite <-marked_alloc by done. fold B1. unfold marked.
    pose proof (BBLOCK_range sb (do_geo _ _ D) w Hw). by rewrite setb_ne by lia. }
  split; [done| |exact Hmk|..].
  - intros i Hi'. unfold fslot. fold ia. destruct (Z.ltb_spec i 12); [by rewrite decide_False by lia|].
    destruct (Z.eqb_spec i 268); [by rewrite decide_False by lia|].
    rewrite (proj2 (Z.eqb_neq ia 0)) by done. rewrite setb_eq, E1. unfold get32, put32. case_decide as E.
    + subst i. rewrite get_put_same by done. apply Z.mod_small. change (256 ^ Z.of_nat 4) with 4294967296. lia.
    + apply get_put_ne; [done|]. lia.
  - rewrite setb_ne by done. apply alloc_zero.
  - intros w Hw Hn Hn'. rewrite setb_ne by done. apply alloc_same; [lia|done].
  - intros w Hw. rewrite setb_ne. by apply alloc_low.
    pose proof (BBLOCK_range sb (do_geo _ _ D) a Ha). lia.
  - split; [apply D| |].
    + intros w. unfold setb. case_decide; [|apply D1]. rewrite E1. unfold put32. rewrite length_put by done. apply D.
    + intros w Hw. rewrite Hmk; [rewrite (do_meta _ _ D) by done; apply orb_true_r|].
      pose proof (dg_data _ (do_geo _ _ D)). lia.
Qed.
End places.

(** ** bmap *)

(** [s] with inode [x] in entry [ip] of the inode table. *)
Definition with_inode (ip : nat) (x : inode) (s : kstate) : kstate := set_itable (<[ip := x]> (k_itable s)) s.

Lemma with_inode_id ip x s : k_itable s !! ip = Some x → with_inode ip x s = s.
Proof. intros H. unfold with_inode. rewrite list_insert_id by done. by destruct s. Qed.

Lemma with_inode_twice ip x y s : with_inode ip x (with_inode ip y s) = with_inode ip x s.
Proof. unfold with_inode. cbn. by rewrite list_insert_insert_eq. Qed.

Lemma with_inode_at ip x y s : k_itable s !! ip = Some y → k_itable (with_inode ip x s) !! ip = Some x.
Proof. intros H. cbn. apply list_lookup_insert_eq. by apply lookup_lt_Some in H. Qed.

Lemma set_addrs_id x : set_addrs (i_addrs x) x = x.
Proof. by destruct x. Qed.

Lemma tx_with_inode me N s0 W H B s ip x :
  tx me N s0 W H B s → tx me N (with_inode ip x s0) W H B (with_inode ip x s).
Proof.
  intros T. unfold with_inode. rewrite (tx_itable _ _ _ _ _ _ _ T). by apply tx_set_itable.
Qed.

Lemma upd_inode_with ip x f s :
  k_itable s !! ip = Some x → upd_inode (Some ip) f s = Ok tt (with_inode ip (f x) s).
Proof. intros H. unfold upd_inode. by rewrite (assign_run _ _ ip f s x H). Qed.

(** Blocks the log may still need for the indirect block, and blocks the disk
    may still need for it. *)
Definition ipot (W : gset Z) (addrs : list Z) : nat :=
  if nth 12 addrs 0 =? 0 then 2 else if decide (nth 12 addrs 0 ∈ W) then 0 else 1.
Definition jpot (addrs : list Z) : nat := if nth 12 addrs 0 =? 0 then 1 else 0.

Lemma ipot_mono W W' addrs : W ⊆ W' → (ipot W' addrs ≤ ipot W addrs)%nat.
Proof. intros Hs. unfold ipot. destruct (_ =? 0); [lia|]. repeat case_decide; try lia. set_solver. Qed.

Section bmap.
Context {L : Layout}.
Context {me : proc} {N : nat} {s0 : kstate} {ip : nat} {ino : inode} (ib : Z).
Implicit Types (W : gset Z) (H : gmap nat Z) (B : Z → list Z) (addrs : list Z).
Local Abbreviation sb := (io_sb (k_io s0)).
Local Abbreviation at_addrs a := (with_inode ip (set_addrs a ino) s0).
Hypothesis Hip : k_itable s0 !! ip = Some ino.
Hypothesis Hdev : i_dev ino = ROOTDEV.

(** Transaction states of this file: its addresses are [addrs]. *)
Record fstate W H B addrs (s : kstate) : Prop := {
  fs_tx : tx me N (at_addrs addrs) W H B s;
  fs_disk : disk_ok sb B;
  fs_file : file_ok sb B addrs;
}.

Lemma fs_inode W H B addrs s : fstate W H B addrs s → k_itable s !! ip = Some (set_addrs addrs ino).
Proof using Hip.
  intros [T _ _]. rewrite (tx_itable _ _ _ _ _ _ _ T). by eapply with_inode_at.
Qed.

Lemma fs_inode_run {A} (k : inode → K A) W H B addrs s Q :
  fstate W H B addrs s → wp (k (set_addrs addrs ino)) s Q → wp (inode_at (Some ip) ≫= k) s Q.
Proof using Hip. intros S. eapply wp_run_seq. apply inode_at_run. by eapply fs_inode. Qed.

Lemma fs_addr_at {A} (k : Z → K A) W H B addrs s i Q :
  fstate W H B addrs s → wp (k (nth (Z.to_nat i) addrs 0)) s Q → wp (addr_at ip i ≫= k) s Q.
Proof using Hip.
  intros S Hk. apply wp_bind. unfold addr_at. eapply fs_inode_run; [exact S|]. by apply wp_ret.
Qed.

Lemma fs_set_addr W H B addrs s i v :
  tx me N (at_addrs addrs) W H B s →
  wp (set_addr ip i v) s (λ _ s', tx me N (at_addrs (<[Z.to_nat i := v]> addrs)) W H B s').
Proof using Hip.
  intros T. eapply wp_run.
  - unfold set_addr. apply upd_inode_with. rewrite (tx_itable _ _ _ _ _ _ _ T). by eapply with_inode_at.
  - cbv beta. apply (tx_with_inode _ _ _ _ _ _ _ ip (set_addrs (<[Z.to_nat i := v]> addrs) ino)) in T.
    by rewrite with_inode_twice in T.
Qed.

(** balloc() for the file: a fresh block. *)
Lemma fs_balloc W H B addrs s :
  fstate W H B addrs s → (size H ≤ 1)%nat → (∀ j w, H !! j = Some w → ∃ i, 0 ≤ i ≤ 268 ∧ w ≠ 0 ∧ w = fslot B addrs i) →
  (size W + 2 ≤ N)%nat → spare sb B 1 →
  wp (balloc ROOTDEV) s (λ a s', 0 ≤ a < sb_size sb ∧ marked sb B a = false ∧
    tx me N (at_addrs addrs) ({[a]} ∪ ({[BBLOCK a sb]} ∪ W)) H (allocB sb B a) s').
Proof.
  intros [T D F] Hs HH HN Hsp. eapply wp_mono; [eapply balloc_ok|].
  - exact T.
  - exact D.
  - done.
  - intros j w (i & Hi & Hn & ->)%HH. by apply (fk_data _ _ _ F).
  - done.
  - by eapply spare_free.
  - intros a s' (H1 & H2 & _ & H4). done.
Qed.

(** What bmap() does, and what its first half does for the indirect block. *)
Record mapped (c : nat) W B addrs W' B' addrs' : Prop := {
  mp_evolves : evolves sb ib B addrs B' addrs';
  mp_content : ∀ p, 0 ≤ p < 268 * 1024 → content B' addrs' p = content B addrs p;
  mp_logged : W ⊆ W';
  mp_cost : (size W' + ipot W' addrs' ≤ size W + ipot W addrs + 2 * c)%nat;
  mp_spare : ∀ n, spare sb B (n + jpot addrs + c) → spare sb B' (n + jpot addrs');
}.

Lemma mapped_refl W B addrs : disk_ok sb B → file_ok sb B addrs → mapped 0 W B addrs W B addrs.
Proof.
  intros D F. split; [by apply evolves_refl|done|done|lia|]. intros n. by rewrite Nat.add_0_r.
Qed.

Lemma mapped_trans c c' W1 B1 a1 W2 B2 a2 W3 B3 a3 :
  mapped c W1 B1 a1 W2 B2 a2 → mapped c' W2 B2 a2 W3 B3 a3 → mapped (c + c') W1 B1 a1 W3 B3 a3.
Proof.
  intros [H1 H2 H3 H4 H5] [H1' H2' H3' H4' H5']. split.
  - by eapply evolves_trans.
  - intros p Hp. by rewrite H2', H2.
  - set_solver.
  - lia.
  - intros n Hn. apply H5'. specialize (H5 (n + c')%nat).
    replace (n + jpot a2 + c')%nat with (n + c' + jpot a2)%nat by lia. apply H5.
    by replace (n + c' + jpot a1 + c)%nat with (n + jpot a1 + (c + c'))%nat by lia.
Qed.

Section grown.
Context (W : gset Z) (B B' : Z → list Z) (addrs addrs' : list Z) (k a : Z).
Hypothesis D : disk_ok sb B.
Hypothesis F : file_ok sb B addrs.
Hypothesis Ha : 0 ≤ a < sb_size sb.
Hypothesis Hfree : marked sb B a = false.
Hypothesis Hk : 0 ≤ k ≤ 268.
Hypothesis Hk0 : fslot B addrs k = 0.
Hypothesis G : grows sb B addrs k a B' addrs'.

(** Counting: [W'] are the blocks logged afterwards, [c] the price. *)
Lemma mapped_grows c W' :
  W ⊆ W' → (size W' + ipot W' addrs' ≤ size W + ipot W addrs + 2 * c)%nat →
  (jpot addrs' + 1 = jpot addrs + c)%nat → mapped c W B addrs W' B' addrs'.
Proof using D F Ha Hfree Hk Hk0 G.
  intros Hw Hc Hj. split; [by eapply grow_evolves|by eapply grow_content|done|done|].
  intros n Hn. eapply spare_marks; [apply G|]. eapply spare_le; [exact Hn|]. lia.
Qed.

Lemma alloc_size : (size ({[a]} ∪ ({[BBLOCK a sb]} ∪ W)) ≤ size W + 2)%nat.
Proof.
  pose proof (size_add_le ({[BBLOCK a sb]} ∪ W) a). pose proof (size_add_le W (BBLOCK a sb)). lia.
Qed.
End grown.

Lemma mapped_direct W B addrs k a :
  disk_ok sb B → file_ok sb B addrs → 0 ≤ a < sb_size sb → marked sb B a = false →
  0 ≤ k < 12 → fslot B addrs k = 0 →
  mapped 1 W B addrs ({[a]} ∪ ({[BBLOCK a sb]} ∪ W)) (allocB sb B a) (<[Z.to_nat k := a]> addrs).
Proof.
  intros D F Ha Hf Hk H0. pose proof (fk_len _ _ _ F) as Hl.
  assert (E12 : nth 12 (<[Z.to_nat k := a]> addrs) 0 = nth 12 addrs 0) by (rewrite nth_insert by lia; by rewrite decide_False by lia).
  eapply (mapped_grows _ _ _ _ _ k a); try done; [lia|by apply grows_direct|set_solver| |].
  - pose proof (alloc_size W a). pose proof (ipot_mono W ({[a]} ∪ ({[BBLOCK a sb]} ∪ W)) addrs ltac:(set_solver)).
    unfold ipot in *. rewrite E12. lia.
  - unfold jpot. rewrite E12. lia.
Qed.

Lemma mapped_indirect W B addrs a :
  disk_ok sb B → file_ok sb B addrs → 0 ≤ a < sb_size sb → marked sb B a = false → nth 12 addrs 0 = 0 →
  mapped 0 W B addrs ({[a]} ∪ ({[BBLOCK a sb]} ∪ W)) (allocB sb B a) (<[12%nat := a]> addrs).
Proof.
  intros D F Ha Hf H0. pose proof (fk_len _ _ _ F) as Hl.
  pose proof (free_is_data sb B D a ltac:(lia) Hf) as Hda. pose proof (datastart_pos sb (do_geo _ _ D)) as Hdp.
  assert (E12 : nth 12 (<[12%nat := a]> addrs) 0 = a) by (rewrite nth_insert by lia; by rewrite decide_True by lia).
  eapply (mapped_grows _ _ _ _ _ 268 a); try done; [by apply grows_indirect|set_solver| |].
  - pose proof (alloc_size W a). unfold ipot. rewrite E12, H0. cbn [Z.eqb].
    rewrite (proj2 (Z.eqb_neq a 0)) by lia. rewrite decide_True by set_solver. lia.
  - unfold jpot. rewrite E12, H0. cbn [Z.eqb]. rewrite (proj2 (Z.eqb_neq a 0)) by lia. lia.
Qed.

Lemma mapped_entry W B addrs k a :
  let ia := nth 12 addrs 0 in
  let B1 := allocB sb B a in
  disk_ok sb B → file_ok sb B addrs → 0 ≤ a < sb_size sb → marked sb B a = false →
  12 ≤ k < 268 → fslot B addrs k = 0 → ia ≠ 0 →
  mapped 1 W B addrs ({[ia]} ∪ ({[a]} ∪ ({[BBLOCK a sb]} ∪ W)))
    (setb B1 ia (put32 (B1 ia) (Z.to_nat (4 * (k - 12))) a)) addrs.
Proof.
  intros ia B1 D F Ha Hf Hk H0 Hia.
  eapply (mapped_grows _ _ _ _ _ k a); try done; [lia|by apply grows_entry|set_solver|].
  pose proof (alloc_size W a) as Hs. set (W1 := {[a]} ∪ ({[BBLOCK a sb]} ∪ W)) in *.
  unfold ipot. fold ia. rewrite (proj2 (Z.eqb_neq ia 0)) by done. rewrite decide_True by set_solver.
  pose proof (size_add_le W1 ia). case_decide; [|lia].
  assert ({[ia]} ∪ W1 = W1) as -> by set_solver. lia.
Qed.

Lemma fstate_mapped c W B addrs W' B' addrs' s' :
  mapped c W B addrs W' B' addrs' → tx me N (at_addrs addrs') W' ∅ B' s' → fstate W' ∅ B' addrs' s'.
Proof. intros M T. split; [done|apply M|apply M]. Qed.

(** The indirect block is there, or is allocated now. *)
Lemma bmap_indirect_ok W B addrs s :
  fstate W ∅ B addrs s → (size W + ipot W addrs + 2 < N)%nat → spare sb B (jpot addrs + 1) →
  wp (if nth 12 addrs 0 =? 0 then
        addr ← balloc ROOTDEV;
        set_addr ip NDIRECT addr;;
        mret addr
      else mret (nth 12 addrs 0)) s (λ a s', ∃ W' B' addrs',
    fstate W' ∅ B' addrs' s' ∧ mapped 0 W B addrs W' B' addrs' ∧ a = nth 12 addrs' 0 ∧ a ≠ 0).
Proof using Hip Hdev.
  intros S HN Hsp. pose proof S as [T D F]. destruct (Z.eqb_spec (nth 12 addrs 0) 0) as [E|E].
  - eapply wp_seq; [eapply fs_balloc; [exact S|rewrite map_size_empty; lia|by intros ? ? ?%lookup_empty_Some| |]|].
    + lia.
    + eapply spare_le; [exact Hsp|lia].
    + intros a s1 (Ha & Hf & T1).
      eapply wp_seq; [by eapply fs_set_addr|]. intros [] s2 T2. apply wp_ret.
      pose proof (mapped_indirect W B addrs a D F Ha Hf E) as M.
      eexists _, _, _. split; [by eapply fstate_mapped|]. split; [exact M|].
      pose proof (free_is_data sb B D a ltac:(lia) Hf). pose proof (datastart_pos sb (do_geo _ _ D)).
      rewrite nth_insert by (rewrite (fk_len _ _ _ F); lia). rewrite decide_True by done. split; [done|lia].
  - apply wp_ret. exists W, B, addrs. split; [done|]. split; [by apply mapped_refl|]. done.
Qed.

(** The result of bmap(): the block of slot [bn].  Writing to it costs no more
    than two blocks of the log in all. *)
Definition bmapped W B addrs (bn : Z) (a : Z) (s' : kstate) : Prop :=
  ∃ W' B' addrs', fstate W' ∅ B' addrs' s' ∧ mapped 1 W B addrs W' B' addrs' ∧ a = fslot B' addrs' bn ∧ a ≠ 0 ∧
    (size ({[a]} ∪ W') + ipot ({[a]} ∪ W') addrs' ≤ size W + ipot W addrs + 2)%nat.

Lemma bmapped_new c W0 B0 addrs0 W B addrs bn a s' :
  mapped c W0 B0 addrs0 W B addrs → (c ≤ 1)%nat → tx me N (at_addrs addrs) W ∅ B s' →
  a ∈ W → a = fslot B addrs bn → a ≠ 0 → bmapped W0 B0 addrs0 bn a s'.
Proof.
  intros M Hc T Hin Ha Hn. exists W, B, addrs. split; [by eapply fstate_mapped|]. split_and!; [|done|done|].
  - destruct M as [H1 H2 H3 H4 H5]. split; try done; [lia|]. intros n Hs. apply H5.
    eapply spare_le; [exact Hs|]. lia.
  - assert ({[a]} ∪ W = W) as -> by set_solver. pose proof (mp_cost _ _ _ _ _ _ _ M). lia.
Qed.

Lemma bmapped_old W0 B0 addrs0 W B addrs bn a s' :
  mapped 0 W0 B0 addrs0 W B addrs → tx me N (at_addrs addrs) W ∅ B s' →
  a = fslot B addrs bn → a ≠ 0 → bmapped W0 B0 addrs0 bn a s'.
Proof.
  intros M T Ha Hn. exists W, B, addrs. split; [by eapply fstate_mapped|]. split_and!; [|done|done|].
  - destruct M as [H1 H2 H3 H4 H5]. split; try done; [lia|]. intros n Hs. apply H5.
    eapply spare_le; [exact Hs|]. lia.
  - pose proof (mp_cost _ _ _ _ _ _ _ M). pose proof (size_add_le W a).
    pose proof (ipot_mono W ({[a]} ∪ W) addrs ltac:(set_solver)). lia.
Qed.

Lemma fresh_nonzero B a : disk_ok sb B → 0 ≤ a < sb_size sb → marked sb B a = false → a ≠ 0.
Proof.
  intros D Ha Hf. pose proof (free_is_data sb B D a ltac:(lia) Hf). pose proof (datastart_pos sb (do_geo _ _ D)). lia.
Qed.

Lemma none_held W B addrs (j : nat) w :
  (∅ : gmap nat Z) !! j = Some w → ∃ i, 0 ≤ i ≤ 268 ∧ w ≠ 0 ∧ w = fslot B addrs i.
Proof. by intros ?%lookup_empty_Some. Qed.

Lemma bmap_direct_ok W B addrs s bn :
  fstate W ∅ B addrs s → 0 ≤ bn < 12 → (size W + 2 ≤ N)%nat → spare sb B 1 →
  wp (addr ← addr_at ip bn;
      if addr =? 0 then
        addr ← balloc ROOTDEV;
        set_addr ip bn addr;;
        mret addr
      else mret addr) s (bmapped W B addrs bn).
Proof using Hip Hdev.
  intros S Hbn HN Hsp. pose proof S as [T D F]. eapply fs_addr_at; [exact S|].
  assert (Es : ∀ B' addrs', fslot B' addrs' bn = nth (Z.to_nat bn) addrs' 0).
  { intros. unfold fslot. by rewrite (proj2 (Z.ltb_lt _ _)) by lia. }
  rewrite <-(Es B). destruct (Z.eqb_spec (fslot B addrs bn) 0) as [E|E].
  - eapply wp_seq; [eapply fs_balloc; [exact S|rewrite map_size_empty; lia|by eapply none_held|done|done]|].
    intros a s1 (Ha & Hf & T1). eapply wp_seq; [by eapply fs_set_addr|]. intros [] s2 T2. apply wp_ret.
    eapply bmapped_new; [by apply mapped_direct|done|exact T2|set_solver| |by eapply fresh_nonzero].
    rewrite Es, nth_insert by (rewrite (fk_len _ _ _ F); lia). by rewrite decide_True.
  - apply wp_ret. eapply bmapped_old; [by apply mapped_refl|exact T|done|done].
Qed.

(** The entry of the indirect block [ia]. *)
Lemma bmap_entry_ok W B addrs s bn ia :
  fstate W ∅ B addrs s → ia = nth 12 addrs 0 → ia ≠ 0 → 12 ≤ bn < 268 → (size W + 2 < N)%nat → spare sb B 1 →
  wp (bp ← bread ROOTDEV ia;
      b ← buf_at bp;
      let addr := get32 (b_data b) (Z.to_nat (4 * (bn - 12))) in
      addr ←
        (if addr =? 0 then
           addr ← balloc ROOTDEV;
           upd_buf bp (λ b, set_data (put32 (b_data b) (Z.to_nat (4 * (bn - 12))) addr) b);;
           log_write bp;;
           mret addr
         else mret addr);
      brelse bp;;
      mret addr) s (bmapped W B addrs bn).
Proof using Hip Hdev.
  intros S Eia Hia Hbn HN Hsp. pose proof S as [T D F].
  assert (Es : fslot B addrs 268 = ia) by (unfold fslot; by cbn).
  destruct (fk_data _ _ _ F 268 ltac:(lia)) as [Hr Hm]; [by rewrite Es|]. rewrite Es in Hr, Hm.
  eapply wp_seq; [eapply tx_bread; [exact T|rewrite map_size_empty; lia|by intros j ?%lookup_empty_Some]|].
  intros b s1 [Hb T1]. destruct (tx_buf _ _ _ _ _ _ T1 (lookup_insert_eq _ _ _)) as (x & Ex & Hx & _).
  eapply wp_run_seq; [exact Ex|]. cbv beta zeta. rewrite Hx.
  assert (Ee : fslot B addrs bn = get32 (B ia) (Z.to_nat (4 * (bn - 12)))).
  { unfold fslot. rewrite (proj2 (Z.ltb_ge _ _)) by lia. rewrite (proj2 (Z.eqb_neq bn 268)) by lia.
    rewrite <-Eia. by rewrite (proj2 (Z.eqb_neq ia 0)). }
  rewrite <-Ee. destruct (Z.eqb_spec (fslot B addrs bn) 0) as [E|E]; apply wp_bind.
  - eapply wp_seq.
    { eapply fs_balloc; [split; [exact T1|exact D|exact F]|..|lia|exact Hsp].
      - rewrite map_size_insert_None, map_size_empty by done. lia.
      - intros j w. destruct (decide (j = b)) as [->|].
        + rewrite lookup_insert_eq. intros [= <-]. exists 268. rewrite Es. split_and!; [lia|lia|done|done].
        + rewrite lookup_insert_ne by done. apply none_held. exact W. }
    intros a s2 (Ha & Hf & T2). cbv beta. apply wp_seq_assoc.
    pose proof (alloc_size W a). pose proof (dg_size _ (do_geo _ _ D)). pose proof (inodes_before_data sb B D).
    eapply wp_seq; [eapply (tx_put _ _ _ _ _ _ _ _ _ (λ d, put32 d _ a) T2); [apply lookup_insert_eq|cbn; lia|lia]|].
    intros [] s3 T3. apply wp_ret. eapply wp_seq; [eapply tx_brelse; [exact T3|apply lookup_insert_eq]|].
    intros [] s4. rewrite delete_insert_id by done. intros T4. apply wp_ret.
    rewrite Eia in Hia, T4. pose proof (grows_entry sb B addrs a D F Ha Hf bn ltac:(lia) Hia) as G.
    eapply bmapped_new; [by apply mapped_entry|done|exact T4|set_solver| |by eapply fresh_nonzero].
    pose proof (gr_slot _ _ _ _ _ _ _ G bn ltac:(lia)) as Es'. by rewrite decide_True in Es' by done.
  - apply wp_ret. eapply wp_seq; [eapply tx_brelse; [exact T1|apply lookup_insert_eq]|].
    intros [] s4. rewrite delete_insert_id by done. intros T4. apply wp_ret.
    eapply bmapped_old; [by apply mapped_refl|exact T4|done|done].
Qed.

Lemma bmapped_after c W0 B0 addrs0 W B addrs bn a s' :
  mapped c W0 B0 addrs0 W B addrs → (c = 0)%nat → bmapped W B addrs bn a s' → bmapped W0 B0 addrs0 bn a s'.
Proof.
  intros M -> (W' & B' & addrs' & S & M' & Ha & Hn & Hc). exists W', B', addrs'.
  pose proof (mapped_trans _ _ _ _ _ _ _ _ _ _ _ M M') as M2. split_and!; try done.
  pose proof (mp_cost _ _ _ _ _ _ _ M). lia.
Qed.

(** A block that is there is found, and nothing changes. *)
Lemma bmap_present_ok W B addrs s bn :
  fstate W ∅ B addrs s → 0 ≤ bn < 268 → fslot B addrs bn ≠ 0 →
  wp (bmap ip bn) s (λ a s', a = fslot B addrs bn ∧ fstate W ∅ B addrs s').
Proof using Hip Hdev.
  intros S Hbn Hs. pose proof S as [T D F]. unfold bmap. eapply fs_inode_run; [exact S|].
  change (i_dev (set_addrs addrs ino)) with (i_dev ino). rewrite Hdev. change NDIRECT with 12. change NINDIRECT with 256.
  unfold fslot in Hs |- *. destruct (Z.ltb_spec bn 12) as [Hlt|Hge].
  - eapply fs_addr_at; [exact S|]. rewrite (proj2 (Z.eqb_neq _ 0)) by done. by apply wp_ret.
  - rewrite (proj2 (Z.ltb_lt (bn - 12) 256)) by lia. rewrite (proj2 (Z.eqb_neq bn 268)) in Hs |- * by lia.
    eapply fs_addr_at; [exact S|]. change (Z.to_nat 12) with 12%nat.
    destruct (Z.eqb_spec (nth 12 addrs 0) 0); [done|]. apply wp_bind, wp_ret.
    eapply wp_seq; [eapply tx_bread; [exact T|rewrite map_size_empty; lia|by intros j ?%lookup_empty_Some]|].
    intros b s1 [Hb T1]. destruct (tx_buf _ _ _ _ _ _ T1 (lookup_insert_eq _ _ _)) as (x & Ex & Hx & _).
    eapply wp_run_seq; [exact Ex|]. cbv beta zeta. rewrite Hx, (proj2 (Z.eqb_neq _ 0)) by done.
    apply wp_bind, wp_ret. eapply wp_seq; [eapply tx_brelse; [exact T1|apply lookup_insert_eq]|].
    intros [] s4. rewrite delete_insert_id by done. intros T4. by apply wp_ret.
Qed.

(** bmap() returns the block of slot [bn], allocating it (and the indirect
    block) when it is missing. *)
Lemma bmap_ok W B addrs s bn :
  fstate W ∅ B addrs s → 0 ≤ bn < 268 → (size W + ipot W addrs + 2 < N)%nat → spare sb B (jpot addrs + 1) →
  wp (bmap ip bn) s (bmapped W B addrs bn).
Proof using Hip Hdev.
  intros S Hbn HN Hsp. unfold bmap. eapply fs_inode_run; [exact S|]. change (i_dev (set_addrs addrs ino)) with (i_dev ino).
  rewrite Hdev. change NDIRECT with 12. change NINDIRECT with 256. destruct (Z.ltb_spec bn 12) as [Hlt|Hge].
  - apply bmap_direct_ok; [done|lia|lia|]. eapply spare_le; [exact Hsp|lia].
  - rewrite (proj2 (Z.ltb_lt (bn - 12) 256)) by lia. eapply fs_addr_at; [exact S|]. change (Z.to_nat 12) with 12%nat.
    eapply wp_seq; [by apply bmap_indirect_ok|].
    intros ia s1 (W1 & B1 & a1 & S1 & M1 & Eia & Hia). pose proof (mp_cost _ _ _ _ _ _ _ M1) as Hc1.
    eapply wp_mono; [apply (bmap_entry_ok _ _ _ _ bn ia S1 Eia Hia); [lia|lia|]|].
    + eapply spare_le; [apply (mp_spare _ _ _ _ _ _ _ M1 1)|lia]. eapply spare_le; [exact Hsp|lia].
    + intros a s2. by eapply bmapped_after.
Qed.
End bmap.
