(* ===== verification/Writei.v ===== *)
(** writei() and readi() of kernel/fs.c inside a transaction: writing changes
    exactly the bytes written, and reading delivers the contents. *)

From S2P Require Import Prelude Riscv Kstate Mem Kalloc Vm Sched Bytes Bio BioSpec BioOps Log Fs FsTx Balloc Bmap.

(** ** Replacing the contents of a block of the file *)

Section set_block.
Context (sb : superblock) (B : Z → list Z) (addrs : list Z) (bn : Z).
Hypothesis D : disk_ok sb B.
Hypothesis F : file_ok sb B addrs.
Hypothesis Hbn : 0 ≤ bn < 268.
Hypothesis Hn : fslot B addrs bn ≠ 0.
Local Abbreviation a := (fslot B addrs bn).

Lemma sb_range : datastart sb ≤ a < sb_size sb.
Proof using F Hbn Hn. apply (fk_data _ _ _ F); [lia|done]. Qed.

Context (v : list Z).
Local Abbreviation B' := (setb B a v).

Lemma sb_slot i : 0 ≤ i ≤ 268 → fslot B' addrs i = fslot B addrs i.
Proof using F Hbn Hn.
  intros Hi. unfold fslot at 1 3. destruct (i <? 12); [done|]. destruct (i =? 268); [done|].
  destruct (nth 12 addrs 0 =? 0); [done|]. rewrite setb_ne; [done|].
  change (nth 12 addrs 0) with (fslot B addrs 268). intros E. symmetry in E.
  apply (fk_inj _ _ _ F) in E; [lia|lia|lia|done].
Qed.

Lemma sb_marked w : 0 ≤ w < sb_size sb → marked sb B' w = marked sb B w.
Proof using D F Hbn Hn.
  intros Hw. unfold marked. pose proof (BBLOCK_range sb (do_geo _ _ D) w Hw). pose proof sb_range.
  by rewrite setb_ne by lia.
Qed.

Lemma sb_content p : 0 ≤ p < 268 * 1024 →
  content B' addrs p = if decide (p / 1024 = bn) then v !!! Z.to_nat (p mod 1024) else content B addrs p.
Proof using F Hbn Hn.
  intros Hp. assert (Hi : 0 ≤ p / 1024 < 268) by dlia. unfold content. rewrite sb_slot by lia. case_decide as E.
  - rewrite E, (proj2 (Z.eqb_neq _ 0)) by done. by rewrite setb_eq.
  - destruct (Z.eqb_spec (fslot B addrs (p / 1024)) 0); [done|]. rewrite setb_ne; [done|].
    intros E'. apply (fk_inj _ _ _ F) in E'; [done|lia|lia|done].
Qed.

Lemma sb_spare n : spare sb B n → spare sb B' n.
Proof using D F Hbn Hn.
  intros (X & Hs & HX). exists X. split; [done|]. intros c Hc. destruct (HX c Hc) as [Hr Hm].
  split; [done|]. by rewrite sb_marked.
Qed.
Hypothesis Hv : length v = BNAT.

Lemma sb_disk : disk_ok sb B'.
Proof using D F Hbn Hn Hv.
  split; [apply D| |].
  - intros w. unfold setb. case_decide; [done|apply D].
  - intros w Hw. pose proof (dg_data _ (do_geo _ _ D)). rewrite sb_marked by lia. by apply D.
Qed.

Lemma sb_evolves ib : evolves sb ib B addrs B' addrs.
Proof using D F Hbn Hn Hv.
  pose proof sb_range as Hr. split; [apply sb_disk| | | |by intros i Hi _; apply sb_slot].
  - split; [apply F| |].
    + intros i Hi. rewrite sb_slot by done. intros Hne. destruct (fk_data _ _ _ F i Hi Hne) as [? ?].
      pose proof (datastart_pos sb (do_geo _ _ D)). rewrite sb_marked by lia. done.
    + intros i j Hi Hj. rewrite !sb_slot by done. by apply (fk_inj _ _ _ F).
  - intros w (Hw & Hm & Hs). pose proof (datastart_pos sb (do_geo _ _ D)). split; [split; [done|split]|].
    + by rewrite sb_marked by lia.
    + intros i Hi. rewrite sb_slot by done. by apply Hs.
    + apply setb_ne. apply not_eq_sym, Hs. lia.
  - intros w Hw _. apply setb_ne. pose proof (datastart_pos sb (do_geo _ _ D)). unfold datastart in *.
    pose proof (dg_data _ (do_geo _ _ D)). unfold datastart in *. pose proof (Z.div_pos (sb_size sb) 8192). lia.
Qed.

End set_block.

(** ** Overwriting a range of a file *)

Definition overwrite (c : Z → Z) (off : Z) (bs : list Z) (p : Z) : Z :=
  if decide (off ≤ p < off + Z.of_nat (length bs)) then bs !!! Z.to_nat (p - off) else c p.

Lemma overwrite_app c off bs1 bs2 p :
  overwrite (overwrite c off bs1) (off + Z.of_nat (length bs1)) bs2 p = overwrite c off (bs1 ++ bs2) p.
Proof.
  unfold overwrite. rewrite length_app. repeat case_decide; try lia; try done.
  - rewrite lookup_total_app_r by lia. f_equal. lia.
  - by rewrite lookup_total_app_l by lia.
Qed.

(** The part of a range that falls in one block. *)
Lemma splice_content B addrs sb off bs p :
  disk_ok sb B → file_ok sb B addrs → 0 ≤ off → off / 1024 < 268 → fslot B addrs (off / 1024) ≠ 0 →
  off mod 1024 + Z.of_nat (length bs) ≤ 1024 → 0 ≤ p < 268 * 1024 →
  content (setb B (fslot B addrs (off / 1024)) (splice (B (fslot B addrs (off / 1024))) (Z.to_nat (off mod 1024)) bs)) addrs p =
  overwrite (content B addrs) off bs p.
Proof.
  intros D F Ho Hlt Hs Hl Hp. assert (0 ≤ off / 1024) by dlia.
  rewrite (sb_content sb) by (done || lia). set (a := fslot B addrs (off / 1024)) in *.
  pose proof (Z.mod_pos_bound off 1024 ltac:(lia)). pose proof (Z.mod_pos_bound p 1024 ltac:(lia)).
  assert (Hla : length (B a) = 1024%nat) by apply D.
  assert (Hsp : (Z.to_nat (off mod 1024) + length bs ≤ length (B a))%nat) by (rewrite Hla; lia).
  unfold overwrite. case_decide as E.
  - rewrite list_lookup_total_alt, lookup_splice by done. case_decide as E1.
    + rewrite decide_True by dlia. rewrite <-list_lookup_total_alt. f_equal. dlia.
    + rewrite decide_False by dlia. rewrite <-list_lookup_total_alt. unfold content. rewrite E. fold a.
      by rewrite (proj2 (Z.eqb_neq a 0)).
  - by rewrite decide_False by dlia.
Qed.

(** Blocks that [n] bytes at [off] touch. *)
Definition chunks (off n : Z) : nat := if n <=? 0 then 0 else Z.to_nat ((off mod 1024 + n + 1023) / 1024).

Lemma chunks_step off n m :
  0 ≤ off → 0 < n → m = Z.min n (1024 - off mod 1024) → chunks off n = S (chunks (off + m) (n - m)).
Proof.
  intros Ho Hn Hm. unfold chunks. pose proof (Z.mod_pos_bound off 1024 ltac:(lia)).
  rewrite (proj2 (Z.leb_gt n 0)) by lia. destruct (Z.leb_spec (n - m) 0).
  - assert ((off mod 1024 + n + 1023) / 1024 = 1) as -> by dlia. done.
  - assert (m = 1024 - off mod 1024) as -> by lia.
    replace ((off + (1024 - off mod 1024)) mod 1024) with 0 by dlia.
    rewrite <-Z2Nat.inj_succ by dlia. f_equal. dlia.
Qed.

(** ** Where the bytes come from *)

Section source.
Context {L : Layout}.

(** The source of a write delivers [bs], in any pieces. *)
Definition source_ok (s0 : kstate) (me : proc) (src : source) (bs : list Z) : Prop :=
  source_add src 0 = src ∧
  ∀ k m s, 0 ≤ k → 0 ≤ m → k + m ≤ Z.of_nat (length bs) → ready s me → k_mm s = k_mm s0 →
    either_copyin (source_add src k) m s = Ok (0, slice bs (Z.to_nat k) (Z.to_nat m)) s.

Lemma source_add_add src a b : 0 ≤ a → 0 ≤ b → source_add (source_add src a) b = source_add src (a + b).
Proof.
  intros Ha Hb. destruct src as [va|bs]; simpl; f_equal.
  - unfold u64, wrap. rewrite Zplus_mod_idemp_l. f_equal. lia.
  - rewrite drop_drop. f_equal. lia.
Qed.

Lemma source_ok_local s0 me bs : source_ok s0 me (FromLocal bs) bs.
Proof. split; [done|]. intros k m s Hk Hm Hl _ _. done. Qed.
End source.

(** ** The loop of writei() *)

Section writei.
Context {L : Layout}.
Context {me : proc} {N : nat} {s0 : kstate} {ip : nat} {ino : inode} (ib : Z).
Implicit Types (W : gset Z) (H : gmap nat Z) (B : Z → list Z) (addrs : list Z).
Local Abbreviation sb := (io_sb (k_io s0)).
Hypothesis Hip : k_itable s0 !! ip = Some ino.
Hypothesis Hdev : i_dev ino = ROOTDEV.
Local Abbreviation fstate := (fstate (me := me) (N := N) (s0 := s0) (ip := ip) (ino := ino)).

(** The effect of writing [bs] at [off], for [c] blocks. *)
Record written (c : nat) W B addrs (off : Z) (bs : list Z) W' B' addrs' : Prop := {
  wr_evolves : evolves sb ib B addrs B' addrs';
  wr_content : ∀ p, 0 ≤ p < 268 * 1024 → content B' addrs' p = overwrite (content B addrs) off bs p;
  wr_slots : ∀ p, off ≤ p < off + Z.of_nat (length bs) → fslot B' addrs' (p / 1024) ≠ 0;
  wr_logged : W ⊆ W';
  wr_cost : (size W' + ipot W' addrs' ≤ size W + ipot W addrs + 2 * c)%nat;
}.

Lemma written_nil W B addrs off : disk_ok sb B → file_ok sb B addrs → written 0 W B addrs off [] W B addrs.
Proof.
  intros D F. split; [by apply evolves_refl| |simpl; lia|done|lia].
  intros p Hp. unfold overwrite. by rewrite decide_False by (simpl; lia).
Qed.

Lemma written_app c c' W1 B1 a1 off bs1 bs2 W2 B2 a2 W3 B3 a3 :
  written c W1 B1 a1 off bs1 W2 B2 a2 → written c' W2 B2 a2 (off + Z.of_nat (length bs1)) bs2 W3 B3 a3 →
  0 ≤ off → off + Z.of_nat (length bs1) ≤ 268 * 1024 →
  written (c + c') W1 B1 a1 off (bs1 ++ bs2) W3 B3 a3.
Proof.
  intros [H1 H2 H3 H4 H5] [H1' H2' H3' H4' H5'] Ho Hl. split.
  - by eapply evolves_trans.
  - intros p Hp. rewrite H2' by done. rewrite <-overwrite_app. unfold overwrite at 1 2. case_decide; [done|]. by apply H2.
  - intros p. rewrite length_app. intros Hp. destruct (decide (p < off + Z.of_nat (length bs1))).
    + specialize (H3 p ltac:(lia)). by rewrite (ev_slot _ _ _ _ _ _ H1' (p / 1024) ltac:(dlia)).
    + apply H3'. lia.
  - set_solver.
  - lia.
Qed.

(** One block: bmap(), bread(), the copy, log_write(), brelse(). *)
Lemma written_chunk W B addrs off bs W1 B1 addrs1 :
  mapped (s0 := s0) ib 1 W B addrs W1 B1 addrs1 →
  let a := fslot B1 addrs1 (off / 1024) in
  a ≠ 0 → 0 ≤ off → off / 1024 < 268 → off mod 1024 + Z.of_nat (length bs) ≤ 1024 →
  (size ({[a]} ∪ W1) + ipot ({[a]} ∪ W1) addrs1 ≤ size W + ipot W addrs + 2)%nat →
  written 1 W B addrs off bs ({[a]} ∪ W1)
    (setb B1 a (splice (B1 a) (Z.to_nat (off mod 1024)) bs)) addrs1.
Proof.
  intros M a Ha Ho Hlt Hl Hc. pose proof (mp_evolves _ _ _ _ _ _ _ _ M) as E. destruct E as [D F Al Lo Sl].
  pose proof (Z.mod_pos_bound off 1024 ltac:(lia)). assert (0 ≤ off / 1024) by dlia.
  assert (Hv : length (splice (B1 a) (Z.to_nat (off mod 1024)) bs) = BNAT).
  { rewrite length_splice; rewrite (do_len _ _ D); [done|]. change BNAT with 1024%nat. lia. }
  split.
  - eapply evolves_trans; [apply M|]. apply sb_evolves; done.
  - intros p Hp. unfold a. rewrite (splice_content B1 addrs1 sb) by done. unfold overwrite. case_decide; [done|].
    by apply (mp_content _ _ _ _ _ _ _ _ M).
  - intros p Hp. unfold a. rewrite (sb_slot sb) by (done || lia || dlia). assert (p / 1024 = off / 1024) as -> by dlia. done.
  - pose proof (mp_logged _ _ _ _ _ _ _ _ M). set_solver.
  - lia.
Qed.

(** bread(), the copy, log_write() and brelse() on block [a] of the file. *)
Lemma write_block_ok {A} W B addrs s a (m : Z) src bs off (k : unit → K A) (k' : K A) Q :
  fstate W ∅ B addrs s → a ≠ 0 → sb_inodestart sb ≤ a < 2147483648 → (size W < N)%nat →
  (∀ s, ready s me → k_mm s = k_mm s0 → either_copyin src m s = Ok (0, bs) s) →
  (∀ s', tx me N (with_inode ip (set_addrs addrs ino) s0) ({[a]} ∪ W) ∅ (setb B a (splice (B a) off bs)) s' → wp (k tt) s' Q) →
  wp (bp ← bread ROOTDEV a;
      '(r, bs) ← either_copyin src m;
      upd_buf bp (λ b, set_data (splice (b_data b) off bs) b);;
      if r =? -1 then brelse bp;; k'
      else log_write bp;; brelse bp;; k tt) s Q.
Proof.
  intros [T D F] Ha Hr HN Hsrc Hk.
  eapply wp_seq; [eapply tx_bread; [exact T|rewrite map_size_empty; lia|by intros j ?%lookup_empty_Some]|].
  intros b s1 [Hb T1]. eapply wp_run_seq; [apply Hsrc; [by eapply tx_ready|by rewrite (tx_mm _ _ _ _ _ _ _ T1)]|].
  cbv beta iota. change (0 =? -1) with false. cbv iota. apply wp_seq_assoc.
  eapply wp_seq; [eapply (tx_put _ _ _ _ _ _ _ _ _ (λ d, splice d off bs) T1); [apply lookup_insert_eq|cbn; lia|lia]|].
  intros [] s2 T2. eapply wp_seq; [eapply tx_brelse; [exact T2|apply lookup_insert_eq]|].
  intros [] s3. rewrite delete_insert_id by done. apply Hk.
Qed.

Lemma writei_loop_ok fuel W B addrs s src bs off tot :
  let n := Z.of_nat (length bs) in
  fstate W ∅ B addrs s → source_ok s0 me src bs →
  0 ≤ tot ≤ n → 0 ≤ off → off + (n - tot) ≤ 268 * 1024 → n < 4294967296 →
  (size W + ipot W addrs + 2 * chunks off (n - tot) < N)%nat → spare sb B (jpot addrs + chunks off (n - tot)) →
  (chunks off (n - tot) ≤ fuel)%nat →
  wp (writei_loop fuel ip (source_add src tot) off n tot) s (λ r s', r = (n, off + (n - tot)) ∧ ∃ W' B' addrs',
    fstate W' ∅ B' addrs' s' ∧
    written (chunks off (n - tot)) W B addrs off (drop (Z.to_nat tot) bs) W' B' addrs').
Proof using Hip Hdev.
  intros n. revert W B addrs s off tot.
  induction fuel as [|fuel IH]; intros W B addrs s off tot S Hsrc Ht Ho Hend Hn HN Hsp Hf;
    (destruct (decide (tot = n)) as [->|Hne];
      [cbn [writei_loop]; rewrite Z.ltb_irrefl; cbn [negb]; apply wp_ret; rewrite Z.sub_diag;
       rewrite drop_ge by lia; split; [f_equal; lia|]; eexists _, _, _; split; [exact S|]; apply written_nil; apply S|]).
  { unfold chunks in Hf. rewrite (proj2 (Z.leb_gt _ _)) in Hf by lia. pose proof (Z.mod_pos_bound off 1024 ltac:(lia)).
    assert (1 ≤ (off mod 1024 + (n - tot) + 1023) / 1024) by dlia. lia. }
  cbn [writei_loop]. rewrite (proj2 (Z.ltb_lt _ _)) by lia. cbn [negb]. eapply fs_inode_run; [done|exact S|].
  change (i_dev (set_addrs addrs ino)) with (i_dev ino). rewrite Hdev. change BSIZE with 1024.
  set (m := io_chunk n tot off). pose proof (Z.mod_pos_bound off 1024 ltac:(lia)) as Hmod.
  assert (Hm : m = Z.min (n - tot) (1024 - off mod 1024)).
  { unfold m, io_chunk. rewrite u32_small by lia. change BSIZE with 1024. case_match; lia. }
  pose proof (chunks_step off (n - tot) m Ho ltac:(lia) Hm) as Ec. rewrite Ec in *.
  assert (Hbn : 0 ≤ off / 1024 < 268) by dlia. pose proof S as [T D F].
  eapply wp_seq; [eapply (bmap_ok ib); [done|done|exact S|done|lia|eapply spare_le; [exact Hsp|lia]]|].
  intros a s1 (W1 & B1 & addrs1 & S1 & M1 & Ea & Ha & Hc). pose proof S1 as [T1 D1 F1].
  destruct (fk_data _ _ _ F1 (off / 1024) ltac:(lia)) as [Hr _]; [by rewrite <-Ea|]. rewrite <-Ea in Hr.
  pose proof (inodes_before_data sb B1 D1). pose proof (dg_size _ (do_geo _ _ D1)).
  pose proof (mp_cost _ _ _ _ _ _ _ _ M1). set (piece := slice bs (Z.to_nat tot) (Z.to_nat m)).
  assert (Hlp : Z.of_nat (length piece) = m) by (unfold piece, slice; rewrite length_take, length_drop; lia).
  eapply (write_block_ok W1 B1 addrs1 s1 a m (source_add src tot) piece (Z.to_nat (off mod 1024))
    (λ _, writei_loop fuel ip (source_add (source_add src tot) m) (u32 (off + m)) n (u32 (tot + m))));
    [exact S1|done|lia|lia|intros s' Hs' Hmm; apply Hsrc; (done || lia)|].
  intros s2 T2. rewrite Ea in T2, Hc, Ha.
  pose proof (written_chunk W B addrs off piece W1 B1 addrs1 M1 Ha Ho ltac:(lia) ltac:(lia) Hc) as Wr.
  rewrite source_add_add, !u32_small by lia.
  pose proof (wr_evolves _ _ _ _ _ _ _ _ _ Wr) as Ev. pose proof (wr_cost _ _ _ _ _ _ _ _ _ Wr) as Wc.
  replace (n - tot - m) with (n - (tot + m)) in * by lia.
  eapply wp_mono; [eapply (IH _ _ _ s2 (off + m) (tot + m)); [split; [exact T2|apply Ev|apply Ev]|done|lia|lia|lia|done|lia| |lia]|].
  - apply sb_spare; [done|done|lia|done|]. rewrite Nat.add_comm.
    apply (mp_spare _ _ _ _ _ _ _ _ M1). eapply spare_le; [exact Hsp|lia].
  - intros r s' (-> & W' & B' & addrs' & S' & Wr'). split; [f_equal; lia|]. exists W', B', addrs'. split; [done|].
    assert (Eb : drop (Z.to_nat tot) bs = piece ++ drop (Z.to_nat (tot + m)) bs).
    { unfold piece, slice. rewrite Z2Nat.inj_add, <-drop_drop by lia. by rewrite take_drop. }
    rewrite Eb. change (Datatypes.S (chunks (off + m) (n - (tot + m)))) with (1 + chunks (off + m) (n - (tot + m)))%nat.
    eapply written_app; [exact Wr| |done|lia]. by rewrite Hlp.
Qed.
End writei.

(** ** The inode on the disk *)

Section low_block.
Context (sb : superblock) (B : Z → list Z) (addrs : list Z) (ib : Z) (v : list Z).
Hypothesis D : disk_ok sb B.
Hypothesis F : file_ok sb B addrs.
Hypothesis Hib : ib < sb_bmapstart sb.

Lemma low_slot i : 0 ≤ i ≤ 268 → fslot (setb B ib v) addrs i = fslot B addrs i.
Proof using D F Hib.
  intros Hi. unfold fslot. destruct (i <? 12); [done|]. destruct (i =? 268); [done|].
  destruct (Z.eqb_spec (nth 12 addrs 0) 0); [done|].
  destruct (fk_data _ _ _ F 268 ltac:(lia)) as [Hr _]; [done|]. change (fslot B addrs 268) with (nth 12 addrs 0) in Hr.
  pose proof (bmap_before_data sb B D). by rewrite setb_ne by lia.
Qed.

Lemma low_marked w : 0 ≤ w < sb_size sb → marked sb (setb B ib v) w = marked sb B w.
Proof using D Hib.
  intros Hw. unfold marked. pose proof (BBLOCK_range sb (do_geo _ _ D) w Hw). by rewrite setb_ne by lia.
Qed.

Lemma low_content p : 0 ≤ p < 268 * 1024 → content (setb B ib v) addrs p = content B addrs p.
Proof using D F Hib.
  intros Hp. unfold content. rewrite low_slot by dlia.
  destruct (Z.eqb_spec (fslot B addrs (p / 1024)) 0); [done|].
  destruct (fk_data _ _ _ F (p / 1024) ltac:(dlia)) as [Hr _]; [done|].
  pose proof (bmap_before_data sb B D). by rewrite setb_ne by lia.
Qed.

Hypothesis Hv : length v = BNAT.

Lemma low_evolves : evolves sb ib B addrs (setb B ib v) addrs.
Proof using D F Hib Hv.
  pose proof (bmap_before_data sb B D) as Hbd. pose proof (datastart_pos sb (do_geo _ _ D)) as Hdp.
  pose proof (dg_data _ (do_geo _ _ D)) as Hdd.
  split; [| | |by intros w _ Hw; apply setb_ne|by intros i Hi _; apply low_slot].
  - split; [apply D| |].
    + intros w. unfold setb. case_decide; [done|apply D].
    + intros w Hw. rewrite low_marked by lia. by apply D.
  - split; [apply F| |].
    + intros i Hi. rewrite low_slot by done. intros Hne. destruct (fk_data _ _ _ F i Hi Hne). rewrite low_marked by lia. done.
    + intros i j Hi Hj. rewrite !low_slot by done. by apply (fk_inj _ _ _ F).
  - intros w (Hw & Hm & Hs). split; [split; [done|split]|].
    + by rewrite low_marked by lia.
    + intros i Hi. rewrite low_slot by done. by apply Hs.
    + apply setb_ne. lia.
Qed.
End low_block.

Lemma length_put_addrs d off a :
  (off + 4 * length a ≤ length d)%nat → length (put_addrs d off a) = length d.
Proof.
  revert d off. induction a as [|v a IH]; intros d off H; cbn [put_addrs length] in *; [done|].
  unfold put32. rewrite IH; rewrite length_put by lia; [done|lia].
Qed.

Lemma length_put_dinode d off x :
  length (i_addrs x) = 13%nat → (off + 64 ≤ length d)%nat → length (put_dinode d off x) = length d.
Proof.
  intros Ha H. unfold put_dinode, put32, put16.
  assert (P : ∀ n d' o v, length d' = length d → (o + n ≤ length d)%nat → length (put_le n d' o v) = length d).
  { intros n d' o v E Ho. rewrite length_put; lia. }
  assert (E5 : ∀ v1 v2 v3 v4 v5, length (put_le 4 (put_le 2 (put_le 2 (put_le 2 (put_le 2 d off v1) (off + 2) v2)
    (off + 4) v3) (off + 6) v4) (off + 8) v5) = length d).
  { intros. repeat (apply P; [|lia]). done. }
  rewrite length_put_addrs; rewrite ?Ha, !E5; lia.
Qed.

Lemma dinode_off_le inum : (dinode_off inum + 64 ≤ BNAT)%nat.
Proof.
  unfold dinode_off. change IPB with 16. change DINODE with 64. change BNAT with 1024%nat.
  pose proof (Z.mod_pos_bound inum 16 ltac:(lia)). lia.
Qed.

Lemma IBLOCK_range sb inum :
  disk_geo sb → 0 ≤ inum < sb_ninodes sb → sb_inodestart sb ≤ IBLOCK inum sb < sb_bmapstart sb.
Proof.
  intros [(H1 & H2 & H3) H4 H5] Hi. unfold IBLOCK. change IPB with 16. unfold datastart in H4.
  rewrite u32_small; [dlia|]. dlia.
Qed.

Section iupdate.
Context {L : Layout}.

(** iupdate() stores the inode into its place in the inode block. *)
Lemma iupdate_ok me N s0 W B s ip x :
  let sb := io_sb (k_io s0) in
  tx me N s0 W ∅ B s → disk_ok sb B → k_itable s0 !! ip = Some x → i_dev x = ROOTDEV →
  0 ≤ i_inum x < sb_ninodes sb → (size W < N)%nat →
  let ib := IBLOCK (i_inum x) sb in
  wp (iupdate ip) s (λ _ s',
    tx me N s0 ({[ib]} ∪ W) ∅ (setb B ib (put_dinode (B ib) (dinode_off (i_inum x)) x)) s').
Proof.
  intros sb T D Hx Hdev Hi HN ib. unfold iupdate. pose proof (IBLOCK_range sb _ (do_geo _ _ D) Hi) as Hib.
  pose proof (dg_data _ (do_geo _ _ D)). pose proof (dg_size _ (do_geo _ _ D)). pose proof (bmap_before_data sb B D).
  eapply wp_run_seq; [apply inode_at_run; by rewrite (tx_itable _ _ _ _ _ _ _ T)|]. cbv beta.
  eapply wp_get_sb; [exact T|]. fold sb. fold ib. rewrite Hdev.
  eapply wp_seq; [eapply tx_bread; [exact T|rewrite map_size_empty; lia|by intros j ?%lookup_empty_Some]|].
  intros b s1 [Hb T1].
  eapply wp_run_seq; [apply inode_at_run; by rewrite (tx_itable _ _ _ _ _ _ _ T1)|]. cbv beta. apply wp_seq_assoc.
  eapply wp_seq; [eapply (tx_put _ _ _ _ _ _ _ _ _ (λ d, put_dinode d _ x) T1); [apply lookup_insert_eq|fold sb ib; lia|done]|].
  intros [] s2 T2. eapply wp_mono; [eapply tx_brelse; [exact T2|apply lookup_insert_eq]|].
  intros [] s3. by rewrite delete_insert_id.
Qed.
End iupdate.

(** ** writei() *)

(** Every block of the first [size] bytes is there. *)
Definition no_holes (B : Z → list Z) (addrs : list Z) (size : Z) : Prop :=
  ∀ p, 0 ≤ p < size → fslot B addrs (p / 1024) ≠ 0.

(** An open file inside a transaction: inode [ino] in entry [ip]. *)
Record open_file (me : proc) (N : nat) (s0 : kstate) (ip : nat) (ino : inode) (W : gset Z) (B : Z → list Z) (s : kstate)
    : Prop := {
  of_tx : tx me N s0 W ∅ B s;
  of_inode : k_itable s0 !! ip = Some ino;
  of_dev : i_dev ino = ROOTDEV;
  of_inum : 0 ≤ i_inum ino < sb_ninodes (io_sb (k_io s0));
  of_disk : disk_ok (io_sb (k_io s0)) B;
  of_file : file_ok (io_sb (k_io s0)) B (i_addrs ino);
  of_size : 0 ≤ i_size ino ≤ 268 * 1024;
  of_holes : no_holes B (i_addrs ino) (i_size ino);
}.

Section writei_ok.
Context {L : Layout}.
Context {me : proc} {N : nat} {s0 : kstate} {ip : nat} {ino : inode}.
Implicit Types (W : gset Z) (B : Z → list Z).
Local Abbreviation sb := (io_sb (k_io s0)).
Local Abbreviation ib := (IBLOCK (i_inum ino) sb).

(** The room a write of [n] bytes at [off] needs: in the log, and on the disk. *)
Definition write_room W B (off n : Z) : Prop :=
  (size W + ipot W (i_addrs ino) + 2 * chunks off n < N)%nat ∧ spare sb B (jpot (i_addrs ino) + chunks off n).

(** The file after [bs] has been written at [off]. *)
Record write_post W B (off : Z) (bs : list Z) (ino' : inode) W' B' (s' : kstate) : Prop := {
  wp_open : open_file me N (with_inode ip ino' s0) ip ino' W' B' s';
  wp_evolves : evolves sb ib B (i_addrs ino) B' (i_addrs ino');
  wp_content : ∀ p, 0 ≤ p < 268 * 1024 → content B' (i_addrs ino') p = overwrite (content B (i_addrs ino)) off bs p;
  wp_inode : ino' = set_isize (Z.max (i_size ino) (off + Z.of_nat (length bs))) (set_addrs (i_addrs ino') ino);
  wp_dinode : B' ib = put_dinode (B ib) (dinode_off (i_inum ino)) ino';
  wp_logged : ib ∈ W';
  wp_cost : (size W' ≤ size W + ipot W (i_addrs ino) + 2 * chunks off (Z.of_nat (length bs)) + 1)%nat;
}.

Lemma fstate_open W B s : open_file me N s0 ip ino W B s →
  fstate (me := me) (N := N) (s0 := s0) (ip := ip) (ino := ino) W ∅ B (i_addrs ino) s.
Proof.
  intros O. split; [|apply O|apply O]. rewrite set_addrs_id, with_inode_id by apply O. apply O.
Qed.

Lemma set_isize_max x v : (if i_size x <? v then set_isize v x else x) = set_isize (Z.max (i_size x) v) x.
Proof.
  destruct (Z.ltb_spec (i_size x) v); [by rewrite Z.max_r by lia|]. rewrite Z.max_l by lia. by destruct x.
Qed.

Lemma evolves_low ib' B addrs B' addrs' :
  evolves sb (sb_bmapstart sb) B addrs B' addrs' → evolves sb ib' B addrs B' addrs'.
Proof. intros [H1 H2 H3 H4 H5]. split; try done. intros w Hw _. apply H4; lia. Qed.

Lemma written_holes c W B addrs off bs W' B' addrs' size :
  written (s0 := s0) (sb_bmapstart sb) c W B addrs off bs W' B' addrs' → no_holes B addrs size → 0 ≤ off ≤ size → size ≤ 268 * 1024 →
  no_holes B' addrs' (Z.max size (off + Z.of_nat (length bs))).
Proof.
  intros Wr Hh Ho Hs p Hp. destruct (decide (off ≤ p < off + Z.of_nat (length bs))).
  - by apply (wr_slots _ _ _ _ _ _ _ _ _ _ Wr).
  - rewrite (ev_slot _ _ _ _ _ _ (wr_evolves _ _ _ _ _ _ _ _ _ _ Wr)); [|dlia|]; apply Hh; lia.
Qed.

(** iupdate() at the end of writei(). *)
Lemma writei_post c W B off bs W1 B1 ino' s :
  open_file me N s0 ip ino W B s → written (s0 := s0) (sb_bmapstart sb) c W B (i_addrs ino) off bs W1 B1 (i_addrs ino') →
  ino' = set_isize (Z.max (i_size ino) (off + Z.of_nat (length bs))) (set_addrs (i_addrs ino') ino) →
  0 ≤ off ≤ i_size ino → off + Z.of_nat (length bs) ≤ 268 * 1024 → c = chunks off (Z.of_nat (length bs)) →
  ∀ s', tx me N (with_inode ip ino' s0) ({[ib]} ∪ W1) ∅
    (setb B1 ib (put_dinode (B1 ib) (dinode_off (i_inum ino)) ino')) s' →
  write_post W B off bs ino' ({[ib]} ∪ W1) (setb B1 ib (put_dinode (B1 ib) (dinode_off (i_inum ino)) ino')) s'.
Proof.
  intros O Wr Eino Ho Hl Hc s' T. pose proof (wr_evolves _ _ _ _ _ _ _ _ _ _ Wr) as Ev1. pose proof Ev1 as [D1 F1 A1 L1 S1].
  pose proof (of_inum _ _ _ _ _ _ _ _ O) as Hi. pose proof (IBLOCK_range sb _ (do_geo _ _ D1) Hi) as Hib.
  assert (Hv : length (put_dinode (B1 ib) (dinode_off (i_inum ino)) ino') = BNAT).
  { rewrite length_put_dinode; [apply D1|apply F1|]. rewrite (do_len _ _ D1). apply dinode_off_le. }
  pose proof (low_evolves sb B1 (i_addrs ino') ib _ D1 F1 ltac:(lia) Hv) as Ev.
  assert (Hd : i_dev ino' = i_dev ino ∧ i_inum ino' = i_inum ino ∧
    i_size ino' = Z.max (i_size ino) (off + Z.of_nat (length bs))) by (rewrite Eino; done).
  destruct Hd as (Hd1 & Hd2 & Hd3). pose proof (of_size _ _ _ _ _ _ _ _ O).
  split; [|eapply evolves_trans; [by apply evolves_low|done]| |done| | |].
  - split.
    + done.
    + eapply with_inode_at, O.
    + rewrite Hd1. apply O.
    + rewrite Hd2. apply O.
    + apply Ev.
    + apply Ev.
    + rewrite Hd3. lia.
    + rewrite Hd3. intros p Hp. rewrite (low_slot sb) by (done || lia || dlia).
      revert p Hp. eapply written_holes; [exact Wr|apply O|lia|lia].
  - intros p Hp. rewrite (low_content sb) by (done || lia). by apply (wr_content _ _ _ _ _ _ _ _ _ _ Wr).
  - rewrite setb_eq. by rewrite (L1 ib) by lia.
  - set_solver.
  - pose proof (size_add_le W1 ib). pose proof (wr_cost _ _ _ _ _ _ _ _ _ _ Wr). lia.
Qed.

(** writei() writes all of [bs] and updates the inode in memory and on disk. *)
Lemma writei_ok W B s src bs off :
  let n := Z.of_nat (length bs) in
  open_file me N s0 ip ino W B s → source_ok s0 me src bs → write_room W B off n →
  0 ≤ off ≤ i_size ino → off + n ≤ 268 * 1024 →
  wp (writei ip src off n) s (λ r s', r = n ∧ ∃ ino' W' B', write_post W B off bs ino' W' B' s').
Proof.
  intros n O Hsrc [HN Hsp] Ho Hl. pose proof (of_size _ _ _ _ _ _ _ _ O) as Hsz. unfold writei.
  pose proof (fstate_open W B s O) as S. pose proof (of_inode _ _ _ _ _ _ _ _ O) as Hip.
  pose proof (of_dev _ _ _ _ _ _ _ _ O) as Hdev. pose proof (of_inum _ _ _ _ _ _ _ _ O) as Hinum.
  eapply fs_inode_run; [exact Hip|exact S|]. rewrite set_addrs_id.
  rewrite (u32_small (off + n)) by lia. rewrite (proj2 (Z.ltb_ge _ off)), (proj2 (Z.ltb_ge _ off)) by lia.
  cbn [orb]. change (MAXFILE * BSIZE) with (268 * 1024). rewrite (proj2 (Z.ltb_ge _ _)) by lia.
  replace src with (source_add src 0) by apply Hsrc.
  eapply wp_seq.
  { eapply (writei_loop_ok (sb_bmapstart sb) Hip Hdev (io_fuel n) W B (i_addrs ino) s src bs off 0); try done;
      fold n; rewrite ?Z.sub_0_r; try done; try lia.
    unfold chunks, io_fuel. change BSIZE with 1024. pose proof (Z.mod_pos_bound off 1024 ltac:(lia)).
    destruct (Z.leb_spec n 0); [lia|]. dlia. }
  intros [tot off'] s1. fold n. rewrite Z.sub_0_r, drop_0. intros ([= -> ->] & W1 & B1 & addrs1 & S1 & Wr).
  eapply fs_inode_run; [exact Hip|exact S1|]. pose proof S1 as [T1 D1 F1].
  set (ino1 := set_addrs addrs1 ino) in *. set (ino' := set_isize (Z.max (i_size ino) (off + n)) ino1).
  assert (Hw : wp (when (i_size ino1 <? off + n) (upd_inode (Some ip) (set_isize (off + n)))) s1
    (λ _ s2, tx me N (with_inode ip ino' s0) W1 ∅ B1 s2)).
  { assert (Hx : k_itable s1 !! ip = Some ino1) by (by eapply fs_inode).
    change (i_size ino1) with (i_size ino). pose proof (set_isize_max ino1 (off + n)) as Em.
    change (i_size ino1) with (i_size ino) in Em. fold ino' in Em. destruct (i_size ino <? off + n); unfold when.
    - eapply wp_run; [by apply upd_inode_with|]. cbv beta. rewrite Em.
      apply (tx_with_inode _ _ _ _ _ _ _ ip ino') in T1. by rewrite with_inode_twice in T1.
    - apply wp_ret. by rewrite <-Em. }
  eapply wp_seq; [exact Hw|]. intros [] s2 T2. pose proof (wr_cost _ _ _ _ _ _ _ _ _ _ Wr).
  eapply wp_seq; [eapply (iupdate_ok _ _ _ _ _ _ ip ino' T2 D1); [by eapply with_inode_at|done|done|lia]|].
  intros [] s3 T3. apply wp_ret. split; [apply s32_small; lia|]. eexists ino', _, _.
  by eapply (writei_post _ W B off bs W1 B1 ino' s).
Qed.
End writei_ok.

(** ** readi() into a variable of the kernel *)

(** [n] bytes of the file at [off]. *)
Definition bytes_at (B : Z → list Z) (addrs : list Z) (off n : Z) : list Z := content B addrs <$> seqZ off n.

Lemma length_bytes_at B addrs off n : length (bytes_at B addrs off n) = Z.to_nat n.
Proof. unfold bytes_at. by rewrite length_fmap, length_seqZ. Qed.

Lemma lookup_bytes_at B addrs off n k :
  (k < Z.to_nat n)%nat → bytes_at B addrs off n !! k = Some (content B addrs (off + Z.of_nat k)).
Proof. intros H. unfold bytes_at. rewrite list_lookup_fmap, lookup_seqZ_lt by lia. done. Qed.

Lemma bytes_at_app B addrs off n m :
  0 ≤ n → 0 ≤ m → bytes_at B addrs off (n + m) = bytes_at B addrs off n ++ bytes_at B addrs (off + n) m.
Proof. intros. unfold bytes_at. by rewrite seqZ_app, fmap_app. Qed.

Lemma bytes_at_ext B addrs B' addrs' off n :
  (∀ p, off ≤ p < off + n → content B' addrs' p = content B addrs p) →
  bytes_at B' addrs' off n = bytes_at B addrs off n.
Proof.
  intros H. unfold bytes_at. apply list_fmap_ext. intros i p Hp%list_elem_of_lookup_2%elem_of_seqZ. by apply H.
Qed.

(** Inside one block. *)
Lemma slice_bytes_at B addrs off m :
  0 ≤ off → 0 ≤ m → off mod 1024 + m ≤ 1024 → fslot B addrs (off / 1024) ≠ 0 →
  length (B (fslot B addrs (off / 1024))) = BNAT →
  slice (B (fslot B addrs (off / 1024))) (Z.to_nat (off mod 1024)) (Z.to_nat m) = bytes_at B addrs off m.
Proof.
  intros Ho Hm Hl Hs Hlen. pose proof (Z.mod_pos_bound off 1024 ltac:(lia)). apply list_eq. intros k.
  rewrite lookup_slice. case_decide as Hk.
  - rewrite lookup_bytes_at by done. unfold content.
    assert ((off + Z.of_nat k) / 1024 = off / 1024) as -> by dlia.
    assert ((off + Z.of_nat k) mod 1024 = off mod 1024 + Z.of_nat k) as -> by dlia.
    rewrite (proj2 (Z.eqb_neq _ 0)) by done. rewrite Z2Nat.inj_add, Nat2Z.id by lia.
    apply list_lookup_lookup_total_lt. rewrite Hlen. change BNAT with 1024%nat. lia.
  - symmetry. apply lookup_ge_None_2. rewrite length_bytes_at. lia.
Qed.

Section readi_local.
Context {L : Layout}.
Context {me : proc} {N : nat} {s0 : kstate} {ip : nat} {ino : inode}.
Implicit Types (W : gset Z) (B : Z → list Z).

Lemma open_file_tx W B s s' :
  open_file me N s0 ip ino W B s → tx me N s0 W ∅ B s' → open_file me N s0 ip ino W B s'.
Proof. intros [H1 H2 H3 H4 H5 H6 H7 H8] T. by split. Qed.

Lemma readi_loop_local fuel W B s off n tot acc :
  open_file me N s0 ip ino W B s → 0 ≤ tot ≤ n → 0 ≤ off → off + (n - tot) ≤ i_size ino → n < 2147483648 →
  (chunks off (n - tot) ≤ fuel)%nat →
  wp (readi_loop fuel ip ToLocal off n tot acc) s (λ r s',
    r = (n, acc ++ bytes_at B (i_addrs ino) off (n - tot)) ∧ open_file me N s0 ip ino W B s').
Proof.
  revert s off tot acc. induction fuel as [|fuel IH]; intros s off tot acc O Ht Ho Hend Hn Hf;
    (destruct (decide (tot = n)) as [->|Hne];
      [cbn [readi_loop]; rewrite Z.ltb_irrefl; cbn [negb]; apply wp_ret; rewrite Z.sub_diag, s32_small by lia;
       split; [by rewrite app_nil_r|done]|]).
  { unfold chunks in Hf. rewrite (proj2 (Z.leb_gt _ _)) in Hf by lia. pose proof (Z.mod_pos_bound off 1024 ltac:(lia)).
    assert (1 ≤ (off mod 1024 + (n - tot) + 1023) / 1024) by dlia. lia. }
  pose proof (of_size _ _ _ _ _ _ _ _ O) as Hsz. pose proof (fstate_open W B s O) as S.
  pose proof (of_inode _ _ _ _ _ _ _ _ O) as Hip. pose proof (of_dev _ _ _ _ _ _ _ _ O) as Hdev.
  cbn [readi_loop]. rewrite (proj2 (Z.ltb_lt _ _)) by lia. cbn [negb].
  eapply fs_inode_run; [exact Hip|exact S|]. rewrite set_addrs_id, Hdev. change BSIZE with 1024.
  set (m := io_chunk n tot off). pose proof (Z.mod_pos_bound off 1024 ltac:(lia)) as Hmod.
  assert (Hm : m = Z.min (n - tot) (1024 - off mod 1024)).
  { unfold m, io_chunk. rewrite u32_small by lia. change BSIZE with 1024. case_match; lia. }
  pose proof (chunks_step off (n - tot) m Ho ltac:(lia) Hm) as Ec. rewrite Ec in *.
  assert (Hs : fslot B (i_addrs ino) (off / 1024) ≠ 0) by (apply (of_holes _ _ _ _ _ _ _ _ O); lia).
  eapply wp_seq; [eapply (bmap_present_ok Hip Hdev); [exact S|dlia|exact Hs]|].
  intros a s1 [-> S1]. pose proof S1 as [T1 D1 F1]. rewrite set_addrs_id, with_inode_id in T1 by done.
  eapply wp_seq; [eapply tx_bread; [exact T1|rewrite map_size_empty; lia|by intros j ?%lookup_empty_Some]|].
  intros b s2 [Hb T2]. destruct (tx_buf _ _ _ _ _ _ T2 (lookup_insert_eq _ _ _)) as (x & Ex & Hx & _).
  eapply wp_run_seq; [exact Ex|]. cbv beta zeta. rewrite Hx.
  rewrite slice_bytes_at by (done || lia || apply D1). set (out := bytes_at B (i_addrs ino) off m).
  eapply wp_run_seq; [reflexivity|]. cbv beta. change (0 =? -1) with false. cbv iota.
  eapply wp_seq; [eapply tx_brelse; [exact T2|apply lookup_insert_eq]|].
  intros [] s3. rewrite delete_insert_id by done. intros T3. cbn [dest_add]. rewrite !u32_small by lia.
  replace (n - tot - m) with (n - (tot + m)) in * by lia.
  eapply wp_mono; [eapply (IH s3 (off + m) (tot + m)); [by eapply open_file_tx|lia|lia|lia|done|lia]|].
  intros r s' [-> O']. split; [|done]. f_equal. rewrite <-app_assoc. f_equal. unfold out.
  rewrite <-bytes_at_app by lia. f_equal. lia.
Qed.

(** readi() delivers the contents up to the end of the file. *)
Lemma readi_local_ok W B s off n :
  open_file me N s0 ip ino W B s → 0 ≤ off ≤ i_size ino → 0 ≤ n < 2147483648 →
  let m := Z.min n (i_size ino - off) in
  wp (readi ip ToLocal off n) s (λ r s',
    r = (m, bytes_at B (i_addrs ino) off m) ∧ open_file me N s0 ip ino W B s').
Proof.
  intros O Ho Hn m. pose proof (of_size _ _ _ _ _ _ _ _ O) as Hsz. unfold readi.
  eapply wp_run_seq; [apply inode_at_run; rewrite (tx_itable _ _ _ _ _ _ _ (of_tx _ _ _ _ _ _ _ _ O)); apply O|].
  cbv beta. rewrite u32_small by lia. rewrite !(proj2 (Z.ltb_ge _ off)) by lia. cbn [orb].
  assert (Em : (if i_size ino <? off + n then u32 (i_size ino - off) else n) = m).
  { unfold m. destruct (Z.ltb_spec (i_size ino) (off + n)); [rewrite u32_small by lia|]; lia. }
  rewrite Em. eapply wp_mono; [eapply (readi_loop_local _ W B s off m 0 []); [done|lia|lia|lia|lia|]|].
  - unfold chunks, io_fuel. change BSIZE with 1024. pose proof (Z.mod_pos_bound off 1024 ltac:(lia)).
    destruct (Z.leb_spec (m - 0) 0); [lia|]. dlia.
  - intros r s' [-> O']. by rewrite Z.sub_0_r.
Qed.
End readi_local.
