(* ===== verification/Dir.v ===== *)
(** Directories of kernel/fs.c: dirlookup() and dirlink() implement a finite
    map from names to inode numbers, kept as a list of entries in the contents
    of a file; and path names, which skipelem() splits at their slashes. *)

From S2P Require Import Prelude Riscv Kstate Mem Kalloc Vm Sched Bytes Bio BioSpec BioOps Log Fs FsTx Balloc Bmap Writei.

(** ** The entries of a directory *)

(** The entry at offset [16 * k], and the first [n] entries. *)
Definition dent (B : Z → list Z) (addrs : list Z) (k : Z) : list Z := bytes_at B addrs (16 * k) 16.
Definition dents (B : Z → list Z) (addrs : list Z) (k n : Z) : list (list Z) := dent B addrs <$> seqZ k n.

(** The part of a name that a directory entry can hold. *)
Definition dname (name : list Z) : list Z := take DIRSIZ (cstr name).

(** The entry with name [name]: its inode number and its offset. *)
Fixpoint dir_find (name : list Z) (es : list (list Z)) (off : Z) : option (Z * Z) :=
  match es with
  | [] => None
  | de :: es =>
      if decide (de_inum de ≠ 0 ∧ dname name = dname (de_name de)) then Some (de_inum de, off)
      else dir_find name es (off + 16)
  end.

(** The first free entry, or the end of the directory. *)
Fixpoint dir_free (es : list (list Z)) (k : nat) : nat :=
  match es with
  | [] => k
  | de :: es => if decide (de_inum de = 0) then k else dir_free es (S k)
  end.

Lemma namecmp_spec name de : namecmp name de = 0 ↔ dname name = dname de.
Proof. apply strncmp_spec. Qed.

Definition new_dent (name : list Z) (inum : Z) : list Z := le_bytes 2 inum ++ strncpy name DIRSIZ.

Lemma length_new_dent name inum : length (new_dent name inum) = 16%nat.
Proof. unfold new_dent. by rewrite length_app, length_le_bytes, length_strncpy. Qed.

Lemma new_dent_inum name inum : 0 ≤ inum < 65536 → de_inum (new_dent name inum) = inum.
Proof.
  intros H. unfold de_inum, get16, get_le, new_dent, slice. rewrite drop_0, take_app_length' by (by rewrite length_le_bytes).
  rewrite le_val_bytes. by apply Z.mod_small.
Qed.

Lemma new_dent_name name inum : dname (de_name (new_dent name inum)) = dname name.
Proof.
  unfold de_name, new_dent, slice. rewrite drop_app_length' by (by rewrite length_le_bytes).
  rewrite take_ge by (by rewrite length_strncpy). unfold dname. rewrite cstr_strncpy. by rewrite take_take, Nat.min_id.
Qed.

Lemma dir_find_app name es1 es2 off :
  dir_find name (es1 ++ es2) off =
  match dir_find name es1 off with
  | Some r => Some r
  | None => dir_find name es2 (off + 16 * Z.of_nat (length es1))
  end.
Proof.
  revert off. induction es1 as [|de es1 IH]; intros off; cbn [app dir_find length].
  - f_equal. lia.
  - case_decide; [done|]. rewrite IH. destruct (dir_find name es1 (off + 16)); [done|]. f_equal. lia.
Qed.

Lemma dir_free_spec es k :
  (k ≤ dir_free es k ≤ k + length es)%nat ∧
  (∀ j de, es !! j = Some de → (k + j < dir_free es k)%nat → de_inum de ≠ 0) ∧
  (∀ de, es !! (dir_free es k - k)%nat = Some de → de_inum de = 0).
Proof.
  revert k. induction es as [|de es IH]; intros k; cbn [dir_free length].
  - split; [lia|]. split; [done|]. by rewrite Nat.sub_diag.
  - case_decide as E.
    + split; [lia|]. split; [lia|]. rewrite Nat.sub_diag. by intros ? [= <-].
    + destruct (IH (S k)) as (H1 & H2 & H3). split; [lia|]. split.
      * intros [|j] de' Hj Hlt; [by injection Hj as <-|]. apply (H2 j de' Hj). lia.
      * replace (dir_free es (S k) - k)%nat with (S (dir_free es (S k) - S k)) by lia. exact H3.
Qed.

(** Putting a new entry at the first free place adds exactly that name. *)
Lemma dir_find_insert name inum es1 es2 old name' :
  0 < inum < 65536 → dir_find name (es1 ++ old ++ es2) 0 = None →
  (old = [] ∧ es2 = [] ∨ ∃ de, old = [de] ∧ de_inum de = 0) →
  dir_find name' (es1 ++ new_dent name inum :: es2) 0 =
  if decide (dname name' = dname name) then Some (inum, 16 * Z.of_nat (length es1))
  else dir_find name' (es1 ++ old ++ es2) 0.
Proof.
  intros Hi Hn Hold. rewrite !dir_find_app in *. destruct (dir_find name es1 0) eqn:E1; [done|].
  set (off := 0 + _) in *.
  assert (Hcut : ∀ n es o, dname n = dname name → dir_find n es o = dir_find name es o).
  { intros n es o En. revert o. induction es as [|de es IH]; intros o; simpl; [done|]. by rewrite En, IH. }
  cbn [dir_find]. rewrite new_dent_inum, new_dent_name by lia.
  destruct (decide (dname name' = dname name)) as [D|D].
  - rewrite (Hcut name' es1 0 D), E1, decide_True by (split; [lia|done]). do 2 f_equal.
  - destruct (dir_find name' es1 0); [done|]. rewrite decide_False by tauto.
    destruct Hold as [[-> ->]|(de & -> & H0)]; [done|]. cbn [dir_find length].
    by rewrite decide_False by tauto.
Qed.

(** ** iget() *)

Section iget.
Context {L : Layout}.

Lemma iget_scan_cached tbl i dev inum e j :
  iget_scan tbl i dev inum e = inl j → ∃ x, (i ≤ j)%nat ∧ tbl !! (j - i)%nat = Some x ∧ 0 < i_ref x ∧ i_dev x = dev ∧ i_inum x = inum.
Proof.
  revert i e. induction tbl as [|x tbl IH]; intros i e; cbn [iget_scan]; [done|].
  destruct (_ && _) eqn:E.
  - intros [= <-]. exists x. rewrite Nat.sub_diag. split; [lia|]. split; [done|]. lia.
  - intros (y & H1 & H2 & H3)%IH. exists y. split; [lia|]. split; [|done].
    by replace (j - i)%nat with (S (j - S i)) by lia.
Qed.

Lemma iget_scan_empty tbl i dev inum e j :
  iget_scan tbl i dev inum e = inr (Some j) → e = Some j ∨ ∃ x, (i ≤ j)%nat ∧ tbl !! (j - i)%nat = Some x ∧ i_ref x = 0.
Proof.
  revert i e. induction tbl as [|x tbl IH]; intros i e; cbn [iget_scan]; [intros [= <-]; by left|].
  destruct (_ && _) eqn:E; [done|]. intros [H|(y & H1 & H2 & H3)]%IH.
  - destruct e as [e|]; [by left|]. destruct (Z.eqb_spec (i_ref x) 0); [|done]. injection H as <-.
    right. exists x. rewrite Nat.sub_diag. by split.
  - right. exists y. split; [lia|]. split; [|done]. by replace (j - i)%nat with (S (j - S i)) by lia.
Qed.

(** iget() finds the inode in the table or takes a free entry for it. *)
Definition igot (dev inum : Z) (x x' : inode) : Prop :=
  (0 < i_ref x ∧ i_dev x = dev ∧ i_inum x = inum ∧ x' = set_iref (s32 (i_ref x + 1)) x) ∨
  (i_ref x = 0 ∧ x' = set_ivalid false (set_iref 1 (set_inum inum (set_idev dev x)))).

(** The table has the inode, or room for it. *)
Definition iget_room (tbl : list inode) (dev inum : Z) : Prop := iget_scan tbl 0 dev inum None ≠ inr None.

Lemma set_held_inode h ip x s : set_held h (with_inode ip x s) = with_inode ip x (set_held h s).
Proof. done. Qed.

Lemma iget_ok dev inum s :
  k_held s = ∅ → iget_room (k_itable s) dev inum →
  ∃ ip x x', iget dev inum s = Ok ip (with_inode ip x' s) ∧ k_itable s !! ip = Some x ∧ igot dev inum x x'.
Proof.
  intros Hh Hroom. unfold iget. rewrite (bind_ok _ _ _ _ _ (acquire_run L_itable s ltac:(by rewrite Hh))).
  rewrite Hh, (right_id_L ∅ (∪)), bind_gets. set (s1 := set_held {[L_itable]} s).
  change (k_itable s1) with (k_itable s). unfold iget_room in Hroom.
  assert (Hrel : ∀ ip x, release L_itable (with_inode ip x s1) = Ok tt (with_inode ip x s)).
  { intros ip x. rewrite release_run by (cbn; set_solver). do 2 f_equal. rewrite set_held_inode. f_equal.
    unfold s1. cbn [k_held with_inode set_itable set_held]. rewrite difference_diag_L. destruct s; cbn in *. by subst. }
  destruct (iget_scan (k_itable s) 0 dev inum None) as [ip|[ip|]] eqn:E; [| |done].
  - apply iget_scan_cached in E as (x & _ & Hx & Hr & Hd & Hi). rewrite Nat.sub_0_r in Hx.
    exists ip, x, (set_iref (s32 (i_ref x + 1)) x).
    rewrite (bind_ok _ _ _ _ _ (inode_at_run ip s1 x Hx)).
    rewrite (bind_ok _ _ _ _ _ (upd_inode_with ip x _ s1 Hx)).
    rewrite (bind_ok _ _ _ _ _ (Hrel _ _)). split; [done|]. split; [done|]. by left.
  - apply iget_scan_empty in E as [?|(x & _ & Hx & Hr)]; [done|]. rewrite Nat.sub_0_r in Hx.
    exists ip, x. eexists. 
    assert (Hin : ∀ y, k_itable (with_inode ip y s1) !! ip = Some y) by (intros y; by eapply with_inode_at).
    rewrite (bind_ok _ _ _ _ _ (upd_inode_with ip x _ s1 Hx)).
    do 3 (rewrite (bind_ok _ _ _ _ _ (upd_inode_with ip _ _ _ (Hin _))), with_inode_twice).
    rewrite (bind_ok _ _ _ _ _ (Hrel _ _)). split; [done|]. split; [done|]. by right.
Qed.
End iget.

(** ** dirlookup() and the scan of dirlink() *)

Section dir.
Context {L : Layout}.
Context {me : proc} {N : nat} {s0 : kstate} {dp : nat} {ino : inode}.
Implicit Types (W : gset Z) (B : Z → list Z).
Local Abbreviation open_file := (open_file me N s0 dp ino).
Local Abbreviation nents := (i_size ino / 16).

Lemma dents_cons B addrs k n : 0 < n → dents B addrs k n = dent B addrs k :: dents B addrs (k + 1) (n - 1).
Proof. intros Hn. unfold dents. rewrite seqZ_cons by done. cbn. do 3 f_equal; lia. Qed.

Lemma dents_nil B addrs k : dents B addrs k 0 = [].
Proof. done. Qed.

Lemma length_dents B addrs k n : length (dents B addrs k n) = Z.to_nat n.
Proof. unfold dents. by rewrite length_fmap, length_seqZ. Qed.

(** One entry read. *)
Lemma read_dent W B s k :
  open_file W B s → i_size ino mod 16 = 0 → 0 ≤ k < nents →
  wp (readi dp ToLocal (16 * k) DIRENT) s (λ r s', r = (DIRENT, dent B (i_addrs ino) k) ∧ open_file W B s').
Proof.
  intros O Hm Hk. eapply wp_mono; [eapply readi_local_ok; [exact O|dlia|by change DIRENT with 16]|].
  change DIRENT with 16. rewrite Z.min_l by dlia. intros r s' [-> O']. done.
Qed.

(** What a successful lookup of inode [inum] at [off] leaves. *)
Definition looked_up W B (inum off : Z) (r : option (nat * Z)) (s' : kstate) : Prop :=
  ∃ ip x x' s1, r = Some (ip, off) ∧ open_file W B s1 ∧ k_itable s0 !! ip = Some x ∧ igot ROOTDEV inum x x' ∧
    s' = with_inode ip x' s1.

Lemma dirlookup_loop_ok fuel W B s name k :
  open_file W B s → i_size ino mod 16 = 0 → (∀ inum, iget_room (k_itable s0) ROOTDEV inum) →
  0 ≤ k ≤ nents → (Z.to_nat (nents - k) ≤ fuel)%nat →
  wp (dirlookup_loop fuel dp name (16 * k)) s (λ r s',
    match dir_find name (dents B (i_addrs ino) k (nents - k)) (16 * k) with
    | None => r = None ∧ open_file W B s'
    | Some (inum, off) => looked_up W B inum off r s'
    end).
Proof.
  revert s k. induction fuel as [|fuel IH]; intros s k O Hm Hroom Hk Hf; cbn [dirlookup_loop];
    (eapply wp_run_seq; [apply inode_at_run; rewrite (tx_itable _ _ _ _ _ _ _ (of_tx _ _ _ _ _ _ _ _ O)); apply O|]);
    cbv beta; (destruct (decide (k = nents)) as [->|Hne];
      [rewrite (proj2 (Z.ltb_ge _ _)) by dlia; cbn [negb]; apply wp_ret; by rewrite Z.sub_diag|]); [lia|].
  rewrite (proj2 (Z.ltb_lt _ _)) by dlia. cbn [negb].
  eapply wp_seq; [apply read_dent; [exact O|done|lia]|]. intros r s1 [-> O1]. cbv beta iota.
  rewrite Z.eqb_refl. cbn [negb]. rewrite dents_cons by lia. set (de := dent B (i_addrs ino) k). cbn [dir_find].
  pose proof (of_size _ _ _ _ _ _ _ _ O) as Hsz.
  assert (Hnext : wp (dirlookup_loop fuel dp name (u32 (16 * k + DIRENT))) s1 (λ r s',
    match dir_find name (dents B (i_addrs ino) (k + 1) (nents - k - 1)) (16 * k + 16) with
    | None => r = None ∧ open_file W B s'
    | Some (inum, off) => looked_up W B inum off r s'
    end)).
  { change DIRENT with 16. rewrite u32_small by dlia. replace (16 * k + 16) with (16 * (k + 1)) by lia.
    replace (nents - k - 1) with (nents - (k + 1)) by lia. apply IH; try done; lia. }
  destruct (Z.eqb_spec (de_inum de) 0) as [E0|E0]; [rewrite decide_False by tauto; exact Hnext|].
  destruct (Z.eqb_spec (namecmp name (de_name de)) 0) as [En%namecmp_spec|En]; cycle 1.
  { rewrite decide_False; [exact Hnext|]. by rewrite namecmp_spec in En; intros [_ ?]. }
  rewrite decide_True by done. rewrite (of_dev _ _ _ _ _ _ _ _ O).
  destruct (iget_ok ROOTDEV (de_inum de) s1) as (ip & x & x' & Ei & Hx & Hg).
  { eapply rd_held, tx_ready, O1. } { rewrite (tx_itable _ _ _ _ _ _ _ (of_tx _ _ _ _ _ _ _ _ O1)). apply Hroom. }
  rewrite (tx_itable _ _ _ _ _ _ _ (of_tx _ _ _ _ _ _ _ _ O1)) in Hx.
  eapply wp_run_seq; [exact Ei|]. apply wp_ret. exists ip, x, x', s1. done.
Qed.

(** dirlookup() finds the first entry with the name. *)
Lemma dirlookup_ok W B s name :
  open_file W B s → i_type ino = T_DIR → i_size ino mod 16 = 0 → (∀ inum, iget_room (k_itable s0) ROOTDEV inum) →
  wp (dirlookup dp name) s (λ r s',
    match dir_find name (dents B (i_addrs ino) 0 nents) 0 with
    | None => r = None ∧ open_file W B s'
    | Some (inum, off) => looked_up W B inum off r s'
    end).
Proof.
  intros O Ht Hm Hroom. unfold dirlookup.
  eapply wp_run_seq; [apply inode_at_run; rewrite (tx_itable _ _ _ _ _ _ _ (of_tx _ _ _ _ _ _ _ _ O)); apply O|].
  cbv beta. rewrite Ht. cbn [negb Z.eqb T_DIR]. pose proof (of_size _ _ _ _ _ _ _ _ O) as Hsz.
  eapply wp_mono; [eapply (dirlookup_loop_ok _ W B s name 0); try done; [dlia|]|].
  - unfold dir_fuel. change DIRENT with 16. lia.
  - intros r s'. rewrite Z.sub_0_r. by rewrite Z.mul_0_r.
Qed.

Lemma dirlink_loop_ok fuel W B s k :
  open_file W B s → i_size ino mod 16 = 0 → 0 ≤ k ≤ nents → (Z.to_nat (nents - k) ≤ fuel)%nat →
  wp (dirlink_loop fuel dp (16 * k)) s (λ r s',
    r = 16 * Z.of_nat (dir_free (dents B (i_addrs ino) k (nents - k)) (Z.to_nat k)) ∧ open_file W B s').
Proof.
  revert s k. induction fuel as [|fuel IH]; intros s k O Hm Hk Hf; cbn [dirlink_loop];
    (eapply wp_run_seq; [apply inode_at_run; rewrite (tx_itable _ _ _ _ _ _ _ (of_tx _ _ _ _ _ _ _ _ O)); apply O|]);
    cbv beta; (destruct (decide (k = nents)) as [->|Hne];
      [rewrite (proj2 (Z.ltb_ge _ _)) by dlia; cbn [negb]; apply wp_ret; rewrite Z.sub_diag, dents_nil; cbn [dir_free]; split; [lia|done]|]); [lia|].
  rewrite (proj2 (Z.ltb_lt _ _)) by dlia. cbn [negb].
  eapply wp_seq; [apply read_dent; [exact O|done|lia]|]. intros r s1 [-> O1]. cbv beta iota.
  rewrite Z.eqb_refl. cbn [negb]. rewrite dents_cons by lia. cbn [dir_free].
  destruct (Z.eqb_spec (de_inum (dent B (i_addrs ino) k)) 0) as [E0|E0].
  - rewrite decide_True by done. apply wp_ret. split; [lia|done].
  - rewrite decide_False by done. change DIRENT with 16. replace (16 * k + 16) with (16 * (k + 1)) by lia.
    replace (nents - k - 1) with (nents - (k + 1)) by lia. replace (S (Z.to_nat k)) with (Z.to_nat (k + 1)) by lia.
    apply IH; try done; lia.
Qed.

(** ** dirlink() *)

Lemma chunks_dent k : chunks (16 * k) 16 = 1%nat.
Proof. unfold chunks. cbn [Z.leb Z.compare]. assert ((16 * k) mod 1024 + 16 ≤ 1024) by dlia. pose proof (Z.mod_pos_bound (16 * k) 1024 ltac:(lia)). dlia. Qed.

Lemma lookup_dents B addrs n j :
  dents B addrs 0 n !! j = if decide (Z.of_nat j < n) then Some (dent B addrs (Z.of_nat j)) else None.
Proof.
  unfold dents. rewrite list_lookup_fmap. case_decide.
  - by rewrite lookup_seqZ_lt by lia.
  - by rewrite lookup_seqZ_ge by lia.
Qed.

(** The entries after 16 bytes have been overwritten at entry [k]. *)
Lemma dents_write B addrs B' addrs' n k de :
  0 ≤ n → (k ≤ Z.to_nat n)%nat → 16 * (n + 1) ≤ 268 * 1024 → length de = 16%nat →
  (∀ p, 0 ≤ p < 268 * 1024 → content B' addrs' p = overwrite (content B addrs) (16 * Z.of_nat k) de p) →
  let es := dents B addrs 0 n in
  dents B' addrs' 0 (Z.max n (Z.of_nat k + 1)) = take k es ++ de :: drop (S k) es.
Proof.
  intros Hn Hk Hl Hde Hc es.
  assert (Hd : ∀ j, 0 ≤ j ≤ n → dent B' addrs' j = if decide (j = Z.of_nat k) then de else dent B addrs j).
  { intros j Hj. apply list_eq. intros i. unfold dent. destruct (decide (i < 16)%nat).
    - rewrite lookup_bytes_at, Hc by lia. unfold overwrite. rewrite Hde. repeat case_decide; try lia.
      + replace (Z.to_nat (16 * j + Z.of_nat i - 16 * Z.of_nat k)) with i by lia.
        symmetry. apply list_lookup_lookup_total_lt. lia.
      + by rewrite lookup_bytes_at by lia.
    - rewrite lookup_ge_None_2 by (rewrite length_bytes_at; lia). symmetry. apply lookup_ge_None_2.
      case_decide; [lia|]. rewrite length_bytes_at. lia. }
  assert (Hles : length es = Z.to_nat n) by apply length_dents.
  apply list_eq. intros j. rewrite lookup_dents. destruct (decide (j < k)%nat) as [Hj|Hj].
  - rewrite decide_True by lia. rewrite lookup_app_l by (rewrite length_take; lia).
    rewrite lookup_take_lt by done. unfold es. rewrite lookup_dents, decide_True, Hd, decide_False by lia. done.
  - rewrite lookup_app_r by (rewrite length_take; lia). rewrite length_take, Nat.min_l by lia.
    destruct (decide (j = k)) as [->|Hne].
    + rewrite decide_True, Nat.sub_diag, Hd, decide_True by lia. done.
    + replace (j - k)%nat with (S (j - S k)) by lia. cbn [lookup list_lookup]. change (_ !! _) with (drop (S k) es !! (j - S k)%nat) at 1.
      rewrite lookup_drop. replace (S k + (j - S k))%nat with j by lia. unfold es. rewrite lookup_dents.
      repeat case_decide; try lia; [|done]. rewrite Hd, decide_False by lia. done.
Qed.

(** dirlink() of a new name adds the entry and leaves the other names alone. *)
Lemma dirlink_ok W B s name inum :
  open_file W B s → i_type ino = T_DIR → i_size ino mod 16 = 0 → (∀ i, iget_room (k_itable s0) ROOTDEV i) →
  0 < inum < 65536 → i_size ino + 16 ≤ 268 * 1024 →
  (size W + ipot W (i_addrs ino) + 2 < N)%nat → spare (io_sb (k_io s0)) B (jpot (i_addrs ino) + 1) →
  let es := dents B (i_addrs ino) 0 nents in
  dir_find name es 0 = None →
  wp (dirlink dp name inum) s (λ r s', r = 0 ∧ ∃ ino' W' B',
    Writei.open_file me N (with_inode dp ino' s0) dp ino' W' B' s' ∧
    ino' = set_isize (i_size ino') (set_addrs (i_addrs ino') ino) ∧ i_size ino' mod 16 = 0 ∧
    evolves (io_sb (k_io s0)) (IBLOCK (i_inum ino) (io_sb (k_io s0))) B (i_addrs ino) B' (i_addrs ino') ∧
    ∀ name', dir_find name' (dents B' (i_addrs ino') 0 (i_size ino' / 16)) 0 =
      if decide (dname name' = dname name) then Some (inum, 16 * Z.of_nat (dir_free es 0))
      else dir_find name' es 0).
Proof.
  intros O Ht Hm Hroom Hi Hsz HN Hsp es Hnone. unfold dirlink.
  pose proof (of_size _ _ _ _ _ _ _ _ O) as Hs0.
  eapply wp_seq; [by apply dirlookup_ok|]. cbv beta. fold es. rewrite Hnone. intros r s1 [-> O1]. cbv iota.
  eapply wp_run_seq; [apply inode_at_run; rewrite (tx_itable _ _ _ _ _ _ _ (of_tx _ _ _ _ _ _ _ _ O1)); apply O1|].
  cbv beta. eapply wp_seq; [eapply (dirlink_loop_ok _ W B s1 0); [done|done|dlia|]|].
  { unfold dir_fuel. change DIRENT with 16. lia. }
  rewrite Z.sub_0_r. fold es. change (Z.to_nat 0) with 0%nat. set (k := dir_free es 0). intros r s2 [-> O2].
  destruct (dir_free_spec es 0) as (Hk1 & _ & Hk3). fold k in Hk1, Hk3. rewrite Nat.sub_0_r in Hk3.
  assert (Hles : length es = Z.to_nat nents) by apply length_dents. rewrite Hles in Hk1. simpl in Hk1.
  fold (new_dent name inum). change DIRENT with (Z.of_nat 16).
  rewrite <-(length_new_dent name inum). 
  eapply wp_seq; [eapply (writei_ok W B s2 (FromLocal (new_dent name inum)) (new_dent name inum)); [exact O2|apply source_ok_local| |dlia|]|].
  { rewrite length_new_dent. unfold write_room. change (Z.of_nat 16) with 16. rewrite chunks_dent. split; [lia|done]. }
  { rewrite length_new_dent. dlia. }
  intros r s3 (-> & ino' & W' & B' & [P1 P2 P3 P4 P5 P6 P7]). rewrite Z.eqb_refl. cbn [negb].
  apply wp_ret. split; [done|]. exists ino', W', B'. rewrite length_new_dent in P4. change (Z.of_nat 16) with 16 in P4.
  assert (Em : i_size ino' = Z.max (i_size ino) (16 * Z.of_nat k + 16)) by by rewrite P4.
  assert (Esz : i_size ino' = 16 * Z.max nents (Z.of_nat k + 1)) by (rewrite Em; dlia).
  split; [done|]. split; [by rewrite Em|]. split; [rewrite Esz; dlia|]. split; [done|]. intros name'.
  replace (i_size ino' / 16) with (Z.max nents (Z.of_nat k + 1)) by (rewrite Esz; dlia).
  rewrite (dents_write B (i_addrs ino) B' (i_addrs ino') nents k (new_dent name inum));
    [|dlia|lia|dlia|apply length_new_dent|exact P3]. fold es.
  assert (Hl1 : length (take k es) = k) by (rewrite length_take; lia).
  destruct (es !! k) as [old|] eqn:Ek.
  - assert (Ees : es = take k es ++ [old] ++ drop (S k) es) by by apply lookup_split.
    rewrite (dir_find_insert name inum _ _ [old]); [|done|by rewrite <-Ees|right; exists old; split; [done|by apply Hk3]].
    rewrite Hl1. by rewrite <-Ees.
  - apply lookup_ge_None in Ek. assert (Ees : es = take k es ++ [] ++ drop (S k) es).
    { rewrite take_ge, drop_ge by lia. by rewrite !app_nil_r. }
    rewrite (dir_find_insert name inum _ _ []); [|done|by rewrite <-Ees|left; split; [done|apply drop_ge; lia]].
    rewrite Hl1. by rewrite <-Ees.
Qed.
End dir.

(** ** Path names

    skipelem(), iterated as namex() iterates it, splits a path at its slashes. *)

Section path.
Context {L : Layout}.

(** ** The specification *)

(** The non-empty pieces of [l] between slashes, [cur] being the piece read so
    far. *)
Fixpoint components (cur l : list Z) : list (list Z) :=
  match l with
  | [] => match cur with [] => [] | _ => [cur] end
  | c :: l =>
      if c =? SLASH then match cur with [] => components [] l | _ => cur :: components [] l end
      else components (cur ++ [c]) l
  end.

(** The bytes skipelem() stores for element [e]: DIRSIZ of them, or all and a
    terminating NUL. *)
Definition elem_name (e : list Z) : list Z := if Nat.leb DIRSIZ (length e) then take DIRSIZ e else e ++ [0].

(** The names the loop [while((path = skipelem(path, name)) != 0)] visits. *)
Fixpoint skipelems (fuel : nat) (path : list Z) : option (list (list Z)) :=
  match skipelem path with
  | None => Some []
  | Some (name, rest) =>
      match fuel with
      | O => None
      | S fuel => cons name <$> skipelems fuel rest
      end
  end.

(** ** One element *)

Lemma skip_slashes_hd p : hd 0 (skip_slashes p) ≠ SLASH.
Proof. induction p as [|c p IH]; cbn; [done|]. destruct (Z.eqb_spec c SLASH); [exact IH|done]. Qed.

Lemma skip_slashes_length p : (length (skip_slashes p) ≤ length p)%nat.
Proof. induction p as [|c p IH]; cbn; [done|]. destruct (c =? SLASH); cbn; lia. Qed.

Lemma components_skip p : components [] (cstr (skip_slashes p)) = components [] (cstr p).
Proof.
  induction p as [|c p IH]; cbn [skip_slashes]; [done|]. destruct (Z.eqb_spec c SLASH) as [->|]; [|done].
  rewrite IH. done.
Qed.

Lemma path_elem_spec p e rest :
  path_elem p = (e, rest) →
  cstr p = e ++ cstr rest ∧ Forall (λ c, c ≠ SLASH) e ∧ (hd 0 rest = SLASH ∨ hd 0 rest = 0) ∧
  (length p = length e + length rest)%nat ∧ (hd 0 p ≠ SLASH → hd 0 p ≠ 0 → e ≠ []).
Proof.
  revert e. induction p as [|c p IH]; intros e; cbn [path_elem].
  - intros [= <- <-]. split_and!; try done. by right.
  - destruct (Z.eqb_spec c SLASH) as [->|Hs]; [|destruct (Z.eqb_spec c 0) as [->|H0]]; cbn [orb].
    + intros [= <- <-]. split_and!; try done. by left.
    + intros [= <- <-]. split_and!; try done. by right.
    + destruct (path_elem p) as [e' rest'] eqn:E. intros [= <- <-].
      destruct (IH e' eq_refl) as (H1 & H2 & H3 & H4 & _). cbn [cstr]. rewrite (proj2 (Z.eqb_neq c 0)) by done.
      split_and!; [by rewrite H1|by constructor|done|cbn; lia|done].
Qed.

Lemma components_word cur e l : Forall (λ c, c ≠ SLASH) e → components cur (e ++ l) = components (cur ++ e) l.
Proof.
  intros H. revert cur. induction H as [|c e Hc _ IH]; intros cur; cbn; [by rewrite app_nil_r|].
  rewrite (proj2 (Z.eqb_neq _ _)) by done. by rewrite IH, <-app_assoc.
Qed.

Lemma components_end e rest :
  e ≠ [] → hd 0 rest = SLASH ∨ hd 0 rest = 0 → components e (cstr rest) = e :: components [] (cstr (skip_slashes rest)).
Proof.
  intros He Hr. destruct e as [|c e]; [done|]. destruct rest as [|r rest]; [done|]. cbn [hd] in Hr.
  destruct Hr as [->| ->]; [|done]. cbn [skip_slashes]. rewrite Z.eqb_refl. rewrite components_skip. done.
Qed.

(** skipelem() takes the first component off the path. *)
Lemma skipelem_spec path :
  match skipelem path with
  | None => components [] (cstr path) = []
  | Some (name, rest) =>
      ∃ e, components [] (cstr path) = e :: components [] (cstr rest) ∧ name = elem_name e ∧
        (length rest < length path)%nat
  end.
Proof.
  unfold skipelem. pose proof (components_skip path) as Es. pose proof (skip_slashes_hd path) as Hh.
  pose proof (skip_slashes_length path) as Hl. set (p := skip_slashes path) in *.
  destruct (Z.eqb_spec (hd 0 p) 0) as [H0|H0].
  - rewrite <-Es. rewrite cstr_hd, H0. done.
  - destruct (path_elem p) as [e rest] eqn:E. destruct (path_elem_spec p e rest E) as (H1 & H2 & H3 & H4 & H5).
    specialize (H5 Hh H0). exists e. rewrite <-Es, H1, components_word by done. cbn [app].
    rewrite components_end by done. split; [done|]. split; [done|].
    pose proof (skip_slashes_length rest). destruct e; [done|]. cbn in H4. lia.
Qed.

(** Walking a path with skipelem() terminates and visits exactly the
    components of the path between its slashes, up to the first NUL, each cut
    to DIRSIZ bytes; the length of the path bounds the number of steps. *)
Theorem skipelem_splits path :
  skipelems (length path) path = Some (elem_name <$> components [] (cstr path)).
Proof.
  assert (G : ∀ n p, (length p ≤ n)%nat → skipelems n p = Some (elem_name <$> components [] (cstr p))).
  { induction n as [|n IH]; intros p Hn; cbn [skipelems]; pose proof (skipelem_spec p) as H;
      (destruct (skipelem p) as [[name rest]|]; [|by rewrite H]); destruct H as (e & H1 & -> & H3); [lia|].
    rewrite IH by lia. by rewrite H1. }
  by apply G.
Qed.
End path.

(** "//a/bcdefghijklmnopq/" *)
Example skipelem_splits_example :
  skipelems 30 [47; 47; 97; 47; 98; 99; 100; 101; 102; 103; 104; 105; 106; 107; 108; 109; 110; 111; 112; 113; 47] =
  Some [[97; 0]; [98; 99; 100; 101; 102; 103; 104; 105; 106; 107; 108; 109; 110; 111]].
Proof. reflexivity. Qed.
