(* ===== verification/Inode.v ===== *)
(** Inodes on disk and in memory: the layout of struct dinode, iupdate() and
    ilock() of kernel/fs.c. *)

From S2P Require Import Prelude Riscv Kstate Mem Kalloc Vm Sched Bytes Bio BioSpec BioOps Log Fs PageFault FsTx Balloc Bmap Writei.

(** ** struct dinode *)

(** The fields of an inode fit their types on disk. *)
Record dinode_fits (x : inode) : Prop := {
  df_type : -32768 ≤ i_type x < 32768;
  df_major : -32768 ≤ i_major x < 32768;
  df_minor : -32768 ≤ i_minor x < 32768;
  df_nlink : -32768 ≤ i_nlink x < 32768;
  df_size : 0 ≤ i_size x < 4294967296;
  df_len : length (i_addrs x) = 13%nat;
  df_addrs : Forall (λ a, 0 ≤ a < 4294967296) (i_addrs x);
}.

Lemma s16_mod x : -32768 ≤ x < 32768 → s16 (x mod 65536) = x.
Proof.
  intros H. unfold s16, sext, wrap. change (2 ^ 16) with 65536. change (2 ^ (16 - 1)) with 32768.
  rewrite Z.mod_mod by lia. destruct (Z.ltb_spec (x mod 65536) 32768); dlia.
Qed.

(** Fields stored one after the other. *)
Lemma get_put_addrs_before n d off a o :
  (off + 4 * length a ≤ length d)%nat → (o + n ≤ off)%nat → get_le n (put_addrs d off a) o = get_le n d o.
Proof.
  revert d off. induction a as [|v a IH]; intros d off Hl Ho; cbn [put_addrs length] in *; [done|].
  unfold put32. rewrite IH by (rewrite ?length_put by lia; lia). apply get_put_ne; lia.
Qed.

Lemma get_put_addrs d off a i v :
  (off + 4 * length a ≤ length d)%nat → Forall (λ a, 0 ≤ a < 4294967296) a → a !! i = Some v →
  get32 (put_addrs d off a) (off + 4 * i) = v.
Proof.
  revert d off i. induction a as [|w a IH]; intros d off i Hl Hf Hi; [done|]. cbn [put_addrs length] in *.
  apply Forall_cons in Hf as [Hw Hf]. destruct i as [|i]; cbn in Hi.
  - injection Hi as ->. unfold get32, put32. rewrite Nat.add_0_r.
    rewrite get_put_addrs_before by (rewrite ?length_put by lia; lia). rewrite get_put_same by lia.
    by apply Z.mod_small.
  - replace (off + 4 * S i)%nat with (off + 4 + 4 * i)%nat by lia. apply IH; [|done|done].
    unfold put32. rewrite length_put by lia. lia.
Qed.

Lemma get_addrs_put d off a :
  length a = 13%nat → Forall (λ a, 0 ≤ a < 4294967296) a → (off + 12 + 52 ≤ length d)%nat →
  get_addrs (put_addrs d (off + 12) a) off = a.
Proof.
  intros Hl Hf Ho. unfold get_addrs. apply list_eq. intros i.
  change (map ?f ?l) with (f <$> l). rewrite list_lookup_fmap. destruct (decide (i < 13)%nat) as [Hi|Hi].
  - rewrite lookup_seq_lt by done. destruct (lookup_is_Some a i ltac:(lia)) as [v Hv]. rewrite Hv. cbn [fmap option_fmap option_map].
    f_equal. apply (get_put_addrs d (off + 12)); [lia|done|done].
  - rewrite lookup_seq_ge by lia. by rewrite lookup_ge_None_2 by lia.
Qed.

(** Loading what was stored: the on-disk fields of [x], the rest of [y]. *)
Definition loaded (x y : inode) : inode :=
  Inode (i_dev y) (i_inum y) (i_ref y) (i_lock y) (i_valid y)
    (i_type x) (i_major x) (i_minor x) (i_nlink x) (i_size x) (i_addrs x).

Lemma get_put_dinode d off x y :
  dinode_fits x → (off + 64 ≤ length d)%nat → get_dinode (put_dinode d off x) off y = loaded x y.
Proof.
  intros [H1 H2 H3 H4 H5 H6 H7] Hl. unfold get_dinode, put_dinode, loaded, get16, put16, get32, put32.
  set (d1 := put_le 2 d off _). assert (L1 : length d1 = length d) by (apply length_put; lia).
  set (d2 := put_le 2 d1 _ _). assert (L2 : length d2 = length d) by (rewrite <-L1; apply length_put; lia).
  set (d3 := put_le 2 d2 _ _). assert (L3 : length d3 = length d) by (rewrite <-L2; apply length_put; lia).
  set (d4 := put_le 2 d3 _ _). assert (L4 : length d4 = length d) by (rewrite <-L3; apply length_put; lia).
  set (d5 := put_le 4 d4 _ _). assert (L5 : length d5 = length d) by (rewrite <-L4; apply length_put; lia).
  assert (E : ∀ o, (o + 2 ≤ off + 8)%nat → get_le 2 (put_addrs d5 (off + 12) (i_addrs x)) o = get_le 2 d4 o).
  { intros o Ho. rewrite get_put_addrs_before by lia. apply get_put_ne; lia. }
  f_equal.
  - rewrite E by lia. unfold d4. rewrite get_put_ne by lia. unfold d3. rewrite get_put_ne by lia.
    unfold d2. rewrite get_put_ne by lia. unfold d1. rewrite get_put_same by lia. by apply s16_mod.
  - rewrite E by lia. unfold d4. rewrite get_put_ne by lia. unfold d3. rewrite get_put_ne by lia. unfold d2. rewrite get_put_same by lia. by apply s16_mod.
  - rewrite E by lia. unfold d4. rewrite get_put_ne by lia. unfold d3. rewrite get_put_same by lia. by apply s16_mod.
  - rewrite E by lia. unfold d4. rewrite get_put_same by lia. by apply s16_mod.
  - rewrite get_put_addrs_before by lia. unfold d5. rewrite get_put_same by lia. by apply Z.mod_small.
  - apply get_addrs_put; [done|done|lia].
Qed.

(** ** ilock() of an inode that is not in memory yet *)

Section ilock.
Context {L : Layout}.
Context {me : proc} {N : nat} {s0 : kstate}.

Lemma locked_by_with ip x s :
  k_itable s !! ip = Some x → locked_by me ip s = with_inode ip (set_ilock (SleepLock true (p_pid me)) x) s.
Proof. intros Hx. unfold locked_by, with_inode. by rewrite (alter_insert _ _ _ _ Hx). Qed.

(** ilock() locks the entry and loads the inode from the disk. *)
Lemma ilock_loads W B s ip y :
  let sb := io_sb (k_io s0) in
  let x := get_dinode (B (IBLOCK (i_inum y) sb)) (dinode_off (i_inum y)) (set_ilock (SleepLock true (p_pid me)) y) in
  tx me N s0 W ∅ B s → k_itable s0 !! ip = Some y → i_dev y = ROOTDEV →
  sl_locked (i_lock y) = false → i_valid y = false → 1 ≤ i_ref y → i_type x ≠ 0 →
  wp (ilock (Some ip)) s (λ _ s', tx me N (with_inode ip (set_ivalid true x) s0) W ∅ B s').
Proof.
  intros sb x T Hy Hdev Hl Hv Hr Htype. unfold ilock. pose proof (tx_itable _ _ _ _ _ _ _ T) as Eit.
  assert (Hys : k_itable s !! ip = Some y) by by rewrite Eit.
  eapply wp_run_seq; [by apply inode_at_run|]. cbv beta. rewrite (proj2 (Z.ltb_ge _ _)) by lia.
  eapply wp_run_seq; [by eapply ilock_acquire_run; [eapply tx_ready|..]|]. cbv beta. rewrite (locked_by_with ip y s Hys).
  set (y1 := set_ilock (SleepLock true (p_pid me)) y) in *.
  apply (tx_with_inode _ _ _ _ _ _ _ ip y1) in T. set (s1 := with_inode ip y1 s0) in *.
  assert (Hat : ∀ z s2, tx me N (with_inode ip z s0) W ∅ B s2 → k_itable s2 !! ip = Some z).
  { intros z s2 T2. rewrite (tx_itable _ _ _ _ _ _ _ T2). by eapply with_inode_at. }
  eapply wp_run_seq; [by apply inode_at_run, (Hat y1)|]. cbv beta. change (i_valid y1) with (i_valid y). rewrite Hv.
  cbn [negb when]. eapply wp_get_sb; [exact T|]. change (io_sb (k_io s1)) with sb. change (i_dev y1) with (i_dev y).
  rewrite Hdev. change (i_inum y1) with (i_inum y).
  eapply wp_seq; [eapply tx_bread; [exact T|rewrite map_size_empty; lia|by intros j ?%lookup_empty_Some]|].
  intros b s2 [Hb T2]. destruct (tx_buf _ _ _ _ _ _ T2 (lookup_insert_eq _ _ _)) as (w & Ew & Hw & _).
  eapply wp_run_seq; [exact Ew|]. cbv beta. rewrite Hw.
  assert (Hy2 : k_itable s2 !! ip = Some y1) by (rewrite (tx_itable _ _ _ _ _ _ _ T2); by eapply with_inode_at).
  eapply wp_run_seq; [by apply upd_inode_with|]. cbv beta. fold x.
  apply (tx_with_inode _ _ _ _ _ _ _ ip x) in T2. unfold s1 in T2. rewrite with_inode_twice in T2.
  eapply wp_seq; [eapply tx_brelse; [exact T2|apply lookup_insert_eq]|].
  intros [] s3. rewrite delete_insert_id by done. intros T3.
  eapply wp_run_seq; [by apply upd_inode_with, (Hat x)|]. cbv beta.
  apply (tx_with_inode _ _ _ _ _ _ _ ip (set_ivalid true x)) in T3. rewrite with_inode_twice in T3.
  eapply wp_run_seq; [by apply inode_at_run, (Hat (set_ivalid true x))|]. cbv beta.
  change (i_type (set_ivalid true x)) with (i_type x). rewrite (proj2 (Z.eqb_neq _ 0)) by done. exact T3.
Qed.
End ilock.
