(* ===== verification/FsCommit.v ===== *)
(** Whole transactions: begin_op(), file-system operations, end_op().

    [tx_begin] enters the states of FsTx.v from a quiet file system;
    [end_op_commits] leaves them: what the operations see becomes what is on
    the disk, atomically with respect to power failures. *)

From S2P Require Import Prelude Riscv Kstate Sched Bytes Bio BioSpec BioOps Log LogSpec LogCrash Fs FsTx.

(** ** begin_op *)

(** No file-system operation is in progress: nothing is logged and no buffer
    is in use. *)
Record fs_idle (me : proc) (s : kstate) : Prop := {
  fi_ring : ring_ok (k_bufs s);
  fi_cache : cache_ok (cells (k_bufs s)) (io_disk (k_io s));
  fi_idle : idle_cache (cells (k_bufs s));
  fi_ready : ready s me;
  fi_len : length (lg_block (io_log (k_io s))) = Z.to_nat LOGSIZE;
  fi_size : MAXOPBLOCKS < lg_size (io_log (k_io s));
  fi_n : lg_n (io_log (k_io s)) = 0;
  fi_ops : lg_outstanding (io_log (k_io s)) = 0;
  fi_committing : lg_committing (io_log (k_io s)) = false;
}.

Definition opened (s : kstate) : kstate :=
  set_io (set_log (set_outstanding 1 (io_log (k_io s))) (k_io s)) s.

Lemma idle_all cs : idle_cache cs → size (idle cs) = length cs.
Proof.
  intros Hi. rewrite <-(size_set_seq (C := gset nat) 0 (length cs)). f_equal. apply set_eq. intros j.
  rewrite elem_of_idle, elem_of_set_seq. split.
  - intros (x & Hx%lookup_lt_Some & _). lia.
  - intros [_ Hj]. destruct (lookup_is_Some cs j Hj) as [x Hx]. exists x. split; [done|]. by apply (Hi j x Hx).
Qed.

Lemma hold_empty pid cs : hold pid ∅ cs = cs.
Proof.
  apply list_eq. intros j. rewrite hold_lookup, lookup_empty. by destruct (cs !! j).
Qed.

(** The first operation is admitted, with room for MAXOPBLOCKS blocks. *)
Lemma tx_begin me s :
  fs_idle me s → log_low s →
  wp begin_op s (λ _ s', s' = opened s ∧
    tx me (Z.to_nat MAXOPBLOCKS) s' ∅ ∅ (disk_block (io_disk (k_io s))) s').
Proof.
  intros [R C I Rd Hlen Hsz Hn Ho Hc] Lo. pose proof (rd_held _ _ Rd) as Hh. eapply wp_run.
  { unfold begin_op. rewrite (bind_ok _ _ _ _ _ (acquire_run L_log s ltac:(by rewrite Hh))).
    rewrite Hh, (right_id_L ∅ (∪)). set (s1 := set_held {[L_log]} s).
    rewrite (bind_ok get_log _ s1 (io_log (k_io s)) s1) by done. rewrite Hc, Ho, Hn. cbv iota.
    change (LOGSIZE <? 0 + (0 + 1) * MAXOPBLOCKS) with false. cbv iota. unfold upd_log, upd_io. rewrite bind_modify.
    apply release_run. cbn. set_solver. }
  cbn [k_held set_held set_io]. rewrite difference_diag_L.
  assert (E : set_held ∅ (set_io (set_log (set_outstanding (0 + 1) (io_log (k_io s))) (k_io s)) (set_held {[L_log]} s)) = opened s).
  { destruct s; cbn in *. by subst. }
  split; [exact E|]. change (k_io (set_held {[L_log]} s)) with (k_io s). rewrite E.
  pose proof (co_len _ _ C) as HL.
  exists (io_log (k_io (opened s))) (cells (k_bufs s)).
  - by destruct s as [? ? ? [? ? [] ?]].
  - exact Lo.
  - rewrite hold_empty. apply (io_at_refl me (opened s)); [done|]. destruct Rd. by split.
  - done.
  - split; try done.
    + change MAXOPBLOCKS with 10 in *. change LOGSIZE with 30. cbn [lg_size opened set_io set_log io_log k_io set_outstanding]. lia.
    + rewrite size_empty. lia.
    + intros j x Hx. destruct (I j x Hx) as [-> ->]. split; [done|]. change MAXOPBLOCKS with 10. rewrite size_empty. lia.
    + rewrite size_empty, idle_all, HL by done. change MAXOPBLOCKS with 10. change NBUF with 30%nat. lia.
  - intros w. by apply idle_view.
  - done.
  - by intros b bno ?%lookup_empty_Some.
Qed.

(** ** end_op *)

Lemma NoDup_size (l : list Z) : length l = size (list_to_set l : gset Z) → NoDup l.
Proof.
  induction l as [|x l IH]; intros E; [constructor|]. cbn [length] in E.
  change (list_to_set (x :: l)) with ({[x]} ∪ list_to_set l : gset Z) in E.
  assert (Hle : (size (list_to_set l : gset Z) ≤ length l)%nat).
  { clear. induction l as [|y l IH]; [done|]. cbn [length].
    change (list_to_set (y :: l)) with ({[y]} ∪ list_to_set l : gset Z). pose proof (size_add_le (list_to_set l) y). lia. }
  constructor.
  - intros Hx. assert ({[x]} ∪ list_to_set l = (list_to_set l : gset Z)) as Eq by set_solver. rewrite Eq in E. lia.
  - apply IH. pose proof (size_add_le (list_to_set l) x). lia.
Qed.

(** A transaction is ready to commit. *)
Lemma tx_ready_to_commit N W B lg lg' cs d :
  cache_ok cs d → tx_room N W lg cs → (∀ w, bview cs d w = B w) →
  log_geo lg' → lg_block lg' = lg_block lg → lg_n lg' = lg_n lg → lg_start lg' = lg_start lg →
  let bs := take (size W) (lg_block lg) in
  tx_ok lg' cs bs (B <$> bs) ∧ (∀ b, b ∈ bs ↔ b ∈ W).
Proof.
  intros C T V G Eb En Es bs. pose proof (lg_range _ G) as Hg. destruct T as [T1 T2 T3 T4 T5 T6 T7 T8 T9 T10].
  assert (Hlen : length bs = size W) by (unfold bs; rewrite length_take, T1; change LOGSIZE with 30 in *; lia).
  assert (Hin : ∀ b, b ∈ bs ↔ b ∈ W) by (intros b; rewrite <-T3; by rewrite elem_of_list_to_set).
  split; [|done]. split.
  - done.
  - by rewrite En, T2, Hlen.
  - by rewrite Hlen, Eb.
  - apply NoDup_size. fold bs in T3. by rewrite T3.
  - intros b Hb%Hin. rewrite Es in *. pose proof (T4 b Hb). change LOGSIZE with 30 in *. split; [|right]; lia.
  - rewrite Hlen. lia.
  - apply Forall2_fmap_r, Forall_Forall2_diag, Forall_forall. intros b Hb%Hin.
    destruct (T8 b Hb) as (j & r & v & Hj & Hr). exists j, r. pose proof (T9 _ _ Hj) as [_ Hq]. simpl in Hq.
    rewrite <-V, (bview_cached _ _ _ _ _ C Hj) by done. split; [done|lia].
Qed.

Lemma tx_quiet N W lg cs : tx_room N W lg cs → quiet_cache cs.
Proof.
  intros [T1 T2 T3 T4 T5 T6 T7 T8 T9 T10]. split.
  - intros j x Hx. destruct (T9 j x Hx). split; [done|lia].
  - assert (Hne : idle cs ≠ ∅) by (intros E; rewrite E, size_empty in T10; lia).
    apply set_choose_L in Hne as [j Hj%elem_of_idle]. eauto.
Qed.

(** What is on disk after a crash at any point between [d] and [d'] is, after
    recovery, the file system of [d] or that of [d']. *)
Definition atomic_update (sb : superblock) (d d' : list (Z * list Z)) : Prop :=
  let st := sb_logstart sb in
  ∀ dc, d `suffix_of` dc → dc `suffix_of` d' → ∀ me' t, booted me' dc t →
    ∃ t', initlog ROOTDEV sb t = Ok tt t' ∧
      ((∀ w, home st w → disk_block (io_disk (k_io t')) w = disk_block d w) ∨
       (∀ w, home st w → disk_block (io_disk (k_io t')) w = disk_block d' w)).

(** The log on disk is empty, and is where the superblock says. *)
Record log_clean (sb : superblock) (lg : log) (d : list (Z * list Z)) : Prop := {
  lc_geo : log_geo lg;
  lc_start : sb_logstart sb = lg_start lg;
  lc_nlog : 0 ≤ sb_nlog sb < 2147483648;
  lc_len : length (disk_block d (lg_start lg)) = BNAT;
  lc_empty : hdr_n (disk_block d (lg_start lg)) = 0;
}.

(** end_op() of the last operation, up to the commit and after it. *)
Lemma end_op_run me s0 lg d cs s :
  io_at me s0 lg d cs s → lg_committing lg = false → lg_outstanding lg = 1 →
  ∃ s1, io_at me s0 (set_committing true (set_outstanding 0 lg)) d cs s1 ∧
    ∀ s2, commit s1 = Ok tt s2 → ready s2 me →
      ∃ s', end_op s = Ok tt s' ∧ io_disk (k_io s') = io_disk (k_io s2).
Proof.
  intros A Hc Ho. pose proof (rd_held _ _ (ia_ready _ _ _ _ _ _ A)) as Hh.
  destruct (step_log A (λ l, set_outstanding (lg_outstanding l - 1) l)) as (s1 & E1 & A1). rewrite Ho in A1.
  change (1 - 1) with 0 in A1.
  destruct (step_log A1 (set_committing true)) as (s2 & E2 & A2). exists s2. split; [exact A2|].
  intros s3 E3 Rd3. unfold end_op. rewrite (bind_ok _ _ _ _ _ (acquire_run L_log s ltac:(by rewrite Hh))).
  rewrite Hh, (right_id_L ∅ (∪)).
  rewrite (bind_ok (upd_log _) _ _ tt (set_held {[L_log]} s1)) by (by injection E1 as <-).
  rewrite (bind_ok get_log _ _ (set_outstanding 0 lg) (set_held {[L_log]} s1))
    by (unfold get_log, gets; f_equal; apply (ia_log A1)).
  cbn [lg_committing lg_outstanding set_outstanding]. rewrite Hc, Z.eqb_refl. cbv iota.
  rewrite !bind_assoc, (bind_ok (upd_log _) _ _ tt (set_held {[L_log]} s2)) by (by injection E2 as <-).
  rewrite bind_ret, (bind_ok (release L_log) _ _ tt s2); cycle 1.
  { rewrite release_run by (cbn; set_solver). cbn [k_held set_held]. rewrite difference_diag_L.
    by rewrite held_back by apply (rd_held _ _ (ia_ready _ _ _ _ _ _ A2)). }
  unfold when. rewrite (bind_ok _ _ _ _ _ E3). destruct Rd3 as [Hh3 Hp3 _].
  rewrite (bind_ok _ _ _ _ _ (acquire_run L_log s3 ltac:(by rewrite Hh3))).
  rewrite Hh3, (right_id_L ∅ (∪)). unfold upd_log, upd_io. rewrite bind_modify.
  erewrite bind_ok; [|apply wakeup_run; [|exact Hp3]].
  - rewrite release_run by (cbn; set_solver). eexists. split; [reflexivity|]. done.
  - intros i _. cbn. set_solver.
Qed.

(** end_op() makes the contents seen by the operations the contents of the
    disk, in one atomic step. *)
Lemma end_op_commits me N s0 W B s :
  let lg := io_log (k_io s0) in
  let d := io_disk (k_io s0) in
  let sb := io_sb (k_io s0) in
  tx me N s0 W ∅ B s → W ≠ ∅ → lg_outstanding lg = 1 → lg_committing lg = false → log_clean sb lg d →
  ∃ s', end_op s = Ok tt s' ∧
    let d' := io_disk (k_io s') in
    (∀ w, home (lg_start lg) w → disk_block d' w = B w) ∧ atomic_update sb d d'.
Proof.
  intros lg d sb [lg1 cs G Lo A C T V Hu Hh] HW Ho Hc LC. rewrite hold_empty in A. fold lg in G. fold d in A, C, V, Hu.
  assert (Hlg1 : lg_outstanding lg1 = 1 ∧ lg_committing lg1 = false ∧ lg_start lg1 = lg_start lg ∧ lg_dev lg1 = lg_dev lg).
  { rewrite G. done. }
  destruct Hlg1 as (Ho1 & Hc1 & Hst & Hdv).
  destruct (end_op_run me s0 lg1 d cs s A Hc1 Ho1) as (s1 & A1 & Hend).
  set (lg2 := set_committing true (set_outstanding 0 lg1)) in *.
  assert (G2 : log_geo lg2).
  { destruct (lc_geo _ _ _ LC) as [g1 g2 g3]. split; [by rewrite <-g1, <-Hdv|apply T|]. by rewrite <-Hst in g3. }
  destruct (tx_ready_to_commit N W B lg1 lg2 cs d C T V G2) as [TX Hin]; [done|done|done|].
  set (bs := take (size W) (lg_block lg1)) in *.
  assert (Hbs : bs ≠ []).
  { intros E. apply HW. apply set_eq. intros b. rewrite <-Hin, E. set_solver. }
  assert (K : copying me s0 lg2 d cs s1) by (split; [done|done|by eapply tx_quiet]).
  destruct (commit_ok me s0 lg2 d cs s1 bs _ K TX Hbs) as (cs' & s2 & E & [A' C' Q']).
  destruct (Hend s2 E (ia_ready _ _ _ _ _ _ A')) as (s' & Es' & Ed'). exists s'. split; [done|].
  change (lg_start lg2) with (lg_start lg1) in *. rewrite Ed', (ia_disk A').
  assert (Hst0 : ∀ b, b ∈ W → b ≠ lg_start lg1).
  { intros b Hb ->. pose proof (tr_range _ _ _ _ T _ Hb). change LOGSIZE with 30 in *. lia. }
  assert (Hvl : bview cs d (lg_start lg1) = disk_block d (lg_start lg1)).
  { rewrite V, Hu; [done|]. intros Hb. by apply (Hst0 _ Hb). }
  destruct LC as [g1 g2 g3 g4 g5]. fold sb lg d in g1, g2, g3, g4, g5. cbv zeta.
  assert (Hl2 : length (disk_block d (lg_start lg2)) = BNAT) by (change (lg_start lg2) with (lg_start lg1); by rewrite Hst).
  assert (Hl3 : length (bview cs d (lg_start lg1)) = BNAT) by (by rewrite Hvl).
  split.
  - intros w Hw. rewrite <-Hst in Hw. destruct (decide (w ∈ bs)) as [Hb|Hb].
    + apply list_elem_of_lookup in Hb as [i Hi].
      rewrite (commit_disk_logged _ _ _ _ _ _ TX Hl3 Hl2 i w Hi).
      apply list_lookup_total_correct. by rewrite list_lookup_fmap, Hi.
    + rewrite (commit_disk_other _ _ _ _ _ _ TX Hl3 Hl2 w Hw Hb). symmetry. apply Hu. by rewrite <-Hin.
  - intros dc Hd Hcut me' t Bt. cbv zeta. 
    assert (Hn2 : hdr_n (disk_block d (lg_start lg2)) = 0) by (change (lg_start lg2) with (lg_start lg1); by rewrite Hst).
    destruct (crash_cut lg2 cs bs _ _ d TX Hl3 Hn2 Hl2 dc Hd Hcut) as [Rp Hr].
    change (lg_start lg2) with (lg_start lg1) in Rp, Hr. rewrite Hst, <-g2 in Rp, Hr.
    pose proof (lg_range _ g1) as Hrg.
    destruct (initlog_ok me' dc t sb Bt) as (t' & Et & Edt & _); [lia|lia|lia|done|].
    exists t'. split; [done|]. rewrite Edt. rewrite Hst, <-g2. exact Hr.
Qed.
