(* ===== verification/FsTheorems.v ===== *)
(** The theorems about the file system: block allocation, files, directories,
    inodes and whole transactions, with the disk they are instantiated on. *)

From S2P Require Import Prelude Riscv Kstate Mem Kalloc Vm Sched Machine Bytes Bio BioSpec BioOps Log LogSpec LogCrash LogTheorems Fs PageFault FsTx Balloc Bmap Writei Dir Inode FsCommit.

Section fs_theorems.
Context {L : Layout}.

(** ** balloc *)

(** With every block in use the loop runs to the end. *)
Lemma balloc_loop_full me N s0 fuel W B s b :
  let sb := io_sb (k_io s0) in
  tx me N s0 W ∅ B s → disk_ok sb B → (∀ c, 0 ≤ c < sb_size sb → marked sb B c = true) →
  0 ≤ b → b mod 8192 = 0 → sb_size sb - b ≤ 8192 * Z.of_nat fuel →
  ∃ s', balloc_loop fuel ROOTDEV b (sb_size sb) s = Err (EPanic "balloc: out of blocks") s'.
Proof.
  intros sb. revert s b. induction fuel as [|fuel IH]; intros s b T D Hall Hb Hm Hf; cbn [balloc_loop];
    (destruct (Z.ltb_spec b (sb_size sb)); cbn [negb]; [|by eexists]); [lia|].
  unfold get_sb. rewrite bind_gets, (tx_sb _ _ _ _ _ _ _ T). fold sb.
  pose proof (tx_bread _ _ _ _ (BBLOCK b sb) T ltac:(rewrite map_size_empty; lia) ltac:(by intros j ?%lookup_empty_Some)) as H1.
  apply wp_ok in H1 as (bp & s1 & E1 & Hbp & T1). rewrite (bind_ok _ _ _ _ _ E1).
  destruct (tx_buf _ _ _ _ _ _ T1 (lookup_insert_eq _ _ _)) as (x & Ex & Hx & _). rewrite (bind_ok _ _ _ _ _ Ex), Hx.
  change BPB with 8192.
  pose proof (find_free_spec (Z.to_nat (Z.min 8192 (sb_size sb - b))) (B (BBLOCK b sb)) 0) as Hff.
  destruct (find_free _ _ _) as [bi|].
  - exfalso. destruct Hff as (Hbi & Hbit & _). destruct (in_block (s0 := s0) b (b + bi) Hm ltac:(lia)) as [Eb Em].
    fold sb in Eb. specialize (Hall (b + bi) ltac:(lia)). unfold marked in Hall. change BPB with 8192 in Hall.
    rewrite Eb, Em in Hall. replace (b + bi - b) with bi in Hall by lia. congruence.
  - pose proof (tx_brelse _ _ _ _ _ _ T1 (lookup_insert_eq _ _ _)) as H2. apply wp_ok in H2 as ([] & s2 & E2 & T2).
    rewrite (bind_ok _ _ _ _ _ E2). rewrite delete_insert_id in T2 by done. apply IH; try done; [lia|dlia|lia].
Qed.

Lemma all_marked_or_not sb B :
  (∃ c, 0 ≤ c < sb_size sb ∧ marked sb B c = false) ∨ (∀ c, 0 ≤ c < sb_size sb → marked sb B c = true).
Proof.
  destruct (decide (Forall (λ c, marked sb B c = true) (seqZ 0 (sb_size sb)))) as [H|H].
  - right. intros c Hc. rewrite Forall_forall in H. apply H, elem_of_seqZ. lia.
  - left. apply (not_Forall_Exists _) in H. apply Exists_exists in H as (c & Hc%elem_of_seqZ & Hn).
    exists c. split; [lia|]. apply not_true_is_false, Hn.
Qed.

(** C29: balloc() returns the first block the bitmap marks free, zeroes it, and
    changes exactly its mark in the bitmap; when every block is in use it
    panics. *)
Theorem balloc_first_free me N s0 W B s :
  let sb := io_sb (k_io s0) in
  tx me N s0 W ∅ B s → disk_ok sb B → (size W + 2 ≤ N)%nat →
  (∃ b s' W' B', balloc ROOTDEV s = Ok b s' ∧ tx me N s0 W' ∅ B' s' ∧ disk_ok sb B' ∧
     datastart sb ≤ b < sb_size sb ∧ marked sb B b = false ∧ (∀ c, 0 ≤ c < b → marked sb B c = true) ∧
     B' b = zero_block ∧
     (∀ c, 0 ≤ c < sb_size sb → marked sb B' c = bool_decide (c = b) || marked sb B c) ∧
     (∀ w, w ≠ b → w ≠ BBLOCK b sb → B' w = B w)) ∨
  ((∀ c, 0 ≤ c < sb_size sb → marked sb B c = true) ∧
   ∃ s', balloc ROOTDEV s = Err (EPanic "balloc: out of blocks") s').
Proof.
  intros sb T D HN. destruct (all_marked_or_not sb B) as [Hfree|Hall]; [left|right; split; [done|]].
  - assert (H : wp (balloc ROOTDEV) s (λ a s', 0 ≤ a < sb_size sb ∧ marked sb B a = false ∧
      (∀ c, 0 ≤ c < a → marked sb B c = true) ∧ tx me N s0 ({[a]} ∪ ({[BBLOCK a sb]} ∪ W)) ∅ (allocB sb B a) s')).
    { apply balloc_ok; [done|done|rewrite map_size_empty; lia|by intros j w ?%lookup_empty_Some|done|done]. }
    apply wp_ok in H as (b & s' & E & Hb & Hf & Hfirst & T'). eexists b, s', _, _. split; [done|]. split; [done|].
    pose proof (free_is_data sb B D b ltac:(lia) Hf). split_and!; try done; [by apply alloc_ok|lia|apply alloc_zero| |].
    + intros c Hc. by apply marked_alloc.
    + intros w H1 H2. unfold allocB. by rewrite !setb_ne.
  - unfold balloc, get_sb. rewrite bind_gets, (tx_sb _ _ _ _ _ _ _ T). fold sb.
    pose proof (datastart_pos sb (do_geo _ _ D)). pose proof (dg_data _ (do_geo _ _ D)).
    eapply balloc_loop_full; [exact T|done|done|lia|done|]. change BPB with 8192. fold sb. dlia.
Qed.

(** ** bmap *)

(** C15: bmap() keeps the file system well formed.  For every slot of a
    well-formed file it returns the block of that slot, allocating it, and the
    indirect block, when missing; afterwards all blocks of the file are still
    different data blocks marked in use, the bytes of the file are the same,
    and every block of another file is untouched and not shared. *)
Theorem bmap_keeps_files me N s0 W B s ip ino bn :
  let sb := io_sb (k_io s0) in
  open_file me N s0 ip ino W B s → 0 ≤ bn < MAXFILE →
  (size W + ipot W (i_addrs ino) + 2 < N)%nat → spare sb B (jpot (i_addrs ino) + 1) →
  ∃ a s' W' B' addrs', bmap ip bn s = Ok a s' ∧
    tx me N (with_inode ip (set_addrs addrs' ino) s0) W' ∅ B' s' ∧
    a = fslot B' addrs' bn ∧ a ≠ 0 ∧ disk_ok sb B' ∧ file_ok sb B' addrs' ∧
    (∀ i, 0 ≤ i ≤ MAXFILE → fslot B (i_addrs ino) i ≠ 0 → fslot B' addrs' i = fslot B (i_addrs ino) i) ∧
    (∀ p, 0 ≤ p < MAXFILE * BSIZE → content B' addrs' p = content B (i_addrs ino) p) ∧
    (∀ w, alien sb B (i_addrs ino) w → alien sb B' addrs' w ∧ B' w = B w).
Proof.
  intros sb O Hbn HN Hsp. change MAXFILE with 268 in *. change BSIZE with 1024.
  pose proof (bmap_ok 0 (of_inode _ _ _ _ _ _ _ _ O) (of_dev _ _ _ _ _ _ _ _ O) W B _ s bn (fstate_open W B s O) Hbn HN Hsp) as H.
  apply wp_ok in H as (a & s' & E & W' & B' & addrs' & [T D F] & [[_ _ Al _ Sl] Hc _ _ _] & Ha & Hn & _).
  eexists a, s', W', B', addrs'. by split_and!.
Qed.

(** ** writei and readi *)

(** C14: What writei() writes, readi() reads.  Writing [bs] at [off] of an open
    file returns its length; reading any range afterwards returns the bytes of
    [bs] inside the range written and the old contents elsewhere, up to the
    new end of the file. *)
Theorem writei_readi me N s0 W B s ip ino src bs off off' n' :
  let n := Z.of_nat (length bs) in
  open_file me N s0 ip ino W B s → source_ok s0 me src bs → write_room (N := N) (s0 := s0) (ino := ino) W B off n →
  0 ≤ off ≤ i_size ino → off + n ≤ MAXFILE * BSIZE →
  let size := Z.max (i_size ino) (off + n) in
  0 ≤ off' ≤ size → 0 ≤ n' < 2147483648 →
  let m := Z.min n' (size - off') in
  ∃ s', (r ← writei ip src off n; q ← readi ip ToLocal off' n'; mret (r, q)) s =
    Ok (n, (m, overwrite (content B (i_addrs ino)) off bs <$> seqZ off' m)) s'.
Proof.
  intros n O Hsrc Hroom Ho Hl size Ho' Hn' m. change (MAXFILE * BSIZE) with (268 * 1024) in Hl.
  pose proof (writei_ok W B s src bs off O Hsrc Hroom Ho Hl) as H. apply wp_ok in H as (r & s1 & E & -> & ino' & W' & B' & P).
  destruct P as [P1 P2 P3 P4 P5 P6 P7]. assert (Esz : i_size ino' = size) by by rewrite P4.
  pose proof (of_size _ _ _ _ _ _ _ _ O) as Hsz0. pose proof (readi_local_ok W' B' s1 off' n' P1) as H. rewrite Esz in H.
  specialize (H Ho' Hn'). fold m in H. apply wp_ok in H as (q & s2 & E2 & -> & _).
  exists s2. rewrite (bind_ok _ _ _ _ _ E), (bind_ok _ _ _ _ _ E2). unfold mret, M_ret. do 3 f_equal.
  apply list_fmap_ext. intros i p Hp%list_elem_of_lookup_2%elem_of_seqZ. apply P3. lia.
Qed.

(** ** Directories *)

(** The scan of iget() looks at dev, inum and ref only. *)
Lemma iget_scan_insert tbl ip x y i dev inum e :
  tbl !! ip = Some x → i_ref y = i_ref x → i_dev y = i_dev x → i_inum y = i_inum x →
  iget_scan (<[ip := y]> tbl) i dev inum e = iget_scan tbl i dev inum e.
Proof.
  intros Hx Hr Hd Hn. revert ip i e Hx. induction tbl as [|z tbl IH]; intros ip i e Hx; [done|].
  destruct ip as [|ip]; cbn in Hx.
  - injection Hx as ->. cbn [insert list_insert iget_scan]. by rewrite Hr, Hd, Hn.
  - change (<[S ip := y]> (z :: tbl)) with (z :: <[ip := y]> tbl). cbn [iget_scan]. destruct (_ && _); [done|]. by apply IH.
Qed.

Lemma igot_ids dev inum x x' : igot dev inum x x' → i_dev x' = dev ∧ i_inum x' = inum.
Proof. by intros [(_ & H1 & H2 & ->)|(_ & ->)]. Qed.

(** C16: dirlink() and dirlookup() implement a map from names to inodes.
    Linking a name that is not in the directory returns 0; afterwards a
    lookup of any name with the same first 14 characters finds that inode
    number and the offset of the new entry, and a lookup of any other name
    finds what it found before. *)
Theorem dirlink_dirlookup me N s0 W B s dp ino name inum name' :
  let es := dents B (i_addrs ino) 0 (i_size ino / 16) in
  open_file me N s0 dp ino W B s → i_type ino = T_DIR → i_size ino mod 16 = 0 →
  (∀ i, iget_room (k_itable s0) ROOTDEV i) → 0 < inum < 65536 → i_size ino + 16 ≤ MAXFILE * BSIZE →
  (size W + ipot W (i_addrs ino) + 2 < N)%nat → spare (io_sb (k_io s0)) B (jpot (i_addrs ino) + 1) →
  dir_find name es 0 = None →
  ∃ s1 r s2, dirlink dp name inum s = Ok 0 s1 ∧ dirlookup dp name' s1 = Ok r s2 ∧
    match (if decide (dname name' = dname name) then Some (inum, 16 * Z.of_nat (dir_free es 0))
           else dir_find name' es 0) with
    | None => r = None
    | Some (i, off) => ∃ ip x, r = Some (ip, off) ∧ k_itable s2 !! ip = Some x ∧ i_dev x = ROOTDEV ∧ i_inum x = i
    end.
Proof.
  intros es O Ht Hm Hroom Hi Hsz HN Hsp Hnone. change (MAXFILE * BSIZE) with (268 * 1024) in Hsz.
  pose proof (dirlink_ok W B s name inum O Ht Hm Hroom Hi Hsz HN Hsp Hnone) as H.
  apply wp_ok in H as (r & s1 & E & -> & ino' & W' & B' & O' & Eino & Hm' & _ & Hfind).
  specialize (Hfind name'). fold es in Hfind.
  assert (Ht' : i_type ino' = T_DIR) by (by rewrite Eino).
  assert (Hroom' : ∀ i, iget_room (k_itable (with_inode dp ino' s0)) ROOTDEV i).
  { intros i. unfold iget_room. cbn [k_itable with_inode set_itable].
    rewrite (iget_scan_insert _ dp ino); [apply Hroom|apply O|by rewrite Eino..]. }
  pose proof (dirlookup_ok W' B' s1 name' O' Ht' Hm' Hroom') as H. rewrite Hfind in H.
  apply wp_ok in H as (r & s2 & E2 & H). exists s1, r, s2. split; [done|]. split; [done|].
  destruct (if decide _ then _ else _) as [[i off]|]; [|by destruct H].
  destruct H as (ip & x & x' & s3 & -> & O3 & Hx & Hg & ->). exists ip, x'. split; [done|].
  split; [|by eapply igot_ids]. eapply with_inode_at. rewrite (tx_itable _ _ _ _ _ _ _ (of_tx _ _ _ _ _ _ _ _ O3)). exact Hx.
Qed.

(** ** Inodes *)

(** Iupdate() and ilock() are inverse.  After iupdate() of an inode, ilock()
    of another table entry for the same inode number that has not been loaded
    yet fills it with the fields of that inode. *)
Theorem iupdate_ilock me N s0 W B s ip x jp y :
  let sb := io_sb (k_io s0) in
  tx me N s0 W ∅ B s → disk_ok sb B → (size W < N)%nat →
  k_itable s0 !! ip = Some x → i_dev x = ROOTDEV → 0 ≤ i_inum x < sb_ninodes sb → dinode_fits x → i_type x ≠ 0 →
  k_itable s0 !! jp = Some y → i_dev y = ROOTDEV → i_inum y = i_inum x →
  sl_locked (i_lock y) = false → i_valid y = false → 1 ≤ i_ref y →
  ∃ s', (iupdate ip;; ilock (Some jp)) s = Ok tt s' ∧
    k_itable s' !! jp = Some (Inode ROOTDEV (i_inum x) (i_ref y) (SleepLock true (p_pid me)) true
      (i_type x) (i_major x) (i_minor x) (i_nlink x) (i_size x) (i_addrs x)).
Proof.
  intros sb T D HN Hx Hxd Hxi Hfit Htype Hy Hyd Hyi Hl Hv Hr.
  pose proof (iupdate_ok me N s0 W B s ip x T D Hx Hxd Hxi HN) as H. apply wp_ok in H as ([] & s1 & E1 & T1).
  fold sb in T1. set (ib := IBLOCK (i_inum x) sb) in *. set (B1 := setb B ib _) in *.
  assert (Eg : get_dinode (B1 (IBLOCK (i_inum y) sb)) (dinode_off (i_inum y)) (set_ilock (SleepLock true (p_pid me)) y) =
    loaded x (set_ilock (SleepLock true (p_pid me)) y)).
  { rewrite Hyi. fold ib. unfold B1. rewrite setb_eq. apply get_put_dinode; [done|].
    rewrite (do_len _ _ D). apply dinode_off_le. }
  pose proof (ilock_loads _ B1 s1 jp y T1 Hy Hyd Hl Hv Hr) as H. fold sb in H. rewrite Eg in H.
  specialize (H Htype). apply wp_ok in H as ([] & s2 & E2 & T2). exists s2.
  rewrite (bind_ok _ _ _ _ _ E1). split; [exact E2|].
  rewrite (tx_itable _ _ _ _ _ _ _ T2). erewrite with_inode_at by done. unfold loaded. cbn. by rewrite Hyd, Hyi.
Qed.

(** ** Transactions *)

(** The contents of a file depend on its data blocks only. *)
Lemma content_ext sb B B' addrs p :
  file_ok sb B addrs → (∀ w, datastart sb ≤ w → B' w = B w) → 0 ≤ p < 268 * 1024 →
  content B' addrs p = content B addrs p.
Proof.
  intros F H Hp. assert (Hs : fslot B' addrs (p / 1024) = fslot B addrs (p / 1024)).
  { unfold fslot. destruct (_ <? 12); [done|]. destruct (_ =? 268); [done|].
    destruct (Z.eqb_spec (nth 12 addrs 0) 0); [done|].
    destruct (fk_data _ _ _ F 268 ltac:(lia)) as [Hr _]; [done|]. change (fslot B addrs 268) with (nth 12 addrs 0) in Hr.
    by rewrite H by lia. }
  unfold content. rewrite Hs. destruct (Z.eqb_spec (fslot B addrs (p / 1024)) 0); [done|].
  destruct (fk_data _ _ _ F (p / 1024) ltac:(dlia)) as [Hr _]; [done|]. by rewrite H by lia.
Qed.

(** A file on the disk [B], with its inode in entry [ip] of the table. *)
Record file_here (s : kstate) (B : Z → list Z) (ip : nat) (ino : inode) : Prop := {
  fh_inode : k_itable s !! ip = Some ino;
  fh_dev : i_dev ino = ROOTDEV;
  fh_inum : 0 ≤ i_inum ino < sb_ninodes (io_sb (k_io s));
  fh_disk : disk_ok (io_sb (k_io s)) B;
  fh_file : file_ok (io_sb (k_io s)) B (i_addrs ino);
  fh_size : 0 ≤ i_size ino ≤ MAXFILE * BSIZE;
  fh_holes : no_holes B (i_addrs ino) (i_size ino);
}.

(** C7: A write to a file is one atomic update of the disk.  On a quiet file
    system, begin_op(), writei() and end_op() return normally; the disk then
    holds the file with the new bytes in their place and its updated inode,
    and no block of another file has changed; and wherever the disk writes of
    this operation are cut by a power failure, recovery at the next boot
    leaves either the disk from before the operation or the one after it. *)
Theorem write_transaction me s ip ino bs off :
  let sb := io_sb (k_io s) in
  let d := io_disk (k_io s) in
  let D := disk_block d in
  let n := Z.of_nat (length bs) in
  let ib := IBLOCK (i_inum ino) sb in
  fs_idle me s → log_clean sb (io_log (k_io s)) d → log_low s → file_here s D ip ino →
  0 ≤ off ≤ i_size ino → off + n ≤ MAXFILE * BSIZE →
  (Z.of_nat (ipot ∅ (i_addrs ino) + 2 * chunks off n) < MAXOPBLOCKS) → spare sb D (jpot (i_addrs ino) + chunks off n) →
  ∃ s' ino', (begin_op;; r ← writei ip (FromLocal bs) off n; end_op;; mret r) s = Ok n s' ∧
    let d' := io_disk (k_io s') in
    let D' := disk_block d' in
    i_size ino' = Z.max (i_size ino) (off + n) ∧
    D' ib = put_dinode (D ib) (dinode_off (i_inum ino)) ino' ∧
    (∀ p, 0 ≤ p < MAXFILE * BSIZE → content D' (i_addrs ino') p = overwrite (content D (i_addrs ino)) off bs p) ∧
    (∀ w, alien sb D (i_addrs ino) w → D' w = D w) ∧
    atomic_update sb d d'.
Proof.
  intros sb d D n ib I LC Lo [F1 F2 F3 F4 F5 F6 F7] Ho Hl HN Hsp. change (MAXFILE * BSIZE) with (268 * 1024) in *.
  pose proof (tx_begin me s I Lo) as H. apply wp_ok in H as ([] & s1 & E1 & -> & T1). fold d D in T1.
  assert (O : open_file me (Z.to_nat MAXOPBLOCKS) (opened s) ip ino ∅ D (opened s)) by by split.
  pose proof (writei_ok ∅ D (opened s) (FromLocal bs) bs off O (source_ok_local _ _ _)) as H.
  change (io_sb (k_io (opened s))) with sb in H. fold n in H.
  assert (Hroom : write_room (N := Z.to_nat MAXOPBLOCKS) (s0 := opened s) (ino := ino) ∅ D off n).
  { split; [rewrite size_empty; lia|exact Hsp]. }
  specialize (H Hroom Ho Hl). apply wp_ok in H as (r & s2 & E2 & -> & ino' & W' & B' & [P1 P2 P3 P4 P5 P6 P7]).
  change (io_sb (k_io (opened s))) with sb in P2, P5. fold ib in P2, P5.
  pose proof (of_tx _ _ _ _ _ _ _ _ P1) as T2.
  assert (HW : W' ≠ ∅) by (intros ->; set_solver).
  destruct (end_op_commits _ _ _ _ _ _ T2 HW) as (s3 & E3 & Hd & Hat); [done|apply I|..].
  { destruct LC as [[g1 g2 g3] g4 g5 g6 g7]. split; [by split|done..]. }
  exists s3, ino'. split.
  { rewrite (bind_ok _ _ _ _ _ E1), (bind_ok _ _ _ _ _ E2), (bind_ok _ _ _ _ _ E3). done. }
  change (io_disk (k_io (with_inode ip ino' (opened s)))) with d in Hat.
  change (io_sb (k_io (with_inode ip ino' (opened s)))) with sb in Hat.
  change (lg_start _) with (lg_start (io_log (k_io s))) in Hd. destruct Lo as [Lo1 Lo2]. fold sb in Lo2.
  assert (Hhome : ∀ w, sb_inodestart sb ≤ w → disk_block (io_disk (k_io s3)) w = B' w).
  { intros w Hw. apply Hd. right. lia. }
  pose proof (inodes_before_data sb D F4). pose proof (IBLOCK_range sb _ (do_geo _ _ F4) F3) as Hib.
  cbv zeta. split_and!; [by rewrite P4| | | |exact Hat].
  - rewrite Hhome by (fold ib in Hib; lia). exact P5.
  - intros p Hp. rewrite (content_ext sb B'); [by apply P3|apply P2| |done]. intros w Hw. apply Hhome. lia.
  - intros w Hw. rewrite Hhome by (destruct Hw; lia). by apply (ev_alien _ _ _ _ _ _ P2).
Qed.
End fs_theorems.

(** ** A small file system *)

(** The disk mkfs makes, reduced to its bitmap: the first 46 blocks are in use;
    and an empty root directory, open in entry 0 of the inode table. *)
Definition bitmap46 : list Z := replicate 5 255 ++ 63 :: replicate 1018 0.
Definition root_dir : inode := Inode 1 1 1 (SleepLock true 1) true 1 0 0 1 0 (replicate 13 0).
Definition fs_disk0 : list (Z * list Z) := [(45, bitmap46)].
Definition st_fs : kstate :=
  KState 0 ∅ mm0 (IO (ring_bufs (replicate 30 buf0)) fs_disk0 log0 sb0)
    (root_dir :: Inode 1 1 1 (SleepLock false 0) false 0 0 0 0 0 (replicate 13 0) :: replicate 48 inode_free)
    (file_rw :: replicate 99 file_free) (replicate 30 vma_unused) ∅
    (running [Some 0%nat] :: replicate 63 proc0) 2 (Some 1%nat) 0.
Definition me_fs : proc := running [Some 0%nat].

Lemma cells_fs : cells (k_bufs st_fs) = replicate 30 buf0.
Proof. vm_compute. done. Qed.

Lemma idle_fs : fs_idle me_fs st_fs.
Proof.
  assert (Hb : ∀ (i : nat) x, replicate 30 buf0 !! i = Some x → x = buf0) by (intros i x H; by apply lookup_replicate_1 in H as [-> _]).
  split; rewrite ?cells_fs; try done.
  - exists (reverse (upto NBUF)). split; [done|apply reverse_Permutation|vm_compute; by repeat split..].
  - split; [done| | |].
    + intros i j x y bno ->%Hb ->%Hb [? _]. done.
    + by intros i x ->%Hb.
    + by intros i x ->%Hb.
  - by intros i x ->%Hb.
Qed.

Lemma low_fs : log_low st_fs.
Proof. unfold log_low. vm_compute. done. Qed.

Lemma disk_fs : disk_ok sb0 (disk_block fs_disk0).
Proof.
  split.
  - split; vm_compute; by repeat split.
  - intros w. unfold fs_disk0. cbn [disk_block]. by destruct (45 =? w).
  - assert (H : forallb (marked sb0 (disk_block fs_disk0)) (seqZ 0 46) = true) by (vm_compute; reflexivity).
    intros w Hw. rewrite List.forallb_forall in H. apply H, list_elem_of_In, elem_of_seqZ.
    change (datastart sb0) with 46 in Hw. lia.
Qed.

Lemma no_slots B i : fslot B (replicate 13 0) i = 0.
Proof.
  unfold fslot. assert (Hn : ∀ k, nth k (replicate 13 0) 0 = 0) by (intros k; do 14 (destruct k as [|k]; [done|]); by destruct k).
  rewrite !Hn. cbn. by repeat case_match.
Qed.

Lemma file_fs : file_ok sb0 (disk_block fs_disk0) (replicate 13 0).
Proof. split; [done|..]; intros i; by rewrite no_slots. Qed.

Lemma spare_fs : spare sb0 (disk_block fs_disk0) 2.
Proof.
  exists {[46; 47]}. split; [by rewrite size_union, !size_singleton by set_solver|].
  intros c [->%elem_of_singleton| ->%elem_of_singleton]%elem_of_union; by vm_compute.
Qed.

Lemma here_fs : file_here st_fs (disk_block fs_disk0) 0 root_dir.
Proof. split; [done|done|done|apply disk_fs|apply file_fs|done|]. intros p Hp. change (i_size root_dir) with 0 in Hp. lia. Qed.

Lemma tx_fs : tx me_fs 10 (opened st_fs) ∅ ∅ (disk_block fs_disk0) (opened st_fs).
Proof.
  pose proof (tx_begin me_fs st_fs idle_fs low_fs) as H. apply wp_ok in H as ([] & s1 & _ & -> & T). exact T.
Qed.

Lemma open_fs : open_file me_fs 10 (opened st_fs) 0 root_dir ∅ (disk_block fs_disk0) (opened st_fs).
Proof. destruct here_fs as [H1 H2 H3 H4 H5 H6 H7]. split; [apply tx_fs|done..]. Qed.

Lemma iget_scan_room tbl i dev inum e : iget_scan tbl i dev inum (Some e) ≠ inr None.
Proof.
  revert i. induction tbl as [|x tbl IH]; intros i; cbn [iget_scan]; [done|]. by destruct (_ && _).
Qed.

(** A free entry is room for any inode. *)
Lemma iget_free_room tbl i dev inum e j x :
  tbl !! j = Some x → i_ref x = 0 → iget_scan tbl i dev inum e ≠ inr None.
Proof.
  revert i e j. induction tbl as [|y tbl IH]; intros i e j Hx Hr; [done|]. cbn [iget_scan].
  destruct (_ && _); [done|]. destruct j as [|j]; cbn in Hx.
  - injection Hx as ->. rewrite Hr, Z.eqb_refl. destruct e; apply iget_scan_room.
  - by apply (IH _ _ j).
Qed.

Lemma room_fs i : iget_room (k_itable (opened st_fs)) ROOTDEV i.
Proof. by apply (iget_free_room _ _ _ _ _ 2 inode_free). Qed.

Lemma balloc_first_free_witness :
  ∃ b s', balloc ROOTDEV (opened st_fs) = Ok b s' ∧ marked sb0 (disk_block fs_disk0) b = false.
Proof.
  destruct (balloc_first_free me_fs 10 (opened st_fs) ∅ (disk_block fs_disk0) (opened st_fs) tx_fs disk_fs)
    as [(b & s' & W' & B' & E & _ & _ & _ & Hf & _)|[Hall _]].
  - rewrite size_empty. lia.
  - exists b, s'. split; [exact E|exact Hf].
  - exfalso. assert (H : 0 ≤ 46 < sb_size (io_sb (k_io (opened st_fs)))) by (vm_compute; split; [discriminate|reflexivity]).
    specialize (Hall 46 H). vm_compute in Hall. discriminate.
Defined.

Lemma bmap_keeps_files_witness :
  ∃ a s', bmap 0 20 (opened st_fs) = Ok a s' ∧ a ≠ 0.
Proof.
  destruct (bmap_keeps_files me_fs 10 (opened st_fs) ∅ (disk_block fs_disk0) (opened st_fs) 0 root_dir 20 open_fs)
    as (a & s' & W' & B' & addrs' & E & _ & _ & Hn & _).
  - by vm_compute.
  - rewrite size_empty. cbn. lia.
  - apply spare_fs.
  - exists a, s'. split; [exact E|exact Hn].
Defined.

Lemma writei_readi_witness :
  ∃ s', (r ← writei 0 (FromLocal [1; 2; 3]) 0 3; q ← readi 0 ToLocal 1 9; mret (r, q)) (opened st_fs) =
    Ok (3, (2, [2; 3])) s'.
Proof.
  destruct (writei_readi me_fs 10 (opened st_fs) ∅ (disk_block fs_disk0) (opened st_fs) 0 root_dir
    (FromLocal [1; 2; 3]) [1; 2; 3] 0 1 9 open_fs) as (s' & E).
  - apply source_ok_local.
  - split; [rewrite size_empty; apply Nat.ltb_lt; vm_compute; reflexivity|apply spare_fs].
  - by vm_compute.
  - by vm_compute.
  - by vm_compute.
  - lia.
  - exists s'. exact E.
Defined.

Lemma dirlink_dirlookup_witness :
  ∃ s1 r s2, dirlink 0 [97] 7 (opened st_fs) = Ok 0 s1 ∧ dirlookup 0 [97; 0] s1 = Ok r s2 ∧
    ∃ ip x, r = Some (ip, 0) ∧ k_itable s2 !! ip = Some x ∧ i_dev x = ROOTDEV ∧ i_inum x = 7.
Proof.
  destruct (dirlink_dirlookup me_fs 10 (opened st_fs) ∅ (disk_block fs_disk0) (opened st_fs) 0 root_dir [97] 7 [97; 0] open_fs)
    as (s1 & r & s2 & E1 & E2 & H).
  - done.
  - done.
  - apply room_fs.
  - lia.
  - by vm_compute.
  - rewrite size_empty. cbn. lia.
  - apply spare_fs.
  - done.
  - exists s1, r, s2. split; [exact E1|]. split; [exact E2|]. exact H.
Defined.

Lemma iupdate_ilock_witness :
  ∃ s', (iupdate 0;; ilock (Some 1%nat)) (opened st_fs) = Ok tt s' ∧
    i_type <$> k_itable s' !! 1%nat = Some T_DIR.
Proof.
  destruct (iupdate_ilock me_fs 10 (opened st_fs) ∅ (disk_block fs_disk0) (opened st_fs) 0 root_dir 1
    (Inode 1 1 1 (SleepLock false 0) false 0 0 0 0 0 (replicate 13 0)) tx_fs disk_fs) as (s' & E & H).
  - rewrite size_empty. lia.
  - reflexivity.
  - reflexivity.
  - vm_compute. split; [discriminate|reflexivity].
  - split; cbn [root_dir i_type i_major i_minor i_nlink i_size i_addrs]; try lia; [done|]. by apply Forall_replicate.
  - vm_compute. discriminate.
  - reflexivity.
  - reflexivity.
  - reflexivity.
  - reflexivity.
  - reflexivity.
  - cbn [i_ref]. lia.
  - exists s'. split; [exact E|]. by rewrite H.
Defined.

Lemma write_transaction_witness :
  ∃ s' ino', (begin_op;; r ← writei 0 (FromLocal [1; 2; 3]) 0 3; end_op;; mret r) st_fs = Ok 3 s' ∧
    content (disk_block (io_disk (k_io s'))) (i_addrs ino') 1 = 2.
Proof.
  destruct (write_transaction me_fs st_fs 0 root_dir [1; 2; 3] 0 idle_fs) as (s' & ino' & E & _ & _ & Hc & _).
  - split; [by split|done|by vm_compute|by vm_compute|by vm_compute].
  - apply low_fs.
  - apply here_fs.
  - by vm_compute.
  - by vm_compute.
  - by vm_compute.
  - apply spare_fs.
  - exists s', ino'. split; [exact E|]. etransitivity; [apply (Hc 1); split; [discriminate|reflexivity]|reflexivity].
Defined.
