(* ===== verification/Umalloc.v ===== *)
(** user/umalloc.c: malloc() and free() of user programs.

    A pointer is an address; the memory is seen as the headers stored in it, a
    header taking 16 bytes.  Memory that the program has not written reads as
    zeros, and an access past the break faults. *)

From S2P Require Import Prelude.

(** ** The program *)

(** union header, and sizeof(Header) *)
Record header : Type := Header { h_ptr : Z; h_size : Z }.
Definition HDR : Z := 16.

Record uheap : Type := UHeap {
  u_mem : gmap Z header;
  u_freep : Z;
  u_brk : Z;                (* p->sz, the end of the process's memory *)
}.
Definition set_umem v h := UHeap v (u_freep h) (u_brk h).
Definition set_freep v h := UHeap (u_mem h) v (u_brk h).
Definition set_brk v h := UHeap (u_mem h) (u_freep h) v.

Inductive uerr : Type := UFault (a : Z) | UFuel.
Abbreviation U := (M uerr uheap).

Section umalloc.
(** &base, and whether the kernel has the pages to grow a process of size [sz]
    by [n] bytes (uvmalloc() succeeds). *)
Context (base : Z) (grows : Z → Z → bool).

Definition mapped_at (a : Z) (h : uheap) : bool := (0 <=? a) && (a + HDR <=? u_brk h).

Definition ld (a : Z) : U header :=
  h ← get;
  if mapped_at a h then mret (default (Header 0 0) (u_mem h !! a)) else fail (UFault a).
Definition st (a : Z) (f : header → header) : U unit :=
  x ← ld a;
  modify (λ h, set_umem (<[a := f x]> (u_mem h)) h).
(** p->s.ptr, p->s.size and their assignments *)
Definition ptr (a : Z) : U Z := x ← ld a; mret (h_ptr x).
Definition size_of (a : Z) : U Z := x ← ld a; mret (h_size x).
Definition set_ptr (a v : Z) : U unit := st a (λ x, Header v (h_size x)).
Definition set_size (a v : Z) : U unit := st a (λ x, Header (h_ptr x) (u32 v)).

(** for(p = freep; !(bp > p && bp < p->s.ptr); p = p->s.ptr)
      if(p >= p->s.ptr && (bp > p || bp < p->s.ptr)) break; *)
Fixpoint free_loop (fuel : nat) (bp p : Z) : U Z :=
  q ← ptr p;
  if (p <? bp) && (bp <? q) then mret p
  else if (q <=? p) && ((p <? bp) || (bp <? q)) then mret p
  else
    match fuel with
    | O => fail UFuel
    | S fuel => free_loop fuel bp q
    end.

Definition free (fuel : nat) (ap : Z) : U unit :=
  let bp := ap - HDR in
  freep ← gets u_freep;
  p ← free_loop fuel bp freep;
  q ← ptr p;
  n ← size_of bp;
  (if bp + HDR * n =? q then
     m ← size_of q;
     set_size bp (n + m);;
     r ← ptr q;
     set_ptr bp r
   else set_ptr bp q);;
  n ← size_of p;
  (if p + HDR * n =? bp then
     m ← size_of bp;
     set_size p (n + m);;
     r ← ptr bp;
     set_ptr p r
   else set_ptr p bp);;
  modify (set_freep p).

(** The system call: the int argument, growproc() on the uint size, and the old
    size as an int. *)
Definition sbrk (n : Z) : U Z :=
  let n := s32 n in
  sz ← gets u_brk;
  let sz' := u32 (sz + n) in
  if 0 <? n then
    if sz' <? sz then mret (s32 sz)
    else if grows sz n then modify (set_brk sz');; mret (s32 sz)
    else mret (-1)
  else if n <? 0 then
    modify (set_brk (if sz <=? sz' then sz else sz'));; mret (s32 sz)
  else mret (s32 sz).

(** [None] is the null pointer. *)
Definition morecore (fuel : nat) (nu : Z) : U (option Z) :=
  let nu := if nu <? 4096 then 4096 else nu in
  p ← sbrk (nu * HDR);
  if p =? -1 then mret None
  else
    set_size p nu;;
    free fuel (p + HDR);;
    f ← gets u_freep;
    mret (Some f).

(** for(p = prevp->s.ptr; ; prevp = p, p = p->s.ptr) *)
Fixpoint malloc_loop (fuel : nat) (nunits prevp p : Z) : U (option Z) :=
  match fuel with
  | O => fail UFuel
  | S fuel' =>
      n ← size_of p;
      if nunits <=? n then
        p ←
          (if n =? nunits then
             q ← ptr p;
             set_ptr prevp q;;
             mret p
           else
             set_size p (n - nunits);;
             n ← size_of p;
             let p := p + HDR * n in
             set_size p nunits;;
             mret p);
        modify (set_freep prevp);;
        mret (Some (p + HDR))
      else
        freep ← gets u_freep;
        if p =? freep then
          r ← morecore fuel' nunits;
          match r with
          | None => mret None
          | Some p =>
              q ← ptr p;
              malloc_loop fuel' nunits p q
          end
        else
          q ← ptr p;
          malloc_loop fuel' nunits p q
  end.

Definition nunits_of (nbytes : Z) : Z := u32 ((nbytes + HDR - 1) / HDR + 1).

Definition malloc (fuel : nat) (nbytes : Z) : U (option Z) :=
  let nunits := nunits_of nbytes in
  freep ← gets u_freep;
  prevp ←
    (if freep =? 0 then
       modify (set_freep base);;
       set_ptr base base;;
       set_size base 0;;
       mret base
     else mret freep);
  p ← ptr prevp;
  malloc_loop fuel nunits prevp p.
End umalloc.

(** ** Examples *)

Definition fresh_heap : uheap := UHeap ∅ 0 0x4000.
Definition answer {A} (r : res uerr uheap A) : option A := match r with Ok a _ => Some a | Err _ _ => None end.

(** The first two blocks are cut from the end of the first 64 KB. *)
Example malloc_twice :
  answer ((a ← malloc 0x1000 (λ _ _, true) 10 100;
           b ← malloc 0x1000 (λ _ _, true) 10 20;
           mret (a, b)) fresh_heap) = Some (Some (0x14000 - 112), Some (0x14000 - 112 - 48)).
Proof. vm_compute. reflexivity. Qed.
