(* ===== verification/UmallocSpec.v ===== *)
(** What malloc() and free() of user/umalloc.c promise: the free list is a
    circular list of disjoint blocks, sorted by address and fully merged;
    free() adds a block to it, malloc() takes one out. *)

From S2P Require Import Prelude Umalloc.

(** ** Linked blocks *)

(** The address of the first block of [l], or [z]. *)
Definition first_at (z : Z) (l : list (Z * Z)) : Z := match l with [] => z | (a, _) :: _ => a end.

(** The blocks [l], address and size in units, are linked in this order, the
    last one to [z]. *)
Fixpoint linked (mem : gmap Z header) (l : list (Z * Z)) (z : Z) : Prop :=
  match l with
  | [] => True
  | (a, n) :: l => mem !! a = Some (Header (first_at z l) n) ∧ linked mem l z
  end.

Lemma first_at_app z l1 l2 : first_at z (l1 ++ l2) = first_at (first_at z l2) l1.
Proof. by destruct l1 as [|[]]. Qed.

Lemma linked_app mem l1 l2 z : linked mem (l1 ++ l2) z ↔ linked mem l1 (first_at z l2) ∧ linked mem l2 z.
Proof.
  induction l1 as [|[a n] l1 IH]; cbn [app linked]; [tauto|]. rewrite IH, first_at_app. tauto.
Qed.

Lemma linked_insert mem l z a x : a ∉ l.*1 → linked (<[a := x]> mem) l z ↔ linked mem l z.
Proof.
  induction l as [|[b n] l IH]; cbn [linked fmap list_fmap fst]; [done|]. intros H.
  apply not_elem_of_cons in H as [H1 H2]. rewrite lookup_insert_ne by done. by rewrite IH.
Qed.

(** Sorted by address, with a gap after every block. *)
Fixpoint spaced (l : list (Z * Z)) : Prop :=
  match l with
  | [] => True
  | (a, n) :: l => Forall (λ b, a + 16 * n < b.1) l ∧ 0 ≤ n ∧ spaced l
  end.

Lemma spaced_app l1 l2 :
  spaced (l1 ++ l2) ↔ spaced l1 ∧ spaced l2 ∧ Forall (λ x, Forall (λ b, x.1 + 16 * x.2 < b.1) l2) l1.
Proof.
  induction l1 as [|[a n] l1 IH]; cbn [app spaced].
  - split; [by intros ?; split_and!|tauto].
  - rewrite IH, Forall_app, Forall_cons. cbn. tauto.
Qed.

Lemma spaced_nodup l : spaced l → NoDup l.*1.
Proof.
  induction l as [|[a n] l IH]; cbn [spaced fmap list_fmap fst]; [constructor|].
  intros (H1 & H2 & H3). constructor; [|by apply IH]. intros (x & -> & Hx)%list_elem_of_fmap.
  rewrite Forall_forall in H1. specialize (H1 x Hx). lia.
Qed.

Section spec.
Context (base : Z).

(** The free list [fl] is what the memory holds: it starts with [base], which
    has no units; its other blocks have at least one unit each and lie between
    [base] and the break; [freep] points to one of its blocks. *)
Record heap_ok (h : uheap) (fl : list (Z * Z)) : Prop := {
  ho_base : ∃ l, fl = (base, 0) :: l ∧ Forall (λ b, base + 16 ≤ b.1 ∧ 1 ≤ b.2 ∧ b.1 + 16 * b.2 ≤ u_brk h) l;
  ho_linked : linked (u_mem h) fl base;
  ho_spaced : spaced fl;
  ho_freep : u_freep h ∈ fl.*1;
  ho_brk : 0 < base ∧ base + 16 ≤ u_brk h ∧ u_brk h < 2147483648;
}.

(** Address [a] belongs to a free block. *)
Definition free_at (fl : list (Z * Z)) (a : Z) : Prop := ∃ b n, (b, n) ∈ fl ∧ b ≤ a < b + 16 * n.

(** ** Reading and writing headers *)

Section access.
Context (h : uheap) (fl : list (Z * Z)).
Hypothesis O : heap_ok h fl.

Lemma fl_range a n : (a, n) ∈ fl → base ≤ a ∧ 0 ≤ n ∧ a + 16 ≤ u_brk h ∧ a + 16 * n ≤ u_brk h ∧ (a ≠ base → base + 16 ≤ a ∧ 1 ≤ n).
Proof using O.
  intros Hin. destruct (ho_base _ _ O) as (l & El & Hl). pose proof (ho_brk _ _ O) as Hb. rewrite El in Hin.
  apply elem_of_cons in Hin as [[= -> ->]|Hin]; [lia|]. rewrite Forall_forall in Hl. specialize (Hl _ Hin). cbn in Hl. lia.
Qed.

Lemma ld_run a x : u_mem h !! a = Some x → 0 ≤ a → a + 16 ≤ u_brk h → ld a h = Ok x h.
Proof.
  intros Hx H1 H2. unfold ld, get, mapped_at. unfold mbind, M_bind. change HDR with 16.
  rewrite (proj2 (Z.leb_le 0 a)), (proj2 (Z.leb_le _ _)) by lia. cbn [andb]. by rewrite Hx.
Qed.

Lemma ptr_run a x : u_mem h !! a = Some x → 0 ≤ a → a + 16 ≤ u_brk h → ptr a h = Ok (h_ptr x) h.
Proof. intros. unfold ptr. by rewrite (bind_ok _ _ _ _ _ (ld_run a x ltac:(done) ltac:(done) ltac:(done))). Qed.
Lemma size_run a x : u_mem h !! a = Some x → 0 ≤ a → a + 16 ≤ u_brk h → size_of a h = Ok (h_size x) h.
Proof. intros. unfold size_of. by rewrite (bind_ok _ _ _ _ _ (ld_run a x ltac:(done) ltac:(done) ltac:(done))). Qed.

Lemma set_ptr_run a x v : u_mem h !! a = Some x → 0 ≤ a → a + 16 ≤ u_brk h →
  set_ptr a v h = Ok tt (set_umem (<[a := Header v (h_size x)]> (u_mem h)) h).
Proof. intros. unfold set_ptr, st. by rewrite (bind_ok _ _ _ _ _ (ld_run a x ltac:(done) ltac:(done) ltac:(done))). Qed.
Lemma set_size_run a x v : u_mem h !! a = Some x → 0 ≤ a → a + 16 ≤ u_brk h →
  set_size a v h = Ok tt (set_umem (<[a := Header (h_ptr x) (u32 v)]> (u_mem h)) h).
Proof. intros. unfold set_size, st. by rewrite (bind_ok _ _ _ _ _ (ld_run a x ltac:(done) ltac:(done) ltac:(done))). Qed.
End access.

(** ** The search of free() *)

Section search.
Context (h : uheap) (bp : Z).

(** Blocks whose headers the program can read. *)
Definition readable_at (l : list (Z * Z)) : Prop := Forall (λ b, 0 ≤ b.1 ∧ b.1 + 16 ≤ u_brk h) l.

(** From a block below [bp] up to the last one below it. *)
Lemma free_walk_up w a m l2 z fuel :
  linked (u_mem h) (w ++ (a, m) :: l2) z → readable_at (w ++ (a, m) :: l2) →
  spaced (w ++ (a, m) :: l2) → a < bp → bp < first_at (bp + 1) l2 → z ≤ a → (length w ≤ fuel)%nat →
  free_loop fuel bp (first_at z (w ++ (a, m) :: l2)) h = Ok a h.
Proof.
  intros Hl Hr Hs Ha Hb Hz. revert fuel. induction w as [|[x n] w IH]; intros fuel Hf; cbn [app first_at].
  - destruct Hl as [Hx _]. apply Forall_cons in Hr as [[H1 H2] _]. cbn in H1, H2.
    assert (E : ptr a h = Ok (first_at z l2) h) by (by rewrite (ptr_run _ _ _ Hx)).
    destruct fuel; cbn [free_loop]; rewrite (bind_ok _ _ _ _ _ E); rewrite (proj2 (Z.ltb_lt a bp)) by done;
      (destruct l2 as [|[c q] l2]; cbn [first_at] in *;
       [rewrite (proj2 (Z.leb_le z a)) by done; by destruct (bp <? z)|by rewrite (proj2 (Z.ltb_lt bp c)) by lia]).
  - cbn [length] in Hf. destruct fuel as [|fuel]; [lia|]. cbn [app] in Hl, Hr, Hs. destruct Hl as [Hx Hl].
    apply Forall_cons in Hr as [[H1 H2] Hr]. cbn in H1, H2. destruct Hs as (Hs1 & Hs2 & Hs3).
    assert (E : ptr x h = Ok (first_at z (w ++ (a, m) :: l2)) h) by (by rewrite (ptr_run _ _ _ Hx)).
    set (y := first_at z (w ++ (a, m) :: l2)) in *.
    assert (Hy : x < y ≤ a).
    { destruct w as [|[y' n'] w]; cbn [app first_at] in y; subst y.
      - apply Forall_cons in Hs1 as [Hs1 _]. cbn in Hs1. lia.
      - cbn [app] in Hs1, Hs3. apply Forall_cons in Hs1 as [Hs1 _]. cbn in Hs1. destruct Hs3 as [Hs3 [Hn _]].
        rewrite Forall_app, Forall_cons in Hs3. cbn in Hs3. lia. }
    cbn [free_loop]. rewrite (bind_ok _ _ _ _ _ E). rewrite (proj2 (Z.ltb_ge bp y)), andb_false_r by lia.
    rewrite (proj2 (Z.leb_gt y x)) by lia. cbn [andb]. apply IH; [done|done|done|lia].
Qed.

(** From a block above [bp] to the end of the list and back to its start. *)
Lemma free_walk_over v z fuel :
  linked (u_mem h) v z → readable_at v → spaced v → Forall (λ b, bp < b.1) v → z < bp →
  free_loop (length v + fuel) bp (first_at z v) h = free_loop fuel bp z h.
Proof.
  intros Hl Hr Hs Hb Hz. induction v as [|[x n] v IH]; cbn [length Nat.add first_at]; [done|].
  destruct Hl as [Hx Hl]. apply Forall_cons in Hr as [[H1 H2] Hr]. cbn in H1, H2. destruct Hs as (Hs1 & Hs2 & Hs3).
  apply Forall_cons in Hb as [Hb1 Hb]. cbn in Hb1.
  assert (E : ptr x h = Ok (first_at z v) h) by (by rewrite (ptr_run _ _ _ Hx)).
  cbn [free_loop]. rewrite (bind_ok _ _ _ _ _ E). rewrite (proj2 (Z.ltb_ge x bp)) by lia. cbn [andb orb].
  assert (Hn : (first_at z v <=? x) && (bp <? first_at z v) = false).
  { destruct v as [|[y m] v]; cbn [first_at].
    - rewrite (proj2 (Z.ltb_ge bp z)) by lia. apply andb_false_r.
    - apply Forall_cons in Hs1 as [Hs1 _]. cbn in Hs1. by rewrite (proj2 (Z.leb_gt y x)) by lia. }
  rewrite Hn. by apply IH.
Qed.
End search.

(** free() finds the last free block below the one to be freed. *)
Lemma free_loop_ok h l1 a m l2 bp fuel :
  let fl := l1 ++ (a, m) :: l2 in
  heap_ok h fl → a < bp → bp < first_at (bp + 1) l2 → (length fl ≤ fuel)%nat →
  free_loop fuel bp (u_freep h) h = Ok a h.
Proof.
  intros fl O Ha Hb Hf. pose proof (ho_linked _ _ O) as Hl. pose proof (ho_spaced _ _ O) as Hs.
  assert (Hr : readable_at h fl).
  { apply Forall_forall. intros [x n] Hx. pose proof (fl_range h fl O x n Hx) as Hx'.
    pose proof (ho_brk _ _ O). cbn. lia. }
  assert (Hz : base ≤ a).
  { pose proof (fl_range h fl O a m ltac:(unfold fl; set_solver)). lia. }
  assert (Hfirst : first_at base fl = base) by (destruct (ho_base _ _ O) as (l & -> & _); done).
  assert (Hstart : ∀ f, (length l1 ≤ f)%nat → free_loop f bp base h = Ok a h).
  { intros f Hlf. rewrite <-Hfirst. by apply free_walk_up. }
  assert (Hlen : length fl = (length l1 + S (length l2))%nat) by (unfold fl; by rewrite length_app).
  pose proof (ho_freep _ _ O) as Hp. apply list_elem_of_fmap in Hp as ([x n] & Ex & Hx). cbn in Ex. rewrite Ex. clear Ex.
  assert (Hx' : (x, n) ∈ l1 ++ [(a, m)] ∨ (x, n) ∈ l2) by (unfold fl in Hx; set_solver).
  destruct Hx' as [Hx'|Hx'].
  - apply list_elem_of_split in Hx' as (u & w & E).
    assert (Ew : ∃ w', (x, n) :: w ++ l2 = w' ++ (a, m) :: l2 ∧ l1 ++ [(a, m)] = u ++ w' ++ [(a, m)] ∧ (length w' ≤ length l1)%nat).
    { destruct (decide (w = [])) as [->|Hw].
      - exists []. apply app_inj_tail in E as [<- [= <- <-]]. split_and!; [done|done|cbn; lia].
      - destruct (exists_last Hw) as (w' & y & ->). exists ((x, n) :: w').
        rewrite app_comm_cons, app_assoc in E. apply app_inj_tail in E as [-> <-].
        split_and!; [cbn; by rewrite <-app_assoc|by rewrite <-app_assoc|rewrite length_app; lia]. }
    destruct Ew as (w' & Ew & El & Hlw).
    assert (Efl : fl = u ++ (w' ++ (a, m) :: l2)).
    { unfold fl. change ((a, m) :: l2) with ([(a, m)] ++ l2). rewrite app_assoc, El. by rewrite <-!app_assoc. }
    rewrite Efl in Hl, Hs, Hr. apply linked_app in Hl as [_ Hl]. apply spaced_app in Hs as (_ & Hs & _).
    apply Forall_app in Hr as [_ Hr].
    replace x with (first_at base (w' ++ (a, m) :: l2)) by (by rewrite <-Ew).
    apply free_walk_up; try done. lia.
  - apply list_elem_of_split in Hx' as (u & w & E).
    assert (Efl : fl = (l1 ++ (a, m) :: u) ++ ((x, n) :: w)).
    { unfold fl. rewrite E. by rewrite <-app_assoc. }
    assert (Hup : Forall (λ b, bp < b.1) ((x, n) :: w)).
    { apply Forall_forall. intros y Hy. pose proof Hs as Hs2. unfold fl in Hs2.
      apply spaced_app in Hs2 as (_ & (_ & _ & Hs2) & _).
      assert (Hyl : y ∈ l2) by (rewrite E; set_solver). destruct l2 as [|[c q] l2']; [set_solver|]. cbn [first_at] in Hb.
      apply elem_of_cons in Hyl as [->|Hyl]; [done|]. destruct Hs2 as (Hs2 & Hq & _). rewrite Forall_forall in Hs2.
      specialize (Hs2 y Hyl). lia. }
    rewrite Efl in Hl, Hs, Hr. apply linked_app in Hl as [_ Hl]. apply spaced_app in Hs as (_ & Hs & _).
    apply Forall_app in Hr as [_ Hr]. set (v := (x, n) :: w) in *.
    assert (Hlv : (length v + length l1 ≤ fuel)%nat).
    { rewrite Hlen in Hf. rewrite E, length_app in Hf. lia. }
    replace fuel with (length v + (fuel - length v))%nat by lia.
    change x with (first_at base v). rewrite free_walk_over by (done || lia). apply Hstart. lia.
Qed.
End spec.
