(* ===== verification/UmallocTheorems.v ===== *)
(** What malloc() and free() of user/umalloc.c do to the free list. *)

From S2P Require Import Prelude Umalloc UmallocSpec.

(** ** Headers that may not have been written yet *)

Definition hdr (h : uheap) (a : Z) : header := default (Header 0 0) (u_mem h !! a).
Definition put_hdr (a : Z) (x : header) (h : uheap) : uheap := set_umem (<[a := x]> (u_mem h)) h.

Lemma ld_at h a : 0 ≤ a → a + 16 ≤ u_brk h → ld a h = Ok (hdr h a) h.
Proof.
  intros H1 H2. unfold ld, get, mapped_at, mbind, M_bind. change HDR with 16.
  by rewrite (proj2 (Z.leb_le 0 a)), (proj2 (Z.leb_le _ _)) by lia.
Qed.
Lemma ptr_at h a : 0 ≤ a → a + 16 ≤ u_brk h → ptr a h = Ok (h_ptr (hdr h a)) h.
Proof. intros. unfold ptr. by rewrite (bind_ok _ _ _ _ _ (ld_at h a ltac:(done) ltac:(done))). Qed.
Lemma size_at h a : 0 ≤ a → a + 16 ≤ u_brk h → size_of a h = Ok (h_size (hdr h a)) h.
Proof. intros. unfold size_of. by rewrite (bind_ok _ _ _ _ _ (ld_at h a ltac:(done) ltac:(done))). Qed.
Lemma set_ptr_at h a v : 0 ≤ a → a + 16 ≤ u_brk h → set_ptr a v h = Ok tt (put_hdr a (Header v (h_size (hdr h a))) h).
Proof. intros. unfold set_ptr, st. by rewrite (bind_ok _ _ _ _ _ (ld_at h a ltac:(done) ltac:(done))). Qed.
Lemma set_size_at h a v : 0 ≤ a → a + 16 ≤ u_brk h → set_size a v h = Ok tt (put_hdr a (Header (h_ptr (hdr h a)) (u32 v)) h).
Proof. intros. unfold set_size, st. by rewrite (bind_ok _ _ _ _ _ (ld_at h a ltac:(done) ltac:(done))). Qed.

Lemma freep_run h : (gets u_freep : U Z) h = Ok (u_freep h) h.
Proof. done. Qed.

Lemma hdr_some h a x : u_mem h !! a = Some x → hdr h a = x.
Proof. unfold hdr. by intros ->. Qed.
Lemma hdr_put h a x b : hdr (put_hdr a x h) b = if decide (a = b) then x else hdr h b.
Proof. unfold hdr, put_hdr, set_umem; cbn. case_decide; simplify_map_eq; done. Qed.
Lemma put_put h a x y : put_hdr a y (put_hdr a x h) = put_hdr a y h.
Proof. unfold put_hdr, set_umem; cbn. by rewrite insert_insert_eq. Qed.

(** ** Inserting a block in the free list *)

(** Block [x] before the blocks [l], merged with the first of them when they touch. *)
Definition coalesce (x : Z * Z) (l : list (Z * Z)) : list (Z * Z) :=
  match l with
  | y :: l' => if x.1 + 16 * x.2 =? y.1 then (x.1, x.2 + y.2) :: l' else x :: l
  | [] => [x]
  end.

Fixpoint release (b : Z * Z) (fl : list (Z * Z)) : list (Z * Z) :=
  match fl with
  | [] => [b]
  | x :: l => if b.1 <? first_at (b.1 + 1) l then coalesce x (coalesce b l) else x :: release b l
  end.

(** A block the program has: it lies in the memory above [base] and apart from
    the free blocks. *)
Record owned (base brk : Z) (fl : list (Z * Z)) (b : Z * Z) : Prop := {
  ow_base : base + 16 ≤ b.1;
  ow_size : 1 ≤ b.2;
  ow_brk : b.1 + 16 * b.2 ≤ brk;
  ow_apart : Forall (λ x, x.1 + 16 * x.2 ≤ b.1 ∨ b.1 + 16 * b.2 ≤ x.1) fl;
}.

Lemma first_at_coalesce z x l : first_at z (coalesce x l) = x.1.
Proof. destruct x as [a n], l as [|[c q] l]; [done|]. cbn. by case_match. Qed.

Lemma free_at_cons x l p : free_at (x :: l) p ↔ x.1 ≤ p < x.1 + 16 * x.2 ∨ free_at l p.
Proof.
  unfold free_at. split.
  - intros (b & n & Hin & Hp). apply elem_of_cons in Hin as [<-|Hin]; [by left|right; eauto].
  - destruct x as [a m]. intros [Hp|(b & n & Hin & Hp)]; [exists a, m|exists b, n]; (split; [set_solver|done]).
Qed.

Lemma free_at_coalesce x l p : 0 ≤ x.2 → Forall (λ y, 0 ≤ y.2) l →
  free_at (coalesce x l) p ↔ x.1 ≤ p < x.1 + 16 * x.2 ∨ free_at l p.
Proof.
  intros Hx Hl. destruct l as [|y l]; cbn [coalesce]; [apply free_at_cons|]. case_match eqn:E; [|apply free_at_cons].
  apply Z.eqb_eq in E. apply Forall_cons in Hl as [Hy _]. rewrite !free_at_cons. cbn [fst snd].
  assert (H : x.1 ≤ p < x.1 + 16 * (x.2 + y.2) ↔ x.1 ≤ p < x.1 + 16 * x.2 ∨ y.1 ≤ p < y.1 + 16 * y.2) by lia. tauto.
Qed.

Lemma coalesce_bounds x l (P : Z → Z → Prop) :
  (∀ n, x.2 ≤ n → P x.1 n) → Forall (λ y, 0 ≤ y.2 ∧ P y.1 y.2) l → Forall (λ y, P y.1 y.2) (coalesce x l).
Proof.
  intros Hx Hl. destruct x as [a n], l as [|y l]; cbn [coalesce fst snd] in *; [constructor; [by apply Hx|constructor]|].
  apply Forall_cons in Hl as [[Hy1 Hy2] Hl]. assert (Hl' : Forall (λ y, P y.1 y.2) l) by (eapply Forall_impl; [done|]; cbn; tauto).
  case_match; repeat constructor; cbn [fst snd]; try done; apply Hx; lia.
Qed.

Lemma spaced_coalesce x l :
  0 ≤ x.2 → spaced l → Forall (λ y, x.1 + 16 * x.2 ≤ y.1 ∧ 1 ≤ y.2) l → spaced (coalesce x l).
Proof.
  intros Hx Hs Hl. destruct x as [a n], l as [|[c q] l]; cbn [coalesce fst snd] in *; [by repeat constructor|].
  apply Forall_cons in Hl as [[Hc1 Hc2] Hl]. cbn [fst snd] in *. destruct Hs as (Hs1 & Hs2 & Hs3).
  case_match eqn:E; [apply Z.eqb_eq in E|apply Z.eqb_neq in E]; cbn [spaced]; split_and!; try done; try lia.
  - eapply Forall_impl; [exact Hs1|]. cbn. intros; lia.
  - constructor; [cbn; lia|]. eapply Forall_impl; [exact Hs1|]. cbn. intros; lia.
Qed.

(** The free blocks below and above the one that is released. *)
Lemma release_split b x l :
  spaced (x :: l) → x.1 < b.1 → Forall (λ y, y.1 + 16 * y.2 ≤ b.1 ∨ b.1 + 16 * b.2 ≤ y.1) (x :: l) → 1 ≤ b.2 →
  Forall (λ y, 1 ≤ y.2) l →
  ∃ l1 a l2, x :: l = l1 ++ a :: l2 ∧ release b (x :: l) = l1 ++ coalesce a (coalesce b l2) ∧
    a.1 < b.1 ∧ a.1 + 16 * a.2 ≤ b.1 ∧ b.1 < first_at (b.1 + 1) l2 ∧ Forall (λ y, b.1 + 16 * b.2 ≤ y.1) l2.
Proof.
  revert x. induction l as [|[c q] l IH]; intros [a m] Hs Hx Hd Hb Hn; cbn [release first_at fst] in *.
  - rewrite (proj2 (Z.ltb_lt _ _)) by lia. apply Forall_cons in Hd as [Hd _]. cbn in Hd.
    exists [], (a, m), []. cbn. split_and!; (done || lia || constructor).
  - apply Forall_cons in Hd as [Hd Hd']. cbn in Hd. destruct Hs as (Hs1 & Hs2 & Hs3).
    apply Forall_cons in Hn as [Hc0 Hn]. cbn in Hc0.
    destruct (b.1 <? c) eqn:E; [apply Z.ltb_lt in E|apply Z.ltb_ge in E].
    + exists [], (a, m), ((c, q) :: l). cbn [fst snd first_at app]. split_and!; try (done || lia).
      apply Forall_cons in Hd' as [Hc _]. cbn in Hc. destruct Hs3 as (Hs3 & Hq & _).
      constructor; [cbn; lia|]. eapply Forall_impl; [exact Hs3|]. cbn. intros; lia.
    + assert (Hc : c < b.1).
      { apply Forall_cons in Hd' as [Hc _]. cbn in Hc. destruct Hs3 as (_ & Hq & _).
        destruct (decide (c = b.1)) as [->|]; [|lia]. apply Forall_cons in Hs1 as [Hs1 _]. cbn in Hs1.
        destruct Hc; [|lia]. lia. }
      destruct (IH (c, q) Hs3 Hc Hd' Hb Hn) as (l1 & y & l2 & E1 & E2 & H1 & H2 & H3 & H4).
      exists ((a, m) :: l1), y, l2. rewrite E1. split_and!; try done. cbn [app]. f_equal. exact E2.
Qed.

(** The shape of the free list, without the memory that holds it. *)
Definition blocks_ok (base brk : Z) (fl : list (Z * Z)) : Prop :=
  (∃ l, fl = (base, 0) :: l ∧ Forall (λ b, base + 16 ≤ b.1 ∧ 1 ≤ b.2 ∧ b.1 + 16 * b.2 ≤ brk) l) ∧ spaced fl.

Lemma heap_blocks base h fl : heap_ok base h fl → blocks_ok base (u_brk h) fl.
Proof. intros O. split; [exact (ho_base _ _ _ O)|exact (ho_spaced _ _ _ O)]. Qed.

(** The block to be released, and the free blocks around it. *)
Record split_at (base brk : Z) (fl : list (Z * Z)) (b : Z * Z) (l1 : list (Z * Z)) (a : Z * Z) (l2 : list (Z * Z)) : Prop := {
  sp_list : fl = l1 ++ a :: l2;
  sp_release : release b fl = l1 ++ coalesce a (coalesce b l2);
  sp_below : base ≤ a.1 < b.1 ∧ 0 ≤ a.2 ∧ a.1 + 16 * a.2 ≤ b.1;
  sp_next : b.1 < first_at (b.1 + 1) l2;
  sp_above : Forall (λ y, b.1 + 16 * b.2 ≤ y.1 ∧ 1 ≤ y.2 ∧ y.1 + 16 * y.2 ≤ brk) l2;
}.

Lemma owned_split base brk fl b : blocks_ok base brk fl → owned base brk fl b → ∃ l1 a l2, split_at base brk fl b l1 a l2.
Proof.
  intros [(l & -> & Hl) Hs] [H1 H2 H3 H4].
  destruct (release_split b (base, 0) l Hs ltac:(cbn; lia) H4 H2) as (l1 & a & l2 & E1 & E2 & Ha1 & Ha2 & Hn & Ha3).
  { eapply Forall_impl; [exact Hl|]. cbn. tauto. }
  exists l1, a, l2. assert (Hin : a ∈ (base, 0) :: l) by (rewrite E1; set_solver).
  rewrite Forall_forall in Hl. split; try done.
  - apply elem_of_cons in Hin as [->|Hin]; [cbn; lia|]. specialize (Hl a Hin). lia.
  - apply Forall_forall. intros y Hy. rewrite Forall_forall in Ha3. specialize (Ha3 y Hy). split; [done|].
    assert (Hyl : y ∈ (base, 0) :: l) by (rewrite E1; set_solver). apply elem_of_cons in Hyl as [->|Hyl]; [cbn in Ha3; lia|].
    specialize (Hl y Hyl). tauto.
Qed.

Lemma owned_not_listed base brk fl b : blocks_ok base brk fl → owned base brk fl b → b.1 ∉ fl.*1.
Proof.
  intros [(l & -> & Hl) _] [H1 H2 _ H4] (x & E & Hx)%list_elem_of_fmap. rewrite Forall_forall in Hl, H4. specialize (H4 x Hx).
  apply elem_of_cons in Hx as [->|Hx]; [cbn in E; lia|]. specialize (Hl x Hx). lia.
Qed.

Lemma coalesce_spaced_ends x l brk :
  x.1 + 16 * x.2 ≤ brk → Forall (λ y, y.1 + 16 * y.2 ≤ brk) l → Forall (λ y, y.1 + 16 * y.2 ≤ brk) (coalesce x l).
Proof.
  intros Hx Hl. destruct l as [|y l]; cbn [coalesce]; [by constructor|]. apply Forall_cons in Hl as [Hy Hl].
  case_match eqn:E; repeat constructor; try done. apply Z.eqb_eq in E. cbn. lia.
Qed.

Lemma release_ok base brk fl b : blocks_ok base brk fl → owned base brk fl b → blocks_ok base brk (release b fl).
Proof.
  intros Hok Hown. destruct (owned_split _ _ _ _ Hok Hown) as (l1 & [a m] & l2 & [E1 E2 Ha Hn Hab]). rewrite E2.
  cbn [fst snd] in *.
  destruct Hok as [(l & El & Hl) Hs], Hown as [Hb1 Hb2 Hb3 Hb4]. pose proof Hs as Hs'.
  rewrite E1 in Hs'. apply spaced_app in Hs' as (Hs1 & (Hs2 & Hs3 & Hs4) & Hs5).
  assert (Hc1 : Forall (λ y, b.1 ≤ y.1 ∧ 1 ≤ y.2) (coalesce b l2)).
  { apply (coalesce_bounds b l2 (λ c n, b.1 ≤ c ∧ 1 ≤ n)); [lia|]. eapply Forall_impl; [exact Hab|]. cbn. lia. }
  assert (Hc2 : Forall (λ y, y.1 + 16 * y.2 ≤ brk) (coalesce b l2)).
  { apply coalesce_spaced_ends; [done|]. eapply Forall_impl; [exact Hab|]. cbn. lia. }
  assert (Hc3 : spaced (coalesce b l2)).
  { apply spaced_coalesce; [lia|done|]. eapply Forall_impl; [exact Hab|]. cbn. lia. }
  split.
  - destruct l1 as [|x l1].
    + cbn [app] in *. rewrite E1 in El. injection El as -> -> <-. exists (coalesce b l2). split.
      * pose proof (first_at_coalesce 0 b l2) as Hf. destruct (coalesce b l2) as [|y c]; [done|]. cbn [coalesce fst snd].
        destruct y as [y1 y2]; cbn in Hf. subst y1. by rewrite (proj2 (Z.eqb_neq _ _)) by (cbn; lia).
      * rewrite Forall_forall in Hc1, Hc2 |- *. intros y Hy. specialize (Hc1 y Hy); specialize (Hc2 y Hy). lia.
    + rewrite E1 in El. cbn [app] in El |- *. injection El as -> El. exists (l1 ++ coalesce (a, m) (coalesce b l2)). split; [done|].
      rewrite <-El in Hl. rewrite Forall_app, Forall_cons in Hl. destruct Hl as (Hl1 & Hla & Hl2).
      cbn [fst snd] in Hla. apply Forall_app. split; [done|].
      assert (H1 : Forall (λ y, base + 16 ≤ y.1 ∧ 1 ≤ y.2) (coalesce (a, m) (coalesce b l2))).
      { apply (coalesce_bounds (a, m) _ (λ c n, base + 16 ≤ c ∧ 1 ≤ n)); [cbn; lia|]. eapply Forall_impl; [exact Hc1|]. cbn. lia. }
      assert (H2 : Forall (λ y, y.1 + 16 * y.2 ≤ brk) (coalesce (a, m) (coalesce b l2))) by (apply coalesce_spaced_ends; [cbn; lia|done]).
      rewrite Forall_forall in H1, H2 |- *. intros y Hy. specialize (H1 y Hy); specialize (H2 y Hy). lia.
  - apply spaced_app. split_and!; [done| |].
    + apply spaced_coalesce; [cbn; lia|done|]. eapply Forall_impl; [exact Hc1|]. cbn. lia.
    + rewrite Forall_forall in Hs5 |- *. intros x Hx. specialize (Hs5 x Hx). apply Forall_cons in Hs5 as [Hxa _]. cbn in Hxa.
      apply (coalesce_bounds (a, m) _ (λ c _, x.1 + 16 * x.2 < c)); [done|]. eapply Forall_impl; [exact Hc1|]. cbn. lia.
Qed.

(** The addresses that are free after a block has been released. *)
Lemma release_free_at base brk fl b p : blocks_ok base brk fl → owned base brk fl b →
  free_at (release b fl) p ↔ b.1 ≤ p < b.1 + 16 * b.2 ∨ free_at fl p.
Proof.
  intros Hok Hown. destruct (owned_split _ _ _ _ Hok Hown) as (l1 & a & l2 & [E1 E2 Ha Hn Hab]). rewrite E2, E1.
  pose proof (ow_size _ _ _ _ Hown) as Hb.
  assert (Hc : Forall (λ y, 0 ≤ y.2) (coalesce b l2)).
  { apply (coalesce_bounds b l2 (λ _ n, 0 ≤ n)); [lia|]. eapply Forall_impl; [exact Hab|]. cbn. lia. }
  assert (Happ : ∀ l l', free_at (l ++ l') p ↔ free_at l p ∨ free_at l' p).
  { intros l l'. unfold free_at. setoid_rewrite elem_of_app. naive_solver. }
  rewrite !Happ, free_at_coalesce, free_at_coalesce, free_at_cons; try tauto; try lia.
  eapply Forall_impl; [exact Hab|]. cbn. lia.
Qed.

(** ** free() *)

Lemma linked_agree mem mem' l z : (∀ x, x ∈ l.*1 → mem' !! x = mem !! x) → linked mem l z → linked mem' l z.
Proof.
  induction l as [|[a n] l IH]; [done|]. cbn [linked fmap list_fmap fst]. intros Ha [H1 H2]. split.
  - rewrite Ha; [done|set_solver].
  - apply IH; [|done]. intros x Hx. apply Ha. set_solver.
Qed.

(** Either half of free(): [x] takes over the block it touches, or points to it. *)
Lemma attach_ok h x n l z :
  h_size (hdr h x) = n → 0 ≤ x → x + 16 ≤ u_brk h → linked (u_mem h) l z → x ∉ l.*1 →
  Forall (λ y, 0 ≤ y.1 ∧ y.1 + 16 ≤ u_brk h ∧ 0 ≤ n + y.2 < 4294967296) l → (l = [] → x + 16 * n ≠ z) →
  ∃ v, (if x + HDR * n =? first_at z l then
          m ← size_of (first_at z l);
          set_size x (n + m);;
          r ← ptr (first_at z l);
          set_ptr x r
        else set_ptr x (first_at z l)) h = Ok tt (put_hdr x v h) ∧
       linked (u_mem (put_hdr x v h)) (coalesce (x, n) l) z.
Proof.
  intros Hn Hx Hx' Hl Hd Hr Hz. change HDR with 16. destruct l as [|[y m] l]; cbn [first_at].
  - rewrite (proj2 (Z.eqb_neq _ _)) by by apply Hz. exists (Header z n). rewrite set_ptr_at, Hn by done.
    split; [done|]. cbn. by rewrite lookup_insert_eq.
  - destruct Hl as [Hy Hl]. apply not_elem_of_cons in Hd as [Hd1 Hd2]. apply Forall_cons in Hr as [(Hy1 & Hy2 & Hy3) Hr].
    cbn [fst snd] in *. assert (Ey : hdr h y = Header (first_at z l) m) by (by apply hdr_some).
    assert (Hin : ∀ v, linked (u_mem (put_hdr x v h)) l z) by (intros v; by apply linked_insert).
    cbn [coalesce fst snd]. destruct (x + 16 * n =? y) eqn:E.
    + rewrite (bind_ok _ _ _ _ _ (size_at h y Hy1 Hy2)), Ey. cbn [h_size].
      rewrite (bind_ok _ _ _ _ _ (set_size_at h x (n + m) Hx Hx')).
      rewrite (bind_ok _ _ _ _ _ (ptr_at (put_hdr x _ h) y Hy1 Hy2)), hdr_put, decide_False, Ey by done. cbn [h_ptr].
      rewrite set_ptr_at, hdr_put, decide_True, put_put by done. cbn [h_size]. eexists. split; [done|].
      cbn [linked]. split; [|apply Hin]. unfold put_hdr, set_umem; cbn. rewrite lookup_insert_eq. do 2 f_equal.
      apply u32_small. lia.
    + rewrite set_ptr_at, Hn by done. eexists. split; [done|]. cbn [linked first_at]. unfold put_hdr, set_umem; cbn.
      rewrite lookup_insert_eq. split; [done|]. rewrite lookup_insert_ne by done. split; [done|]. apply (Hin (Header y n)).
Qed.

Lemma free_ok base h fl b fuel :
  heap_ok base h fl → owned base (u_brk h) fl b → h_size (hdr h b.1) = b.2 → (length fl ≤ fuel)%nat →
  ∃ h', free fuel (b.1 + 16) h = Ok tt h' ∧ heap_ok base h' (release b fl) ∧ u_brk h' = u_brk h ∧
    (∀ x, x ≠ b.1 → x ∉ fl.*1 → u_mem h' !! x = u_mem h !! x).
Proof.
  intros O Hown Hsz Hf. pose proof (heap_blocks _ _ _ O) as Hok. pose proof (ho_brk _ _ _ O) as Hbrk.
  destruct (owned_split _ _ _ _ Hok Hown) as (l1 & [a m] & l2 & [E1 E2 Ha Hn Hab]).
  pose proof (release_ok _ _ _ _ Hok Hown) as [Hok1 Hok2]. pose proof (owned_not_listed _ _ _ _ Hok Hown) as Hnb. destruct b as [bp n]. cbn [fst snd] in *.
  destruct Hown as [Hb1 Hb2 Hb3 Hb4]. cbn [fst snd] in *.
  pose proof (ho_linked _ _ _ O) as Hl. pose proof (spaced_nodup _ (ho_spaced _ _ _ O)) as Hnd. rewrite E1 in Hl, Hnd.
  apply linked_app in Hl as [Hl1 [Hla Hl2]]. cbn [first_at] in Hl1.
  rewrite fmap_app in Hnd. cbn in Hnd. apply NoDup_app in Hnd as (_ & Hd1 & [Hd2 _]%NoDup_cons).
  assert (Eloop : free_loop fuel bp (u_freep h) h = Ok a h).
  { subst fl. eapply (free_loop_ok base h l1 a m l2); eauto; lia. }
  unfold free. replace (bp + 16 - HDR) with bp by (unfold HDR; lia). cbv zeta.
  rewrite (bind_ok _ _ _ _ _ (freep_run h)), (bind_ok _ _ _ _ _ Eloop).
  assert (Ea : hdr h a = Header (first_at base l2) m) by (by apply hdr_some).
  rewrite (bind_ok _ _ _ _ _ (ptr_at h a ltac:(lia) ltac:(lia))), Ea. cbn [h_ptr].
  rewrite (bind_ok _ _ _ _ _ (size_at h bp ltac:(lia) ltac:(lia))), Hsz.
  destruct (attach_ok h bp n l2 base Hsz ltac:(lia) ltac:(lia) Hl2) as (v1 & R1 & K1); [| |lia|].
  { intros Hin. apply Hnb. rewrite E1, fmap_app. cbn. set_solver. }
  { eapply Forall_impl; [exact Hab|]. cbn. lia. }
  rewrite (bind_ok _ _ _ _ _ R1). set (h1 := put_hdr bp v1 h) in *.
  assert (Ea1 : hdr h1 a = Header (first_at base l2) m).
  { unfold h1. rewrite hdr_put, decide_False by lia. done. }
  rewrite (bind_ok _ _ _ _ _ (size_at h1 a ltac:(lia) ltac:(cbn; lia))), Ea1. cbn [h_size].
  assert (Efst : first_at base (coalesce (bp, n) l2) = bp) by apply (first_at_coalesce base (bp, n) l2).
  assert (Hc1 : Forall (λ y, bp ≤ y.1 ∧ 1 ≤ y.2) (coalesce (bp, n) l2)).
  { apply (coalesce_bounds (bp, n) l2 (λ c n, bp ≤ c ∧ 1 ≤ n)); [cbn; lia|]. eapply Forall_impl; [exact Hab|]. cbn. lia. }
  assert (Hc2 : Forall (λ y, y.1 + 16 * y.2 ≤ u_brk h) (coalesce (bp, n) l2)).
  { apply coalesce_spaced_ends; [done|]. eapply Forall_impl; [exact Hab|]. cbn. lia. }
  destruct (attach_ok h1 a m (coalesce (bp, n) l2) base) as (v2 & R2 & K2);
    [by rewrite Ea1|lia|cbn; lia|exact K1| | |intros E; rewrite E in Efst; cbn in Efst; lia|].
  { intros (y & E & Hy)%list_elem_of_fmap. rewrite Forall_forall in Hc1. specialize (Hc1 y Hy). lia. }
  { rewrite Forall_forall in Hc1, Hc2 |- *. intros y Hy. specialize (Hc1 y Hy); specialize (Hc2 y Hy). cbn. lia. }
  rewrite Efst in R2. rewrite (bind_ok _ _ _ _ _ R2). set (h2 := put_hdr a v2 h1) in *.
  exists (set_freep a h2). split; [done|]. split; [|split; [done|]].
  - rewrite E2 in Hok1, Hok2 |- *. split; try done.
    + apply linked_app. split; [|exact K2]. rewrite (first_at_coalesce base (a, m)). cbn [fst].
      eapply linked_agree; [|exact Hl1]. intros x Hx. cbn. rewrite !lookup_insert_ne; [done| |].
      * intros <-. apply Hnb. rewrite E1, fmap_app. set_solver.
      * intros <-. apply (Hd1 a Hx). set_solver.
    + cbn [u_freep set_freep]. rewrite fmap_app. apply elem_of_app. right.
      pose proof (first_at_coalesce 0 (a, m) (coalesce (bp, n) l2)) as Hfa. destruct (coalesce (a, m) _) as [|[y k] c]; cbn in Hfa; [lia|].
      subst y. cbn. set_solver.
  - intros x Hx1 Hx2. cbn. rewrite !lookup_insert_ne; [done|done|]. intros <-. apply Hx2. rewrite E1, fmap_app. cbn. set_solver.
Qed.

(** ** Taking a block out of the free list *)

(** [nu] units from the end of the block at [p], or the whole block. *)
Fixpoint take_out (p nu : Z) (fl : list (Z * Z)) : list (Z * Z) :=
  match fl with
  | [] => []
  | (a, n) :: l =>
      if a =? p then if n =? nu then l else (a, n - nu) :: l
      else (a, n) :: take_out p nu l
  end.

(** The blocks after the one at [f], and those up to it. *)
Fixpoint after (f : Z) (fl : list (Z * Z)) : list (Z * Z) :=
  match fl with [] => [] | x :: l => if x.1 =? f then l else after f l end.
Fixpoint upto (f : Z) (fl : list (Z * Z)) : list (Z * Z) :=
  match fl with [] => [] | x :: l => if x.1 =? f then [x] else x :: upto f l end.

(** The first block of at least [nu] units, from the one after [f] around the
    list. *)
Definition next_fit (nu f : Z) (fl : list (Z * Z)) : option (Z * Z) :=
  List.find (λ b, nu <=? b.2) (after f fl ++ upto f fl).

Lemma rotation f fl : f ∈ fl.*1 → ∃ l1 m l2, fl = l1 ++ (f, m) :: l2 ∧ (f ∉ l1.*1) ∧ after f fl = l2 ∧ upto f fl = l1 ++ [(f, m)].
Proof.
  induction fl as [|[a n] l IH]; cbn [fmap list_fmap fst after upto]; [set_solver|]. intros H.
  destruct (a =? f) eqn:E; [apply Z.eqb_eq in E as ->|apply Z.eqb_neq in E].
  - exists [], n, l. split_and!; try done. cbn. set_solver.
  - apply elem_of_cons in H as [->|H]; [done|]. destruct (IH H) as (l1 & m & l2 & -> & Hn & -> & ->).
    exists ((a, n) :: l1), m, l2. split_and!; try done. cbn. set_solver.
Qed.

Lemma take_out_at p n nu u1 u2 : p ∉ u1.*1 →
  take_out p nu (u1 ++ (p, n) :: u2) = u1 ++ (if n =? nu then u2 else (p, n - nu) :: u2).
Proof.
  induction u1 as [|[a m] u1 IH]; cbn [app take_out fmap list_fmap fst]; intros H; [by rewrite Z.eqb_refl|].
  apply not_elem_of_cons in H as [H1 H2]. rewrite (proj2 (Z.eqb_neq a p)) by done. by rewrite IH.
Qed.

Lemma spaced_take p n nu u1 u2 : spaced (u1 ++ (p, n) :: u2) → 1 ≤ nu ≤ n →
  spaced (u1 ++ (if n =? nu then u2 else (p, n - nu) :: u2)).
Proof.
  rewrite !spaced_app. intros (H1 & (H2 & H3 & H4) & H5) Hn. split_and!; [done| |].
  - case_match; [done|]. cbn [spaced]. split_and!; [|lia|done]. eapply Forall_impl; [exact H2|]. cbn. lia.
  - eapply Forall_impl; [exact H5|]. cbn. intros x [Hx1 Hx2]%Forall_cons. cbn in Hx1. case_match; [done|]. by constructor.
Qed.

Lemma spaced_skip u1 y l : spaced (u1 ++ y :: l) → 0 ≤ y.2 → Forall (λ x, x.1 ≤ y.1) u1.
Proof.
  intros (H1 & _ & H)%spaced_app Hy. apply Forall_forall. intros x Hx. rewrite Forall_forall in H. specialize (H x Hx).
  apply Forall_cons in H as [H _]. assert (0 ≤ x.2); [|lia].
  clear H. induction u1 as [|[a n] u1 IH]; [set_solver|]. destruct H1 as (_ & H1 & H2).
  apply elem_of_cons in Hx as [->|Hx]; [done|by apply IH].
Qed.

Lemma release_skip b u1 y l : Forall (λ x, x.1 ≤ b.1) (u1 ++ [y]) → release b (u1 ++ y :: l) = u1 ++ release b (y :: l).
Proof.
  induction u1 as [|x u1 IH]; [done|]. cbn [app]. intros [_ Hx]%Forall_cons. rewrite <-IH by done. cbn [release].
  rewrite (proj2 (Z.ltb_ge _ _)); [done|]. destruct u1 as [|[c q] u1]; apply Forall_cons in Hx as [Hx _]; [by destruct y|done].
Qed.

Lemma coalesce_gap x l : spaced (x :: l) → coalesce x l = x :: l.
Proof.
  destruct x as [a n], l as [|[c q] l]; [done|]. intros (H & _). apply Forall_cons in H as [H _]. cbn in H.
  cbn [coalesce fst snd]. by rewrite (proj2 (Z.eqb_neq _ _)) by lia.
Qed.

(** Releasing the block that was taken out restores the list. *)
Lemma release_take_out base brk fl p n nu : blocks_ok base brk fl → (p, n) ∈ fl → 1 ≤ nu ≤ n →
  owned base brk (take_out p nu fl) (p + 16 * (n - nu), nu) ∧
  blocks_ok base brk (take_out p nu fl) ∧
  release (p + 16 * (n - nu), nu) (take_out p nu fl) = fl.
Proof.
  intros [(l & El & Hl) Hs] Hin Hn. assert (Hin' := Hin). rewrite El in Hin'.
  apply elem_of_cons in Hin' as [[= -> ->]|Hin']; [lia|]. clear Hin.
  pose proof (proj1 (Forall_forall _ _) Hl _ Hin') as Hp. cbn in Hp.
  apply list_elem_of_split in Hin' as (u1 & u2 & ->).
  pose proof (spaced_nodup _ Hs) as Hnd. rewrite El in Hnd, Hs.
  assert (Hpu : p ∉ ((base, 0) :: u1).*1).
  { rewrite app_comm_cons, fmap_app in Hnd. apply NoDup_app in Hnd as (_ & Hnd & _). intros Hx. apply (Hnd p Hx). set_solver. }
  rewrite El, app_comm_cons, take_out_at by done.
  rewrite app_comm_cons in Hs. pose proof (spaced_take p n nu _ _ Hs Hn) as Hs'. pose proof Hs as (Hs1 & Hs2 & Hs3)%spaced_app.
  apply Forall_app in Hl as [Hl1 [_ Hl2]%Forall_cons]. set (u := (base, 0) :: u1) in *.
  set (b := (p + 16 * (n - nu), nu)). destruct Hs2 as (Hs2 & _ & Hs4).
  split_and!.
  - assert (Hu1 : Forall (λ x, x.1 + 16 * x.2 ≤ b.1 ∨ b.1 + 16 * b.2 ≤ x.1) u).
    { eapply Forall_impl; [exact Hs3|]. cbn. intros x [Hx _]%Forall_cons. cbn in Hx. lia. }
    assert (Hu2 : Forall (λ x, x.1 + 16 * x.2 ≤ b.1 ∨ b.1 + 16 * b.2 ≤ x.1) u2).
    { eapply Forall_impl; [exact Hs2|]. cbn. intros; lia. }
    split; [cbn; lia|cbn; lia|cbn; lia|]. apply Forall_app. split; [done|]. case_match; [done|]. constructor; [cbn; lia|done].
  - split; [|done]. eexists. split; [reflexivity|]. apply Forall_app. split; [done|]. case_match eqn:E; [done|].
    apply Z.eqb_neq in E. constructor; [cbn; lia|done].
  - assert (Hle : Forall (λ x, x.1 ≤ b.1) u).
    { eapply Forall_impl; [exact (spaced_skip u (p, n) u2 Hs ltac:(cbn; lia))|]. cbn. intros; lia. }
    assert (Hlt : b.1 < first_at (b.1 + 1) u2).
    { destruct u2 as [|[c q] u2]; cbn; [lia|]. apply Forall_cons in Hs2 as [Hs2 _]. cbn in Hs2. lia. }
    assert (Hb : coalesce b u2 = b :: u2).
    { apply coalesce_gap. cbn [spaced b]. split_and!; [|lia|done]. eapply Forall_impl; [exact Hs2|]. cbn. lia. }
    case_match eqn:E; [apply Z.eqb_eq in E as ->|apply Z.eqb_neq in E].
    + assert (Eb : b = (p, nu)) by (unfold b; f_equal; lia).
      destruct (exists_last (l := u) ltac:(done)) as (u' & y & Eu). rewrite Eu in Hle, Hs |- *. rewrite <-!app_assoc in *. cbn [app] in *.
      rewrite release_skip by done. f_equal. cbn [release]. rewrite (proj2 (Z.ltb_lt _ _)), Hb by done. rewrite Eb.
      apply coalesce_gap. by apply spaced_app in Hs as (_ & Hs & _).
    + rewrite release_skip. 2:{ apply Forall_app. split; [done|]. constructor; [cbn; lia|constructor]. }
      f_equal. cbn [release]. rewrite (proj2 (Z.ltb_lt _ _)), Hb by done. cbn [coalesce fst snd b].
      rewrite (proj2 (Z.eqb_eq _ _)) by lia. f_equal. f_equal. lia.
Qed.

(** ** malloc() *)

(** The last block of [v], or [prev]. *)
Definition last_at (prev : Z) (v : list (Z * Z)) : Z := foldl (λ _ b, b.1) prev v.

Lemma malloc_step grows h nu p n prev fuel q :
  u_mem h !! p = Some (Header q n) → 0 ≤ p → p + 16 ≤ u_brk h → n < nu → u_freep h ≠ p →
  malloc_loop grows (S fuel) nu prev p h = malloc_loop grows fuel nu p q h.
Proof.
  intros Hp H1 H2 Hn Hf. cbn [malloc_loop]. rewrite (bind_ok _ _ _ _ _ (size_at h p H1 H2)), (hdr_some _ _ _ Hp). cbn [h_size].
  rewrite (proj2 (Z.leb_gt _ _)) by done. rewrite (bind_ok _ _ _ _ _ (freep_run h)).
  rewrite (proj2 (Z.eqb_neq _ _)) by done. by rewrite (bind_ok _ _ _ _ _ (ptr_at h p H1 H2)), (hdr_some _ _ _ Hp).
Qed.

(** The search passes over blocks that are too small. *)
Lemma malloc_walk grows h nu v prev z fuel :
  linked (u_mem h) v z → readable_at h v → Forall (λ b, b.2 < nu) v → u_freep h ∉ v.*1 →
  malloc_loop grows (length v + fuel) nu prev (first_at z v) h = malloc_loop grows fuel nu (last_at prev v) z h.
Proof.
  revert prev. induction v as [|[p n] v IH]; intros prev Hl Hr Hs Hf; [done|]. cbn [length Nat.add first_at].
  destruct Hl as [Hp Hl]. apply Forall_cons in Hr as [[H1 H2] Hr]. apply Forall_cons in Hs as [Hn Hs]. cbn in H1, H2, Hn.
  apply not_elem_of_cons in Hf as [Hf1 Hf2]. rewrite (malloc_step _ _ _ _ _ _ _ _ Hp) by done. by apply IH.
Qed.

Lemma last_points h v prev k z : u_mem h !! prev = Some (Header (first_at z v) k) → linked (u_mem h) v z →
  last_at prev v ∈ prev :: v.*1 ∧ ∃ k, u_mem h !! last_at prev v = Some (Header z k).
Proof.
  revert prev k. induction v as [|[p n] v IH]; intros prev k Hp Hl; cbn [last_at foldl]; [split; [set_solver|eauto]|].
  destruct Hl as [Hl1 Hl2]. destruct (IH p n Hl1 Hl2) as [H1 H2]. split; [|done]. cbn [fmap list_fmap fst]. unfold last_at in H1. set_solver.
Qed.

(** The block before [p] is the one that points to it. *)
Lemma linked_pred mem l z x p k : linked mem l z → x ∈ l.*1 → mem !! x = Some (Header p k) → p ≠ z →
  ∃ u1 n u2, l = u1 ++ (x, k) :: (p, n) :: u2.
Proof.
  induction l as [|[a n] l IH]; intros Hl Hx Hp Hz; [set_solver|]. destruct Hl as [Ha Hl].
  cbn [fmap list_fmap fst] in Hx. destruct (decide (x = a)) as [->|Hne].
  - rewrite Ha in Hp. injection Hp as Hp ->. destruct l as [|[c q] l]; cbn in Hp; [congruence|]. subst c. by exists [], q, l.
  - apply elem_of_cons in Hx as [->|Hx]; [done|]. destruct (IH Hl Hx Hp Hz) as (u1 & m & u2 & ->). by exists ((a, n) :: u1), m, u2.
Qed.

(** What malloc() has done when it takes [nu] units of the block [(p, n)]. *)
Record taken (base brk : Z) (fl : list (Z * Z)) (nu p n : Z) (h' : uheap) : Prop := {
  tk_fit : (p, n) ∈ fl ∧ nu ≤ n;
  tk_heap : heap_ok base h' (take_out p nu fl);
  tk_brk : u_brk h' = brk;
  tk_size : h_size (hdr h' (p + 16 * (n - nu))) = nu;
}.

Lemma malloc_take base grows h fl nu prev p k n u1 u2 fuel :
  heap_ok base h fl → fl = u1 ++ (prev, k) :: (p, n) :: u2 → 1 ≤ nu ≤ n →
  ∃ h', malloc_loop grows (S fuel) nu prev p h = Ok (Some (p + 16 * (n - nu) + 16)) h' ∧ taken base (u_brk h) fl nu p n h'.
Proof.
  intros O E Hn. pose proof (heap_blocks _ _ _ O) as Hok. pose proof (ho_brk _ _ _ O) as Hbrk.
  assert (Hin : (p, n) ∈ fl) by (rewrite E; set_solver).
  destruct (release_take_out _ _ _ p n nu Hok Hin Hn) as (_ & [Hok1 Hok2] & _).
  pose proof (fl_range _ _ _ O p n Hin) as Hp. pose proof (fl_range _ _ _ O prev k ltac:(rewrite E; set_solver)) as Hprev.
  pose proof (ho_linked _ _ _ O) as Hl. pose proof (spaced_nodup _ (ho_spaced _ _ _ O)) as Hnd. rewrite E in Hl, Hnd.
  apply linked_app in Hl as (Hl1 & Hl2 & Hl3 & Hl4). cbn [first_at] in Hl1, Hl2.
  rewrite fmap_app in Hnd. cbn in Hnd. apply NoDup_app in Hnd as (_ & Hd1 & [Hd2 [Hd3 _]%NoDup_cons]%NoDup_cons).
  assert (Hpu : p ∉ (u1 ++ [(prev, k)]).*1).
  { rewrite fmap_app. cbn. intros [Hx|Hx]%elem_of_app; [apply (Hd1 p Hx)|]; set_solver. }
  assert (Et : take_out p nu fl = u1 ++ (prev, k) :: (if n =? nu then u2 else (p, n - nu) :: u2)).
  { rewrite E. change ((prev, k) :: (p, n) :: u2) with ([(prev, k)] ++ (p, n) :: u2). rewrite app_assoc, take_out_at by done. by rewrite <-app_assoc. }
  cbn [malloc_loop]. rewrite (bind_ok _ _ _ _ _ (size_at h p ltac:(lia) ltac:(lia))), (hdr_some _ _ _ Hl3). cbn [h_size].
  rewrite (proj2 (Z.leb_le _ _)) by lia. destruct (n =? nu) eqn:En; [apply Z.eqb_eq in En as ->|apply Z.eqb_neq in En].
  - rewrite bind_assoc, (bind_ok _ _ _ _ _ (ptr_at h p ltac:(lia) ltac:(lia))), (hdr_some _ _ _ Hl3). cbn [h_ptr].
    rewrite bind_assoc, (bind_ok _ _ _ _ _ (set_ptr_at h prev _ ltac:(lia) ltac:(lia))), (hdr_some _ _ _ Hl2). cbn [h_size].
    rewrite Z.sub_diag, Z.mul_0_r, Z.add_0_r. eexists. split; [reflexivity|].
    rewrite Et in *. split; [split; [done|lia]|rewrite Et|done|].
    + split; try done.
      * cbn. apply linked_app. split; [|split]; cbn [first_at].
        -- apply linked_insert; [|done]. intros Hx. apply (Hd1 prev Hx). set_solver.
        -- by rewrite lookup_insert_eq.
        -- apply linked_insert; [|done]. set_solver.
      * cbn. rewrite fmap_app. set_solver.
    + rewrite Z.sub_diag, Z.mul_0_r, Z.add_0_r. unfold hdr; cbn. rewrite lookup_insert_ne by set_solver. by rewrite Hl3.
  - rewrite bind_assoc, (bind_ok _ _ _ _ _ (set_size_at h p _ ltac:(lia) ltac:(lia))), (hdr_some _ _ _ Hl3). cbn [h_ptr].
    replace (u32 (n - nu)) with (n - nu) by (rewrite u32_small; lia).
    set (h1 := put_hdr p (Header (first_at base u2) (n - nu)) h).
    assert (E1 : hdr h1 p = Header (first_at base u2) (n - nu)) by (unfold h1; by rewrite hdr_put, decide_True).
    rewrite bind_assoc, (bind_ok _ _ _ _ _ (size_at h1 p ltac:(lia) ltac:(cbn; lia))), E1.
    cbn [h_size]. cbv beta zeta. change HDR with 16.
    rewrite bind_assoc, (bind_ok _ _ _ _ _ (set_size_at h1 (p + 16 * (n - nu)) _ ltac:(lia) ltac:(cbn; lia))).
    replace (u32 nu) with nu by (rewrite u32_small; lia).
    eexists. split; [reflexivity|]. set (c := p + 16 * (n - nu)) in *.
    assert (Hc : c ∉ (take_out p nu fl).*1).
    { assert (Hown : owned base (u_brk h) (take_out p nu fl) (c, nu)) by (by apply release_take_out).
      exact (owned_not_listed base (u_brk h) _ _ (conj Hok1 Hok2) Hown). }
    rewrite Et in *. split; [split; [done|lia]|rewrite Et|done|unfold hdr; cbn; by rewrite lookup_insert_eq].
    split; try done.
    + cbn [u_mem set_freep put_hdr set_umem]. apply linked_insert; [done|].
      unfold h1. cbn [u_mem put_hdr set_umem]. apply linked_app. cbn [first_at linked]. split_and!.
      * apply linked_insert; [|done]. intros Hx. apply (Hd1 p Hx). set_solver.
      * rewrite lookup_insert_ne by set_solver. done.
      * by rewrite lookup_insert_eq.
      * by apply linked_insert.
    + cbn. rewrite fmap_app. set_solver.
Qed.

Lemma find_first {A} (P : A → bool) l x : List.find P l = Some x →
  ∃ v w, l = v ++ x :: w ∧ Forall (λ y, P y = false) v ∧ P x = true.
Proof.
  induction l as [|y l IH]; [done|]. cbn. destruct (P y) eqn:E.
  - intros [= ->]. by exists [], l.
  - intros (v & w & -> & Hv & Hx)%IH. exists (y :: v), w. split_and!; [done|by constructor|done].
Qed.

Lemma linked_in mem l z p n : linked mem l z → (p, n) ∈ l → ∃ q, mem !! p = Some (Header q n).
Proof.
  induction l as [|[a m] l IH]; intros Hl Hin; [set_solver|]. destruct Hl as [Ha Hl].
  apply elem_of_cons in Hin as [[= -> ->]|Hin]; eauto.
Qed.

(** The list as the search goes around it, from the block after [freep]. *)
Lemma around base h fl : heap_ok base h fl →
  ∃ v m, after (u_freep h) fl ++ upto (u_freep h) fl = v ++ [(u_freep h, m)] ∧
    linked (u_mem h) v (u_freep h) ∧ (u_freep h ∉ v.*1) ∧ v ++ [(u_freep h, m)] ≡ₚ fl ∧
    u_mem h !! u_freep h = Some (Header (first_at (u_freep h) v) m).
Proof.
  intros O. set (f := u_freep h). destruct (rotation f fl (ho_freep _ _ _ O)) as (l1 & m & l2 & E & Hn & -> & ->).
  pose proof (ho_linked _ _ _ O) as Hl. pose proof (spaced_nodup _ (ho_spaced _ _ _ O)) as Hnd.
  assert (Hfirst : first_at f l1 = base).
  { destruct (ho_base _ _ _ O) as (l & El & _). rewrite E in El. destruct l1 as [|[a k] l1]; cbn in El |- *; congruence. }
  rewrite E in Hl, Hnd. apply linked_app in Hl as (Hl1 & Hl2 & Hl3).
  rewrite fmap_app in Hnd. apply NoDup_app in Hnd as (_ & _ & [Hd _]%NoDup_cons).
  exists (l2 ++ l1), m. split_and!.
  - by rewrite app_assoc.
  - apply linked_app. by rewrite Hfirst.
  - rewrite fmap_app. set_solver.
  - rewrite E. solve_Permutation.
  - rewrite first_at_app, Hfirst. done.
Qed.

Lemma fl_base base h fl n : heap_ok base h fl → (base, n) ∈ fl → n = 0.
Proof.
  intros O Hin. destruct (ho_base _ _ _ O) as (l & -> & Hl). apply elem_of_cons in Hin as [[= ->]|Hin]; [done|].
  rewrite Forall_forall in Hl. specialize (Hl _ Hin). cbn in Hl. lia.
Qed.

Lemma fl_readable base h fl l : heap_ok base h fl → l ⊆ fl → readable_at h l.
Proof.
  intros O Hs. apply Forall_forall. intros [x n] Hx. pose proof (fl_range _ _ _ O x n (Hs _ Hx)). pose proof (ho_brk _ _ _ O). cbn. lia.
Qed.

(** A fitting block is found and taken. *)
Lemma malloc_finds base grows h fl nu p n fuel :
  heap_ok base h fl → 1 ≤ nu → next_fit nu (u_freep h) fl = Some (p, n) → (length fl ≤ fuel)%nat →
  ∃ h', malloc_loop grows fuel nu (u_freep h) (h_ptr (hdr h (u_freep h))) h = Ok (Some (p + 16 * (n - nu) + 16)) h' ∧
    taken base (u_brk h) fl nu p n h'.
Proof.
  intros O Hnu Hfit Hf. unfold next_fit in Hfit. destruct (around _ _ _ O) as (v & m & Ev & Hl & Hd & Hperm & Hf0).
  rewrite Ev in Hfit. apply find_first in Hfit as (v1 & w & E & Hv1 & Hp). cbn in Hp. apply Z.leb_le in Hp.
  set (f := u_freep h) in *.
  assert (Hv : linked (u_mem h) v1 p ∧ first_at f v = first_at p v1 ∧ v1 ⊆ v).
  { destruct (decide (w = [])) as [->|Hw].
    - apply app_inj_tail in E as [<- [= <- <-]]. done.
    - destruct (exists_last Hw) as (w' & y & ->). rewrite app_comm_cons, app_assoc in E. apply app_inj_tail in E as [-> _].
      apply linked_app in Hl as [Hl _]. cbn in Hl. rewrite first_at_app. split_and!; [done|done|set_solver]. }
  destruct Hv as (Hl1 & Efirst & Hsub).
  assert (Hin : (p, n) ∈ fl) by (rewrite <-Hperm, E; set_solver).
  assert (Hvl : v ⊆ fl) by (intros x Hx; rewrite <-Hperm; set_solver).
  assert (Hlen : (length v1 < length fl)%nat) by (rewrite <-Hperm, E, length_app; cbn; lia).
  rewrite (hdr_some _ _ _ Hf0). cbn [h_ptr]. rewrite Efirst in Hf0 |- *.
  replace fuel with (length v1 + S (fuel - length v1 - 1))%nat by lia.
  rewrite malloc_walk; [|done|by eapply fl_readable; [done|]; set_solver| |].
  2:{ eapply Forall_impl; [exact Hv1|]. cbn. intros x Hx%Z.leb_gt. done. }
  2:{ intros (x & Ex & Hx)%list_elem_of_fmap. apply Hd. apply list_elem_of_fmap. exists x. split; [done|by apply Hsub]. }
  destruct (last_points _ _ _ _ _ Hf0 Hl1) as [Hpin [k Hk]].
  assert (Hpin' : last_at f v1 ∈ fl.*1).
  { apply elem_of_cons in Hpin as [->|(x & Ex & Hx)%list_elem_of_fmap]; [exact (ho_freep _ _ _ O)|].
    rewrite Ex. apply list_elem_of_fmap. exists x. split; [done|by apply Hvl, Hsub]. }
  assert (Hpb : p ≠ base) by (intros ->; pose proof (fl_base _ _ _ _ O Hin); lia).
  destruct (linked_pred _ _ _ _ _ _ (ho_linked _ _ _ O) Hpin' Hk Hpb) as (u1 & n' & u2 & Efl).
  assert (n' = n) as ->.
  { destruct (linked_in _ _ _ _ _ (ho_linked _ _ _ O) Hin) as [q1 H1].
    destruct (linked_in _ _ _ p n' (ho_linked _ _ _ O) ltac:(rewrite Efl; set_solver)) as [q2 H2]. congruence. }
  by eapply malloc_take.
Qed.

(** With no block that fits, malloc() asks for more memory. *)
Lemma malloc_none_fits base grows h fl nu fuel :
  heap_ok base h fl → 1 ≤ nu → next_fit nu (u_freep h) fl = None →
  malloc_loop grows (length fl + fuel) nu (u_freep h) (h_ptr (hdr h (u_freep h))) h =
  (r ← morecore grows fuel nu;
   match r with
   | None => mret None
   | Some p => q ← ptr p; malloc_loop grows fuel nu p q
   end) h.
Proof.
  intros O Hnu Hfit. unfold next_fit in Hfit. destruct (around _ _ _ O) as (v & m & Ev & Hl & Hd & Hperm & Hf0).
  rewrite Ev in Hfit. assert (Hall : Forall (λ b, b.2 < nu) (v ++ [(u_freep h, m)])).
  { apply Forall_forall. intros x Hx. apply Z.leb_gt. apply (List.find_none _ _ Hfit). by apply list_elem_of_In. }
  apply Forall_app in Hall as [Hall [Hm _]%Forall_cons]. cbn in Hm. set (f := u_freep h) in *.
  assert (Hr : readable_at h (v ++ [(f, m)])) by (eapply fl_readable; [exact O|]; intros x Hx; by rewrite <-Hperm).
  apply Forall_app in Hr as [Hr [[H1 H2] _]%Forall_cons]. cbn in H1, H2.
  rewrite (hdr_some _ _ _ Hf0). cbn [h_ptr].
  replace (length fl + fuel)%nat with (length v + S fuel)%nat by (rewrite <-Hperm, length_app; cbn; lia).
  rewrite malloc_walk by done. cbn [malloc_loop].
  rewrite (bind_ok _ _ _ _ _ (size_at h f H1 H2)), (hdr_some _ _ _ Hf0). cbn [h_size].
  rewrite (proj2 (Z.leb_gt _ _)) by done. by rewrite (bind_ok _ _ _ _ _ (freep_run h)), Z.eqb_refl.
Qed.

(** ** Growing the heap *)

Lemma heap_ok_brk base h fl b : heap_ok base h fl → u_brk h ≤ b < 2147483648 → heap_ok base (set_brk b h) fl.
Proof.
  intros [(l & El & Hl) H2 H3 H4 H5] Hb. split; try done; [|cbn; lia].
  exists l. split; [done|]. eapply Forall_impl; [exact Hl|]. cbn. lia.
Qed.
Lemma heap_ok_put base h fl a x : heap_ok base h fl → a ∉ fl.*1 → heap_ok base (put_hdr a x h) fl.
Proof. intros [H1 H2 H3 H4 H5] Ha. split; try done. cbn. by apply linked_insert. Qed.

(** The units morecore() asks for. *)
Definition more (nu : Z) : Z := if nu <? 4096 then 4096 else nu.

Lemma owned_top base brk fl n : blocks_ok base brk fl → 1 ≤ n → base + 16 ≤ brk → owned base (brk + 16 * n) fl (brk, n).
Proof.
  intros [(l & -> & Hl) _] Hn Hb. split; cbn; [lia|lia|lia|]. constructor; [cbn; lia|]. eapply Forall_impl; [exact Hl|]. cbn. lia.
Qed.

Lemma sbrk_run grows h n : 0 < n → u_brk h + n < 2147483648 → 0 ≤ u_brk h →
  sbrk grows n h = if grows (u_brk h) n then Ok (u_brk h) (set_brk (u_brk h + n) h) else Ok (-1) h.
Proof.
  intros Hn Hb H0. unfold sbrk, gets, modify, mret, M_ret, mbind, M_bind.
  rewrite (s32_small n), (s32_small (u_brk h)), u32_small by lia. rewrite (proj2 (Z.ltb_lt 0 n)), (proj2 (Z.ltb_ge _ _)) by lia. by case_match.
Qed.

(** morecore() adds the memory above the old break to the free list. *)
Lemma morecore_ok base (grows : Z → Z → bool) h fl nu fuel :
  heap_ok base h fl → 1 ≤ nu → u_brk h + 16 * more nu < 2147483648 → (length fl ≤ fuel)%nat →
  if grows (u_brk h) (16 * more nu) then
    ∃ h', morecore grows fuel nu h = Ok (Some (u_freep h')) h' ∧ heap_ok base h' (release (u_brk h, more nu) fl) ∧
      u_brk h' = u_brk h + 16 * more nu
  else morecore grows fuel nu h = Ok None h.
Proof.
  intros O Hnu Hb Hf. pose proof (ho_brk _ _ _ O) as Hbrk. assert (Hm : 1 ≤ more nu) by (unfold more; case_match; lia).
  pose proof (owned_top _ _ _ _ (heap_blocks _ _ _ O) Hm ltac:(lia)) as Hown.
  unfold morecore. fold (more nu). cbv zeta. replace (more nu * HDR) with (16 * more nu) by (unfold HDR; lia).
  pose proof (sbrk_run grows h (16 * more nu) ltac:(lia) Hb ltac:(lia)) as Es.
  destruct (grows (u_brk h) (16 * more nu)) eqn:Eg; rewrite (bind_ok _ _ _ _ _ Es); [|done].
  rewrite (proj2 (Z.eqb_neq _ _)) by lia. set (h1 := set_brk _ h).
  assert (O1 : heap_ok base h1 fl) by (apply heap_ok_brk; [done|lia]).
  pose proof (owned_not_listed _ _ _ _ (heap_blocks _ _ _ O1) Hown) as Hnl.
  rewrite (bind_ok _ _ _ _ _ (set_size_at h1 (u_brk h) (more nu) ltac:(lia) ltac:(cbn; lia))), u32_small by lia.
  set (h2 := put_hdr _ _ h1). assert (O2 : heap_ok base h2 fl) by by apply heap_ok_put.
  destruct (free_ok base h2 fl (u_brk h, more nu) fuel O2 Hown) as (h3 & R & O3 & Eb & _); [|done|].
  { unfold h2. cbn [fst snd]. by rewrite hdr_put, decide_True. }
  cbn [fst] in R. change HDR with 16. rewrite (bind_ok _ _ _ _ _ R). exists h3. by split_and!.
Qed.

(** The block that was added is large enough. *)
Lemma release_fits base brk fl b nu f : blocks_ok base brk fl → owned base brk fl b → nu ≤ b.2 → f ∈ (release b fl).*1 →
  ∃ p n, next_fit nu f (release b fl) = Some (p, n).
Proof.
  intros Hok Hown Hnu Hf. destruct (next_fit nu f (release b fl)) as [[p n]|] eqn:E; [by eauto|exfalso].
  assert (Hx : ∃ x, x ∈ release b fl ∧ b.2 ≤ x.2).
  { destruct (owned_split _ _ _ _ Hok Hown) as (l1 & a & l2 & [_ -> Ha _ Hab]).
    assert (Hc : ∀ x l, Forall (λ y, 0 ≤ y.2) l → ∃ n, x.2 ≤ n ∧ (x.1, n) ∈ coalesce x l).
    { intros [x1 x2] l Hl. destruct l as [|y l]; cbn [coalesce fst snd]; [exists x2; split; [lia|set_solver]|].
      apply Forall_cons in Hl as [Hy _]. case_match; eexists; (split; [|apply elem_of_cons; by left]); lia. }
    destruct (Hc b l2) as (n1 & Hn1 & Hin1); [eapply Forall_impl; [exact Hab|]; cbn; lia|].
    destruct (coalesce b l2) as [|y c] eqn:Ec; [set_solver|]. pose proof (first_at_coalesce 0 b l2) as Hfa. rewrite Ec in Hfa.
    destruct (decide ((b.1, n1) = y)) as [<-|Hne].
    - cbn [coalesce fst snd]. case_match; eexists; (split; [apply elem_of_app; right; apply elem_of_cons|]).
      + by left.
      + cbn. lia.
      + right. apply elem_of_cons. by left.
      + done.
    - exists (b.1, n1). split; [|done]. apply elem_of_app. right. apply elem_of_cons in Hin1 as [He|Hin1]; [by destruct Hne|].
      cbn [coalesce]. case_match; set_solver. }
  destruct Hx as (x & Hx & Hx2). unfold next_fit in E. destruct (rotation f _ Hf) as (l1 & m & l2 & E1 & _ & E2 & E3).
  assert (Hin : x ∈ after f (release b fl) ++ upto f (release b fl)) by (rewrite E2, E3; rewrite E1 in Hx; set_solver).
  apply list_elem_of_In in Hin. pose proof (List.find_none _ _ E _ Hin) as Hno. cbn in Hno. apply Z.leb_gt in Hno. lia.
Qed.

(** ** The whole of malloc() *)

(** The heap is in use with the free list [fl], or malloc() has not been called
    yet. *)
Definition ready (base : Z) (h : uheap) (fl : list (Z * Z)) : Prop :=
  heap_ok base h fl ∨ u_freep h = 0 ∧ fl = [(base, 0)] ∧ 0 < base ∧ base + 16 ≤ u_brk h ∧ u_brk h < 2147483648.

(** What malloc() returns and leaves, for a request of [nu] units. *)
Definition malloc_post (base : Z) (grows : Z → Z → bool) (h : uheap) (fl : list (Z * Z)) (nu : Z) (r : res uerr uheap (option Z)) : Prop :=
  match next_fit nu (u_freep h) fl with
  | Some (p, n) => ∃ h', r = Ok (Some (p + 16 * (n - nu) + 16)) h' ∧ taken base (u_brk h) fl nu p n h'
  | None =>
      if grows (u_brk h) (16 * more nu) then
        ∃ p n h', r = Ok (Some (p + 16 * (n - nu) + 16)) h' ∧
          taken base (u_brk h + 16 * more nu) (release (u_brk h, more nu) fl) nu p n h'
      else ∃ h', r = Ok None h' ∧ heap_ok base h' fl ∧ u_brk h' = u_brk h
  end.

Lemma release_length b fl : (length (release b fl) ≤ S (length fl))%nat.
Proof.
  assert (H : ∀ x l, (length (coalesce x l) ≤ S (length l))%nat) by (intros x [|y l]; cbn; [done|]; case_match; cbn; lia).
  induction fl as [|x l IH]; cbn [release length]; [done|]. case_match; cbn [length]; [|lia].
  pose proof (H x (coalesce b l)). pose proof (H b l). lia.
Qed.

Lemma malloc_search base (grows : Z → Z → bool) h fl nu fuel :
  heap_ok base h fl → 1 ≤ nu → u_brk h + 16 * more nu < 2147483648 → (2 * length fl + 1 ≤ fuel)%nat →
  malloc_post base grows h fl nu (malloc_loop grows fuel nu (u_freep h) (h_ptr (hdr h (u_freep h))) h).
Proof.
  intros O Hnu Hb Hf. unfold malloc_post. destruct (next_fit nu (u_freep h) fl) as [[p n]|] eqn:E.
  - apply malloc_finds; (done || lia).
  - replace fuel with (length fl + (fuel - length fl))%nat by lia. rewrite (malloc_none_fits _ _ _ _ _ _ O Hnu E).
    pose proof (morecore_ok base grows h fl nu (fuel - length fl) O Hnu Hb ltac:(lia)) as M. pose proof (ho_brk _ _ _ O) as Hbrk.
    destruct (grows (u_brk h) (16 * more nu)).
    + destruct M as (h1 & R & O1 & Eb). rewrite (bind_ok _ _ _ _ _ R). pose proof (ho_freep _ _ _ O1) as Hf1.
      assert (Hm : nu ≤ more nu) by (unfold more; case_match eqn:El; [apply Z.ltb_lt in El|]; lia).
      pose proof (owned_top _ _ _ (more nu) (heap_blocks _ _ _ O) ltac:(lia) ltac:(lia)) as Hown.
      destruct (release_fits base _ fl (u_brk h, more nu) nu (u_freep h1)
                  (heap_blocks _ _ _ (heap_ok_brk _ _ _ (u_brk h + 16 * more nu) O ltac:(lia))) Hown Hm Hf1) as (p & n & En).
      destruct (malloc_finds base grows h1 _ nu p n (fuel - length fl) O1 Hnu En) as (h2 & R2 & T).
      { pose proof (release_length (u_brk h, more nu) fl). lia. }
      pose proof (list_elem_of_fmap_1 _ _ _ Hf1) as ([x k] & Ex & Hx). cbn in Ex.
      pose proof (fl_range _ _ _ O1 x k Hx) as Hr. rewrite <-Ex in Hr. pose proof (ho_brk _ _ _ O1) as Hb1.
      rewrite (bind_ok _ _ _ _ _ (ptr_at h1 (u_freep h1) ltac:(lia) ltac:(lia))).
      exists p, n, h2. rewrite R2. split; [done|]. by rewrite <-Eb.
    + rewrite (bind_ok _ _ _ _ _ M). by exists h.
Qed.

Lemma malloc_ok base (grows : Z → Z → bool) h fl nbytes fuel :
  ready base h fl → 0 ≤ nbytes < 4294967296 → u_brk h + 16 * more (nunits_of nbytes) < 2147483648 →
  (2 * length fl + 1 ≤ fuel)%nat →
  malloc_post base grows h fl (nunits_of nbytes) (malloc base grows fuel nbytes h).
Proof.
  intros Hr Hn Hb Hf. assert (Hnu : 1 ≤ nunits_of nbytes).
  { unfold nunits_of. change HDR with 16. rewrite u32_small; dlia. }
  unfold malloc. cbv zeta. rewrite (bind_ok _ _ _ _ _ (freep_run h)). destruct Hr as [O|(E0 & -> & Hb1 & Hb2 & Hb3)].
  - pose proof (ho_freep _ _ _ O) as ([x k] & Ex & Hx)%list_elem_of_fmap. cbn in Ex.
    pose proof (fl_range _ _ _ O x k Hx) as Hx'. rewrite <-Ex in Hx'. pose proof (ho_brk _ _ _ O) as Hb1.
    rewrite (proj2 (Z.eqb_neq _ _)) by lia. rewrite bind_ret.
    rewrite (bind_ok _ _ _ _ _ (ptr_at h (u_freep h) ltac:(lia) ltac:(lia))). by apply malloc_search.
  - rewrite E0, Z.eqb_refl. set (h1 := set_freep base h).
    assert (R : (modify (set_freep base);; set_ptr base base;; set_size base 0;; mret base) h =
                Ok base (put_hdr base (Header base 0) h1)).
    { assert (Em : (modify (set_freep base) : U unit) h = Ok tt h1) by done. rewrite (bind_ok _ _ _ _ _ Em).
      rewrite (bind_ok _ _ _ _ _ (set_ptr_at h1 base base ltac:(lia) ltac:(cbn; lia))).
      rewrite (bind_ok _ _ _ _ _ (set_size_at (put_hdr base _ h1) base 0 ltac:(lia) ltac:(cbn; lia))), hdr_put, decide_True, put_put by done.
      done. }
    rewrite (bind_ok _ _ _ _ _ R). set (h2 := put_hdr base _ h1).
    assert (O : heap_ok base h2 [(base, 0)]).
    { split; [exists []; by split|split; [|done]; cbn; by rewrite lookup_insert_eq|by repeat constructor|cbn; set_solver|cbn; lia]. }
    rewrite (bind_ok _ _ _ _ _ (ptr_at h2 base ltac:(lia) ltac:(cbn; lia))).
    pose proof (malloc_search base grows h2 [(base, 0)] (nunits_of nbytes) fuel O Hnu Hb Hf) as P.
    unfold malloc_post in P |- *. rewrite E0. change (u_freep h2) with base in P. change (u_brk h2) with (u_brk h) in P.
    assert (Enone : ∀ f, next_fit (nunits_of nbytes) f [(base, 0)] = None).
    { intros f. unfold next_fit. cbn [after upto fst]. assert (Hlt : (nunits_of nbytes <=? 0) = false) by (apply Z.leb_gt; lia).
      destruct (base =? f); cbn [app List.find snd]; by rewrite Hlt. }
    rewrite !Enone in P |- *. exact P.
Qed.

(** A request of 2 GB or more becomes a negative argument of sbrk(), which then
    leaves the size as it is and succeeds: morecore() writes past the end of
    memory.  For the largest requests the argument wraps to 16: malloc() returns
    a block of 4 GB when it has got 16 bytes. *)
Lemma malloc_huge_request :
  (∃ h, malloc 0x1000 (λ _ _, true) 10 0x80000000 fresh_heap = Err (UFault 0x4000) h) ∧
  (∃ h, malloc 0x1000 (λ _ _, true) 10 0xffffffff fresh_heap = Ok (Some 0x4010) h ∧ u_brk h = 0x4010).
Proof. split; eexists; [|split]; vm_compute; reflexivity. Qed.

Lemma take_out_length p nu fl : (length (take_out p nu fl) ≤ length fl)%nat.
Proof. induction fl as [|[a n] l IH]; cbn [take_out length]; [done|]. repeat case_match; cbn [length]; lia. Qed.

(** free() of a block that has just been taken. *)
Lemma free_taken base brk fl nu p n h fuel :
  blocks_ok base brk fl → 1 ≤ nu → taken base brk fl nu p n h → (length fl ≤ fuel)%nat →
  ∃ h', free fuel (p + 16 * (n - nu) + 16) h = Ok tt h' ∧ heap_ok base h' fl.
Proof.
  intros Hok Hnu [[Hin Hn] O Eb Hs] Hf. destruct (release_take_out _ _ _ _ _ _ Hok Hin (conj Hnu Hn)) as (Hown & _ & Er).
  rewrite <-Eb in Hown. pose proof (take_out_length p nu fl) as Hlen.
  destruct (free_ok _ _ _ _ fuel O Hown Hs ltac:(lia)) as (h' & R & O' & _). exists h'. split; [done|]. by rewrite Er in O'.
Qed.

Lemma ready_blocks base h fl : ready base h fl → blocks_ok base (u_brk h) fl ∧ base + 16 ≤ u_brk h.
Proof.
  intros [O|(_ & -> & Hb)]; [split; [by apply heap_blocks|pose proof (ho_brk _ _ _ O); lia]|].
  split; [|lia]. split; [by exists []|by repeat constructor].
Qed.

(** ** Claims *)

(** C22: malloc() (user/umalloc.c) searches the circular free list from the
    block after freep: it takes nunits units off the end of the first block
    that is large enough (or the whole block when it fits exactly) and returns
    the address after the new header; with no such block it grows the heap by
    at least 4096 units and takes the block from there; it returns null only
    when the kernel refuses to grow the process, with the free list unchanged.
    The block holds at least the bytes asked for, and the search terminates
    within a fuel linear in the length of the free list.  The heap has to stay
    below 2 GB, also if it grows: the unit counts are ints. *)
Theorem malloc_allocates base (grows : Z → Z → bool) h fl nbytes fuel :
  ready base h fl → 0 ≤ nbytes < 4294967296 → u_brk h + 16 * more (nunits_of nbytes) < 2147483648 →
  (2 * length fl + 1 ≤ fuel)%nat →
  nbytes ≤ 16 * (nunits_of nbytes - 1) < nbytes + 16 ∧
  malloc_post base grows h fl (nunits_of nbytes) (malloc base grows fuel nbytes h).
Proof.
  intros Hr Hn Hb Hf. split; [|by apply malloc_ok].
  unfold nunits_of. change HDR with 16. rewrite u32_small; dlia.
Qed.

(** C23: free() (user/umalloc.c) of a block of the program, whose header holds
    its size, puts it into the address-ordered free list and merges it with the
    free block just above and the one just below: the list stays sorted, fully
    merged and disjoint, the free addresses are those that were free before and
    those of the block, and no header but the block's and those of the list
    changes. *)
Theorem free_merges base h fl b fuel :
  heap_ok base h fl → owned base (u_brk h) fl b → h_size (hdr h b.1) = b.2 → (length fl ≤ fuel)%nat →
  ∃ h', free fuel (b.1 + 16) h = Ok tt h' ∧ heap_ok base h' (release b fl) ∧ u_brk h' = u_brk h ∧
    (∀ p, free_at (release b fl) p ↔ b.1 ≤ p < b.1 + 16 * b.2 ∨ free_at fl p) ∧
    (∀ x, x ≠ b.1 → x ∉ fl.*1 → u_mem h' !! x = u_mem h !! x).
Proof.
  intros O Hown Hs Hf. destruct (free_ok _ _ _ _ _ O Hown Hs Hf) as (h' & R & O' & Eb & Hfr).
  exists h'. split_and!; try done. intros p. eapply release_free_at; [by apply heap_blocks|done].
Qed.

(** Free() undoes malloc(): when malloc() has returned a block, freeing it
    gives back exactly the free list there was before the call, or, when
    malloc() had to grow the heap, that list with the new memory in it. *)
Theorem malloc_free base (grows : Z → Z → bool) h fl nbytes fuel r h1 :
  ready base h fl → 0 ≤ nbytes < 4294967296 → u_brk h + 16 * more (nunits_of nbytes) < 2147483648 →
  (2 * length fl + 1 ≤ fuel)%nat →
  malloc base grows fuel nbytes h = Ok (Some r) h1 →
  ∃ h2, free fuel r h1 = Ok tt h2 ∧
    heap_ok base h2 (if u_brk h1 =? u_brk h then fl else release (u_brk h, more (nunits_of nbytes)) fl).
Proof.
  intros Hr Hn Hb Hf Hm. pose proof (malloc_ok base grows h fl nbytes fuel Hr Hn Hb Hf) as P. rewrite Hm in P.
  destruct (ready_blocks _ _ _ Hr) as [Hok Hbb]. assert (Hnu : 1 ≤ nunits_of nbytes).
  { unfold nunits_of. change HDR with 16. rewrite u32_small; dlia. }
  set (nu := nunits_of nbytes) in *. assert (Hmore : 1 ≤ more nu) by (unfold more; case_match; lia).
  unfold malloc_post in P. destruct (next_fit nu (u_freep h) fl) as [[p n]|].
  - destruct P as (h' & [= -> ->] & T). rewrite (tk_brk _ _ _ _ _ _ _ T), Z.eqb_refl. eapply free_taken; (done || lia).
  - destruct (grows (u_brk h) (16 * more nu)); [|by destruct P as (h' & [=] & _)].
    destruct P as (p & n & h' & [= -> ->] & T). rewrite (tk_brk _ _ _ _ _ _ _ T), (proj2 (Z.eqb_neq _ _)) by lia.
    eapply free_taken; [|done|done|pose proof (release_length (u_brk h, more nu) fl); lia].
    apply release_ok; [|by apply owned_top]. destruct Hok as [(l & El & Hl) Hs]. split; [|done]. exists l. split; [done|].
    eapply Forall_impl; [exact Hl|]. cbn. lia.
Qed.

(** ** Witnesses *)

Lemma fresh_ready : ready 0x1000 fresh_heap [(0x1000, 0)].
Proof. right. split_and!; done. Qed.

(** Two free blocks around one that is in use. *)
Definition heap_two : uheap :=
  UHeap (list_to_map [(0x1000, Header 0x4000 0); (0x4000, Header 0x40f0 10); (0x40a0, Header 0 5); (0x40f0, Header 0x1000 3)])
        0x40f0 0x4200.

Lemma heap_two_ok : heap_ok 0x1000 heap_two [(0x1000, 0); (0x4000, 10); (0x40f0, 3)].
Proof.
  split.
  - eexists. split; [reflexivity|]. repeat constructor; cbn; lia.
  - cbn. split_and!; try done; by vm_compute.
  - cbn. repeat constructor; cbn; lia.
  - cbn. set_solver.
  - cbn. lia.
Qed.

Lemma malloc_allocates_witness :
  100 ≤ 16 * (nunits_of 100 - 1) < 100 + 16 ∧
  malloc_post 0x1000 (λ _ _, true) fresh_heap [(0x1000, 0)] (nunits_of 100)
    (malloc 0x1000 (λ _ _, true) 5 100 fresh_heap).
Proof. apply malloc_allocates; [exact fresh_ready|lia|vm_compute; reflexivity|cbn; lia]. Defined.

Lemma free_merges_witness :
  ∃ h', free 5 (0x40a0 + 16) heap_two = Ok tt h' ∧ heap_ok 0x1000 h' [(0x1000, 0); (0x4000, 18)] ∧ u_brk h' = 0x4200 ∧
    (∀ p, free_at [(0x1000, 0); (0x4000, 18)] p ↔
          0x40a0 ≤ p < 0x40a0 + 16 * 5 ∨ free_at [(0x1000, 0); (0x4000, 10); (0x40f0, 3)] p) ∧
    (∀ x, x ≠ 0x40a0 → x ∉ [0x1000; 0x4000; 0x40f0] → u_mem h' !! x = u_mem heap_two !! x).
Proof.
  apply (free_merges 0x1000 heap_two [(0x1000, 0); (0x4000, 10); (0x40f0, 3)] (0x40a0, 5) 5).
  - exact heap_two_ok.
  - split; cbn; [lia|lia|lia|]. repeat constructor; cbn; lia.
  - reflexivity.
  - cbn. lia.
Defined.

Definition heap_100 : uheap := match malloc 0x1000 (λ _ _, true) 5 100 fresh_heap with Ok _ h => h | Err _ h => h end.

Lemma malloc_free_witness :
  ∃ h2, free 5 (0x14000 - 112) heap_100 = Ok tt h2 ∧ heap_ok 0x1000 h2 [(0x1000, 0); (0x4000, 4096)].
Proof.
  apply (malloc_free 0x1000 (λ _ _, true) fresh_heap [(0x1000, 0)] 100 5 (0x14000 - 112) heap_100).
  - exact fresh_ready.
  - lia.
  - vm_compute. reflexivity.
  - cbn. lia.
  - vm_compute. reflexivity.
Defined.
