(* ===== verification/Mkfs.v ===== *)
(** mkfs/mkfs.c: the program that builds the file-system image.

    The state is the image file, as a list of sectors, and the globals sb,
    freeinode and freeblock; the host is a little-endian machine with 32-bit
    int.  A struct dinode is represented by the on-disk fields of [inode], and
    an array of uint in a sector by its bytes.  [die] and a failed assertion end
    the program.  The messages on standard output are left out. *)

From S2P Require Import Prelude Riscv Kstate Bytes Bio Fs.

(** ** State *)

Record mstate : Type := MState {
  m_img : list (list Z);
  m_sb : superblock;
  m_freeinode : Z;
  m_freeblock : Z;
}.
Definition set_img v m := MState v (m_sb m) (m_freeinode m) (m_freeblock m).
Definition set_msb v m := MState (m_img m) v (m_freeinode m) (m_freeblock m).
Definition set_freeinode v m := MState (m_img m) (m_sb m) v (m_freeblock m).
Definition set_freeblock v m := MState (m_img m) (m_sb m) (m_freeinode m) v.

Inductive merr : Type := MDie (s : string) | MAssert (s : string) | MUsage | MFuel.
Abbreviation MK := (M merr mstate).

Definition die {A} (s : string) : MK A := fail (MDie s).
Definition massert (b : bool) (s : string) : MK unit := if b then mret tt else fail (MAssert s).

Definition NINODES : Z := 200.
Definition nbitmap : Z := FSSIZE / (BSIZE * 8) + 1.
Definition ninodeblocks : Z := NINODES / IPB + 1.
Definition nlog : Z := LOGSIZE.

(** The bytes that the code stores in [y], read back as an integer. *)
Definition xshort (x : Z) : Z := le_val [u8 x; u8 (Z.shiftr x 8)].
Definition xint (x : Z) : Z := le_val [u8 x; u8 (Z.shiftr x 8); u8 (Z.shiftr x 16); u8 (Z.shiftr x 24)].

(** ** Sectors *)

(** write() of a sector at its offset: past the end, the file grows. *)
Definition put_sector (img : list (list Z)) (k : nat) (buf : list Z) : list (list Z) :=
  if (k <? length img)%nat then <[k := buf]> img
  else img ++ replicate (k - length img) zero_block ++ [buf].

(** The offset sec * BSIZE is a uint. *)
Definition sector (sec : Z) : nat := Z.to_nat (u32 (sec * BSIZE) / BSIZE).

Definition wsect (sec : Z) (buf : list Z) : MK unit :=
  modify (λ m, set_img (put_sector (m_img m) (sector sec) buf) m).

Definition rsect (sec : Z) : MK (list Z) :=
  img ← gets m_img;
  match img !! sector sec with
  | Some buf => mret buf
  | None => die "read"
  end.

(** ** Inodes *)

Definition zero_dinode : inode := Inode 0 0 0 (SleepLock false 0) false 0 0 0 0 0 (replicate 13 0).

Definition winode (inum : Z) (ip : inode) : MK unit :=
  sb ← gets m_sb;
  let bn := IBLOCK inum sb in
  buf ← rsect bn;
  wsect bn (put_dinode buf (dinode_off inum) ip).

Definition rinode (inum : Z) : MK inode :=
  sb ← gets m_sb;
  let bn := IBLOCK inum sb in
  buf ← rsect bn;
  mret (get_dinode buf (dinode_off inum) zero_dinode).

Definition ialloc (type : Z) : MK Z :=
  inum ← gets m_freeinode;
  modify (set_freeinode (u32 (inum + 1)));;
  let din := set_isize (xint 0) (set_nlink (xshort 1) (set_itype (xshort type) zero_dinode)) in
  winode inum din;;
  mret inum.

(** for(i = 0; i < used; i++) buf[i/8] = buf[i/8] | (0x1 << (i%8)); *)
Fixpoint mark_used (used : nat) : list Z :=
  match used with
  | O => zero_block
  | S i => bit_set (mark_used i) (Z.of_nat i)
  end.

Definition balloc (used : Z) : MK unit :=
  massert (used <? BSIZE * 8) "used < BSIZE*8";;
  sb ← gets m_sb;
  wsect (sb_bmapstart sb) (mark_used (Z.to_nat used)).

(** freeblock++ *)
Definition next_block : MK Z :=
  b ← gets m_freeblock;
  modify (set_freeblock (u32 (b + 1)));;
  mret b.

(** The block that holds byte [fbn * BSIZE] of the file, allocated when it is
    not there: the two branches on fbn < NDIRECT. *)
Definition iappend_block (din : inode) (fbn : Z) : MK (inode * Z) :=
  if fbn <? NDIRECT then
    din ←
      (if xint (nth (Z.to_nat fbn) (i_addrs din) 0) =? 0 then
         b ← next_block;
         mret (set_addrs (<[Z.to_nat fbn := xint b]> (i_addrs din)) din)
       else mret din);
    mret (din, xint (nth (Z.to_nat fbn) (i_addrs din) 0))
  else
    din ←
      (if xint (nth 12 (i_addrs din) 0) =? 0 then
         b ← next_block;
         mret (set_addrs (<[12%nat := xint b]> (i_addrs din)) din)
       else mret din);
    let ia := xint (nth 12 (i_addrs din) 0) in
    indirect ← rsect ia;
    let o := Z.to_nat (4 * (fbn - NDIRECT)) in
    indirect ←
      (if get32 indirect o =? 0 then
         b ← next_block;
         let indirect := put32 indirect o (xint b) in
         wsect ia indirect;;
         mret indirect
       else mret indirect);
    mret (din, xint (get32 indirect o)).

(** while(n > 0), with the bytes that are left in [p] *)
Fixpoint iappend_loop (fuel : nat) (din : inode) (off : Z) (p : list Z) : MK (inode * Z) :=
  if Z.of_nat (length p) <=? 0 then mret (din, off)
  else
    match fuel with
    | O => fail MFuel
    | S fuel =>
        let fbn := off / BSIZE in
        massert (fbn <? MAXFILE) "fbn < MAXFILE";;
        '(din, x) ← iappend_block din fbn;
        let n1 := Z.min (Z.of_nat (length p)) (u32 ((fbn + 1) * BSIZE - off)) in
        buf ← rsect x;
        wsect x (splice buf (Z.to_nat (off - fbn * BSIZE)) (take (Z.to_nat n1) p));;
        iappend_loop fuel din (u32 (off + n1)) (drop (Z.to_nat n1) p)
    end.

Definition iappend (inum : Z) (p : list Z) : MK unit :=
  din ← rinode inum;
  let off := xint (i_size din) in
  '(din, off) ← iappend_loop (length p) din off p;
  winode inum (set_isize (xint off) din).

(** ** main *)

(** struct superblock, as bytes *)
Definition sb_bytes (sb : superblock) : list Z :=
  le_bytes 4 (sb_magic sb) ++ le_bytes 4 (sb_size sb) ++ le_bytes 4 (sb_nblocks sb) ++ le_bytes 4 (sb_ninodes sb) ++
  le_bytes 4 (sb_nlog sb) ++ le_bytes 4 (sb_logstart sb) ++ le_bytes 4 (sb_inodestart sb) ++ le_bytes 4 (sb_bmapstart sb).

Definition mkfs_sb : superblock :=
  let nmeta := 2 + nlog + ninodeblocks + nbitmap in
  Superblock FSMAGIC (xint FSSIZE) (xint (FSSIZE - nmeta)) (xint NINODES) (xint nlog) (xint 2) (xint (2 + nlog))
    (xint (2 + nlog + ninodeblocks)).

(** de.inum and de.name, in a zeroed struct dirent *)
Definition dirent (inum : Z) (name : list Z) : list Z := le_bytes 2 (xshort inum) ++ name.

(** "user/" *)
Definition USER : list Z := [117; 115; 101; 114; 47].
Definition DOT : Z := 46.
Definition UNDERSCORE : Z := 95.

(** argv[i] without "user/" and, later, without the leading underscore *)
Definition short_of (arg : list Z) : list Z := if strncmp arg USER 5 =? 0 then drop 5 arg else arg.
Definition skip_underscore (s : list Z) : list Z := if hd 0 s =? UNDERSCORE then tl s else s.

Section main.
(** What the host has: whether fs.img can be created, and for a path the
    results of the successive read()s of the file, if it can be opened. *)
Context (creates : bool) (host : list Z → option (list (list Z))).

Definition add_file (rootino : Z) (arg : list Z) : MK unit :=
  let shortname := short_of arg in
  massert (negb (existsb (Z.eqb SLASH) (cstr shortname))) "index(shortname, '/') == 0";;
  match host arg with
  | None => die "open"
  | Some chunks =>
      let shortname := skip_underscore shortname in
      inum ← ialloc T_FILE;
      iappend rootino (dirent inum (strncpy shortname DIRSIZ));;
      forM chunks (iappend inum)
  end.

(** argv[1] is the image and argv[2], ... the files to put into it. *)
Definition main (argv : list (list Z)) : MK unit :=
  match argv with
  | [] => fail MUsage
  | _ :: args =>
  massert (BSIZE mod DINODE =? 0) "BSIZE % sizeof(struct dinode)";;
  massert (BSIZE mod DIRENT =? 0) "BSIZE % sizeof(struct dirent)";;
  (if creates then modify (set_img []) else die "fs.img");;
  modify (set_msb mkfs_sb);;
  modify (set_freeblock (2 + nlog + ninodeblocks + nbitmap));;
  forM (seq 0 (Z.to_nat FSSIZE)) (λ i, wsect (Z.of_nat i) zero_block);;
  wsect 1 (splice zero_block 0 (sb_bytes mkfs_sb));;
  rootino ← ialloc T_DIR;
  massert (rootino =? ROOTINO) "rootino == ROOTINO";;
  iappend rootino (dirent rootino ([DOT] ++ replicate 13 0));;
  iappend rootino (dirent rootino ([DOT; DOT] ++ replicate 12 0));;
  forM args (add_file rootino);;
  din ← rinode rootino;
  let off := xint (i_size din) in
  let off := u32 ((off / BSIZE + 1) * BSIZE) in
  winode rootino (set_isize (xint off) din);;
  used ← gets m_freeblock;
  balloc used
  end.
End main.

(** The globals when the program starts. *)
Definition mkfs_init : mstate := MState [] (Superblock 0 0 0 0 0 0 0 0) 1 0.
