(* ===== verification/MkfsSpec.v ===== *)
(** What mkfs keeps true of the image it builds: the invariants that the kernel
    relies on, with the bitmap that the program will write at its end. *)

From S2P Require Import Prelude Riscv Kstate Mem Kalloc Vm Sched Bytes Bio BioSpec BioOps Log Fs FsTx Balloc Bmap Writei Inode Mkfs.

Local Abbreviation sb := mkfs_sb.

Lemma xint_id x : 0 ≤ x < 4294967296 → xint x = x.
Proof.
  intros H. unfold xint, u8, wrap. cbn [le_val]. rewrite !Z.shiftr_div_pow2 by lia.
  change (2 ^ 8) with 256. change (2 ^ 16) with 65536. change (2 ^ 24) with 16777216. dlia.
Qed.
Lemma xshort_id x : 0 ≤ x < 65536 → xshort x = x.
Proof.
  intros H. unfold xshort, u8, wrap. cbn [le_val]. rewrite !Z.shiftr_div_pow2 by lia. change (2 ^ 8) with 256. dlia.
Qed.

(** ** The bitmap *)

Lemma length_mark_used n : length (mark_used n) = BNAT.
Proof. induction n; cbn [mark_used]; [done|]. by rewrite length_bit_set. Qed.

Lemma zero_block_bit i : 0 ≤ i → bit_get zero_block i = false.
Proof.
  intros Hi. rewrite bit_get_testbit. unfold bit_byte. rewrite nth_lookup. unfold zero_block.
  destruct (replicate BNAT 0 !! Z.to_nat (i / 8)) eqn:E; cbn; [|apply Z.bits_0].
  apply lookup_replicate_1 in E as [-> _]. apply Z.bits_0.
Qed.

Lemma mark_used_bit n i : Z.of_nat n ≤ 8192 → 0 ≤ i < 8192 → bit_get (mark_used n) i = (i <? Z.of_nat n).
Proof.
  induction n as [|n IH]; intros Hn Hi; cbn [mark_used]; [rewrite zero_block_bit by lia; symmetry; apply Z.ltb_ge; lia|].
  rewrite bit_get_set, IH by (try rewrite length_mark_used; change (Z.of_nat BNAT) with 1024; dlia).
  case_bool_decide; [subst; symmetry; apply Z.ltb_lt; lia|]. cbn [orb]. destruct (Z.ltb_spec i (Z.of_nat n)); symmetry; [apply Z.ltb_lt|apply Z.ltb_ge]; lia.
Qed.

Lemma sb_geo : disk_geo sb.
Proof. split; [|vm_compute; discriminate|vm_compute; reflexivity]. split_and!; vm_compute; reflexivity. Qed.

Lemma bblock w : 0 ≤ w < 1000 → BBLOCK w sb = 45.
Proof. intros Hw. rewrite (BBLOCK_eq sb sb_geo) by exact Hw. change (sb_bmapstart sb) with 45. dlia. Qed.

Lemma iblock i : 0 ≤ i < 200 → IBLOCK i sb = 32 + i / 16.
Proof. intros Hi. unfold IBLOCK. change IPB with 16. change (sb_inodestart sb) with 32. rewrite u32_small; dlia. Qed.

(** ** The image, as the kernel will see it *)

(** [B] is the contents of the image, except that its bitmap block already
    marks the first [freeblock] blocks. *)
Record view (m : mstate) (B : Z → list Z) : Prop := {
  vw_sb : m_sb m = sb;
  vw_len : length (m_img m) = 1000%nat;
  vw_img : ∀ w, 0 ≤ w < 1000 → w ≠ 45 → m_img m !! Z.to_nat w = Some (B w);
  vw_bits : B 45 = mark_used (Z.to_nat (m_freeblock m));
  vw_free : 46 ≤ m_freeblock m ≤ 1000;
  vw_zero : ∀ w, m_freeblock m ≤ w < 1000 → B w = zero_block;
  vw_size : ∀ w, length (B w) = BNAT;
}.

Section view.
Context (m : mstate) (B : Z → list Z) (V : view m B).

Lemma view_marked w : 0 ≤ w < 1000 → marked sb B w = (w <? m_freeblock m).
Proof using V.
  intros Hw. unfold marked. rewrite bblock, (vw_bits _ _ V) by done. pose proof (vw_free _ _ V). change BPB with 8192.
  rewrite Z.mod_small, mark_used_bit by lia. by rewrite Z2Nat.id by lia.
Qed.

Lemma view_disk : disk_ok sb B.
Proof using V.
  split; [exact sb_geo|apply V|]. intros w Hw. change (datastart sb) with 46 in Hw. rewrite view_marked by lia.
  pose proof (vw_free _ _ V). apply Z.ltb_lt. lia.
Qed.

Lemma sector_at w : 0 ≤ w < 1000 → sector w = Z.to_nat w.
Proof. intros Hw. unfold sector. change BSIZE with 1024. rewrite u32_small, Z.div_mul by lia. done. Qed.

Lemma rsect_run w : 0 ≤ w < 1000 → w ≠ 45 → rsect w m = Ok (B w) m.
Proof using V.
  intros Hw Hn. unfold rsect, gets, mbind, M_bind. rewrite sector_at by done. by rewrite (vw_img _ _ V).
Qed.

(** Writing a sector that is in use. *)
Lemma wsect_run w v : 0 ≤ w < m_freeblock m → w ≠ 45 → length v = BNAT →
  ∃ m', wsect w v m = Ok tt m' ∧ view m' (setb B w v) ∧ m_freeblock m' = m_freeblock m ∧ m_freeinode m' = m_freeinode m.
Proof using V.
  intros Hw Hn Hv. pose proof (vw_free _ _ V) as Hf. eexists. split; [reflexivity|]. split; [|done].
  rewrite sector_at by lia. unfold put_sector.
  rewrite (proj2 (Nat.ltb_lt _ _)) by (rewrite (vw_len _ _ V); lia). split; cbn; try apply V.
  - rewrite length_insert. apply V.
  - intros x Hx Hx'. destruct (decide (x = w)) as [->|Hne].
    + rewrite setb_eq. apply list_lookup_insert_eq. rewrite (vw_len _ _ V). lia.
    + rewrite setb_ne by done. rewrite list_lookup_insert_ne by lia. by apply V.
  - rewrite setb_ne by lia. apply V.
  - intros x Hx. rewrite setb_ne by lia. by apply V.
  - intros x. unfold setb. case_decide; [done|apply V].
Qed.

(** freeblock++ is the allocation of a zeroed block. *)
Lemma next_block_run : m_freeblock m < 1000 →
  ∃ m', next_block m = Ok (m_freeblock m) m' ∧ view m' (allocB sb B (m_freeblock m)) ∧
    m_freeblock m' = m_freeblock m + 1 ∧ m_freeinode m' = m_freeinode m.
Proof using V.
  intros Hlt. pose proof (vw_free _ _ V) as Hf. set (f := m_freeblock m) in *. eexists. split; [reflexivity|].
  cbn [m_freeblock m_freeinode set_freeblock]. fold f. rewrite u32_small by lia. split; [|done].
  assert (Hal : ∀ x, x ≠ 45 → allocB sb B f x = B x).
  { intros x Hx. unfold allocB. rewrite bblock by lia. destruct (decide (x = f)) as [->|]; [|by rewrite !setb_ne].
    rewrite setb_eq. symmetry. apply V. lia. }
  split; cbn; try apply V.
  - intros x Hx Hx'. rewrite Hal by done. by apply V.
  - unfold allocB. rewrite bblock by lia. rewrite setb_ne, setb_eq by lia. change BPB with 8192. rewrite Z.mod_small by lia.
    rewrite Z2Nat.inj_add by lia. rewrite Nat.add_1_r. cbn [mark_used]. rewrite Z2Nat.id by lia. by rewrite (vw_bits _ _ V).
  - lia.
  - intros x Hx. rewrite Hal by lia. apply V. fold f. lia.
  - intros x. destruct (decide (x = 45)) as [->|]; [|rewrite Hal by done; apply V].
    unfold allocB. rewrite bblock by lia. rewrite setb_ne, setb_eq by lia. rewrite length_bit_set. apply V.
Qed.
End view.

(** ** Blocks of a file *)

(** The blocks that are missing to write block [fbn] of a file. *)
Definition need (B : Z → list Z) (addrs : list Z) (fbn : Z) : Z :=
  (if fslot B addrs fbn =? 0 then 1 else 0) + (if (12 <=? fbn) && (fslot B addrs 268 =? 0) then 1 else 0).

(** The file after block [fbn] has been provided. *)
Record placed (ib : Z) (m : mstate) (B : Z → list Z) (addrs : list Z) (fbn : Z) (m' : mstate) (B' : Z → list Z) (addrs' : list Z)
    : Prop := {
  pl_view : view m' B';
  pl_ino : m_freeinode m' = m_freeinode m;
  pl_free : m_freeblock m' = m_freeblock m + need B addrs fbn;
  pl_evolves : evolves sb ib B addrs B' addrs';
  pl_slots : ∀ k, 0 ≤ k ≤ 268 → fslot B' addrs' k = 0 ↔ fslot B addrs k = 0 ∧ k ≠ fbn ∧ (k = 268 → fbn < 12);
  pl_content : ∀ p, 0 ≤ p < 268 * 1024 → content B' addrs' p = content B addrs p;
}.

Section place.
Context (ib : Z) (m : mstate) (B : Z → list Z) (addrs : list Z).
Hypothesis V : view m B.
Hypothesis F : file_ok sb B addrs.

Lemma slot_data k : 0 ≤ k ≤ 268 → fslot B addrs k ≠ 0 → 46 ≤ fslot B addrs k < m_freeblock m.
Proof using V F.
  intros Hk Hn. destruct (fk_data _ _ _ F k Hk Hn) as [Hr Hm]. change (datastart sb) with 46 in Hr. change (sb_size sb) with 1000 in Hr.
  rewrite (view_marked m B V) in Hm by lia. apply Z.ltb_lt in Hm. lia.
Qed.

Lemma slot_xint k : 0 ≤ k ≤ 268 → xint (fslot B addrs k) = fslot B addrs k.
Proof using V F.
  intros Hk. apply xint_id. destruct (decide (fslot B addrs k = 0)) as [->|Hn]; [lia|].
  pose proof (slot_data k Hk Hn). pose proof (vw_free _ _ V). lia.
Qed.

(** The block was there. *)
Lemma placed_refl fbn : 0 ≤ fbn < 268 → fslot B addrs fbn ≠ 0 → (12 ≤ fbn → fslot B addrs 268 ≠ 0) → placed ib m B addrs fbn m B addrs.
Proof using V F.
  intros Hf Hn Hi. split; [done|done| |by apply evolves_refl; [eapply view_disk|]| |done].
  - unfold need. rewrite (proj2 (Z.eqb_neq _ _)) by done. destruct (Z.leb_spec 12 fbn); cbn [andb]; [|lia].
    rewrite (proj2 (Z.eqb_neq _ _)) by by apply Hi. lia.
  - intros k Hk. split; [|tauto]. intros E. split; [done|]. split; [by intros ->|]. intros ->. destruct (decide (fbn < 12)); [done|].
    exfalso. apply Hi; [lia|done].
Qed.

(** One block is added. *)
Lemma grows_placed k B' addrs' :
  0 ≤ k ≤ 268 → fslot B addrs k = 0 → m_freeblock m < 1000 → grows sb B addrs k (m_freeblock m) B' addrs' →
  evolves sb ib B addrs B' addrs' ∧ (∀ p, 0 ≤ p < 268 * 1024 → content B' addrs' p = content B addrs p) ∧ file_ok sb B' addrs' ∧
  ∀ i, 0 ≤ i ≤ 268 → fslot B' addrs' i = 0 ↔ fslot B addrs i = 0 ∧ i ≠ k.
Proof using V F.
  intros Hk Hk0 Hlt G. pose proof (vw_free _ _ V) as Hfr. set (f := m_freeblock m) in *.
  assert (Hmf : marked sb B f = false) by (rewrite (view_marked m B V) by lia; apply Z.ltb_ge; lia).
  assert (Hf : 0 ≤ f < sb_size sb) by (change (sb_size sb) with 1000; lia).
  pose proof (grow_evolves sb B B' addrs addrs' k f (view_disk m B V) F Hf Hmf Hk Hk0 G ib) as E.
  split_and!; [done| |apply E|].
  - intros p Hp. by eapply (grow_content sb B B' addrs addrs' k f (view_disk m B V)).
  - intros i Hi. rewrite (gr_slot _ _ _ _ _ _ _ G) by done. case_decide; [subst; split; [lia|tauto]|tauto].
Qed.
End place.

Lemma put32_length l o v : (o + 4 ≤ length l)%nat → length (put32 l o v) = length l.
Proof. apply length_put. Qed.

Section append_block.
Context (ib : Z) (m : mstate) (B : Z → list Z) (din : inode) (fbn : Z).
Hypothesis V : view m B.
Hypothesis F : file_ok sb B (i_addrs din).
Hypothesis Hroom : m_freeblock m + need B (i_addrs din) fbn ≤ 1000.
Local Abbreviation addrs := (i_addrs din).
Local Abbreviation f := (m_freeblock m).

Lemma free_unmarked : f < 1000 → marked sb B f = false ∧ 0 ≤ f < sb_size sb.
Proof using V.
  intros H. pose proof (vw_free _ _ V). split; [|change (sb_size sb) with 1000; lia].
  rewrite (view_marked m B V) by lia. apply Z.ltb_ge. lia.
Qed.

Lemma append_direct : 0 ≤ fbn < 12 →
  ∃ m' B' addrs', iappend_block din fbn m = Ok (set_addrs addrs' din, fslot B' addrs' fbn) m' ∧
    placed ib m B addrs fbn m' B' addrs' ∧ fslot B' addrs' fbn ≠ 0.
Proof using V F Hroom.
  intros Hf. pose proof (vw_free _ _ V) as Hfr. pose proof (fk_len _ _ _ F) as Hl.
  assert (Es : ∀ B a, fslot B a fbn = nth (Z.to_nat fbn) a 0).
  { intros. unfold fslot. by rewrite (proj2 (Z.ltb_lt _ _)) by lia. }
  unfold iappend_block. change NDIRECT with 12. rewrite (proj2 (Z.ltb_lt _ _)) by lia. rewrite <-(Es B).
  rewrite (slot_xint m B addrs V F) by lia. destruct (Z.eqb_spec (fslot B addrs fbn) 0) as [E|E].
  - assert (Hn : need B addrs fbn = 1).
    { unfold need. rewrite E. cbn. by rewrite (proj2 (Z.leb_gt _ _)) by lia. }
    destruct (next_block_run m B V ltac:(lia)) as (m1 & R & V1 & Ef & Ei).
    destruct (free_unmarked ltac:(lia)) as [Hm Hs].
    pose proof (grows_direct sb B addrs f (view_disk m B V) F Hs Hm fbn Hf) as G.
    destruct (grows_placed ib m B addrs V F fbn _ _ ltac:(lia) E ltac:(lia) G) as (Ev & Hc & F1 & Hsl).
    rewrite bind_assoc, (bind_ok _ _ _ _ _ R), !bind_ret. cbv beta. rewrite xint_id by lia.
    exists m1, (allocB sb B f), (<[Z.to_nat fbn := f]> addrs). cbn [i_addrs set_addrs].
    rewrite <-(Es (allocB sb B f)), (slot_xint m1 _ _ V1 F1) by lia. split; [done|].
    assert (Hne : fslot (allocB sb B f) (<[Z.to_nat fbn:=f]> addrs) fbn ≠ 0) by (rewrite (Hsl fbn) by lia; tauto).
    split; [|done]. split; [done|done|lia|done| |done]. intros k Hk. rewrite Hsl by done. split; [|tauto].
    intros [? ?]. split_and!; (done || lia).
  - rewrite bind_ret. exists m, B, addrs. rewrite <-(Es B), (slot_xint m B addrs V F) by lia.
    split; [by destruct din|]. split; [|done]. apply placed_refl; (done || lia).
Qed.

(** The indirect block is there. *)
Lemma append_entry : 12 ≤ fbn < 268 → nth 12 addrs 0 ≠ 0 →
  ∃ m' B',
    (let ia := xint (nth 12 addrs 0) in
     indirect ← rsect ia;
     let o := Z.to_nat (4 * (fbn - NDIRECT)) in
     indirect ←
       (if get32 indirect o =? 0 then
          b ← next_block;
          let indirect := put32 indirect o (xint b) in
          wsect ia indirect;;
          mret indirect
        else mret indirect);
     mret (din, xint (get32 indirect o))) m = Ok (din, fslot B' addrs fbn) m' ∧
    placed ib m B addrs fbn m' B' addrs ∧ fslot B' addrs fbn ≠ 0.
Proof using V F Hroom.
  intros Hf Hi. pose proof (vw_free _ _ V) as Hfr. assert (E268 : fslot B addrs 268 = nth 12 addrs 0) by done.
  pose proof (slot_data m B addrs V F 268 ltac:(lia) Hi) as Hia. rewrite E268 in Hia. set (ia := nth 12 addrs 0) in *.
  change NDIRECT with 12. cbv zeta. set (o := Z.to_nat (4 * (fbn - 12))).
  assert (Es : ∀ B, fslot B addrs fbn = get32 (B ia) o).
  { intros. unfold fslot. rewrite (proj2 (Z.ltb_ge _ _)), (proj2 (Z.eqb_neq fbn 268)) by lia. fold ia.
    by rewrite (proj2 (Z.eqb_neq ia 0)). }
  rewrite xint_id by lia. rewrite (bind_ok _ _ _ _ _ (rsect_run m B V ia ltac:(lia) ltac:(lia))). rewrite <-(Es B).
  assert (Hn : need B addrs fbn = if fslot B addrs fbn =? 0 then 1 else 0).
  { unfold need. rewrite E268. fold ia. rewrite (proj2 (Z.eqb_neq ia 0)), andb_false_r by done. lia. }
  destruct (Z.eqb_spec (fslot B addrs fbn) 0) as [E|E].
  - destruct (next_block_run m B V ltac:(lia)) as (m1 & R & V1 & Ef & Ei). destruct (free_unmarked ltac:(lia)) as [Hm Hs].
    pose proof (grows_entry sb B addrs f (view_disk m B V) F Hs Hm fbn Hf Hi) as G. cbv zeta in G. fold ia o in G.
    pose proof (alloc_indirect sb B addrs f (view_disk m B V) F Hs Hm Hi) as Eia. fold ia in Eia. rewrite Eia in G.
    destruct (grows_placed ib m B addrs V F fbn _ _ ltac:(lia) E ltac:(lia) G) as (Ev & Hc & F1 & Hsl).
    assert (Ho : (o + 4 ≤ length (B ia))%nat) by (rewrite (vw_size _ _ V); unfold o; change BNAT with (Z.to_nat 1024); lia).
    destruct (wsect_run m1 _ V1 ia (put32 (B ia) o f) ltac:(lia) ltac:(lia)) as (m2 & R2 & V2 & Ef2 & Ei2).
    { rewrite put32_length by done. apply V. }
    set (B2 := setb (allocB sb B f) ia (put32 (B ia) o f)) in *.
    rewrite bind_assoc, (bind_ok _ _ _ _ _ R). cbv zeta. rewrite bind_assoc. rewrite (xint_id f) by lia.
    rewrite (bind_ok _ _ _ _ _ R2), bind_ret. exists m2, B2.
    assert (E2 : get32 (put32 (B ia) o f) o = fslot B2 addrs fbn) by (rewrite (Es B2); unfold B2; by rewrite setb_eq).
    rewrite E2, (slot_xint m2 _ _ V2 F1) by lia. split; [done|]. split; [|rewrite Hsl by lia; tauto].
    split; [done|congruence|lia|done| |done]. intros k Hk. rewrite Hsl by done.
    split; [|tauto]. intros [H1 H2]. split_and!; [done|done|]. intros ->. by rewrite E268 in H1.
  - rewrite bind_ret. exists m, B. rewrite <-(Es B), (slot_xint m B addrs V F) by lia. split; [done|]. split; [|done].
    apply placed_refl; [done|done|lia|done|by intros _].
Qed.
End append_block.

Lemma append_indirect ib m B din fbn :
  view m B → file_ok sb B (i_addrs din) → m_freeblock m + need B (i_addrs din) fbn ≤ 1000 → 12 ≤ fbn < 268 →
  ∃ m' B' addrs', iappend_block din fbn m = Ok (set_addrs addrs' din, fslot B' addrs' fbn) m' ∧
    placed ib m B (i_addrs din) fbn m' B' addrs' ∧ fslot B' addrs' fbn ≠ 0.
Proof.
  intros V F Hroom Hf. pose proof (vw_free _ _ V) as Hfr. pose proof (fk_len _ _ _ F) as Hl.
  set (addrs := i_addrs din) in *. assert (E268 : fslot B addrs 268 = nth 12 addrs 0) by done.
  unfold iappend_block. change (fbn <? NDIRECT) with (fbn <? 12). rewrite (proj2 (Z.ltb_ge _ _)) by lia. fold addrs.
  rewrite <-E268, (slot_xint m B addrs V F) by lia. destruct (Z.eqb_spec (fslot B addrs 268) 0) as [E|E].
  - assert (Efb : fslot B addrs fbn = 0).
    { unfold fslot. rewrite (proj2 (Z.ltb_ge _ _)), (proj2 (Z.eqb_neq fbn 268)) by lia. cbv zeta. rewrite <-E268, E. done. }
    assert (Hn : need B addrs fbn = 2).
    { unfold need. rewrite E, Efb, (proj2 (Z.leb_le _ _)) by lia. done. }
    destruct (next_block_run m B V ltac:(lia)) as (m1 & R & V1 & Ef & Ei). destruct (free_unmarked m B V ltac:(lia)) as [Hm Hs].
    set (f := m_freeblock m) in *.
    pose proof (grows_indirect sb B addrs f (view_disk m B V) F Hs Hm ltac:(congruence)) as G.
    destruct (grows_placed ib m B addrs V F 268 _ _ ltac:(lia) E ltac:(lia) G) as (Ev & Hc & F1 & Hsl).
    rewrite bind_assoc, (bind_ok _ _ _ _ _ R), bind_ret. rewrite (xint_id f) by lia.
    set (a1 := <[12%nat := f]> addrs) in *. set (B1 := allocB sb B f) in *. set (din1 := set_addrs a1 din).
    assert (H12 : nth 12 a1 0 ≠ 0).
    { intros E1. assert (Hx : fslot B1 a1 268 = 0) by exact E1. rewrite Hsl in Hx by lia. tauto. }
    assert (Hn1 : need B1 a1 fbn = 1).
    { unfold need. assert (Hz : fslot B1 a1 fbn = 0) by (rewrite Hsl by lia; split; [done|lia]). rewrite Hz.
      change (fslot B1 a1 268) with (nth 12 a1 0). rewrite (proj2 (Z.eqb_neq (nth 12 a1 0) 0)), andb_false_r by done. done. }
    destruct (append_entry ib m1 B1 din1 fbn V1 F1 ltac:(change (i_addrs din1) with a1; lia) Hf H12) as (m2 & B2 & R2 & P & Hne).
    change (i_addrs din1) with a1 in P, Hne, R2. exists m2, B2, a1. split; [exact R2|]. split; [|done].
    destruct P as [V2 Ei2 Ef2 Ev2 Hs2 Hc2]. split; [done|congruence|lia|by eapply evolves_trans| |].
    + intros k Hk. rewrite Hs2, Hsl by done. split; [|intros (H1 & H2 & H3); split_and!; try done; lia].
      intros ((H1 & H2) & H3 & H4). split_and!; (done || lia).
    + intros p Hp. rewrite Hc2, Hc; done.
  - rewrite bind_ret. destruct (append_entry ib m B din fbn V F Hroom Hf E) as (m2 & B2 & R2 & P & Hne).
    exists m2, B2, addrs. split; [|done]. by destruct din.
Qed.

Lemma append_block_ok ib m B din fbn :
  view m B → file_ok sb B (i_addrs din) → m_freeblock m + need B (i_addrs din) fbn ≤ 1000 → 0 ≤ fbn < 268 →
  ∃ m' B' addrs', iappend_block din fbn m = Ok (set_addrs addrs' din, fslot B' addrs' fbn) m' ∧
    placed ib m B (i_addrs din) fbn m' B' addrs' ∧ fslot B' addrs' fbn ≠ 0.
Proof. intros V F Hr Hf. destruct (decide (fbn < 12)); [apply append_direct|apply append_indirect]; (done || lia). Qed.

(** ** Appending *)

(** The data blocks, and all blocks, of a file of [s] bytes. *)
Definition nblks (s : Z) : Z := (s + 1023) / 1024.
Definition total (s : Z) : Z := nblks s + (if 12 <? nblks s then 1 else 0).

(** A file of [s] bytes has exactly these blocks. *)
Definition shape (B : Z → list Z) (addrs : list Z) (s : Z) : Prop :=
  ∀ k, 0 ≤ k ≤ 268 → fslot B addrs k = 0 ↔ nblks s ≤ (if k =? 268 then 12 else k).

Record appended (ib : Z) (m : mstate) (B : Z → list Z) (addrs : list Z) (off : Z) (bs : list Z) (m' : mstate) (B' : Z → list Z)
    (addrs' : list Z) : Prop := {
  ap_view : view m' B';
  ap_ino : m_freeinode m' = m_freeinode m;
  ap_free : m_freeblock m' = m_freeblock m + total (off + Z.of_nat (length bs)) - total off;
  ap_evolves : evolves sb ib B addrs B' addrs';
  ap_shape : shape B' addrs' (off + Z.of_nat (length bs));
  ap_content : ∀ p, 0 ≤ p < 268 * 1024 → content B' addrs' p = overwrite (content B addrs) off bs p;
}.

Lemma need_total B addrs off n :
  shape B addrs off → 0 ≤ off → 0 < n → n ≤ 1024 - off mod 1024 → off / 1024 < 268 →
  need B addrs (off / 1024) = total (off + n) - total off ∧
  ∀ k, 0 ≤ k ≤ 268 → (fslot B addrs k = 0 ∧ k ≠ off / 1024 ∧ (k = 268 → off / 1024 < 12)) ↔ nblks (off + n) ≤ (if k =? 268 then 12 else k).
Proof.
  intros Hs Ho Hn Hn1 Hlt. assert (Hb : 0 ≤ off / 1024) by dlia.
  assert (Hnb : nblks (off + n) = off / 1024 + 1) by (unfold nblks; dlia).
  assert (Hcase : nblks off = off / 1024 ∨ nblks off = off / 1024 + 1) by (unfold nblks; dlia). split.
  - pose proof (Hs (off / 1024) ltac:(lia)) as H1. pose proof (Hs 268 ltac:(lia)) as H2.
    rewrite (proj2 (Z.eqb_neq _ 268)) in H1 by lia. cbn in H2. unfold need, total. rewrite Hnb.
    assert (E1 : (fslot B addrs (off / 1024) =? 0) = (nblks off =? off / 1024)).
    { destruct (Z.eqb_spec (nblks off) (off / 1024)); [apply Z.eqb_eq; apply H1; lia|apply Z.eqb_neq; rewrite H1; lia]. }
    assert (E2 : (fslot B addrs 268 =? 0) = (nblks off <=? 12)).
    { destruct (Z.leb_spec (nblks off) 12); [apply Z.eqb_eq; by apply H2|apply Z.eqb_neq; rewrite H2; lia]. }
    rewrite E1, E2. destruct Hcase as [->| ->].
    + rewrite Z.eqb_refl. destruct (Z.leb_spec 12 (off / 1024)), (Z.leb_spec (off / 1024) 12), (Z.ltb_spec 12 (off / 1024 + 1)), (Z.ltb_spec 12 (off / 1024)); cbn [andb]; lia.
    + rewrite (proj2 (Z.eqb_neq _ _)) by lia.
      destruct (Z.leb_spec 12 (off / 1024)), (Z.leb_spec (off / 1024 + 1) 12), (Z.ltb_spec 12 (off / 1024 + 1)); cbn [andb]; lia.
  - intros k Hk. rewrite (Hs k Hk), Hnb. destruct (Z.eqb_spec k 268); lia.
Qed.

Lemma appended_nil ib m B addrs off :
  view m B → file_ok sb B addrs → shape B addrs off → appended ib m B addrs off [] m B addrs.
Proof.
  intros V F Hs. split; cbn [length Z.of_nat]; rewrite ?Z.add_0_r; try done; [lia|apply evolves_refl; [by eapply view_disk|done]|].
  intros p Hp. unfold overwrite. by rewrite decide_False by (cbn; lia).
Qed.

Lemma overwrite_ext c c' off bs p : c p = c' p → overwrite c off bs p = overwrite c' off bs p.
Proof. intros E. unfold overwrite. by case_decide. Qed.

Lemma appended_app ib m B a off bs1 m1 B1 a1 bs2 m2 B2 a2 :
  appended ib m B a off bs1 m1 B1 a1 → appended ib m1 B1 a1 (off + Z.of_nat (length bs1)) bs2 m2 B2 a2 →
  appended ib m B a off (bs1 ++ bs2) m2 B2 a2.
Proof.
  intros [V1 I1 F1 E1 S1 C1] [V2 I2 F2 E2 S2 C2].
  assert (El : off + Z.of_nat (length bs1) + Z.of_nat (length bs2) = off + Z.of_nat (length (bs1 ++ bs2))) by (rewrite length_app; lia).
  rewrite El in *. split; [done|congruence|lia|by eapply evolves_trans|done|].
  intros p Hp. rewrite C2, <-overwrite_app by done. apply overwrite_ext. by apply C1.
Qed.

(** One turn of the loop: the part of [bs] that falls into one block. *)
Lemma append_chunk ib m B din off bs :
  let n := Z.of_nat (length bs) in let fbn := off / 1024 in
  view m B → file_ok sb B (i_addrs din) → shape B (i_addrs din) off → 0 ≤ off → 0 < n ≤ 1024 - off mod 1024 → fbn < 268 →
  m_freeblock m + total (off + n) - total off ≤ 1000 →
  ∃ m1 B1 addrs' m', iappend_block din fbn m = Ok (set_addrs addrs' din, fslot B1 addrs' fbn) m1 ∧
    rsect (fslot B1 addrs' fbn) m1 = Ok (B1 (fslot B1 addrs' fbn)) m1 ∧
    wsect (fslot B1 addrs' fbn) (splice (B1 (fslot B1 addrs' fbn)) (Z.to_nat (off - fbn * 1024)) bs) m1 = Ok tt m' ∧
    appended ib m B (i_addrs din) off bs m' (setb B1 (fslot B1 addrs' fbn) (splice (B1 (fslot B1 addrs' fbn)) (Z.to_nat (off mod 1024)) bs)) addrs'.
Proof.
  intros n fbn V F Hs Ho Hn Hlt Hroom. set (addrs := i_addrs din) in *. assert (Hf0 : 0 ≤ fbn) by (unfold fbn; dlia).
  destruct (need_total B addrs off n Hs Ho) as [Hneed Hsl]; [lia|lia|done|]. fold fbn in Hneed, Hsl.
  destruct (append_block_ok ib m B din fbn V F ltac:(fold addrs; lia) ltac:(lia)) as (m1 & B1 & a1 & R & P & Hne).
  fold addrs in P. destruct P as [V1 I1 Fr1 E1 S1 C1]. pose proof (ev_file _ _ _ _ _ _ E1) as F1.
  pose proof (slot_data m1 B1 a1 V1 F1 fbn ltac:(lia) Hne) as Hx. pose proof (vw_free _ _ V1) as Hfr.
  assert (Eo : Z.to_nat (off - fbn * 1024) = Z.to_nat (off mod 1024)) by (f_equal; unfold fbn; dlia).
  assert (Hlen : length (splice (B1 (fslot B1 a1 fbn)) (Z.to_nat (off mod 1024)) bs) = BNAT).
  { rewrite length_splice; [apply V1|]. rewrite (vw_size _ _ V1). change BNAT with (Z.to_nat 1024).
    pose proof (Z.mod_pos_bound off 1024 ltac:(lia)). unfold n in Hn. lia. }
  destruct (wsect_run m1 B1 V1 (fslot B1 a1 fbn) _ ltac:(lia) ltac:(lia) Hlen) as (m2 & R2 & V2 & Fr2 & I2).
  exists m1, B1, a1, m2. split_and!; [done|apply rsect_run; [done|lia|lia]|by rewrite Eo|]. fold n.
  pose proof (sb_evolves sb B1 a1 fbn (view_disk _ _ V1) F1 ltac:(lia) Hne _ Hlen ib) as E2.
  split; [done|congruence|fold n; lia|by eapply evolves_trans| |].
  - intros k Hk. rewrite (sb_slot sb B1 a1 fbn F1) by (done || lia). rewrite S1 by done. by apply Hsl.
  - intros p Hp. pose proof (splice_content B1 a1 sb off bs p (view_disk _ _ V1) F1 Ho Hlt Hne ltac:(fold n; lia) Hp) as Ec.
    fold fbn in Ec. rewrite Ec. apply overwrite_ext. by apply C1.
Qed.

Lemma total_mono s t : 0 ≤ s ≤ t → total s ≤ total t.
Proof.
  intros H. unfold total. assert (nblks s ≤ nblks t) by (unfold nblks; dlia).
  destruct (Z.ltb_spec 12 (nblks s)), (Z.ltb_spec 12 (nblks t)); lia.
Qed.

Lemma iappend_loop_ok ib fuel m B din off bs :
  view m B → file_ok sb B (i_addrs din) → shape B (i_addrs din) off → 0 ≤ off → off + Z.of_nat (length bs) ≤ 268 * 1024 →
  m_freeblock m + total (off + Z.of_nat (length bs)) - total off ≤ 1000 → (length bs ≤ fuel)%nat →
  ∃ m' B' addrs', iappend_loop fuel din off bs m = Ok (set_addrs addrs' din, off + Z.of_nat (length bs)) m' ∧
    appended ib m B (i_addrs din) off bs m' B' addrs'.
Proof.
  revert m B din off bs. induction fuel as [|fuel IH]; intros m B din off bs V F Hs Ho Hmax Hroom Hfuel.
  { destruct bs; [|cbn in Hfuel; lia]. exists m, B, (i_addrs din). split; [|by apply appended_nil]. cbn. rewrite Z.add_0_r. by destruct din. }
  cbn [iappend_loop]. destruct (Z.leb_spec (Z.of_nat (length bs)) 0) as [Hz|Hpos].
  { destruct bs; [|cbn in Hz; lia]. exists m, B, (i_addrs din). split; [|by apply appended_nil]. rewrite Z.add_0_r. by destruct din. }
  change BSIZE with 1024. set (fbn := off / 1024). assert (Hfb : 0 ≤ fbn < 268) by (unfold fbn; dlia).
  change (fbn <? MAXFILE) with (fbn <? 268). rewrite (proj2 (Z.ltb_lt fbn 268)) by lia. cbn [massert]. rewrite bind_ret.
  assert (Eu : u32 ((fbn + 1) * 1024 - off) = 1024 - off mod 1024) by (rewrite u32_small; unfold fbn; dlia). rewrite Eu.
  set (n1 := Z.min (Z.of_nat (length bs)) (1024 - off mod 1024)). pose proof (Z.mod_pos_bound off 1024 ltac:(lia)) as Hmod.
  assert (Hn1 : 0 < n1 ≤ 1024 - off mod 1024 ∧ n1 ≤ Z.of_nat (length bs)) by (unfold n1; lia).
  clearbody n1. set (b1 := take (Z.to_nat n1) bs). set (b2 := drop (Z.to_nat n1) bs).
  assert (L1 : Z.of_nat (length b1) = n1) by (unfold b1; rewrite length_take; lia).
  assert (L2 : Z.of_nat (length b2) = Z.of_nat (length bs) - n1) by (unfold b2; rewrite length_drop; lia).
  pose proof (total_mono (off + n1) (off + Z.of_nat (length bs)) ltac:(lia)) as Hmono.
  destruct (append_chunk ib m B din off b1 V F Hs Ho ltac:(lia) (proj2 Hfb) ltac:(rewrite L1; lia)) as (m1 & B1 & a1 & m2 & R1 & R2 & R3 & A).
  fold fbn in R1, R2, R3, A. rewrite (bind_ok _ _ _ _ _ R1). cbv beta iota zeta. fold b1 b2.
  rewrite (bind_ok _ _ _ _ _ R2), (bind_ok _ _ _ _ _ R3).
  set (B2 := setb B1 _ _) in A. rewrite u32_small by lia. pose proof A as [V2 I2 Fr2 E2 S2 C2]. rewrite L1 in Fr2, S2.
  destruct (IH m2 B2 (set_addrs a1 din) (off + n1) b2) as (m3 & B3 & a3 & R & A3).
  - done.
  - apply E2.
  - exact S2.
  - lia.
  - lia.
  - rewrite L2. replace (off + n1 + (Z.of_nat (length bs) - n1)) with (off + Z.of_nat (length bs)) by lia. lia.
  - lia.
  - exists m3, B3, a3. rewrite R, L2. split; [do 2 f_equal; lia|]. cbn [i_addrs set_addrs] in A3.
    replace bs with (b1 ++ b2) by apply take_drop. eapply appended_app; [exact A|]. by rewrite L1.
Qed.
