(* ===== verification/MkfsImage.v ===== *)
(** mkfs: the inodes and files of the image. *)

From S2P Require Import Prelude Riscv Kstate Mem Kalloc Vm Sched Bytes Bio BioSpec BioOps Log Fs FsTx Balloc Bmap Writei Inode Dir Mkfs MkfsSpec.

Local Abbreviation sb := mkfs_sb.

(** ** Inodes on disk *)

Lemma get_put_addrs_after n d off a o :
  (off + 4 * length a ≤ length d)%nat → (off + 4 * length a ≤ o)%nat → get_le n (put_addrs d off a) o = get_le n d o.
Proof.
  revert d off. induction a as [|v a IH]; intros d off Hl Ho; cbn [put_addrs length] in *; [done|].
  unfold put32. rewrite IH by (rewrite ?length_put by lia; lia). apply get_put_ne; lia.
Qed.

(** The fields before the block addresses. *)
Lemma put_dinode_split d off x : (off + 64 ≤ length d)%nat →
  ∃ e, put_dinode d off x = put_addrs e (off + 12) (i_addrs x) ∧ length e = length d ∧
    ∀ n o, (o + n ≤ off ∨ off + 12 ≤ o)%nat → get_le n e o = get_le n d o.
Proof.
  intros Hl. unfold put_dinode, put16, put32.
  set (d1 := put_le 2 d off _). assert (L1 : length d1 = length d) by (apply length_put; lia).
  set (d2 := put_le 2 d1 _ _). assert (L2 : length d2 = length d) by (rewrite <-L1; apply length_put; lia).
  set (d3 := put_le 2 d2 _ _). assert (L3 : length d3 = length d) by (rewrite <-L2; apply length_put; lia).
  set (d4 := put_le 2 d3 _ _). assert (L4 : length d4 = length d) by (rewrite <-L3; apply length_put; lia).
  set (d5 := put_le 4 d4 _ _). assert (L5 : length d5 = length d) by (rewrite <-L4; apply length_put; lia).
  exists d5. split_and!; [done|done|]. intros n o Ho.
  unfold d5. rewrite get_put_ne by lia. unfold d4. rewrite get_put_ne by lia. unfold d3. rewrite get_put_ne by lia.
  unfold d2. rewrite get_put_ne by lia. unfold d1. apply get_put_ne; lia.
Qed.

(** Storing an inode leaves the rest of the block alone. *)
Lemma get_put_dinode_other n d off x o :
  length (i_addrs x) = 13%nat → (off + 64 ≤ length d)%nat → (o + n ≤ off ∨ off + 64 ≤ o)%nat →
  get_le n (put_dinode d off x) o = get_le n d o.
Proof.
  intros Hx Hl Ho. destruct (put_dinode_split d off x Hl) as (e & -> & He & Hg). rewrite <-Hg by lia.
  destruct Ho; [apply get_put_addrs_before; lia|apply get_put_addrs_after; lia].
Qed.

Definition inode_of (B : Z → list Z) (i : Z) : inode := get_dinode (B (IBLOCK i sb)) (dinode_off i) zero_dinode.
Definition put_inode (B : Z → list Z) (i : Z) (x : inode) : Z → list Z :=
  setb B (IBLOCK i sb) (put_dinode (B (IBLOCK i sb)) (dinode_off i) x).

Lemma dinode_off_at i : 0 ≤ i → dinode_off i = Z.to_nat (i mod 16 * 64).
Proof. done. Qed.

Section inodes.
Context (m : mstate) (B : Z → list Z) (V : view m B) (i : Z) (Hi : 0 ≤ i < 200).

Lemma inode_block : 32 ≤ IBLOCK i sb < 45.
Proof using Hi. rewrite iblock by done. dlia. Qed.

Lemma inode_fits_block : (dinode_off i + 64 ≤ length (B (IBLOCK i sb)))%nat.
Proof using V Hi. rewrite (vw_size _ _ V). unfold dinode_off. change IPB with 16. change DINODE with 64. change BNAT with (Z.to_nat 1024). dlia. Qed.

Lemma rinode_run : rinode i m = Ok (inode_of B i) m.
Proof using V Hi.
  unfold rinode, gets. pose proof inode_block. unfold mbind at 1, M_bind at 1. rewrite (vw_sb _ _ V). cbv zeta.
  by rewrite (bind_ok _ _ _ _ _ (rsect_run m B V (IBLOCK i sb) ltac:(lia) ltac:(lia))).
Qed.

Lemma put_inode_data x w : 45 ≤ w → put_inode B i x w = B w.
Proof using Hi. intros Hw. pose proof inode_block. apply setb_ne. lia. Qed.
Lemma put_inode_low x w : w < 32 → put_inode B i x w = B w.
Proof using Hi. intros Hw. pose proof inode_block. apply setb_ne. lia. Qed.

Context (x : inode) (Hx : length (i_addrs x) = 13%nat).

Lemma winode_run : ∃ m', winode i x m = Ok tt m' ∧ view m' (put_inode B i x) ∧
  m_freeblock m' = m_freeblock m ∧ m_freeinode m' = m_freeinode m.
Proof using V Hi Hx.
  pose proof inode_block. pose proof (vw_free _ _ V). pose proof inode_fits_block as Hf.
  destruct (wsect_run m B V (IBLOCK i sb) (put_dinode (B (IBLOCK i sb)) (dinode_off i) x)) as (m' & R & V' & E1 & E2); [lia|lia| |].
  { rewrite length_put_dinode by done. apply V. }
  exists m'. split; [|done]. unfold winode, gets. unfold mbind at 1, M_bind at 1. rewrite (vw_sb _ _ V). cbv zeta.
  by rewrite (bind_ok _ _ _ _ _ (rsect_run m B V (IBLOCK i sb) ltac:(lia) ltac:(lia))).
Qed.

Lemma put_inode_same : dinode_fits x → inode_of (put_inode B i x) i = loaded x zero_dinode.
Proof using V Hi.
  intros Hfit. unfold inode_of, put_inode. rewrite setb_eq. apply get_put_dinode; [done|]. apply inode_fits_block.
Qed.

Lemma put_inode_other j : 0 ≤ j < 200 → j ≠ i → inode_of (put_inode B i x) j = inode_of B j.
Proof using V Hi Hx.
  intros Hj Hn. unfold inode_of, put_inode. destruct (decide (IBLOCK j sb = IBLOCK i sb)) as [E|]; [|by rewrite setb_ne].
  rewrite E, setb_eq. rewrite !iblock in E by done. pose proof inode_fits_block as Hf.
  assert (Ho : (dinode_off j + 64 ≤ dinode_off i ∨ dinode_off i + 64 ≤ dinode_off j)%nat).
  { rewrite !dinode_off_at by lia. assert (j mod 16 ≠ i mod 16) by dlia. dlia. }
  unfold get_dinode, get_addrs, get16, get32. rewrite !get_put_dinode_other by (done || lia). f_equal.
  apply map_ext_in. intros k Hk%in_seq. apply get_put_dinode_other; (done || lia).
Qed.
End inodes.

(** ** Files whose blocks do not change *)

Section keeps.
Context (B B' : Z → list Z) (addrs : list Z).
Hypothesis Hsame : ∀ k, 0 ≤ k ≤ 268 → fslot B addrs k ≠ 0 → B' (fslot B addrs k) = B (fslot B addrs k).

Lemma keeps_slot k : 0 ≤ k ≤ 268 → fslot B' addrs k = fslot B addrs k.
Proof using Hsame.
  intros Hk. unfold fslot. destruct (k <? 12); [done|]. destruct (k =? 268); [done|].
  destruct (Z.eqb_spec (nth 12 addrs 0) 0) as [|Hn]; [done|]. by rewrite (Hsame 268 ltac:(lia) Hn : B' (nth 12 addrs 0) = _).
Qed.

Lemma keeps_content p : 0 ≤ p < 268 * 1024 → content B' addrs p = content B addrs p.
Proof using Hsame.
  intros Hp. unfold content. rewrite keeps_slot by dlia. destruct (Z.eqb_spec (fslot B addrs (p / 1024)) 0) as [|Hn]; [done|].
  by rewrite Hsame by (done || dlia).
Qed.

Lemma keeps_file :
  (∀ w, 0 ≤ w < 1000 → marked sb B w = true → marked sb B' w = true) → file_ok sb B addrs → file_ok sb B' addrs.
Proof using Hsame.
  intros Hm F. split; [apply F| |].
  - intros k Hk. rewrite keeps_slot by done. intros Hn. destruct (fk_data _ _ _ F k Hk Hn) as [Hr Hmk]. split; [done|].
    apply Hm; [|done]. change (datastart sb) with 46 in Hr. change (sb_size sb) with 1000 in Hr. lia.
  - intros k l Hk Hl. rewrite !keeps_slot by done. by apply F.
Qed.

Lemma keeps_shape s : shape B addrs s → shape B' addrs s.
Proof using Hsame. intros H k Hk. rewrite keeps_slot by done. by apply H. Qed.

Lemma keeps_bytes n : n ≤ 268 * 1024 → bytes_at B' addrs 0 n = bytes_at B addrs 0 n.
Proof using Hsame. intros Hn. apply bytes_at_ext. intros p Hp. apply keeps_content. lia. Qed.
End keeps.

(** ** The files of the image *)

(** Inode [i] is a file of type [t] with the bytes [bs], followed by zeros. *)
Record has_file (B : Z → list Z) (i t : Z) (bs : list Z) : Prop := {
  hf_ok : file_ok sb B (i_addrs (inode_of B i));
  hf_shape : shape B (i_addrs (inode_of B i)) (Z.of_nat (length bs));
  hf_fits : dinode_fits (inode_of B i);
  hf_type : i_type (inode_of B i) = t;
  hf_nlink : i_nlink (inode_of B i) = 1;
  hf_size : i_size (inode_of B i) = Z.of_nat (length bs);
  hf_max : Z.of_nat (length bs) ≤ 268 * 1024;
  hf_bytes : ∀ p, 0 ≤ p < 268 * 1024 → content B (i_addrs (inode_of B i)) p = default 0 (bs !! Z.to_nat p);
}.

(** Blocks that the files [F] need. *)
Definition blocks_of (F : list (Z * list Z)) : Z := foldr (λ x n, total (Z.of_nat (length x.2)) + n) 0 F.

(** File [j] of [F], its type and its bytes, is in inode [j + 1]; no block
    belongs to two files, and nothing else has been allocated. *)
Record built (m : mstate) (B : Z → list Z) (F : list (Z * list Z)) : Prop := {
  bt_view : view m B;
  bt_ino : m_freeinode m = Z.of_nat (length F) + 1 ∧ Z.of_nat (length F) < 200;
  bt_free : m_freeblock m = 46 + blocks_of F;
  bt_file : ∀ j t bs, F !! j = Some (t, bs) → has_file B (Z.of_nat j + 1) t bs;
  bt_apart : ∀ i j k l, (i < length F)%nat → (j < length F)%nat → i ≠ j → 0 ≤ k ≤ 268 → 0 ≤ l ≤ 268 →
    fslot B (i_addrs (inode_of B (Z.of_nat i + 1))) k ≠ 0 →
    fslot B (i_addrs (inode_of B (Z.of_nat i + 1))) k ≠ fslot B (i_addrs (inode_of B (Z.of_nat j + 1))) l;
}.

Lemma blocks_of_app F G : blocks_of (F ++ G) = blocks_of F + blocks_of G.
Proof. unfold blocks_of. induction F as [|x F IH]; [done|]. cbn [app foldr]. lia. Qed.

Lemma blocks_of_insert F j t bs bs' : F !! j = Some (t, bs) →
  blocks_of (<[j := (t, bs')]> F) = blocks_of F - total (Z.of_nat (length bs)) + total (Z.of_nat (length bs')).
Proof.
  intros Hj. rewrite insert_take_drop by by eapply lookup_lt_Some. rewrite <-(take_drop_middle F j _ Hj) at 3.
  rewrite !blocks_of_app. cbn [blocks_of foldr snd]. fold (blocks_of (drop (S j) F)). lia.
Qed.

Lemma total_nonneg s : 0 ≤ s → 0 ≤ total s.
Proof. intros H. pose proof (total_mono 0 s ltac:(lia)). change (total 0) with 0 in *. lia. Qed.

Lemma view_marks m m' B B' w :
  view m B → view m' B' → m_freeblock m ≤ m_freeblock m' → 0 ≤ w < 1000 → marked sb B w = true → marked sb B' w = true.
Proof.
  intros V V' Hle Hw. rewrite (view_marked m B V), (view_marked m' B' V') by done. intros H%Z.ltb_lt. apply Z.ltb_lt. lia.
Qed.

(** The blocks of the other files are alien to a file. *)
Lemma built_alien m B F i j k :
  built m B F → (i < length F)%nat → (j < length F)%nat → i ≠ j → 0 ≤ k ≤ 268 →
  let ai := i_addrs (inode_of B (Z.of_nat i + 1)) in let aj := i_addrs (inode_of B (Z.of_nat j + 1)) in
  fslot B ai k ≠ 0 → alien sb B aj (fslot B ai k).
Proof.
  intros BT Hi Hj Hn Hk ai aj H0. destruct (lookup_lt_is_Some_2 F i Hi) as [[t bs] Ei].
  destruct (fk_data _ _ _ (hf_ok _ _ _ _ (bt_file _ _ _ BT i t bs Ei)) k Hk H0) as [Hr Hm].
  split; [exact Hr|]. split; [exact Hm|].
  intros l Hl E. by apply (bt_apart _ _ _ BT i j k l Hi Hj Hn Hk Hl H0).
Qed.

(** A file that keeps its inode and its blocks. *)
Lemma has_file_keeps B B' i t bs :
  has_file B i t bs → inode_of B' i = inode_of B i →
  (∀ k, 0 ≤ k ≤ 268 → fslot B (i_addrs (inode_of B i)) k ≠ 0 → B' (fslot B (i_addrs (inode_of B i)) k) = B (fslot B (i_addrs (inode_of B i)) k)) →
  (∀ w, 0 ≤ w < 1000 → marked sb B w = true → marked sb B' w = true) → has_file B' i t bs.
Proof.
  intros [H1 H2 H3 H4 H5 H6 H7 H8] E Hs Hm. split; rewrite ?E; try done.
  - by apply (keeps_file B).
  - by apply (keeps_shape B).
  - intros p Hp. rewrite (keeps_content B B' _ Hs p Hp). by apply H8.
Qed.

(** One file is replaced. *)
Lemma built_replace m B F j t bs m' B' bs' :
  let i := Z.of_nat j + 1 in
  built m B F → F !! j = Some (t, bs) → view m' B' → m_freeinode m' = m_freeinode m →
  m_freeblock m' = m_freeblock m + total (Z.of_nat (length bs')) - total (Z.of_nat (length bs)) → m_freeblock m ≤ m_freeblock m' →
  has_file B' i t bs' → (∀ l, 0 ≤ l < 200 → l ≠ i → inode_of B' l = inode_of B l) →
  (∀ w, alien sb B (i_addrs (inode_of B i)) w → B' w = B w ∧ ∀ k, 0 ≤ k ≤ 268 → fslot B' (i_addrs (inode_of B' i)) k ≠ w) →
  built m' B' (<[j := (t, bs')]> F).
Proof.
  intros i BT Hj V' Ei Ef Hle Hfile Hino Hal. pose proof (bt_ino _ _ _ BT) as [I1 I2]. pose proof (lookup_lt_Some _ _ _ Hj) as Hjl.
  assert (Hkeep : ∀ l k, (l < length F)%nat → l ≠ j → 0 ≤ k ≤ 268 →
    inode_of B' (Z.of_nat l + 1) = inode_of B (Z.of_nat l + 1) ∧
    (fslot B (i_addrs (inode_of B (Z.of_nat l + 1))) k ≠ 0 →
     B' (fslot B (i_addrs (inode_of B (Z.of_nat l + 1))) k) = B (fslot B (i_addrs (inode_of B (Z.of_nat l + 1))) k) ∧
     ∀ q, 0 ≤ q ≤ 268 → fslot B' (i_addrs (inode_of B' i)) q ≠ fslot B (i_addrs (inode_of B (Z.of_nat l + 1))) k)).
  { intros l k Hl Hn Hk. split; [apply Hino; lia|]. intros H0. apply Hal. by eapply built_alien. }
  assert (Hslot : ∀ l k, (l < length F)%nat → l ≠ j → 0 ≤ k ≤ 268 →
    fslot B' (i_addrs (inode_of B' (Z.of_nat l + 1))) k = fslot B (i_addrs (inode_of B (Z.of_nat l + 1))) k).
  { intros l k Hl Hn Hk. destruct (Hkeep l k Hl Hn Hk) as [-> _]. apply keeps_slot; [|done]. intros q Hq H0. by apply (Hkeep l q Hl Hn Hq). }
  split; rewrite ?length_insert; [done|lia| | |].
  - rewrite (blocks_of_insert F j t bs) by done. rewrite (bt_free _ _ _ BT) in Ef. lia.
  - intros l t' bs'' Hl. destruct (decide (l = j)) as [->|Hn].
    + rewrite list_lookup_insert_eq in Hl by done. by injection Hl as <- <-.
    + rewrite list_lookup_insert_ne in Hl by done. pose proof (lookup_lt_Some _ _ _ Hl) as Hll.
      eapply has_file_keeps; [by apply BT|by apply (Hkeep l 0)|intros k Hk H0; by apply (Hkeep l k)|].
      intros w Hw. apply (view_marks m m'); (done || apply BT).
  - intros l q k o Hl Hq Hn Hk Ho. destruct (decide (l = j)) as [->|Hlj].
    + rewrite (Hslot q o) by done. intros H0 E. destruct (Hkeep q o Hq ltac:(done) Ho) as [_ Hq'].
      destruct (Hq' ltac:(congruence)) as [_ Hne]. by apply (Hne k).
    + rewrite (Hslot l k) by done. destruct (decide (q = j)) as [->|Hqj].
      * intros H0 E. destruct (Hkeep l k Hl Hlj Hk) as [_ Hl']. destruct (Hl' H0) as [_ Hne]. by apply (Hne o).
      * rewrite (Hslot q o) by done. by apply BT.
Qed.

Lemma file_addrs_range m B a : view m B → file_ok sb B a → Forall (λ x, 0 ≤ x < 4294967296) a.
Proof.
  intros V F. apply Forall_lookup. intros k x Hk. pose proof (fk_len _ _ _ F) as Hl. pose proof (lookup_lt_Some _ _ _ Hk) as Hlt.
  pose proof (vw_free _ _ V) as Hf. set (q := if decide (k = 12%nat) then 268 else Z.of_nat k).
  assert (Hq : 0 ≤ q ≤ 268) by (unfold q; case_decide; lia).
  assert (E : fslot B a q = x).
  { unfold q, fslot. case_decide as E12.
    - subst k. cbn. by rewrite nth_lookup, Hk.
    - rewrite (proj2 (Z.ltb_lt _ _)) by lia. by rewrite Nat2Z.id, nth_lookup, Hk. }
  destruct (decide (x = 0)) as [->|Hn]; [lia|]. rewrite <-E in Hn. pose proof (slot_data m B a V F q Hq Hn). lia.
Qed.

(** Appending to file [j]. *)
Lemma iappend_ok m B F j t bs bs2 :
  built m B F → F !! j = Some (t, bs) → Z.of_nat (length (bs ++ bs2)) ≤ 268 * 1024 →
  46 + blocks_of (<[j := (t, bs ++ bs2)]> F) ≤ 1000 →
  ∃ m' B', iappend (Z.of_nat j + 1) bs2 m = Ok tt m' ∧ built m' B' (<[j := (t, bs ++ bs2)]> F) ∧
    ∀ w, 0 ≤ w < 32 → B' w = B w.
Proof.
  intros BT Hj Hmax Hroom. pose proof (bt_view _ _ _ BT) as V. pose proof (bt_ino _ _ _ BT) as [I1 I2].
  pose proof (lookup_lt_Some _ _ _ Hj) as Hjl. set (i := Z.of_nat j + 1). assert (Hi : 0 ≤ i < 200) by lia.
  pose proof (bt_file _ _ _ BT j t bs Hj) as HF. fold i in HF. pose proof HF as [F1 F2 F3 F4 F5 F6 F7 F8]. set (x := inode_of B i) in *.
  assert (El : Z.of_nat (length bs) + Z.of_nat (length bs2) = Z.of_nat (length (bs ++ bs2))) by (rewrite length_app; lia).
  rewrite (blocks_of_insert F j t bs) in Hroom by done. pose proof (bt_free _ _ _ BT) as Hfb.
  pose proof (total_mono (Z.of_nat (length bs)) (Z.of_nat (length (bs ++ bs2))) ltac:(lia)) as Hmono.
  unfold iappend. rewrite (bind_ok _ _ _ _ _ (rinode_run m B V i Hi)). fold x. rewrite F6, xint_id by lia.
  destruct (iappend_loop_ok (-1) (length bs2) m B x (Z.of_nat (length bs)) bs2 V F1 F2) as (m1 & B1 & a1 & R & A);
    [lia|lia|rewrite El; lia|done|].
  cbv zeta. rewrite (bind_ok _ _ _ _ _ R). cbv beta iota. rewrite El in *. rewrite xint_id by lia.
  destruct A as [V1 Ino1 Fr1 E1 S1 C1]. rewrite El in Fr1, S1. pose proof (ev_file _ _ _ _ _ _ E1) as Fl1.
  set (x' := set_isize _ (set_addrs a1 x)).
  destruct (winode_run m1 B1 V1 i Hi x' (fk_len _ _ _ Fl1)) as (m2 & R2 & V2 & Fr2 & Ino2). exists m2, (put_inode B1 i x').
  split; [done|].
  assert (Hfit : dinode_fits x').
  { destruct F3. split; cbn; try done; [lia|apply Fl1|by apply (file_addrs_range m1 B1)]. }
  assert (Hd : ∀ w, 45 ≤ w → put_inode B1 i x' w = B1 w) by (intros; by apply put_inode_data).
  assert (Esame : inode_of (put_inode B1 i x') i = loaded x' zero_dinode) by by apply (put_inode_same m1).
  assert (Ea : i_addrs (inode_of (put_inode B1 i x') i) = a1) by by rewrite Esame.
  assert (Hk : ∀ k, 0 ≤ k ≤ 268 → fslot B1 a1 k ≠ 0 → put_inode B1 i x' (fslot B1 a1 k) = B1 (fslot B1 a1 k)).
  { intros k Hk H0. pose proof (slot_data m1 B1 a1 V1 Fl1 k Hk H0). apply Hd. lia. }
  split.
  - apply (built_replace m B F j t bs); try done; fold i x.
    + lia.
    + lia.
    + lia.
    + split; rewrite ?Ea; rewrite ?Esame; try done.
      * apply (keeps_file B1); [done| |done]. intros w Hw. apply (view_marks m1 m2); (done || lia).
      * by apply (keeps_shape B1).
      * intros p Hp. rewrite (keeps_content B1), C1 by done. unfold overwrite.
        destruct (decide (Z.of_nat (length bs) ≤ p < Z.of_nat (length bs) + Z.of_nat (length bs2))) as [Hin|Hout].
        -- rewrite lookup_app_r by lia. replace (Z.to_nat p - length bs)%nat with (Z.to_nat (p - Z.of_nat (length bs))) by lia.
           destruct (lookup_lt_is_Some_2 bs2 (Z.to_nat (p - Z.of_nat (length bs))) ltac:(lia)) as [v Hv].
           by rewrite list_lookup_total_alt, Hv.
        -- rewrite F8 by done. destruct (decide (p < Z.of_nat (length bs))); [by rewrite lookup_app_l by lia|].
           by rewrite !lookup_ge_None_2 by (rewrite ?length_app; lia).
    + intros l Hl Hn. rewrite (put_inode_other m1) by (done || apply Fl1). unfold inode_of. f_equal.
      pose proof (inode_block l Hl). apply (ev_low _ _ _ _ _ _ E1); [change (sb_bmapstart sb) with 45|]; lia.
    + intros w Hw. destruct (ev_alien _ _ _ _ _ _ E1 w Hw) as [Hw1 Ew]. pose proof Hw as [Hr _]. change (datastart sb) with 46 in Hr.
      rewrite Hd by lia. split; [done|]. intros k Hk'. rewrite Ea, (keeps_slot B1) by done. by apply Hw1.
  - intros w Hw. rewrite (put_inode_low B1 i Hi) by lia.
    apply (ev_low _ _ _ _ _ _ E1); [change (sb_bmapstart sb) with 45|]; lia.
Qed.

Lemma fslot_zeros B k : 0 ≤ k ≤ 268 → fslot B (replicate 13 0) k = 0.
Proof.
  intros Hk. unfold fslot. change (nth 12 (replicate 13 0) 0) with 0. cbv zeta. rewrite Z.eqb_refl.
  destruct (k <? 12); [|by destruct (k =? 268)]. rewrite nth_lookup.
  destruct (replicate 13 0 !! Z.to_nat k) as [v|] eqn:E; [|done]. by apply lookup_replicate_1 in E as [-> _].
Qed.

Lemma content_zeros B p : 0 ≤ p < 268 * 1024 → content B (replicate 13 0) p = 0.
Proof. intros Hp. unfold content. by rewrite fslot_zeros by dlia. Qed.

(** A new, empty file. *)
Lemma ialloc_ok m B F t :
  built m B F → Z.of_nat (length F) < 199 → 0 ≤ t < 32768 →
  ∃ m' B', Mkfs.ialloc t m = Ok (Z.of_nat (length F) + 1) m' ∧ built m' B' (F ++ [(t, [])]) ∧ ∀ w, 0 ≤ w < 32 → B' w = B w.
Proof.
  intros BT Hlen Ht. pose proof (bt_view _ _ _ BT) as V. pose proof (bt_ino _ _ _ BT) as [I1 I2].
  set (i := Z.of_nat (length F) + 1) in *. assert (Hi : 0 ≤ i < 200) by lia.
  set (m0 := set_freeinode (u32 (i + 1)) m). assert (V0 : view m0 B) by (destruct V; by split).
  set (x := set_isize 0 (set_nlink 1 (set_itype t zero_dinode))).
  destruct (winode_run m0 B V0 i Hi x eq_refl) as (m1 & R & V1 & Fr & Ino). exists m1, (put_inode B i x).
  assert (Hfit : dinode_fits x) by (split; [cbn; lia|cbn; lia|cbn; lia|cbn; lia|cbn; lia|done|by repeat constructor]).
  assert (Esame : inode_of (put_inode B i x) i = loaded x zero_dinode) by by apply (put_inode_same m0).
  assert (Hd : ∀ w, 45 ≤ w → put_inode B i x w = B w) by (intros; by apply put_inode_data).
  assert (Hother : ∀ l, 0 ≤ l < 200 → l ≠ i → inode_of (put_inode B i x) l = inode_of B l) by (intros; by apply (put_inode_other m0)).
  split_and!; [| |intros w Hw; apply put_inode_low; (done || lia)].
  { assert (E1 : (gets m_freeinode : MK Z) m = Ok i m) by (unfold gets; by rewrite I1).
    assert (E2 : (modify (set_freeinode (u32 (i + 1))) : MK unit) m = Ok tt m0) by done.
    unfold Mkfs.ialloc. rewrite (bind_ok _ _ _ _ _ E1), (bind_ok _ _ _ _ _ E2). cbv beta zeta. rewrite (xshort_id t) by lia.
    change (xshort 1) with 1. change (xint 0) with 0. fold x. by rewrite (bind_ok _ _ _ _ _ R). }
  assert (Hkeep : ∀ l k, (l < length F)%nat → 0 ≤ k ≤ 268 →
    inode_of (put_inode B i x) (Z.of_nat l + 1) = inode_of B (Z.of_nat l + 1) ∧
    (fslot B (i_addrs (inode_of B (Z.of_nat l + 1))) k ≠ 0 →
     put_inode B i x (fslot B (i_addrs (inode_of B (Z.of_nat l + 1))) k) = B (fslot B (i_addrs (inode_of B (Z.of_nat l + 1))) k))).
  { intros l k Hl Hk. split; [apply Hother; lia|]. intros H0. apply Hd. destruct (lookup_lt_is_Some_2 F l Hl) as [[t' bs] El].
    pose proof (slot_data m B _ V (hf_ok _ _ _ _ (bt_file _ _ _ BT l t' bs El)) k Hk H0). lia. }
  assert (Hslot : ∀ l k, (l < length F)%nat → 0 ≤ k ≤ 268 →
    fslot (put_inode B i x) (i_addrs (inode_of (put_inode B i x) (Z.of_nat l + 1))) k = fslot B (i_addrs (inode_of B (Z.of_nat l + 1))) k).
  { intros l k Hl Hk. destruct (Hkeep l k Hl Hk) as [-> _]. apply keeps_slot; [|done]. intros q Hq. by apply (Hkeep l q Hl Hq). }
  assert (Hzero : ∀ l k, l = length F → 0 ≤ k ≤ 268 → fslot (put_inode B i x) (i_addrs (inode_of (put_inode B i x) (Z.of_nat l + 1))) k = 0).
  { intros l k -> Hk. fold i. rewrite Esame. by apply fslot_zeros. }
  split; rewrite ?length_app; cbn [length].
  - done.
  - rewrite Ino. unfold m0. cbn [m_freeinode set_freeinode]. rewrite u32_small by lia. lia.
  - rewrite Fr, blocks_of_app. change (m_freeblock m0) with (m_freeblock m). rewrite (bt_free _ _ _ BT). change (blocks_of [(t, [])]) with 0. lia.
  - intros l t' bs Hl. apply lookup_app_Some in Hl as [Hl|[Hge Hl]].
    + pose proof (lookup_lt_Some _ _ _ Hl) as Hll.
      eapply has_file_keeps; [by apply BT|by apply (Hkeep l 0)|intros k Hk; by apply (Hkeep l k)|].
      intros w Hw. apply (view_marks m m1); (done || rewrite Fr; done).
    + assert (l = length F) as -> by (apply lookup_lt_Some in Hl; cbn in Hl; lia). rewrite Nat.sub_diag in Hl. injection Hl as <- <-.
      fold i. split; rewrite ?Esame; try done.
      * split; [done| |]; intros k; cbn [loaded i_addrs]; change (i_addrs x) with (replicate 13 0).
        -- intros Hk. by rewrite fslot_zeros.
        -- intros q Hk Hq. by rewrite !fslot_zeros.
      * intros k Hk. change (i_addrs (loaded x zero_dinode)) with (replicate 13 0). rewrite fslot_zeros by done.
        change (nblks (Z.of_nat (length (@nil Z)))) with 0. destruct (k =? 268); lia.
      * intros p Hp. by apply content_zeros.
  - intros l q k o Hl Hq Hn Hk Ho. destruct (decide (l = length F)) as [El|Hlj]; [by rewrite Hzero|].
    rewrite (Hslot l k) by lia. intros H0. destruct (decide (q = length F)) as [Eq|Hqj]; [by rewrite (Hzero q o)|].
    rewrite (Hslot q o) by lia. apply (bt_apart _ _ _ BT); (done || lia).
Qed.
