(* ===== verification/MkfsTheorems.v ===== *)
(** mkfs: the whole program, and the image it leaves. *)

From S2P Require Import Prelude Riscv Kstate Mem Kalloc Vm Sched Bytes Bio BioSpec BioOps Log Fs FsTx Balloc Bmap Writei Inode Dir Mkfs MkfsSpec MkfsImage.

Local Abbreviation sb := mkfs_sb.

(** ** What the image is to hold *)

(** A directory entry; "." and ".." of the root. *)
Definition dots : list (list Z) := [dirent 1 ([DOT] ++ replicate 13 0); dirent 1 ([DOT; DOT] ++ replicate 12 0)].
Definition entries (files : list (list Z * list Z)) : list (list Z) :=
  dots ++ imap (λ j f, new_dent f.1 (Z.of_nat j + 2)) files.

(** The root directory in inode 1, then the files. *)
Definition image (files : list (list Z * list Z)) : list (Z * list Z) :=
  (T_DIR, concat (entries files)) :: ((λ f, (T_FILE, f.2)) <$> files).

Definition mkfs_start : mstate := MState (<[1%nat := splice zero_block 0 (sb_bytes sb)]> (replicate 1000 zero_block)) sb 1 46.
Definition start_blocks (w : Z) : list Z :=
  if w =? 1 then splice zero_block 0 (sb_bytes sb) else if w =? 45 then mark_used 46 else zero_block.

(** ** The empty image *)

Lemma built_empty : built mkfs_start start_blocks [].
Proof.
  split; [|done|done|done|].
  2:{ intros i j k l Hi. cbn in Hi. lia. }
  split; try done.
  - intros w Hw Hn. unfold start_blocks. rewrite (proj2 (Z.eqb_neq w 45)) by done. cbn [mkfs_start m_img].
    destruct (Z.eqb_spec w 1) as [->|H1].
    + change (Z.to_nat 1) with 1%nat. by rewrite list_lookup_insert_eq by (rewrite length_replicate; lia).
    + rewrite list_lookup_insert_ne by lia. apply lookup_replicate_2. lia.
  - intros w Hw. change (m_freeblock mkfs_start) with 46 in Hw. unfold start_blocks.
    by rewrite (proj2 (Z.eqb_neq w 1)), (proj2 (Z.eqb_neq w 45)) by lia.
  - intros w. unfold start_blocks. repeat case_match; [done|apply length_mark_used|done].
Qed.

Lemma clear_loop n k m : m_img m = replicate k zero_block → (k + n ≤ 1000)%nat →
  forM (seq k n) (λ i, wsect (Z.of_nat i) zero_block) m = Ok tt (set_img (replicate (k + n) zero_block) m).
Proof.
  revert k m. induction n as [|n IH]; intros k m Hm Hk; cbn [seq forM].
  - rewrite Nat.add_0_r, <-Hm. by destruct m.
  - assert (E : wsect (Z.of_nat k) zero_block m = Ok tt (set_img (replicate (S k) zero_block) m)).
    { unfold wsect, modify. rewrite sector_at, Nat2Z.id, Hm by lia. unfold put_sector.
      rewrite length_replicate, Nat.ltb_irrefl, Nat.sub_diag. cbn [replicate app]. by rewrite <-replicate_cons_app. }
    rewrite (bind_ok _ _ _ _ _ E). rewrite IH; [|done|lia]. cbn. by rewrite Nat.add_succ_r.
Qed.

(** ** Files *)

Lemma blocks_of_lookup F j t bs bs' : F !! j = Some (t, bs) → (length bs ≤ length bs')%nat → blocks_of F ≤ blocks_of (<[j := (t, bs')]> F).
Proof.
  intros Hj Hl. rewrite (blocks_of_insert F j t bs) by done.
  pose proof (total_mono (Z.of_nat (length bs)) (Z.of_nat (length bs')) ltac:(lia)). lia.
Qed.

(** while((cc = read(fd, buf, sizeof(buf))) > 0) iappend(inum, buf, cc); *)
Lemma iappend_all chunks m B F j t bs :
  built m B F → F !! j = Some (t, bs) → Z.of_nat (length (bs ++ concat chunks)) ≤ 268 * 1024 →
  46 + blocks_of (<[j := (t, bs ++ concat chunks)]> F) ≤ 1000 →
  ∃ m' B', forM chunks (iappend (Z.of_nat j + 1)) m = Ok tt m' ∧ built m' B' (<[j := (t, bs ++ concat chunks)]> F) ∧
    ∀ w, 0 ≤ w < 32 → B' w = B w.
Proof.
  revert m B F bs. induction chunks as [|c chunks IH]; intros m B F bs BT Hj Hmax Hroom; cbn [forM concat] in *.
  - rewrite app_nil_r in *. exists m, B. rewrite list_insert_id by done. by split_and!.
  - rewrite app_assoc in Hmax, Hroom |- *. pose proof (lookup_lt_Some _ _ _ Hj) as Hjl.
    destruct (iappend_ok m B F j t bs c BT Hj) as (m1 & B1 & R & BT1 & L1).
    + rewrite length_app in Hmax. lia.
    + pose proof (blocks_of_lookup (<[j := (t, bs ++ c)]> F) j t (bs ++ c) ((bs ++ c) ++ concat chunks)
        ltac:(by apply list_lookup_insert_eq) ltac:(rewrite (length_app (bs ++ c)); lia)) as Hle.
      rewrite list_insert_insert_eq in Hle. lia.
    + destruct (IH m1 B1 _ (bs ++ c) BT1) as (m2 & B2 & R2 & BT2 & L2).
      * by apply list_lookup_insert_eq.
      * done.
      * by rewrite list_insert_insert_eq.
      * exists m2, B2. rewrite (bind_ok _ _ _ _ _ R), R2. split; [done|]. rewrite list_insert_insert_eq in BT2. split; [done|].
        intros w Hw. rewrite L2, L1; done.
Qed.

Section main.
Context (creates : bool) (host : list Z → option (list (list Z))).

(** The name and the contents of a file argument, if it can be put into the
    image: no slash in the name, and the file can be opened. *)
Definition file_of (arg : list Z) : option (list Z * list Z) :=
  if existsb (Z.eqb SLASH) (cstr (short_of arg)) then None
  else chunks ← host arg; Some (skip_underscore (short_of arg), concat chunks).

Lemma entries_app files f : entries (files ++ [f]) = entries files ++ [new_dent f.1 (Z.of_nat (length files) + 2)].
Proof. unfold entries. rewrite imap_app, app_assoc. cbn. by rewrite Nat.add_0_r. Qed.

Lemma entries_len files : Forall (λ e, length e = 16%nat) (entries files).
Proof.
  unfold entries. apply Forall_app. split; [by repeat constructor|]. apply Forall_lookup. intros j e Hj.
  rewrite list_lookup_imap in Hj. destruct (files !! j); [|done]. injection Hj as <-. apply length_new_dent.
Qed.

Lemma length_entries files : length (entries files) = (length files + 2)%nat.
Proof. unfold entries. rewrite length_app, length_imap. cbn. lia. Qed.

Lemma concat_len (es : list (list Z)) : Forall (λ e, length e = 16%nat) es → length (concat es) = (16 * length es)%nat.
Proof. induction 1 as [|e es He _ IH]; [done|]. cbn [concat length]. rewrite length_app. lia. Qed.

Lemma root_len files : Z.of_nat (length (concat (entries files))) = 16 * (Z.of_nat (length files) + 2).
Proof. rewrite concat_len by apply entries_len. rewrite length_entries. lia. Qed.

Lemma image_app files f :
  image (files ++ [f]) =
  <[S (length files) := (T_FILE, f.2)]>
    (<[0%nat := (T_DIR, concat (entries files) ++ new_dent f.1 (Z.of_nat (length files) + 2))]> (image files ++ [(T_FILE, [])])).
Proof.
  transitivity ((T_DIR, concat (entries files) ++ new_dent f.1 (Z.of_nat (length files) + 2)) ::
    <[length files := (T_FILE, f.2)]> (((λ f, (T_FILE, f.2)) <$> files) ++ [(T_FILE, [])])); [|reflexivity].
  unfold image. rewrite entries_app, concat_app. cbn [concat]. rewrite app_nil_r. f_equal.
  rewrite fmap_app, insert_app_r_alt by (by rewrite length_fmap). rewrite length_fmap, Nat.sub_diag. done.
Qed.

Lemma blocks_of_image files f : blocks_of (image files) ≤ blocks_of (image (files ++ [f])).
Proof.
  assert (E : ∀ fs, blocks_of (image fs) = total (16 * (Z.of_nat (length fs) + 2)) + blocks_of ((λ f, (T_FILE, f.2)) <$> fs)).
  { intros fs. unfold image. cbn [blocks_of foldr snd]. by rewrite root_len. }
  rewrite !E, fmap_app, blocks_of_app, length_app. cbn [length fmap list_fmap blocks_of foldr snd].
  pose proof (total_nonneg (Z.of_nat (length f.2)) ltac:(lia)).
  pose proof (total_mono (16 * (Z.of_nat (length files) + 2)) (16 * (Z.of_nat (length files + 1) + 2)) ltac:(lia)). lia.
Qed.

(** One argument. *)
Lemma add_file_ok m B files f arg :
  built m B (image files) → file_of arg = Some f → Z.of_nat (length files) < 198 → Z.of_nat (length f.2) ≤ 268 * 1024 →
  46 + blocks_of (image (files ++ [f])) ≤ 1000 →
  ∃ m' B', add_file host ROOTINO arg m = Ok tt m' ∧ built m' B' (image (files ++ [f])) ∧ ∀ w, 0 ≤ w < 32 → B' w = B w.
Proof.
  intros BT Hf Hn Hmax Hroom. unfold file_of in Hf. destruct (existsb _ _) eqn:Es; [done|].
  destruct (host arg) as [chunks|] eqn:Eh; [|done]. cbn in Hf. injection Hf as <-. cbn [fst snd] in *.
  set (name := skip_underscore (short_of arg)) in *. unfold add_file. cbv zeta. rewrite Es. cbn [negb massert]. rewrite bind_ret, Eh.
  set (n := length files) in *. set (F0 := image files) in *.
  assert (Hl0 : length F0 = S n) by (unfold F0, image; cbn; by rewrite length_fmap).
  destruct (ialloc_ok m B F0 T_FILE BT ltac:(lia) ltac:(done)) as (m1 & B1 & R1 & BT1 & L1).
  rewrite Hl0 in R1. replace (Z.of_nat (S n) + 1) with (Z.of_nat n + 2) in R1 by lia. rewrite (bind_ok _ _ _ _ _ R1).
  set (F1 := F0 ++ [(T_FILE, [])]) in *. assert (H0 : F1 !! 0%nat = Some (T_DIR, concat (entries files))) by done.
  assert (Hd : dirent (Z.of_nat n + 2) (strncpy name DIRSIZ) = new_dent name (Z.of_nat n + 2)).
  { unfold dirent, new_dent. by rewrite xshort_id by lia. }
  rewrite image_app in Hroom |- *. cbn [fst snd] in *. fold n F0 F1 in Hroom |- *.
  set (F2 := <[0%nat := _]> F1) in *.
  assert (H2 : F2 !! S n = Some (T_FILE, [])).
  { unfold F2. rewrite list_lookup_insert_ne by done. unfold F1. rewrite lookup_app_r by lia. by rewrite Hl0, Nat.sub_diag. }
  destruct (iappend_ok m1 B1 F1 0 T_DIR (concat (entries files)) (new_dent name (Z.of_nat n + 2)) BT1 H0) as (m2 & B2 & R2 & BT2 & L2).
  { rewrite length_app, length_new_dent, Nat2Z.inj_add, root_len. fold n. lia. }
  { fold F2. pose proof (blocks_of_lookup F2 (S n) T_FILE [] (concat chunks) H2 ltac:(cbn; lia)). lia. }
  cbv beta. fold name. rewrite Hd. change (Z.of_nat 0 + 1) with ROOTINO in R2. rewrite (bind_ok _ _ _ _ _ R2). fold F2 in BT2.
  destruct (iappend_all chunks m2 B2 F2 (S n) T_FILE [] BT2 H2) as (m3 & B3 & R3 & BT3 & L3); [done|done|].
  replace (Z.of_nat (S n) + 1) with (Z.of_nat n + 2) in R3 by lia. exists m3, B3. split; [done|]. split; [done|].
  intros w Hw. rewrite L3, L2, L1; done.
Qed.

Lemma add_files_ok args m B files more :
  built m B (image files) → mapM file_of args = Some more → Z.of_nat (length (files ++ more)) < 199 →
  Forall (λ f, Z.of_nat (length f.2) ≤ 268 * 1024) more → 46 + blocks_of (image (files ++ more)) ≤ 1000 →
  ∃ m' B', forM args (add_file host ROOTINO) m = Ok tt m' ∧ built m' B' (image (files ++ more)) ∧ ∀ w, 0 ≤ w < 32 → B' w = B w.
Proof.
  revert m B files more. induction args as [|arg args IH]; intros m B files more BT Hm Hn Hmax Hroom; cbn [forM].
  - injection Hm as <-. rewrite app_nil_r in *. by exists m, B.
  - cbn in Hm. destruct (file_of arg) as [f|] eqn:Ef; [|done]. cbn in Hm. fold (mapM file_of args) in Hm.
    destruct (mapM file_of args) as [fs|] eqn:Em; [|done]. injection Hm as <-. apply Forall_cons in Hmax as [Hf Hfs].
    rewrite length_app in Hn. cbn [length] in Hn. change (f :: fs) with ([f] ++ fs) in *. rewrite app_assoc in *.
    assert (Hle : ∀ gs, blocks_of (image (files ++ [f])) ≤ blocks_of (image ((files ++ [f]) ++ gs))).
    { intros gs. induction gs as [|g gs' IHg] using rev_ind; [by rewrite app_nil_r|].
      pose proof (blocks_of_image ((files ++ [f]) ++ gs') g). rewrite (app_assoc (files ++ [f])). lia. }
    specialize (Hle fs). destruct (add_file_ok m B files f arg BT Ef ltac:(lia) Hf ltac:(lia)) as (m1 & B1 & R & BT1 & L1).
    destruct (IH m1 B1 (files ++ [f]) fs BT1 eq_refl) as (m2 & B2 & R2 & BT2 & L2);
      [rewrite !length_app; cbn [length]; lia|done|done|].
    exists m2, B2. rewrite (bind_ok _ _ _ _ _ R), R2. split; [done|]. split; [done|]. intros w Hw. rewrite L2, L1; done.
Qed.
End main.

(** ** The finished image *)

(** The size that the root directory is given. *)
Definition root_size (files : list (list Z * list Z)) : Z := (16 * (Z.of_nat (length files) + 2) / 1024 + 1) * 1024.

(** The image [img], with contents [B]: the superblock and an empty log, the
    bitmap, one inode for each file with its bytes, the root directory, and no
    block that belongs to two of them. *)
Record mkfs_image (img : list (list Z)) (B : Z → list Z) (files : list (list Z * list Z)) : Prop := {
  mi_img : length img = 1000%nat ∧ ∀ w, 0 ≤ w < 1000 → img !! Z.to_nat w = Some (B w);
  mi_sb : parse_sb (B 1) = sb ∧ sb_magic sb = FSMAGIC;
  mi_log : B (sb_logstart sb) = zero_block;
  mi_disk : disk_ok sb B;
  mi_marks : ∀ w, 0 ≤ w < 1000 → marked sb B w = (w <? 46 + blocks_of (image files));
  mi_files : ∀ j name bs, files !! j = Some (name, bs) → has_file B (Z.of_nat j + 2) T_FILE bs;
  mi_root : let x := inode_of B ROOTINO in
    i_type x = T_DIR ∧ i_nlink x = 1 ∧ i_size x = root_size files ∧ file_ok sb B (i_addrs x) ∧
    shape B (i_addrs x) (16 * (Z.of_nat (length files) + 2)) ∧
    dents B (i_addrs x) 0 (root_size files / 16) =
      entries files ++ replicate (Z.to_nat (root_size files / 16) - (length files + 2)) (replicate 16 0);
  mi_apart : ∀ i j k l, (i < length (image files))%nat → (j < length (image files))%nat → i ≠ j → 0 ≤ k ≤ 268 → 0 ≤ l ≤ 268 →
    fslot B (i_addrs (inode_of B (Z.of_nat i + 1))) k ≠ 0 →
    fslot B (i_addrs (inode_of B (Z.of_nat i + 1))) k ≠ fslot B (i_addrs (inode_of B (Z.of_nat j + 1))) l;
}.

Lemma concat_lookup (es : list (list Z)) k r e :
  Forall (λ e, length e = 16%nat) es → es !! k = Some e → (r < 16)%nat → concat es !! (16 * k + r)%nat = e !! r.
Proof.
  intros H. revert k. induction H as [|e' es He _ IH]; intros [|k] Hk Hr; try done; cbn [concat].
  - injection Hk as ->. by rewrite lookup_app_l by lia.
  - rewrite lookup_app_r by lia. rewrite He. replace (16 * S k + r - 16)%nat with (16 * k + r)%nat by lia. by apply IH.
Qed.

(** A directory whose contents are the entries [es] and then zeros. *)
Lemma dents_concat B addrs es n :
  Forall (λ e, length e = 16%nat) es → Z.of_nat (length es) ≤ n → 16 * n ≤ 268 * 1024 →
  (∀ p, 0 ≤ p < 268 * 1024 → content B addrs p = default 0 (concat es !! Z.to_nat p)) →
  dents B addrs 0 n = es ++ replicate (Z.to_nat n - length es) (replicate 16 0).
Proof.
  intros He Hn Hmax Hc. apply list_eq. intros k. unfold dents. rewrite list_lookup_fmap.
  destruct (decide (Z.of_nat k < n)) as [Hk|Hk].
  2:{ rewrite lookup_seqZ_ge by lia. symmetry. apply lookup_ge_None_2. rewrite length_app, length_replicate. lia. }
  rewrite lookup_seqZ_lt by lia. cbn [fmap option_fmap option_map]. unfold dent.
  assert (Hb : ∀ r, (r < 16)%nat → bytes_at B addrs (16 * (0 + Z.of_nat k)) 16 !! r = Some (default 0 (concat es !! (16 * k + r)%nat))).
  { intros r Hr. rewrite lookup_bytes_at by lia. rewrite Hc by lia. do 3 f_equal. lia. }
  assert (Hlb : length (bytes_at B addrs (16 * (0 + Z.of_nat k)) 16) = 16%nat) by by rewrite length_bytes_at.
  destruct (lookup_lt_is_Some_2 (es ++ replicate (Z.to_nat n - length es) (replicate 16 0)) k) as [e Ek].
  { rewrite length_app, length_replicate. lia. }
  rewrite Ek. f_equal. apply list_eq. intros r. destruct (decide (r < 16)%nat) as [Hr|Hr].
  - rewrite Hb by done. apply lookup_app_Some in Ek as [Ek|[Hge Ek]].
    + rewrite (concat_lookup es k r e) by done. rewrite Forall_lookup in He. specialize (He k e Ek).
      destruct (lookup_lt_is_Some_2 e r ltac:(lia)) as [v Hv]. by rewrite Hv.
    + apply lookup_replicate_1 in Ek as [-> _]. rewrite lookup_replicate_2 by done.
      rewrite lookup_ge_None_2; [done|]. rewrite concat_len by done. lia.
  - rewrite !lookup_ge_None_2; [done| |lia]. apply lookup_app_Some in Ek as [Ek|[_ Ek]].
    + rewrite Forall_lookup in He. specialize (He k e Ek). lia.
    + apply lookup_replicate_1 in Ek as [-> _]. rewrite length_replicate. lia.
Qed.

(** The last steps of main(): the root directory's size, then the bitmap. *)
Lemma finish_ok m B files :
  built m B (image files) → Z.of_nat (length files) < 199 → B 1 = splice zero_block 0 (sb_bytes sb) → B 2 = zero_block →
  ∃ m' B', (din ← rinode ROOTINO;
            let off := xint (i_size din) in
            let off := u32 ((off / BSIZE + 1) * BSIZE) in
            winode ROOTINO (set_isize (xint off) din);;
            used ← gets m_freeblock;
            Mkfs.balloc used) m = Ok tt m' ∧ mkfs_image (m_img m') B' files.
Proof.
  intros BT Hn HB1 HB2. pose proof (bt_view _ _ _ BT) as V. pose proof (bt_free _ _ _ BT) as Hfb. pose proof (vw_free _ _ V) as Hfr.
  pose proof (bt_file _ _ _ BT 0 T_DIR _ eq_refl) as [F1 F2 F3 F4 F5 F6 F7 F8]. change (Z.of_nat 0 + 1) with 1 in *.
  set (x := inode_of B 1) in *. set (n := Z.of_nat (length files)) in *.
  rewrite root_len in F2, F6. fold n in F2, F6. change BSIZE with 1024. change ROOTINO with 1.
  rewrite (bind_ok _ _ _ _ _ (rinode_run m B V 1 ltac:(lia))). fold x. cbv zeta. rewrite F6, (xint_id (16 * (n + 2))) by lia.
  rewrite u32_small, xint_id by dlia. fold (root_size files). assert (Hrs : 0 ≤ root_size files ≤ 4096).
  { unfold root_size. fold n. dlia. }
  set (x' := set_isize (root_size files) x).
  destruct (winode_run m B V 1 ltac:(lia) x' (fk_len _ _ _ F1)) as (m1 & R1 & V1 & Fr1 & Ino1).
  rewrite (bind_ok _ _ _ _ _ R1). set (B1 := put_inode B 1 x') in *.
  assert (Eu : (gets m_freeblock : MK Z) m1 = Ok (m_freeblock m) m1) by (unfold gets; by rewrite Fr1). rewrite (bind_ok _ _ _ _ _ Eu).
  unfold Mkfs.balloc. change (BSIZE * 8) with 8192. rewrite (proj2 (Z.ltb_lt _ _)) by lia. cbn [massert]. rewrite bind_ret.
  assert (Es : (gets m_sb : MK superblock) m1 = Ok sb m1) by (unfold gets; by rewrite (vw_sb _ _ V1)). rewrite (bind_ok _ _ _ _ _ Es).
  change (sb_bmapstart sb) with 45. set (bits := mark_used (Z.to_nat (m_freeblock m))).
  assert (Ew : wsect 45 bits m1 = Ok tt (set_img (<[45%nat := bits]> (m_img m1)) m1)).
  { unfold wsect, modify. rewrite sector_at by lia. change (Z.to_nat 45) with 45%nat. unfold put_sector.
    by rewrite (proj2 (Nat.ltb_lt _ _)) by (rewrite (vw_len _ _ V1); lia). }
  rewrite Ew. eexists _, B1. split; [reflexivity|]. cbn [m_img set_img].
  assert (Hfit : dinode_fits x') by (destruct F3; split; cbn; try done; lia).
  assert (Esame : inode_of B1 1 = loaded x' zero_dinode) by (by apply (put_inode_same m)).
  assert (Hother : ∀ l, 0 ≤ l < 200 → l ≠ 1 → inode_of B1 l = inode_of B l).
  { intros l Hl Hne. apply (put_inode_other m B V 1); (done || lia || apply F1). }
  assert (Hd : ∀ w, 45 ≤ w → B1 w = B w) by (intros w Hw; apply put_inode_data; (done || lia)).
  assert (Hlow : ∀ w, w < 32 → B1 w = B w) by (intros w Hw; apply put_inode_low; (done || lia)).
  assert (Hkeep : ∀ a, file_ok sb B a → ∀ k, 0 ≤ k ≤ 268 → fslot B a k ≠ 0 → B1 (fslot B a k) = B (fslot B a k)).
  { intros a Fa k Hk H0. pose proof (slot_data m B a V Fa k Hk H0). apply Hd. lia. }
  assert (Hmk : ∀ w, 0 ≤ w < 1000 → marked sb B w = true → marked sb B1 w = true).
  { intros w Hw. apply (view_marks m m1); (done || rewrite Fr1; done). }
  assert (Hfile : ∀ j t bs, image files !! j = Some (t, bs) → file_ok sb B (i_addrs (inode_of B (Z.of_nat j + 1))) ∧
    i_addrs (inode_of B1 (Z.of_nat j + 1)) = i_addrs (inode_of B (Z.of_nat j + 1))).
  { intros j t bs Hj. split; [by eapply bt_file|]. destruct (decide (j = 0%nat)) as [->|].
    - change (Z.of_nat 0 + 1) with 1. by rewrite Esame.
    - apply lookup_lt_Some in Hj. pose proof (bt_ino _ _ _ BT). rewrite Hother by lia. done. }
  split.
  - split; [by rewrite length_insert, (vw_len _ _ V1)|]. intros w Hw. destruct (decide (w = 45)) as [->|Hne].
    + rewrite (list_lookup_insert_eq (m_img m1) 45) by (rewrite (vw_len _ _ V1); lia). rewrite Hd, (vw_bits _ _ V) by lia. done.
    + rewrite list_lookup_insert_ne by lia. by apply V1.
  - rewrite Hlow, HB1 by lia. split; [vm_compute; reflexivity|done].
  - change (sb_logstart sb) with 2. by rewrite Hlow by lia.
  - by apply (view_disk m1).
  - intros w Hw. rewrite (view_marked m1 B1 V1) by done. by rewrite Fr1, Hfb.
  - intros j name bs Hj. replace (Z.of_nat j + 2) with (Z.of_nat (S j) + 1) by lia. pose proof (lookup_lt_Some _ _ _ Hj) as Hjl.
    assert (Hj' : image files !! S j = Some (T_FILE, bs)).
    { change (image files !! S j) with (((λ f, (T_FILE, f.2)) <$> files) !! j). by rewrite list_lookup_fmap, Hj. }
    pose proof (bt_file _ _ _ BT _ _ _ Hj') as HF. eapply has_file_keeps; [exact HF|apply Hother; lia|by apply Hkeep, HF|done].
  - cbv zeta. change ROOTINO with 1. rewrite Esame. cbn [loaded i_type i_nlink i_size i_addrs x' set_isize]. fold n.
    split_and!; [done|done|done| | |].
    + apply (keeps_file B); [by apply Hkeep|done|done].
    + apply (keeps_shape B); [by apply Hkeep|done].
    + rewrite <-(length_entries files). apply dents_concat; [apply entries_len| | |].
      * rewrite length_entries. unfold root_size. fold n. dlia.
      * dlia.
      * intros p Hp. rewrite (keeps_content B B1 _ (Hkeep _ F1) p Hp). by apply F8.
  - intros i j k l Hi Hj Hne Hk Hl. destruct (lookup_lt_is_Some_2 _ _ Hi) as [[ti bi] Ei]. destruct (lookup_lt_is_Some_2 _ _ Hj) as [[tj bj] Ej].
    destruct (Hfile _ _ _ Ei) as [Fi ->]. destruct (Hfile _ _ _ Ej) as [Fj ->].
    rewrite (keeps_slot B B1 _ (Hkeep _ Fi) k Hk), (keeps_slot B B1 _ (Hkeep _ Fj) l Hl). by apply BT.
Qed.

(** ** main() *)

Lemma main_start argv0 args host :
  main true host (argv0 :: args) mkfs_init =
  (rootino ← Mkfs.ialloc T_DIR;
   massert (rootino =? ROOTINO) "rootino == ROOTINO";;
   iappend rootino (dirent rootino ([DOT] ++ replicate 13 0));;
   iappend rootino (dirent rootino ([DOT; DOT] ++ replicate 12 0));;
   forM args (add_file host rootino);;
   din ← rinode rootino;
   let off := xint (i_size din) in
   let off := u32 ((off / BSIZE + 1) * BSIZE) in
   winode rootino (set_isize (xint off) din);;
   used ← gets m_freeblock;
   Mkfs.balloc used) mkfs_start.
Proof.
  unfold main. change (BSIZE mod DINODE =? 0) with true. change (BSIZE mod DIRENT =? 0) with true. cbn [massert]. rewrite !bind_ret.
  set (m0 := set_freeblock (2 + nlog + ninodeblocks + nbitmap) (set_msb sb (set_img [] mkfs_init))).
  assert (E1 : (modify (set_img []) : MK unit) mkfs_init = Ok tt (set_img [] mkfs_init)) by done.
  assert (E2 : (modify (set_msb sb) : MK unit) (set_img [] mkfs_init) = Ok tt (set_msb sb (set_img [] mkfs_init))) by done.
  assert (E3 : (modify (set_freeblock (2 + nlog + ninodeblocks + nbitmap)) : MK unit) (set_msb sb (set_img [] mkfs_init)) = Ok tt m0) by done.
  rewrite (bind_ok _ _ _ _ _ E1), (bind_ok _ _ _ _ _ E2), (bind_ok _ _ _ _ _ E3).
  pose proof (clear_loop 1000 0 m0 eq_refl ltac:(lia)) as E4. change (Z.to_nat FSSIZE) with 1000%nat.
  rewrite (bind_ok _ _ _ _ _ E4). cbn [Nat.add]. set (m1 := set_img (replicate 1000 zero_block) m0).
  assert (E5 : wsect 1 (splice zero_block 0 (sb_bytes sb)) m1 = Ok tt mkfs_start).
  { unfold wsect, modify. rewrite sector_at by lia. change (Z.to_nat 1) with 1%nat. unfold put_sector. change (m_img m1) with (replicate 1000 zero_block).
    by rewrite (proj2 (Nat.ltb_lt _ _)) by (rewrite length_replicate; lia). }
  by rewrite (bind_ok _ _ _ _ _ E5).
Qed.

Lemma main_ok host argv0 args files :
  mapM (file_of host) args = Some files → Z.of_nat (length files) < 199 →
  Forall (λ f, Z.of_nat (length f.2) ≤ 268 * 1024) files → 46 + blocks_of (image files) ≤ 1000 →
  ∃ m B, main true host (argv0 :: args) mkfs_init = Ok tt m ∧ mkfs_image (m_img m) B files.
Proof.
  intros Hm Hn Hmax Hroom. rewrite main_start.
  destruct (ialloc_ok mkfs_start start_blocks [] T_DIR built_empty ltac:(done) ltac:(done)) as (m1 & B1 & R1 & BT1 & L1).
  change (Z.of_nat (length (@nil (Z * list Z))) + 1) with ROOTINO in R1. rewrite (bind_ok _ _ _ _ _ R1). cbv beta.
  change (ROOTINO =? ROOTINO) with true. cbn [massert]. rewrite bind_ret. change ([] ++ [(T_DIR, [])]) with [(T_DIR, @nil Z)] in BT1.
  set (d1 := dirent ROOTINO ([DOT] ++ replicate 13 0)). set (d2 := dirent ROOTINO ([DOT; DOT] ++ replicate 12 0)).
  destruct (iappend_ok m1 B1 [(T_DIR, [])] 0 T_DIR [] d1 BT1 eq_refl ltac:(done) ltac:(done)) as (m2 & B2 & R2 & BT2 & L2).
  change (Z.of_nat 0 + 1) with ROOTINO in R2. rewrite (bind_ok _ _ _ _ _ R2).
  change (<[0%nat := (T_DIR, [] ++ d1)]> [(T_DIR, [])]) with [(T_DIR, d1)] in BT2.
  destruct (iappend_ok m2 B2 [(T_DIR, d1)] 0 T_DIR d1 d2 BT2 eq_refl ltac:(done) ltac:(done)) as (m3 & B3 & R3 & BT3 & L3).
  change (Z.of_nat 0 + 1) with ROOTINO in R3. rewrite (bind_ok _ _ _ _ _ R3).
  change (<[0%nat := (T_DIR, d1 ++ d2)]> [(T_DIR, d1)]) with (image []) in BT3.
  destruct (add_files_ok host args m3 B3 [] files BT3 Hm Hn Hmax Hroom) as (m4 & B4 & R4 & BT4 & L4). cbn [app] in BT4.
  rewrite (bind_ok _ _ _ _ _ R4).
  assert (Hlow : ∀ w, 0 ≤ w < 32 → B4 w = start_blocks w) by (intros w Hw; rewrite L4, L3, L2, L1; done).
  destruct (finish_ok m4 B4 files BT4 Hn) as (m5 & B5 & R5 & I5); [by rewrite Hlow|by rewrite Hlow|].
  by exists m5, B5.
Qed.

(** The directory entry of a file, when no earlier entry has its name. *)
Lemma entries_find files j name bs z :
  files !! j = Some (name, bs) → Z.of_nat (length files) < 199 →
  Forall (λ n, dname n ≠ dname name) ([DOT] :: [DOT; DOT] :: (take j files).*1) →
  dir_find name (entries files ++ z) 0 = Some (Z.of_nat j + 2, 16 * (Z.of_nat j + 2)).
Proof.
  intros Hj Hn Hne. pose proof (lookup_lt_Some _ _ _ Hj) as Hjl.
  assert (Hmiss : ∀ fs, Z.of_nat (length fs) < 199 → Forall (λ n, dname n ≠ dname name) ([DOT] :: [DOT; DOT] :: fs.*1) →
    dir_find name (entries fs) 0 = None).
  { intros fs. induction fs as [|f fs IH] using rev_ind; intros Hl H.
    - apply Forall_cons in H as [H1 H]. apply Forall_cons in H as [H2 _]. cbn [entries dots app imap dir_find].
      rewrite !decide_False; [done|intros [_ E]; by apply H2|intros [_ E]; by apply H1].
    - rewrite length_app in Hl. cbn [length] in Hl. rewrite fmap_app in H. rewrite !app_comm_cons in H. apply Forall_app in H as [H [Hf _]%Forall_cons].
      rewrite entries_app, dir_find_app, IH by (done || lia). cbn [dir_find]. rewrite decide_False; [done|].
      rewrite new_dent_name. intros [_ E]. by apply Hf. }
  assert (Esp : entries files = entries (take j files) ++ new_dent name (Z.of_nat j + 2) ::
    imap (λ k f, new_dent f.1 (Z.of_nat k + Z.of_nat j + 3)) (drop (S j) files)).
  { unfold entries. rewrite <-(take_drop_middle files j _ Hj) at 1. rewrite imap_app, <-app_assoc. do 2 f_equal. cbn [imap]. f_equal.
    - cbn [fst]. rewrite length_take. f_equal. lia.
    - apply imap_ext. intros k f _. unfold compose. f_equal. rewrite length_take. lia. }
  rewrite Esp, <-app_assoc, dir_find_app, Hmiss by (done || rewrite length_take; lia). cbn [app dir_find].
  rewrite decide_True.
  - rewrite new_dent_inum by lia. f_equal. f_equal. rewrite length_entries, length_take, Nat.min_l by lia. lia.
  - rewrite new_dent_inum, new_dent_name by lia. split; [lia|done].
Qed.

(** The finished image has a hole in the root directory exactly when the
    entries fill whole blocks: the size is then one block too large. *)
Lemma root_hole img B files :
  mkfs_image img B files → Z.of_nat (length files) < 199 →
  (no_holes B (i_addrs (inode_of B ROOTINO)) (root_size files) ↔ (Z.of_nat (length files) + 2) mod 64 ≠ 0).
Proof.
  intros I Hmax. destruct (mi_root _ _ _ I) as (_ & _ & _ & _ & Hs & _). set (n := Z.of_nat (length files)) in *.
  assert (Hn : 0 ≤ n) by lia. unfold no_holes, root_size. fold n. split.
  - intros H Hd. apply (H (16 * (n + 2))); [dlia|]. apply Hs; [dlia|]. rewrite (proj2 (Z.eqb_neq _ 268)) by dlia. unfold nblks. dlia.
  - intros Hd p Hp. rewrite (Hs (p / 1024)) by dlia. rewrite (proj2 (Z.eqb_neq _ 268)) by dlia. unfold nblks. dlia.
Qed.

(** ** Claims *)

(** C17: mkfs (mkfs/mkfs.c) builds the file system that the kernel expects:
    for any files that fit (fewer than 199, each at most MAXFILE blocks, and
    enough data blocks in all), main() terminates without an error and the
    image has the superblock in block 1, an empty log, a bitmap that marks
    exactly the metadata and the allocated blocks, for every file an inode of
    type T_FILE with one link whose size and contents are those of the host
    file and whose blocks are all there, a root directory in inode 1 whose
    entries are ".", ".." and the files in order, and no block that belongs to
    two files; these are the invariants [disk_ok] and [file_ok] under which the
    operations of kernel/fs.c are proved. *)
Theorem mkfs_builds_fs host argv0 args files :
  mapM (file_of host) args = Some files → Z.of_nat (length files) < 199 →
  Forall (λ f, Z.of_nat (length f.2) ≤ 268 * 1024) files → 46 + blocks_of (image files) ≤ 1000 →
  ∃ m B, main true host (argv0 :: args) mkfs_init = Ok tt m ∧ mkfs_image (m_img m) B files.
Proof. apply main_ok. Qed.

(** C35: what mkfs puts into the image can be found there: looking up the name
    of a file in the root directory, the way dirlookup() does, yields the inode
    whose contents are the bytes of the host file, unless an earlier entry has
    the same 14-byte name. *)
Theorem mkfs_files_found host argv0 args files j name bs :
  mapM (file_of host) args = Some files → Z.of_nat (length files) < 199 →
  Forall (λ f, Z.of_nat (length f.2) ≤ 268 * 1024) files → 46 + blocks_of (image files) ≤ 1000 →
  files !! j = Some (name, bs) → Forall (λ n, dname n ≠ dname name) ([DOT] :: [DOT; DOT] :: (take j files).*1) →
  ∃ m B i off, main true host (argv0 :: args) mkfs_init = Ok tt m ∧
    (∀ w, 0 ≤ w < 1000 → m_img m !! Z.to_nat w = Some (B w)) ∧
    (let root := inode_of B ROOTINO in
     dir_find name (dents B (i_addrs root) 0 (i_size root / 16)) 0 = Some (i, off)) ∧
    (let x := inode_of B i in
     i_type x = T_FILE ∧ i_size x = Z.of_nat (length bs) ∧ bytes_at B (i_addrs x) 0 (i_size x) = bs ∧
     no_holes B (i_addrs x) (i_size x)).
Proof.
  intros Hm Hn Hmax Hroom Hj Hne. destruct (main_ok host argv0 args files Hm Hn Hmax Hroom) as (m & B & R & I).
  exists m, B, (Z.of_nat j + 2), (16 * (Z.of_nat j + 2)). split; [done|]. split; [apply I|]. cbv zeta.
  destruct (mi_root _ _ _ I) as (_ & _ & -> & _ & _ & ->). split; [by eapply entries_find|].
  destruct (mi_files _ _ _ I j name bs Hj) as [F1 F2 F3 F4 F5 -> F7 F8]. split_and!; [done|done| |].
  - apply list_eq. intros k. destruct (decide (k < length bs)%nat) as [Hk|Hk].
    + rewrite lookup_bytes_at by lia. rewrite F8 by lia. rewrite Z.add_0_l, Nat2Z.id.
      destruct (lookup_lt_is_Some_2 bs k Hk) as [v ->]. done.
    + rewrite !lookup_ge_None_2 by (rewrite ?length_bytes_at; lia). done.
  - intros p Hp. rewrite (F2 (p / 1024)) by dlia. rewrite (proj2 (Z.eqb_neq _ 268)) by dlia. unfold nblks. dlia.
Qed.

(** ** Witnesses *)

(** Two files, "user/_cat" of 1034 bytes and "README" of 3. *)
Definition cat_arg : list Z := [117; 115; 101; 114; 47; 95; 99; 97; 116].
Definition readme_arg : list Z := [82; 69; 65; 68; 77; 69].
Definition a_host (arg : list Z) : option (list (list Z)) :=
  if decide (arg = cat_arg) then Some [replicate 1024 7; replicate 10 8]
  else if decide (arg = readme_arg) then Some [[1; 2; 3]] else None.
Definition a_files : list (list Z * list Z) :=
  [([99; 97; 116], replicate 1024 7 ++ replicate 10 8); (readme_arg, [1; 2; 3])].

Lemma mkfs_builds_fs_witness :
  ∃ m B, main true a_host ([] :: [cat_arg; readme_arg]) mkfs_init = Ok tt m ∧ mkfs_image (m_img m) B a_files.
Proof.
  apply mkfs_builds_fs.
  - vm_compute. reflexivity.
  - vm_compute. reflexivity.
  - repeat constructor; vm_compute; discriminate.
  - vm_compute. discriminate.
Defined.

Lemma mkfs_files_found_witness :
  ∃ m B i off, main true a_host ([] :: [cat_arg; readme_arg]) mkfs_init = Ok tt m ∧
    (∀ w, 0 ≤ w < 1000 → m_img m !! Z.to_nat w = Some (B w)) ∧
    (let root := inode_of B ROOTINO in
     dir_find readme_arg (dents B (i_addrs root) 0 (i_size root / 16)) 0 = Some (i, off)) ∧
    (let x := inode_of B i in
     i_type x = T_FILE ∧ i_size x = 3 ∧ bytes_at B (i_addrs x) 0 (i_size x) = [1; 2; 3] ∧ no_holes B (i_addrs x) (i_size x)).
Proof.
  apply (mkfs_files_found a_host [] [cat_arg; readme_arg] a_files 1 readme_arg [1; 2; 3]).
  - vm_compute. reflexivity.
  - vm_compute. reflexivity.
  - repeat constructor; vm_compute; discriminate.
  - vm_compute. discriminate.
  - reflexivity.
  - repeat constructor; vm_compute; discriminate.
Defined.
