(* ===== verification/ShRun.v ===== *)
(** runcmd(), getcmd() and main() of user/sh.c: the processes that a command
    line turns into, and what their descriptors are connected to.

    A process is the tree of its system calls with their outcomes; fork() has
    the child and the parent as subtrees, and a program that is started carries
    the descriptor table it starts with. *)

From Stdlib Require Strings.String Strings.Ascii.
From S2P Require Import Prelude Riscv Bytes Ulib Sh ShSpec ShTheorems.

(** ** Descriptor tables *)

(** An open file: one end of a pipe, named by the place of the command that
    made it; a file opened by a redirection; anything that was open before. *)
Inductive desc : Type :=
| DPipe (at_ : list bool) (write_end : bool)
| DFile (path : list Z) (mode : Z)
| DOld (n : nat).
Definition fdt : Type := list (option desc).

(** close(fd) *)
Definition fd_close (fd : Z) (t : fdt) : fdt := <[Z.to_nat fd := None]> t.
(** fdalloc(): the lowest free descriptor *)
Fixpoint fd_alloc (d : desc) (t : fdt) : option (fdt * Z) :=
  match t with
  | [] => None
  | None :: t => Some (Some d :: t, 0)
  | Some x :: t => '(t', fd) ← fd_alloc d t; Some (Some x :: t', fd + 1)
  end.
(** dup(fd); the result is ignored by the shell *)
Definition fd_dup (fd : Z) (t : fdt) : fdt :=
  match t !! Z.to_nat fd with
  | Some (Some d) => match fd_alloc d t with Some (t', _) => t' | None => t end
  | _ => t
  end.
(** pipe(p): both descriptors or none *)
Definition fd_pipe (at_ : list bool) (t : fdt) : option (fdt * Z * Z) :=
  '(t, p0) ← fd_alloc (DPipe at_ false) t;
  '(t, p1) ← fd_alloc (DPipe at_ true) t;
  Some (t, p0, p1).

(** ** Processes *)

Inductive beh : Type :=
| BExit (status : Z)
| BPrint (s : list Z) (k : beh)                              (* fprintf(2, ...) *)
| BExec (path : list Z) (argv : list (list Z)) (t : fdt) (failed : beh)
| BOpen (path : list Z) (mode : Z) (ok failed : beh)
| BPipe (ok failed : beh)
| BFork (failed child parent : beh)
| BWait (t : fdt) (k : beh)
| BChdir (path : list Z) (ok failed : beh)
| BFuel.

(** A message with the string [s] in it; [None] when printf() has no argument
    for a conversion, which does not happen here. *)
Definition say (fmt : list Z) (args : list varg) (k : beh) : beh := BPrint (default [] (printf fmt args)) k.

Definition str_of (s : string) : list Z := (λ b, Z.of_nat (Ascii.nat_of_ascii b)) <$> Stdlib.Strings.String.list_ascii_of_string s.

Definition panic (s : string) : beh := say (str_of "%s" ++ [10]) [AStr (Some (str_of s))] (BExit 1).
Definition fork1 (child parent : beh) : beh := BFork (panic "fork") child parent.

Section run.
(** The memory that holds the terminated words. *)
Context (mem : list Z).
Definition word (q : nat) : list Z := cstr (drop q mem).

Fixpoint runcmd (at_ : list bool) (c : pcmd) (t : fdt) : beh :=
  match c with
  | EXEC argv =>
      match argv with
      | [] => BExit 1
      | (q, _) :: _ =>
          BExec (word q) ((λ w, word w.1) <$> argv) t
            (say (str_of "exec %s failed" ++ [10]) [AStr (Some (word q))] (BExit 0))
      end
  | REDIR c file _ mode fd =>
      let t := fd_close fd t in
      let failed := say (str_of "open %s failed" ++ [10]) [AStr (Some (word file))] (BExit 1) in
      match fd_alloc (DFile (word file) mode) t with
      | Some (t, _) => BOpen (word file) mode (runcmd at_ c t) failed
      | None => failed
      end
  | LIST l r =>
      fork1 (runcmd (false :: at_) l t)
        (BWait t (runcmd (true :: at_) r t))
  | PIPE l r =>
      match fd_pipe at_ t with
      | None => panic "pipe"
      | Some (t, p0, p1) =>
          BPipe
            (fork1 (runcmd (false :: at_) l (fd_close p1 (fd_close p0 (fd_dup p1 (fd_close 1 t)))))
               (fork1 (runcmd (true :: at_) r (fd_close p1 (fd_close p0 (fd_dup p0 (fd_close 0 t)))))
                  (let t := fd_close p1 (fd_close p0 t) in
                   BWait t (BWait t (BExit 0)))))
            (panic "pipe")
      end
  | BACK c => fork1 (runcmd (false :: at_) c t) (BExit 0)
  end.
End run.

(** runcmd(parsecmd(buf)) *)
Definition run_line (buf : list Z) (t : fdt) : beh :=
  match parsecmd buf with
  | inl (SPanic s) => panic s
  | inl (SLeftovers rest s) => say (str_of "leftovers: %s" ++ [10]) [AStr (Some rest)] (panic s)
  | inl SFuel => BFuel
  | inr (c, mem) => runcmd mem [] c t
  end.

(** ** main() *)

(** sizeof(buf) *)
Definition SHBUF : Z := 100.

(** After the prompt: the buffer and the rest of the input; [None] at the end of
    the input. *)
Definition getcmd (input : list Z) : option (list Z * list Z) :=
  let '(buf, rest) := gets (replicate (Z.to_nat SHBUF) 0) SHBUF input in
  if hd 0 buf =? 0 then None else Some (buf, rest).

(** while(getcmd(buf, sizeof(buf)) >= 0); every line takes a byte of the input *)
Fixpoint main_loop (fuel : nat) (input : list Z) (t : fdt) : beh :=
  match fuel with
  | O => BFuel
  | S fuel =>
      BPrint (str_of "$ ")
      match getcmd input with
      | None => BExit 0
      | Some (buf, rest) =>
          if (nth 0 buf 0 =? 99) && (nth 1 buf 0 =? 100) && (nth 2 buf 0 =? 32) then
            let buf := <[Z.to_nat (strlen buf - 1) := 0]> buf in
            BChdir (cstr (drop 3 buf)) (main_loop fuel rest t)
              (BPrint (default [] (printf (str_of "cannot cd %s" ++ [10]) [AStr (Some (cstr (drop 3 buf)))])) (main_loop fuel rest t))
          else
            fork1 (run_line buf t) (BWait t (main_loop fuel rest t))
      end
  end.

Definition CONSOLE_PATH : list Z := str_of "console".
(** while((fd = open("console", O_RDWR)) >= 0) if(fd >= 3){ close(fd); break; } *)
Fixpoint ensure_fds (fuel : nat) (t : fdt) (k : fdt → beh) : beh :=
  match fuel with
  | O => BFuel
  | S fuel =>
      match fd_alloc (DFile CONSOLE_PATH O_RDWR) t with
      | None => k t
      | Some (t', fd) =>
          BOpen CONSOLE_PATH O_RDWR
            (if 3 <=? fd then k (fd_close fd t') else ensure_fds fuel t' k)
            (k t)
      end
  end.

Definition main (input : list Z) (t : fdt) : beh :=
  ensure_fds 4 t (main_loop (S (length input)) input).

(** ** What happens when every call succeeds *)

(** The programs that are started, with their descriptors. *)
Fixpoint execs (b : beh) : list (list Z * list (list Z) * fdt) :=
  match b with
  | BExit _ | BFuel => []
  | BPrint _ k | BWait _ k => execs k
  | BExec path argv t _ => [(path, argv, t)]
  | BOpen _ _ ok _ | BPipe ok _ | BChdir _ ok _ => execs ok
  | BFork _ child parent => execs child ++ execs parent
  end.

(** The descriptors of the processes that wait for a child. *)
Fixpoint waits (b : beh) : list fdt :=
  match b with
  | BExit _ | BFuel | BExec _ _ _ _ => []
  | BPrint _ k => waits k
  | BWait t k => t :: waits k
  | BOpen _ _ ok _ | BPipe ok _ | BChdir _ ok _ => waits ok
  | BFork _ child parent => waits child ++ waits parent
  end.

(** When a call fails the process says so and exits; a program that cannot be
    started counts as success. *)
Definition gives_up (status : Z) (b : beh) : Prop := ∃ s, b = BPrint s (BExit status).
Fixpoint clean (b : beh) : Prop :=
  match b with
  | BExit _ => True
  | BFuel => False
  | BPrint _ k | BWait _ k => clean k
  | BExec _ _ _ failed => gives_up 0 failed
  | BOpen _ _ ok failed | BPipe ok failed => clean ok ∧ gives_up 1 failed
  | BChdir _ ok failed => clean ok ∧ ∃ s, failed = BPrint s ok
  | BFork failed child parent => gives_up 1 failed ∧ clean child ∧ clean parent
  end.

(** ** What a command means *)

(** Standard input, output and error, and nothing else. *)
Definition std (i o e : desc) : fdt := Some i :: Some o :: Some e :: replicate 13 None.

(** The programs of a command, each with what its descriptors 0, 1 and 2 are:
    the left side of a pipe writes to it, the right side reads from it, and a
    redirection replaces standard input or output by a file. *)
Fixpoint plumb (at_ : list bool) (c : cmd) (i o e : desc) : list (list Z * list (list Z) * fdt) :=
  match c with
  | CExec [] => []
  | CExec (a :: argv) => [(a, a :: argv, std i o e)]
  | CRedir c f m fd => plumb at_ c (if fd =? 0 then DFile f m else i) (if fd =? 0 then o else DFile f m) e
  | CPipe l r => plumb (false :: at_) l i (DPipe at_ true) e ++ plumb (true :: at_) r (DPipe at_ false) o e
  | CList l r => plumb (false :: at_) l i o e ++ plumb (true :: at_) r i o e
  | CBack c => plumb (false :: at_) c i o e
  end.

(** The processes that wait hold only the three standard descriptors. *)
Fixpoint waiting (c : cmd) (i o e : desc) (at_ : list bool) : list fdt :=
  match c with
  | CExec _ => []
  | CRedir c f m fd => waiting c (if fd =? 0 then DFile f m else i) (if fd =? 0 then o else DFile f m) e at_
  | CPipe l r =>
      waiting l i (DPipe at_ true) e (false :: at_) ++ waiting r (DPipe at_ false) o e (true :: at_) ++ [std i o e; std i o e]
  | CList l r => waiting l i o e (false :: at_) ++ [std i o e] ++ waiting r i o e (true :: at_)
  | CBack c => waiting c i o e (false :: at_)
  end.

(** Redirections are of standard input or output. *)
Fixpoint redirs_std (c : cmd) : Prop :=
  match c with
  | CExec _ => True
  | CRedir c _ _ fd => (fd = 0 ∨ fd = 1) ∧ redirs_std c
  | CPipe l r | CList l r => redirs_std l ∧ redirs_std r
  | CBack c => redirs_std c
  end.

(** The process prints one message or two and exits. *)
Definition reports (z : Z) (b : beh) : Prop := gives_up z b ∨ ∃ s b', b = BPrint s b' ∧ gives_up z b'.

(** ** Proofs *)

Lemma say_gives_up fmt args z : gives_up z (say fmt args (BExit z)).
Proof. by eexists. Qed.

Lemma clean_panic s : clean (panic s).
Proof. done. Qed.

(** Failures end the process, whatever the descriptors are. *)
Lemma runcmd_clean mem at_ c t : clean (runcmd mem at_ c t).
Proof.
  revert at_ t. induction c as [argv|c IH q e md fd|l IHl r IHr|l IHl r IHr|c IH]; intros at_ t; cbn [runcmd].
  - destruct argv as [|[q eq] argv]; [done|apply say_gives_up].
  - destruct (fd_alloc _ _) as [[t' fd']|]; [|done]. split; [apply IH|apply say_gives_up].
  - destruct (fd_pipe at_ t) as [[[t' p0] p1]|]; [|apply clean_panic]. unfold fork1. cbn [clean].
    split_and!; try apply say_gives_up; [apply IHl|apply IHr|done].
  - unfold fork1. cbn [clean]. split_and!; [apply say_gives_up|apply IHl|apply IHr].
  - unfold fork1. cbn [clean]. split_and!; [apply say_gives_up|apply IH|done].
Qed.

Section plumbing.
Context (mem : list Z).
Local Abbreviation str := (λ w : nat * nat, cstr (drop w.1 mem)).

(** The descriptors that each side of a pipe gets. *)
Lemma runcmd_pipe l r at_ i o e :
  runcmd mem at_ (PIPE l r) (std i o e) =
  BPipe
    (fork1 (runcmd mem (false :: at_) l (std i (DPipe at_ true) e))
       (fork1 (runcmd mem (true :: at_) r (std (DPipe at_ false) o e))
          (BWait (std i o e) (BWait (std i o e) (BExit 0)))))
    (panic "pipe").
Proof. reflexivity. Qed.

Lemma runcmd_redir c q eq md fd at_ i o e : fd = 0 ∨ fd = 1 → let f := DFile (word mem q) md in
  ∃ failed, runcmd mem at_ (REDIR c q eq md fd) (std i o e) =
    BOpen (word mem q) md (runcmd mem at_ c (std (if fd =? 0 then f else i) (if fd =? 0 then o else f) e)) failed.
Proof. intros [-> | ->]; by eexists. Qed.

Lemma runcmd_plumb c at_ i o e : redirs_std (denote str c) →
  execs (runcmd mem at_ c (std i o e)) = plumb at_ (denote str c) i o e ∧
  waits (runcmd mem at_ c (std i o e)) = waiting (denote str c) i o e at_.
Proof.
  revert at_ i o. induction c as [argv|c IH q eq md fd|l IHl r IHr|l IHl r IHr|c IH]; intros at_ i o; cbn [denote redirs_std].
  - intros _. destruct argv as [|[q eq] argv]; [done|]. by split.
  - intros [Hf Hr]. destruct (runcmd_redir c q eq md fd at_ i o e Hf) as [failed ->]. cbn [execs waits plumb waiting]. by apply IH.
  - intros [Hl Hr]. rewrite runcmd_pipe. unfold fork1. cbn [execs waits plumb waiting].
    destruct (IHl (false :: at_) i (DPipe at_ true) Hl) as [-> ->], (IHr (true :: at_) (DPipe at_ false) o Hr) as [-> ->].
    by rewrite app_nil_r.
  - intros [Hl Hr]. cbn [runcmd]. unfold fork1. cbn [execs waits plumb waiting].
    destruct (IHl (false :: at_) i o Hl) as [-> ->], (IHr (true :: at_) i o Hr) as [-> ->]. done.
  - intros Hr. cbn [runcmd]. unfold fork1. cbn [execs waits plumb waiting].
    destruct (IH (false :: at_) i o Hr) as [-> ->]. by rewrite !app_nil_r.
Qed.
End plumbing.

Lemma redirect_std rs c : redirs_std c → redirs_std (fold_left redirect rs c).
Proof.
  revert c. induction rs as [|r rs IH]; intros c Hc; [done|]. cbn [fold_left]. apply IH. unfold redirect.
  destruct (rd_op r =? c_lt); [by split; [left|]|]. destruct (rd_op r =? c_gt); (split; [by right|done]).
Qed.

Lemma back_std n c : redirs_std c → redirs_std (Nat.iter n CBack c).
Proof. induction n as [|n IH]; [done|]. cbn. apply IH. Qed.

Lemma grammar_std :
  (∀ l, redirs_std (line_cmd l)) ∧ (∀ p, redirs_std (pline_cmd p)) ∧ (∀ e, redirs_std (ecmd_cmd e)).
Proof.
  apply grammar_ind; intros; cbn [line_cmd pline_cmd ecmd_cmd redirs_std].
  - by apply back_std.
  - split; [by apply back_std|done].
  - done.
  - by split.
  - by apply redirect_std.
  - by apply redirect_std.
Qed.

(** ** Claims *)

(** C24: the shell connects the programs of a command line as the line says.
    For a line of the grammar, the processes that runcmd(parsecmd(buf)) creates
    start exactly the programs of the line, each with its standard input,
    output and error and no other descriptor: in a pipe the left side has the
    write end as standard output and the right side the read end as standard
    input, and nobody else holds an end, so the right side sees the end of the
    file when the left side exits; redirections replace standard input or
    output by the file; a process that waits for its children holds only the
    three standard descriptors.  For any other line the process prints one
    message or two, exits with status 1 and starts nothing; and whenever a system call fails, the process
    that made it reports it and exits. *)
Theorem shell_plumbs_line text junk i o e :
  Forall (λ c, c ≠ 0) text →
  let b := run_line (text ++ 0 :: junk) (std i o e) in
  clean b ∧
  ((∃ l, line_wf l ∧ lex text = line_toks l ∧ execs b = plumb [] (line_cmd l) i o e ∧ waits b = waiting (line_cmd l) i o e []) ∨
   ((∀ l, line_wf l → lex text ≠ line_toks l) ∧ reports 1 b)).
Proof.
  intros Ht b. unfold b, run_line. pose proof (parsecmd_ok text junk Ht) as P.
  destruct (parsecmd (text ++ 0 :: junk)) as [[s|rest s|]|[c mem]].
  - destruct P as [_ P]. split; [apply clean_panic|]. right. split; [done|left; apply say_gives_up].
  - destruct P as [_ P]. split; [exact I|]. right. split; [exact P|]. right. eexists _, _. split; [reflexivity|apply say_gives_up].
  - by destruct P as [[] _].
  - destruct P as (l & Hwf & Hl & Hd). split; [apply runcmd_clean|]. left. exists l. split; [done|]. split; [done|].
    rewrite <-Hd. apply runcmd_plumb. rewrite Hd. apply grammar_std.
Qed.

(** a <b|c>d&;(e) *)
Lemma shell_plumbs_line_witness :
  let b := run_line (sample ++ [0]) (std (DOld 0) (DOld 1) (DOld 2)) in
  clean b ∧
  ((∃ l, line_wf l ∧ lex sample = line_toks l ∧ execs b = plumb [] (line_cmd l) (DOld 0) (DOld 1) (DOld 2) ∧
         waits b = waiting (line_cmd l) (DOld 0) (DOld 1) (DOld 2) []) ∨
   ((∀ l, line_wf l → lex sample ≠ line_toks l) ∧ reports 1 b)).
Proof.
  assert (H : Forall (λ c, c ≠ 0) sample) by (by repeat constructor).
  exact (shell_plumbs_line sample [] (DOld 0) (DOld 1) (DOld 2) H).
Defined.

(** The three programs of that line. *)
Example run_sample :
  execs (run_line (sample ++ [0]) (std (DOld 0) (DOld 1) (DOld 2))) =
  [([97], [[97]], std (DFile [98] 0) (DPipe [false; false] true) (DOld 2));
   ([99], [[99]], std (DPipe [false; false] false) (DFile [100] 1537) (DOld 2));
   ([101], [[101]], std (DOld 0) (DOld 1) (DOld 2))].
Proof. vm_compute. reflexivity. Qed.
