(* ===== verification/Utils.v ===== *)
(** Small user programs: user/cat.c, user/wc.c, user/echo.c, user/rm.c,
    user/mkdir.c, user/ln.c, user/kill.c and user/ls.c; user/init.c, and
    do_rand() of user/grind.c.

    A program runs over what the kernel gives it: the files that open() finds,
    with the pieces in which read() delivers them and whether they end in an
    error, and whether write(), unlink(), mkdir() and link() succeed.  exit()
    ends the program with its status. *)

From Stdlib Require Strings.String Strings.Ascii.
From S2P Require Import Prelude Riscv Bytes Ulib Sh ShRun.

(** ** The kernel, as a program sees it *)

(** An open file: the bytes that are left, bounds on the sizes of the next
    reads, and whether the read after the last byte fails. *)
Record ufile : Type := UFile { uf_data : list Z; uf_short : list nat; uf_err : bool }.

(** One of the calls the programs make for its effect. *)
Inductive ucall : Type :=
| UUnlink (path : list Z)
| UMkdir (path : list Z)
| ULink (old new : list Z)
| UKill (pid : Z)
| UClose.

(** A file's type, inode number and size, as fstat() returns them. *)
Record ustat : Type := UStat { us_type : Z; us_ino : Z; us_size : Z }.

Record uio : Type := UIO {
  io_files : list Z → option ufile;       (* open() *)
  io_stat : list Z → option ustat;        (* fstat() of a path that can be opened *)
  io_stdin : ufile;
  io_fails : ucall → bool;                (* calls that return -1 *)
  io_full : list bool;                    (* which of the next write()s fail *)
  io_out : list Z;
  io_err : list Z;
  io_calls : list ucall;
}.
Definition set_out v s := UIO (io_files s) (io_stat s) (io_stdin s) (io_fails s) (io_full s) v (io_err s) (io_calls s).
Definition set_err v s := UIO (io_files s) (io_stat s) (io_stdin s) (io_fails s) (io_full s) (io_out s) v (io_calls s).
Definition set_full v s := UIO (io_files s) (io_stat s) (io_stdin s) (io_fails s) v (io_out s) (io_err s) (io_calls s).
Definition set_calls v s := UIO (io_files s) (io_stat s) (io_stdin s) (io_fails s) (io_full s) (io_out s) (io_err s) v.

(** [Err z] is exit(z); [None] is a loop out of fuel. *)
Abbreviation UP := (M (option Z) uio).
Definition exit_ {A} (z : Z) : UP A := fail (Some z).

(** n = read(fd, buf, max): the result and the bytes *)
Definition read (max : nat) (f : ufile) : Z * list Z * ufile :=
  match uf_data f with
  | [] => (if uf_err f then -1 else 0, [], f)
  | data =>
      let k := match uf_short f with [] => max | r :: _ => Nat.min max (S r) end in
      (Z.of_nat (length (take k data)), take k data, UFile (drop k data) (tl (uf_short f)) (uf_err f))
  end.

(** write(1, bs, n): a failed call writes nothing *)
Definition write1 (bs : list Z) : UP Z :=
  full ← Prelude.gets io_full;
  modify (set_full (tl full));;
  if default false (hd_error full) then mret (-1)
  else modify (λ s, set_out (io_out s ++ bs) s);; mret (Z.of_nat (length bs)).

(** printf() and fprintf(2, ...), whose results the programs ignore *)
Definition uprintf (fmt : string) (args : list varg) : UP unit :=
  modify (λ s, set_out (io_out s ++ default [] (printf (str_of fmt ++ [10]) args)) s).
Definition fprintf2 (fmt : string) (args : list varg) : UP unit :=
  modify (λ s, set_err (io_err s ++ default [] (printf (str_of fmt ++ [10]) args)) s).

(** A call that succeeds or returns -1. *)
Definition ucalls (c : ucall) : UP Z :=
  fails ← Prelude.gets io_fails;
  modify (λ s, set_calls (io_calls s ++ [c]) s);;
  mret (if (fails c : bool) then -1 else 0).
Definition open_ (path : list Z) : UP (option ufile) := fs ← Prelude.gets io_files; mret (fs (cstr path)).

(** ** cat *)

Definition BUF512 : nat := 512.

(** while((n = read(fd, buf, sizeof(buf))) > 0); every turn takes a byte *)
Fixpoint cat_loop (fuel : nat) (f : ufile) : UP Z :=
  let '(n, bs, f) := read BUF512 f in
  if 0 <? n then
    match fuel with
    | O => fail None
    | S fuel =>
        w ← write1 bs;
        if negb (w =? n) then fprintf2 "cat: write error" [];; exit_ 1
        else cat_loop fuel f
    end
  else mret n.

Definition cat (f : ufile) : UP unit :=
  n ← cat_loop (length (uf_data f)) f;
  if n <? 0 then fprintf2 "cat: read error" [];; exit_ 1 else mret tt.

Definition cat_main (argv : list (list Z)) : UP unit :=
  match argv with
  | [] => f ← Prelude.gets io_stdin; cat f;; exit_ 0
  | _ =>
      forM argv (λ a,
        f ← open_ a;
        match f with
        | None => fprintf2 "cat: cannot open %s" [AStr (Some a)];; exit_ 1
        | Some f => cat f;; ucalls UClose;; mret tt
        end);;
      exit_ 0
  end.

(** ** wc *)

(** " \r\t\n\v" *)
Definition wc_blank (c : Z) : bool := match strchr [32; 13; 9; 10; 11] c with Some _ => true | None => false end.

Record counts : Type := Counts { n_l : Z; n_w : Z; n_c : Z; n_inword : bool }.

(** The body of for(i=0; i<n; i++). *)
Definition wc_char (k : counts) (c : Z) : counts :=
  let n_c' := s32 (n_c k + 1) in
  let n_l' := if c =? 10 then s32 (n_l k + 1) else n_l k in
  if wc_blank c then Counts n_l' (n_w k) n_c' false
  else if negb (n_inword k) then Counts n_l' (s32 (n_w k + 1)) n_c' true
  else Counts n_l' (n_w k) n_c' (n_inword k).

Fixpoint wc_loop (fuel : nat) (f : ufile) (k : counts) : UP (Z * counts) :=
  let '(n, bs, f) := read BUF512 f in
  if 0 <? n then
    match fuel with
    | O => fail None
    | S fuel => wc_loop fuel f (fold_left wc_char bs k)
    end
  else mret (n, k).

Definition wc (f : ufile) (name : list Z) : UP unit :=
  '(n, k) ← wc_loop (length (uf_data f)) f (Counts 0 0 0 false);
  if n <? 0 then uprintf "wc: read error" [];; exit_ 1
  else uprintf "%d %d %d %s" [AInt (n_l k); AInt (n_w k); AInt (n_c k); AStr (Some name)].

Definition wc_main (argv : list (list Z)) : UP unit :=
  match argv with
  | [] => f ← Prelude.gets io_stdin; wc f [];; exit_ 0
  | _ =>
      forM argv (λ a,
        f ← open_ a;
        match f with
        | None => uprintf "wc: cannot open %s" [AStr (Some a)];; exit_ 1
        | Some f => wc f a;; ucalls UClose;; mret tt
        end);;
      exit_ 0
  end.

(** ** echo, rm, mkdir, ln, kill *)

Fixpoint echo_loop (argv : list (list Z)) : UP unit :=
  match argv with
  | [] => mret tt
  | a :: argv =>
      write1 (cstr a);;
      write1 (match argv with _ :: _ => [32] | [] => [10] end);;
      echo_loop argv
  end.
Definition echo_main (argv : list (list Z)) : UP unit := echo_loop argv;; exit_ 0.

(** if(call(argv[i]) < 0){ fprintf(2, ...); break; } *)
Fixpoint each_arg (call : list Z → ucall) (msg : string) (argv : list (list Z)) : UP unit :=
  match argv with
  | [] => mret tt
  | a :: argv =>
      r ← ucalls (call a);
      if r <? 0 then fprintf2 msg [AStr (Some a)]
      else each_arg call msg argv
  end.

Definition rm_main (argv : list (list Z)) : UP unit :=
  match argv with
  | [] => fprintf2 "Usage: rm files..." [];; exit_ 1
  | _ => each_arg UUnlink "rm: %s failed to delete" argv;; exit_ 0
  end.

Definition mkdir_main (argv : list (list Z)) : UP unit :=
  match argv with
  | [] => fprintf2 "Usage: mkdir files..." [];; exit_ 1
  | _ => each_arg UMkdir "mkdir: %s failed to create" argv;; exit_ 0
  end.

Definition ln_main (argv : list (list Z)) : UP unit :=
  match argv with
  | [old; new] =>
      r ← ucalls (ULink old new);
      (if r <? 0 then fprintf2 "link %s %s: failed" [AStr (Some old); AStr (Some new)] else mret tt);;
      exit_ 0
  | _ => fprintf2 "Usage: ln old new" [];; exit_ 1
  end.

Definition kill_main (argv : list (list Z)) : UP unit :=
  match argv with
  | [] => fprintf2 "usage: kill pid..." [];; exit_ 1
  | _ => forM argv (λ a, ucalls (UKill (atoi a));; mret tt);; exit_ 0
  end.

(** ** ls *)

Definition LSDIRSIZ : nat := 14.

(** for(p=path+strlen(path); p >= path && *p != '/'; p--); p++; *)
Fixpoint fmt_scan (n : nat) (path : list Z) : nat :=
  if nth n path 0 =? 47 then S n
  else match n with O => O | S n => fmt_scan n path end.

(** The name behind the last slash, padded with blanks to DIRSIZ bytes. *)
Definition fmtname (path : list Z) : list Z :=
  let p := drop (fmt_scan (Z.to_nat (strlen path)) path) path in
  if Z.of_nat LSDIRSIZ <=? strlen p then cstr p
  else cstr p ++ replicate (LSDIRSIZ - Z.to_nat (strlen p)) 32.

(** while(read(fd, &de, sizeof(de)) == sizeof(de)); every turn takes 16 bytes *)
Fixpoint ls_loop (fuel : nat) (f : ufile) (path : list Z) : UP unit :=
  let '(n, de, f) := read 16 f in
  if n =? 16 then
    match fuel with
    | O => fail None
    | S fuel =>
        (if le_val (take 2 de) =? 0 then mret tt
         else
           let buf := cstr path ++ [47] ++ drop 2 de ++ [0] in
           stat ← Prelude.gets io_stat;
           match stat (cstr buf) with
           | None => uprintf "ls: cannot stat %s" [AStr (Some buf)]
           | Some st => uprintf "%s %d %d %d" [AStr (Some (fmtname buf)); AInt (us_type st); AUint (us_ino st); AUlong (us_size st)]
           end);;
        ls_loop fuel f path
    end
  else mret tt.

Definition ls (path : list Z) : UP unit :=
  f ← open_ path;
  match f with
  | None => fprintf2 "ls: cannot open %s" [AStr (Some path)]
  | Some f =>
      stat ← Prelude.gets io_stat;
      match stat (cstr path) with
      | None => fprintf2 "ls: cannot stat %s" [AStr (Some path)];; ucalls UClose;; mret tt
      | Some st =>
          (if us_type st =? 2 then
             uprintf "%s %d %d %l" [AStr (Some (fmtname path)); AInt (us_type st); AUint (us_ino st); AUlong (us_size st)]
           else if us_type st =? 1 then
             if 512 <? strlen path + 1 + 14 + 1 then uprintf "ls: path too long" []
             else ls_loop (length (uf_data f)) f path
           else mret tt);;
          ucalls UClose;; mret tt
      end
  end.

Definition ls_main (argv : list (list Z)) : UP unit :=
  match argv with
  | [] => ls [46];; exit_ 0
  | _ => forM argv ls;; exit_ 0
  end.

(** ** What the programs compute *)

Section reads.
Context (max : nat) (Hmax : (0 < max)%nat).

Lemma read_data f : uf_data f ≠ [] →
  ∃ bs f', read max f = (Z.of_nat (length bs), bs, f') ∧ (0 < length bs)%nat ∧ uf_data f = bs ++ uf_data f' ∧ uf_err f' = uf_err f.
Proof using Hmax.
  intros Hne. unfold read. destruct (uf_data f) as [|c data] eqn:E; [done|].
  set (k := match uf_short f with [] => max | r :: _ => Nat.min max (S r) end). eexists _, _. split; [reflexivity|].
  assert (Hk : (0 < k)%nat) by (unfold k; destruct (uf_short f); lia). cbn [uf_data uf_err]. rewrite take_drop. split_and!; [|done|done].
  rewrite length_take. cbn [length]. lia.
Qed.

Lemma read_end f : uf_data f = [] → read max f = (if uf_err f then -1 else 0, [], f).
Proof. intros E. unfold read. by rewrite E. Qed.
End reads.

Definition writes (bs : list Z) (s : uio) : uio := set_out (io_out s ++ bs) s.

Lemma write1_ok bs s : io_full s = [] → write1 bs s = Ok (Z.of_nat (length bs)) (writes bs s).
Proof. intros E. unfold write1, Prelude.gets, modify, mbind, M_bind. rewrite E. cbn. unfold writes, set_full, set_out. cbn. by rewrite <-E. Qed.

Lemma writes_app a b s : writes b (writes a s) = writes (a ++ b) s.
Proof. unfold writes, set_out. cbn. by rewrite app_assoc. Qed.
Lemma writes_nil s : writes [] s = s.
Proof. unfold writes, set_out. rewrite app_nil_r. by destruct s. Qed.

(** cat() copies the file, in whatever pieces it is read. *)
Lemma cat_loop_copies fuel f s : io_full s = [] → (length (uf_data f) ≤ fuel)%nat →
  cat_loop fuel f s = Ok (if uf_err f then -1 else 0) (writes (uf_data f) s).
Proof.
  revert f s. induction fuel as [|fuel IH]; intros f s Hs Hf.
  - destruct (uf_data f) eqn:E; [|cbn in Hf; lia]. cbn [cat_loop]. rewrite (read_end _ f E), writes_nil.
    destruct (uf_err f); done.
  - destruct (decide (uf_data f = [])) as [E|E].
    { cbn [cat_loop]. rewrite (read_end _ f E), E, writes_nil. destruct (uf_err f); done. }
    destruct (read_data BUF512 ltac:(unfold BUF512; lia) f E) as (bs & f' & R & Hl & Ed & Ee).
    cbn [cat_loop]. rewrite R. rewrite (proj2 (Z.ltb_lt _ _)) by lia. rewrite (bind_ok _ _ _ _ _ (write1_ok bs s Hs)), Z.eqb_refl.
    cbn [negb]. rewrite IH; [|done|rewrite Ed, length_app in Hf; lia]. by rewrite Ee, writes_app, Ed.
Qed.

(** The words of a text: the maximal runs of bytes that are not blank. *)
Fixpoint nwords (inword : bool) (s : list Z) : Z :=
  match s with
  | [] => 0
  | c :: s => if wc_blank c then nwords false s else (if inword then 0 else 1) + nwords true s
  end.
Definition nlines (s : list Z) : Z := Z.of_nat (length (filter (λ c, c = 10) s)).

Lemma nwords_bound b s : 0 ≤ nwords b s ≤ Z.of_nat (length s).
Proof. revert b. induction s as [|c s IH]; intros b; cbn [nwords length]; [lia|]. pose proof (IH false). pose proof (IH true). repeat case_match; lia. Qed.

(** The counts after the bytes [s]. *)
Lemma wc_counts_from s l w c b : 0 ≤ l → 0 ≤ w → 0 ≤ c →
  l + Z.of_nat (length s) < 2147483648 → w + Z.of_nat (length s) < 2147483648 → c + Z.of_nat (length s) < 2147483648 →
  ∃ b', fold_left wc_char s (Counts l w c b) = Counts (l + nlines s) (w + nwords b s) (c + Z.of_nat (length s)) b'.
Proof.
  revert l w c b. induction s as [|x s IH]; intros l w c b Hl Hw Hc H1 H2 H3; cbn [fold_left].
  - exists b. unfold nlines; cbn. f_equal; lia.
  - cbn [length] in *. set (l' := if x =? 10 then l + 1 else l).
    assert (El : (if x =? 10 then s32 (l + 1) else l) = l') by (unfold l'; case_match; [rewrite s32_small by lia|]; done).
    assert (Hl' : l ≤ l' ≤ l + 1) by (unfold l'; case_match; lia).
    assert (En : nlines (x :: s) = (l' - l) + nlines s).
    { unfold nlines, l'. rewrite filter_cons. destruct (Z.eqb_spec x 10); [rewrite decide_True by done; cbn; lia|rewrite decide_False by done; lia]. }
    cbn [nwords]. unfold wc_char at 2. cbn [n_l n_w n_c n_inword]. rewrite El, (s32_small (c + 1)) by lia.
    destruct (wc_blank x).
    + destruct (IH l' w (c + 1) false) as [b' E]; try lia. exists b'. rewrite E. f_equal; lia.
    + destruct b; cbn [negb].
      * destruct (IH l' w (c + 1) true) as [b' E]; try lia. exists b'. rewrite E. f_equal; lia.
      * rewrite s32_small by lia. destruct (IH l' (w + 1) (c + 1) true) as [b' E]; try lia. exists b'. rewrite E. f_equal; lia.
Qed.

Lemma wc_loop_folds fuel f k s : (length (uf_data f) ≤ fuel)%nat →
  wc_loop fuel f k s = Ok (if uf_err f then -1 else 0, fold_left wc_char (uf_data f) k) s.
Proof.
  revert f k. induction fuel as [|fuel IH]; intros f k Hf.
  - destruct (uf_data f) eqn:E; [|cbn in Hf; lia]. cbn [wc_loop]. rewrite (read_end _ f E). by destruct (uf_err f).
  - destruct (decide (uf_data f = [])) as [E|E].
    { cbn [wc_loop]. rewrite (read_end _ f E), E. by destruct (uf_err f). }
    destruct (read_data BUF512 ltac:(unfold BUF512; lia) f E) as (bs & f' & R & Hl & Ed & Ee).
    cbn [wc_loop]. rewrite R. rewrite (proj2 (Z.ltb_lt _ _)) by lia. rewrite IH by (rewrite Ed, length_app in Hf; lia).
    by rewrite Ee, Ed, fold_left_app.
Qed.

(** cat of files that can be opened and read writes their contents one after
    the other and exits with 0. *)
Lemma cat_copies argv s fs :
  argv ≠ [] → io_full s = [] → mapM (λ a, io_files s (cstr a)) argv = Some fs → Forall (λ f, uf_err f = false) fs →
  ∃ s', cat_main argv s = Err (Some 0) s' ∧ io_out s' = io_out s ++ concat (uf_data <$> fs) ∧ io_err s' = io_err s.
Proof.
  intros Hne Hfull Hm Hok.
  set (body := λ a : list Z, f ← open_ a;
        match f with
        | None => fprintf2 "cat: cannot open %s" [AStr (Some a)];; exit_ 1
        | Some f => cat f;; ucalls UClose;; mret tt
        end).
  assert (H : ∀ argv fs s, io_full s = [] → mapM (λ a, io_files s (cstr a)) argv = Some fs → Forall (λ f, uf_err f = false) fs →
    ∃ s', forM argv body s = Ok tt s' ∧ io_out s' = io_out s ++ concat (uf_data <$> fs) ∧ io_err s' = io_err s).
  { clear. intros argv. induction argv as [|a argv IH]; intros fs s Hs Hm Hok; cbn [forM].
    - injection Hm as <-. exists s. cbn. by rewrite app_nil_r.
    - cbn in Hm. destruct (io_files s (cstr a)) as [f|] eqn:Ef; [|done]. cbn in Hm.
      fold (mapM (λ a, io_files s (cstr a)) argv) in Hm. destruct (mapM _ argv) as [gs|] eqn:Em; [|done]. injection Hm as <-.
      apply Forall_cons in Hok as [Hf Hgs].
      assert (Ec : body a s = Ok tt (set_calls (io_calls s ++ [UClose]) (writes (uf_data f) s))).
      { unfold body. assert (Eo : open_ a s = Ok (Some f) s) by (unfold open_, Prelude.gets, mbind, M_bind, mret, M_ret; by rewrite Ef).
        rewrite (bind_ok _ _ _ _ _ Eo). unfold cat.
        rewrite bind_assoc, (bind_ok _ _ _ _ _ (cat_loop_copies _ f s Hs (le_n _))), Hf. done. }
      rewrite (bind_ok _ _ _ _ _ Ec).
      destruct (IH gs (set_calls (io_calls s ++ [UClose]) (writes (uf_data f) s)) Hs Em Hgs) as (s' & R & E1 & E2).
      exists s'. split; [done|]. rewrite E1, E2. cbn. by rewrite app_assoc. }
  destruct (H argv fs s Hfull Hm Hok) as (s' & R & E1 & E2). exists s'.
  destruct argv as [|a argv]; [done|]. unfold cat_main. fold body. by rewrite (bind_ok _ _ _ _ _ R).
Qed.

(** Wc() (user/wc.c) prints the number of newlines, of words (maximal runs
    of bytes that are not blank) and of bytes of the file, in whatever pieces
    read() delivers it, as long as the file has fewer than 2^31 bytes; when a
    read fails it reports the error and exits with 1. *)
Theorem wc_counts f name s :
  Z.of_nat (length (uf_data f)) < 2147483648 →
  wc f name s =
  if uf_err f then Err (Some 1) (set_out (io_out s ++ str_of "wc: read error" ++ [10]) s)
  else Ok tt (set_out (io_out s ++
    default [] (printf (str_of "%d %d %d %s" ++ [10])
      [AInt (nlines (uf_data f)); AInt (nwords false (uf_data f)); AInt (Z.of_nat (length (uf_data f))); AStr (Some name)])) s).
Proof.
  intros Hl. unfold wc. rewrite (bind_ok _ _ _ _ _ (wc_loop_folds _ f _ s (le_n _))).
  destruct (wc_counts_from (uf_data f) 0 0 0 false) as [b ->]; try lia. cbv beta iota. rewrite !Z.add_0_l. by destruct (uf_err f).
Qed.

(** "a b" and a newline, read in three pieces *)
Definition ab : ufile := UFile [97; 32; 98; 10] [0; 1; 5]%nat false.
Definition no_io : uio := UIO (λ _, None) (λ _, None) ab (λ _, false) [] [] [] [].

Lemma wc_counts_witness :
  wc ab [] no_io = Ok tt (set_out (default [] (printf (str_of "%d %d %d %s" ++ [10]) [AInt 1; AInt 2; AInt 4; AStr (Some [])])) no_io).
Proof. rewrite (wc_counts ab [] no_io); vm_compute; reflexivity. Defined.

(** echo writes its arguments, separated by blanks and ended by a newline. *)
Lemma echo_joins argv s : io_full s = [] →
  ∃ s', echo_main argv s = Err (Some 0) s' ∧
    io_out s' = io_out s ++ match argv with [] => [] | a :: l => cstr a ++ (l ≫= λ b, 32 :: cstr b) ++ [10] end.
Proof.
  intros Hs. unfold echo_main.
  assert (H : ∃ s', echo_loop argv s = Ok tt s' ∧
    io_out s' = io_out s ++ match argv with [] => [] | a :: l => cstr a ++ (l ≫= λ b, 32 :: cstr b) ++ [10] end).
  { revert s Hs. induction argv as [|a l IH]; intros s Hs; cbn [echo_loop]; [exists s; by rewrite app_nil_r|].
    rewrite (bind_ok _ _ _ _ _ (write1_ok (cstr a) s Hs)), (bind_ok _ _ _ _ _ (write1_ok _ (writes (cstr a) s) Hs)), writes_app.
    destruct (IH (writes (cstr a ++ match l with [] => [10] | _ :: _ => [32] end) s) Hs) as (s' & R & E). exists s'. split; [done|].
    rewrite E. cbn [writes io_out set_out]. rewrite <-!app_assoc. f_equal. f_equal. destruct l as [|b l]; [done|]. cbn. by rewrite <-!app_assoc. }
  destruct H as (s' & R & E). exists s'. by rewrite (bind_ok _ _ _ _ _ R).
Qed.

(** ** init

    main() of init is a machine that takes the result of one system call at a
    time.  It runs in a world that keeps what the kernel promises about fork(),
    wait(), exit() and the orphans that exit() gives to init (that init itself is
    killed is left out).  The theorems say that only a fork() that fails stops
    init, and that it starts a new shell whenever the last one has exited. *)

(** ** main() of init.c *)

(** open("console", O_RDWR), with mknod() and a second open() when it fails,
    then dup(0) twice.  [first] and [second] tell if the two opens succeed. *)
Definition init_fds (first second : bool) (t : fdt) : fdt :=
  let con := DFile CONSOLE_PATH 2 in
  let open_ t := match fd_alloc con t with Some (t', _) => t' | None => t end in
  let t := if first then open_ t else if second then open_ t else t in
  fd_dup 0 (fd_dup 0 t).

(** Where main() is: before fork(), in the loop around wait() for the shell
    [pid], in the child before exec(), or past exit(status). *)
Inductive ipoint : Type :=
| IFork
| IWait (pid : Z)
| IExec
| IExit (status : Z).

(** One turn: the system call that the point makes returns [r]; exec() only
    returns when it fails.  The bytes are those printed on the way to the next
    call. *)
Definition init_step (p : ipoint) (r : Z) : ipoint * list Z :=
  match p with
  | IFork =>
      let out := str_of "init: starting sh" ++ [10] in
      if r <? 0 then (IExit 1, out ++ str_of "init: fork failed" ++ [10])
      else if r =? 0 then (IExec, out) else (IWait r, out)
  | IExec => (IExit 1, str_of "init: exec sh failed" ++ [10])
  | IWait pid =>
      if r =? pid then (IFork, [])
      else if r <? 0 then (IExit 1, str_of "init: wait returned an error" ++ [10])
      else (IWait pid, [])
  | IExit st => (IExit st, [])
  end.

(** ** The world init runs in *)

(** Init's children that are alive and those that have exited and wait
    for init. *)
Record world : Type := World { w_at : ipoint; w_live : gset Z; w_dead : gset Z }.

Inductive wstep : world → world → Prop :=
(** fork() returns the child's pid, which no other process has, or -1. *)
| w_fork live dead pid :
    0 < pid → pid ∉ live → pid ∉ dead →
    wstep (World IFork live dead) (World (init_step IFork pid).1 ({[pid]} ∪ live) dead)
| w_fork_fails live dead : wstep (World IFork live dead) (World (init_step IFork (-1)).1 live dead)
(** wait() returns the pid of a child that has exited and forgets the child. *)
| w_wait p live dead pid :
    pid ∈ dead → wstep (World (IWait p) live dead) (World (init_step (IWait p) pid).1 live (dead ∖ {[pid]}))
(** ... and returns -1 to a process that has no children. *)
| w_wait_fails p : wstep (World (IWait p) ∅ ∅) (World (init_step (IWait p) (-1)).1 ∅ ∅)
(** A child exits. *)
| w_exit p live dead pid : pid ∈ live → wstep (World p live dead) (World p (live ∖ {[pid]}) ({[pid]} ∪ dead))
(** exit() of another process hands its children to init. *)
| w_adopt p live dead pid : 0 < pid → pid ∉ live → pid ∉ dead → wstep (World p live dead) (World p ({[pid]} ∪ live) dead)
| w_adopt_dead p live dead pid : 0 < pid → pid ∉ live → pid ∉ dead → wstep (World p live dead) (World p live ({[pid]} ∪ dead)).

(** The shell that init waits for is one of its children. *)
Definition awaits_child (w : world) : Prop :=
  (∀ pid, pid ∈ w_live w ∨ pid ∈ w_dead w → 0 < pid) ∧ (∀ pid, pid ∈ w_dead w → pid ∉ w_live w) ∧
  match w_at w with
  | IWait pid => pid ∈ w_live w ∨ pid ∈ w_dead w
  | IFork => True
  | IExec => False
  | IExit _ => True
  end.

Lemma awaits_child_step w w' : wstep w w' → awaits_child w → awaits_child w'.
Proof.
  intros S (Hpos & Hdis & Hat). unfold awaits_child in *. destruct S; cbn [w_at w_live w_dead] in *.
  - cbn [init_step]. rewrite (proj2 (Z.ltb_ge pid 0)), (proj2 (Z.eqb_neq pid 0)) by lia. cbn [fst].
    split_and!; [intros q Hq; destruct (decide (q = pid)); [by subst|apply Hpos; set_solver]|set_solver|set_solver].
  - done.
  - assert (Hq : 0 < pid) by (apply Hpos; set_solver). split_and!; [set_solver|set_solver|].
    cbn [init_step]. destruct (Z.eqb_spec pid p); [done|]. rewrite (proj2 (Z.ltb_ge pid 0)) by lia. cbn [fst]. set_solver.
  - set_solver.
  - split_and!; [intros q Hq; apply Hpos; set_solver|set_solver|].
    destruct p; [done| |done|done]. destruct (decide (pid = pid0)); set_solver.
  - split_and!; [intros q Hq; destruct (decide (q = pid)); [by subst|apply Hpos; set_solver]|set_solver|]. destruct p; set_solver.
  - split_and!; [intros q Hq; destruct (decide (q = pid)); [by subst|apply Hpos; set_solver]|set_solver|]. destruct p; set_solver.
Qed.

(** Init at its first fork(). *)
Definition init_start (w : world) : Prop := w_at w = IFork ∧ w_live w = ∅ ∧ w_dead w = ∅.

Lemma init_reach w0 w : init_start w0 → rtc wstep w0 w → awaits_child w.
Proof.
  intros (E1 & E2 & E3) Hr.
  assert (A0 : awaits_child w0) by (unfold awaits_child; rewrite E1, E2, E3; split_and!; [set_solver|set_solver|done]).
  clear E1 E2 E3. induction Hr as [|w0 w1 w H _ IH]; [done|]. by eapply IH, awaits_child_step.
Qed.

(** wait() never fails in init, so only a fork() that fails can stop it. *)
Theorem init_stops_only_on_fork w0 w w' st :
  init_start w0 → rtc wstep w0 w → wstep w w' → w_at w' = IExit st → w_at w = IExit st ∨ w_at w = IFork.
Proof.
  intros Hs Hr S E. destruct (init_reach _ _ Hs Hr) as (Hpos & _ & Hat).
  destruct S; cbn [w_at w_live w_dead] in *; [by right|by right| |set_solver|by left..].
  exfalso. assert (Hq : 0 < pid) by (apply Hpos; set_solver).
  cbn [init_step] in E. destruct (Z.eqb_spec pid p); [done|]. by rewrite (proj2 (Z.ltb_ge pid 0)) in E by lia.
Qed.

(** Once the shell has exited, init gets back to fork() by calling wait() at
    most once for each child that has exited, whichever of them wait() chooses
    each time: the number of them decreases with every call. *)
Theorem init_sees_shell_exit pid live dead order :
  NoDup order → list_to_set order = dead → pid ∈ dead → (∀ q, q ∈ dead → 0 < q) →
  ∃ k, order !! k = Some pid ∧ foldl (λ p r, (init_step p r).1) (IWait pid) (take (S k) order) = IFork ∧
    rtc wstep (World (IWait pid) live dead) (World IFork live (dead ∖ list_to_set (take (S k) order))).
Proof.
  intros Hnd Hd Hin Hpos. assert (Hin' : pid ∈ order) by set_solver. assert (Hsub : ∀ q, q ∈ order → q ∈ dead) by set_solver.
  clear Hd Hin. revert dead Hsub Hpos. induction order as [|q order IH]; intros dead Hsub Hpos; [by apply not_elem_of_nil in Hin'|].
  apply NoDup_cons in Hnd as [Hq Hnd]. assert (Hqd : q ∈ dead) by set_solver. pose proof (Hpos q Hqd).
  pose proof (w_wait pid live dead q Hqd) as St.
  destruct (decide (q = pid)) as [->|Hne].
  - exists 0%nat. assert (E : (init_step (IWait pid) pid).1 = IFork) by (cbn [init_step]; by rewrite Z.eqb_refl).
    split_and!; [done|exact E|]. rewrite E in St. apply rtc_once.
    replace (dead ∖ list_to_set (take 1 (pid :: order))) with (dead ∖ {[pid]} : gset Z) by set_solver. exact St.
  - assert (E : (init_step (IWait pid) q).1 = IWait pid).
    { cbn [init_step]. rewrite (proj2 (Z.eqb_neq q pid)), (proj2 (Z.ltb_ge q 0)) by (lia || done). done. }
    apply elem_of_cons in Hin' as [->|Hin']; [done|].
    destruct (IH Hnd Hin' (dead ∖ {[q]})) as (k & Hl & Ef & Hr); [set_solver|set_solver|]. rewrite E in St.
    exists (1 + k)%nat. split_and!; [done|cbn [take foldl]; by rewrite E|]. eapply rtc_l; [exact St|].
    replace (dead ∖ list_to_set (take (1 + S k) (q :: order))) with (dead ∖ {[q]} ∖ list_to_set (take (S k) order)) by set_solver.
    exact Hr.
Qed.

(** With a console, the shell starts with it as its descriptors 0, 1 and 2. *)
Lemma init_console first second : first || second →
  take 3 (init_fds first second (replicate 16 None)) = replicate 3 (Some (DFile CONSOLE_PATH 2)).
Proof. destruct first, second; done. Qed.

(** ** do_rand() of grind.c *)

(** The new *ctx, which is also the value returned; [ctx] is an unsigned long. *)
Definition do_rand (ctx : Z) : Z :=
  let x := ctx mod 0x7ffffffe + 1 in
  let hi := x / 127773 in
  let lo := x mod 127773 in
  let x := 16807 * lo - 2836 * hi in
  let x := if x <? 0 then x + 0x7fffffff else x in
  x - 1.

(** The generator it is to compute, one product away from overflowing an int. *)
Definition lehmer (x : Z) : Z := 16807 * x mod 0x7fffffff.

Lemma lehmer_nonzero x : 0 < x < 0x7fffffff → lehmer x ≠ 0.
Proof.
  intros Hx E. apply Z.mod_divide in E; [|lia]. apply Z.gauss in E; [|done]. apply Z.divide_pos_le in E; lia.
Qed.

(** do_rand() is the generator of its comment, on the range [0, 0x7ffffffd]:
    the two-term product neither leaves the 32 bits of an int on the way nor
    reaches the fixed point 0. *)
Theorem do_rand_lehmer ctx :
  do_rand ctx = lehmer (ctx mod 0x7ffffffe + 1) - 1 ∧ 0 ≤ do_rand ctx ≤ 0x7ffffffd.
Proof.
  pose proof (Z.mod_pos_bound ctx 0x7ffffffe ltac:(lia)) as Hx. unfold do_rand. set (x := ctx mod 0x7ffffffe + 1).
  assert (Hx' : 0 < x < 0x7fffffff) by lia. clearbody x. pose proof (lehmer_nonzero x Hx') as Hn.
  pose proof (Z.div_mod x 127773 ltac:(lia)) as Hd. pose proof (Z.mod_pos_bound x 127773 ltac:(lia)) as Hm.
  set (hi := x / 127773) in *. set (lo := x mod 127773) in *. cbv zeta.
  assert (E : lehmer x = if 16807 * lo - 2836 * hi <? 0 then 16807 * lo - 2836 * hi + 0x7fffffff else 16807 * lo - 2836 * hi).
  { unfold lehmer. symmetry. destruct (Z.ltb_spec (16807 * lo - 2836 * hi) 0).
    - apply (Z.mod_unique_pos _ _ (hi - 1)); lia.
    - apply (Z.mod_unique_pos _ _ hi); lia. }
  rewrite <-E. split; [done|]. unfold lehmer in *. pose proof (Z.mod_pos_bound (16807 * x) 0x7fffffff ltac:(lia)). lia.
Qed.

(** No two states of the generator have the same successor, so it runs through
    a cycle that leads back to where it started. *)
Theorem do_rand_inj a b : 0 ≤ a < 0x7ffffffe → 0 ≤ b < 0x7ffffffe → do_rand a = do_rand b → a = b.
Proof.
  intros Ha Hb. rewrite (proj1 (do_rand_lehmer a)), (proj1 (do_rand_lehmer b)), !Z.mod_small by done. unfold lehmer. intros E.
  assert (E' : (16807 * (a + 1) - 16807 * (b + 1)) mod 0x7fffffff = 0) by (rewrite Zminus_mod; replace (16807 * (a + 1) mod 2147483647) with (16807 * (b + 1) mod 2147483647) by lia; by rewrite Z.sub_diag).
  rewrite <-Z.mul_sub_distr_l in E'. apply Z.mod_divide in E'; [|lia]. apply Z.gauss in E'; [|done]. destruct E' as [q Hq]. nia.
Qed.

(** rand() from rand_next = 1: the sequence of the minimal standard generator. *)
Example do_rand_first : map do_rand [1; 33613; 564950497] = [33613; 564950497; 1097816498].
Proof. vm_compute. reflexivity. Qed.
