(* ===== verification/VmFork.v ===== *)
(** uvmcopy() of kernel/vm.c, the copy of the parent's memory in fork(): the
    child gets the same bytes with the same permissions in frames of its own. *)

From S2P Require Import Prelude Riscv Kstate Mem Kalloc Vm PageTable VmSpec VmMap VmCopy Machine.

Section fork.
Context {L : Layout} {LO : LayoutOk L}.

(** ** Handing out and filling a page *)

Lemma entries_keep m m' t i :
  t mod 4096 = 0 → idx_ok i → (∀ a, a / 4096 = t / 4096 → ld8 m' a = ld8 m a) → entries m' t i = entries m t i.
Proof.
  intros Ht Hi H. unfold entries. apply ld64_ext. intros a Ha. apply H. unfold idx_ok in Hi. dlia.
Qed.

(** A table of [root] is not a page of the free list. *)
Lemma touch_ok s s' root g l :
  as_ok s root (g :: l) → free_list (k_mm s') l → (∀ a, a / 4096 ≠ g → ld8 (mem s') a = ld8 (mem s) a) →
  as_ok s' root l ∧ plain s' root l g ∧ same_nodes (view s) (view s') root ∧
  (∀ a, 0 ≤ a < MAXVA → leaf (view s') root a = leaf (view s) root a).
Proof.
  intros A Hf Hm.
  assert (Hpl : plain s root l g).
  { destruct A as [(_ & Hnd & _) _ Hfr]. apply NoDup_cons in Hnd as [Hni _]. split; [done|].
    intros p t Hp Ht E. apply (Hfr p t Hp Ht). rewrite E. by left. }
  assert (Hag : ∀ p t i, path_ok p → node (view s) root p = Some t → idx_ok i → view s' t i = view s t i).
  { intros p t i Hp Ht Hi. pose proof (wf_tbl _ _ (as_wf _ _ _ A) p t Hp Ht) as [Ha _].
    apply entries_keep; [done|done|]. intros a Ea. apply Hm. rewrite Ea. by apply (proj2 Hpl p). }
  assert (Hsn : same_nodes (view s) (view s') root) by by apply agree_nodes.
  split_and!; [|by eapply plain_frame; [exact Hsn|exact Hpl|apply Hpl]|done|intros a Ha; by apply agree_leaf].
  destruct A as [_ Hwf Hfr]. split; [done|by eapply same_nodes_wf|].
  intros p t Hp. rewrite Hsn by done. intros Ht Hin. apply (Hfr p t Hp Ht). by right.
Qed.

(** kalloc() and memmove() of a page into the new one. *)
Lemma copy_page s root g l src :
  as_ok s root (g :: l) → L_kmem ∉ k_held s → ram_range src 4096 → src / 4096 ≠ g → src mod 4096 = 0 →
  ∃ s1 s2, kalloc s = Ok (4096 * g) s1 ∧ memmove (4096 * g) src PGNAT s1 = Ok tt s2 ∧ s2 = set_mm (k_mm s2) s ∧
    as_ok s2 root l ∧ plain s2 root l g ∧ same_nodes (view s) (view s2) root ∧
    (∀ a, 0 ≤ a < MAXVA → leaf (view s2) root a = leaf (view s) root a) ∧
    (∀ a, a / 4096 ≠ g → ld8 (mem s2) a = ld8 (mem s) a) ∧
    (∀ o, 0 ≤ o < 4096 → ld8 (mem s2) (4096 * g + o) = ld8 (mem s) (src + o)).
Proof.
  intros A Hh Hr Hsrc Hal. pose proof (as_free _ _ _ A) as Hf. pose proof Hf as (_ & _ & Hok).
  apply Forall_cons in Hok as [Hg _]. set (s1 := set_mm (taken g (k_mm s)) s).
  assert (Hsz : Z.of_nat PGNAT = 4096) by (rewrite pgnat_eq; done).
  destruct (memmove_run (4096 * g) src PGNAT s1) as (m' & E & Hc); [by apply page_ok_ram|by rewrite Hsz|].
  exists s1, (put_mem m' s1). assert (Hm1 : ∀ a, a / 4096 ≠ g → ld8 (mem s1) a = ld8 (mem s) a).
  { intros a Ha. pose proof (taken_mem (k_mm s) g a) as Et. rewrite decide_False in Et by dlia. exact Et. }
  assert (Hm2 : ∀ a, a / 4096 ≠ g → ld8 (mem (put_mem m' s1)) a = ld8 (mem s) a).
  { intros a Ha. rewrite mem_put_mem, (Hc a), decide_False by (rewrite Hsz; dlia). by apply Hm1. }
  destruct (touch_ok s (put_mem m' s1) root g l A) as (A2 & Hpl & Hsn & Hlf);
    [by apply free_list_set_mem, taken_free_list|done|].
  split_and!; try done; [by eapply kalloc_run|].
  intros o Ho. rewrite mem_put_mem, (Hc _), decide_True by (rewrite Hsz; lia).
  replace (src + (4096 * g + o - 4096 * g)) with (src + o) by lia. apply Hm1. dlia.
Qed.

(** ** The loop *)

Section copying.
Context (s0 : kstate) (old new : Z) (l0 : list Z) (n : nat).

(** Page [k] of the parent. *)
Definition page_pte (k : nat) : Z := leaf (view s0) old (4096 * Z.of_nat k).

(** The parent's first [n] pages are there, in RAM, and neither they nor the
    parent's page tables are free or tables of the child. *)
Record parent_ok : Prop := {
  pk_wf : pt_wf (view s0) old;
  pk_tables : ∀ p t, path_ok p → node (view s0) old p = Some t → plain s0 new l0 (t / 4096);
  pk_pages : ∀ k, (k < n)%nat → has (page_pte k) PTE_V = true ∧ ram_range (PTE2PA (page_pte k)) 4096 ∧
    plain s0 new l0 (PTE2PA (page_pte k) / 4096);
  pk_size : 4096 * Z.of_nat n ≤ MAXVA;
}.

(** The frames [gs] hold the copies of the first pages. *)
Record copying (s : kstate) (l gs : list Z) : Prop := {
  cp_as : as_ok s new l;
  cp_state : s = set_mm (k_mm s) s0;
  cp_suffix : l `suffix_of` l0;
  cp_len : (length l0 ≤ 3 * length gs + length l)%nat;
  cp_keep : ∀ a, plain s0 new l0 (a / 4096) → ld8 (mem s) a = ld8 (mem s0) a;
  cp_plain : ∀ pg, plain s0 new l0 pg → plain s new l pg;
  cp_nodup : NoDup gs ∧ ∀ g, g ∈ gs → g ∈ l0;
  cp_new : ∀ k g, gs !! k = Some g → plain s new l g ∧ page_ok g ∧
    leaf (view s) new (4096 * Z.of_nat k) = pte_of (4096 * g) (PTE_FLAGS (page_pte k)) ∧
    ∀ o, 0 ≤ o < 4096 → ld8 (mem s) (4096 * g + o) = ld8 (mem s0) (PTE2PA (page_pte k) + o);
  cp_rest : ∀ v, 4096 * Z.of_nat (length gs) ≤ v < 4096 * Z.of_nat n → has (leaf (view s) new v) PTE_V = false;
}.

Hypothesis PK : parent_ok.
Hypothesis Hheld : L_kmem ∉ k_held s0.

(** The parent's page table as it was. *)
Lemma parent_view s l gs : copying s l gs →
  pt_wf (view s) old ∧ same_nodes (view s0) (view s) old ∧ ∀ a, 0 ≤ a < MAXVA → leaf (view s) old a = leaf (view s0) old a.
Proof using PK.
  intros C. assert (Hag : ∀ p t i, path_ok p → node (view s0) old p = Some t → idx_ok i → view s t i = view s0 t i).
  { intros p t i Hp Ht Hi. pose proof (wf_tbl _ _ (pk_wf PK) p t Hp Ht) as [Ha _]. apply entries_keep; [done|done|].
    intros a Ea. apply (cp_keep _ _ _ C). rewrite Ea. by eapply (pk_tables PK). }
  assert (Hsn : same_nodes (view s0) (view s) old) by by apply agree_nodes.
  split_and!; [by eapply same_nodes_wf; [|apply PK]|done|]. intros a Ha. by apply agree_leaf.
Qed.

(** walk(old, i, 0) finds the entry of the page. *)
Lemma parent_walk s l gs k : copying s l gs → (k < n)%nat → let i := 4096 * Z.of_nat k in
  ∃ pte, walk old i false s = Ok pte s ∧ pte ≠ 0 ∧ load64 pte s = Ok (page_pte k) s.
Proof using PK.
  intros C Hk i. destruct (parent_view s l gs C) as (WF & Hsn & Hlf). pose proof (pk_size PK) as Hsz.
  assert (Hi : 0 ≤ i < MAXVA) by (subst i; lia). destruct (pk_pages PK k Hk) as [Hv _].
  pose proof (walk_lookup s old i WF Hi) as E. pose proof (Hlf i Hi) as El. fold (page_pte k) in El.
  assert (El' : leaf (view s) old i = page_pte k) by (rewrite El; done).
  unfold leaf in El'. destruct (node (view s) old (va_path i)) as [t|] eqn:Et; [|rewrite <-El' in Hv; done].
  exists (t + 8 * PX 0 i). split; [done|]. pose proof (wf_tbl _ _ WF _ _ (va_path_ok i) Et) as Ht.
  assert (Hpx : idx_ok (PX 0 i)) by (apply px_idx_ok; lia). pose proof (tbl_slot_ram t _ Ht Hpx) as Hram. split.
  - unfold ram_range, KERNBASE in Hram. lia.
  - rewrite load64_run by done. by f_equal.
Qed.

Lemma pte_flags_range v : 0 ≤ PTE_FLAGS v < 1024.
Proof. unfold PTE_FLAGS. change 1023 with (Z.ones 10). rewrite Z.land_ones by lia. change (2 ^ 10) with 1024. dlia. Qed.

Lemma pte2pa_mod v : PTE2PA v mod 4096 = 0.
Proof.
  unfold PTE2PA, u64, wrap. rewrite Z.mod_mod_divide by (by exists (2 ^ 52)).
  rewrite Z.shiftl_mul_pow2 by lia. change (2 ^ 12) with 4096. apply Z.mod_mul. lia.
Qed.

(** One page. *)
Lemma uvmcopy_step s l gs sz fuel :
  let k := length gs in
  copying s l gs → (k < n)%nat → 4096 * Z.of_nat k < sz → (3 ≤ length l)%nat →
  ∃ s' l' g, uvmcopy_loop (S fuel) old new (4096 * Z.of_nat k) sz s = uvmcopy_loop fuel old new (4096 * Z.of_nat (S k)) sz s' ∧
    copying s' l' (gs ++ [g]).
Proof using PK Hheld LO.
  intros k C Hk Hlt Hlen. destruct (pk_pages PK k Hk) as (Hv & Hram & Hpl). pose proof (pk_size PK) as Hsz.
  destruct (parent_walk s l gs k C Hk) as (pte & Ew & Hpte & El). set (v := page_pte k) in *. set (i := 4096 * Z.of_nat k) in *.
  destruct l as [|g l]; [cbn in Hlen; lia|]. cbn [length] in Hlen. pose proof (cp_as _ _ _ C) as A.
  assert (Hh : L_kmem ∉ k_held s) by (rewrite (cp_state _ _ _ C); done).
  pose proof (as_free _ _ _ A) as (_ & Hnd & Hok). apply NoDup_cons in Hnd as [Hgl _]. apply Forall_cons in Hok as [Hg _].
  assert (Hg0 : g ∈ l0) by (eapply suffix_elem; [apply C|by left]).
  assert (Hsrc : PTE2PA v / 4096 ≠ g) by (intros E; apply (proj1 Hpl); by rewrite E).
  destruct (copy_page s new g l (PTE2PA v) A Hh Hram Hsrc (pte2pa_mod v)) as (s1 & s2 & Ea & Em & Es2 & A2 & Hgp & Hsn2 & Hlf2 & Hm2 & Hc2).
  assert (Ha0 : i mod 4096 = 0) by (unfold i; rewrite Z.mul_comm; apply Z.mod_mul; lia).
  assert (Erd : PGROUNDDOWN i = i ∧ PGROUNDDOWN (i + PGSIZE - 1) = i) by (rewrite !pgrounddown_eq; unfold PGSIZE; dlia).
  destruct Erd as [Erd1 Erd2].
  destruct Hg as [Hg1 Hg2]. pose proof l_end_range as Hend. unfold PHYSTOP, KERNBASE in *.
  destruct (mappages_ok s2 new l i PGSIZE (4096 * g) (PTE_FLAGS v)) as (s3 & l3 & Emap & A3 & G & Hl3 & Lf);
    rewrite ?Erd1, ?Erd2; try done.
  { rewrite Es2. done. }
  { apply pte_flags_range. }
  { unfold i. lia. }
  { unfold i, PGSIZE. lia. }
  { apply aligned_mul. }
  { lia. }
  { unfold PGSIZE. lia. }
  { rewrite Z.sub_diag, Z.div_0_l by done. cbn. lia. }
  { intros w Hw. unfold PGSIZE in Hw. rewrite Hlf2 by lia. apply (cp_rest _ _ _ C). fold k. lia. }
  exists s3, l3, g. split.
  { cbn [uvmcopy_loop]. rewrite (proj2 (Z.ltb_lt _ _)) by done. cbn [negb]. rewrite (bind_ok _ _ _ _ _ Ew).
    rewrite (proj2 (Z.eqb_neq pte 0)) by done. rewrite (bind_ok _ _ _ _ _ El), Hv. cbn [negb]. cbv zeta.
    rewrite (bind_ok _ _ _ _ _ Ea), (proj2 (Z.eqb_neq (4096 * g) 0)) by lia.
    rewrite (bind_ok _ _ _ _ _ Em), (bind_ok _ _ _ _ _ Emap). cbn [Z.eqb negb].
    f_equal. unfold PGSIZE. rewrite u64_small; unfold i; change MAXVA with 274877906944 in *; lia. }
  cbv zeta in Lf, Hl3. rewrite Erd1, Erd2 in Lf. rewrite Erd1, Erd2, Z.sub_diag, Z.div_0_l in Hl3 by done. cbn in Hl3.
  assert (Hpl2 : ∀ pg, plain s new (g :: l) pg → plain s2 new l pg).
  { intros pg Hp. eapply plain_frame; [exact Hsn2|exact Hp|]. intros Hin. apply (proj1 Hp). by right. }
  assert (Hpl3 : ∀ pg, plain s new (g :: l) pg → plain s3 new l3 pg) by (intros pg Hp; by eapply grows_plain; [exact G|apply Hpl2]).
  assert (Hmem3 : ∀ a, plain s new (g :: l) (a / 4096) → ld8 (mem s3) a = ld8 (mem s) a).
  { intros a Hp. rewrite (gr_mem _ _ _ _ _ G) by by apply Hpl2. apply Hm2. intros E. apply (proj1 Hp). rewrite E. by left. }
  assert (Hng : g ∉ gs).
  { intros Hin. apply list_elem_of_lookup in Hin as [q Hq]. destruct (cp_new _ _ _ C q g Hq) as [[Hn _] _]. apply Hn. by left. }
  split.
  - done.
  - rewrite (gr_state _ _ _ _ _ G), Es2, (cp_state _ _ _ C). done.
  - etrans; [apply G|]. etrans; [by apply suffix_cons_r|apply C].
  - rewrite length_app. cbn [length]. pose proof (cp_len _ _ _ C) as Hcl. cbn [length] in Hcl. lia.
  - intros a Hp. rewrite Hmem3; [by apply C|by apply C].
  - intros pg Hp. apply Hpl3. by apply C.
  - destruct (cp_nodup _ _ _ C) as [H1 H2]. split.
    + apply NoDup_app. split_and!; [done| |apply NoDup_singleton]. intros x Hx ->%list_elem_of_singleton. done.
    + intros x [Hx| ->%list_elem_of_singleton]%elem_of_app; [by apply H2|done].
  - intros q x Hq. apply lookup_app_Some in Hq as [Hq|[Hge Hq]].
    + destruct (cp_new _ _ _ C q x Hq) as (Hp & Hok' & Hlf & Hby). pose proof (lookup_lt_Some _ _ _ Hq) as Hql. fold k in Hql.
      split_and!; [by apply Hpl3|done| |].
      * rewrite Lf by lia. rewrite decide_False by (unfold i; lia). rewrite Hlf2 by lia. done.
      * intros o Ho. rewrite Hmem3; [by apply Hby|]. replace ((4096 * x + o) / 4096) with x by dlia. done.
    + fold k in Hge, Hq. assert (q = k) as -> by (apply lookup_lt_Some in Hq; cbn in Hq; lia). rewrite Nat.sub_diag in Hq. injection Hq as <-.
      fold i v. split_and!; [by eapply grows_plain; [exact G|]|done| |].
      * rewrite Lf by (unfold i; lia). rewrite decide_True by (unfold PGSIZE; lia). rewrite Erd1. f_equal. lia.
      * intros o Ho. rewrite (gr_mem _ _ _ _ _ G); [|by replace ((4096 * g + o) / 4096) with g by dlia].
        rewrite Hc2 by done. apply (cp_keep _ _ _ C). pose proof (pte2pa_mod v).
        by replace ((PTE2PA v + o) / 4096) with (PTE2PA v / 4096) by dlia.
  - rewrite length_app. cbn [length]. fold k. intros w Hw. rewrite Lf by lia. rewrite decide_False by (unfold i, PGSIZE; lia).
    rewrite Hlf2 by lia. apply (cp_rest _ _ _ C). fold k. lia.
Qed.

Lemma copied_leaf s l gs k g a : copying s l gs → gs !! k = Some g → a / 4096 = Z.of_nat k → 0 ≤ a < MAXVA →
  leaf (view s) new a = pte_of (4096 * g) (PTE_FLAGS (leaf (view s0) old a)).
Proof.
  intros C Hk Ea Ha. destruct (cp_new _ _ _ C k g Hk) as (_ & _ & E & _).
  rewrite (leaf_same_page _ _ a (4096 * Z.of_nat k)) by dlia. rewrite E. do 2 f_equal. apply leaf_same_page. dlia.
Qed.

(** The bytes of the child are those of the parent, which keeps its own. *)
Lemma copied_bytes s l gs a : copying s l gs → length gs = n → 0 ≤ a < 4096 * Z.of_nat n →
  ubyte s new a = ubyte s0 old a ∧ ubyte s old a = ubyte s0 old a.
Proof using PK LO.
  intros C Hn Ha. pose proof (pk_size PK) as Hsz. assert (Ha' : 0 ≤ a < MAXVA) by lia.
  set (k := Z.to_nat (a / 4096)). assert (Hk : (k < n)%nat) by (unfold k; dlia). assert (Ek : Z.of_nat k = a / 4096) by (unfold k; rewrite Z2Nat.id; dlia).
  destruct (lookup_lt_is_Some_2 gs k ltac:(lia)) as [g Hg]. destruct (cp_new _ _ _ C k g Hg) as (Hp & [Hg1 Hg2] & _ & Hby).
  destruct (parent_view s l gs C) as (WF & _ & Hlf). destruct (pk_pages PK k Hk) as (Hv & Hram & Hpl).
  assert (Ev : leaf (view s0) old a = page_pte k) by (apply leaf_same_page; rewrite Ek; dlia).
  unfold ubyte, xlate. rewrite (copied_leaf s l gs k g a C Hg ltac:(lia) Ha'), (Hlf a Ha'), Ev. set (v := page_pte k) in *.
  pose proof l_end_range as Hend. unfold PHYSTOP, KERNBASE in *. pose proof (pte_flags_range v) as Hfr.
  rewrite !pte_of_has, pte_of_pa by (done || lia || apply aligned_mul).
  assert (Hfl : has (PTE_FLAGS v) PTE_U = has v PTE_U) by (unfold has, PTE_FLAGS; by rewrite <-Z.land_assoc).
  change (has PTE_V PTE_V) with true. change (has PTE_V PTE_U) with false. rewrite Hfl, orb_true_r, orb_false_r, Hv. cbn [andb].
  destruct (has v PTE_U); [|done]. assert (Ho : 0 ≤ a mod 4096 < 4096) by dlia. split; [by apply Hby|].
  apply (cp_keep _ _ _ C). pose proof (pte2pa_mod v). by replace ((PTE2PA v + a mod 4096) / 4096) with (PTE2PA v / 4096) by dlia.
Qed.
Hypothesis Hroom : (3 * n ≤ length l0)%nat.

Lemma uvmcopy_loop_ok d fuel s l gs sz :
  copying s l gs → (length gs + d = n)%nat → (d ≤ fuel)%nat →
  4096 * (Z.of_nat n - 1) < sz ≤ 4096 * Z.of_nat n →
  ∃ s' l' gs', uvmcopy_loop fuel old new (4096 * Z.of_nat (length gs)) sz s = Ok 0 s' ∧ copying s' l' gs' ∧ length gs' = n.
Proof using PK Hheld Hroom LO.
  revert fuel s l gs. induction d as [|d IH]; intros fuel s l gs C Hd Hf Hsz.
  - exists s, l, gs. split; [|split; [done|lia]]. destruct fuel; cbn [uvmcopy_loop]; by rewrite (proj2 (Z.ltb_ge _ _)) by lia.
  - destruct fuel as [|fuel]; [lia|]. pose proof (cp_len _ _ _ C) as Hlen0.
    destruct (uvmcopy_step s l gs sz fuel C) as (s1 & l1 & g & -> & C1); [lia|lia|lia|].
    assert (Hl1 : length (gs ++ [g]) = S (length gs)) by (rewrite length_app; cbn; lia).
    rewrite <-Hl1. apply (IH fuel s1 l1 (gs ++ [g]) C1); [lia|lia|done].
Qed.

Hypothesis A0 : as_ok s0 new l0.
Hypothesis Hempty : ∀ v, 0 ≤ v < 4096 * Z.of_nat n → has (leaf (view s0) new v) PTE_V = false.

Lemma copying_start : copying s0 l0 [].
Proof using A0 Hempty.
  split; try done; cbn [length].
  - by rewrite set_mm_id.
  - split; [constructor|]. intros g Hg. by apply elem_of_nil in Hg.
Qed.
End copying.

(** C13: uvmcopy() (kernel/vm.c), the memory copy of fork(): with three free
    pages for every page to copy, it returns 0 and the child's page table maps
    the same addresses with the same permissions to frames of its own, all
    different and taken from the free list, that hold the same bytes; the
    parent's bytes and translations and the rest of the kernel state do not
    change, and both page tables are well formed. *)
Theorem uvmcopy_copies s old new sz l n :
  4096 * (Z.of_nat n - 1) < sz ≤ 4096 * Z.of_nat n → parent_ok s old new l n →
  L_kmem ∉ k_held s → (3 * n ≤ length l)%nat → as_ok s new l →
  (∀ v, 0 ≤ v < 4096 * Z.of_nat n → has (leaf (view s) new v) PTE_V = false) →
  ∃ s' gs, uvmcopy old new sz s = Ok 0 s' ∧ s' = set_mm (k_mm s') s ∧
    pt_wf (view s') old ∧ pt_wf (view s') new ∧
    length gs = n ∧ NoDup gs ∧ (∀ g, g ∈ gs → g ∈ l) ∧
    (∀ k g a, gs !! k = Some g → a / 4096 = Z.of_nat k → leaf (view s') new a = pte_of (4096 * g) (PTE_FLAGS (leaf (view s) old a))) ∧
    (∀ a, 0 ≤ a < MAXVA → leaf (view s') old a = leaf (view s) old a) ∧
    (∀ a, 0 ≤ a < 4096 * Z.of_nat n → ubyte s' new a = ubyte s old a ∧ ubyte s' old a = ubyte s old a).
Proof.
  intros Hsz PK Hh Hroom A Hempty. pose proof (copying_start s old new l n A Hempty) as C0.
  destruct (uvmcopy_loop_ok s old new l n PK Hh Hroom n (S (Z.to_nat (sz / PGSIZE))) s l [] sz C0) as (s' & l' & gs & R & C & Hn);
    [done|unfold PGSIZE; dlia|done|].
  destruct (parent_view _ _ _ _ _ PK s' l' gs C) as (WF & _ & Hlf). pose proof (pk_size _ _ _ _ _ PK) as Htop.
  exists s', gs. split_and!; try done; [apply C|apply (cp_as _ _ _ _ _ _ _ _ C)|apply (cp_nodup _ _ _ _ _ _ _ _ C)| | |].
  - apply (cp_nodup _ _ _ _ _ _ _ _ C).
  - intros k g a Hk Ea. eapply copied_leaf; [exact C|exact Hk|exact Ea|]. apply lookup_lt_Some in Hk. dlia.
  - intros a Ha. by eapply copied_bytes.
Qed.
End fork.

(** ** An instance *)

(** The root of the child, a zeroed page. *)
Definition NEWPG : Z := 0x87020.
Definition newroot : Z := 4096 * NEWPG.

(** A page table whose root is all zeros. *)
Lemma empty_nodes s root p t : (∀ i, idx_ok i → view s root i = 0) → path_ok p → node (view s) root p = Some t → p = P2 ∧ t = root.
Proof.
  intros H Hp. assert (Hc : ∀ i, idx_ok i → child (view s) root i = None) by (intros i Hi; unfold child; by rewrite H).
  destruct p as [|i|i j]; cbn [node path_ok] in *; [by intros [= <-]| |].
  - by rewrite Hc.
  - rewrite Hc by apply Hp. done.
Qed.

(** One page of the parent, at address 0. *)
Lemma fork_state :
  ∃ s fl, L_kmem ∉ k_held s ∧ as_ok s newroot fl ∧ parent_ok s root0 newroot fl 1 ∧ (3 ≤ length fl)%nat ∧
    (∀ v, 0 ≤ v < 4096 → has (leaf (view s) newroot v) PTE_V = false).
Proof.
  assert (Hm : mem st1 = ∅) by done. pose proof (as_ok0 st1 Hm free_list1) as A.
  assert (Hz : ∀ va, leaf (view st1) root0 va = 0).
  { intros va. unfold leaf. destruct (node (view st1) root0 (va_path va)) as [t|] eqn:E; [|done]. by apply node0 in E as [? _]. }
  destruct (mappages_ok st1 root0 free0 0 4096 (4096 * FRAME) 22) as (s & fl & E & As & G & Hlen & Lf);
    [exact A|apply not_elem_of_empty|lia|done|lia|done|done|done|done|apply Nat.leb_le; by vm_compute|by intros v _; rewrite Hz|].
  clear E. assert (Hsub : ∀ x, x ∈ fl → x ∈ free0) by (intros x; apply suffix_elem, G).
  assert (Hpl : ∀ pg, pg ∉ free0 → pg ≠ ROOTPG → plain st1 root0 free0 pg).
  { intros pg Hn Hr. split; [done|]. intros p t _ [-> ->]%node0; [|done]. intros Et. apply Hr. rewrite <-Et. done. }
  assert (Hnew : ∀ i, idx_ok i → view s newroot i = 0).
  { intros i Hi. unfold view. transitivity (entries (mem st1) newroot i); [|rewrite Hm; apply entries0].
    apply entries_keep; [done|done|]. intros a Ea. apply (gr_mem _ _ _ _ _ G). rewrite Ea.
    apply Hpl; vm_compute; [set_solver|done]. }
  assert (Hnodes : ∀ p t, path_ok p → node (view s) root0 p = Some t → t / 4096 ∉ fl ∧ t / 4096 ≠ NEWPG).
  { intros p t Hp Ht. split; [by eapply (as_fresh _ _ _ As)|]. destruct (gr_node _ _ _ _ _ G p t Hp Ht) as [[_ ->]%node0|Hin]; [done|done|].
    intros En. rewrite En in Hin. vm_compute in Hin. set_solver. }
  assert (Hplain : ∀ pg, pg ∉ fl → pg ≠ NEWPG → plain s newroot fl pg).
  { intros pg H1 H2. split; [done|]. intros p t Hp Ht. apply (empty_nodes s newroot p t Hnew Hp) in Ht as [-> ->]. by apply not_eq_sym. }
  assert (Hleaf : leaf (view s) root0 0 = pte_of (4096 * FRAME) 22) by (rewrite Lf by done; by vm_compute).
  exists s, fl. split_and!.
  - rewrite (gr_state _ _ _ _ _ G). apply not_elem_of_empty.
  - split; [apply As| |].
    + split.
      * intros p t Hp Ht. apply (empty_nodes s newroot p t Hnew Hp) in Ht as [-> ->]. split; [done|]. by vm_compute.
      * intros p q t Hp Hq Hp' Hq'. apply (empty_nodes s newroot p t Hnew Hp) in Hp' as [-> _].
        apply (empty_nodes s newroot q t Hnew Hq) in Hq' as [-> _]. done.
    + intros p t Hp Ht. apply (empty_nodes s newroot p t Hnew Hp) in Ht as [_ ->]. intros Hin%Hsub. vm_compute in Hin. set_solver.
  - split; [apply As| | |done].
    + intros p t Hp Ht. destruct (Hnodes p t Hp Ht). by apply Hplain.
    + intros k Hk. assert (k = 0%nat) as -> by lia. unfold page_pte. change (4096 * Z.of_nat 0) with 0. rewrite Hleaf.
      split_and!; [by vm_compute|by vm_compute|]. replace (PTE2PA (pte_of (4096 * FRAME) 22)) with (4096 * FRAME) by (by vm_compute). apply Hplain; [|by vm_compute].
      intros Hin%Hsub. vm_compute in Hin. set_solver.
  - change (length free0) with 8%nat in Hlen. change (Z.to_nat _) with 0%nat in Hlen. lia.
  - intros v Hv. unfold leaf. destruct (node (view s) newroot (va_path v)) as [t|] eqn:En; [|done].
    apply (empty_nodes s newroot _ t Hnew (va_path_ok v)) in En as [En _]. done.
Qed.

Lemma uvmcopy_copies_witness :
  ∃ s s', uvmcopy root0 newroot 4096 s = Ok 0 s' ∧ ∀ a, 0 ≤ a < 4096 → ubyte s' newroot a = ubyte s root0 a.
Proof.
  destruct fork_state as (s & fl & Hh & A & PK & Hl & He). exists s.
  destruct (uvmcopy_copies s root0 newroot 4096 fl 1 ltac:(lia) PK Hh Hl A He) as (s' & gs & R & _ & _ & _ & _ & _ & _ & _ & _ & Hb).
  exists s'. split; [exact R|]. intros a Ha. exact (proj1 (Hb a Ha)).
Defined.
