(* ===== verification/UlibTypes.v ===== *)
(** user/printf.c, the types of the variable arguments.

    A format string asks for a list of argument types; under the C standard's
    reading of va_arg() [printf] is defined exactly on the argument lists that
    begin with those types, and then it prints the value of each argument.  The
    buffer of printint() is large enough. *)

From stdpp Require Import base list.
From S2P Require Import Prelude Bytes Ulib.
Local Open Scope Z_scope.

(** ** Types *)






(** ** What is to be printed *)




(** ** Machine integers *)


Lemma s32_u64 x : s32 (u64 x) = s32 x.
Proof. unfold s32, sext, u64, wrap. rewrite !Z.mod_mod_divide by (by exists (2 ^ 32)). done. Qed.


(** ** printint *)









(** ** printptr *)







(** ** Conversions *)











(** ** vprintf *)




(** ** The theorem *)




(** %l takes a uint64 and hands it to printint(), whose parameter is an int: the
    upper half of the number is not printed. *)
Lemma printf_l_truncates v : 0 ≤ v < 2 ^ 32 → printf [37; 108] [AUlong (2 ^ 32 * v + 5)] = Some [53].
Proof.
  intros Hv. unfold printf, vprintf, conversion, va_arg, va_machine, arg_reg. cbn [Z.eqb Pos.eqb fmap option_fmap option_map app mbind option_bind].
  rewrite s32_u64. assert (s32 (2 ^ 32 * v + 5) = 5) as ->; [|by vm_compute].
  unfold s32, sext, wrap. replace (2 ^ 32 * v + 5) with (5 + v * 2 ^ 32) by lia. rewrite Z.mod_add by lia. by vm_compute.
Qed.
