(* ===== verification/UlibMem.v ===== *)
(** user/ulib.c, the functions that work on memory and the wrapper stat().

    The memory of a process is a function from addresses to bytes; pointers are
    kept as integers that do not wrap around. *)

From stdpp Require Import functions.
From S2P Require Import Prelude.
Local Open Scope Z_scope.

Notation umem := (Z → Z).

(** ** Operations *)

(** for(i = 0; i < n; i++) cdst[i] = c; *)
Fixpoint memset_loop (n : nat) (i : Z) (dst c : Z) (m : umem) : umem :=
  match n with
  | O => m
  | S n => memset_loop n (i + 1) dst c (<[dst + i := u8 c]> m)
  end.
Definition memset (dst c n : Z) (m : umem) : umem := memset_loop (Z.to_nat n) 0 dst c m.

(** while(n-- > 0) *dst++ = *src++; *)
Fixpoint copy_up (n : nat) (dst src : Z) (m : umem) : umem :=
  match n with
  | O => m
  | S n => copy_up n (dst + 1) (src + 1) (<[dst := m src]> m)
  end.

(** while(n-- > 0) *--dst = *--src; *)
Fixpoint copy_down (n : nat) (dst src : Z) (m : umem) : umem :=
  match n with
  | O => m
  | S n => copy_down n (dst - 1) (src - 1) (<[dst - 1 := m (src - 1)]> m)
  end.

(** [n] is an int: nothing is copied when it is negative. *)
Definition memmove (dst src n : Z) (m : umem) : umem :=
  if dst <? src then copy_up (Z.to_nat n) dst src m
  else copy_down (Z.to_nat n) (dst + n) (src + n) m.

(** [n] is a uint and becomes an int. *)
Definition memcpy (dst src n : Z) (m : umem) : umem := memmove dst src (s32 n) m.

(** open(), fstat() and close() are the system calls, on a state of the kernel. *)
Section stat.
Context {E St : Type}.
Variable open : list Z → Z → M E St Z.
Variable fstat : Z → Z → M E St Z.
Variable close : Z → M E St Z.

Definition stat (n : list Z) (st : Z) : M E St Z :=
  fd ← open n 0;
  if fd <? 0 then mret (-1)
  else
    r ← fstat fd st;
    close fd;;
    mret r.

(** stat() closes what it opened, whatever fstat() says, and opens nothing when
    open() fails. *)
Lemma stat_closes n st s :
  stat n st s =
  match open n 0 s with
  | Ok fd s1 =>
      if fd <? 0 then Ok (-1) s1
      else match fstat fd st s1 with
           | Ok r s2 => match close fd s2 with Ok _ s3 => Ok r s3 | Err e s3 => Err e s3 end
           | Err e s2 => Err e s2
           end
  | Err e s1 => Err e s1
  end.
Proof.
  unfold stat, mbind, M_bind. destruct (open n 0 s) as [fd s1|]; [|done]. destruct (fd <? 0); [done|].
  destruct (fstat fd st s1) as [r s2|]; [|done]. by destruct (close fd s2).
Qed.
End stat.

(** ** What they compute *)

Lemma memset_loop_spec n i dst c m a :
  memset_loop n i dst c m a = if decide (dst + i ≤ a < dst + i + Z.of_nat n) then u8 c else m a.
Proof.
  revert i m. induction n as [|n IH]; intros i m; cbn [memset_loop].
  - rewrite decide_False by lia. done.
  - rewrite IH. destruct (decide (a = dst + i)) as [->|Hne].
    + rewrite decide_False, (decide_True (P := dst + i ≤ dst + i < _)) by lia. apply fn_lookup_insert.
    + rewrite fn_lookup_insert_ne by done. case_decide as H1; [rewrite decide_True by lia; done|rewrite decide_False by lia; done].
Qed.

(** memset() fills exactly the [n] bytes. *)
Lemma memset_fills dst c n m a : 0 ≤ n → memset dst c n m a = if decide (dst ≤ a < dst + n) then u8 c else m a.
Proof. intros Hn. unfold memset. rewrite memset_loop_spec, Z.add_0_r, Z2Nat.id by done. done. Qed.

(** Copying up is right when the source is above, down when it is not. *)
Lemma copy_up_spec n dst src m a :
  dst < src → copy_up n dst src m a = if decide (dst ≤ a < dst + Z.of_nat n) then m (a - dst + src) else m a.
Proof.
  revert dst src m. induction n as [|n IH]; intros dst src m Hlt; cbn [copy_up].
  { rewrite decide_False by lia. done. }
  rewrite IH by lia. destruct (decide (a = dst)) as [->|Hne].
  - rewrite decide_False, decide_True by lia. rewrite fn_lookup_insert. f_equal. lia.
  - rewrite (fn_lookup_insert_ne m dst a) by done. case_decide as H1.
    + rewrite decide_True by lia. rewrite fn_lookup_insert_ne by lia. f_equal. lia.
    + by rewrite decide_False by lia.
Qed.

Lemma copy_down_spec n dst src m a :
  src ≤ dst → copy_down n dst src m a = if decide (dst - Z.of_nat n ≤ a < dst) then m (a - dst + src) else m a.
Proof.
  revert dst src m. induction n as [|n IH]; intros dst src m Hle; cbn [copy_down].
  { rewrite decide_False by lia. done. }
  rewrite IH by lia. destruct (decide (a = dst - 1)) as [->|Hne].
  - rewrite decide_False, decide_True by lia. rewrite fn_lookup_insert. f_equal. lia.
  - rewrite (fn_lookup_insert_ne m (dst - 1) a) by done. case_decide as H1.
    + rewrite decide_True by lia. rewrite fn_lookup_insert_ne by lia. f_equal. lia.
    + by rewrite decide_False by lia.
Qed.

(** The user library's memmove() copies the old contents also when the ranges
    overlap, in either direction. *)
Lemma memmove_copies dst src n m a :
  0 ≤ n → memmove dst src n m a = if decide (dst ≤ a < dst + n) then m (a - dst + src) else m a.
Proof.
  intros Hn. unfold memmove. destruct (Z.ltb_spec dst src).
  - rewrite copy_up_spec, Z2Nat.id by done. done.
  - rewrite copy_down_spec by lia. rewrite Z2Nat.id by done. replace (dst + n - n) with dst by lia.
    case_decide; [f_equal; lia|done].
Qed.

(** memcpy() of a length that is negative as an int copies nothing. *)
Lemma memcpy_large dst src n m : 2 ^ 31 ≤ n < 2 ^ 32 → memcpy dst src n m = m.
Proof.
  intros Hn. unfold memcpy. assert (s32 n < 0) as Hs.
  { unfold s32, sext, wrap. rewrite Z.mod_small by lia. change (2 ^ (32 - 1)) with (2 ^ 31). destruct (Z.ltb_spec n (2 ^ 31)); lia. }
  unfold memmove. assert (Z.to_nat (s32 n) = O) as -> by lia. by destruct (_ <? _).
Qed.
