(* ===== verification/Boot.v ===== *)
(** kernel/start.c, kernel/plic.c, the register accessors of kernel/riscv.h, the
    timer vector of kernel/kernelvec.S and the per-hart part of kernel/main.c:
    how a hart gets from machine mode to the kernel, and how its timer and
    device interrupts are set up.

    A hart is its control and status registers, its integer registers, the
    program counter, the privilege mode and the memory-mapped cells the code
    touches (64-bit cells of the CLINT and of timer_scratch, 32-bit registers
    of the PLIC).  Reads and writes of control registers follow the privileged
    architecture: sstatus, sie and sip are views of mstatus, mie and mip, an
    access from too low a mode is an illegal instruction.  What an
    implementation may choose (the bits that can be delegated, the visible
    bits of sstatus) and where the linker places the symbols are parameters. *)

From stdpp Require Export functions.
From S2P Require Import Prelude Riscv Trap.
Local Open Scope Z_scope.

(** ** The hart *)

Inductive csr : Type :=
| Mhartid | Mstatus | Mepc | Medeleg | Mideleg | Mie | Mip | Mtvec | Mscratch | Mcounteren | Pmpcfg0 | Pmpaddr0
| Sstatus | Sie | Sip | Sepc | Stvec | Satp | Sscratch | Scause | Stval | Time.

#[export] Instance csr_eq_dec : EqDecision csr.
Proof. solve_decision. Defined.

(** The modes, with the encoding that mstatus.MPP uses. *)
Definition U_MODE : Z := 0.
Definition S_MODE : Z := 1.
Definition M_MODE : Z := 3.

Record hart : Type := Hart {
  h_csr : csr → Z;
  h_reg : Z → Z;
  h_pc : Z;
  h_priv : Z;
  h_dw : Z → Z;
  h_w : Z → Z;
}.

Inductive hart_err : Type := Illegal (c : csr).
Notation H := (M hart_err hart).

Definition set_csr (c : csr) (x : Z) (h : hart) : hart :=
  Hart (<[c := x]> (h_csr h)) (h_reg h) (h_pc h) (h_priv h) (h_dw h) (h_w h).
Definition set_reg (r x : Z) (h : hart) : hart :=
  Hart (h_csr h) (<[r := x]> (h_reg h)) (h_pc h) (h_priv h) (h_dw h) (h_w h).
Definition jump (pc priv : Z) (h : hart) : hart :=
  Hart (h_csr h) (h_reg h) pc priv (h_dw h) (h_w h).
Definition set_dw (a x : Z) (h : hart) : hart :=
  Hart (h_csr h) (h_reg h) (h_pc h) (h_priv h) (<[a := x]> (h_dw h)) (h_w h).
Definition set_w (a x : Z) (h : hart) : hart :=
  Hart (h_csr h) (h_reg h) (h_pc h) (h_priv h) (h_dw h) (<[a := x]> (h_w h)).

(** What the implementation fixes. *)
Class Isa : Type := {
  ideleg_mask : Z;    (* the interrupts that can be delegated *)
  edeleg_mask : Z;    (* the exceptions that can be delegated *)
  sstatus_mask : Z;   (* the fields of mstatus that sstatus shows *)
}.

(** Where the linker puts the symbols the code takes the address of. *)
Class Symbols : Type := {
  main_addr : Z;
  timervec_addr : Z;
  kernelvec_addr : Z;
  timer_scratch : Z;
}.

Section hart.
Context {I : Isa}.

(** The lowest mode that may access a register, and whether it can be written. *)
Definition csr_priv (c : csr) : Z :=
  match c with
  | Sstatus | Sie | Sip | Sepc | Stvec | Satp | Sscratch | Scause | Stval => S_MODE
  | Time => U_MODE
  | _ => M_MODE
  end.
Definition read_only (c : csr) : bool := match c with Mhartid | Time => true | _ => false end.

(** [x] in the bits of [mask], [old] in the others *)
Definition masked (old x mask : Z) : Z := Z.lor (Z.ldiff old mask) (Z.land x mask).

Definition csr_read (c : csr) (h : hart) : Z :=
  match c with
  | Sstatus => Z.land (h_csr h Mstatus) sstatus_mask
  | Sie => Z.land (h_csr h Mie) (h_csr h Mideleg)
  | Sip => Z.land (h_csr h Mip) (h_csr h Mideleg)
  | _ => h_csr h c
  end.

(** Only the software bit of sip can be written. *)
Definition csr_write (c : csr) (x : Z) (h : hart) : hart :=
  match c with
  | Sstatus => set_csr Mstatus (masked (h_csr h Mstatus) x sstatus_mask) h
  | Sie => set_csr Mie (masked (h_csr h Mie) x (h_csr h Mideleg)) h
  | Sip => set_csr Mip (masked (h_csr h Mip) x (Z.land (h_csr h Mideleg) 2)) h
  | Mideleg => set_csr Mideleg (Z.land x ideleg_mask) h
  | Medeleg => set_csr Medeleg (Z.land x edeleg_mask) h
  | Mepc | Sepc => set_csr c (Z.ldiff x 1) h
  | _ => set_csr c x h
  end.

(** The instructions csrr and csrw. *)
Definition csrr (c : csr) : H Z :=
  h ← get;
  if h_priv h <? csr_priv c then fail (Illegal c) else mret (csr_read c h).
Definition csrw (c : csr) (x : Z) : H unit :=
  h ← get;
  if (h_priv h <? csr_priv c) || read_only c then fail (Illegal c) else modify (csr_write c x).

(** mret: back to the mode in MPP, at mepc *)
Definition MIE_BIT : Z := 3.
Definition MPIE_BIT : Z := 7.
Definition MPP_SHIFT : Z := 11.
Definition put_bit (x i : Z) (b : bool) : Z := if b then Z.setbit x i else Z.clearbit x i.
Definition put_mpp (x mode : Z) : Z := masked x (Z.shiftl mode MPP_SHIFT) (Z.shiftl 3 MPP_SHIFT).
Definition get_mpp (x : Z) : Z := Z.land (Z.shiftr x MPP_SHIFT) 3.
Definition mret_hart (h : hart) : hart :=
  let st := h_csr h Mstatus in
  let st' := put_mpp (put_bit (put_bit st MIE_BIT (Z.testbit st MPIE_BIT)) MPIE_BIT true) U_MODE in
  jump (h_csr h Mepc) (get_mpp st) (set_csr Mstatus st' h).
Definition mret_ : H unit := modify mret_hart.

(** The trap into machine mode for a timer interrupt: it is taken in a lower
    mode when it is enabled in mie and not delegated. *)
Definition mti_taken (h : hart) : bool :=
  (h_priv h <? M_MODE) && Z.testbit (h_csr h Mie) 7 && negb (Z.testbit (h_csr h Mideleg) 7).
Definition enter_mti (h : hart) : hart :=
  let st := h_csr h Mstatus in
  let st' := put_mpp (put_bit (put_bit st MPIE_BIT (Z.testbit st MIE_BIT)) MIE_BIT false) (h_priv h) in
  jump (Z.ldiff (h_csr h Mtvec) 3) M_MODE (set_csr Mepc (Z.ldiff (h_pc h) 1) (set_csr Mstatus st' h)).

(** ** kernel/riscv.h *)

Definition MSTATUS_MPP_MASK : Z := Z.shiftl 3 11.
Definition MSTATUS_MPP_M : Z := Z.shiftl 3 11.
Definition MSTATUS_MPP_S : Z := Z.shiftl 1 11.
Definition MSTATUS_MPP_U : Z := Z.shiftl 0 11.
Definition MSTATUS_MIE : Z := Z.shiftl 1 3.
Definition SSTATUS_SIE : Z := Z.shiftl 1 1.
Definition SIE_SEIE : Z := Z.shiftl 1 9.
Definition SIE_STIE : Z := Z.shiftl 1 5.
Definition SIE_SSIE : Z := Z.shiftl 1 1.
Definition MIE_MEIE : Z := Z.shiftl 1 11.
Definition MIE_MTIE : Z := Z.shiftl 1 7.
Definition MIE_MSIE : Z := Z.shiftl 1 3.

Definition r_mhartid : H Z := csrr Mhartid.
Definition r_mstatus : H Z := csrr Mstatus.
Definition w_mstatus (x : Z) : H unit := csrw Mstatus x.
Definition w_mepc (x : Z) : H unit := csrw Mepc x.
Definition r_sstatus : H Z := csrr Sstatus.
Definition w_sstatus (x : Z) : H unit := csrw Sstatus x.
Definition r_sip : H Z := csrr Sip.
Definition w_sip (x : Z) : H unit := csrw Sip x.
Definition r_sie : H Z := csrr Sie.
Definition w_sie (x : Z) : H unit := csrw Sie x.
Definition r_mie : H Z := csrr Mie.
Definition w_mie (x : Z) : H unit := csrw Mie x.
Definition r_sepc : H Z := csrr Sepc.
Definition w_sepc (x : Z) : H unit := csrw Sepc x.
Definition r_medeleg : H Z := csrr Medeleg.
Definition w_medeleg (x : Z) : H unit := csrw Medeleg x.
Definition r_mideleg : H Z := csrr Mideleg.
Definition w_mideleg (x : Z) : H unit := csrw Mideleg x.
Definition r_stvec : H Z := csrr Stvec.
Definition w_stvec (x : Z) : H unit := csrw Stvec x.
Definition w_mtvec (x : Z) : H unit := csrw Mtvec x.
Definition w_pmpcfg0 (x : Z) : H unit := csrw Pmpcfg0 x.
Definition w_pmpaddr0 (x : Z) : H unit := csrw Pmpaddr0 x.
Definition r_satp : H Z := csrr Satp.
Definition w_satp (x : Z) : H unit := csrw Satp x.
Definition w_sscratch (x : Z) : H unit := csrw Sscratch x.
Definition w_mscratch (x : Z) : H unit := csrw Mscratch x.
Definition r_scause : H Z := csrr Scause.
Definition r_stval : H Z := csrr Stval.
Definition w_mcounteren (x : Z) : H unit := csrw Mcounteren x.
Definition r_mcounteren : H Z := csrr Mcounteren.
Definition r_time : H Z := csrr Time.

Definition intr_on : H unit := x ← r_sstatus; w_sstatus (Z.lor x SSTATUS_SIE).
Definition intr_off : H unit := x ← r_sstatus; w_sstatus (Z.land x (Z.lnot SSTATUS_SIE)).
Definition intr_get : H bool := x ← r_sstatus; mret (has x SSTATUS_SIE).

(** The integer registers, by number. *)
Definition X_ra : Z := 1.
Definition X_sp : Z := 2.
Definition X_tp : Z := 4.
Definition X_a0 : Z := 10.
Definition X_a1 : Z := 11.
Definition X_a2 : Z := 12.
Definition X_a3 : Z := 13.
Definition reg (r : Z) : H Z := gets (λ h, h_reg h r).
Definition wreg (r x : Z) : H unit := modify (set_reg r x).

Definition r_sp : H Z := reg X_sp.
Definition r_tp : H Z := reg X_tp.
Definition w_tp (x : Z) : H unit := wreg X_tp x.
Definition r_ra : H Z := reg X_ra.

(** ** kernel/memlayout.h *)

Definition CLINT : Z := 0x2000000.
Definition CLINT_MTIMECMP (hartid : Z) : Z := CLINT + 0x4000 + 8 * hartid.
Definition CLINT_MTIME : Z := CLINT + 0xBFF8.
Definition PLIC_SENABLE (hart : Z) : Z := PLIC + 0x2080 + hart * 0x100.
Definition PLIC_SPRIORITY (hart : Z) : Z := PLIC + 0x201000 + hart * 0x2000.
Definition PLIC_SCLAIM (hart : Z) : Z := PLIC + 0x201004 + hart * 0x2000.

(** Loads and stores of the cells. *)
Definition ld64 (a : Z) : H Z := gets (λ h, h_dw h a).
Definition sd64 (a x : Z) : H unit := modify (set_dw a x).
Definition st32 (a x : Z) : H unit := modify (set_w a x).

(** ** kernel/start.c *)

Context {Y : Symbols}.

(** &timer_scratch[id][i], an array of NCPU rows of five uint64 *)
Definition scratch_at (id i : Z) : Z := timer_scratch + 40 * id + 8 * i.

(** int interval *)
Definition interval : Z := 1000000.

Definition timerinit : H unit :=
  id ← r_mhartid;
  let id := s32 id in
  now ← ld64 CLINT_MTIME;
  sd64 (CLINT_MTIMECMP id) (u64 (now + interval));;
  let scratch := scratch_at id 0 in
  sd64 (scratch + 8 * 3) (CLINT_MTIMECMP id);;
  sd64 (scratch + 8 * 4) interval;;
  w_mscratch scratch;;
  w_mtvec timervec_addr;;
  x ← r_mstatus;
  w_mstatus (Z.lor x MSTATUS_MIE);;
  x ← r_mie;
  w_mie (Z.lor x MIE_MTIE).

Definition start : H unit :=
  x ← r_mstatus;
  let x := Z.land x (Z.lnot MSTATUS_MPP_MASK) in
  let x := Z.lor x MSTATUS_MPP_S in
  w_mstatus x;;
  w_mepc main_addr;;
  w_satp 0;;
  w_medeleg 0xffff;;
  w_mideleg 0xffff;;
  x ← r_sie;
  w_sie (Z.lor (Z.lor (Z.lor x SIE_SEIE) SIE_STIE) SIE_SSIE);;
  w_pmpaddr0 0x3fffffffffffff;;
  w_pmpcfg0 0xf;;
  timerinit;;
  id ← r_mhartid;
  w_tp (s32 id);;
  mret_.

(** ** kernel/kernelvec.S: timervec *)

(** The instructions it uses; csrrw swaps a register with a control register. *)
Definition csrrw (rd : Z) (c : csr) (rs : Z) : H unit :=
  old ← csrr c;
  v ← reg rs;
  csrw c v;;
  wreg rd old.
Definition sd (rs off base : Z) : H unit := b ← reg base; v ← reg rs; sd64 (b + off) v.
Definition ld (rd off base : Z) : H unit := b ← reg base; v ← ld64 (b + off); wreg rd v.

Definition timervec : H unit :=
  csrrw X_a0 Mscratch X_a0;;
  sd X_a1 0 X_a0;;
  sd X_a2 8 X_a0;;
  sd X_a3 16 X_a0;;
  ld X_a1 24 X_a0;;
  ld X_a2 32 X_a0;;
  ld X_a3 0 X_a1;;
  x ← reg X_a3; y ← reg X_a2; wreg X_a3 (u64 (x + y));;
  sd X_a3 0 X_a1;;
  wreg X_a1 2;;
  x ← reg X_a1; csrw Sip x;;
  ld X_a3 16 X_a0;;
  ld X_a2 8 X_a0;;
  ld X_a1 0 X_a0;;
  csrrw X_a0 Mscratch X_a0;;
  mret_.

(** The end of the timer case of devintr() in kernel/trap.c. *)
Definition ack_timer : H unit := x ← r_sip; w_sip (Z.land x (Z.lnot 2)).

(** ** kernel/plic.c *)

Definition cpuid : H Z := x ← r_tp; mret (s32 x).

Definition plicinit : H unit :=
  st32 (PLIC + UART0_IRQ * 4) 1;;
  st32 (PLIC + VIRTIO0_IRQ * 4) 1.

Definition plicinithart : H unit :=
  hart ← cpuid;
  st32 (PLIC_SENABLE hart) (Z.lor (Z.shiftl 1 UART0_IRQ) (Z.shiftl 1 VIRTIO0_IRQ));;
  st32 (PLIC_SPRIORITY hart) 0.

(** [plic_read]: a load from a claim register, which also changes the state of
    the controller *)
Definition read_claim (plic_read : Z → (Z → Z) → Z * (Z → Z)) (a : Z) : H Z := λ h,
  let '(v, w) := plic_read a (h_w h) in
  Ok v (Hart (h_csr h) (h_reg h) (h_pc h) (h_priv h) (h_dw h) w).
Definition plic_claim (plic_read : Z → (Z → Z) → Z * (Z → Z)) : H Z :=
  hart ← cpuid;
  irq ← read_claim plic_read (PLIC_SCLAIM hart);
  mret (s32 irq).

Definition plic_complete (irq : Z) : H unit :=
  hart ← cpuid;
  st32 (PLIC_SCLAIM hart) (u32 irq).

(** The part of devintr() in kernel/trap.c that talks to the controller: serve
    [n] interrupts, and report which ones. *)
Fixpoint serve (plic_read : Z → (Z → Z) → Z * (Z → Z)) (n : nat) : H (list Z) :=
  match n with
  | O => mret []
  | S n =>
      irq ← plic_claim plic_read;
      when (negb (irq =? 0)) (plic_complete irq);;
      l ← serve plic_read n;
      mret (irq :: l)
  end.

(** ** The per-hart part of kernel/main.c *)

Definition kvminithart (kernel_pagetable : Z) : H unit := w_satp (MAKE_SATP kernel_pagetable).
Definition trapinithart : H unit := w_stvec kernelvec_addr.

(** Every hart but the first, once [started] is set; the message it prints is
    left out. *)
Definition main_hart (kernel_pagetable : Z) : H unit :=
  kvminithart kernel_pagetable;;
  trapinithart;;
  plicinithart.

End hart.
