(* ===== verification/BootTheorems.v ===== *)
(** What the boot code of [Boot] guarantees: start() leaves every hart in
    supervisor mode at main() with its timer armed, no code in supervisor or
    user mode can undo that, and the interrupt controller only ever reports the
    two devices the kernel has drivers for. *)

From S2P Require Import Prelude Riscv Trap Boot.
Local Open Scope Z_scope.

(** ** Bits *)

Lemma masked_spec old x mask i :
  0 ≤ i → Z.testbit (masked old x mask) i = if Z.testbit mask i then Z.testbit x i else Z.testbit old i.
Proof.
  intros Hi. unfold masked. rewrite Z.lor_spec, Z.ldiff_spec, Z.land_spec.
  destruct (Z.testbit mask i), (Z.testbit x i), (Z.testbit old i); done.
Qed.

Lemma put_bit_spec x i b j : 0 ≤ i → 0 ≤ j → Z.testbit (put_bit x i b) j = if decide (i = j) then b else Z.testbit x j.
Proof.
  intros Hi Hj. unfold put_bit. case_decide as E.
  - subst. destruct b; [by apply Z.setbit_eq|apply Z.clearbit_eq].
  - destruct b; [by apply Z.setbit_neq|by apply Z.clearbit_neq].
Qed.

(** The four modes of the field, as two bits. *)
Lemma mode_high m i : 0 ≤ m < 4 → 2 ≤ i → Z.testbit m i = false.
Proof.
  intros Hm Hi. destruct (decide (m = 0)) as [->|]; [apply Z.testbit_0_l|]. apply Z.bits_above_log2; [lia|].
  assert (Z.log2 m ≤ Z.log2 3) as Hl by (apply Z.log2_le_mono; lia). change (Z.log2 3) with 1 in Hl. lia.
Qed.

Lemma mpp_mask i : 0 ≤ i → Z.testbit (Z.shiftl 3 MPP_SHIFT) i = bool_decide (i = 11 ∨ i = 12).
Proof.
  intros Hi. rewrite Z.shiftl_spec by done. unfold MPP_SHIFT. case_bool_decide as E.
  - by destruct E as [-> | ->].
  - destruct (decide (i < 11)); [by apply Z.testbit_neg_r; lia|]. apply mode_high; lia.
Qed.

Lemma put_mpp_spec x m i :
  0 ≤ i → Z.testbit (put_mpp x m) i = if bool_decide (i = 11 ∨ i = 12) then Z.testbit m (i - 11) else Z.testbit x i.
Proof. intros Hi. unfold put_mpp. rewrite masked_spec, mpp_mask, Z.shiftl_spec by done. done. Qed.

(** The mode mret returns to is the one in bits 11 and 12. *)
Lemma get_mpp_bits x m :
  0 ≤ m < 4 → Z.testbit x 11 = Z.testbit m 0 → Z.testbit x 12 = Z.testbit m 1 → get_mpp x = m.
Proof.
  intros Hm H0 H1. apply Z.bits_inj'. intros i Hi. unfold get_mpp. rewrite Z.land_spec, Z.shiftr_spec by done. unfold MPP_SHIFT.
  destruct (decide (i = 0)) as [->|]; [change (0 + 11) with 11; by rewrite H0, andb_true_r|].
  destruct (decide (i = 1)) as [->|]; [change (1 + 11) with 12; by rewrite H1, andb_true_r|].
  rewrite (mode_high 3), (mode_high m) by lia. apply andb_false_r.
Qed.

Lemma lor_bit x k i : 0 ≤ k → 0 ≤ i → Z.testbit (Z.lor x (Z.shiftl 1 k)) i = bool_decide (i = k) || Z.testbit x i.
Proof.
  intros Hk Hi. rewrite Z.lor_spec, orb_comm. f_equal. rewrite Z.shiftl_spec by done. case_bool_decide as E.
  - subst. by rewrite Z.sub_diag.
  - destruct (decide (i < k)); [by apply Z.testbit_neg_r; lia|]. apply Z.bits_above_log2; [done|]. change (Z.log2 1) with 0. lia.
Qed.

(** ** Accesses *)

(** What the boot code relies on: the supervisor interrupts can be delegated,
    the machine timer interrupt cannot, and sstatus shows no machine-mode
    field. *)
Class IsaOk (I : Isa) : Prop := {
  ideleg_s : Z.testbit ideleg_mask 1 = true ∧ Z.testbit ideleg_mask 5 = true ∧ Z.testbit ideleg_mask 9 = true;
  ideleg_mti : Z.testbit ideleg_mask 7 = false;
  sstatus_m : Z.testbit sstatus_mask 3 = false ∧ Z.testbit sstatus_mask 7 = false ∧
    Z.testbit sstatus_mask 11 = false ∧ Z.testbit sstatus_mask 12 = false;
}.

(** Functions are aligned, and the kernel's data is in RAM, above the devices. *)
Class SymbolsOk (Y : Symbols) : Prop := {
  main_even : Z.ldiff main_addr 1 = main_addr;
  timervec_aligned : Z.ldiff timervec_addr 3 = timervec_addr;
  scratch_ram : KERNBASE ≤ timer_scratch;
}.

(** The fields of a state that was reached by such accesses. *)
Ltac hfields := cbn [csr_read csr_write mret_hart enter_mti h_csr h_reg h_dw h_w h_pc h_priv set_csr set_reg set_dw set_w jump];
  repeat (rewrite fn_lookup_insert || rewrite fn_lookup_insert_ne by discriminate).

Section boot.
Context {I : Isa} {Y : Symbols} {IO : IsaOk I} {YO : SymbolsOk Y}.

Lemma csrr_ok c h : csr_priv c ≤ h_priv h → csrr c h = Ok (csr_read c h) h.
Proof. intros Hp. unfold csrr, get, mbind, M_bind. by rewrite (proj2 (Z.ltb_ge _ _) Hp). Qed.

Lemma csrw_ok c x h : csr_priv c ≤ h_priv h → read_only c = false → csrw c x h = Ok tt (csr_write c x h).
Proof. intros Hp Hr. unfold csrw, get, mbind, M_bind. by rewrite (proj2 (Z.ltb_ge _ _) Hp), Hr. Qed.

Lemma csr_write_priv c x h : h_priv (csr_write c x h) = h_priv h.
Proof. by destruct c. Qed.
Lemma csr_write_dw c x h : h_dw (csr_write c x h) = h_dw h.
Proof. by destruct c. Qed.
Lemma csr_write_reg c x h : h_reg (csr_write c x h) = h_reg h.
Proof. by destruct c. Qed.

(** ** The timer *)

(** The hart is ready to take its timer interrupts in machine mode and to turn
    them into software interrupts of the supervisor. *)
Record timer_ok (id : Z) (h : hart) : Prop := {
  tm_id : h_csr h Mhartid = id;
  tm_scratch : h_csr h Mscratch = scratch_at id 0;
  tm_vec : h_csr h Mtvec = timervec_addr;
  tm_cmp : h_dw h (scratch_at id 3) = CLINT_MTIMECMP id;
  tm_interval : h_dw h (scratch_at id 4) = interval;
  tm_mie : Z.testbit (h_csr h Mie) 7 = true;
  tm_mideleg : Z.testbit (h_csr h Mideleg) 7 = false;
  tm_ssip : Z.testbit (h_csr h Mideleg) 1 = true;
}.

(** The cells timervec and timerinit() of hart [id] write. *)
Definition timer_cell (id a : Z) : Prop := a = CLINT_MTIMECMP id ∨ ∃ i, 0 ≤ i < 5 ∧ a = scratch_at id i.

Lemma scratch_ne id i : 0 ≤ id < 8 → 0 ≤ i → scratch_at id i ≠ CLINT_MTIMECMP id.
Proof using YO.
  intros Hid Hi. pose proof scratch_ram as Hr. unfold KERNBASE in Hr. unfold scratch_at, CLINT_MTIMECMP, CLINT. lia.
Qed.

(** Running straight-line code: each access takes the next state. *)
Lemma bind_csrr {B} c (k : Z → H B) h : csr_priv c ≤ h_priv h → (csrr c ≫= k) h = k (csr_read c h) h.
Proof. intros Hp. unfold mbind, M_bind. by rewrite csrr_ok. Qed.
Lemma bind_csrw {B} c x (k : unit → H B) h :
  csr_priv c ≤ h_priv h → read_only c = false → (csrw c x ≫= k) h = k tt (csr_write c x h).
Proof. intros Hp Hr. unfold mbind, M_bind. by rewrite csrw_ok. Qed.
Ltac mode_ok := repeat (rewrite csr_write_priv || cbn [h_priv set_csr set_reg set_dw set_w jump enter_mti]);
  match goal with Hp : h_priv _ = _ |- _ => rewrite Hp | _ => idtac end; by vm_compute.
Ltac hone := cbv beta zeta;
  first [ rewrite bind_csrr by mode_ok | rewrite bind_csrw by first [reflexivity|mode_ok]
        | rewrite bind_modify | rewrite bind_gets | rewrite bind_assoc ].
Ltac hrun := repeat hone.

(** The interrupts that start() enables in mie, through sie and then directly. *)
Definition enabled (mie deleg : Z) : Z :=
  Z.lor (masked mie (Z.lor (Z.lor (Z.lor (Z.land mie deleg) SIE_SEIE) SIE_STIE) SIE_SSIE) deleg) MIE_MTIE.

Lemma enabled_spec mie deleg i :
  0 ≤ i → Z.testbit deleg i = true ∧ i ∈ [1; 5; 9] ∨ i = 7 → Z.testbit (enabled mie deleg) i = true.
Proof.
  intros Hi Hc. unfold enabled, MIE_MTIE, SIE_SEIE, SIE_STIE, SIE_SSIE. rewrite lor_bit by lia. destruct Hc as [[Hd Hc]| ->]; [|done].
  rewrite masked_spec, Hd, !lor_bit by lia. set_unfold in Hc. destruct Hc as [->|[->|[->|[]]]]; cbn; by rewrite ?orb_true_r.
Qed.

(** The mode in mstatus for mret. *)
Lemma mpp_supervisor x :
  get_mpp (Z.lor (Z.lor (Z.land x (Z.lnot MSTATUS_MPP_MASK)) MSTATUS_MPP_S) MSTATUS_MIE) = S_MODE.
Proof.
  apply get_mpp_bits; [done|..]; unfold MSTATUS_MIE, MSTATUS_MPP_S; rewrite !lor_bit by lia; cbn -[Z.testbit].
  - done.
  - rewrite Z.land_spec, Z.lnot_spec by lia. apply andb_false_r.
Qed.

(** The state start() leaves a hart in. *)
Record started (id : Z) (h h' : hart) : Prop := {
  sd_timer : timer_ok id h';
  sd_mode : h_priv h' = S_MODE;
  sd_pc : h_pc h' = main_addr;
  sd_satp : h_csr h' Satp = 0;
  sd_sie : ∀ i, i ∈ [1; 5; 9] → Z.testbit (csr_read Sie h') i = true;
  sd_deleg : h_csr h' Medeleg = Z.land 0xffff edeleg_mask ∧ h_csr h' Mideleg = Z.land 0xffff ideleg_mask;
  sd_pmp : h_csr h' Pmpaddr0 = 0x3fffffffffffff ∧ h_csr h' Pmpcfg0 = 0xf;
  sd_regs : h_reg h' = <[X_tp := id]> (h_reg h);
  sd_mtimecmp : h_dw h' (CLINT_MTIMECMP id) = u64 (h_dw h CLINT_MTIME + interval);
  sd_cells : ∀ a, ¬ timer_cell id a → h_dw h' a = h_dw h a;
  sd_plic : h_w h' = h_w h;
}.

Lemma start_run id h : 0 ≤ id < 8 → h_priv h = M_MODE → h_csr h Mhartid = id → ∃ h', start h = Ok tt h' ∧ started id h h'.
Proof using All.
  intros Hid Hp Hh. unfold start, timerinit, r_mstatus, w_mstatus, w_mepc, w_satp, w_medeleg, w_mideleg, r_sie, w_sie, w_pmpaddr0,
    w_pmpcfg0, r_mhartid, w_mscratch, w_mtvec, r_mie, w_mie, w_tp, wreg, mret_, ld64, sd64.
  assert (Es : s32 id = id) by (unfold s32, sext, wrap; rewrite Z.mod_small by lia; by rewrite (proj2 (Z.ltb_lt _ _)) by (cbn; lia)).
  destruct ideleg_s as (D1 & D5 & D9). pose proof ideleg_mti as D7.
  pose proof (scratch_ne id 3 Hid ltac:(lia)) as N3. pose proof (scratch_ne id 4 Hid ltac:(lia)) as N4.
  eexists. split; [hrun; unfold modify; reflexivity|].
  hfields. rewrite !Hh, !Es.
  replace (scratch_at id 0 + 8 * 3) with (scratch_at id 3) by (unfold scratch_at; lia).
  replace (scratch_at id 0 + 8 * 4) with (scratch_at id 4) by (unfold scratch_at; lia).
  assert (Hdeleg : ∀ i, i ∈ [1; 5; 7; 9] → Z.testbit (Z.land 65535 ideleg_mask) i = Z.testbit ideleg_mask i).
  { intros i Hi. rewrite Z.land_spec. set_unfold in Hi. by destruct Hi as [->|[->|[->|[->|[]]]]]. }
  set (deleg := Z.land 65535 ideleg_mask) in *. fold (enabled (h_csr h Mie) deleg).
  split; hfields; try done.
  - split; hfields; try done.
    + by rewrite fn_lookup_insert_ne, fn_lookup_insert by (unfold scratch_at; lia).
    + by apply enabled_spec; [lia|right].
    + rewrite Hdeleg by set_solver. done.
    + rewrite Hdeleg by set_solver. done.
  - apply mpp_supervisor.
  - apply main_even.
  - intros i Hi. rewrite Z.land_spec. assert (Z.testbit deleg i = true) as Hb.
    { rewrite Hdeleg by set_solver. set_unfold in Hi. by destruct Hi as [->|[->|[->|[]]]]. }
    rewrite Hb, enabled_spec; [done| |by left]. set_unfold in Hi. lia.
  - by rewrite !fn_lookup_insert_ne, fn_lookup_insert by done.
  - intros a Ha. rewrite !fn_lookup_insert_ne; [done|..]; intros <-; apply Ha; [by left|right; exists 3; lia|right; exists 4; lia].
Qed.

(** mstatus across the trap and the mret at its end. *)
Definition trap_status (st mode : Z) : Z := put_mpp (put_bit (put_bit st MPIE_BIT (Z.testbit st MIE_BIT)) MIE_BIT false) mode.
Definition mret_status (st : Z) : Z := put_mpp (put_bit (put_bit st MIE_BIT (Z.testbit st MPIE_BIT)) MPIE_BIT true) U_MODE.

Lemma trap_mode st mode : 0 ≤ mode < 4 → get_mpp (trap_status st mode) = mode.
Proof. intros Hm. apply get_mpp_bits; [done|..]; unfold trap_status; by rewrite put_mpp_spec. Qed.

Lemma trap_sstatus st mode : Z.land (mret_status (trap_status st mode)) sstatus_mask = Z.land st sstatus_mask.
Proof using IO.
  destruct sstatus_m as (S3 & S7 & S11 & S12). apply Z.bits_inj'. intros i Hi. rewrite !Z.land_spec.
  destruct (Z.testbit sstatus_mask i) eqn:E; [|by rewrite !andb_false_r]. f_equal.
  assert (i ≠ 3 ∧ i ≠ 7 ∧ i ≠ 11 ∧ i ≠ 12) as (?&?&?&?) by (split_and!; congruence).
  unfold mret_status, trap_status, MIE_BIT, MPIE_BIT.
  repeat first [rewrite put_mpp_spec by done|rewrite bool_decide_false by lia|rewrite put_bit_spec by done|rewrite decide_False by done]. done.
Qed.

Lemma two_bits i : 0 ≤ i → i ≠ 1 → Z.testbit 2 i = false.
Proof. intros Hi Hne. destruct (decide (i = 0)) as [->|]; [done|]. apply mode_high; lia. Qed.

(** What a timer interrupt does to a hart in supervisor or user mode: the code it
    interrupts goes on where it was, with every register and every supervisor
    field as it was, except that its software interrupt is now pending. *)
Record ticked (id : Z) (h h' : hart) : Prop := {
  tk_mode : h_priv h' = h_priv h;
  tk_pc : h_pc h' = h_pc h;
  tk_regs : ∀ r, h_reg h' r = h_reg h r;
  tk_timer : timer_ok id h';
  tk_next : h_dw h' (CLINT_MTIMECMP id) = u64 (h_dw h (CLINT_MTIMECMP id) + interval);
  tk_ssip : Z.testbit (csr_read Sip h') 1 = true;
  tk_sip : ∀ i, 0 ≤ i → i ≠ 1 → Z.testbit (csr_read Sip h') i = Z.testbit (csr_read Sip h) i;
  tk_sstatus : csr_read Sstatus h' = csr_read Sstatus h;
  tk_csrs : ∀ c, c ∉ [Mstatus; Mepc; Mip] → h_csr h' c = h_csr h c;
  tk_cells : ∀ a, ¬ timer_cell id a → h_dw h' a = h_dw h a;
  tk_plic : h_w h' = h_w h;
}.

Lemma tick_run id h :
  0 ≤ id < 8 → h_priv h = S_MODE ∨ h_priv h = U_MODE → Z.ldiff (h_pc h) 1 = h_pc h → timer_ok id h →
  mti_taken h = true ∧ ∃ h', timervec (enter_mti h) = Ok tt h' ∧ ticked id h h'.
Proof using All.
  intros Hid Hp Hpc T. pose proof (scratch_ne id) as N. split.
  { unfold mti_taken. rewrite (tm_mie _ _ T), (tm_mideleg _ _ T). by destruct Hp as [-> | ->]. }
  assert (∃ sc, sc = scratch_at id 0) as [sc Hsc] by eauto. assert (∃ C, C = CLINT_MTIMECMP id) as [C HC] by eauto.
  assert (Hlt : C < 2 ^ 31 ≤ sc).
  { pose proof scratch_ram as Hr. unfold KERNBASE in Hr. rewrite HC, Hsc. unfold scratch_at, CLINT_MTIMECMP, CLINT. lia. }
  assert (M0 : h_csr h Mscratch = sc) by (rewrite Hsc; apply T).
  assert (M3 : h_dw h (sc + 24) = C) by (rewrite Hsc, HC, <-(tm_cmp _ _ T); unfold scratch_at; f_equal; lia).
  assert (M4 : h_dw h (sc + 32) = interval) by (rewrite Hsc, <-(tm_interval _ _ T); unfold scratch_at; f_equal; lia).
  unfold timervec, csrrw, sd, ld, reg, wreg, sd64, ld64, mret_, X_a0, X_a1, X_a2, X_a3. eexists. split.
  - repeat (hone; hfields; rewrite ?fn_lookup_insert_ne by lia; rewrite ?M0, ?M3, ?M4). unfold modify. reflexivity.
  - rewrite !Z.add_0_r. hfields. split; hfields; try done.
    + apply trap_mode. by destruct Hp as [-> | ->].
    + intros r. destruct (decide (r = 10)) as [->|]; [by hfields|]. destruct (decide (r = 11)) as [->|]; [by hfields|].
      destruct (decide (r = 12)) as [->|]; [by hfields|]. destruct (decide (r = 13)) as [->|]; [by hfields|].
      by rewrite !fn_lookup_insert_ne by congruence.
    + destruct T. subst sc C. split; hfields; rewrite ?fn_lookup_insert_ne by (unfold scratch_at in *; lia); done.
    + by rewrite <-HC, fn_lookup_insert.
    + rewrite Z.land_spec, masked_spec, Z.land_spec, (tm_ssip _ _ T) by lia. done.
    + intros i Hi Hne. rewrite !Z.land_spec, masked_spec, Z.land_spec by done. rewrite (two_bits i) by done. by rewrite andb_false_r.
    + apply trap_sstatus.
    + intros c Hc. assert (c ≠ Mstatus ∧ c ≠ Mepc ∧ c ≠ Mip) as (?&?&?) by set_solver.
      destruct (decide (c = Mscratch)) as [->|]; [by hfields|]. by rewrite !fn_lookup_insert_ne by congruence.
    + intros a Ha. rewrite !fn_lookup_insert_ne; [done|..]; intros <-; apply Ha; subst sc C; [right; exists 0|right; exists 1|right; exists 2|by left];
        unfold scratch_at; lia.
Qed.

(** ** Supervisor and user mode cannot disturb the timer *)

(** What a hart may do after start(): any instruction of supervisor or user mode
    (a write to a control register that is not an illegal instruction, to a
    register, to a memory cell that is not one of the timer's, a jump, also to
    the other of the two modes), the devices raising or lowering interrupts, and
    timer interrupts. *)
Inductive low_step (id : Z) : hart → hart → Prop :=
| LCsr c x h h' : csrw c x h = Ok tt h' → low_step id h h'
| LReg r x h : low_step id h (set_reg r x h)
| LJump pc mode h : mode = S_MODE ∨ mode = U_MODE → Z.ldiff pc 1 = pc → low_step id h (jump pc mode h)
| LStore a x h : ¬ timer_cell id a → low_step id h (set_dw a x h)
| LPlic a x h : low_step id h (set_w a x h)
| LPend i b h : low_step id h (set_csr Mip (put_bit (h_csr h Mip) i b) h)
| LTick h h' : mti_taken h = true → timervec (enter_mti h) = Ok tt h' → low_step id h h'.

Record low_ok (id : Z) (h : hart) : Prop := {
  lo_timer : timer_ok id h;
  lo_mode : h_priv h = S_MODE ∨ h_priv h = U_MODE;
  lo_pc : Z.ldiff (h_pc h) 1 = h_pc h;
}.

(** A write that is allowed outside machine mode leaves mie.MTIE and the
    machine-mode registers alone. *)
Lemma csrw_low id c x h h' : low_ok id h → csrw c x h = Ok tt h' → low_ok id h'.
Proof.
  intros [T Hm Hpc] E. unfold csrw, get, mbind, M_bind in E. destruct ((h_priv h <? csr_priv c) || read_only c) eqn:Ep; [done|].
  injection E as <-. apply orb_false_elim in Ep as [Ep Er]. apply Z.ltb_ge in Ep.
  assert (csr_priv c ≤ 1) as Hc by (unfold S_MODE, U_MODE in Hm; lia).
  split; [|by rewrite csr_write_priv|by destruct c].
  destruct T. split; destruct c; try done; hfields; try done. rewrite masked_spec by lia. by rewrite tm_mideleg0.
Qed.

Lemma low_step_ok id h h' : 0 ≤ id < 8 → low_ok id h → low_step id h h' → low_ok id h'.
Proof using All.
  intros Hid Hl Hs. pose proof Hl as [T Hm Hpc].
  destruct Hs as [c x h h' E|r x h|pc mode h Hmode Hp|a x h Ha|a x h|i b h|h h' _ E].
  - by eapply csrw_low.
  - split; [|done..]. by destruct T.
  - split; [|done..]. by destruct T.
  - split; [|done..]. destruct T. split; try done; hfields; (rewrite fn_lookup_insert_ne; [done|]); intros ->; apply Ha; right; [exists 3|exists 4]; lia.
  - split; [|done..]. by destruct T.
  - split; [|done..]. destruct T. by split; hfields.
  - destruct (tick_run id h Hid Hm Hpc T) as (_ & h2 & E2 & K). rewrite E2 in E. injection E as <-.
    split; [apply K|by rewrite (tk_mode _ _ _ K)|by rewrite (tk_pc _ _ _ K)].
Qed.

Lemma started_low id h h' : started id h h' → low_ok id h'.
Proof using YO. intros D. split; [apply D|left; apply D|rewrite (sd_pc _ _ _ D); apply main_even]. Qed.

Lemma low_steps_ok id h h' : 0 ≤ id < 8 → low_ok id h → rtc (low_step id) h h' → low_ok id h'.
Proof using All. intros Hid Hl Hs. induction Hs as [|h h1 h' H1 _ IH]; [done|]. by apply IH, (low_step_ok id h). Qed.

(** In supervisor mode the interrupt is acknowledged by clearing its bit. *)
Lemma ack_timer_clears id h :
  low_ok id h → h_priv h = S_MODE →
  ∃ h', ack_timer h = Ok tt h' ∧ low_ok id h' ∧ Z.testbit (csr_read Sip h') 1 = false ∧
    ∀ i, 0 ≤ i → i ≠ 1 → Z.testbit (csr_read Sip h') i = Z.testbit (csr_read Sip h) i.
Proof.
  intros L Hp. unfold ack_timer, r_sip, w_sip. rewrite bind_csrr by mode_ok. rewrite csrw_ok; [|mode_ok|done].
  eexists. split; [done|]. split_and!; [eapply csrw_low, (csrw_ok Sip); [done|mode_ok|done]| |]; hfields.
  - rewrite Z.land_spec, masked_spec, Z.land_spec, (tm_ssip _ _ (lo_timer _ _ L)) by lia.
    change (Z.testbit 2 1) with true. cbn [andb]. by rewrite Z.land_spec, andb_false_r.
  - intros i Hi Hne. rewrite !Z.land_spec, masked_spec, Z.land_spec, two_bits, andb_false_r by done. done.
Qed.

(** ** Interrupts of the supervisor *)

Lemma has_bit x k : 0 ≤ k → has x (Z.shiftl 1 k) = Z.testbit x k.
Proof.
  intros Hk. unfold has. destruct (Z.testbit x k) eqn:E.
  - apply negb_true_iff, Z.eqb_neq. intros H0. assert (Z.testbit (Z.land x (Z.shiftl 1 k)) k = true) as Hb; [|by rewrite H0, Z.testbit_0_l in Hb].
    by rewrite Z.land_spec, E, Z.shiftl_spec, Z.sub_diag by done.
  - apply negb_false_iff, Z.eqb_eq, Z.bits_inj'. intros i Hi. rewrite Z.land_spec, Z.testbit_0_l.
    pose proof (lor_bit 0 k i Hk Hi) as Hl. rewrite Z.lor_0_l, Z.testbit_0_l, orb_false_r in Hl. rewrite Hl.
    case_bool_decide; [subst; by rewrite E|apply andb_false_r].
Qed.

(** intr_get() after intr_on() is true and after intr_off() false, where sstatus
    shows SIE. *)
Lemma intr_switch h :
  Z.testbit sstatus_mask 1 = true → S_MODE ≤ h_priv h →
  (∃ h', (intr_on;; intr_get) h = Ok true h') ∧ (∃ h', (intr_off;; intr_get) h = Ok false h').
Proof.
  intros Hb Hp. unfold intr_on, intr_off, intr_get, r_sstatus, w_sstatus. split; eexists.
  - rewrite bind_assoc, bind_csrr by done. rewrite bind_csrw by done. rewrite bind_csrr by (by rewrite csr_write_priv).
    unfold mret, M_ret. f_equal. unfold SSTATUS_SIE. rewrite has_bit by lia. hfields. by rewrite Z.land_spec, masked_spec, Hb, lor_bit by lia.
  - rewrite bind_assoc, bind_csrr by done. rewrite bind_csrw by done. rewrite bind_csrr by (by rewrite csr_write_priv).
    unfold mret, M_ret. f_equal. unfold SSTATUS_SIE. rewrite has_bit by lia. hfields.
    rewrite Z.land_spec, masked_spec, Hb, Z.land_spec, Z.lnot_spec by lia. change (Z.testbit (Z.shiftl 1 1) 1) with true.
    by rewrite andb_false_r.
Qed.

End boot.

(** ** The interrupt controller *)

(** The enable words of a hart: only the two devices. *)
Definition plic_ready (id : Z) (w : Z → Z) : Prop :=
  w (PLIC_SENABLE id) = 1026 ∧ ∀ k, 0 < k < 32 → w (PLIC_SENABLE id + 4 * k) = 0.

(** What the controller promises: a claim reports 0 or a source that is enabled
    for the hart, and only changes the pending bits. *)
Class PlicOk (plic_read : Z → (Z → Z) → Z * (Z → Z)) : Prop := {
  claim_enabled : ∀ id w, let v := (plic_read (PLIC_SCLAIM id) w).1 in
    v = 0 ∨ 0 < v < 1024 ∧ Z.testbit (w (PLIC_SENABLE id + 4 * (v / 32))) (v mod 32) = true;
  claim_keeps : ∀ id w a, a < PLIC + 0x1000 ∨ PLIC + 0x1080 ≤ a → (plic_read (PLIC_SCLAIM id) w).2 a = w a;
}.

Lemma s32_id x : 0 ≤ x < 2 ^ 31 → s32 x = x.
Proof. intros Hx. unfold s32, sext, wrap. rewrite Z.mod_small by lia. by rewrite (proj2 (Z.ltb_lt _ _)) by (cbn; lia). Qed.

Lemma enabled_known v : 0 < v < 1024 →
  Z.testbit (if decide (v / 32 = 0) then 1026 else 0) (v mod 32) = true → v ∈ [1; 10].
Proof.
  intros Hv Hb. case_decide as E; [|by rewrite Z.testbit_0_l in Hb].
  assert (Z.of_nat (Z.to_nat v) = v) as Ev by lia. assert (Z.to_nat v < 32)%nat as Hn by dlia.
  rewrite <-Ev in Hb |- *. revert Hb. generalize (Z.to_nat v) as n, Hn. clear. intros n Hn.
  do 32 (destruct n as [|n]; [vm_compute; first [done|intros _; set_solver]|]). lia.
Qed.

Lemma serve_ok plic_read id n h :
  PlicOk plic_read → 0 ≤ id < 8 → h_reg h X_tp = id → plic_ready id (h_w h) →
  ∃ l h', serve plic_read n h = Ok l h' ∧ (∀ irq, irq ∈ l → irq ∈ [0; 1; 10]) ∧ h_reg h' X_tp = id ∧ plic_ready id (h_w h').
Proof.
  intros PO Hid. revert h. induction n as [|n IH]; intros h Htp [P0 P1].
  { exists [], h. split_and!; [done|set_solver|done|done..]. }
  pose proof (claim_enabled id (h_w h)) as He. pose proof (claim_keeps id (h_w h)) as Hk. cbv zeta in He.
  destruct (plic_read (PLIC_SCLAIM id) (h_w h)) as [v w] eqn:Er. cbn [fst snd] in *.
  assert (Hv : v ∈ [0; 1; 10]).
  { destruct He as [->|[Hv Hb]]; [set_solver|]. apply elem_of_cons. right. apply enabled_known; [done|]. case_decide as E.
    - rewrite E, Z.mul_0_r, Z.add_0_r, P0 in Hb. done.
    - rewrite P1 in Hb by dlia. done. }
  assert (Hs : s32 v = v) by (apply s32_id; set_unfold in Hv; lia).
  set (h1 := Hart (h_csr h) (h_reg h) (h_pc h) (h_priv h) (h_dw h) w).
  set (h2 := if negb (v =? 0) then set_w (PLIC_SCLAIM id) (u32 v) h1 else h1).
  assert (Htp2 : h_reg h2 X_tp = id) by (unfold h2; by destruct (negb _)).
  assert (Hw : ∀ k, 0 ≤ k < 32 → h_w h2 (PLIC_SENABLE id + 4 * k) = h_w h (PLIC_SENABLE id + 4 * k)).
  { intros k Hk'. transitivity (w (PLIC_SENABLE id + 4 * k)); [|apply Hk; unfold PLIC_SENABLE, PLIC; lia].
    unfold h2. destruct (negb _); [|done]. hfields. apply fn_lookup_insert_ne. unfold PLIC_SCLAIM, PLIC_SENABLE, PLIC. lia. }
  assert (R : plic_ready id (h_w h2)).
  { split; [|intros k Hk'; rewrite Hw by lia; by apply P1]. specialize (Hw 0). rewrite Z.mul_0_r, Z.add_0_r in Hw. rewrite Hw by lia. done. }
  destruct (IH h2 Htp2 R) as (l & h' & E & Hl & Htp' & R'). exists (v :: l), h'. split; [|set_solver].
  cbn [serve]. unfold plic_claim, plic_complete, read_claim, cpuid, r_tp, reg, st32, when, mbind, M_bind, gets, mret, M_ret.
  rewrite Htp, (s32_id id) by lia. rewrite Er, Hs. unfold h2, h1 in E. destruct (negb (v =? 0)); cbn [modify skip mret M_ret h_reg];
    [rewrite Htp, (s32_id id) by lia|]; unfold modify, skip, mret, M_ret; by rewrite E.
Qed.

(** The other harts, once started: paging on, the kernel's trap vector installed,
    device interrupts enabled for this hart. *)
Lemma main_hart_run `{Isa} `{Symbols} id pgtbl h :
  h_priv h = S_MODE → h_reg h X_tp = id → 0 ≤ id < 8 →
  ∃ h', main_hart pgtbl h = Ok tt h' ∧ h_csr h' Satp = MAKE_SATP pgtbl ∧ h_csr h' Stvec = kernelvec_addr ∧
    h_w h' (PLIC_SENABLE id) = 1026 ∧ h_w h' (PLIC_SPRIORITY id) = 0.
Proof.
  intros Hp Htp Hid. unfold main_hart, kvminithart, trapinithart, plicinithart, cpuid, r_tp, reg, st32, w_satp, w_stvec.
  rewrite bind_csrw by first [done|by rewrite Hp]. rewrite bind_csrw by first [done|rewrite csr_write_priv; by rewrite Hp].
  unfold mbind, M_bind, gets, mret, M_ret, modify. cbn [h_reg csr_write set_csr]. rewrite Htp, s32_id by lia.
  eexists. split; [reflexivity|]. hfields. split_and!; [done|done| |done].
  rewrite fn_lookup_insert_ne by (unfold PLIC_SPRIORITY, PLIC_SENABLE; lia). by rewrite fn_lookup_insert.
Qed.

(** ** The theorems *)

(** Start() takes a hart from machine mode to main() in supervisor mode with
    paging off, all delegable traps delegated, the three supervisor interrupts
    enabled, all of physical memory accessible, the hart's number in tp, its
    timer due one interval from now and its timer vector ready; no other
    register, memory cell or controller register changes.  It needs the
    supervisor interrupts to be delegable, since sie is only a view of mie
    through mideleg. *)
Theorem start_boots `{IsaOk} `{SymbolsOk} id h :
  0 ≤ id < Z.of_nat NCPU → h_priv h = M_MODE → h_csr h Mhartid = id →
  ∃ h', start h = Ok tt h' ∧ started id h h'.
Proof. apply start_run. Qed.

(** C31: After start() the timer cannot be lost: whatever code runs in supervisor
    and user mode afterwards (control registers it may write, registers, memory
    other than this hart's timer cells), and however many timer interrupts it
    took, the next timer interrupt is taken in machine mode and timervec runs
    to its end: it re-arms the comparator one interval later, raises the
    supervisor software interrupt, and returns to the interrupted instruction
    with every register, mode and supervisor-visible status as it was. *)
Theorem timer_keeps_ticking `{IsaOk} `{SymbolsOk} id h h0 h1 :
  0 ≤ id < Z.of_nat NCPU → h_priv h = M_MODE → h_csr h Mhartid = id →
  start h = Ok tt h0 → rtc (low_step id) h0 h1 →
  mti_taken h1 = true ∧ ∃ h', timervec (enter_mti h1) = Ok tt h' ∧ ticked id h1 h'.
Proof.
  intros Hid Hp Hh E Hs. destruct (start_run id h Hid Hp Hh) as (h0' & E' & D). rewrite E' in E. injection E as ->.
  pose proof (low_steps_ok id h0 h1 Hid (started_low _ _ _ D) Hs) as L. apply tick_run; [done|apply L..].
Qed.

(** The controller only reports interrupts of the UART and of the disk, so
    devintr() never prints that an interrupt was unexpected. *)
Theorem plic_claims_known `{PlicOk plic_read} id n h :
  0 ≤ id < Z.of_nat NCPU → h_reg h X_tp = id → (∀ k, 0 < k < 32 → h_w h (PLIC_SENABLE id + 4 * k) = 0) →
  ∃ l h', (plicinit;; plicinithart;; serve plic_read n) h = Ok l h' ∧ ∀ irq, irq ∈ l → irq ∈ [0; VIRTIO0_IRQ; UART0_IRQ].
Proof.
  intros Hid Htp Hz. unfold plicinit, plicinithart, st32, cpuid, r_tp, reg.
  set (h1 := set_w (PLIC + VIRTIO0_IRQ * 4) 1 (set_w (PLIC + UART0_IRQ * 4) 1 h)).
  set (h2 := set_w (PLIC_SPRIORITY id) 0 (set_w (PLIC_SENABLE id) 1026 h1)).
  destruct (serve_ok plic_read id n h2 _ Hid Htp) as (l & h' & E & Hl & _).
  { split.
    - unfold h2. hfields. rewrite fn_lookup_insert_ne by (unfold PLIC_SPRIORITY, PLIC_SENABLE; lia). by rewrite fn_lookup_insert.
    - intros k Hk. rewrite <-(Hz k Hk). unfold h2, h1. hfields.
      rewrite !fn_lookup_insert_ne by (unfold PLIC_SPRIORITY, PLIC_SENABLE, UART0_IRQ, VIRTIO0_IRQ; lia). done. }
  exists l, h'. split; [|done]. unfold mbind, M_bind, modify, gets, mret, M_ret. cbn [h_reg set_w]. rewrite Htp, s32_id by (change (Z.of_nat NCPU) with 8 in Hid; lia).
  change (Z.lor _ _) with 1026. exact E.
Qed.

(** ** An instance *)

(** A hart of the machine emulated by qemu at reset, and a layout of the kernel. *)
#[local] Instance isa0 : Isa := {| ideleg_mask := 0x1666; edeleg_mask := 0xb3ff; sstatus_mask := 0x80000003000de762 |}.
#[local] Instance isa0_ok : IsaOk isa0.
Proof. by split. Qed.
#[local] Instance symbols0 : Symbols := {| main_addr := 0x80000e1a; timervec_addr := 0x80005c30; kernelvec_addr := 0x80005ba0; timer_scratch := 0x80009030 |}.
#[local] Instance symbols0_ok : SymbolsOk symbols0.
Proof. by split. Qed.
Definition hart2 : hart := Hart (<[Mhartid := 2]> (λ _, 0)) (λ _, 0) 0x80000000 M_MODE (λ _, 0) (λ _, 0).

Lemma start_boots_witness : ∃ h', start hart2 = Ok tt h' ∧ started 2 hart2 h'.
Proof. apply (start_boots 2 hart2); [done|done|reflexivity]. Defined.

(** main() writes satp, then the timer goes off. *)
Lemma timer_keeps_ticking_witness :
  ∃ h1, mti_taken h1 = true ∧ h_csr h1 Satp = 5 ∧ ∃ h', timervec (enter_mti h1) = Ok tt h' ∧ ticked 2 h1 h'.
Proof.
  destruct (start_run 2 hart2) as (h0 & E & D); [done|done|reflexivity|]. exists (csr_write Satp 5 h0).
  assert (Hs : rtc (low_step 2) h0 (csr_write Satp 5 h0)).
  { apply rtc_once, (LCsr _ Satp 5), csrw_ok; [|done]. by rewrite (sd_mode _ _ _ D). }
  destruct (timer_keeps_ticking 2 hart2 h0 (csr_write Satp 5 h0)) as [Ht Hk]; [done|done|reflexivity|exact E|exact Hs|].
  split; [exact Ht|]. split; [reflexivity|exact Hk].
Defined.
