(* ===== verification/MmapLife.v ===== *)
(** The life of a memory mapping: mmap() of a file, the page faults of the
    process that touches its pages, and munmap() (kernel/file.c, kernel/trap.c
    together). *)

From S2P Require Import Prelude Riscv Kstate Mem Kalloc Vm PageTable VmSpec Machine VmMap VmCopy MemTheorems Sched Bytes Bio BioSpec BioOps Log LogSpec LogCrash LogTheorems Fs RingBuf Pipe PipeSpec File Vma VmaSpec VmaUnmap Proc Exec Syscall Trap Readi PageFault.

Section life.
Context {L : Layout} {LO : LayoutOk L}.

(** The first access to each of the pages [ks] of the area at [a], in this order:
    a fault at the start of the page. *)
Definition touch (fuel p : nat) (a : Z) (ks : list nat) : K unit :=
  forM ks (λ k, page_fault fuel p (a + 4096 * Z.of_nat k)).

(** Byte [o] of the file as the mapping shows it: zero past the end. *)
Definition file_byte (cs : list buf) (d : list (Z * list Z)) (ino : inode) (o : Z) : Z :=
  if o <? i_size ino then u8 (fbyte cs d (i_addrs ino) o) else 0.

(** ** Touching pages *)

Section touching.
Context (s0 : kstate) (me : proc) (root : Z) (l0 : list Z) (vl : list nat) (xs : list vma) (j : nat) (x : vma).
Context (ip : nat) (ino : inode) (n : nat).

Let a := v_addri x.
Let cs := cells (k_bufs s0).
Let d := io_disk (k_io s0).
Let perm := Z.lor (v_prot x) PTE_U.

(** The mapping and the machine it is made on. *)
Record touchable : Prop := {
  tc_vmas : vmas_ok s0 (k_cur s0) vl xs;
  tc_area : xs !! j = Some x;
  tc_size : v_addre x = a + 4096 * Z.of_nat n;
  tc_small : 4096 * Z.of_nat n < 2 ^ 31;
  tc_prot : 0 ≤ v_prot x < 1024;
  tc_ready : ready s0 me;
  tc_root : p_pagetable me = root;
  tc_as : as_ok s0 root l0;
  tc_user : user_frames s0 root l0;
  tc_empty : ∀ v, a ≤ v < v_addre x → has (leaf (view s0) root v) PTE_V = false;
  tc_backed : backed s0 x ip ino;
  tc_lock : i_lock ino = SleepLock false 0;
  tc_ring : ring_ok (k_bufs s0);
  tc_cache : cache_ok cs d;
  tc_quiet : quiet_cache cs;
  tc_direct : direct cs d (i_addrs ino) 0 (Z.min (i_size ino) (4096 * Z.of_nat n));
  tc_room : (3 * n + 2 ≤ length l0)%nat;
}.

(** The pages touched so far, with their frames. *)
Record touched (ps : list (nat * Z)) (l : list Z) (s : kstate) : Prop := {
  to_vmas : k_vmas s = k_vmas s0;
  to_ftable : k_ftable s = k_ftable s0;
  to_cur : k_cur s = k_cur s0;
  to_itable : k_itable s = k_itable s0;
  to_ready : ready s me;
  to_disk : io_disk (k_io s) = d;
  to_ring : ring_ok (k_bufs s);
  to_cache : cache_ok (cells (k_bufs s)) d;
  to_quiet : quiet_cache (cells (k_bufs s));
  to_view : ∀ w, bview (cells (k_bufs s)) d w = bview cs d w;
  to_as : as_ok s root l;
  to_room : (length l0 ≤ 3 * length ps + length l)%nat;
  to_user : user_frames s root l;
  to_new : ∀ k g v, (k, g) ∈ ps → a + 4096 * Z.of_nat k ≤ v < a + 4096 * Z.of_nat k + 4096 →
    leaf (view s) root v = pte_of (4096 * g) perm;
  to_old : ∀ v, 0 ≤ v < MAXVA → (∀ k, k ∈ ps.*1 → ¬ (a + 4096 * Z.of_nat k ≤ v < a + 4096 * Z.of_nat k + 4096)) →
    leaf (view s) root v = leaf (view s0) root v;
  to_bytes : ∀ k o, k ∈ ps.*1 → 0 ≤ o < 4096 → ubyte s root (a + 4096 * Z.of_nat k + o) = file_byte cs d ino (4096 * Z.of_nat k + o);
  to_keep : ∀ v, 0 ≤ v < MAXVA → xlate (view s0) root v ≠ None → ubyte s root v = ubyte s0 root v;
  to_in : ∀ k, k ∈ ps.*1 → (k < n)%nat;
  to_frames : NoDup ps.*2;
  to_frame : ∀ g, g ∈ ps.*2 → page_ok g ∧ (g ∉ l) ∧ r_ref (run_at (k_mm s) (run_addr g)) = 1;
}.

Hypothesis T : touchable.

(** The area is page aligned and below the trap frame. *)
Lemma area_bounds : START_ADDRESS ≤ a ∧ a mod 4096 = 0 ∧ a + 4096 * Z.of_nat n ≤ TOP_ADDRESS.
Proof using T.
  destruct (ordered_lookup _ _ j (v_addri x) (v_addre x) (vo_areas _ _ _ _ (tc_vmas T))) as (H1 & _ & H3 & H4 & _).
  { unfold areas. by rewrite list_lookup_fmap, (tc_area T). }
  fold a in H1, H4. rewrite (tc_size T) in H3. unfold PGSIZE in *. done.
Qed.

Lemma touched_start : touched [] l0 s0.
Proof using T.
  split; try done; try apply T; try (cbn; lia).
  - intros k g v Hin. by apply not_elem_of_nil in Hin.
  - intros k o Hin. by apply not_elem_of_nil in Hin.
  - intros k Hin. by apply not_elem_of_nil in Hin.
  - constructor.
  - intros g Hin. by apply not_elem_of_nil in Hin.
Qed.

(** The area, the file and the direct blocks are as at the start. *)
Lemma touched_vmas ps l s : touched ps l s → vmas_ok s (k_cur s) vl xs ∧ backed s x ip ino.
Proof using T.
  intros Y. split.
  - rewrite (to_cur _ _ _ Y). destruct (tc_vmas T) as [V1 (me' & V2 & V2') V3 V4 V5 V6].
    rewrite (rd_me _ _ (tc_ready T)) in V2. injection V2 as <-.
    split; rewrite ?(to_vmas _ _ _ Y); try done. exists me. rewrite <-(to_cur _ _ _ Y). split; [apply (to_ready _ _ _ Y)|done].
  - destruct (tc_backed T) as [B1 B2]. split; rewrite ?(to_ftable _ _ _ Y), ?(to_itable _ _ _ Y); done.
Qed.

(** Frames other than the new one are still ordinary. *)
Lemma resumed_plain s s' pg l l' va g :
  as_ok s root (pg :: l) → resumed s me root pg va l ip s' → l' `suffix_of` l → plain s root (pg :: l) g → plain s' root l' g.
Proof using LO.
  intros A Re Hs [Hni Hn]. split.
  - intros Hin. apply Hni. right. by eapply suffix_elem.
  - intros p t Hp Ht E. destruct (re_node _ _ _ _ _ _ _ _ Re p t Hp Ht) as [Ho|Ho]; [by eapply Hn|].
    apply Hni. right. by rewrite <-E.
Qed.

(** The frame of a page mapped in this way. *)
Lemma perm_facts g : page_ok g →
  PTE2PA (pte_of (4096 * g) perm) = 4096 * g ∧ has (pte_of (4096 * g) perm) PTE_V = true ∧
  has (pte_of (4096 * g) perm) PTE_U = true ∧ (∀ f, 0 ≤ f < 1024 → has (pte_of (4096 * g) perm) f = has perm f || has PTE_V f).
Proof using T LO.
  intros [H1 H2]. pose proof l_end_range as He. unfold PHYSTOP, KERNBASE in *.
  assert (Hp : 0 ≤ perm < 1024) by (pose proof (tc_prot T); apply (lor_range 10); unfold PTE_U; lia).
  assert (Hu : has perm PTE_U = true) by (unfold perm; rewrite has_lor; apply orb_true_r).
  split_and!; [apply pte_of_pa; [lia|apply aligned_mul|done]|..]; intros; rewrite pte_of_has by (done || lia); [by rewrite orb_true_r|by rewrite Hu|done].
Qed.

Lemma page_low k v : (k < n)%nat → a + 4096 * Z.of_nat k ≤ v < a + 4096 * Z.of_nat k + 4096 → 0 ≤ v < MAXVA.
Proof using T.
  intros Hk Hv. destruct area_bounds as (H1 & _ & H3). change MAXVA with 274877906944. unfold START_ADDRESS, TOP_ADDRESS in *. lia.
Qed.

(** Touched pages are mapped for the user, and what was mapped before still is. *)
Lemma touched_mapped ps l s k o :
  touched ps l s → k ∈ ps.*1 → 0 ≤ o < 4096 → xlate (view s) root (a + 4096 * Z.of_nat k + o) ≠ None.
Proof using T LO.
  intros Y Hk Ho. apply list_elem_of_fmap in Hk as ([k' g] & -> & Hg). cbn [fst] in *.
  destruct (to_frame _ _ _ Y g) as (Hok & _); [by apply (list_elem_of_fmap_2 snd _ (k', g))|].
  destruct (perm_facts g Hok) as (_ & Hv & Hu & _).
  rewrite xlate_mapped; [done|..]; rewrite (to_new _ _ _ Y k' g) by (done || lia); done.
Qed.

Lemma touched_xlate ps l s v :
  touched ps l s → 0 ≤ v < MAXVA → xlate (view s0) root v ≠ None → xlate (view s) root v = xlate (view s0) root v.
Proof using T.
  intros Y Hv Hx. unfold xlate. rewrite (to_old _ _ _ Y); [done|done|]. intros k Hk Hr.
  pose proof (to_in _ _ _ Y k Hk) as Hn. unfold xlate in Hx. rewrite (tc_empty T) in Hx; [done|]. rewrite (tc_size T). lia.
Qed.

Lemma fault_touched ps pg l s s' k :
  let va := a + 4096 * Z.of_nat k in
  touched ps (pg :: l) s → (k < n)%nat → k ∉ ps.*1 →
  filled s root pg va (PGROUNDDOWN va - v_addri x) x ino s' → resumed s me root pg va l ip s' →
  ∃ l', touched ((k, pg) :: ps) l' s'.
Proof using T LO.
  intros va Y Hk Hni [F1 F2 F3] Re. destruct area_bounds as (Ha1 & Ha2 & Ha3).
  assert (Hlo : PGROUNDDOWN va = va) by (rewrite pgrounddown_eq; unfold va, PGSIZE; dlia).
  assert (Hhi : PGROUNDDOWN (va + PGSIZE - 1) + PGSIZE = va + 4096) by (rewrite pgrounddown_eq; unfold va, PGSIZE; dlia).
  assert (Hoff : PGROUNDDOWN va - v_addri x = 4096 * Z.of_nat k) by (rewrite Hlo; unfold va; fold a; lia).
  assert (Hmax : 0 ≤ va ∧ va + 4096 ≤ MAXVA).
  { change MAXVA with 274877906944. unfold START_ADDRESS, TOP_ADDRESS, va in *. lia. }
  rewrite Hlo, Hhi in F1. rewrite Hoff, Hlo in F2. fold perm in F1.
  pose proof (to_as _ _ _ Y) as A. pose proof (as_free _ _ _ A) as (_ & Hnd & Hok).
  apply NoDup_cons in Hnd as [Hpg Hnd]. apply Forall_cons in Hok as [Hpok _].
  destruct (perm_facts pg Hpok) as (Hpa & _).
  destruct (re_as _ _ _ _ _ _ _ _ Re) as (l' & A' & Hsuf & Hlen). rewrite Hlo, Hhi in Hlen.
  assert (Hin : ∀ v, va ≤ v < va + 4096 → leaf (view s') root v = pte_of (4096 * pg) perm).
  { intros v Hv. rewrite F1, decide_True by lia. f_equal. rewrite pgrounddown_eq. unfold va, PGSIZE in *. dlia. }
  assert (Hout : ∀ v, 0 ≤ v < MAXVA → ¬ (va ≤ v < va + 4096) → leaf (view s') root v = leaf (view s) root v).
  { intros v Hv Hn. by rewrite F1, decide_False by done. }
  assert (Hfr : ∀ k' g, (k', g) ∈ ps → g ≠ pg ∧ (g ∉ l')).
  { intros k' g Hg. destruct (to_frame _ _ _ Y g) as (_ & Hg2 & _); [by apply (list_elem_of_fmap_2 snd _ (k', g))|].
    apply not_elem_of_cons in Hg2 as [? Hg2]. split; [done|]. intros Hg3. apply Hg2. by eapply suffix_elem. }
  exists l'. split.
  - rewrite (re_vmas _ _ _ _ _ _ _ _ Re). apply Y.
  - rewrite (re_ftable _ _ _ _ _ _ _ _ Re). apply Y.
  - rewrite (re_cur _ _ _ _ _ _ _ _ Re). apply Y.
  - rewrite (re_itable _ _ _ _ _ _ _ _ Re), (to_itable _ _ _ Y). apply list_eq. intros i. rewrite list_lookup_alter.
    case_decide as Ei; [|done]. subst i. rewrite (bk_inode _ _ _ _ (tc_backed T)). cbn. f_equal.
    pose proof (tc_lock T) as Hlk. clear -Hlk. destruct ino. cbn in *. by rewrite Hlk.
  - apply Re.
  - rewrite (re_disk _ _ _ _ _ _ _ _ Re). apply Y.
  - apply Re.
  - rewrite <-(to_disk _ _ _ Y). apply Re.
  - apply Re.
  - intros w. rewrite <-(to_view _ _ _ Y), <-(to_disk _ _ _ Y). apply Re.
  - exact A'.
  - pose proof (to_room _ _ _ Y) as Hr. cbn [length] in *. replace (va + 4096 - va) with 4096 in Hlen by lia.
    change (Z.to_nat (4096 / 4096)) with 1%nat in Hlen. lia.
  - intros v Hv Hval. destruct (decide (va ≤ v < va + 4096)) as [Hr|Hr].
    + rewrite Hin by done. rewrite Hpa, page_of_mul. split.
      * intros Hx. apply Hpg. by eapply suffix_elem.
      * intros p t Hp Ht Et. apply (re_table _ _ _ _ _ _ _ _ Re p t Hp Ht).
        pose proof (wf_tbl _ _ (as_wf _ _ _ A') p t Hp Ht) as [Hal _]. unfold PGSIZE in *. dlia.
    + rewrite Hout in * by done. eapply resumed_plain; [exact A|exact Re|exact Hsuf|]. by apply Y.
  - intros k' g v Hg Hv. apply elem_of_cons in Hg as [[= -> ->]|Hg]; [by apply Hin|].
    assert (k' ≠ k) by (intros ->; apply Hni; by apply (list_elem_of_fmap_2 fst _ (k, g))).
    assert (Hk' : 0 ≤ v < MAXVA) by (eapply page_low; [by eapply (to_in _ _ _ Y), (list_elem_of_fmap_2 fst _ (k', g))|done]).
    rewrite Hout; [by eapply (to_new _ _ _ Y)|done|unfold va; lia].
  - intros v Hv Hn. cbn [fmap list_fmap fst] in Hn. rewrite Hout; [|done|apply Hn; left]. apply Y; [done|]. intros k' Hk'. apply Hn. by right.
  - intros k' o Hk' Ho. cbn [fmap list_fmap fst] in Hk'. apply elem_of_cons in Hk' as [->|Hk'].
    + fold va. rewrite F2 by done. unfold page_byte, file_byte. rewrite (to_disk _ _ _ Y). fold d.
      unfold fbyte. rewrite (to_view _ _ _ Y). reflexivity.
    + rewrite F3; [exact (to_bytes _ _ _ Y k' o Hk' Ho)|eapply page_low; [by apply (to_in _ _ _ Y)|lia]|]. by eapply touched_mapped.
  - intros v Hv Hx. rewrite F3; [exact (to_keep _ _ _ Y v Hv Hx)|exact Hv|]. by rewrite (touched_xlate _ _ _ v Y Hv Hx).
  - intros k' Hk'. cbn [fmap list_fmap fst] in Hk'. apply elem_of_cons in Hk' as [->|Hk']; [done|by apply Y].
  - cbn [fmap list_fmap snd]. apply NoDup_cons. split; [|apply Y]. intros Hx. apply list_elem_of_fmap in Hx as ([k' g] & -> & Hg).
    by destruct (Hfr k' g Hg).
  - intros g Hg. cbn [fmap list_fmap snd] in Hg. apply elem_of_cons in Hg as [->|Hg].
    + split_and!; [done| |apply Re]. intros Hx. apply Hpg. by eapply suffix_elem.
    + destruct (to_frame _ _ _ Y g Hg) as (G1 & G2 & G3). split_and!; [done| |].
      * intros Hx. apply G2. right. by eapply suffix_elem.
      * by rewrite (re_refs _ _ _ _ _ _ _ _ Re).
Qed.

Lemma touched_step ps pg l s k fuel :
  touched ps (pg :: l) s → (k < n)%nat → k ∉ ps.*1 → (4 ≤ length l)%nat →
  ∃ s' l', page_fault fuel (k_cur s) (a + 4096 * Z.of_nat k) s = Ok tt s' ∧ touched ((k, pg) :: ps) l' s'.
Proof using T LO.
  intros Y Hk Hni Hl. destruct (touched_vmas _ _ _ Y) as [Vo Bk]. destruct area_bounds as (Ha1 & Ha2 & Ha3).
  set (va := a + 4096 * Z.of_nat k).
  assert (Hlo : PGROUNDDOWN va = va) by (rewrite pgrounddown_eq; unfold va, PGSIZE; dlia).
  assert (Hhi : PGROUNDDOWN (va + PGSIZE - 1) + PGSIZE = va + 4096) by (rewrite pgrounddown_eq; unfold va, PGSIZE; dlia).
  assert (Hoff : PGROUNDDOWN va - v_addri x = 4096 * Z.of_nat k) by (rewrite Hlo; unfold va; fold a; lia).
  assert (Hmax : 0 ≤ va ∧ va + 4096 ≤ MAXVA).
  { change MAXVA with 274877906944. unfold START_ADDRESS, TOP_ADDRESS, va in *. lia. }
  destruct (page_fault_ok fuel s me root pg l vl xs j x ip ino va) as (s' & E & F & Re).
  - exact Vo.
  - apply T.
  - rewrite (tc_size T). fold a. unfold va. lia.
  - apply T.
  - apply Y.
  - apply T.
  - apply Y.
  - done.
  - apply Y.
  - rewrite Hlo, Hhi. intros v Hv. rewrite (to_old _ _ _ Y).
    + apply (tc_empty T). rewrite (tc_size T). unfold va in Hv. lia.
    + lia.
    + intros k' Hk' Hv'. assert (k' = k) as -> by (unfold va in Hv; lia). done.
  - exact Bk.
  - rewrite Hoff. pose proof (tc_small T). lia.
  - apply Y.
  - rewrite (to_disk _ _ _ Y). apply Y.
  - apply Y.
  - rewrite Hoff, (to_disk _ _ _ Y). intros p Hp. destruct (tc_direct T p) as (D1 & D2 & D3).
    { pose proof (bk_size _ _ _ _ (tc_backed T)). unfold rlen, PGSIZE in Hp. lia. }
    split_and!; [done|done|]. by rewrite (to_view _ _ _ Y).
  - destruct (fault_touched ps pg l s s' k Y Hk Hni F Re) as (l' & Y'). by exists s', l'.
Qed.

(** Every page, in any order. *)
Lemma touch_all fuel ks ps l s :
  touched ps l s → NoDup (ks ++ ps.*1) → (∀ k, k ∈ ks → (k < n)%nat) → (length ks + length ps ≤ n)%nat →
  ∃ ps' l' s', touch fuel (k_cur s0) a ks s = Ok tt s' ∧ touched ps' l' s' ∧ ps'.*1 ≡ₚ ks ++ ps.*1.
Proof using T LO.
  revert ps l s. induction ks as [|k ks IH]; intros ps l s Y Hnd Hn Hlen.
  { exists ps, l, s. split_and!; [done|done|done]. }
  apply NoDup_cons in Hnd as [Hni Hnd]. pose proof (to_room _ _ _ Y) as Hr. pose proof (tc_room T) as Hr0. cbn [length] in Hlen.
  destruct l as [|pg l]; [cbn in Hr; lia|]. cbn [length] in Hr.
  destruct (touched_step ps pg l s k fuel Y) as (s1 & l1 & E & Y1); [apply Hn; left|set_solver|lia|].
  destruct (IH ((k, pg) :: ps) l1 s1 Y1) as (ps' & l' & s' & E' & Y' & Hp).
  - cbn [fmap list_fmap fst]. rewrite <-Permutation_middle. by apply NoDup_cons.
  - intros k' Hk'. apply Hn. by right.
  - cbn [length]. lia.
  - exists ps', l', s'. split_and!; [|exact Y'|].
    + unfold touch in *. cbn [forM]. rewrite <-(to_cur _ _ _ Y), (bind_ok _ _ _ _ _ E), (to_cur _ _ _ Y). exact E'.
    + rewrite Hp. cbn [fmap list_fmap fst app]. by rewrite <-Permutation_middle.
Qed.

(** ** Unmapping *)

(** The frames by page number. *)
Definition page_frames (ps : list (nat * Z)) : list (option Z) := (λ k, (list_to_map ps : gmap nat Z) !! k) <$> seq 0 n.

Lemma page_frames_lookup ps i o :
  page_frames ps !! i = Some o → (i < n)%nat ∧ o = (list_to_map ps : gmap nat Z) !! i.
Proof using Type.
  unfold page_frames. rewrite list_lookup_fmap. intros H. apply fmap_Some in H as (k & Hk & ->).
  apply lookup_seq in Hk as [-> ?]. done.
Qed.

Lemma page_frames_nodup ps : NoDup ps.*1 → NoDup ps.*2 → NoDup (frames (page_frames ps)).
Proof using Type.
  intros H1 H2. unfold frames, page_frames. generalize (NoDup_seq 0 n). generalize (seq 0 n). intros ks.
  induction ks as [|k ks IH]; intros Hk; [constructor|].
  apply NoDup_cons in Hk as [Hni Hk]. cbn. destruct ((list_to_map ps : gmap nat Z) !! k) as [g|] eqn:E; [|by apply IH]. cbn.
  apply NoDup_cons. split; [|by apply IH]. intros Hg. apply list_elem_of_omap in Hg as (q & Hq & Eq). cbn in Eq. subst q.
  apply list_elem_of_fmap in Hq as (k' & E' & Hk'). symmetry in E'.
  apply elem_of_list_to_map_2 in E. apply elem_of_list_to_map_2 in E'.
  apply list_elem_of_lookup in E as [i Hi]. apply list_elem_of_lookup in E' as [i' Hi'].
  assert (i = i') as <-. { eapply (NoDup_lookup _ _ _ g H2); rewrite list_lookup_fmap; [by rewrite Hi|by rewrite Hi']. }
  rewrite Hi in Hi'. injection Hi' as <-. done.
Qed.

(** All pages touched are quiet: munmap() need not write them back. *)
Lemma touched_quiet ps l s i o :
  touched ps l s → ps.*1 ≡ₚ seq 0 n → has (v_prot x) PTE_D = false ∨ v_flag x ≠ MAP_SHARED → page_frames ps !! i = Some o →
  quiet s root l (v_flag x =? MAP_SHARED) (a + 4096 * Z.of_nat i) o.
Proof using T LO.
  intros Y Hp Hd Ho. apply page_frames_lookup in Ho as [Hi ->].
  assert (Hk : i ∈ ps.*1) by (rewrite Hp; apply elem_of_seq; lia). apply list_elem_of_fmap in Hk as ([k g] & -> & Hg). cbn [fst] in *.
  assert (NoDup ps.*1) as Hnd by (rewrite Hp; apply NoDup_seq).
  rewrite (elem_of_list_to_map_1 ps k g Hnd Hg). cbn [quiet].
  destruct (to_frame _ _ _ Y g) as (F1 & F2 & F3); [by apply (list_elem_of_fmap_2 snd _ (k, g))|].
  pose proof (to_new _ _ _ Y k g (a + 4096 * Z.of_nat k) Hg ltac:(lia)) as Hlf.
  destruct (perm_facts g F1) as (Hpa & Hv & Hu & Hh).
  assert (Hmax : 0 ≤ a + 4096 * Z.of_nat k < MAXVA) by (apply (page_low k); [done|lia]).
  split.
  - split; rewrite ?Hlf; try done.
    + intros Ef. unfold has in Hu. replace PTE_U with (Z.land 1023 PTE_U) in Hu by done. rewrite Z.land_assoc in Hu.
      unfold PTE_FLAGS in Ef. rewrite Ef in Hu. done.
    + pose proof (to_user _ _ _ Y _ Hmax) as Hpl. rewrite Hlf, Hpa, page_of_mul in Hpl. by apply Hpl.
  - rewrite Hlf, (Hh PTE_D) by (unfold PTE_D; lia). unfold perm. rewrite has_lor. destruct Hd as [-> |Hf]; [done|].
    by rewrite (proj2 (Z.eqb_neq _ _) Hf), andb_false_r.
Qed.

End touching.
(** ** The whole life *)

(** The process can map the file: its inode is in memory and unused, its blocks
    up to [n] pages are direct, the cache is quiet, memory is in order and there
    are three free pages for each page and two more. *)
Record file_ready (s : kstate) (me : proc) (root : Z) (l : list Z) (fx : file) (ip : nat) (ino : inode) (n : nat) : Prop := {
  fr_ready : ready s me;
  fr_root : p_pagetable me = root;
  fr_as : as_ok s root l;
  fr_user : user_frames s root l;
  fr_ip : f_ip fx = Some ip;
  fr_inode : k_itable s !! ip = Some ino;
  fr_dev : i_dev ino = ROOTDEV;
  fr_valid : i_valid ino = true;
  fr_lock : i_lock ino = SleepLock false 0;
  fr_ref : 1 ≤ i_ref ino;
  fr_size : 0 ≤ i_size ino < 2 ^ 31;
  fr_ring : ring_ok (k_bufs s);
  fr_cache : cache_ok (cells (k_bufs s)) (io_disk (k_io s));
  fr_quiet : quiet_cache (cells (k_bufs s));
  fr_direct : direct (cells (k_bufs s)) (io_disk (k_io s)) (i_addrs ino) 0 (Z.min (i_size ino) (4096 * Z.of_nat n));
  fr_room : (3 * n + 2 ≤ length l)%nat;
}.

Lemma delete_insert_at {A} k (y : A) l : (k ≤ length l)%nat → delete k (insert_at k y l) = l.
Proof using Type.
  intros Hk. unfold insert_at. rewrite <-(length_take_le l k Hk) at 1. rewrite delete_middle. apply take_drop.
Qed.

Lemma lookup_insert_at {A} k (y : A) l : (k ≤ length l)%nat → insert_at k y l !! k = Some y.
Proof using Type. intros Hk. unfold insert_at. by rewrite lookup_app_r, length_take_le, Nat.sub_diag by (rewrite ?length_take_le; lia). Qed.

Lemma pages_of len : 0 < len ≤ 2 ^ 31 - 4096 →
  PGROUNDUP len = 4096 * Z.of_nat (Z.to_nat (PGROUNDUP len / 4096)) ∧ len ≤ PGROUNDUP len < 2 ^ 31.
Proof using Type.
  intros Hlen. rewrite (pgroundup_eq len) by lia. rewrite Z2Nat.id by (apply Z.div_pos; dlia). split; dlia.
Qed.

Section mapping.
Context (s : kstate) (me : proc) (root : Z) (l0 : list Z) (vl : list nat) (xs : list vma) (len prot flag fd : Z).
Context (f : nat) (fx : file) (ip : nat) (ino : inode) (k : nat) (a : Z) (m : nat).
Let p := k_cur s.
Let n := Z.to_nat (PGROUNDUP len / 4096).
Let x := new_vma len prot flag f a (vl !! k).
Let s1 := set_procs (alter (mapped_proc m) p (k_procs s))
  (set_ftable (alter (λ x, set_fref (f_ref x + 1) x) f (k_ftable s))
  (set_vmas (mapped_vmas (k_vmas s) m (match k with O => None | S k => vl !! k end) x) s)).

Hypothesis Hlen : 0 < len ≤ 2 ^ 31 - 4096.
Hypothesis Hprot : 0 ≤ prot < 1024.
Hypothesis V : vmas_ok s p vl xs.
Hypothesis Hf : mappable s me fd flag f fx.
Hypothesis R : file_ready s me root l0 fx ip ino n.
Hypothesis Hempty : ∀ v, a ≤ v < a + PGROUNDUP len → has (leaf (view s) root v) PTE_V = false.

(** After mmap() the new area can be touched. *)
Lemma mapped_touchable vl1 xs1 :
  vmas_ok s1 p vl1 xs1 → xs1 !! k = Some x → touchable s1 (mapped_proc m me) root l0 vl1 xs1 k x ip ino n.
Proof using All.
  intros V1 Hx. destruct (pages_of len Hlen) as (En & Hle & Hlt). fold n in En. destruct R as [Rd Hrt A U Hip Hi Hdev Hval Hlk Href Hsz Rg C Q Dr Rm].
  split; try done.
  - cbn. lia.
  - lia.
  - destruct Rd as [R1 R2 R3]. split; [done|unfold s1; kst; by rewrite length_alter|].
    change (alter (mapped_proc m) p (k_procs s) !! p = Some (mapped_proc m me)). change (k_cur s) with p in R3.
    by rewrite list_lookup_alter_eq, R3.
  - unfold mapped_proc. cbn. by destruct (p_nvma me =? 0).
  - exact (as_ok_mm s s1 root l0 eq_refl A).
  - split; [|exact Hi|done|done|by rewrite Hlk|done|done]. exists f, (set_fref (f_ref fx + 1) fx). split_and!; [done| |done].
    unfold s1. kst. rewrite list_lookup_alter_eq. by destruct Hf as (_ & _ & -> & _).
Qed.

(** munmap() of the area after every page has been touched gives back what there
    was before. *)
Lemma touched_munmap vl1 xs1 ps l2 s2 :
  xs1 !! k = Some x → vl1 !! k = Some m → areas xs1 = insert_at k (a, a + PGROUNDUP len) (areas xs) → (k ≤ length xs)%nat →
  touchable s1 (mapped_proc m me) root l0 vl1 xs1 k x ip ino n →
  touched s1 (mapped_proc m me) root l0 x ino n ps l2 s2 → ps.*1 ≡ₚ seq 0 n →
  0 ≤ f_ref fx < 2147483647 → has prot PTE_D = false ∨ flag ≠ MAP_SHARED →
  ∃ s3 vl3 xs3 fl, munmap a len s2 = Ok 0 s3 ∧ vmas_ok s3 p vl3 xs3 ∧ areas xs3 = areas xs ∧ k_ftable s3 = k_ftable s ∧
    as_ok s3 root fl ∧ cleared s s3 root a (a + PGROUNDUP len) ∧ k_held s3 = k_held s.
Proof using All.
  intros Hx Hm Har Hkl T Y Hp Href Hd. destruct (pages_of len Hlen) as (En & Hle & Hlt). fold n in En.
  destruct (touched_vmas _ _ _ _ _ _ _ _ _ _ _ T _ _ _ Y) as [V2 _]. destruct (area_bounds _ _ _ _ _ _ _ _ _ _ _ T) as (B1 & B2 & B3).
  pose proof (to_ready _ _ _ _ _ _ _ _ _ _ Y) as [Rh _ Rme]. pose proof (to_cur _ _ _ _ _ _ _ _ _ _ Y) as Ec.
  change (k_cur s1) with p in Ec. rewrite Ec in *.
  assert (Hlk : length (page_frames n ps) = n) by (unfold page_frames; by rewrite length_fmap, length_seq).
  destruct (munmap_ok s2 (mapped_proc m me) vl1 xs1 k m x f (set_fref (f_ref fx + 1) fx) root l2 (page_frames n ps) a len)
    as (s3 & vl3 & xs3 & E & V3 & A3 & As & Cl & Hh & Hft & _); rewrite ?Ec, ?Rh, ?Hlk; try done.
  - apply T.
  - split_and!; [done|lia|]. cbn. lia.
  - rewrite (to_ftable _ _ _ _ _ _ _ _ _ _ Y). unfold s1. kst. rewrite list_lookup_alter_eq. by destruct Hf as (_ & _ & -> & _).
  - cbn. lia.
  - lia.
  - apply Y.
  - apply page_frames_nodup; [rewrite Hp; apply NoDup_seq|apply Y].
  - intros i o Ho. by eapply (touched_quiet s1 (mapped_proc m me) root l0 vl1 xs1 k x ip ino n T).
  - rewrite Ec in V3. exists s3, vl3, xs3, (reverse (frames (page_frames n ps)) ++ l2). split_and!; try done.
    + rewrite A3. unfold carve. rewrite Har. rewrite lookup_insert_at by (unfold areas; by rewrite length_fmap).
      rewrite Z.eqb_refl. apply delete_insert_at. unfold areas. by rewrite length_fmap.
    + rewrite Hft. cbn [v_addri v_addre new_vma x]. rewrite Z.eqb_refl, (to_ftable _ _ _ _ _ _ _ _ _ _ Y). unfold s1. kst.
      apply list_eq. intros i. rewrite !list_lookup_alter. case_decide as Ei; [|done]. rewrite decide_True by done. subst i.
      destruct (k_ftable s !! f) as [y|]; [|done]. cbn. f_equal. destruct y. unfold set_fref. cbn. f_equal. lia.
    + destruct Cl as [C1 C2]. split; [done|]. intros v Hv Hn. rewrite C2 by done.
      rewrite (to_old _ _ _ _ _ _ _ _ _ _ Y); [done|done|]. intros k' Hk' Hr.
      pose proof (to_in _ _ _ _ _ _ _ _ _ _ Y k' Hk'). apply Hn. cbn [v_addri new_vma x] in Hr. lia.
    + rewrite Hh, Rh. symmetry. apply (fr_ready _ _ _ _ _ _ _ _ R).
Qed.
End mapping.

(** C1: The life of a mapping.  mmap() of an open file returns an address [a];
    whatever the order in which the process then touches the pages of the area,
    every fault succeeds and afterwards byte [o] of the area is byte [o] of the
    file, or zero past its end, while everything mapped before keeps its
    contents; munmap() of the area then returns 0 and gives back what there was
    before: the same areas, the same reference counts of the files, the same
    translations with nothing mapped in the area, a well-formed free list, no
    lock held.  (For page-aligned first accesses, direct blocks, and pages that
    munmap() need not write back.) *)
Theorem mapping_life fuel s me root l0 vl xs len prot flag fd f fx ip ino k a m ks :
  let p := k_cur s in
  let n := Z.to_nat (PGROUNDUP len / 4096) in
  0 < len ≤ 2 ^ 31 - 4096 → 0 ≤ prot < 1024 → has prot PTE_D = false ∨ flag ≠ MAP_SHARED →
  vmas_ok s p vl xs → (length vl < Z.to_nat MAX_VMAS)%nat → mappable s me fd flag f fx → 0 ≤ f_ref fx < 2147483647 →
  place (PGROUNDUP len) (areas xs) = Some (k, a) → first_unused (k_vmas s) = Some m →
  file_ready s me root l0 fx ip ino n → (∀ v, a ≤ v < a + PGROUNDUP len → has (leaf (view s) root v) PTE_V = false) →
  ks ≡ₚ seq 0 n →
  ∃ s1 s2 s3 vl3 xs3 fl,
    mmap len prot flag fd s = Ok a s1 ∧ touch fuel p a ks s1 = Ok tt s2 ∧
    (∀ o, 0 ≤ o < PGROUNDUP len → ubyte s2 root (a + o) = file_byte (cells (k_bufs s)) (io_disk (k_io s)) ino o) ∧
    (∀ v, 0 ≤ v < MAXVA → xlate (view s) root v ≠ None → ubyte s2 root v = ubyte s root v) ∧
    munmap a len s2 = Ok 0 s3 ∧ vmas_ok s3 p vl3 xs3 ∧ areas xs3 = areas xs ∧ k_ftable s3 = k_ftable s ∧
    as_ok s3 root fl ∧ cleared s s3 root a (a + PGROUNDUP len) ∧ k_held s3 = k_held s.
Proof.
  intros p n Hlen Hprot Hd V Hvl Hf Href Hpl Hm R Hempty Hks.
  pose proof (fr_ready _ _ _ _ _ _ _ _ R) as [Rh _ Rme].
  destruct (vo_proc _ _ _ _ V) as (me' & _ & _ & Hch). pose proof (vchain_length _ _ _ _ Hch) as Hlx.
  assert (Hk : (k ≤ length xs)%nat).
  { destruct (place_pos _ _ _ _ Hpl) as [[-> _]|(j & -> & Hj)]; [lia|]. unfold areas in Hj. rewrite length_fmap in Hj. lia. }
  pose proof (mmap_run s me vl xs len prot flag fd f fx k a m V Rme Hf Href Hvl ltac:(lia) ltac:(rewrite Rh; set_solver)
    ltac:(rewrite Rh; set_solver) Hpl Hm) as E1.
  destruct (mapped_ok s vl xs len prot flag f k a m (k_held s) (alter (λ x, set_fref (f_ref x + 1) x) f (k_ftable s)) V Hvl ltac:(lia) Hpl Hm)
    as (xs1 & V1' & Ha & Hx).
  set (s1 := set_procs _ _) in E1. assert (V1 : vmas_ok s1 p (insert_at k m vl) xs1) by (destruct V1'; by split).
  pose proof (mapped_touchable s me root l0 vl xs len prot flag fd f fx ip ino k a m Hlen Hprot V Hf R Hempty _ _ V1 Hx) as T.
  destruct (touch_all _ _ _ _ _ _ _ _ _ _ _ T fuel ks [] l0 s1 (touched_start _ _ _ _ _ _ _ _ _ _ _ T)) as (ps & l2 & s2 & E2 & Y & Hp).
  { rewrite app_nil_r, Hks. apply NoDup_seq. }
  { intros i Hi. rewrite Hks in Hi. apply elem_of_seq in Hi. lia. }
  { rewrite Hks, length_seq. cbn. lia. }
  rewrite app_nil_r, Hks in Hp.
  destruct (touched_munmap s me root l0 vl xs len prot flag fd f fx ip ino k a m Hlen Hprot V Hf R Hempty
    (insert_at k m vl) xs1 ps l2 s2 Hx ltac:(apply lookup_insert_at; lia) Ha Hk T Y Hp Href Hd) as (s3 & vl3 & xs3 & fl & E3 & H3).
  destruct (pages_of len Hlen) as (En & _). fold n in En.
  exists s1, s2, s3, vl3, xs3, fl. split_and!; try apply H3; [exact E1|exact E2| | |exact E3].
  - intros o Ho. pose proof (to_bytes _ _ _ _ _ _ _ _ _ _ Y (Z.to_nat (o / 4096)) (o mod 4096)) as Hb. cbn [v_addri new_vma] in Hb.
    rewrite Z2Nat.id in Hb by dlia. replace (4096 * (o / 4096) + o mod 4096) with o in Hb by dlia.
    replace (a + 4096 * (o / 4096) + o mod 4096) with (a + o) in Hb by dlia. apply Hb; [|dlia].
    rewrite Hp. apply elem_of_seq. dlia.
  - intros v Hv Hxl. exact (to_keep _ _ _ _ _ _ _ _ _ _ Y v Hv Hxl).
Qed.
End life.

(** ** An instance *)

(** The machine of [st_pf] before the file is mapped. *)
Definition st_life : kstate := set_vmas (replicate 30 vma_unused) (set_procs (running [Some 0%nat] :: replicate 63 proc0) st_pf).

Lemma leaf_life v : leaf (view st_life) root0 v = 0.
Proof. exact (leaf_pf v). Qed.

Lemma file_ready_life : file_ready st_life (running [Some 0%nat]) root0 free0 file_rw 0 inode_five 2.
Proof.
  split; try reflexivity.
  - split; reflexivity.
  - exact (as_ok0 st_life eq_refl free_list0).
  - intros a _. rewrite leaf_life. discriminate.
  - split; [discriminate|reflexivity].
  - exact ring_tx.
  - change (cells (k_bufs st_life)) with (cells (k_bufs st_tx)). rewrite cells_tx. exact cache_tx.
  - change (cells (k_bufs st_life)) with (cells (k_bufs st_tx)). rewrite cells_tx. exact quiet_tx.
  - change (cells (k_bufs st_life)) with (cells (k_bufs st_tx)). rewrite cells_tx. exact direct_pf.
Qed.

(** A mapping of two pages, the second touched first. *)
Lemma mapping_life_witness :
  ∃ s1 s2 s3, mmap 5000 PROT_READ_WRITE MAP_SHARED 0 st_life = Ok START_ADDRESS s1 ∧
    touch 0 0 START_ADDRESS [1; 0]%nat s1 = Ok tt s2 ∧ ubyte s2 root0 START_ADDRESS = 7 ∧ ubyte s2 root0 (START_ADDRESS + 4096) = 0 ∧
    munmap START_ADDRESS 5000 s2 = Ok 0 s3 ∧ k_ftable s3 = k_ftable st_life.
Proof.
  destruct (mapping_life 0 st_life (running [Some 0%nat]) root0 free0 [] [] 5000 PROT_READ_WRITE MAP_SHARED 0 0 file_rw 0 inode_five
    0 START_ADDRESS 0 [1; 0]%nat) as (s1 & s2 & s3 & vl3 & xs3 & fl & E1 & E2 & Hb & _ & E3 & _ & _ & Hft & _).
  - lia.
  - split; [discriminate|reflexivity].
  - left. reflexivity.
  - apply vmas_ok0; reflexivity.
  - apply Nat.ltb_lt. reflexivity.
  - split_and!; [discriminate|reflexivity|reflexivity|]. intros _. split; reflexivity.
  - split; [discriminate|reflexivity].
  - reflexivity.
  - reflexivity.
  - exact file_ready_life.
  - intros v _. rewrite leaf_life. reflexivity.
  - apply (perm_swap 0%nat 1%nat []).
  - exists s1, s2, s3. split; [exact E1|]. split; [exact E2|]. split; [|split; [|split; [exact E3|exact Hft]]].
    + etransitivity; [apply (Hb 0); vm_compute; split; [discriminate|reflexivity]|]. vm_compute. reflexivity.
    + etransitivity; [apply (Hb 4096); vm_compute; split; [discriminate|reflexivity]|]. vm_compute. reflexivity.
Defined.
