(* ===== verification/VmKernel.v ===== *)
(** The kernel's own address space: kinit() of kernel/kalloc.c and kvmmake() of
    kernel/vm.c (with proc_mapstacks() of kernel/proc.c), the first steps of
    main() that touch memory.

    The address space is described by a list of regions, each a run of pages
    mapped to consecutive frames with one permission. *)

From S2P Require Import Prelude Riscv Kstate Mem Kalloc Vm PageTable VmSpec Machine VmMap VmCopy MemTheorems VmFork.

Section kernel.
Context {L : Layout} {LO : LayoutOk L}.

(** ** Regions *)

Record region : Type := Region { rg_va : Z; rg_pa : Z; rg_pages : nat; rg_perm : Z }.

Definition rg_end (r : region) : Z := rg_va r + 4096 * Z.of_nat (rg_pages r).
Definition in_region (r : region) (v : Z) : Prop := rg_va r ≤ v < rg_end r.

#[global] Instance in_region_dec r v : Decision (in_region r v).
Proof. unfold in_region. apply _. Defined.

(** The leaf entry of an address; 0, an invalid entry, outside all regions. *)
Fixpoint kpte (rs : list region) (v : Z) : Z :=
  match rs with
  | [] => 0
  | r :: rs => if decide (in_region r v) then pte_of (rg_pa r + (PGROUNDDOWN v - rg_va r)) (rg_perm r) else kpte rs v
  end.

Record region_ok (r : region) : Prop := {
  ro_va : rg_va r mod 4096 = 0 ∧ 0 ≤ rg_va r;
  ro_pa : rg_pa r mod 4096 = 0 ∧ 0 ≤ rg_pa r;
  ro_pages : (0 < rg_pages r)%nat;
  ro_end : rg_end r ≤ MAXVA;
  ro_top : rg_pa r + 4096 * Z.of_nat (rg_pages r) ≤ 2 ^ 56;
  ro_perm : 0 ≤ rg_perm r < 1024;
}.

Definition apart (r r' : region) : Prop := rg_end r ≤ rg_va r' ∨ rg_end r' ≤ rg_va r.

Lemma kpte_apart r rs v : Forall (apart r) rs → in_region r v → kpte rs v = 0.
Proof using Type.
  intros H Hv. induction H as [|r' rs Ha _ IH]; [done|]. cbn [kpte]. rewrite decide_False; [done|].
  unfold apart, in_region in *. lia.
Qed.

Fixpoint all_apart (rs : list region) : Prop :=
  match rs with [] => True | r :: rs => Forall (apart r) rs ∧ all_apart rs end.

Lemma all_apart_mid rs r rs' : all_apart (rs ++ r :: rs') → Forall (apart r) rs'.
Proof using Type. induction rs as [|x rs IH]; cbn [app all_apart]; [by intros [? _]|]. intros [_ H]. by apply IH. Qed.

(** ** kvmmap() *)

(** The page table at [root] maps exactly the regions. *)
Record kmapped (s : kstate) (root : Z) (l : list Z) (rs : list region) : Prop := {
  km_as : as_ok s root l;
  km_leaf : ∀ v, 0 ≤ v < MAXVA → leaf (view s) root v = kpte rs v;
}.

(** The pages that mapping a region may take for tables. *)
Definition cost (r : region) : nat := 2 + 2 * crossings (rg_va r) (pred (rg_pages r)).

Lemma mappages_region s root l rs r :
  kmapped s root l rs → region_ok r → Forall (apart r) rs → L_kmem ∉ k_held s → (cost r ≤ length l)%nat →
  ∃ s' l', mappages root (rg_va r) (4096 * Z.of_nat (rg_pages r)) (rg_pa r) (rg_perm r) s = Ok 0 s' ∧
    kmapped s' root l' (r :: rs) ∧ grows s s' root l l' ∧ (length l ≤ cost r + length l')%nat.
Proof using LO.
  intros [A Hlf] [[Va1 Va2] [Pa1 Pa2] Hn Hend Htop Hperm] Hap Hh Hc. unfold rg_end in Hend.
  set (va := rg_va r) in *. set (size := 4096 * Z.of_nat (rg_pages r)) in *.
  assert (Elo : PGROUNDDOWN va = va) by (rewrite pgrounddown_eq; dlia).
  assert (Ehi : PGROUNDDOWN (va + size - 1) + 4096 = va + size) by (rewrite pgrounddown_eq; unfold size; dlia).
  assert (En : Z.to_nat ((PGROUNDDOWN (va + size - 1) - PGROUNDDOWN va) / PGSIZE) = pred (rg_pages r)).
  { rewrite Elo. unfold PGSIZE. replace (PGROUNDDOWN (va + size - 1) - va) with (4096 * Z.of_nat (pred (rg_pages r))) by (unfold size in *; lia).
    rewrite Z.mul_comm, Z.div_mul by lia. lia. }
  destruct (mappages_span s root l va size (rg_pa r) (rg_perm r)) as (s' & l' & E & A' & G & Hl' & Lf);
    rewrite ?En, ?Elo; try done; try lia.
  { unfold PGSIZE. lia. }
  { unfold PGSIZE. intros v Hv. rewrite Hlf by lia. rewrite (kpte_apart r rs v Hap); [done|]. unfold in_region, rg_end. fold va size. lia. }
  cbv zeta in Lf, Hl'. rewrite En, Elo in Hl'. rewrite Elo in Lf.
  exists s', l'. split_and!; [exact E|split|done|done].
  - exact A'.
  - intros v Hv. rewrite Lf by done. cbn [kpte]. unfold PGSIZE.
    assert (Hiff : va ≤ v < PGROUNDDOWN (va + size - 1) + 4096 ↔ in_region r v) by (unfold in_region, rg_end; fold va size; lia).
    destruct (decide (in_region r v)) as [Hin|Hin].
    + rewrite decide_True by tauto. done.
    + rewrite decide_False by tauto. by apply Hlf.
Qed.

Lemma kvmmap_ok s root l rs r :
  kmapped s root l rs → region_ok r → Forall (apart r) rs → L_kmem ∉ k_held s → (cost r ≤ length l)%nat →
  ∃ s' l', kvmmap root (rg_va r) (rg_pa r) (4096 * Z.of_nat (rg_pages r)) (rg_perm r) s = Ok tt s' ∧
    kmapped s' root l' (r :: rs) ∧ grows s s' root l l' ∧ (length l ≤ cost r + length l')%nat.
Proof using LO.
  intros Km Hr Hap Hh Hc. destruct (mappages_region s root l rs r Km Hr Hap Hh Hc) as (s' & l' & E & H).
  exists s', l'. split; [|exact H]. unfold kvmmap. by rewrite (bind_ok _ _ _ _ _ E).
Qed.

(** ** The root table *)

Definition new_root (pg : Z) (s : kstate) : kstate :=
  let s1 := set_mm (taken pg (k_mm s)) s in put_mem (fill (mem s1) (4096 * pg) (replicate PGNAT 0)) s1.

Lemma new_root_ok s pg l :
  free_list (k_mm s) (pg :: l) → L_kmem ∉ k_held s →
  kalloc s = Ok (4096 * pg) (set_mm (taken pg (k_mm s)) s) ∧
  memset (4096 * pg) 0 PGNAT (set_mm (taken pg (k_mm s)) s) = Ok tt (new_root pg s) ∧
  kmapped (new_root pg s) (4096 * pg) l [].
Proof using LO.
  intros Hf Hh. pose proof Hf as (_ & Hnd & Hok). apply NoDup_cons in Hnd as [Hni _]. apply Forall_cons in Hok as [Hpg _].
  split_and!; [by eapply kalloc_run|apply memset_run; by apply page_ok_ram|].
  assert (Hz : ∀ i, idx_ok i → view (new_root pg s) (4096 * pg) i = 0).
  { intros i Hi. unfold view, new_root. rewrite mem_put_mem. by apply entries_fill_zero. }
  pose proof (empty_nodes (new_root pg s) (4096 * pg)) as He. split.
  - split; [by apply free_list_set_mem, taken_free_list| |].
    + split.
      * intros p t Hp Ht. apply He in Ht as [_ ->]; [by apply page_ok_tbl|done|done].
      * intros p q t Hp Hq Hpt Hqt. apply He in Hpt as [-> _]; [|done|done]. by apply He in Hqt as [-> _].
    + intros p t Hp Ht. apply He in Ht as [_ ->]; [by rewrite page_of_mul|done|done].
  - intros v Hv. unfold leaf. destruct (node _ _ (va_path v)) as [t|] eqn:En; [|done].
    apply He in En as [En _]; [done|done|apply va_path_ok].
Qed.

(** ** A list of regions *)

Definition map_region (root : Z) (r : region) : K unit :=
  kvmmap root (rg_va r) (rg_pa r) (4096 * Z.of_nat (rg_pages r)) (rg_perm r).

Fixpoint total (rs : list region) : nat := match rs with [] => 0 | r :: rs => cost r + total rs end.

Lemma map_regions_ok root todo s l rs :
  kmapped s root l rs → L_kmem ∉ k_held s → Forall region_ok todo →
  all_apart (reverse todo ++ rs) →
  (total todo ≤ length l)%nat →
  ∃ s' l', forM todo (map_region root) s = Ok tt s' ∧ kmapped s' root l' (reverse todo ++ rs) ∧ grows s s' root l l' ∧
    (length l ≤ total todo + length l')%nat.
Proof using LO.
  revert s l rs. induction todo as [|r todo IH]; intros s l rs Km Hh Hok Hap Hc.
  { exists s, l. split_and!; [done|done|apply grows_refl|cbn; lia]. }
  apply Forall_cons in Hok as [Hr Hok]. cbn [total] in Hc.
  rewrite reverse_cons, <-app_assoc in Hap |- *. cbn [app] in *.
  destruct (kvmmap_ok s root l rs r Km Hr) as (s1 & l1 & E1 & Km1 & G1 & Hl1); [|done|lia|].
  { by eapply all_apart_mid. }
  assert (Hh1 : L_kmem ∉ k_held s1) by (rewrite (gr_state _ _ _ _ _ G1); done).
  destruct (IH s1 l1 (r :: rs) Km1 Hh1 Hok Hap ltac:(lia)) as (s2 & l2 & E2 & Km2 & G2 & Hl2).
  exists s2, l2. split_and!; [|done|by eapply grows_trans|].
  - cbn [forM]. unfold map_region at 1. by rewrite (bind_ok _ _ _ _ _ E1).
  - cbn [total]. lia.
Qed.

(** ** The kernel's regions *)

Definition RW : Z := Z.lor PTE_R PTE_W.
Definition RX : Z := Z.lor PTE_R PTE_X.

Definition r_uart : region := Region UART0 UART0 1 RW.
Definition r_virtio : region := Region VIRTIO0 VIRTIO0 1 RW.
Definition r_plic : region := Region PLIC PLIC 1024 RW.
Definition r_text : region := Region KERNBASE KERNBASE (Z.to_nat ((l_etext - KERNBASE) / 4096)) RX.
Definition r_data : region := Region l_etext l_etext (Z.to_nat ((PHYSTOP - l_etext) / 4096)) RW.
Definition r_trampoline : region := Region TRAMPOLINE l_trampoline 1 RX.
Definition fixed_regions : list region := [r_uart; r_virtio; r_plic; r_text; r_data; r_trampoline].

(** The stacks, with the frames that proc_mapstacks() allocated, latest first. *)
Definition r_stack (p : nat) (g : Z) : region := Region (KSTACK (Z.of_nat p)) (4096 * g) 1 RW.
Fixpoint stack_regions (gs : list Z) : list region :=
  match gs with
  | [] => []
  | g :: gs => r_stack (length gs) g :: stack_regions gs
  end.

(** What the kernel's page table is to be. *)
Definition kernel_regions (gs : list Z) : list region := stack_regions gs ++ reverse fixed_regions.
Definition kernel_map (gs : list Z) : Z → Z := kpte (kernel_regions gs).

Lemma etext_pages :
  l_etext - KERNBASE = 4096 * Z.of_nat (rg_pages r_text) ∧ PHYSTOP - l_etext = 4096 * Z.of_nat (rg_pages r_data) ∧
  (0 < rg_pages r_text)%nat ∧ (0 < rg_pages r_data)%nat.
Proof using LO.
  pose proof l_etext_range as He. pose proof l_end_range as Hd. pose proof l_etext_aligned as Ha. unfold PHYSTOP, KERNBASE, PGSIZE in *. cbn [rg_pages r_text r_data].
  unfold PHYSTOP, KERNBASE in *. split_and!; rewrite ?Z2Nat.id; dlia.
Qed.

(** Where each region starts and ends. *)
Lemma fixed_bounds :
  (rg_va r_uart = 0x10000000 ∧ rg_end r_uart = 0x10001000) ∧ (rg_va r_virtio = 0x10001000 ∧ rg_end r_virtio = 0x10002000) ∧
  (rg_va r_plic = 0xc000000 ∧ rg_end r_plic = 0xc400000) ∧ (rg_va r_text = 0x80000000 ∧ rg_end r_text = l_etext) ∧
  (rg_va r_data = l_etext ∧ rg_end r_data = 0x88000000) ∧ (rg_va r_trampoline = 0x3ffffff000 ∧ rg_end r_trampoline = 0x4000000000) ∧
  0x80000000 < l_etext < 0x88000000.
Proof using LO.
  destruct etext_pages as (E1 & E2 & _). pose proof l_etext_range as He. pose proof l_end_range as Hd.
  assert (rg_end r_text = KERNBASE + 4096 * Z.of_nat (rg_pages r_text)) as Ht by done.
  assert (rg_end r_data = l_etext + 4096 * Z.of_nat (rg_pages r_data)) as Hda by done.
  rewrite Ht, Hda, <-E1, <-E2. unfold PHYSTOP, KERNBASE in *. split_and!; try done; lia.
Qed.

Lemma fixed_ok : Forall region_ok fixed_regions.
Proof using LO.
  pose proof fixed_bounds as (_ & _ & _ & Ht & Hd & Htr & Het). destruct etext_pages as (E1 & E2 & P1 & P2).
  pose proof l_etext_aligned as Ha. pose proof l_trampoline_range as [Hr1 Hr2]. pose proof l_trampoline_aligned as Ha2. pose proof l_end_range as Hle.
  unfold PGSIZE, PHYSTOP, KERNBASE in *. change MAXVA with 0x4000000000.
  repeat apply Forall_cons_2; [..|apply Forall_nil_2].
  1-3: split; try (split; by vm_compute); try (by vm_compute); cbn [rg_pages r_uart r_virtio r_plic]; lia.
  - split; [done|done|done|destruct Ht as [_ ->]; change MAXVA with 0x4000000000; lia| |by vm_compute].
    change (rg_pa r_text) with 2147483648. lia.
  - split; [split; [done|cbn; lia]|split; [done|cbn; lia]|done|destruct Hd as [_ ->]; change MAXVA with 0x4000000000; lia| |by vm_compute].
    change (rg_pa r_data) with l_etext. lia.
  - split; [by vm_compute|split; [done|cbn; lia]|cbn; lia|by vm_compute| |by vm_compute]. cbn. lia.
Qed.

Lemma fixed_apart : all_apart (reverse fixed_regions).
Proof using LO.
  pose proof fixed_bounds as ((U1 & U2) & (V1 & V2) & (P1 & P2) & (T1 & T2) & (D1 & D2) & (R1 & R2) & He).
  unfold reverse, fixed_regions. cbn [rev_append all_apart]. unfold apart.
  split_and!; [repeat apply Forall_cons_2; [..|apply Forall_nil_2]; rewrite ?U1, ?U2, ?V1, ?V2, ?P1, ?P2, ?T1, ?T2, ?D1, ?D2, ?R1, ?R2; lia..|done].
Qed.

Lemma fixed_total : (total fixed_regions ≤ 270)%nat.
Proof using LO.
  destruct etext_pages as (E1 & E2 & P1 & P2). pose proof l_etext_range as He. pose proof l_end_range as Hle.
  assert (∀ a n, 0x80000000 ≤ a → a + 4096 * Z.of_nat n ≤ 0x88000000 → (crossings a n ≤ 64)%nat) as Hc.
  { intros a n H1 H2. unfold crossings. dlia. }
  pose proof (Hc KERNBASE (pred (rg_pages r_text))) as Ht. pose proof (Hc l_etext (pred (rg_pages r_data))) as Hd.
  unfold PHYSTOP, KERNBASE in *. unfold fixed_regions, total.
  assert (cost r_uart = 2%nat ∧ cost r_virtio = 2%nat ∧ cost r_plic = 4%nat ∧ cost r_trampoline = 2%nat) as (-> & -> & -> & ->) by (by vm_compute).
  unfold cost. change (rg_va r_text) with KERNBASE. change (rg_va r_data) with l_etext. unfold KERNBASE. lia.
Qed.

(** ** The stacks *)

Lemma kstack_eq p : KSTACK p = 0x3ffffff000 - 8192 * (p + 1).
Proof using Type. unfold KSTACK. change TRAMPOLINE with 0x3ffffff000. unfold PGSIZE. lia. Qed.

Lemma stack_bounds p g : rg_va (r_stack p g) = 0x3ffffff000 - 8192 * (Z.of_nat p + 1) ∧ rg_end (r_stack p g) = 0x3ffffff000 - 8192 * (Z.of_nat p + 1) + 4096.
Proof using Type. unfold rg_end. cbn [rg_va rg_pages r_stack]. rewrite kstack_eq. lia. Qed.

Lemma stack_ok p g : (p < 64)%nat → page_ok g → region_ok (r_stack p g).
Proof using LO.
  intros Hp [H1 H2]. destruct (stack_bounds p g) as [Hv He]. pose proof l_end_range. unfold PHYSTOP, KERNBASE in *.
  split; rewrite ?Hv, ?He; change MAXVA with 0x4000000000; cbn [rg_pa rg_pages r_stack rg_perm].
  - split; [dlia|lia].
  - split; [rewrite Z.mul_comm; apply Z.mod_mul|]; lia.
  - lia.
  - lia.
  - lia.
  - by vm_compute.
Qed.

Lemma stack_apart gs g : (length gs < 64)%nat → Forall (apart (r_stack (length gs) g)) (stack_regions gs ++ reverse fixed_regions).
Proof using LO.
  intros Hlen. destruct (stack_bounds (length gs) g) as [Hv He]. apply Forall_app. split.
  - assert (∀ n, (length gs ≤ n)%nat → Forall (apart (r_stack n g)) (stack_regions gs)) as H; [|by apply H].
    clear Hv He Hlen. induction gs as [|g' gs IH]; intros n Hn; [constructor|]. cbn [stack_regions length] in *. constructor; [|apply IH; lia].
    destruct (stack_bounds n g) as [Hv He]. destruct (stack_bounds (length gs) g') as [Hv' He']. unfold apart. lia.
  - pose proof fixed_bounds as ((U1 & U2) & (V1 & V2) & (P1 & P2) & (T1 & T2) & (D1 & D2) & (R1 & R2) & Het).
    unfold reverse, fixed_regions. cbn [rev_append]. unfold apart. rewrite Hv, He.
    repeat apply Forall_cons_2; [..|apply Forall_nil_2]; rewrite ?U1, ?U2, ?V1, ?V2, ?P1, ?P2, ?T1, ?T2, ?D1, ?D2, ?R1, ?R2; lia.
Qed.

Lemma stack_cost p g : cost (r_stack p g) = 2%nat.
Proof using Type. unfold cost, crossings. cbn [rg_pages r_stack pred]. by rewrite Z.mul_0_r, Z.add_0_r, Z.sub_diag. Qed.

Section stacks.
Context (s0 : kstate) (root : Z) (l0 : list Z).

Record stacked (gs l : list Z) (s : kstate) : Prop := {
  sk_map : kmapped s root l (kernel_regions gs);
  sk_state : s = set_mm (k_mm s) s0;
  sk_suffix : l `suffix_of` l0;
  sk_len : (length l0 ≤ 3 * length gs + length l)%nat;
  sk_nodup : NoDup gs;
  sk_frame : ∀ g, g ∈ gs → g ∈ l0 ∧ plain s root l g;
}.

Hypothesis Hh : L_kmem ∉ k_held s0.
Hypothesis Hroom : (192 ≤ length l0)%nat.

Lemma stack_step gs l s :
  stacked gs l s → (length gs < 64)%nat →
  ∃ g s1 s' l', kalloc s = Ok (4096 * g) s1 ∧ 4096 * g ≠ 0 ∧
    kvmmap root (KSTACK (Z.of_nat (length gs))) (4096 * g) PGSIZE (Z.lor PTE_R PTE_W) s1 = Ok tt s' ∧ stacked (g :: gs) l' s'.
Proof using LO Hh Hroom.
  intros [Km Es Hsuf Hlen Hnd Hfr] Hk. pose proof (km_as _ _ _ _ Km) as A.
  destruct l as [|g l]; [cbn [length] in Hlen; lia|]. pose proof (as_free _ _ _ A) as Hf.
  pose proof Hf as (_ & Hndl & Hok). apply NoDup_cons in Hndl as [Hgl _]. apply Forall_cons in Hok as [Hg _].
  assert (Hhs : L_kmem ∉ k_held s) by (rewrite Es; done).
  set (s1 := set_mm (taken g (k_mm s)) s).
  destruct (touch_ok s s1 root g l A) as (A1 & Hgp & Hsn & Hlf).
  { by apply taken_free_list. }
  { intros a Ha. pose proof (taken_mem (k_mm s) g a) as Et. rewrite decide_False in Et by dlia. exact Et. }
  assert (Km1 : kmapped s1 root l (kernel_regions gs)).
  { split; [done|]. intros v Hv. rewrite Hlf by done. by apply Km. }
  destruct (kvmmap_ok s1 root l (kernel_regions gs) (r_stack (length gs) g) Km1) as (s' & l' & E & Km' & G & Hl');
    [by apply stack_ok|by apply stack_apart|done| |].
  { rewrite stack_cost. cbn [length] in Hlen. lia. }
  rewrite stack_cost in Hl'.
  exists g, s1, s', l'. split_and!; [by eapply kalloc_run| |exact E|].
  { destruct Hg. pose proof l_end_range. unfold KERNBASE in *. lia. }
  split.
  - exact Km'.
  - rewrite (gr_state _ _ _ _ _ G). unfold s1. by rewrite Es.
  - etrans; [apply G|]. etrans; [by apply suffix_cons_r|done].
  - cbn [length] in *. lia.
  - apply NoDup_cons. split; [|done]. intros Hin. destruct (Hfr g Hin) as [_ [Hn _]]. apply Hn. by left.
  - intros g' Hin. apply elem_of_cons in Hin as [->|Hin].
    + split; [eapply suffix_elem; [exact Hsuf|by left]|by eapply grows_plain; [exact G|]].
    + destruct (Hfr g' Hin) as [H0 Hp]. split; [done|]. eapply grows_plain; [exact G|]. eapply plain_frame; [exact Hsn|exact Hp|].
      intros Hx. apply (proj1 Hp). by right.
Qed.

Lemma mapstacks_ok l s :
  stacked [] l s → ∃ gs l' s', proc_mapstacks root s = Ok tt s' ∧ length gs = 64%nat ∧ stacked gs l' s'.
Proof using LO Hh Hroom.
  intros Sk. unfold proc_mapstacks.
  destruct (forM_upto NPROC (λ p, pa ← kalloc; if pa =? 0 then panic "kalloc" else kvmmap root (KSTACK (Z.of_nat p)) pa PGSIZE (Z.lor PTE_R PTE_W))
    (λ k s, ∃ gs l, length gs = k ∧ stacked gs l s) s) as (s' & E & gs & l' & Hl & Sk').
  - by exists [], l.
  - intros k s1 Hk (gs & l1 & Hl & Sk1). subst k. destruct (stack_step gs l1 s1 Sk1 Hk) as (g & s2 & s3 & l3 & E1 & Hnz & E2 & Sk3).
    exists s3. rewrite (bind_ok _ _ _ _ _ E1), (proj2 (Z.eqb_neq _ _) Hnz). split; [exact E2|]. by exists (g :: gs), l3.
  - by exists gs, l', s'.
Qed.
End stacks.

(** ** kvmmake() *)

Lemma forM_cons_ok {A} (x : A) xs (f : A → K unit) s s' :
  forM (x :: xs) f s = Ok tt s' → ∃ s1, f x s = Ok tt s1 ∧ forM xs f s1 = Ok tt s'.
Proof using Type.
  cbn [forM]. unfold mbind, M_bind. destruct (f x s) as [[] s1|] eqn:E; [|done]. intros H. by exists s1.
Qed.

Lemma kvmmake_ok s l :
  free_list (k_mm s) l → L_kmem ∉ k_held s → (463 ≤ length l)%nat →
  ∃ root gs l0 l' s', kvmmake s = Ok root s' ∧ length gs = 64%nat ∧ l0 `suffix_of` l ∧ stacked s root l0 gs l' s'.
Proof using LO.
  intros Hf Hh Hl. destruct l as [|pg l]; [cbn in Hl; lia|]. destruct (new_root_ok s pg l Hf Hh) as (E1 & E2 & Km1).
  set (root := 4096 * pg) in *. set (s1 := new_root pg s) in *. pose proof fixed_total as Ht. cbn [length] in Hl.
  destruct (map_regions_ok root fixed_regions s1 l [] Km1 Hh fixed_ok) as (s2 & l2 & E3 & Km2 & G2 & Hl2);
    [rewrite app_nil_r; apply fixed_apart|lia|]. rewrite app_nil_r in Km2.
  assert (Sk : stacked s root l2 [] l2 s2).
  { split; [exact Km2|by rewrite (gr_state _ _ _ _ _ G2)|done|cbn [length]; lia|constructor|]. intros g Hg. by apply not_elem_of_nil in Hg. }
  destruct (mapstacks_ok s root l2 Hh ltac:(lia) l2 s2 Sk) as (gs & l' & s' & E4 & Hgs & Sk').
  exists root, gs, l2, l', s'. split_and!; [|done|etrans; [apply G2|by apply suffix_cons_r]|done].
  unfold kvmmake. rewrite (bind_ok _ _ _ _ _ E1), (bind_ok _ _ _ _ _ E2).
  destruct etext_pages as (Q1 & Q2 & _). rewrite Q1, Q2.
  unfold fixed_regions in E3. repeat (apply forM_cons_ok in E3 as (? & ? & E3)). injection E3 as ->.
  change PGSIZE with (4096 * Z.of_nat 1). change 0x400000 with (4096 * Z.of_nat 1024).
  do 6 (erewrite bind_ok; [|eassumption]). by erewrite bind_ok; [|exact E4].
Qed.

(** ** Reading the map *)

Lemma kpte_at r rs v :
  all_apart rs → r ∈ rs → in_region r v → kpte rs v = pte_of (rg_pa r + (PGROUNDDOWN v - rg_va r)) (rg_perm r).
Proof using Type.
  induction rs as [|r' rs IH]; intros Ha Hr Hv; [by apply not_elem_of_nil in Hr|]. destruct Ha as [Hf Ha]. cbn [kpte].
  apply elem_of_cons in Hr as [->|Hr]; [by rewrite decide_True|]. rewrite decide_False; [by apply IH|].
  rewrite Forall_forall in Hf. specialize (Hf r Hr). unfold apart, in_region in *. lia.
Qed.

Lemma kpte_none rs v : (∀ r, r ∈ rs → ¬ in_region r v) → kpte rs v = 0.
Proof using Type.
  induction rs as [|r rs IH]; intros H; [done|]. cbn [kpte]. rewrite decide_False by (apply H; by left).
  apply IH. intros r' Hr'. apply H. by right.
Qed.

(** What the hardware reads in the entry of an address of a region. *)
Lemma kpte_reads r rs v :
  all_apart rs → r ∈ rs → region_ok r → in_region r v →
  PTE2PA (kpte rs v) = rg_pa r + (PGROUNDDOWN v - rg_va r) ∧
  (∀ f, 0 ≤ f < 1024 → has (kpte rs v) f = has (rg_perm r) f || has PTE_V f).
Proof using Type.
  intros Ha Hr [[V1 V2] [P1 P2] Hn Hend Htop Hp] Hv. rewrite (kpte_at r rs v Ha Hr Hv).
  unfold in_region, rg_end in *. rewrite pgrounddown_eq.
  assert (Hb : 0 ≤ rg_pa r + (4096 * (v / 4096) - rg_va r) < 2 ^ 56) by dlia.
  split; [|intros f Hf; by apply pte_of_has]. apply pte_of_pa; [done| |done]. unfold PGSIZE. clear Htop Hb. dlia.
Qed.

Lemma stack_regions_elem gs r : r ∈ stack_regions gs → ∃ p g, (p < length gs)%nat ∧ g ∈ gs ∧ r = r_stack p g.
Proof using Type.
  induction gs as [|g gs IH]; cbn [stack_regions]; intros H; [by apply not_elem_of_nil in H|].
  apply elem_of_cons in H as [->|H].
  - exists (length gs), g. split_and!; [cbn; lia|by left|done].
  - destruct (IH H) as (p & g' & Hp & Hg & ->). exists p, g'. split_and!; [cbn; lia|by right|done].
Qed.

Lemma stack_region_of gs p g : reverse gs !! p = Some g → r_stack p g ∈ stack_regions gs.
Proof using Type.
  induction gs as [|x gs IH]; [done|]. rewrite reverse_cons. intros H. cbn [stack_regions].
  apply lookup_app_Some in H as [H|[Hlen H]]; [right; by apply IH|]. rewrite length_reverse in *.
  apply list_lookup_singleton_Some in H as [Hp <-]. replace p with (length gs) by lia. by left.
Qed.

Lemma kernel_apart gs : (length gs ≤ 64)%nat → all_apart (kernel_regions gs).
Proof using LO.
  induction gs as [|g gs IH]; intros H; [apply fixed_apart|]. cbn [length] in H. split; [apply stack_apart; lia|apply IH; lia].
Qed.

(** A page of the kernel is in one of the fixed regions or a stack. *)
Lemma kernel_regions_elem gs r :
  r ∈ kernel_regions gs → r ∈ fixed_regions ∨ ∃ p g, (p < length gs)%nat ∧ g ∈ gs ∧ r = r_stack p g.
Proof using Type.
  intros H. apply elem_of_app in H as [H|H]; [right; by apply stack_regions_elem|left; by apply elem_of_reverse in H].
Qed.

Lemma kernel_fixed gs r : r ∈ fixed_regions → r ∈ kernel_regions gs.
Proof using Type. intros H. apply elem_of_app. right. by apply elem_of_reverse. Qed.

(** ** The kernel's address space *)

(** What the kernel relies on once paging is on; [gs] are the frames of the
    stacks in the order of the process table. *)
Record kernel_space (s : kstate) (root : Z) (l gs : list Z) : Prop := {
  ks_as : as_ok s root l;
  (** All of RAM at its own address; the text executable, the rest writable. *)
  ks_ram a : KERNBASE ≤ a < PHYSTOP →
    let e := leaf (view s) root a in
    PTE2PA e = PGROUNDDOWN a ∧ has e PTE_V ∧ has e PTE_R ∧ has e PTE_W = bool_decide (l_etext ≤ a) ∧ has e PTE_X = bool_decide (a < l_etext);
  (** The device registers at their own addresses, writable. *)
  ks_dev a : UART0 ≤ a < VIRTIO0 + PGSIZE ∨ PLIC ≤ a < PLIC + 0x400000 →
    let e := leaf (view s) root a in PTE2PA e = PGROUNDDOWN a ∧ has e PTE_V ∧ has e PTE_R ∧ has e PTE_W;
  (** The trampoline at the top, where every user address space has it. *)
  ks_tramp : let e := leaf (view s) root TRAMPOLINE in PTE2PA e = l_trampoline ∧ has e PTE_V ∧ has e PTE_X ∧ has e PTE_W = false;
  (** A stack for each process, on a frame of its own. *)
  ks_stacks : length gs = NPROC ∧ NoDup gs ∧ ∀ g, g ∈ gs → page_ok g ∧ plain s root l g;
  ks_stack p g : gs !! p = Some g →
    let e := leaf (view s) root (KSTACK (Z.of_nat p)) in PTE2PA e = 4096 * g ∧ has e PTE_V ∧ has e PTE_R ∧ has e PTE_W;
  (** The page below a stack is not mapped: running off the stack faults. *)
  ks_guard p v : (p < NPROC)%nat → KSTACK (Z.of_nat p) - PGSIZE ≤ v < KSTACK (Z.of_nat p) → leaf (view s) root v = 0;
  (** No page is both writable and executable, and none is open to user code. *)
  ks_wx v : 0 ≤ v < MAXVA → let e := leaf (view s) root v in has e PTE_U = false ∧ (has e PTE_W = false ∨ has e PTE_X = false);
}.

Section space.
Context (s : kstate) (root : Z) (l gs : list Z).
Hypothesis Hlen : length gs = 64%nat.
Hypothesis Hok : ∀ g, g ∈ gs → page_ok g.
Hypothesis Hmap : ∀ v, 0 ≤ v < MAXVA → leaf (view s) root v = kpte (kernel_regions gs) v.

Lemma region_reads r v :
  r ∈ kernel_regions gs → in_region r v →
  region_ok r ∧ let e := leaf (view s) root v in
  PTE2PA e = rg_pa r + (PGROUNDDOWN v - rg_va r) ∧ (∀ f, 0 ≤ f < 1024 → has e f = has (rg_perm r) f || has PTE_V f).
Proof using LO Hlen Hok Hmap.
  intros Hr Hv. assert (Ro : region_ok r).
  { apply kernel_regions_elem in Hr as [Hr|(p & g & Hp & Hg & ->)]; [|apply stack_ok; [lia|by apply Hok]].
    pose proof fixed_ok as Hf. rewrite Forall_forall in Hf. by apply Hf. }
  split; [done|]. cbv zeta. rewrite Hmap; [apply kpte_reads; [apply kernel_apart; lia|done..]|].
  destruct Ro. unfold in_region in Hv. lia.
Qed.

Lemma ram_reads a : KERNBASE ≤ a < PHYSTOP →
  let e := leaf (view s) root a in
  PTE2PA e = PGROUNDDOWN a ∧ has e PTE_V ∧ has e PTE_R ∧ has e PTE_W = bool_decide (l_etext ≤ a) ∧ has e PTE_X = bool_decide (a < l_etext).
Proof using LO Hlen Hok Hmap.
  intros Ha. pose proof fixed_bounds as (_ & _ & _ & (T1 & T2) & (D1 & D2) & _ & He).
  unfold PHYSTOP, KERNBASE in Ha. destruct (decide (a < l_etext)) as [Hlt|Hge].
  - destruct (region_reads r_text a) as (_ & Hpa & Hf); [apply kernel_fixed; set_solver|unfold in_region; lia|].
    cbv zeta. rewrite Hpa, !Hf by (by vm_compute). rewrite bool_decide_false, bool_decide_true by lia.
    split_and!; [|by vm_compute..]. change (rg_pa r_text) with KERNBASE. change (rg_va r_text) with KERNBASE. lia.
  - destruct (region_reads r_data a) as (_ & Hpa & Hf); [apply kernel_fixed; set_solver|unfold in_region; lia|].
    cbv zeta. rewrite Hpa, !Hf by (by vm_compute). rewrite bool_decide_true, bool_decide_false by lia.
    split_and!; [|by vm_compute..]. change (rg_pa r_data) with l_etext. change (rg_va r_data) with l_etext. lia.
Qed.

Lemma dev_reads a : UART0 ≤ a < VIRTIO0 + PGSIZE ∨ PLIC ≤ a < PLIC + 0x400000 →
  let e := leaf (view s) root a in PTE2PA e = PGROUNDDOWN a ∧ has e PTE_V ∧ has e PTE_R ∧ has e PTE_W.
Proof using LO Hlen Hok Hmap.
  intros Ha. pose proof fixed_bounds as ((U1 & U2) & (V1 & V2) & (P1 & P2) & _).
  assert (∃ r, r ∈ fixed_regions ∧ in_region r a ∧ rg_pa r = rg_va r ∧ rg_perm r = RW) as (r & Hr & Hin & Hpa & Hpe).
  { unfold UART0, VIRTIO0, PGSIZE, PLIC in Ha. unfold in_region.
    destruct (decide (a < 0x10000000)); [exists r_plic|destruct (decide (a < 0x10001000)); [exists r_uart|exists r_virtio]];
      (split_and!; [set_solver|lia|lia|done|done]). }
  destruct (region_reads r a) as (_ & Ep & Hf); [by apply kernel_fixed|done|].
  cbv zeta. rewrite Ep, !Hf, Hpe by (by vm_compute). split_and!; [lia|by vm_compute..].
Qed.

Lemma one_page_reads r : r ∈ kernel_regions gs → rg_pages r = 1%nat →
  let e := leaf (view s) root (rg_va r) in PTE2PA e = rg_pa r ∧ (∀ f, 0 ≤ f < 1024 → has e f = has (rg_perm r) f || has PTE_V f).
Proof using LO Hlen Hok Hmap.
  intros Hr Hn. destruct (region_reads r (rg_va r) Hr) as ([[V1 V2] _ _ _ _ _] & Ep & Hf); [unfold in_region, rg_end; lia|].
  cbv zeta. split; [|done]. rewrite Ep, pgrounddown_eq. dlia.
Qed.

Lemma guard_reads p v : (p < 64)%nat → KSTACK (Z.of_nat p) - PGSIZE ≤ v < KSTACK (Z.of_nat p) → leaf (view s) root v = 0.
Proof using LO Hlen Hmap.
  intros Hp Hv. rewrite kstack_eq in Hv. unfold PGSIZE in Hv. rewrite Hmap by (change MAXVA with 0x4000000000; lia).
  apply kpte_none. intros r Hr Hin. apply kernel_regions_elem in Hr as [Hr|(q & g & Hq & _ & ->)].
  - pose proof fixed_bounds as ((U1 & U2) & (V1 & V2) & (P1 & P2) & (T1 & T2) & (D1 & D2) & (R1 & R2) & He).
    unfold in_region in Hin. unfold fixed_regions in Hr. rewrite !elem_of_cons in Hr.
    destruct Hr as [->|[->|[->|[->|[->|[->|Hr]]]]]]; [lia..|by apply not_elem_of_nil in Hr].
  - destruct (stack_bounds q g) as [B1 B2]. unfold in_region in Hin. lia.
Qed.

Lemma wx_reads v : 0 ≤ v < MAXVA →
  let e := leaf (view s) root v in has e PTE_U = false ∧ (has e PTE_W = false ∨ has e PTE_X = false).
Proof using LO Hlen Hok Hmap.
  intros Hv. cbv zeta. destruct (decide (Exists (λ r, in_region r v) (kernel_regions gs))) as [Hx|Hx].
  - apply Exists_exists in Hx as (r & Hr & Hin). destruct (region_reads r v Hr Hin) as (_ & _ & Hf).
    assert (rg_perm r = RW ∨ rg_perm r = RX) as Hp.
    { apply kernel_regions_elem in Hr as [Hr|(q & g & _ & _ & ->)]; [|by left].
      unfold fixed_regions in Hr. rewrite !elem_of_cons in Hr.
      destruct Hr as [->|[->|[->|[->|[->|[->|Hr]]]]]]; [by left|by left|by left|by right|by left|by right|by apply not_elem_of_nil in Hr]. }
    rewrite !Hf by (by vm_compute). destruct Hp as [-> | ->]; vm_compute; auto.
  - rewrite Hmap, kpte_none by (done || intros r Hr Hin; apply Hx, Exists_exists; by exists r). by split; [|left].
Qed.
End space.

Lemma stacked_space s0 root l0 gs l s :
  stacked s0 root l0 gs l s → length gs = 64%nat → Forall page_ok l0 → kernel_space s root l (reverse gs).
Proof using LO.
  intros [[A Hm] _ _ _ Hnd Hfr] Hlen Hok.
  assert (Hg : ∀ g, g ∈ gs → page_ok g) by (intros g Hg; rewrite Forall_forall in Hok; by apply Hok, Hfr).
  split.
  - done.
  - by apply (ram_reads s root gs).
  - by apply (dev_reads s root gs).
  - destruct (one_page_reads s root gs Hlen Hg Hm r_trampoline) as [Ep Hf]; [apply kernel_fixed; set_solver|done|].
    change (rg_va r_trampoline) with TRAMPOLINE in Ep, Hf. cbv zeta. rewrite Ep, !Hf by (by vm_compute).
    split_and!; [done|by vm_compute..].
  - rewrite length_reverse. split_and!; [done|by rewrite reverse_Permutation|]. intros g Hin. rewrite elem_of_reverse in Hin.
    exact (conj (Hg g Hin) (proj2 (Hfr g Hin))).
  - intros p g Hp. apply stack_region_of in Hp.
    destruct (one_page_reads s root gs Hlen Hg Hm (r_stack p g)) as [Ep Hf]; [apply elem_of_app; by left|done|].
    change (rg_va (r_stack p g)) with (KSTACK (Z.of_nat p)) in Ep, Hf. cbv zeta. rewrite Ep, !Hf by (by vm_compute).
    split_and!; [done|by vm_compute..].
  - by apply (guard_reads s root gs).
  - by apply (wx_reads s root gs).
Qed.

(** C11: On any kernel image that leaves 464 pages of RAM, kinit() followed by
    kvmmake() succeeds from an empty free list and touches only memory and the
    allocator.  The page table built is [kernel_space]: all of RAM is mapped at
    its own address, the text executable and the rest writable; the UART, disk
    and interrupt-controller registers are mapped; the trampoline is at the top;
    each of the NPROC processes has a stack on a frame of its own with an
    unmapped guard page below it; no page is both writable and executable and
    none is accessible to user code. *)
Theorem kvmmake_kernel_space s :
  mm_freelist (k_mm s) = 0 → L_kmem ∉ k_held s → l_end + 464 * PGSIZE ≤ PHYSTOP →
  ∃ root l gs m, (kinit;; kvmmake) s = Ok root (set_mm m s) ∧ kernel_space (set_mm m s) root l gs.
Proof using LO.
  intros Hz Hh Hroom. destruct (kinit_frees_all s Hz Hh) as (m1 & l1 & E1 & Hf & Hin).
  assert (Hl : (463 ≤ length l1)%nat).
  { pose proof (l_end_range (L := L)) as He. set (a := (l_end + 4095) / 4096).
    replace 463%nat with (length (seqZ a 463)) by apply length_seqZ.
    apply submseteq_length, NoDup_submseteq; [apply NoDup_seqZ|]. intros pg Hpg. apply elem_of_seqZ in Hpg.
    apply Hin. unfold a, PGSIZE in *. dlia. }
  destruct (kvmmake_ok (set_mm m1 s) l1 Hf Hh Hl) as (root & gs & l0 & l' & s' & E2 & Hgs & Hsuf & Sk).
  pose proof (sk_state _ _ _ _ _ _ Sk) as Es.
  exists root, l', (reverse gs), (k_mm s'). change (set_mm (k_mm s') (set_mm m1 s)) with (set_mm (k_mm s') s) in Es. rewrite <-Es. split.
  - by rewrite (bind_ok _ _ _ _ _ E1).
  - apply (stacked_space _ _ _ _ _ _ Sk Hgs). destruct Hf as (_ & _ & Hok). destruct Hsuf as [k ->]. by apply Forall_app in Hok as [_ ?].
Qed.

End kernel.

(** On the machine of [Machine], started with an empty free list. *)
Lemma kvmmake_kernel_space_witness :
  ∃ root l gs m, (kinit;; kvmmake) st_oom = Ok root (set_mm m st_oom) ∧ kernel_space (set_mm m st_oom) root l gs.
Proof.
  apply (kvmmake_kernel_space st_oom); [reflexivity|apply not_elem_of_empty|].
  unfold PGSIZE. intros C. discriminate C.
Defined.
