(* ===== verification/VmLife.v ===== *)
(** The memory of a process from proc_pagetable() of kernel/proc.c to
    proc_freepagetable(), with uvmalloc() of kernel/vm.c in between.

    First freewalk() and uvmfree(): the tables of an address space, in the order
    in which freewalk() frees them, are a function of its entries.  Then what is
    mapped, and where every page of the free list goes and that it comes back:
    the address space is again a list of regions, the user pages, the latest
    first, above the trap frame and the trampoline. *)

From S2P Require Import Prelude Riscv Kstate Mem Kalloc Vm PageTable VmSpec Machine VmMap VmCopy MemTheorems VmFork Sched Proc VmKernel.

Section free.
Context {L : Layout} {LO : LayoutOk L}.

Definition RWX : Z := Z.lor (Z.lor PTE_R PTE_W) PTE_X.

(** ** The tables below a table *)

(** The pages of the [d] levels of tables at [t]. *)
Fixpoint tables (d : nat) (E : tview) (t : Z) : list Z :=
  match d with
  | O => []
  | S d =>
      (upto 512 ≫= (λ i, if has (E t (Z.of_nat i)) PTE_V then tables d E (PTE2PA (E t (Z.of_nat i))) else [])) ++ [t / 4096]
  end.

(** Below [t] there are [d] levels of tables and no leaf. *)
Fixpoint clean (d : nat) (E : tview) (t : Z) : Prop :=
  match d with
  | O => False
  | S d => tbl_ok t ∧ ∀ i, idx_ok i → has (E t i) PTE_V = true → has (E t i) RWX = false ∧ clean d E (PTE2PA (E t i))
  end.

Lemma tables_self d E t : t / 4096 ∈ tables (S d) E t.
Proof using Type. cbn [tables]. apply elem_of_app. right. by apply list_elem_of_singleton. Qed.

Lemma tables_sub d E t i pg :
  idx_ok i → has (E t i) PTE_V = true → pg ∈ tables d E (PTE2PA (E t i)) → pg ∈ tables (S d) E t.
Proof using Type.
  intros Hi Hv Hpg. cbn [tables]. apply elem_of_app. left. apply list_elem_of_bind. exists (Z.to_nat i).
  unfold idx_ok in Hi. rewrite Z2Nat.id, Hv by lia. split; [done|]. apply elem_of_seq. lia.
Qed.

Lemma tables_agree d E E' t :
  clean d E t → (∀ pg i, pg ∈ tables d E t → idx_ok i → E' (4096 * pg) i = E (4096 * pg) i) →
  clean d E' t ∧ tables d E' t = tables d E t.
Proof using Type.
  revert t. induction d as [|d IH]; intros t Hc Hag; [done|]. destruct Hc as [Ht Hc].
  assert (Et : t = 4096 * (t / 4096)) by (destruct Ht as [Ht _]; unfold PGSIZE in Ht; dlia).
  assert (Ee : ∀ i, idx_ok i → E' t i = E t i).
  { intros i Hi. rewrite Et. apply Hag; [apply tables_self|done]. }
  assert (Hsub : ∀ i, idx_ok i → has (E t i) PTE_V = true →
    clean d E' (PTE2PA (E t i)) ∧ tables d E' (PTE2PA (E t i)) = tables d E (PTE2PA (E t i))).
  { intros i Hi Hv. apply IH; [by apply Hc|]. intros pg j Hpg. apply Hag. by eapply tables_sub. }
  split.
  - split; [done|]. intros i Hi. rewrite Ee by done. intros Hv. split; [by apply Hc|by apply Hsub].
  - cbn [tables]. f_equal. apply Forall_bind_ext, Forall_forall. intros k Hk. apply elem_of_seq in Hk.
    rewrite Ee by (unfold idx_ok; lia). destruct (has (E t (Z.of_nat k)) PTE_V) eqn:Hv; [|done].
    apply Hsub; [unfold idx_ok; lia|done].
Qed.

(** ** freewalk() *)

(** The pages [ts] have gone to the free list, the last one first; nothing else
    has changed. *)
Record released (s s' : kstate) (l ts : list Z) : Prop := {
  re_free : free_list (k_mm s') (reverse ts ++ l);
  re_state : s' = set_mm (k_mm s') s;
  re_mem a : a / 4096 ∉ ts → ld8 (mem s') a = ld8 (mem s) a;
  re_ref pg : pg ∉ ts → run_at (k_mm s') (run_addr pg) = run_at (k_mm s) (run_addr pg);
}.

Lemma released_trans s1 s2 s3 l ts ts' :
  released s1 s2 l ts → released s2 s3 (reverse ts ++ l) ts' → released s1 s3 l (ts ++ ts').
Proof using LO.
  intros [F1 S1 M1 R1] [F2 S2 M2 R2]. split.
  - by rewrite reverse_app, <-app_assoc.
  - rewrite S2, S1. done.
  - intros a Ha. rewrite M2, M1; [done|set_solver..].
  - intros pg Hpg. rewrite R2, R1; [done|set_solver..].
Qed.

(** A page that kfree() puts on the free list. *)
Definition once (s : kstate) (pg : Z) : Prop := page_ok pg ∧ r_ref (run_at (k_mm s) (run_addr pg)) = 1.

Lemma kfree_released s l pg :
  free_list (k_mm s) l → once s pg → pg ∉ l → L_kmem ∉ k_held s →
  ∃ s', kfree (4096 * pg) s = Ok tt s' ∧ released s s' l [pg].
Proof using LO.
  intros Hf [Hpg Hr] Hni Hh. exists (set_mm (freed pg (k_mm s)) s). split; [by apply kfree_run|]. split.
  - by apply freed_free_list.
  - done.
  - intros a Ha. unfold mem, freed. cbn [k_mm set_mm mm_mem]. rewrite ld8_memset, pgnat_eq. rewrite decide_False; [done|].
    intros ?. apply Ha, list_elem_of_singleton. dlia.
  - intros q Hq. unfold run_at, freed. cbn [k_mm set_mm mm_runs].
    rewrite lookup_insert_ne; [done|]. intros ->%run_addr_inj. by apply Hq, list_elem_of_singleton.
Qed.

(** Clearing a slot of the table [t]. *)
Lemma store_slot s t k :
  tbl_ok t → idx_ok k → let s' := put_mem (st64 (mem s) (t + 8 * k) 0) s in
  store64 (t + 8 * k) 0 s = Ok tt s' ∧ (∀ i, idx_ok i → i ≠ k → view s' t i = view s t i) ∧
  (∀ a, a / 4096 ≠ t / 4096 → ld8 (mem s') a = ld8 (mem s) a).
Proof using LO.
  intros Ht Hk s'. split_and!.
  - apply store64_run. by apply tbl_slot_ram.
  - intros i Hi Hne. unfold view, s'. rewrite mem_put_mem, entries_st64 by (done || apply Ht).
    rewrite decide_False; [done|]. intros [= E]. done.
  - intros a Ha. unfold s'. rewrite mem_put_mem, ld8_st64_out; [done|].
    destruct (decide (t + 8 * k ≤ a < t + 8 * k + 8)); [|lia]. destruct Ha.
    rewrite <-(slot_page t k (a - (t + 8 * k)) Ht Hk) by lia. f_equal. lia.
Qed.

(** The loop of freewalk() over the table [t], before entry [k]. *)
Section loop.
Context (d : nat) (t : Z) (s0 : kstate) (l : list Z).
Let sub (k : nat) : list Z :=
  if has (view s0 t (Z.of_nat k)) PTE_V then tables d (view s0) (PTE2PA (view s0 t (Z.of_nat k))) else [].
Let gone (k : nat) : list Z := upto k ≫= sub.

Record walking (k : nat) (s : kstate) : Prop := {
  wk_free : free_list (k_mm s) (reverse (gone k) ++ l);
  wk_state : s = set_mm (k_mm s) s0;
  wk_mem a : a / 4096 ∉ gone k → a / 4096 ≠ t / 4096 → ld8 (mem s) a = ld8 (mem s0) a;
  wk_slot i : Z.of_nat k ≤ i < 512 → view s t i = view s0 t i;
  wk_ref pg : pg ∉ gone k → run_at (k_mm s) (run_addr pg) = run_at (k_mm s0) (run_addr pg);
}.

Context (Hc : clean (S d) (view s0) t) (Hnd : NoDup (tables (S d) (view s0) t ++ l)).
Context (Ho : Forall (once s0) (tables (S d) (view s0) t)) (Hh : L_kmem ∉ k_held s0).
Context (IH : ∀ t s l, clean d (view s) t → free_list (k_mm s) l → L_kmem ∉ k_held s →
  NoDup (tables d (view s) t ++ l) → Forall (once s) (tables d (view s) t) →
  ∃ s', freewalk_n d t s = Ok tt s' ∧ released s s' l (tables d (view s) t)).

Lemma gone_S k : gone (S k) = gone k ++ sub k.
Proof using Type. unfold gone. by rewrite seq_S, bind_app, bind_singleton. Qed.

Lemma gone_sub k pg : (k ≤ 512)%nat → pg ∈ gone k → pg ∈ gone 512.
Proof using Type.
  intros Hk. unfold gone. rewrite !list_elem_of_bind. intros (i & Hi & Hin). exists i. split; [done|].
  apply elem_of_seq in Hin. apply elem_of_seq. lia.
Qed.

(** What NoDup says of the subtrees. *)
Lemma sub_fresh k pg : (k < 512)%nat → pg ∈ sub k → pg ∉ gone k ∧ pg ≠ t / 4096 ∧ pg ∉ l.
Proof using Hnd.
  intros Hk Hpg. cbn [tables] in Hnd. fold sub in Hnd. fold (gone 512) in Hnd.
  assert (Hg : pg ∈ gone (S k)) by (rewrite gone_S; apply elem_of_app; right; exact Hpg).
  apply (gone_sub (S k)) in Hg; [|lia].
  apply NoDup_app in Hnd as (Hnd1 & Hdis & _). apply NoDup_app in Hnd1 as (Hnd1 & Ht & _).
  split_and!.
  - replace 512%nat with (S k + (511 - k))%nat in Hnd1 by lia. unfold gone in Hnd1. rewrite seq_app, bind_app in Hnd1.
    apply NoDup_app in Hnd1 as (Hnd1 & _ & _). fold (gone (S k)) in Hnd1. rewrite gone_S in Hnd1.
    apply NoDup_app in Hnd1 as (_ & Hd & _). intros Hin. by apply (Hd pg).
  - intros ->. apply (Ht _ Hg). by apply list_elem_of_singleton.
  - apply Hdis. apply elem_of_app. by left.
Qed.

Lemma gone_tables k pg : (k ≤ 512)%nat → pg ∈ gone k → pg ∈ tables (S d) (view s0) t.
Proof using Type. intros Hk Hg. cbn [tables]. apply elem_of_app. left. exact (gone_sub k pg Hk Hg). Qed.

(** The subtree of entry [k] is still there. *)
Lemma walking_sub k s :
  (k < 512)%nat → walking k s → has (view s0 t (Z.of_nat k)) PTE_V = true →
  let c := PTE2PA (view s0 t (Z.of_nat k)) in
  clean d (view s) c ∧ tables d (view s) c = sub k ∧ NoDup (sub k ++ reverse (gone k) ++ l) ∧ Forall (once s) (sub k).
Proof using LO Hc Hnd Ho.
  intros Hk [Wf Ws Wm Wl Wr] Hv c. assert (Hi : idx_ok (Z.of_nat k)) by (unfold idx_ok; lia).
  destruct Hc as [Ht Hcc]. destruct (Hcc _ Hi Hv) as [_ Hcl]. fold c in Hcl.
  assert (Es : sub k = tables d (view s0) c) by (unfold sub; by rewrite Hv).
  pose proof (λ pg, sub_fresh k pg Hk) as Hfr. rewrite Es in Hfr |- *.
  assert (Hin : ∀ pg, pg ∈ tables d (view s0) c → pg ∈ tables (S d) (view s0) t) by (intros pg; by apply tables_sub).
  destruct (tables_agree d (view s0) (view s) c Hcl) as [C1 C2].
  { intros pg i Hpg Hii. destruct (Hfr pg Hpg) as (F1 & F2 & _). apply entries_keep; [rewrite Z.mul_comm; apply Z.mod_mul; lia|done|].
    intros a Ha. rewrite page_of_mul in Ha. apply Wm; by rewrite Ha. }
  split_and!; [exact C1|exact C2| |].
  - apply NoDup_app. split_and!; [| |apply Wf].
    + assert (H : NoDup (gone (S k))).
      { cbn [tables] in Hnd. fold sub in Hnd. apply NoDup_app in Hnd as (Hnd1 & _). apply NoDup_app in Hnd1 as (Hnd1 & _).
        replace 512%nat with (S k + (511 - k))%nat in Hnd1 by lia. rewrite seq_app, bind_app in Hnd1. by apply NoDup_app in Hnd1 as (Hnd1 & _). }
      rewrite gone_S, Es in H. by apply NoDup_app in H as (_ & _ & H).
    + intros pg Hpg Hx. destruct (Hfr pg Hpg) as (F1 & _ & F3). apply elem_of_app in Hx as [Hx|Hx]; [|done].
      by rewrite elem_of_reverse in Hx.
  - apply Forall_forall. intros pg Hpg. rewrite Forall_forall in Ho. destruct (Ho pg (Hin pg Hpg)) as [H1 H2].
    split; [done|]. rewrite Wr; [done|]. by apply Hfr.
Qed.

Definition walk_body (k : nat) : K unit :=
  let slot := t + 8 * Z.of_nat k in
  pte ← load64 slot;
  if has pte PTE_V && negb (has pte RWX) then freewalk_n d (PTE2PA pte);; store64 slot 0
  else if has pte PTE_V then panic "freewalk: leaf" else skip.

Lemma walk_step k s : (k < 512)%nat → walking k s → ∃ s', walk_body k s = Ok tt s' ∧ walking (S k) s'.
Proof using LO Hc Hnd Ho Hh IH.
  intros Hk W. pose proof (walking_sub k s Hk W) as Hsub. pose proof W as [Wf Ws Wm Wl Wr].
  assert (Hi : idx_ok (Z.of_nat k)) by (unfold idx_ok; lia). pose proof (proj1 Hc) as Ht.
  unfold walk_body. rewrite (bind_ok _ _ _ _ _ (load64_run _ s (tbl_slot_ram t _ Ht Hi))).
  change (ld64 (mem s) (t + 8 * Z.of_nat k)) with (view s t (Z.of_nat k)). rewrite Wl by lia.
  assert (Es : sub k = if has (view s0 t (Z.of_nat k)) PTE_V then tables d (view s0) (PTE2PA (view s0 t (Z.of_nat k))) else []) by reflexivity.
  destruct (has (view s0 t (Z.of_nat k)) PTE_V) eqn:Hv.
  2:{ exists s. split; [reflexivity|]. split; rewrite ?gone_S, ?Es, ?app_nil_r; try done. intros i Hlt. apply Wl. lia. }
  destruct (proj2 Hc _ Hi Hv) as [-> _]. cbn [andb negb]. destruct (Hsub eq_refl) as (C1 & C2 & C3 & C4).
  destruct (IH (PTE2PA (view s0 t (Z.of_nat k))) s (reverse (gone k) ++ l)) as (s1 & E1 & [R1 R2 R3 R4]); rewrite ?C2; try done.
  { rewrite Ws. exact Hh. }
  rewrite C2 in R1, R3, R4. rewrite (bind_ok _ _ _ _ _ E1).
  destruct (store_slot s1 t (Z.of_nat k) Ht Hi) as (E2 & V2 & M2). set (s2 := put_mem _ s1) in *.
  exists s2. split; [exact E2|].
  assert (Hts : t / 4096 ∉ sub k) by (intros Hx; by destruct (sub_fresh k _ Hk Hx) as (_ & Hx' & _)).
  split.
  - rewrite gone_S, reverse_app, <-app_assoc. exact (free_list_set_mem _ _ _ R1).
  - unfold s2. rewrite R2, Ws. done.
  - intros a Ha Hat. rewrite gone_S in Ha. rewrite M2 by done. rewrite R3, Wm; [done| |done|];
      intros Hx; apply Ha, elem_of_app; [by left|by right].
  - intros i Hlt. rewrite V2, <-Wl by (unfold idx_ok; lia). apply entries_keep; [apply Ht|unfold idx_ok; lia|].
    intros a Ha. apply R3. by rewrite Ha.
  - intros pg Hpg. rewrite gone_S in Hpg. change (run_at (k_mm s2) (run_addr pg)) with (run_at (k_mm s1) (run_addr pg)).
    rewrite R4, Wr; [done| |]; intros Hx; apply Hpg, elem_of_app; [by left|by right].
Qed.
End loop.

Lemma freewalk_ok d t s l :
  clean d (view s) t → free_list (k_mm s) l → L_kmem ∉ k_held s →
  NoDup (tables d (view s) t ++ l) → Forall (once s) (tables d (view s) t) →
  ∃ s', freewalk_n d t s = Ok tt s' ∧ released s s' l (tables d (view s) t).
Proof using LO.
  revert t s l. induction d as [|d IH]; intros t s l Hc Hf Hh Hnd Ho; [by destruct Hc|].
  destruct (forM_upto 512 (walk_body d t) (walking d t s l) s) as (s1 & E1 & [Wf Ws Wm Wl Wr]).
  { split; try done. by rewrite set_mm_id. }
  { intros k s1 Hk W. by apply (walk_step d t s l Hc Hnd Ho Hh IH). }
  assert (Et : t = 4096 * (t / 4096)) by (destruct Hc as [[Ht _] _]; unfold PGSIZE in Ht; dlia).
  change (freewalk_n (S d) t s) with ((forM (upto 512) (walk_body d t);; kfree t) s). rewrite (bind_ok _ _ _ _ _ E1).
  cbn [tables] in Hnd, Ho. set (g := upto 512 ≫= _) in *.
  apply Forall_app in Ho as [_ Ho]. apply Forall_cons in Ho as [[O1 O2] _].
  apply NoDup_app in Hnd as (Hnd & Hdis & _). apply NoDup_app in Hnd as (_ & Hnt & _).
  assert (Hg : t / 4096 ∉ g) by (intros Hx; apply (Hnt _ Hx); by apply list_elem_of_singleton).
  destruct (kfree_released s1 (reverse g ++ l) (t / 4096)) as (s2 & E2 & [R1 R2 R3 R4]).
  - exact Wf.
  - split; [exact O1|]. by rewrite Wr.
  - intros Hx. apply elem_of_app in Hx as [Hx|Hx]; [by rewrite elem_of_reverse in Hx|].
    apply (Hdis (t / 4096)); [|done]. apply elem_of_app. right. by apply list_elem_of_singleton.
  - rewrite Ws. exact Hh.
  - exists s2. rewrite <-Et in E2. split; [exact E2|]. change (tables (S d) (view s) t) with (g ++ [t / 4096]). split.
    + rewrite reverse_app, <-app_assoc. exact R1.
    + rewrite R2, Ws. done.
    + intros a Ha. rewrite R3, Wm; [done| | |]; intros Hx; apply Ha, elem_of_app; [by left|right; by apply list_elem_of_singleton|by right].
    + intros pg Hpg. rewrite R4, Wr; [done| |]; intros Hx; apply Hpg, elem_of_app; [by left|by right].
Qed.

(** ** The tables of an address space *)

Definition lvl (p : path) : nat := match p with P2 => 3 | P1 _ => 2 | P0 _ _ => 1 end.
(** [q] is [p] or a table below it. *)
Definition under (p q : path) : Prop :=
  match p, q with
  | P2, _ => True
  | P1 i, P1 i' | P1 i, P0 i' _ => i = i'
  | P0 i j, P0 i' j' => i = i' ∧ j = j'
  | _, _ => False
  end.

Lemma under_extend p i q : parent_of p → under (extend p i) q → under p q.
Proof using Type. destruct p, q; cbn; naive_solver. Qed.
Lemma under_inj p i j q : parent_of p → under (extend p i) q → under (extend p j) q → i = j.
Proof using Type. destruct p, q; cbn; naive_solver. Qed.
Lemma under_strict p i : parent_of p → ¬ under (extend p i) p.
Proof using Type. destruct p; cbn; naive_solver. Qed.
Lemma lvl_extend p i d : lvl p = S (S d) → lvl (extend p i) = S d ∧ parent_of p.
Proof using Type. destruct p; cbn; intros [=]; subst; done. Qed.

Lemma node_extend E root p t i :
  parent_of p → node E root p = Some t → has (E t i) PTE_V = true → node E root (extend p i) = Some (PTE2PA (E t i)).
Proof using Type.
  destruct p; intros Hp Hn Hv; cbn in *; [| |done].
  - injection Hn as ->. unfold child. by rewrite Hv.
  - rewrite Hn. cbn. unfold child. by rewrite Hv.
Qed.

Section tree.
Context (s : kstate) (root : Z) (l : list Z).
Context (A : as_ok s root l) (O : owned s root) (Hun : ∀ v, 0 ≤ v < MAXVA → has (leaf (view s) root v) PTE_V = false).

(** The entries of a table of leaves are entries of addresses. *)
Lemma no_leaf i j t k :
  idx_ok i → idx_ok j → idx_ok k → node (view s) root (P0 i j) = Some t → has (view s t k) PTE_V = false.
Proof using O Hun.
  unfold idx_ok. intros Hi Hj Hk Hn. destruct (decide (i < 256)) as [Hlt|Hge].
  - set (v := i * 1073741824 + j * 2097152 + k * 4096).
    assert (Hv : 0 ≤ v < MAXVA) by (change MAXVA with 274877906944; lia).
    assert (PX 2 v = i ∧ PX 1 v = j ∧ PX 0 v = k) as (P2' & P1' & P0').
    { rewrite !px_eq by lia. change (2 ^ (12 + 9 * 2)) with 1073741824. change (2 ^ (12 + 9 * 1)) with 2097152.
      change (2 ^ (12 + 9 * 0)) with 4096. unfold v. clear Hun Hn Hv v O. split_and!; dlia. }
    pose proof (Hun v Hv) as H. unfold leaf, va_path in H. by rewrite P2', P1', P0', Hn in H.
  - exfalso. cbn [node] in Hn. apply bind_Some in Hn as (t1 & Ht1 & _). unfold child in Ht1.
    by rewrite (ow_low _ _ O) in Ht1 by lia.
Qed.

Lemma parent_or_leaf p t i : path_ok p → idx_ok i → node (view s) root p = Some t → has (view s t i) PTE_V = true → parent_of p.
Proof using O Hun.
  destruct p as [|a|a b]; [done|done|]. intros [Ha Hb] Hi Hn Hv. by rewrite (no_leaf a b t i) in Hv.
Qed.

Lemma path_ok_extend p i : path_ok p → idx_ok i → path_ok (extend p i).
Proof using Type. by destruct p. Qed.

Lemma tree_clean d p t : lvl p = d → path_ok p → node (view s) root p = Some t → clean d (view s) t.
Proof using A O Hun.
  revert p t. induction d as [|d IH]; intros p t Hl Hp Hn; [by destruct p|].
  split; [by eapply (wf_tbl _ _ (as_wf _ _ _ A))|]. intros i Hi Hv.
  pose proof (parent_or_leaf p t i Hp Hi Hn Hv) as Hpar. split; [by eapply (ow_ptr _ _ O)|].
  destruct d as [|d]; [by destruct p|]. destruct (lvl_extend p i d Hl) as [Hl' _].
  apply (IH (extend p i)); [done|by apply path_ok_extend|by apply node_extend].
Qed.

Lemma tree_nodes d p t pg :
  lvl p = d → path_ok p → node (view s) root p = Some t → pg ∈ tables d (view s) t →
  ∃ q u, path_ok q ∧ under p q ∧ node (view s) root q = Some u ∧ u / 4096 = pg.
Proof using O Hun.
  revert p t. induction d as [|d IH]; intros p t Hl Hp Hn Hpg; [by destruct p|].
  cbn [tables] in Hpg. apply elem_of_app in Hpg as [Hpg|Hpg].
  - apply list_elem_of_bind in Hpg as (k & Hpg & Hk). apply elem_of_seq in Hk.
    assert (Hi : idx_ok (Z.of_nat k)) by (unfold idx_ok; lia).
    destruct (has (view s t (Z.of_nat k)) PTE_V) eqn:Hv; [|by apply not_elem_of_nil in Hpg].
    pose proof (parent_or_leaf p t _ Hp Hi Hn Hv) as Hpar. destruct d as [|d]; [by destruct p|].
    destruct (lvl_extend p (Z.of_nat k) d Hl) as [Hl' _].
    destruct (IH (extend p (Z.of_nat k)) _ Hl' (path_ok_extend _ _ Hp Hi) (node_extend _ _ _ _ _ Hpar Hn Hv) Hpg) as (q & u & Hq & Hu & H).
    exists q, u. split_and!; [done|by eapply under_extend|apply H|apply H].
  - apply list_elem_of_singleton in Hpg as ->. exists p, t. split_and!; [done|by destruct p|done|done].
Qed.

Lemma same_table q q' u u' :
  path_ok q → path_ok q' → node (view s) root q = Some u → node (view s) root q' = Some u' → u / 4096 = u' / 4096 → q = q'.
Proof using A.
  intros Hq Hq' Hu Hu' E. pose proof (as_wf _ _ _ A) as WF. apply (wf_inj _ _ WF q q' u); try done.
  destruct (wf_tbl _ _ WF _ _ Hq Hu) as [H1 _]. destruct (wf_tbl _ _ WF _ _ Hq' Hu') as [H2 _]. unfold PGSIZE in *.
  replace u with u' by (clear Hun; dlia). done.
Qed.

Lemma tree_nodup d p t : lvl p = d → path_ok p → node (view s) root p = Some t → NoDup (tables d (view s) t).
Proof using A O Hun.
  revert p t. induction d as [|d IH]; intros p t Hl Hp Hn; [by destruct p|]. cbn [tables].
  assert (Hsub : ∀ k, k ∈ upto 512 → has (view s t (Z.of_nat k)) PTE_V = true →
    parent_of p ∧ lvl (extend p (Z.of_nat k)) = d ∧ path_ok (extend p (Z.of_nat k)) ∧
    node (view s) root (extend p (Z.of_nat k)) = Some (PTE2PA (view s t (Z.of_nat k)))).
  { intros k Hk Hv. apply elem_of_seq in Hk. assert (Hi : idx_ok (Z.of_nat k)) by (unfold idx_ok; lia).
    pose proof (parent_or_leaf p t _ Hp Hi Hn Hv) as Hpar. destruct d as [|d]; [by destruct p|].
    split_and!; [done|by apply lvl_extend|by apply path_ok_extend|by apply node_extend]. }
  apply NoDup_app. split_and!; [apply NoDup_bind| |apply NoDup_singleton].
  - intros k1 k2 pg H1 H2 P1' P2'. destruct (has (view s t (Z.of_nat k1)) PTE_V) eqn:V1; [|by apply not_elem_of_nil in P1'].
    destruct (has (view s t (Z.of_nat k2)) PTE_V) eqn:V2; [|by apply not_elem_of_nil in P2'].
    destruct (Hsub k1 H1 V1) as (Hpar & A1 & A2 & A3). destruct (Hsub k2 H2 V2) as (_ & B1 & B2 & B3).
    destruct (tree_nodes _ _ _ _ A1 A2 A3 P1') as (q1 & u1 & Q1 & U1 & N1 & G1).
    destruct (tree_nodes _ _ _ _ B1 B2 B3 P2') as (q2 & u2 & Q2 & U2 & N2 & G2).
    assert (q1 = q2) as -> by (by apply (same_table q1 q2 u1 u2); [..|congruence]).
    apply Nat2Z.inj. by eapply under_inj.
  - intros k Hk. destruct (has (view s t (Z.of_nat k)) PTE_V) eqn:V; [|constructor].
    destruct (Hsub k Hk V) as (_ & A1 & A2 & A3). by eapply IH.
  - apply NoDup_seq.
  - intros pg Hpg Ht. apply list_elem_of_singleton in Ht as ->. apply list_elem_of_bind in Hpg as (k & Hpg & Hk).
    destruct (has (view s t (Z.of_nat k)) PTE_V) eqn:V; [|by apply not_elem_of_nil in Hpg].
    destruct (Hsub k Hk V) as (Hpar & A1 & A2 & A3). destruct (tree_nodes _ _ _ _ A1 A2 A3 Hpg) as (q & u & Q & U & N & G).
    assert (q = p) as -> by (by apply (same_table q p u t)). by apply (under_strict p (Z.of_nat k)).
Qed.

Lemma tree_all q u : path_ok q → node (view s) root q = Some u → u / 4096 ∈ tables 3 (view s) root.
Proof using Type.
  assert (Hc : ∀ t i u, child (view s) t i = Some u → has (view s t i) PTE_V = true ∧ PTE2PA (view s t i) = u).
  { intros t i x. unfold child. destruct (has (view s t i) PTE_V); [|done]. by intros [= ->]. }
  destruct q as [|i|i j]; cbn [node path_ok].
  - intros _ [= <-]. apply tables_self.
  - intros Hi [Hv <-]%Hc. eapply tables_sub; [done|done|apply tables_self].
  - intros [Hi Hj] H. apply bind_Some in H as (t1 & [Hv1 <-]%Hc & [Hv2 <-]%Hc).
    apply (tables_sub 2 _ _ i _ Hi Hv1), (tables_sub 1 _ _ j _ Hj Hv2). apply tables_self.
Qed.

Lemma freewalk_space :
  L_kmem ∉ k_held s → ∃ s', freewalk root s = Ok tt s' ∧ released s s' l (tables 3 (view s) root) ∧
    (∀ pg, pg ∈ tables 3 (view s) root ↔ ∃ p t, path_ok p ∧ node (view s) root p = Some t ∧ t / 4096 = pg).
Proof using LO A O Hun.
  intros Hh.
  assert (Hin : ∀ pg, pg ∈ tables 3 (view s) root → ∃ p t, path_ok p ∧ node (view s) root p = Some t ∧ t / 4096 = pg).
  { intros pg Hpg. destruct (tree_nodes 3 P2 root pg eq_refl I eq_refl Hpg) as (q & u & Hq & _ & H). by exists q, u. }
  destruct (freewalk_ok 3 root s l) as (s' & E & R).
  - by apply (tree_clean 3 P2).
  - apply A.
  - done.
  - apply NoDup_app. split_and!; [by apply (tree_nodup 3 P2)| |apply A].
    intros pg Hpg. destruct (Hin pg Hpg) as (p & t & Hp & Hn & <-). by apply (as_fresh _ _ _ A p).
  - apply Forall_forall. intros pg Hpg. destruct (Hin pg Hpg) as (p & t & Hp & Hn & <-). by apply (ow_page _ _ O p).
  - exists s'. split_and!; [exact E|exact R|]. intros pg. split; [apply Hin|]. intros (p & t & Hp & Hn & <-). by apply (tree_all p).
Qed.
End tree.

(** ** proc_freepagetable() *)

(** Removing a page without freeing its frame. *)
Lemma uvmunmap_keep s root l va :
  as_ok s root l → va mod 4096 = 0 → 0 ≤ va < MAXVA →
  has (leaf (view s) root va) PTE_V = true → PTE_FLAGS (leaf (view s) root va) ≠ PTE_V →
  ∃ s', uvmunmap root va 1 false s = Ok tt s' ∧ as_ok s' root l ∧ grows s s' root l l ∧ same_nodes (view s) (view s') root ∧
    (∀ v, 0 ≤ v < MAXVA → leaf (view s') root v = if decide (v / 4096 = va / 4096) then 0 else leaf (view s) root v).
Proof using LO.
  intros A Ha Hva Hv Hfl. assert (HM : MAXVA = 274877906944) by done.
  destruct (node (view s) root (va_path va)) as [t0|] eqn:Hn; [|unfold leaf in Hv; by rewrite Hn in Hv].
  assert (El : leaf (view s) root va = ld64 (mem s) (t0 + 8 * PX 0 va)) by (unfold leaf; by rewrite Hn).
  pose proof (wf_tbl _ _ (as_wf _ _ _ A) _ _ (va_path_ok va) Hn) as Ht0.
  pose proof (tbl_slot_ram t0 _ Ht0 (px_idx_ok 0 va ltac:(lia))) as Hram.
  destruct (leaf_stored s root l va t0 0 A Hva Hn ltac:(lia)) as (A' & G & Hs & Lf).
  eexists. split; [|split_and!; [exact A'|exact G|exact Hs|exact Lf]].
  unfold uvmunmap, PGSIZE. rewrite (proj2 (Z.eqb_eq _ _) Ha). cbn [negb]. rewrite Z.mul_1_l, u64_small by lia.
  replace ((va + 4096 - va) / 4096) with 1 by (clear - va; dlia). cbn [Z.to_nat Pos.to_nat Pos.iter_op uvmunmap_loop].
  rewrite (proj2 (Z.ltb_lt _ _)) by lia. cbn [negb].
  rewrite (bind_ok _ _ _ _ _ (walk_present s root va false t0 (as_wf _ _ _ A) Hva Hn)).
  rewrite (proj2 (Z.eqb_neq _ _)) by (destruct Hram; unfold KERNBASE in *; lia).
  rewrite (bind_ok _ _ _ _ _ (load64_run _ s Hram)), <-El, Hv. cbn [negb].
  rewrite (proj2 (Z.eqb_neq _ _) Hfl). unfold when, skip. rewrite bind_ret.
  rewrite (bind_ok _ _ _ _ _ (store64_run _ _ s Hram)). unfold PGSIZE. rewrite u64_small by lia.
  change (Z.to_nat 1) with 1%nat. cbn [uvmunmap_loop]. by rewrite Z.ltb_irrefl.
Qed.

(** The address space of a process with [sz] bytes of memory in the frames
    [pgs]: nothing else is mapped but the trampoline and the trap frame. *)
Record space_ok (s : kstate) (root : Z) (l : list Z) (sz : Z) (pgs : list Z) : Prop := {
  sp_as : as_ok s root l;
  sp_owned : owned s root;
  sp_size : 0 ≤ sz ∧ PGROUNDUP sz = 4096 * Z.of_nat (length pgs) ∧ PGROUNDUP sz ≤ TRAPFRAME;
  sp_nodup : NoDup pgs;
  sp_user i pg : pgs !! i = Some pg → user_page s root l (4096 * Z.of_nat i) pg;
  sp_top v : v = TRAMPOLINE ∨ v = TRAPFRAME → has (leaf (view s) root v) PTE_V = true ∧ PTE_FLAGS (leaf (view s) root v) ≠ PTE_V;
  sp_rest v : PGROUNDUP sz ≤ v < TRAPFRAME → has (leaf (view s) root v) PTE_V = false;
}.

Lemma user_page_grows s s' root l va pg :
  grows s s' root l l → leaf (view s') root va = leaf (view s) root va → user_page s root l va pg → user_page s' root l va pg.
Proof using LO.
  intros G E [U1 U2 U3 U4 U5 U6]. split; rewrite ?E; [done|done|done|done|by eapply grows_plain|].
  rewrite (gr_ref _ _ _ _ _ G); [done|apply U5].
Qed.

(** The user pages, when there are any. *)
Lemma unmap_user s root l sz pgs :
  as_ok s root l → L_kmem ∉ k_held s → 0 ≤ sz → PGROUNDUP sz = 4096 * Z.of_nat (length pgs) → PGROUNDUP sz ≤ TRAPFRAME → NoDup pgs →
  (∀ i pg, pgs !! i = Some pg → user_page s root l (4096 * Z.of_nat i) pg) →
  ∃ s', when (0 <? sz) (uvmunmap root 0 (PGROUNDUP sz / PGSIZE) true) s = Ok tt s' ∧
    as_ok s' root (reverse pgs ++ l) ∧ unmapped s s' root l pgs ∧
    (∀ v, 0 ≤ v < MAXVA → leaf (view s') root v = if decide (v < PGROUNDUP sz) then 0 else leaf (view s) root v).
Proof using LO.
  intros A Hh Hsz Hlen Htop Hnd Hup. change TRAPFRAME with 274877898752 in Htop. unfold when. destruct (Z.ltb_spec 0 sz) as [Hpos|Hz].
  - destruct (uvmunmap_ok s root l 0 pgs) as (s' & E & A' & U & Lf); [done|done|done|done|change MAXVA with 274877906944; lia|done|exact Hup|].
    exists s'. rewrite Hlen. unfold PGSIZE. rewrite (Z.mul_comm 4096), Z.div_mul by lia. split_and!; [exact E|exact A'|exact U|].
    intros v Hv. rewrite Lf by done. rewrite Z.mul_comm. repeat case_decide; (done || lia).
  - assert (sz = 0) as -> by lia. assert (PGROUNDUP 0 = 0) as E0 by done. rewrite E0 in *.
    destruct pgs as [|pg pgs]; [|cbn [length] in Hlen; lia]. exists s. split_and!; [done|done| |].
    + split; [by rewrite set_mm_id|done..].
    + intros v Hv. rewrite decide_False by lia. done.
Qed.

Lemma freepagetable_ok s root l sz pgs :
  space_ok s root l sz pgs → L_kmem ∉ k_held s →
  ∃ s' ts, proc_freepagetable root sz s = Ok tt s' ∧ free_list (k_mm s') (reverse ts ++ reverse pgs ++ l) ∧
    (∀ pg, pg ∈ ts ↔ ∃ p t, path_ok p ∧ node (view s) root p = Some t ∧ t / 4096 = pg) ∧
    s' = set_mm (k_mm s') s ∧
    (∀ a, plain s root l (a / 4096) → a / 4096 ∉ pgs → ld8 (mem s') a = ld8 (mem s) a) ∧
    (∀ pg, plain s root l pg → pg ∉ pgs → run_at (k_mm s') (run_addr pg) = run_at (k_mm s) (run_addr pg)).
Proof using LO.
  intros [A O (Hsz & Hlen & Htop) Hnd Hup Ht Hrest] Hh.
  assert (HT : TRAMPOLINE = 274877902848 ∧ TRAPFRAME = 274877898752 ∧ MAXVA = 274877906944) by done. destruct HT as (HT1 & HT2 & HM).
  destruct (Ht TRAMPOLINE ltac:(by left)) as [V1 F1]. destruct (Ht TRAPFRAME ltac:(by right)) as [V2 F2].
  destruct (uvmunmap_keep s root l TRAMPOLINE A eq_refl ltac:(lia) V1 F1) as (s1 & E1 & A1 & G1 & N1 & L1).
  assert (L1f : ∀ v, 0 ≤ v < TRAMPOLINE → leaf (view s1) root v = leaf (view s) root v).
  { intros v Hv. rewrite L1 by lia. rewrite decide_False; [done|]. rewrite HT1 in *. clear - Hv. dlia. }
  destruct (uvmunmap_keep s1 root l TRAPFRAME A1 eq_refl ltac:(lia)) as (s2 & E2 & A2 & G2 & N2 & L2); [by rewrite L1f by lia..|].
  assert (L2f : ∀ v, 0 ≤ v < TRAPFRAME → leaf (view s2) root v = leaf (view s) root v).
  { intros v Hv. rewrite L2 by lia. rewrite decide_False; [apply L1f; lia|]. rewrite HT2 in *. clear - Hv. dlia. }
  pose proof (grows_trans _ _ _ _ _ _ _ G1 G2) as G.
  assert (Hh2 : L_kmem ∉ k_held s2) by (rewrite (gr_state _ _ _ _ _ G); exact Hh).
  destruct (unmap_user s2 root l sz pgs A2 Hh2 Hsz Hlen Htop Hnd) as (s3 & E3 & A3 & U & L3).
  { intros i pg Hi. eapply user_page_grows; [exact G|apply L2f; apply lookup_lt_Some in Hi; lia|by apply Hup]. }
  destruct (freewalk_space s3 root (reverse pgs ++ l) A3) as (s4 & E4 & [R1 R2 R3 R4] & Hts).
  { by apply (un_owned _ _ _ _ _ U), (gr_owned _ _ _ _ _ G). }
  { intros v Hv. rewrite L3 by done. case_decide; [done|]. rewrite L2 by done. case_decide; [done|].
    destruct (decide (v < TRAPFRAME)); [|rewrite L1 by done; rewrite decide_True; [done|]; rewrite HT1, HT2, HM in *; clear - H0 n Hv; dlia].
    rewrite L1f by lia. apply Hrest. lia. }
  { rewrite (un_state _ _ _ _ _ U). exact Hh2. }
  assert (Hn : ∀ p, path_ok p → node (view s3) root p = node (view s) root p).
  { intros p Hp. by rewrite (un_nodes _ _ _ _ _ U), N2, N1. }
  assert (Hpl : ∀ pg, plain s root l pg → pg ∉ tables 3 (view s3) root).
  { intros pg [_ Hp] Hx. apply Hts in Hx as (p & t & Hpo & Hx & <-). rewrite Hn in Hx by done. by apply (Hp p t). }
  exists s4, (tables 3 (view s3) root). split_and!.
  - unfold proc_freepagetable, uvmfree. rewrite (bind_ok _ _ _ _ _ E1), (bind_ok _ _ _ _ _ E2), (bind_ok _ _ _ _ _ E3). exact E4.
  - exact R1.
  - intros pg. rewrite Hts. split; intros (p & t & Hp & Hx & Hg); exists p, t; (split_and!; [done| |done]); [by rewrite <-Hn|by rewrite Hn].
  - rewrite R2, (un_state _ _ _ _ _ U), (gr_state _ _ _ _ _ G). done.
  - intros a Ha Hni. rewrite R3 by (by apply Hpl). rewrite (un_mem _ _ _ _ _ U), (gr_mem _ _ _ _ _ G); [done|done| |done].
    by eapply grows_plain.
  - intros pg Ha Hni. rewrite R4 by (by apply Hpl). rewrite (un_ref _ _ _ _ _ U) by done. apply (gr_ref _ _ _ _ _ G), Ha.
Qed.
End free.

Section life.
Context {L : Layout} {LO : LayoutOk L}.

(** The permissions uvmalloc() gives. *)
Definition UWXR : Z := Z.lor (Z.lor (Z.lor PTE_W PTE_X) PTE_R) PTE_U.

Definition r_user (k : nat) (g : Z) : region := Region (4096 * Z.of_nat k) (4096 * g) 1 UWXR.
Fixpoint user_regions (gs : list Z) : list region :=
  match gs with [] => [] | g :: gs => r_user (length gs) g :: user_regions gs end.
Definition r_trapframe (tf : Z) : region := Region TRAPFRAME (4096 * tf) 1 RW.
Definition space_regions (tf : Z) (gs : list Z) : list region := user_regions gs ++ [r_trapframe tf; r_trampoline].

Lemma page_cost r : rg_pages r = 1%nat → cost r = 2%nat.
Proof using Type. intros E. unfold cost, crossings. rewrite E. cbn [pred]. by rewrite Z.mul_0_r, Z.add_0_r, Z.sub_diag. Qed.

Lemma user_bounds k g : rg_va (r_user k g) = 4096 * Z.of_nat k ∧ rg_end (r_user k g) = 4096 * Z.of_nat (S k).
Proof using Type. unfold rg_end. cbn [rg_va rg_pages r_user]. lia. Qed.

Lemma top_bounds tf :
  (rg_va (r_trapframe tf) = 0x3fffffe000 ∧ rg_end (r_trapframe tf) = 0x3ffffff000) ∧
  (rg_va r_trampoline = 0x3ffffff000 ∧ rg_end r_trampoline = 0x4000000000).
Proof using Type. done. Qed.

Lemma page_region_ok va g perm :
  va mod 4096 = 0 → 0 ≤ va < MAXVA → page_ok g → 0 ≤ perm < 1024 → region_ok (Region va (4096 * g) 1 perm).
Proof using LO.
  intros Hv1 Hv2 [H1 H2] Hp. pose proof l_end_range. unfold PHYSTOP, KERNBASE in *. change MAXVA with 274877906944 in *.
  split; unfold rg_end; cbn [rg_va rg_pa rg_pages rg_perm]; [lia| |lia|change MAXVA with 274877906944; dlia|lia|done].
  split; [rewrite Z.mul_comm; apply Z.mod_mul|]; lia.
Qed.

Lemma user_ok k g : 4096 * Z.of_nat k < 0x3fffffe000 → page_ok g → region_ok (r_user k g).
Proof using LO.
  intros Hk Hg. apply page_region_ok; [rewrite Z.mul_comm; apply Z.mod_mul; lia|change MAXVA with 274877906944; lia|done|by vm_compute].
Qed.

Lemma trapframe_ok tf : page_ok tf → region_ok (r_trapframe tf).
Proof using LO. intros Hg. apply page_region_ok; [done|by vm_compute|done|by vm_compute]. Qed.

Lemma trampoline_ok : region_ok r_trampoline.
Proof using LO. pose proof fixed_ok as Hf. rewrite Forall_forall in Hf. apply Hf. set_solver. Qed.

Lemma user_elem gs r : r ∈ user_regions gs → ∃ k g, (k < length gs)%nat ∧ g ∈ gs ∧ r = r_user k g.
Proof using Type.
  induction gs as [|g gs IH]; cbn [user_regions]; intros H; [by apply not_elem_of_nil in H|].
  apply elem_of_cons in H as [->|H].
  - exists (length gs), g. split_and!; [cbn; lia|by left|done].
  - destruct (IH H) as (k & g' & Hk & Hg & ->). exists k, g'. split_and!; [cbn; lia|by right|done].
Qed.

Lemma user_of gs k g : reverse gs !! k = Some g → r_user k g ∈ user_regions gs.
Proof using Type.
  induction gs as [|x gs IH]; [done|]. rewrite reverse_cons. intros H. cbn [user_regions].
  apply lookup_app_Some in H as [H|[Hlen H]]; [right; by apply IH|]. rewrite length_reverse in *.
  apply list_lookup_singleton_Some in H as [Hp <-]. replace k with (length gs) by lia. by left.
Qed.

Lemma user_apart tf gs g :
  4096 * Z.of_nat (length gs) < 0x3fffffe000 → Forall (apart (r_user (length gs) g)) (space_regions tf gs).
Proof using Type.
  intros Hk. destruct (user_bounds (length gs) g) as [Hv He]. destruct (top_bounds tf) as ((T1 & T2) & (U1 & U2)).
  apply Forall_app. split.
  - apply Forall_forall. intros r Hr. apply user_elem in Hr as (k & g' & Hlt & _ & ->).
    destruct (user_bounds k g') as [Hv' He']. unfold apart. lia.
  - repeat apply Forall_cons_2; [..|apply Forall_nil_2]; unfold apart; lia.
Qed.

Lemma space_apart tf gs : 4096 * Z.of_nat (length gs) ≤ 0x3fffffe000 → all_apart (space_regions tf gs).
Proof using Type.
  induction gs as [|g gs IH]; intros H.
  - destruct (top_bounds tf) as ((T1 & T2) & (U1 & U2)). cbn [space_regions user_regions app all_apart].
    split_and!; [apply Forall_cons_2; [unfold apart; lia|apply Forall_nil_2]|apply Forall_nil_2|done].
  - cbn [length] in H. split; [apply user_apart; lia|apply IH; lia].
Qed.

Lemma space_elem tf gs r :
  r ∈ space_regions tf gs → r = r_trapframe tf ∨ r = r_trampoline ∨ ∃ k g, (k < length gs)%nat ∧ g ∈ gs ∧ r = r_user k g.
Proof using Type.
  intros H. apply elem_of_app in H as [H|H]; [right; right; by apply user_elem|]. rewrite !elem_of_cons in H.
  destruct H as [->|[->|H]]; [by left|right; by left|by apply not_elem_of_nil in H].
Qed.

(** ** The books of the allocator *)

Definition is_table (s : kstate) (root pg : Z) : Prop := ∃ p t, path_ok p ∧ node (view s) root p = Some t ∧ t / 4096 = pg.

(** kalloc() and memset(): a page of zeroes that is nobody's yet. *)
Record new_page (s s1 : kstate) (root : Z) (l : list Z) (g : Z) : Prop := {
  np_as : as_ok s1 root l;
  np_owned : owned s1 root;
  np_state : s1 = set_mm (k_mm s1) s;
  np_nodes : same_nodes (view s) (view s1) root;
  np_leaf v : 0 ≤ v < MAXVA → leaf (view s1) root v = leaf (view s) root v;
  np_mem a : a / 4096 ≠ g → ld8 (mem s1) a = ld8 (mem s) a;
  np_ref pg : pg ≠ g → run_at (k_mm s1) (run_addr pg) = run_at (k_mm s) (run_addr pg);
  np_plain : plain s1 root l g;
  np_once : once s1 g;
  np_zero o : 0 ≤ o < 4096 → ld8 (mem s1) (4096 * g + o) = 0;
}.

Lemma new_root_mem s g a : ld8 (mem (new_root g s)) a = if decide (a / 4096 = g) then 0 else ld8 (mem s) a.
Proof using Type.
  unfold new_root. rewrite mem_put_mem, ld8_memset, pgnat_eq. pose proof (taken_mem (k_mm s) g a) as Et.
  destruct (decide (a / 4096 = g)); [by rewrite decide_True by dlia|]. rewrite decide_False by dlia.
  rewrite decide_False in Et by dlia. exact Et.
Qed.

Lemma new_root_ref s g pg : page_ok g →
  run_at (k_mm (new_root g s)) (run_addr pg) = if decide (pg = g) then Run (r_next (run_at (k_mm s) (run_addr g))) 1 else run_at (k_mm s) (run_addr pg).
Proof using LO.
  intros Hg. unfold run_at at 1, new_root, taken. cbn [k_mm set_mm put_mem set_mem mm_runs].
  destruct (decide (pg = g)) as [->|Hne]; [by rewrite lookup_insert_eq|].
  rewrite lookup_insert_ne; [done|]. intros E%run_addr_inj. congruence.
Qed.

Lemma new_page_ok s root g l :
  as_ok s root (g :: l) → owned s root → new_page s (new_root g s) root l g.
Proof using LO.
  intros A [Opg Optr Olow]. pose proof (as_free _ _ _ A) as Hf. pose proof Hf as (_ & _ & Hok). apply Forall_cons in Hok as [Hg _].
  pose proof (new_root_mem s g) as Hm. pose proof (λ pg, new_root_ref s g pg Hg) as Hr.
  destruct (touch_ok s (new_root g s) root g l A) as (A1 & Hp & Hn & Hl).
  { by apply free_list_set_mem, taken_free_list. }
  { intros a Ha. by rewrite Hm, decide_False. }
  assert (Hne : ∀ p t, path_ok p → node (view s) root p = Some t → t / 4096 ≠ g).
  { intros p t Hpo Ht E. apply (as_fresh _ _ _ A p t Hpo Ht). rewrite E. by left. }
  assert (He : ∀ p t i, path_ok p → node (view s) root p = Some t → idx_ok i → view (new_root g s) t i = view s t i).
  { intros p t i Hpo Ht Hi. apply entries_keep; [apply (wf_tbl _ _ (as_wf _ _ _ A) p t Hpo Ht)|done|].
    intros a Ea. rewrite Hm, decide_False; [done|]. rewrite Ea. exact (Hne p t Hpo Ht). }
  split; [exact A1| |reflexivity|exact Hn|exact Hl| | |exact Hp| |].
  - split.
    + intros p t Hpo. rewrite Hn by done. intros Ht. rewrite Hr, decide_False; [exact (Opg p t Hpo Ht)|exact (Hne p t Hpo Ht)].
    + intros p t i Hpo Hpar. rewrite Hn by done. intros Ht Hi. rewrite (He p t i Hpo Ht Hi). exact (Optr p t i Hpo Hpar Ht Hi).
    + intros i Hi. rewrite (He P2 root i I eq_refl ltac:(unfold idx_ok; lia)). exact (Olow i Hi).
  - intros a Ha. by rewrite Hm, decide_False.
  - intros pg Hpg. by rewrite Hr, decide_False.
  - split; [exact Hg|]. by rewrite Hr, decide_True.
  - intros o Ho. rewrite Hm, decide_True; [done|]. dlia.
Qed.

Lemma is_table_same s s1 root pg : same_nodes (view s) (view s1) root → is_table s1 root pg ↔ is_table s root pg.
Proof using Type. intros Hn. split; intros (p & t & Hp & H & E); exists p, t; (split_and!; [done| |done]); [by rewrite <-Hn|by rewrite Hn]. Qed.

(** A page taken from the free list for the tables is a table. *)
Lemma books_grow s s' root l l' pg :
  grows s s' root l l' → pg ∈ l ∨ is_table s root pg ↔ pg ∈ l' ∨ is_table s' root pg.
Proof using LO.
  intros G. split.
  - intros [H|(p & t & Hp & Hn & E)].
    + destruct (gr_used _ _ _ _ _ G pg H) as [?|(p & Hp & Hn)]; [by left|]. right. exists p, (4096 * pg). by rewrite page_of_mul.
    + right. exists p, t. split_and!; [done|by apply (gr_keep _ _ _ _ _ G)|done].
  - intros [H|(p & t & Hp & Hn & E)]; [left; eapply suffix_elem; [apply G|done]|].
    destruct (gr_node _ _ _ _ _ G p t Hp Hn) as [?|?]; [right; by exists p, t|left; by rewrite <-E].
Qed.

Section grow.
Context (s0 : kstate) (root : Z) (l0 : list Z) (tf : Z).

(** The frames [gs] are mapped and hold zeroes; each page of [l0] is free, a
    frame or a table. *)
Record grown (gs l : list Z) (s : kstate) : Prop := {
  gw_map : kmapped s root l (space_regions tf gs);
  gw_owned : owned s root;
  gw_state : s = set_mm (k_mm s) s0;
  gw_nodup : NoDup gs;
  gw_frame g : g ∈ gs → plain s root l g ∧ once s g ∧ ∀ o, 0 ≤ o < 4096 → ld8 (mem s) (4096 * g + o) = 0;
  gw_books pg : pg ∈ l0 ↔ pg ∈ l ∨ pg ∈ gs ∨ is_table s root pg;
  gw_len : (length l0 ≤ 5 + 3 * length gs + length l)%nat;
  gw_mem a : a / 4096 ∉ l0 → ld8 (mem s) a = ld8 (mem s0) a;
  gw_ref pg : pg ∉ l0 → run_at (k_mm s) (run_addr pg) = run_at (k_mm s0) (run_addr pg);
}.

(** A page that was not free before is none of the address space's. *)
Lemma grown_outside gs l s pg : grown gs l s → pg ∉ l0 → plain s root l pg ∧ pg ∉ gs.
Proof using Type.
  intros W Hpg. pose proof (gw_books _ _ _ W pg) as Hb. split; [split|]; [tauto| |tauto].
  intros p t Hp Hn E. apply Hpg, Hb. right. right. by exists p, t.
Qed.

Hypothesis Hh : L_kmem ∉ k_held s0.

(** One turn of the loop in uvmalloc(). *)
Lemma grow_step gs l s :
  grown gs l s → 4096 * Z.of_nat (length gs) < 0x3fffffe000 → (3 ≤ length l)%nat →
  ∃ g s1 s2 s' l', kalloc s = Ok (4096 * g) s1 ∧ 4096 * g ≠ 0 ∧ memset (4096 * g) 0 PGNAT s1 = Ok tt s2 ∧
    mappages root (4096 * Z.of_nat (length gs)) PGSIZE (4096 * g) UWXR s2 = Ok 0 s' ∧ grown (g :: gs) l' s'.
Proof using LO Hh.
  intros W Hk Hl. pose proof W as [Km Ow Es Hnd Hfr Hbk Hlen Hm0 Hr0]. destruct l as [|g l]; [cbn in Hl; lia|]. pose proof (km_as _ _ _ _ Km) as A.
  pose proof (as_free _ _ _ A) as Hf. pose proof Hf as (_ & _ & Hok). apply Forall_cons in Hok as [Hg _].
  assert (Hhs : L_kmem ∉ k_held s) by (rewrite Es; exact Hh).
  destruct (new_root_ok s g l Hf Hhs) as (E1 & E2 & _). destruct (new_page_ok s root g l A Ow) as [A1 O1 S1 N1 L1 M1 R1 P1 C1 Z1].
  set (s2 := new_root g s) in *. assert (Hh2 : L_kmem ∉ k_held s2) by exact Hhs. clearbody s2.
  assert (Km1 : kmapped s2 root l (space_regions tf gs)) by (split; [exact A1|]; intros v Hv; rewrite L1 by done; by apply Km).
  pose proof (page_cost (r_user (length gs) g) eq_refl) as Hc.
  destruct (mappages_region s2 root l _ (r_user (length gs) g) Km1) as (s' & l' & E3 & Km' & G & Hl');
    [by apply user_ok|by apply user_apart|exact Hh2|rewrite Hc; cbn [length] in Hl; lia|].
  rewrite Hc in Hl'. assert (Hgs : g ∉ gs) by (intros Hin; apply (proj1 (proj1 (Hfr g Hin))); by left).
  exists g, (set_mm (taken g (k_mm s)) s), s2, s', l'. split_and!; [exact E1| |exact E2|exact E3|].
  { destruct Hg. pose proof l_end_range. unfold KERNBASE in *. lia. }
  assert (Hkeep : ∀ x, plain s2 root l x → once s2 x → (∀ o, 0 ≤ o < 4096 → ld8 (mem s2) (4096 * x + o) = 0) →
    plain s' root l' x ∧ once s' x ∧ ∀ o, 0 ≤ o < 4096 → ld8 (mem s') (4096 * x + o) = 0).
  { intros x Hx [Hx1 Hx2] Hx3. split_and!; [by eapply grows_plain| |].
    - split; [done|]. rewrite (gr_ref _ _ _ _ _ G); [done|apply Hx].
    - intros o Ho. rewrite (gr_mem _ _ _ _ _ G); [by apply Hx3|]. by replace ((4096 * x + o) / 4096) with x by dlia. }
  split.
  - exact Km'.
  - by apply (gr_owned _ _ _ _ _ G).
  - rewrite (gr_state _ _ _ _ _ G), S1, Es. done.
  - apply NoDup_cons. exact (conj Hgs Hnd).
  - intros x Hx. apply elem_of_cons in Hx as [->|Hx]; [exact (Hkeep g P1 C1 Z1)|]. destruct (Hfr x Hx) as (F1 & [F2 F3] & F4).
    assert (x ≠ g) by (by intros ->). apply Hkeep.
    + eapply plain_frame; [exact N1|exact F1|]. intros Hin. apply (proj1 F1). by right.
    + split; [done|]. by rewrite R1.
    + intros o Ho. rewrite M1; [by apply F4|]. dlia.
  - intros pg. rewrite Hbk. pose proof (books_grow _ _ _ _ _ pg G) as Hb. rewrite (is_table_same s s2 root pg N1) in Hb.
    rewrite !elem_of_cons. tauto.
  - cbn [length] in *. lia.
  - intros a Ha. destruct (grown_outside _ _ _ _ W Ha) as [Hp _]. pose proof (proj1 Hp) as Hp1. apply not_elem_of_cons in Hp1 as [Hne Hni].
    rewrite (gr_mem _ _ _ _ _ G), M1; [by apply Hm0|exact Hne|]. by eapply plain_frame.
  - intros pg Ha. destruct (grown_outside _ _ _ _ W Ha) as [Hp _]. pose proof (proj1 Hp) as Hp1. apply not_elem_of_cons in Hp1 as [Hne Hni].
    rewrite (gr_ref _ _ _ _ _ G), R1; [by apply Hr0|exact Hne|exact Hni].
Qed.

Lemma uvmalloc_loop_ok m fuel gs l s sz :
  grown gs l s → PGROUNDUP sz = 4096 * Z.of_nat (length gs + m) → 0 ≤ sz ≤ 274877898752 → (m ≤ fuel)%nat →
  (5 + 3 * (length gs + m) ≤ length l0)%nat →
  ∃ gs' l' s', uvmalloc_loop fuel root (4096 * Z.of_nat (length gs)) 0 sz s = Ok sz s' ∧ grown gs' l' s' ∧ length gs' = (length gs + m)%nat.
Proof using LO Hh.
  revert fuel gs l s. induction m as [|m IH]; intros fuel gs l s W Hsz H0 Hfu Hroom.
  - assert (Hge : sz ≤ 4096 * Z.of_nat (length gs)).
    { rewrite pgroundup_eq in Hsz by lia. dlia. }
    exists gs, l, s. split_and!; [|done|lia]. destruct fuel; cbn [uvmalloc_loop]; by rewrite (proj2 (Z.ltb_ge _ _)).
  - destruct fuel as [|fuel]; [lia|].
    assert (Hlt : 4096 * Z.of_nat (length gs) < sz).
    { rewrite pgroundup_eq in Hsz by lia. dlia. }
    destruct (grow_step gs l s W) as (g & s1 & s2 & s3 & l3 & E1 & Hnz & E2 & E3 & W3); [lia|pose proof (gw_len _ _ _ W); lia|].
    destruct (IH fuel (g :: gs) l3 s3 W3) as (gs' & l' & s' & E & W' & Hl'); [cbn [length]; rewrite Hsz; f_equal; lia|done|lia|cbn [length]; lia|].
    exists gs', l', s'. split_and!; [|done|cbn [length] in Hl'; lia].
    cbn [uvmalloc_loop]. rewrite (proj2 (Z.ltb_lt _ _) Hlt). cbn [negb]. rewrite (bind_ok _ _ _ _ _ E1), (proj2 (Z.eqb_neq _ _) Hnz).
    rewrite (bind_ok _ _ _ _ _ E2), (bind_ok _ _ _ _ _ E3). cbn [Z.eqb negb].
    replace (u64 (4096 * Z.of_nat (length gs) + PGSIZE)) with (4096 * Z.of_nat (length (g :: gs))); [exact E|].
    cbn [length]. unfold PGSIZE. rewrite u64_small; lia.
Qed.
End grow.

(** ** proc_pagetable() *)

Lemma new_root_owned s pg l : free_list (k_mm s) (pg :: l) → owned (new_root pg s) (4096 * pg) ∧ (∀ x, is_table (new_root pg s) (4096 * pg) x ↔ x = pg).
Proof using LO.
  intros (_ & _ & Hok). apply Forall_cons in Hok as [Hpg _].
  assert (Hz : ∀ i, idx_ok i → view (new_root pg s) (4096 * pg) i = 0).
  { intros i Hi. unfold view, new_root. rewrite mem_put_mem. by apply entries_fill_zero. }
  pose proof (empty_nodes (new_root pg s) (4096 * pg)) as He. split; [split|].
  - intros p t Hp Ht. apply He in Ht as [_ ->]; [|done|done]. rewrite page_of_mul, new_root_ref, decide_True by done. done.
  - intros p t i Hp _ Ht Hi. apply He in Ht as [_ ->]; [|done|done]. by rewrite Hz.
  - intros i Hi. by rewrite Hz by (unfold idx_ok; lia).
  - intros x. split.
    + intros (p & t & Hp & Ht & <-). apply He in Ht as [_ ->]; [|done|done]. apply page_of_mul.
    + intros ->. exists P2, (4096 * pg). by rewrite page_of_mul.
Qed.

Lemma proc_pagetable_ok s p x tf l :
  free_list (k_mm s) l → L_kmem ∉ k_held s → k_procs s !! p = Some x → p_trapframe x = 4096 * tf → page_ok tf → (5 ≤ length l)%nat →
  ∃ root l' s', proc_pagetable p s = Ok root s' ∧ grown s root l tf [] l' s'.
Proof using LO.
  intros Hf Hh Hx Htf Hpg Hl. destruct l as [|pg l]; [cbn in Hl; lia|]. cbn [length] in Hl.
  destruct (new_root_ok s pg l Hf Hh) as (E1 & E2 & Km1). destruct (new_root_owned s pg l Hf) as [O1 T1].
  pose proof (new_root_mem s pg) as Hm. pose proof Hf as (_ & _ & Hok). apply Forall_cons in Hok as [Hpgo _].
  pose proof (λ q, new_root_ref s pg q Hpgo) as Hr.
  set (root := 4096 * pg) in *. set (s1 := new_root pg s) in *. assert (Es1 : s1 = set_mm (k_mm s1) s) by reflexivity.
  assert (Hh1 : L_kmem ∉ k_held s1) by exact Hh. clearbody s1.
  destruct (top_bounds tf) as ((B1 & B2) & (B3 & B4)).
  destruct (mappages_region s1 root l [] r_trampoline Km1 trampoline_ok) as (s2 & l2 & E3 & Km2 & G2 & Hl2); [constructor|exact Hh1|rewrite page_cost by done; lia|].
  rewrite page_cost in Hl2 by done.
  assert (Hh2 : L_kmem ∉ k_held s2) by (rewrite (gr_state _ _ _ _ _ G2); exact Hh1).
  destruct (mappages_region s2 root l2 _ (r_trapframe tf) Km2 (trapframe_ok tf Hpg)) as (s3 & l3 & E4 & Km3 & G3 & Hl3);
    [apply Forall_cons_2; [unfold apart; lia|constructor]|exact Hh2|rewrite page_cost by done; lia|].
  rewrite page_cost in Hl3 by done.
  pose proof (grows_trans _ _ _ _ _ _ _ G2 G3) as G.
  assert (Hx2 : k_procs s2 !! p = Some x) by (rewrite (gr_state _ _ _ _ _ G2), Es1; exact Hx).
  assert (Hnz : root ≠ 0).
  { destruct Hpgo. pose proof l_end_range. unfold KERNBASE in *. unfold root. lia. }
  exists root, l3, s3. split.
  { unfold proc_pagetable, uvmcreate. assert (E0 : (pagetable ← kalloc; if pagetable =? 0 then mret 0 else memset pagetable 0 PGNAT;; mret pagetable) s = Ok root s1).
    { rewrite (bind_ok _ _ _ _ _ E1), (proj2 (Z.eqb_neq _ _) Hnz), (bind_ok _ _ _ _ _ E2). done. }
    rewrite (bind_ok _ _ _ _ _ E0), (proj2 (Z.eqb_neq _ _) Hnz).
    change PGSIZE with (4096 * Z.of_nat 1). rewrite (bind_ok _ _ _ _ _ E3). cbn [Z.ltb Z.compare].
    rewrite (bind_ok _ _ _ _ _ (proc_at_run p s2 x Hx2)), Htf, (bind_ok _ _ _ _ _ E4). done. }
  split.
  - exact Km3.
  - by apply (gr_owned _ _ _ _ _ G).
  - rewrite (gr_state _ _ _ _ _ G), Es1. done.
  - constructor.
  - intros g Hg. destruct (not_elem_of_nil g Hg).
  - intros q. pose proof (books_grow _ _ _ _ _ q G) as Hb. rewrite T1 in Hb. rewrite elem_of_cons, elem_of_nil. tauto.
  - cbn [length]. lia.
  - intros a Ha. apply not_elem_of_cons in Ha as [Hne Hni]. rewrite (gr_mem _ _ _ _ _ G); [by rewrite Hm, decide_False|].
    split; [done|]. intros q t Hq Hn E. apply Hne, T1. by exists q, t.
  - intros q Ha. apply not_elem_of_cons in Ha as [Hne Hni]. by rewrite (gr_ref _ _ _ _ _ G), Hr, decide_False.
Qed.

(** ** The whole life *)

Section whole.
Context (s0 s : kstate) (root tf sz : Z) (l0 gs l : list Z).
Context (W : grown s0 root l0 tf gs l s) (Hsz : 0 ≤ sz ≤ 274877898752) (Hlen : PGROUNDUP sz = 4096 * Z.of_nat (length gs)) (Htf : page_ok tf).

Lemma whole_bound : 4096 * Z.of_nat (length gs) ≤ 274877898752.
Proof using Hsz Hlen. rewrite pgroundup_eq in Hlen by lia. clear W. dlia. Qed.

Lemma whole_reads r v :
  r ∈ space_regions tf gs → in_region r v →
  let e := leaf (view s) root v in e = pte_of (rg_pa r + (PGROUNDDOWN v - rg_va r)) (rg_perm r) ∧
  PTE2PA e = rg_pa r + (PGROUNDDOWN v - rg_va r) ∧ (∀ f, 0 ≤ f < 1024 → has e f = has (rg_perm r) f || has PTE_V f).
Proof using LO W Hsz Hlen Htf.
  intros Hr Hv. pose proof whole_bound as Hb. assert (Ro : region_ok r).
  { apply space_elem in Hr as [->|[->|(k & g & Hk & Hg & ->)]]; [by apply trapframe_ok|apply trampoline_ok|].
    apply user_ok; [lia|apply (gw_frame _ _ _ _ _ _ _ W g Hg)]. }
  assert (Hv' : 0 ≤ v < MAXVA) by (destruct Ro; unfold in_region in Hv; lia).
  pose proof (space_apart tf gs Hb) as Ha. cbv zeta. rewrite (km_leaf _ _ _ _ (gw_map _ _ _ _ _ _ _ W) v Hv').
  split; [by apply kpte_at|by apply kpte_reads].
Qed.

(** A page of its own region. *)
Lemma whole_page r :
  r ∈ space_regions tf gs → rg_pages r = 1%nat → rg_va r mod 4096 = 0 → 0 ≤ rg_pa r < 2 ^ 56 → 0 ≤ rg_perm r < 1024 → Z.lor (rg_perm r) PTE_V ≠ PTE_V →
  let e := leaf (view s) root (rg_va r) in
  PTE2PA e = rg_pa r ∧ has e PTE_V = true ∧ PTE_FLAGS e ≠ PTE_V ∧ (∀ f, 0 ≤ f < 1024 → has e f = has (rg_perm r) f || has PTE_V f).
Proof using LO W Hsz Hlen Htf.
  intros Hr Hn Ha Hpa Hpe Hne. destruct (whole_reads r (rg_va r) Hr) as (E1 & E2 & E3); [unfold in_region, rg_end; lia|].
  assert (Ed : PGROUNDDOWN (rg_va r) = rg_va r) by (rewrite pgrounddown_eq; dlia).
  rewrite Ed, Z.sub_diag, Z.add_0_r in E1, E2. cbv zeta. split_and!; [exact E2| | |exact E3].
  - rewrite E3 by (by vm_compute). apply orb_true_r.
  - rewrite E1, pte_of_flags, pte_flags_pa2pte; [done|done|by apply perm_range].
Qed.

Lemma whole_rest v : PGROUNDUP sz ≤ v < TRAPFRAME → leaf (view s) root v = 0.
Proof using W Hsz Hlen.
  intros Hv. change TRAPFRAME with 274877898752 in Hv.
  rewrite (km_leaf _ _ _ _ (gw_map _ _ _ _ _ _ _ W) v) by (change MAXVA with 274877906944; lia).
  apply kpte_none. intros r Hr Hin. destruct (top_bounds tf) as ((T1 & T2) & (U1 & U2)). unfold in_region in Hin.
  apply space_elem in Hr as [->|[->|(k & g & Hk & _ & ->)]]; [lia|lia|]. destruct (user_bounds k g). lia.
Qed.

Lemma whole_space : space_ok s root l sz (reverse gs).
Proof using LO W Hsz Hlen Htf.
  pose proof whole_bound as Hb. pose proof l_end_range as He. pose proof (l_trampoline_range (L := L)) as Ht. destruct Htf as [Ht1 Ht2]. split.
  - apply (gw_map _ _ _ _ _ _ _ W).
  - apply W.
  - rewrite length_reverse. change TRAPFRAME with 274877898752. lia.
  - rewrite reverse_Permutation. apply W.
  - intros k g Hk. assert (Hg : g ∈ gs) by (apply list_elem_of_lookup_2 in Hk; by rewrite elem_of_reverse in Hk).
    destruct (gw_frame _ _ _ _ _ _ _ W g Hg) as (Hp & [Hg1 Hg2] & _). pose proof (user_of gs k g Hk) as Hr.
    destruct (whole_page (r_user k g)) as (E1 & E2 & E3 & _).
    + apply elem_of_app. by left.
    + done.
    + cbn [rg_va r_user]. rewrite Z.mul_comm. apply Z.mod_mul. lia.
    + cbn [rg_pa r_user]. destruct Hg1. unfold PHYSTOP, KERNBASE in *. lia.
    + by vm_compute.
    + by vm_compute.
    + by split.
  - intros v [->| ->].
    + destruct (whole_page r_trampoline) as (_ & E2 & E3 & _); [apply elem_of_app; right; set_solver|done|done| |by vm_compute|by vm_compute|done].
      cbn [rg_pa r_trampoline]. unfold PHYSTOP, KERNBASE in *. lia.
    + destruct (whole_page (r_trapframe tf)) as (_ & E2 & E3 & _); [apply elem_of_app; right; set_solver|done|done| |by vm_compute|by vm_compute|done].
      cbn [rg_pa r_trapframe]. unfold PHYSTOP, KERNBASE in *. lia.
  - intros v Hv. by rewrite whole_rest.
Qed.

(** The memory reads as zeroes and the trap frame is where the trampoline looks
    for it. *)
Lemma whole_bytes v : 0 ≤ v < PGROUNDUP sz → xlate (view s) root v ≠ None ∧ ubyte s root v = 0.
Proof using LO W Hsz Hlen Htf.
  intros Hv. pose proof whole_bound as Hb. rewrite Hlen in Hv.
  assert (Hk : (Z.to_nat (v / 4096) < length (reverse gs))%nat) by (rewrite length_reverse; clear W; dlia).
  apply lookup_is_Some in Hk as [g Hg].
  assert (Hin : g ∈ gs) by (apply list_elem_of_lookup_2 in Hg; by rewrite elem_of_reverse in Hg).
  destruct (gw_frame _ _ _ _ _ _ _ W g Hin) as (_ & _ & Hz). pose proof (user_of gs _ g Hg) as Hr.
  destruct (whole_reads (r_user (Z.to_nat (v / 4096)) g) v) as (_ & E2 & E3); [apply elem_of_app; by left| |].
  { unfold in_region. destruct (user_bounds (Z.to_nat (v / 4096)) g). clear W. dlia. }
  assert (Ex : xlate (view s) root v = Some (4096 * g + v mod 4096)).
  { rewrite xlate_mapped; [|by rewrite E3 by (by vm_compute)..]. rewrite E2. cbn [rg_pa rg_va r_user].
    rewrite pgrounddown_eq, Z2Nat.id by (clear W; dlia). f_equal. lia. }
  unfold ubyte. rewrite Ex. split; [done|]. apply Hz. clear W. dlia.
Qed.

Lemma whole_trapframe :
  let e := leaf (view s) root TRAPFRAME in PTE2PA e = 4096 * tf ∧ has e PTE_V ∧ has e PTE_W ∧ has e PTE_U = false.
Proof using LO W Hsz Hlen Htf.
  pose proof l_end_range as He. destruct Htf as [Ht1 Ht2].
  destruct (whole_page (r_trapframe tf)) as (E1 & _ & _ & E3); [apply elem_of_app; right; set_solver|done|done| |by vm_compute|by vm_compute|].
  { cbn [rg_pa r_trapframe]. unfold PHYSTOP, KERNBASE in *. lia. }
  change (rg_va (r_trapframe tf)) with TRAPFRAME in E1, E3. cbv zeta. rewrite E1, !E3 by (by vm_compute). split_and!; [done|by vm_compute..].
Qed.
End whole.

Lemma uvmalloc_ok s0 s root tf sz l0 l :
  grown s0 root l0 tf [] l s → L_kmem ∉ k_held s0 → 0 ≤ sz ≤ 274877898752 →
  (5 + 3 * Z.to_nat (PGROUNDUP sz / 4096) ≤ length l0)%nat →
  ∃ gs l' s', uvmalloc root 0 sz s = Ok sz s' ∧ grown s0 root l0 tf gs l' s' ∧ PGROUNDUP sz = 4096 * Z.of_nat (length gs).
Proof using LO.
  intros W Hh Hsz Hroom. set (n := Z.to_nat (PGROUNDUP sz / 4096)) in *. pose proof (pgroundup_eq sz ltac:(lia)) as Ep.
  assert (En : PGROUNDUP sz = 4096 * Z.of_nat n) by (unfold n; rewrite Ep, (Z.mul_comm 4096), Z.div_mul, Z2Nat.id; [lia|dlia|lia]).
  destruct (uvmalloc_loop_ok s0 root l0 tf Hh n (S (Z.to_nat (sz / 4096))) [] l s sz W) as (gs & l' & s' & E & W' & Hl').
  - exact En.
  - exact Hsz.
  - assert (Z.of_nat n = (sz + 4095) / 4096) by lia. dlia.
  - exact Hroom.
  - exists gs, l', s'. split_and!; [|exact W'|by rewrite Hl'].
    unfold uvmalloc. rewrite (proj2 (Z.ltb_ge _ _)) by lia. change (PGROUNDUP 0) with 0. rewrite Z.sub_0_r. exact E.
Qed.

(** C10: The memory of a process is all given back.  From any free list with
    room, proc_pagetable() and uvmalloc() to size [sz] succeed: the first [sz]
    bytes, rounded up to pages, are mapped for the user and read as zero, the
    trap frame is mapped out of the user's reach, and nothing else is mapped
    below it.  proc_freepagetable() then succeeds, panics neither on a leaf nor
    on a page freed twice, and leaves a well-formed free list with exactly the
    pages it had at the start (each once); memory and reference counts of all
    other pages, the trap frame among them, are as before. *)
Theorem process_memory_life s p x tf l sz :
  free_list (k_mm s) l → L_kmem ∉ k_held s → k_procs s !! p = Some x → p_trapframe x = 4096 * tf → page_ok tf →
  0 ≤ sz ≤ TRAPFRAME → (5 + 3 * Z.to_nat (PGROUNDUP sz / 4096) ≤ length l)%nat →
  ∃ root s1 s2 s3 l3,
    proc_pagetable p s = Ok root s1 ∧ uvmalloc root 0 sz s1 = Ok sz s2 ∧
    (∀ v, 0 ≤ v < PGROUNDUP sz → xlate (view s2) root v ≠ None ∧ ubyte s2 root v = 0) ∧
    (∀ v, PGROUNDUP sz ≤ v < TRAPFRAME → leaf (view s2) root v = 0) ∧
    (let e := leaf (view s2) root TRAPFRAME in PTE2PA e = p_trapframe x ∧ has e PTE_V ∧ has e PTE_W ∧ has e PTE_U = false) ∧
    proc_freepagetable root sz s2 = Ok tt s3 ∧ free_list (k_mm s3) l3 ∧ l3 ≡ₚ l ∧ s3 = set_mm (k_mm s3) s ∧
    (∀ a, a / 4096 ∉ l → ld8 (mem s3) a = ld8 (mem s) a) ∧
    (∀ pg, pg ∉ l → run_at (k_mm s3) (run_addr pg) = run_at (k_mm s) (run_addr pg)).
Proof using LO.
  intros Hf Hh Hx Htf Hpg Hsz Hroom. change TRAPFRAME with 274877898752 in Hsz.
  destruct (proc_pagetable_ok s p x tf l Hf Hh Hx Htf Hpg) as (root & l1 & s1 & E1 & W1); [lia|].
  destruct (uvmalloc_ok s s1 root tf sz l l1 W1 Hh Hsz Hroom) as (gs & l2 & s2 & E2 & W2 & Hlen).
  pose proof (whole_space s s2 root tf sz l gs l2 W2 Hsz Hlen Hpg) as Sp.
  assert (Hh2 : L_kmem ∉ k_held s2) by (rewrite (gw_state _ _ _ _ _ _ _ W2); exact Hh).
  destruct (freepagetable_ok s2 root l2 sz (reverse gs) Sp Hh2) as (s3 & ts & E3 & F3 & Hts & S3 & M3 & R3).
  rewrite reverse_involutive in F3.
  exists root, s1, s2, s3, (reverse ts ++ gs ++ l2). split_and!; [exact E1|exact E2| | | |exact E3|exact F3| | | |].
  - intros v Hv. by apply (whole_bytes s s2 root tf sz l gs l2).
  - intros v Hv. by apply (whole_rest s s2 root tf sz l gs l2).
  - rewrite Htf. by apply (whole_trapframe s s2 root tf sz l gs l2).
  - apply NoDup_Permutation; [apply F3|apply Hf|]. intros pg. pose proof (gw_books _ _ _ _ _ _ _ W2 pg) as Hb.
    rewrite !elem_of_app, elem_of_reverse, Hts. unfold is_table in Hb. tauto.
  - rewrite S3, (gw_state _ _ _ _ _ _ _ W2). done.
  - intros a Ha. destruct (grown_outside _ _ _ _ _ _ _ _ W2 Ha) as [Hp Hg].
    rewrite M3; [by apply (gw_mem _ _ _ _ _ _ _ W2)|done|by rewrite elem_of_reverse].
  - intros pg Ha. destruct (grown_outside _ _ _ _ _ _ _ _ W2 Ha) as [Hp Hg].
    rewrite R3; [by apply (gw_ref _ _ _ _ _ _ _ W2)|done|by rewrite elem_of_reverse].
Qed.
End life.

(** The machine of [Machine] with a trap frame for process 0: one page of
    memory takes all of its eight free pages. *)
Definition st_tf : kstate := set_procs (alter (set_trapframe (4096 * 0x87100)) 0%nat (k_procs st0)) st0.

Lemma process_memory_life_witness :
  ∃ root s1 s2 s3 l3, proc_pagetable 0 st_tf = Ok root s1 ∧ uvmalloc root 0 4000 s1 = Ok 4000 s2 ∧ ubyte s2 root 4095 = 0 ∧
    proc_freepagetable root 4000 s2 = Ok tt s3 ∧ free_list (k_mm s3) l3 ∧ l3 ≡ₚ free0.
Proof.
  destruct (process_memory_life st_tf 0 (set_trapframe (4096 * 0x87100) (running [Some 0%nat])) 0x87100 free0 4000)
    as (root & s1 & s2 & s3 & l3 & E1 & E2 & Hb & _ & _ & E3 & F & P & _).
  - exact free_list0.
  - apply not_elem_of_empty.
  - reflexivity.
  - reflexivity.
  - split; [discriminate|reflexivity].
  - split; discriminate.
  - apply Nat.leb_le. reflexivity.
  - exists root, s1, s2, s3, l3. split_and!; [exact E1|exact E2| |exact E3|exact F|exact P].
    apply (Hb 4095). split; [discriminate|reflexivity].
Defined.
